(* ===== verification/_CoqProject ===== *)
-Q . S2P
Prelude.v
GoStrings.v
GoSha256.v
GoTime.v
GoFloat.v
GoJson.v
Uuid.v
Identity.v
Urn.v
Telemetry.v
Decode.v
Validation.v
Message.v
Txn.v
Store.v
Persist.v
PersistSpec.v
Ingress.v
IngressSpec.v
IngressDemo.v
Batch.v
Outbox.v
OutboxSpec.v
OutboxQueue.v
AckParse.v
AckProcessor.v
OutboxDemo.v
Scheduler.v
SchedulerInv.v
SchedulerRun.v
Uplink.v
UplinkDemo.v
QueryTime.v
HistoryQuery.v
HistoryStore.v
ReadWorld.v
History.v
HistoryRepo.v
HistorySpec.v
HistoryReaderSpec.v
HistoryServiceSpec.v
HistoryErrors.v
HistoryData.v
HistoryDemo.v
TwinModel.v
QueryParser.v
QueryParserSpec.v
Cursor.v
TwinValidation.v
TwinStore.v
Registry.v
Provision.v
Patch.v
Mutation.v
Users.v
UserHandlers.v
RegistryInv.v
ProvisionSpec.v
ProvisionRun.v
UserEffects.v
MutationSpec.v
TwinReader.v
TwinService.v
TwinTemporal.v
TwinServiceSpec.v
TwinPages.v
TemporalSpec.v
WriteSpec.v
UserSpec.v
RegistryDemo.v
UserDemo.v
TwinDemo.v
Credential.v
CredentialStore.v
CredentialExecutor.v
CredentialService.v
CredentialJournal.v
CredentialEffects.v
CredentialServiceSpec.v
CredentialDemo.v
