(* ===== verification/Prelude.v ===== *)
(** * IoT telemetry platform: a verification development

    The program under [src/src] ingests sensor telemetry over MQTT, stores it in
    PostgreSQL/TimescaleDB together with a Digital Twin of every Sensor, and
    serves it over HTTP.  A Gateway simulator (package [gatewaysim]) is the
    client side of the same protocol: it keeps every batch in a durable SQLite
    outbox until the server acknowledges that the batch is committed.

    The server also keeps the registry of Gateways and Sensors, and gives every
    Gateway its MQTT credential through the broker's dynamic security plugin;
    administrators manage the users, their platform roles and their memberships.

    The development models six paths and their composition:

    - the uplink: simulator scheduler and outbox, broker, ingress core,
      telemetry validation, the write transaction, the acknowledgement and the
      simulator's acknowledgement worker;
    - the tables the write transaction leaves behind;
    - the read paths of [GET /v1/telemetry/history] and [GET
      /v1/digital-twins], from the text of the query to the rows and back to
      the HTTP status;
    - the write path of the registry, from the request body to the tables;
    - the administrators' operations on users and memberships, over those tables;
    - the MQTT credentials: the journal of operations, the commands to the broker
      and the service that runs one operation at a time.

    ** Files and the code they model

    - Language and Standard Library of Go: [GoStrings] (integers at their width,
      strings), [GoSha256], [GoTime] (instants, calendar, RFC 3339), [GoFloat]
      (binary64 and its decimal text), [GoJson] (encoding/json).
      [Uuid] is the interface of github.com/google/uuid with its documented
      laws and a concrete instance; [Txn] is the boundary to a SQL database.
    - [Identity]: [gateway/identifier.go], [digitaltwin/mapper/identity.go].
    - [Telemetry]: [telemetry/model.go], [errors.go], [topic.go].  [Decode]:
      [telemetry/decode.go].  [Validation]: [telemetry/validation.go].
      [Message]: [telemetry/message.go] and [ack.go].
    - [Store]: the tables.  [Persist]: [telemetry/postgres_repository.go],
      [postgres_ledger.go], [postgres_resources.go],
      [postgres_reported_state.go], [postgres_temporal.go].  [PersistSpec]: its
      theorems, redelivery included.
    - [Ingress]: [mqttingress/ingress.go], [counters.go], [interfaces.go] as
      operations on one state record and a step relation over the callbacks,
      the workers and the life-cycle calls.  [IngressSpec]: its
      theorems; [IngressSpec.RepositoryContract] is what the core needs of a
      repository, discharged by the telemetry package.
    - [Batch]: [gatewaysim/batch.go].  [Outbox]: [gatewaysim/outbox.go], with
      [OutboxSpec] and [OutboxQueue] (paging, histories).  [AckParse] and
      [AckProcessor]: [gatewaysim/ack.go].  [Scheduler]:
      [gatewaysim/scheduler.go], with [SchedulerInv] and
      [SchedulerRun].
    - [Uplink]: the composition of all of the above over a
      broker that may lose, repeat, delay and reorder.
    - [HistoryQuery]: [telemetry/history_query.go].  [HistoryStore]: the SQL of
      the readers and the classes of driver errors
      ([gateway/postgres_inventory_errors.go]).  [History]:
      [telemetry/history_preparation.go] and [history_service.go], over the
      interfaces [SensorResolver] and [HistoryReader].  [HistoryRepo]:
      [telemetry/postgres_history_repository.go] and [ResolveSensor] of
      [digitaltwin/postgres_resolver.go], the instances.  [HistorySpec]
      (the reference answers), [HistoryReaderSpec], [HistoryServiceSpec],
      [HistoryErrors] (with [httpserver/read_error.go]), [HistoryData]: its
      theorems.
      [ReadWorld] has the lemmas on reads that see one state of the tables.
    - [Urn]: [digitaltwin/identity.go], [errors.go].  [TwinModel]:
      [digitaltwin/protocol.go], [read_model.go] and
      [config/read_bounds.go].  [Cursor]: [digitaltwin/cursor.go].  [TwinValidation]:
      [digitaltwin/validation.go] and [httpserver/twin_query_parser.go].
    - [QueryTime], [QueryParser] (with the query decoding of net/url) and
      [QueryParserSpec]: [httpserver/history_query_parser.go].
    - [TwinStore]: the SQL of the Digital Twin reads.  [TwinReader]:
      [digitaltwin/postgres_twin_reader.go] and [postgres_resolver.go].
      [TwinService]: [digitaltwin/read_preparation.go], [read_service.go] over
      the interfaces of [interfaces.go].  [TwinTemporal] (with [GoFloat]):
      [digitaltwin/postgres_temporal_reader.go] and the instances.
      [TwinServiceSpec] (with [cmd/server/stage4.go]), [TwinPages],
      [TemporalSpec]: their theorems.
    - [Registry]: the tables with the columns that only writes need, and the
      statements of [gateway/postgres_*.go], [auth/postgres_admin.go] and
      [digitaltwin/postgres_*_patch.go] with the constraints of the migrations.
      [Provision]: the rest of [gateway/*provisioning*.go] and
      [digitaltwin/create_*.go].  [Patch]: [digitaltwin/metadata_model.go],
      [patch_service.go] and the two patchers.  [Mutation]: the request bodies,
      handlers and answers of [httpserver/provisioning_request.go],
      [post_entity_request.go], [patch_entity_request.go], [mutation_dto.go] and
      [mutation_handlers.go].  [RegistryInv] (well-formed tables),
      [ProvisionSpec] (what a write does, whatever the database answers),
      [ProvisionRun] (what it decides when the database answers), [MutationSpec]
      (from the body to the answer), [WriteSpec] (runs of the server, retries):
      their theorems.
    - [Users]: [usermanagement/validation.go], [models.go], [errors.go],
      [service.go], [repository.go] and [postgres_repository.go], over the tables
      of [Registry] with the accounts and the names ([UserDB]).  [UserHandlers]:
      [httpserver/admin_user_handlers.go] and [cmd/server/usermanagement.go].
      [UserEffects] (what each transaction does, whatever the database answers)
      and [UserSpec] (answers, removals, transfers, administrators, the list):
      their theorems.
    - [Credential]: [mqttcredential/model.go], [reset_contract.go], [secret.go]
      and the admission errors of [service.go].  [CredentialStore]: the tables
      ([CredentialDB]) and the transactions of [postgres_repository.go],
      [postgres_simplified_operation.go], [postgres_reset.go] and
      [postgres_finalization.go].  [CredentialExecutor]:
      [dynsec_simplified_adapter.go] behind the gate of
      [cmd/server/credential.go], whose commands are a log, with what an
      execution sends.  [CredentialService]: [service.go]; its record [CState]
      is the tables, that log, the secret held, and the poison and busy flags.
      [CredentialJournal] (the invariant of the journal, the order in which
      journals grow), [CredentialEffects] (what each transaction does to it)
      and [CredentialServiceSpec] (what requests do): their theorems.
    - [IngressDemo], [OutboxDemo], [UplinkDemo], [HistoryDemo], [TwinDemo],
      [RegistryDemo], [UserDemo], [CredentialDemo]: the theorems applied to concrete inputs.

    ** What the theorems show

    - Input: [decodeBatch] and [Validate] accept exactly the well-formed batches
      and expand them without overflow; what the simulator builds and what the
      server acknowledges is read back by the other side.
    - Storage: the write transaction is atomic, duplicates and conflicts are
      told apart, sequence ranges stay disjoint, the reported state only moves
      forward.
    - Ingress: memory is bounded, every admitted item is counted once, a drain
      is complete and terminates, and only a recorded message is acknowledged.
    - Outbox, worker and scheduler: the quota of rows and of topic and payload
      bytes (not of the SQLite file), contiguous sequence numbers, paging,
      removal only on a valid acknowledgement, one publish per message, retry
      and wake-up times, completion.
    - End to end: no batch is lost, the server holds only batches of the outbox,
      and a finite run that reports completion has delivered everything.
    - Reading: the history service computes its reference answer where nothing
      fails; in any world an answer was authorised and is exact for one state of
      the tables; buckets partition the samples; the automatic resolution is the
      smallest that fits; a committed sample shows up in every later answer that
      covers it; and the HTTP status of a refusal tells what happened.
    - Query texts: what a parser lets through the service accepts, every
      accepted query can be asked, timestamps are those of the telemetry
      protocol, and a refused text is a bad request.
    - Digital Twin reads: the composed service computes its reference answers;
      an answer was authorised in the tables it shows; following the cursors of
      a list shows every entity once; a cursor only decodes under the filters
      it was made for; a temporal history is complete, of one type and of one
      unit; and what ingestion stores is what the temporal reader accepts.
    - Registry writes: in any world a write completes only for an authorised
      actor, with exactly its effect, and a refused one changes nothing unless
      its commit was unconfirmed; such a call can be repeated.  On a database
      that answers, the creation and patch handlers answer what the tables
      decide: the whole answer to a creation, and the status, the entity and
      its name for a patch.  Every state that provisioning, patches, ingestion and changes
      of memberships reach from empty tables satisfies what the reads assume and
      has one owner for every Gateway, and any Sensor in it can receive telemetry.
    - Users: the membership endpoints answer what the tables decide, and the class
      of the status is the truth whatever the database answers; a removed user is
      refused by every read and by the owners' endpoint at once; a transfer makes
      exactly one new owner; the list is complete and within its limits; updates
      that do not overlap leave an administrator, and overlapping ones need not.
    - Credentials: whatever requests, restarts and answers of database and
      broker, the journal stays consistent and only grows; a secret is shown only
      for a durable success with the password the broker accepted; a key runs
      once; a refusal that leaves the service unpoisoned changed nothing but, at
      most, one failed operation in the journal and its Gateway's row, which
      keeps its projection (and a reset's disposition); an execution sends a beginning of
      its plan, or none of it when it reports no mutation.  One theorem shows a
      fault: after some failed resets no request has any effect any more.

    ** Choices of the model

    - A call to a database consumes a reply ([Txn.Reply], or the reply of a tick
      in [HistoryStore.World]), so every error path is reachable; a commit may
      fail and still be durable.  Write transactions of one Sensor are serial,
      as the row lock the code takes makes them; read requests see the tables
      change between any two statements.
    - Goroutines that share state interleave at the granularity of their atomic
      actions ([Ingress.step], [AckProcessor.ack_step],
      [SchedulerRun.sched_step], [Uplink.up_step]).  What Go leaves open (the
      order of a map, the arm a select takes, clocks, random numbers, new
      identifiers) is an environment argument: [Persist.Weather],
      [Outbox.OutboxWeather], [Scheduler.PassEnv], [Scheduler.TurnEnv].
    - Sequence numbers, durations and microseconds are computed at 64 bits with
      wrap-around; instants are unbounded nanoseconds and event counters
      unbounded, since neither reaches its limit.
    - Lists that only proofs read (the publications ever started, the rows ever
      stored) are kept beside the code's state.
    - A registry write is one atomic step, committed or not: the code holds a
      lock on the Gateway row (FOR UPDATE or FOR SHARE) and on the row it
      writes, and unique keys order two creations of one row.
    - A membership write is one atomic step too: it locks the Gateway row first.
      An update of a user locks the row of its target only, so
      [UserSpec.overlapping] runs two of them interleaved.  Accounts are never
      deleted, and which exist is the identity provider's to say
      ([WriteSpec.CallUsers]).
    - [mime.ParseMediaType], the accepted media type and the principal are
      inputs of the handlers; an answer is the value given to the encoder.
    - A credential request sees a world that gives each call to the database its
      reply, clock and new identifiers.  Such a call is assumed to report
      [pgx.ErrNoRows] only when there is no row and a clock past year 1
      ([CredentialJournal.call_ok]), and one server owns the
      journal, which the advisory lock of [cmd/server/credential_owner.go] is for.
      The broker may answer anything.  A crash is a request whose later calls all
      fail, followed by a restart of the service.

    ** Fuel

    [GoJson] counts nesting down from the limit of encoding/json, so running out
    is the program's own error.  The number formatters use as much fuel as a
    number can have digits, [GoSha256] as many rounds and blocks as the padded
    text has, [Persist.copy_drain] one more than the rows of the source, and
    [OutboxQueue.walk] one more than the pending items; the theorems about them hold for
    that fuel.  [Mutation.validJSONUnicode] takes one more than the length of the
    body, and more changes nothing ([MutationSpec.valid_outside_fuel]).
    [Credential.inspect_budget] is the program's own limit of 64.  All other recursion is structural.

    ** Not modelled

    The MQTT transports of server and simulator (callbacks and reconnects of a
    third-party client), the latency recorder, file locks and connection
    settings, configuration from the environment, routing, authentication and
    response encoding over net/http and a JWT library, the process wiring, and
    TimescaleDB's [time_bucket] and the SQL aggregates, which are the interface
    [HistoryStore.SqlFunctions] with the documented law of [time_bucket]; the
    text PostgreSQL gives a jsonb value and MIN over texts are the interfaces
    [TwinReader.JsonbText] and [TwinTemporal.TextMin].

    The read handlers and their response bodies, JSON-LD included, and the lists
    of a user's or administrator's Gateways are not modelled: they read and print
    what the models of the readers answer, and change nothing.  Of the credential
    package, the older engine with its privileged controller, which the server
    does not construct, the broker client over MQTT, the probes and the files of
    the broker, and the classification of the journal at the start are left out.
    Of user management, the adapter that creates an account at the identity
    provider over HTTP is an argument ([Users.AuthAdminClient]); what an account
    looks like after its creation is read back by the modelled code. *)

From Stdlib Require Export Ascii ZArith Lia.
From Stdlib Require Export Sorting.Sorted.
From stdpp Require Export gmap strings list fin_maps option.

#[global] Set Default Goal Selector "!".

(** ** Results

    A Go function that returns [(T, error)] becomes a function into [res E T]:
    [Ok v] is the value with a nil error, [Err e] the zero value with error
    [e].  No modelled caller reads the value beside a non-nil error. *)

Inductive res (E A : Type) : Type :=
| Ok (val : A)
| Err (err : E).
Arguments Ok {E A} val.
Arguments Err {E A} err.

#[export] Instance res_eq_dec {E A} `{EqDecision E, EqDecision A} : EqDecision (res E A).
Proof. solve_decision. Defined.

#[export] Instance res_ret {E} : MRet (res E) := fun A v => Ok v.

#[export] Instance res_bind {E} : MBind (res E) := fun A B f r =>
  match r with Ok v => f v | Err e => Err e end.

Definition is_ok {E A} (r : res E A) : bool :=
  match r with Ok _ => true | Err _ => false end.

(** An optional value with the error Go reports when it is absent. *)
Definition or_err {E A} (e : E) (o : option A) : res E A :=
  match o with Some v => Ok v | None => Err e end.

Declare Scope go_scope.
Delimit Scope go_scope with go.
Notation "'let!' x ':=' m 'in' k" := (mbind (fun x => k) m)
  (at level 10, x pattern, m at level 100, k at level 200) : go_scope.
#[global] Open Scope go_scope.

(** ** Rewriting database for Go's boolean conditions *)

Create Rewrite HintDb gobool.
#[export] Hint Rewrite negb_true_iff negb_false_iff
  orb_true_iff orb_false_iff andb_true_iff andb_false_iff
  @bool_decide_eq_true @bool_decide_eq_false
  Z.ltb_lt Z.ltb_ge Z.leb_le Z.leb_gt Z.eqb_eq Z.eqb_neq : gobool.

(** Turns every boolean equation of the context into a proposition. *)
Ltac gobool :=
  repeat match goal with
  | H : context [Z.gtb _ _] |- _ => rewrite Z.gtb_ltb in H
  | H : context [Z.geb _ _] |- _ => rewrite Z.geb_leb in H
  end;
  autorewrite with gobool in *;
  destruct_and?.

(** [inv_ok H] inverts [H : code = Ok v]: it follows the successful branch of
    every test and match the code goes through, and keeps what each one
    established as a hypothesis. *)
Ltac inv_ok H :=
  repeat (cbn [mbind res_bind mret res_ret or_err] in H;
    match type of H with
    | Err _ = Ok _ => discriminate H
    | Ok _ = Ok _ => injection H as H
    | None = Some _ => discriminate H
    | Some _ = Some _ => injection H as H
    | (if ?b then _ else _) = _ => destruct b eqn:?; try discriminate H
    | (match ?x with _ => _ end) = _ => destruct x eqn:?; try discriminate H
    | mbind _ ?m = _ => destruct m eqn:?; try discriminate H
    end).

(** [lia] with division and remainder by constants. *)
Ltac dlia := Z.to_euclidean_division_equations; lia.

(** [bdec t] decides every [bool_decide] of the goal that [t] proves or refutes. *)
Ltac bdec t :=
  repeat match goal with
  | |- context [bool_decide ?P] =>
      first [rewrite (bool_decide_true P) by t | rewrite (bool_decide_false P) by t]
  end.

(** [case_tests] splits every conditional of the goal. *)
Ltac case_tests :=
  repeat match goal with
  | |- context [if ?b then _ else _] => destruct b eqn:?
  | |- context [match ?x with _ => _ end] => destruct x eqn:?
  end.

(** ** Lists *)

(** The whole list is visited in order, as a Go [for ... range] loop that
    returns on the first error. *)
Fixpoint map_res {E A B} (f : A -> res E B) (l : list A) : res E (list B) :=
  match l with
  | [] => Ok []
  | x :: l' => let! y := f x in let! ys := map_res f l' in Ok (y :: ys)
  end.

Lemma map_res_length {E A B} (f : A -> res E B) l ys :
  map_res f l = Ok ys -> length ys = length l.
Proof.
  revert ys. induction l as [|x l IH]; intros ys H; cbn in H; inv_ok H; subst; [done|].
  cbn. by rewrite (IH _ eq_refl).
Qed.

Lemma map_res_lookup {E A B} (f : A -> res E B) l ys i y :
  map_res f l = Ok ys -> ys !! i = Some y -> exists x, l !! i = Some x /\ f x = Ok y.
Proof.
  revert ys i. induction l as [|x l IH]; intros ys i H Hi; cbn in H; inv_ok H; subst; [done|].
  destruct i as [|i]; cbn in Hi; [injection Hi as <-; eauto|].
  by apply (IH _ i eq_refl).
Qed.

Lemma filter_all {A} (P : A -> Prop) `{!forall x, Decision (P x)} (l : list A) :
  (forall i x, l !! i = Some x -> P x) -> filter P l = l.
Proof.
  induction l as [|x l IH]; intros Hl; [done|].
  rewrite filter_cons_True by (by apply (Hl 0%nat)). f_equal. apply IH. intros i y Hi. by apply (Hl (S i)).
Qed.

Lemma filter_none {A} (P : A -> Prop) `{!forall x, Decision (P x)} (l : list A) :
  (forall i x, l !! i = Some x -> ~ P x) -> filter P l = [].
Proof.
  induction l as [|x l IH]; intros Hl; [done|].
  rewrite filter_cons_False by (by apply (Hl 0%nat)). apply IH. intros i y Hi. by apply (Hl (S i)).
Qed.

Lemma existsb_false {A} (f : A -> bool) l : (forall x, x ∈ l -> f x = false) -> existsb f l = false.
Proof.
  intros Hf. apply not_true_iff_false. rewrite existsb_exists. intros (x & Hx & Hfx).
  apply list_elem_of_In in Hx. by rewrite Hf in Hfx.
Qed.

(** ** Sums over finite maps *)

Definition map_sum {K V} `{Countable K} (f : V -> Z) (m : gmap K V) : Z :=
  map_fold (fun _ v acc => (f v + acc)%Z) 0%Z m.

Lemma map_sum_insert {K V} `{Countable K} (f : V -> Z) (m : gmap K V) k v :
  m !! k = None -> map_sum f (<[k:=v]> m) = (f v + map_sum f m)%Z.
Proof.
  intros Hk. unfold map_sum.
  rewrite map_fold_insert_L; [done| |done]. intros; lia.
Qed.

Lemma map_sum_delete {K V} `{Countable K} (f : V -> Z) (m : gmap K V) k v :
  m !! k = Some v -> map_sum f (delete k m) = (map_sum f m - f v)%Z.
Proof.
  intros Hk. rewrite <- (insert_delete_id m k v Hk) at 2.
  rewrite map_sum_insert; [lia|apply lookup_delete_eq].
Qed.

Lemma map_sum_update {K V} `{Countable K} (f : V -> Z) (m : gmap K V) k v v' :
  m !! k = Some v -> map_sum f (<[k:=v']> m) = (map_sum f m - f v + f v')%Z.
Proof.
  intros Hk. rewrite <- insert_delete_eq, map_sum_insert by apply lookup_delete_eq.
  rewrite (map_sum_delete f m k v Hk). lia.
Qed.

Lemma map_sum_nonneg {K V} `{Countable K} (f : V -> Z) (m : gmap K V) :
  (forall v, 0 <= f v)%Z -> (0 <= map_sum f m)%Z.
Proof.
  intros Hf. unfold map_sum. apply (map_fold_weak_ind (fun r _ => (0 <= r)%Z)); [lia|].
  intros k v m' r _ IH. specialize (Hf v). lia.
Qed.

(** ** Sums over lists *)

Definition list_sum {A} (f : A -> Z) (l : list A) : Z := foldr (fun x acc => (f x + acc)%Z) 0%Z l.

Lemma list_sum_app {A} (f : A -> Z) l1 l2 : list_sum f (l1 ++ l2) = (list_sum f l1 + list_sum f l2)%Z.
Proof. induction l1 as [|x l1 IH]; cbn; [done|]. unfold list_sum in *. rewrite IH. lia. Qed.

Lemma list_sum_cons {A} (f : A -> Z) x l : list_sum f (x :: l) = (f x + list_sum f l)%Z.
Proof. done. Qed.

Lemma list_sum_ext {A} (f g : A -> Z) l : (forall x, f x = g x) -> list_sum f l = list_sum g l.
Proof. intros Hfg. induction l as [|x l IH]; [done|]. by rewrite !list_sum_cons, IH, Hfg. Qed.

Lemma list_sum_fmap {A B} (f : B -> Z) (g : A -> B) l : list_sum f (g <$> l) = list_sum (fun x => f (g x)) l.
Proof. induction l as [|x l IH]; [done|]. cbn [fmap list_fmap]. by rewrite !list_sum_cons, IH. Qed.

Lemma list_sum_update {A} (f : A -> Z) l k x y :
  l !! k = Some x -> list_sum f (<[k:=y]> l) = (list_sum f l - f x + f y)%Z.
Proof.
  revert k. induction l as [|z l IH]; intros [|k] Hk; try done.
  - injection Hk as ->. cbn. lia.
  - change ((f z + list_sum f (<[k:=y]> l))%Z = (f z + list_sum f l - f x + f y)%Z).
    rewrite (IH k Hk). lia.
Qed.

Lemma list_sum_nonneg {A} (f : A -> Z) l : (forall x, 0 <= f x)%Z -> (0 <= list_sum f l)%Z.
Proof. intros Hf. induction l as [|x l IH]; cbn; [done|]. specialize (Hf x). unfold list_sum in *. lia. Qed.

#[global] Arguments list_sum : simpl never.
#[global] Arguments map_sum : simpl never.

(** ** Sorted lists *)

Lemma StronglySorted_snoc {A} (R : A -> A -> Prop) l y :
  StronglySorted R l -> Forall (fun x => R x y) l -> StronglySorted R (l ++ [y]).
Proof.
  induction 1 as [|x l Hl IH Hx]; intros HF; cbn; [repeat constructor|].
  apply list.Forall_cons in HF as [Hxy HF]. constructor; [by apply IH|].
  apply list.Forall_app. split; [done|]. by constructor.
Qed.

Lemma Forall_List_filter {A} (P : A -> Prop) (f : A -> bool) l : Forall P l -> Forall P (List.filter f l).
Proof. induction 1 as [|x l Hx _ IH]; cbn; [done|]. destruct (f x); [by constructor|done]. Qed.

Lemma StronglySorted_filter {A} (R : A -> A -> Prop) (f : A -> bool) l :
  StronglySorted R l -> StronglySorted R (List.filter f l).
Proof.
  induction 1 as [|x l _ IH Hx]; cbn; [constructor|]. destruct (f x); [|done].
  constructor; [done|]. by apply Forall_List_filter.
Qed.

Lemma StronglySorted_map {A} (R : A -> A -> Prop) (g : A -> A) l :
  (forall x y, R x y -> R (g x) (g y)) -> StronglySorted R l -> StronglySorted R (map g l).
Proof.
  intros Hg. induction 1 as [|x l _ IH Hx]; cbn; [constructor|]. constructor; [done|].
  induction Hx as [|y l Hy _ IHl]; cbn; constructor; [by apply Hg|].
  apply IHl. by inversion IH.
Qed.

Lemma StronglySorted_lookup {A} (R : A -> A -> Prop) l i j x y :
  StronglySorted R l -> (i < j)%nat -> l !! i = Some x -> l !! j = Some y -> R x y.
Proof.
  intros Hs. revert i j. induction Hs as [|z l _ IH Hz]; intros i j Hij Hx Hy; [done|].
  destruct j as [|j]; [lia|]. destruct i as [|i]; cbn in *.
  - injection Hx as ->. by apply (Forall_lookup_1 _ _ _ _ Hz Hy).
  - apply (IH i j); [lia|done..].
Qed.

Lemma list_sum_filter_le {A} (f : A -> Z) (g : A -> bool) l : Forall (fun x => 0 <= f x)%Z l ->
  (list_sum f (List.filter g l) <= list_sum f l)%Z.
Proof.
  unfold list_sum. induction 1 as [|x l Hx _ IH]; cbn; [lia|]. destruct (g x); cbn; lia.
Qed.

Lemma length_List_filter_le {A} (g : A -> bool) (l : list A) : (length (List.filter g l) <= length l)%nat.
Proof. induction l as [|x l IH]; cbn; [lia|]. destruct (g x); cbn; lia. Qed.
