(* ===== verification/GoStrings.v ===== *)
(** * The Go integer and string operations the program uses

    Fixed-width signed integers are [Z] values with their wrap-around written
    out.  A Go [string] and a Go [[]byte] are both a list of bytes, the Standard
    Library's [string]. *)

From S2P Require Import Prelude.
#[local] Open Scope Z_scope.

(** ** int64 and int32 *)

Definition wrap_int (w z : Z) : Z := (z + 2 ^ (w - 1)) mod 2 ^ w - 2 ^ (w - 1).
Abbreviation wrap64 := (wrap_int 64).
Abbreviation wrap32 := (wrap_int 32).

Definition max_int64 : Z := 9223372036854775807.
Definition min_int64 : Z := -9223372036854775808.
Definition max_int32 : Z := 2147483647.

Definition in_int64 (z : Z) : Prop := min_int64 <= z <= max_int64.

Definition int64_add (a b : Z) : Z := wrap64 (a + b).
Definition int64_sub (a b : Z) : Z := wrap64 (a - b).
Definition int64_mul (a b : Z) : Z := wrap64 (a * b).

(** ** Characters *)

Definition byte_of (c : ascii) : Z := Z.of_N (N_of_ascii c).
Definition chr (n : Z) : ascii := ascii_of_N (Z.to_N n).

Definition in_range (lo hi : Z) (c : ascii) : bool :=
  (lo <=? byte_of c) && (byte_of c <=? hi).

Definition is_digit : ascii -> bool := in_range 48 57.
Definition is_upper : ascii -> bool := in_range 65 90.
Definition is_lower : ascii -> bool := in_range 97 122.
Definition digit_val (c : ascii) : Z := byte_of c - 48.

(** ** Strings *)

Fixpoint str_forallb (f : ascii -> bool) (s : string) : bool :=
  match s with
  | EmptyString => true
  | String c s' => f c && str_forallb f s'
  end.

Definition str_len (s : string) : Z := Z.of_nat (String.length s).

(** [s[i]] where the caller has checked the length. *)
Definition byte_at (s : string) (i : nat) : ascii := default Ascii.zero (String.get i s).

(** [s[i:j]]. *)
Definition slice (i j : nat) (s : string) : string := String.substring i (j - i)%nat s.
(** [s[i:]]. *)
Definition slice_from (i : nat) (s : string) : string :=
  String.substring i (String.length s - i)%nat s.

(** [strings.Split(s, sep)] for a one-byte separator. *)
Fixpoint Split (s : string) (sep : ascii) : list string :=
  match s with
  | EmptyString => [""]
  | String c s' =>
      if decide (c = sep) then "" :: Split s' sep
      else match Split s' sep with
           | w :: ws => String c w :: ws
           | [] => [String c ""]
           end
  end.

Fixpoint Join (ws : list string) (sep : ascii) : string :=
  match ws with
  | [] => ""
  | [w] => w
  | w :: ws' => w +:+ String sep (Join ws' sep)
  end.

Definition has_suffix_char (s : string) (c : ascii) : bool :=
  match list.last (String.list_ascii_of_string s) with
  | Some d => bool_decide (d = c)
  | None => false
  end.

(** ** strconv *)

Fixpoint digits_val (acc : Z) (s : string) : option Z :=
  match s with
  | EmptyString => Some acc
  | String c s' => if is_digit c then digits_val (10 * acc + digit_val c) s' else None
  end.

(** [strconv.Atoi] on a string the caller has checked to be decimal digits. *)
Definition Atoi (s : string) : Z := default 0 (digits_val 0 s).

(** [strconv.ParseInt(s, 10, bits)]: an optional sign, decimal digits, and the
    range check of the bit size. *)
Definition ParseInt10 (s : string) (bits : Z) : option Z :=
  match s with
  | EmptyString => None
  | String c s' =>
      let neg := bool_decide (c = "-"%char) in
      let body := if bool_decide (c = "+"%char) || neg then s' else s in
      match body with
      | EmptyString => None
      | _ =>
          match digits_val 0 body with
          | None => None
          | Some n =>
              let cutoff := 2 ^ (bits - 1) in
              if negb neg && (cutoff <=? n) then None
              else if neg && (cutoff <? n) then None
              else Some (if neg then - n else n)
          end
      end
  end.

(** The [w] low decimal digits of [n], most significant first. *)
Fixpoint fixed_digits (w : nat) (n : Z) (acc : string) : string :=
  match w with
  | O => acc
  | S w' => fixed_digits w' (n / 10) (String (chr (48 + n mod 10)) acc)
  end.

(** The number of decimal digits of [n], given enough fuel. *)
Fixpoint num_digits (fuel : nat) (n : Z) : nat :=
  match fuel with
  | O => 1%nat
  | S fuel' => if n <? 10 then 1%nat else S (num_digits fuel' (n / 10))
  end.

(** [strconv.FormatInt(n, 10)]; twenty digits cover every int64. *)
Definition FormatInt (n : Z) : string :=
  if n <? 0 then String "-" (fixed_digits (num_digits 20 (- n)) (- n) "")
  else fixed_digits (num_digits 20 n) n "".

(** ** Facts about wrap-around *)

Lemma wrap_int_id w z : 0 < w -> - 2 ^ (w - 1) <= z < 2 ^ (w - 1) -> wrap_int w z = z.
Proof.
  intros Hw Hz. unfold wrap_int.
  assert (2 ^ w = 2 * 2 ^ (w - 1)) as E.
  { rewrite <- Z.pow_succ_r by lia. f_equal. lia. }
  rewrite Z.mod_small; lia.
Qed.

Lemma wrap64_id z : in_int64 z -> wrap64 z = z.
Proof.
  unfold in_int64, min_int64, max_int64. intros H. apply wrap_int_id; [lia|].
  change (2 ^ (64 - 1)) with 9223372036854775808. lia.
Qed.

Lemma wrap32_id z : - 2147483648 <= z <= max_int32 -> wrap32 z = z.
Proof.
  unfold max_int32. intros H. apply wrap_int_id; [lia|].
  change (2 ^ (32 - 1)) with 2147483648. lia.
Qed.

Lemma wrap64_range z : in_int64 (wrap64 z).
Proof.
  unfold in_int64, wrap_int, min_int64, max_int64.
  change (2 ^ (64 - 1)) with 9223372036854775808.
  change (2 ^ 64) with 18446744073709551616.
  pose proof (Z.mod_pos_bound (z + 9223372036854775808) 18446744073709551616). lia.
Qed.

(** ** Facts about strings *)

Lemma str_app_cons c s1 s2 : String c s1 +:+ s2 = String c (s1 +:+ s2).
Proof. done. Qed.

Lemma str_app_nil_l s : "" +:+ s = s.
Proof. done. Qed.

Lemma str_app_nil_r s : s +:+ "" = s.
Proof. induction s as [|c s IH]; [done|]. by rewrite str_app_cons, IH. Qed.

Lemma str_app_assoc s1 s2 s3 : (s1 +:+ s2) +:+ s3 = s1 +:+ (s2 +:+ s3).
Proof. induction s1 as [|c s IH]; [done|]. by rewrite !str_app_cons, IH. Qed.

Lemma str_length_app s1 s2 :
  String.length (s1 +:+ s2) = (String.length s1 + String.length s2)%nat.
Proof. induction s1 as [|c s IH]; [done|]. rewrite str_app_cons. cbn. by rewrite IH. Qed.

Lemma str_forallb_app f s1 s2 :
  str_forallb f (s1 +:+ s2) = str_forallb f s1 && str_forallb f s2.
Proof.
  induction s1 as [|c s IH]; [done|].
  rewrite str_app_cons. cbn [str_forallb]. rewrite IH. apply andb_assoc.
Qed.

Lemma str_forallb_impl (f g : ascii -> bool) s :
  (forall c, f c = true -> g c = true) -> str_forallb f s = true -> str_forallb g s = true.
Proof.
  intros Hfg. induction s as [|c s IH]; [done|]. cbn. rewrite !andb_true_iff.
  intros [Hc Hs]. eauto.
Qed.

Definition no_char (sep : ascii) : string -> bool :=
  str_forallb (fun c => negb (bool_decide (c = sep))).

Lemma Split_nonempty s sep : Split s sep <> [].
Proof. destruct s as [|c s]; cbn; [done|]. case_decide; [done|]. by destruct (Split s sep). Qed.

Lemma Split_cons_sep w s sep :
  no_char sep w = true -> Split (w +:+ String sep s) sep = w :: Split s sep.
Proof.
  induction w as [|c w IH]; intros Hw.
  { rewrite str_app_nil_l. cbn [Split]. by rewrite decide_True. }
  cbn in Hw. apply andb_true_iff in Hw as [Hc Hw].
  apply negb_true_iff, bool_decide_eq_false in Hc.
  rewrite str_app_cons. cbn [Split]. by rewrite decide_False, IH by done.
Qed.

Lemma Split_no_sep w sep : no_char sep w = true -> Split w sep = [w].
Proof.
  induction w as [|c w IH]; intros Hw; [done|].
  cbn in Hw. apply andb_true_iff in Hw as [Hc Hw].
  apply negb_true_iff, bool_decide_eq_false in Hc.
  cbn [Split]. by rewrite decide_False, IH by done.
Qed.

Lemma Join_Split s sep : Join (Split s sep) sep = s.
Proof.
  induction s as [|c s IH]; [done|]. cbn [Split].
  destruct (Split s sep) as [|w ws] eqn:E; [by apply Split_nonempty in E|].
  case_decide as Hc.
  - subst c. rewrite <- IH. by cbn [Join]; rewrite str_app_nil_l.
  - rewrite <- IH. destruct ws; cbn [Join]; [done|]. by rewrite str_app_cons.
Qed.

Lemma Split_forall_no_sep s sep : Forall (fun w => no_char sep w = true) (Split s sep).
Proof.
  induction s as [|c s IH]; cbn [Split]; [by repeat constructor|].
  case_decide as Hc; [by constructor|].
  destruct (Split s sep) as [|w ws].
  - repeat constructor. unfold no_char; cbn. by rewrite bool_decide_eq_false_2.
  - apply Forall_cons_1 in IH as [Hw Hws]. constructor; [|done].
    unfold no_char in *; cbn. by rewrite bool_decide_eq_false_2.
Qed.

(** ** Decimal round trips *)

Lemma chr_digit n : 0 <= n <= 9 ->
  is_digit (chr (48 + n)) = true /\ digit_val (chr (48 + n)) = n.
Proof.
  intros Hn.
  assert (Hall : forall k : nat, (k < 10)%nat ->
    is_digit (chr (48 + Z.of_nat k)) = true /\ digit_val (chr (48 + Z.of_nat k)) = Z.of_nat k).
  { intros k Hk. do 10 (destruct k as [|k]; [split; reflexivity|]). lia. }
  specialize (Hall (Z.to_nat n)). rewrite Z2Nat.id in Hall by lia. apply Hall. lia.
Qed.

Lemma digits_val_fixed w n acc s : 0 <= n ->
  digits_val acc (fixed_digits w n s) = digits_val (acc * 10 ^ Z.of_nat w + n mod 10 ^ Z.of_nat w) s.
Proof.
  revert n acc s. induction w as [|w IH]; intros n acc s Hn; cbn [fixed_digits].
  - f_equal. change (10 ^ Z.of_nat 0) with 1. rewrite Z.mod_1_r. lia.
  - rewrite IH by (apply Z.div_pos; lia). cbn [digits_val].
    pose proof (Z.mod_pos_bound n 10 ltac:(lia)).
    destruct (chr_digit (n mod 10)) as [-> ->]; [lia|]. f_equal.
    rewrite Nat2Z.inj_succ, Z.pow_succ_r by lia.
    pose proof (Z.pow_pos_nonneg 10 (Z.of_nat w) ltac:(lia) ltac:(lia)).
    rewrite (Z.rem_mul_r n 10) by lia. lia.
Qed.

Lemma fixed_digits_forallb w n s :
  str_forallb is_digit s = true -> str_forallb is_digit (fixed_digits w n s) = true.
Proof.
  revert n s. induction w as [|w IH]; intros n s Hs; [done|]. cbn. apply IH. cbn.
  rewrite Hs, andb_true_r. apply chr_digit.
  pose proof (Z.mod_pos_bound n 10 ltac:(lia)). lia.
Qed.

Lemma fixed_digits_length w n s :
  String.length (fixed_digits w n s) = (w + String.length s)%nat.
Proof.
  revert n s. induction w as [|w IH]; intros n s; [done|]. cbn. rewrite IH. cbn. lia.
Qed.

Lemma num_digits_bound fuel n : 0 <= n < 10 ^ Z.of_nat (S fuel) ->
  n < 10 ^ Z.of_nat (num_digits fuel n).
Proof.
  revert n. induction fuel as [|fuel IH]; intros n Hn; cbn [num_digits]; [lia|].
  destruct (Z.ltb_spec n 10) as [|Hge]; [change (10 ^ Z.of_nat 1) with 10; lia|].
  assert (n / 10 < 10 ^ Z.of_nat (num_digits fuel (n / 10))) as Hlt.
  { apply IH. rewrite Nat2Z.inj_succ, Z.pow_succ_r in Hn by lia.
    split; [apply Z.div_pos; lia|apply Z.div_lt_upper_bound; lia]. }
  rewrite Nat2Z.inj_succ, Z.pow_succ_r by lia.
  pose proof (Z.div_mod n 10 ltac:(lia)). pose proof (Z.mod_pos_bound n 10 ltac:(lia)). lia.
Qed.

Lemma num_digits_pos fuel n : (0 < num_digits fuel n)%nat.
Proof. destruct fuel; cbn; [lia|]. case_tests; lia. Qed.

Lemma digits_val_format n : 0 <= n < 10 ^ 21 ->
  digits_val 0 (fixed_digits (num_digits 20 n) n "") = Some n.
Proof.
  intros Hn. rewrite digits_val_fixed by lia. cbn [digits_val]. f_equal.
  rewrite Z.mod_small; [lia|]. split; [lia|]. by apply num_digits_bound.
Qed.

Lemma fixed_digits_head w n s c s' :
  str_forallb is_digit s = true ->
  fixed_digits w n s = String c s' -> is_digit c = true.
Proof.
  intros Hs E. pose proof (fixed_digits_forallb w n s Hs) as H.
  rewrite E in H. cbn in H. by apply andb_true_iff in H as [].
Qed.

Lemma digit_not_sign c : is_digit c = true ->
  bool_decide (c = "-"%char) = false /\ bool_decide (c = "+"%char) = false.
Proof.
  intros H. split; apply bool_decide_eq_false_2; intros ->; discriminate H.
Qed.

(** Formatting an int64 and parsing it back gives the same integer. *)
Lemma ParseInt10_FormatInt n : in_int64 n -> ParseInt10 (FormatInt n) 64 = Some n.
Proof.
  unfold in_int64, min_int64, max_int64. intros Hn. unfold FormatInt.
  destruct (Z.ltb_spec n 0) as [Hneg|Hpos].
  - assert (digits_val 0 (fixed_digits (num_digits 20 (- n)) (- n) "") = Some (- n)) as E
      by (apply digits_val_format; lia).
    pose proof (fixed_digits_length (num_digits 20 (- n)) (- n) "") as HL.
    pose proof (num_digits_pos 20 (- n)).
    destruct (fixed_digits _ _ _) as [|c s]; [cbn [String.length] in HL; lia|].
    unfold ParseInt10. rewrite (bool_decide_eq_true_2 ("-"%char = "-"%char)) by done.
    rewrite orb_true_r. cbn [andb negb]. rewrite E.
    change (2 ^ (64 - 1)) with 9223372036854775808. cbn.
    destruct (Z.ltb_spec 9223372036854775808 (- n)); [lia|]. f_equal. lia.
  - assert (digits_val 0 (fixed_digits (num_digits 20 n) n "") = Some n) as E
      by (apply digits_val_format; lia).
    destruct (fixed_digits (num_digits 20 n) n "") as [|c s] eqn:Es.
    { pose proof (fixed_digits_length (num_digits 20 n) n "") as HL.
      pose proof (num_digits_pos 20 n). rewrite Es in HL. cbn [String.length] in HL. lia. }
    unfold ParseInt10.
    destruct (digit_not_sign c) as [-> ->].
    { by apply (fixed_digits_head (num_digits 20 n) n "" c s). }
    cbn -[digits_val Z.pow]. rewrite E.
    change (2 ^ (64 - 1)) with 9223372036854775808.
    destruct (Z.leb_spec 9223372036854775808 n); [lia|]. done.
Qed.

Lemma digits_val_nonneg s acc n : 0 <= acc -> digits_val acc s = Some n -> 0 <= n.
Proof.
  revert acc. induction s as [|c s IH]; intros acc Hacc H; cbn in H; [congruence|].
  destruct (is_digit c) eqn:Hc; [|done]. eapply IH; [|exact H].
  unfold is_digit, in_range, digit_val in *. gobool. lia.
Qed.

(** A parsed integer fits its bit size. *)
Lemma ParseInt10_range s bits n : 0 < bits ->
  ParseInt10 s bits = Some n -> - 2 ^ (bits - 1) <= n < 2 ^ (bits - 1).
Proof.
  unfold ParseInt10. intros Hb H. inv_ok H.
  all: match goal with E : digits_val 0 _ = Some ?z |- _ =>
         apply digits_val_nonneg in E; [|lia] end.
  all: destruct (bool_decide (_ = "-"%char)); cbn in *; gobool; lia.
Qed.

(** ** [strings.TrimSpace], [strings.ContainsAny] and [path/filepath] *)

(** The byte length of the white-space rune at the head of a text, 0 when there
    is none: the ASCII ones, U+0085, U+00A0, U+1680, U+2000 to U+200A, U+2028,
    U+2029, U+202F, U+205F and U+3000. *)
Definition ascii_space (c : ascii) : bool :=
  let b := byte_of c in (b =? 32) || ((9 <=? b) && (b <=? 13)).

Definition space2 (a b : ascii) : bool :=
  (byte_of a =? 194) && ((byte_of b =? 133) || (byte_of b =? 160)).

Definition space3 (a b c : ascii) : bool :=
  let x := byte_of a in let y := byte_of b in let z := byte_of c in
  ((x =? 225) && (y =? 154) && (z =? 128))
  || ((x =? 226) && (y =? 128) && (((128 <=? z) && (z <=? 138)) || (z =? 168) || (z =? 169) || (z =? 175)))
  || ((x =? 226) && (y =? 129) && (z =? 159))
  || ((x =? 227) && (y =? 128) && (z =? 128)).

Fixpoint trim_left (l : list ascii) : list ascii :=
  match l with
  | a :: ((b :: ((c :: l3) as l2)) as l1) =>
      if ascii_space a then trim_left l1
      else if space2 a b then trim_left l2
      else if space3 a b c then trim_left l3 else l
  | a :: ((b :: l2) as l1) =>
      if ascii_space a then trim_left l1 else if space2 a b then trim_left l2 else l
  | a :: l1 => if ascii_space a then trim_left l1 else l
  | [] => []
  end.

(** The same from the end, on the reversed bytes. *)
Fixpoint trim_right (l : list ascii) : list ascii :=
  match l with
  | a :: ((b :: ((c :: l3) as l2)) as l1) =>
      if ascii_space a then trim_right l1
      else if space2 b a then trim_right l2
      else if space3 c b a then trim_right l3 else l
  | a :: ((b :: l2) as l1) =>
      if ascii_space a then trim_right l1 else if space2 b a then trim_right l2 else l
  | a :: l1 => if ascii_space a then trim_right l1 else l
  | [] => []
  end.

Definition TrimSpace (s : string) : string :=
  String.string_of_list_ascii
    (rev (trim_right (rev (trim_left (String.list_ascii_of_string s))))).

Example TrimSpace_ex :
  map TrimSpace ["  a b "; ""; "   "; String (chr 194) (String (chr 160) "x"); "y" +:+ String (chr 10) ""]
  = ["a b"; ""; ""; "x"; "y"].
Proof. vm_compute. reflexivity. Qed.

Definition contains_byte (f : ascii -> bool) (s : string) : bool := negb (str_forallb (fun c => negb (f c)) s).

(** [strings.Contains(s, sub)]. *)
Fixpoint Contains (s sub : string) : bool :=
  String.prefix sub s || match s with String _ r => Contains r sub | EmptyString => false end.

Definition IsAbs (path : string) : bool :=
  match path with String c _ => bool_decide (c = "/"%char) | EmptyString => false end.

(** [filepath.Clean] of a rooted path: the segments left after removing empty
    and [.] segments and applying [..]. *)
Fixpoint clean_segments (acc : list string) (segments : list string) : list string :=
  match segments with
  | [] => rev acc
  | s :: rest =>
      if bool_decide (s = "") || bool_decide (s = ".") then clean_segments acc rest
      else if bool_decide (s = "..") then clean_segments (tl acc) rest
      else clean_segments (s :: acc) rest
  end.

Definition Clean_rooted (path : string) : string :=
  String "/" (Join (clean_segments [] (Split path "/")) "/").

Example Clean_ex : map Clean_rooted ["/"; "/a/b"; "/a//b/"; "/a/./b/../c"; "/.."]
  = ["/"; "/a/b"; "/a/b"; "/a/c"; "/"].
Proof. vm_compute. reflexivity. Qed.

(** ** Prefixes *)

(** [strings.HasPrefix] and [strings.TrimPrefix]. *)
Definition HasPrefix (s p : string) : bool := String.prefix p s.
Definition TrimPrefix (s p : string) : string :=
  if HasPrefix s p then slice_from (String.length p) s else s.

Lemma HasPrefix_app p r : HasPrefix (p +:+ r) p = true.
Proof.
  unfold HasPrefix. induction p as [|c p IH]; [by destruct r|].
  rewrite str_app_cons. cbn. by destruct (ascii_dec c c).
Qed.

Lemma substring_all s n : String.length s = n -> String.substring 0 n s = s.
Proof. intros <-. induction s as [|c s IH]; [done|]. cbn. by rewrite IH. Qed.

Lemma slice_from_app p r : slice_from (String.length p) (p +:+ r) = r.
Proof.
  unfold slice_from. rewrite str_length_app, Nat.add_comm, Nat.add_sub.
  induction p as [|c p IH]; [by apply substring_all|done].
Qed.

Lemma TrimPrefix_app p r : TrimPrefix (p +:+ r) p = r.
Proof. unfold TrimPrefix. by rewrite HasPrefix_app, slice_from_app. Qed.

Lemma HasPrefix_split s p : HasPrefix s p = true -> s = p +:+ TrimPrefix s p.
Proof.
  intros H. unfold TrimPrefix. rewrite H. unfold HasPrefix in H.
  assert (exists r, s = p +:+ r) as [r ->].
  { revert s H. induction p as [|c p IH]; intros s H; [by exists s|].
    destruct s as [|d s]; [done|]. cbn in H. destruct (ascii_dec c d) as [->|]; [|done].
    apply IH in H as [r ->]. by exists r. }
  by rewrite slice_from_app.
Qed.

(** [strings.ContainsRune(s, sep)] of an ASCII character. *)
Definition contains_char (sep : ascii) (s : string) : bool := negb (no_char sep s).
