(* ===== verification/GoSha256.v ===== *)
(** * [crypto/sha256] and [encoding/hex]

    The payload hash of the telemetry ledger is the lower-case hexadecimal text
    of the SHA-256 digest, so duplicates are decided by a real, executable
    digest rather than by an opaque symbol. *)

From S2P Require Import Prelude GoStrings.
#[local] Open Scope Z_scope.

Definition w32 (z : Z) : Z := z mod 4294967296.
Definition rotr (n x : Z) : Z := Z.lor (Z.shiftr x n) (w32 (Z.shiftl x (32 - n))).

(** The first [n] primes from [p] on, by trial division. *)
Definition is_prime (p : nat) : bool :=
  forallb (fun d => negb (p mod d =? 0)%nat) (seq 2 (p - 2)).

Definition primes (n : nat) : list Z := map Z.of_nat (firstn n (List.filter is_prime (seq 2 310))).

(** The floor of the cube root of a number below [2^(3*bits)], bit by bit. *)
Fixpoint cube_root (bits : nat) (x root : Z) : Z :=
  match bits with
  | O => root
  | S bits' =>
      let next := root + 2 ^ Z.of_nat bits' in
      cube_root bits' x (if next * next * next <=? x then next else root)
  end.

(** The round constants: 32 fraction bits of the cube roots of 64 primes, and
    the initial state: those of the square roots of eight primes. *)
Definition sha_k : list Z :=
  Eval vm_compute in map (fun p => w32 (cube_root 40 (p * 2 ^ 96) 0)) (primes 64).
Definition sha_h0 : list Z :=
  Eval vm_compute in map (fun p => w32 (Z.sqrt (p * 2 ^ 64))) (primes 8).

(** The message schedule, kept reversed: the newest word first. *)
Fixpoint sha_schedule (fuel : nat) (ws : list Z) : list Z :=
  match fuel with
  | O => ws
  | S fuel' =>
      let w i := nth i ws 0 in
      let s0 := Z.lxor (rotr 7 (w 14%nat)) (Z.lxor (rotr 18 (w 14%nat)) (Z.shiftr (w 14%nat) 3)) in
      let s1 := Z.lxor (rotr 17 (w 1%nat)) (Z.lxor (rotr 19 (w 1%nat)) (Z.shiftr (w 1%nat) 10)) in
      sha_schedule fuel' (w32 (w 15%nat + s0 + w 6%nat + s1) :: ws)
  end.

Definition sha_round (st : list Z) (kw : Z * Z) : list Z :=
  match st with
  | [a; b; c; d; e; f; g; h] =>
      let s1 := Z.lxor (rotr 6 e) (Z.lxor (rotr 11 e) (rotr 25 e)) in
      let ch := Z.lxor (Z.land e f) (Z.land (Z.lxor e 4294967295) g) in
      let t1 := w32 (h + s1 + ch + fst kw + snd kw) in
      let s0 := Z.lxor (rotr 2 a) (Z.lxor (rotr 13 a) (rotr 22 a)) in
      let maj := Z.lxor (Z.land a b) (Z.lxor (Z.land a c) (Z.land b c)) in
      [w32 (t1 + w32 (s0 + maj)); a; b; c; w32 (d + t1); e; f; g]
  | _ => st
  end.

Definition sha_block (h : list Z) (ws : list Z) : list Z :=
  let sched := rev (sha_schedule 48 (rev ws)) in
  zip_with (fun x y => w32 (x + y)) h (foldl sha_round h (zip sha_k sched)).

Fixpoint be_words (bytes : list Z) : list Z :=
  match bytes with
  | a :: b :: c :: d :: rest => (((a * 256 + b) * 256 + c) * 256 + d) :: be_words rest
  | _ => []
  end.

(** [n] in [w] big-endian bytes. *)
Fixpoint be_bytes (w : nat) (n : Z) (acc : list Z) : list Z :=
  match w with
  | O => acc
  | S w' => be_bytes w' (n / 256) (n mod 256 :: acc)
  end.

Definition sha_pad (bytes : list Z) : list Z :=
  let n := Z.of_nat (length bytes) in
  bytes ++ 128 :: repeat 0 (Z.to_nat ((55 - n) mod 64)) ++ be_bytes 8 (8 * n) [].

Fixpoint sha_blocks (fuel : nat) (h : list Z) (ws : list Z) : list Z :=
  match fuel with
  | O => h
  | S fuel' =>
      match ws with
      | [] => h
      | _ => sha_blocks fuel' (sha_block h (take 16 ws)) (drop 16 ws)
      end
  end.

Definition hex_digit (n : Z) : ascii := if n <? 10 then chr (48 + n) else chr (87 + n).

Definition hex_byte (n : Z) (acc : string) : string :=
  String (hex_digit (n / 16)) (String (hex_digit (n mod 16)) acc).

(** [hex.EncodeToString(sha256.Sum256(payload)[:])]; one block consumes sixteen
    words, so the number of words is enough fuel. *)
Definition sha256_hex (payload : string) : string :=
  let words := be_words (sha_pad (map byte_of (String.list_ascii_of_string payload))) in
  let digest := concat (map (fun w => be_bytes 4 w []) (sha_blocks (length words) sha_h0 words)) in
  foldr hex_byte "" digest.

Example sha256_empty :
  sha256_hex "" = "e3b0c44298fc1c149afbf4c8996fb92427ae41e4649b934ca495991b7852b855".
Proof. vm_compute. reflexivity. Qed.

Example sha256_abc :
  sha256_hex "abc" = "ba7816bf8f01cfea414140de5dae2223b00361a396177a9cb410ff61f20015ad".
Proof. vm_compute. reflexivity. Qed.

Example sha256_two_blocks :
  sha256_hex "abcdbcdecdefdefgefghfghighijhijkijkljklmklmnlmnomnopnopq"
  = "248d6a61d20638b8e5c026930c3e6039a33ce45964ff2167f6ecedd419db06c1".
Proof. vm_compute. reflexivity. Qed.

(** The hash of a payload is never the empty string. *)
Lemma foldr_hex_nonempty l : l <> [] -> foldr hex_byte "" l <> "".
Proof. by destruct l. Qed.

Lemma sha_block_length h ws : length h = 8%nat -> length (sha_block h ws) = 8%nat.
Proof.
  intros Hh. unfold sha_block. generalize (zip sha_k (rev (sha_schedule 48 (rev ws)))) as kws.
  intros kws.
  assert (forall st, length st = 8%nat -> length (foldl sha_round st kws) = 8%nat) as H.
  { induction kws as [|kw kws IH]; intros st Hst; [done|]. cbn. apply IH.
    do 8 (destruct st as [|? st]; [done|]). by destruct st. }
  rewrite length_zip_with, H, Hh by done. done.
Qed.

Lemma sha_blocks_length fuel h ws : length h = 8%nat -> length (sha_blocks fuel h ws) = 8%nat.
Proof.
  revert h ws. induction fuel as [|fuel IH]; intros h ws Hh; [done|]. cbn.
  destruct ws; [done|]. apply IH. by apply sha_block_length.
Qed.

Lemma sha256_hex_nonempty payload : sha256_hex payload <> "".
Proof.
  unfold sha256_hex. apply foldr_hex_nonempty.
  pose proof (sha_blocks_length (length (be_words (sha_pad (map byte_of (String.list_ascii_of_string payload)))))
    sha_h0 (be_words (sha_pad (map byte_of (String.list_ascii_of_string payload)))) eq_refl) as H.
  destruct (sha_blocks _ _ _) as [|w ws]; done.
Qed.
