(* ===== verification/GoTime.v ===== *)
(** * Package [time] as the program uses it

    A [time.Duration] is an int64 number of nanoseconds.  A [time.Time] is an
    instant, in nanoseconds since the Unix epoch, with the offset in seconds of
    the location it is shown in; [UTC] drops the offset.  Calendar fields use
    the proleptic Gregorian calendar, as Go does.  [Parse] is [time.Parse] for
    the layout [time.RFC3339Nano]. *)

From S2P Require Import Prelude GoStrings.
#[local] Open Scope Z_scope.

Definition Nanosecond : Z := 1.
Definition Microsecond : Z := 1000.
Definition Millisecond : Z := 1000000.
Definition Second : Z := 1000000000.
Definition Minute : Z := 60 * Second.
Definition Hour : Z := 60 * Minute.

Record Time := mkTime { unix_ns : Z; loc_off : Z }.

#[export] Instance Time_eq_dec : EqDecision Time.
Proof. solve_decision. Defined.

Definition UTC (t : Time) : Time := mkTime (unix_ns t) 0.
Definition Add (t : Time) (d : Z) : Time := mkTime (unix_ns t + d) (loc_off t).
(** [t.Sub(u)]: the difference, or the nearest duration. *)
Definition Sub (t u : Time) : Z := Z.max min_int64 (Z.min max_int64 (unix_ns t - unix_ns u)).
Definition Before (t u : Time) : bool := unix_ns t <? unix_ns u.
Definition After (t u : Time) : bool := unix_ns u <? unix_ns t.
Definition time_Equal (t u : Time) : bool := unix_ns t =? unix_ns u.
Definition Unix (t : Time) : Z := unix_ns t / Second.
Definition Nanosec (t : Time) : Z := unix_ns t mod Second.

(** The zero [time.Time], midnight of 1 January of year 1, UTC. *)
Definition zero_time : Time := mkTime (-62135596800 * Second) 0.
Definition IsZero (t : Time) : bool := unix_ns t =? unix_ns zero_time.

(** [t.Truncate(d)] of a positive [d]: down to a multiple of [d] since the zero
    time. *)
Definition Truncate (t : Time) (d : Z) : Time :=
  mkTime (unix_ns t - (unix_ns t - unix_ns zero_time) mod d) (loc_off t).

(** ** The calendar *)

Definition is_leap (y : Z) : bool :=
  (y mod 4 =? 0) && (negb (y mod 100 =? 0) || (y mod 400 =? 0)).

Definition days_in (m y : Z) : Z :=
  if m =? 2 then (if is_leap y then 29 else 28)
  else if (m =? 4) || (m =? 6) || (m =? 9) || (m =? 11) then 30 else 31.

(** Days since 1 January 1970 of a civil date. *)
Definition days_from_civil (y m d : Z) : Z :=
  let y' := if m <=? 2 then y - 1 else y in
  let era := y' / 400 in
  let yoe := y' mod 400 in
  let doy := (153 * (if m <=? 2 then m + 9 else m - 3) + 2) / 5 + d - 1 in
  era * 146097 + (yoe * 365 + yoe / 4 - yoe / 100 + doy) - 719468.

(** The day of a year that starts on 1 March, as a month and a day. *)
Definition month_of_doy (doy : Z) : Z * Z :=
  let mp := (5 * doy + 2) / 153 in
  ((if mp <? 10 then mp + 3 else mp - 9), doy - (153 * mp + 2) / 5 + 1).

(** The day of a 400-year era: centuries, four-year cycles, years. *)
Definition year_of_doe (doe : Z) : Z * Z :=
  let c := Z.min (doe / 36524) 3 in
  let r1 := doe - c * 36524 in
  let q := r1 / 1461 in
  let r2 := r1 - q * 1461 in
  let yy := Z.min (r2 / 365) 3 in
  (c * 100 + q * 4 + yy, r2 - yy * 365).

Definition civil_of_doe (doe : Z) : Z * Z * Z :=
  let '(yoe, doy) := year_of_doe doe in
  let '(m, d) := month_of_doy doy in
  ((if m <=? 2 then yoe + 1 else yoe), m, d).

Definition civil_from_days (days : Z) : Z * Z * Z :=
  let z := days + 719468 in
  let '(y, m, d) := civil_of_doe (z mod 146097) in
  (y + z / 146097 * 400, m, d).

Definition local_sec (t : Time) : Z := Unix t + loc_off t.

Definition Year (t : Time) : Z :=
  let '(y, _, _) := civil_from_days (local_sec t / 86400) in y.

Definition of_civil (y m d hh mm ss ns off : Z) : Time :=
  mkTime ((days_from_civil y m d * 86400 + hh * 3600 + mm * 60 + ss - off) * Second + ns) off.

(** ** [time.Parse(time.RFC3339Nano, value)] *)

(** [getnum(s, fixed)]: one or two digits, exactly two when [fixed]. *)
Definition getnum (s : string) (fixed : bool) : option (Z * string) :=
  match s with
  | String a s1 =>
      if is_digit a then
        match s1 with
        | String b s2 =>
            if is_digit b then Some (10 * digit_val a + digit_val b, s2)
            else if fixed then None else Some (digit_val a, s1)
        | EmptyString => if fixed then None else Some (digit_val a, s1)
        end
      else None
  | EmptyString => None
  end.

Definition expect (c : ascii) (s : string) : option string :=
  match s with
  | String d s' => if bool_decide (c = d) then Some s' else None
  | EmptyString => None
  end.

Fixpoint take_digits (s : string) : string * string :=
  match s with
  | String c s' =>
      if is_digit c then let '(ds, r) := take_digits s' in (String c ds, r) else ("", s)
  | EmptyString => ("", "")
  end.

(** [parseNanoseconds] keeps at most nine fraction digits. *)
Definition frac_nanos (ds : string) : Z :=
  let n := Nat.min 9 (String.length ds) in
  Atoi (String.substring 0 n ds) * 10 ^ (9 - Z.of_nat n).

Definition parse_frac (s : string) : Z * string :=
  match s with
  | String c s' =>
      if bool_decide (c = "."%char) || bool_decide (c = ","%char) then
        let '(ds, r) := take_digits s' in
        if bool_decide (ds = "") then (0, s) else (frac_nanos ds, r)
      else (0, s)
  | EmptyString => (0, s)
  end.

(** The zone designator [Z07:00]: [Z] or a signed [hh:mm]. *)
Definition parse_zone (s : string) : option (Z * string) :=
  match s with
  | String c s' =>
      if bool_decide (c = "Z"%char) then Some (0, s')
      else if bool_decide (c = "+"%char) || bool_decide (c = "-"%char) then
        '(hh, s1) ← getnum s' true;
        s2 ← expect ":" s1;
        '(mm, s3) ← getnum s2 true;
        if (24 <? hh) || (60 <? mm) then None
        else Some ((if bool_decide (c = "-"%char) then -1 else 1) * (hh * 3600 + mm * 60), s3)
      else None
  | EmptyString => None
  end.

Definition parse_year (s : string) : option (Z * string) :=
  match s with
  | String a (String b (String c (String d r))) =>
      if is_digit a && is_digit b && is_digit c && is_digit d then
        Some (Atoi (String a (String b (String c (String d "")))), r)
      else None
  | _ => None
  end.

Definition Parse (value : string) : option Time :=
  '(y, s) ← parse_year value;
  s ← expect "-" s;
  '(mo, s) ← getnum s true;
  s ← expect "-" s;
  '(d, s) ← getnum s true;
  s ← expect "T" s;
  '(hh, s) ← getnum s false;
  s ← expect ":" s;
  '(mi, s) ← getnum s true;
  s ← expect ":" s;
  '(ss, s) ← getnum s true;
  let '(ns, s) := parse_frac s in
  '(off, s) ← parse_zone s;
  if negb (bool_decide (s = "")) then None
  else if (mo <? 1) || (12 <? mo) || (d <? 1) || (days_in mo y <? d)
       || (24 <=? hh) || (60 <=? mi) || (60 <=? ss) then None
  else Some (of_civil y mo d hh mi ss ns off).

(** ** [t.Format(time.RFC3339Nano)] for a UTC time of years 0 to 9999 *)

Fixpoint trim_zeros_list (rev_digits : list ascii) : list ascii :=
  match rev_digits with
  | c :: l => if bool_decide (c = "0"%char) then trim_zeros_list l else rev_digits
  | [] => []
  end.

(** The [.999999999] fraction: trailing zeros removed, nothing for zero. *)
Definition trim_zeros (s : string) : string :=
  String.string_of_list_ascii (rev (trim_zeros_list (rev (String.list_ascii_of_string s)))).

Definition format_frac (ns : Z) : string :=
  if ns =? 0 then "" else String "." (trim_zeros (fixed_digits 9 ns "")).

Definition format_seconds (t : Time) (rest : string) : string :=
  let '(y, m, d) := civil_from_days (Unix t / 86400) in
  let sod := Unix t mod 86400 in
  fixed_digits 4 y (String "-" (fixed_digits 2 m (String "-" (fixed_digits 2 d (String "T"
    (fixed_digits 2 (sod / 3600) (String ":" (fixed_digits 2 (sod / 60 mod 60) (String ":"
      (fixed_digits 2 (sod mod 60) rest)))))))))).

Definition FormatRFC3339Nano (t : Time) : string :=
  format_seconds t (format_frac (Nanosec t) +:+ "Z").

(** The layout [2006-01-02T15:04:05.000000Z07:00] of a UTC time. *)
Definition FormatMicros (t : Time) : string :=
  format_seconds t (String "." (fixed_digits 6 (Nanosec t / 1000) "Z")).

(** ** The calendar round trip *)

Definition doy_ok (doy : Z) : bool :=
  let '(m, d) := month_of_doy doy in
  (1 <=? m) && (m <=? 12) && (1 <=? d) &&
  ((153 * (if m <=? 2 then m + 9 else m - 3) + 2) / 5 + d - 1 =? doy) &&
  (if m =? 2 then d =? doy - 336 else d <=? days_in m 1).

Fixpoint all_below (n : nat) (k : Z) (f : Z -> bool) : bool :=
  match n with
  | O => true
  | S n' => f k && all_below n' (k + 1) f
  end.

Lemma all_below_spec n k f z :
  all_below n k f = true -> k <= z < k + Z.of_nat n -> f z = true.
Proof.
  revert k. induction n as [|n IH]; intros k H Hz; [lia|].
  cbn in H. apply andb_true_iff in H as [Hk H].
  destruct (decide (z = k)) as [->|]; [done|]. apply (IH (k + 1)); [done|lia].
Qed.

(** The months of a year are checked day by day, by evaluation. *)
Lemma doy_ok_all doy : 0 <= doy < 366 -> doy_ok doy = true.
Proof.
  intros H. assert (all_below 366 0 doy_ok = true) as Hall by (vm_compute; reflexivity).
  apply (all_below_spec _ _ _ _ Hall). lia.
Qed.

Lemma year_of_doe_ok doe yoe doy : 0 <= doe < 146097 -> year_of_doe doe = (yoe, doy) ->
  0 <= yoe < 400 /\ 0 <= doy < 366 /\ yoe * 365 + yoe / 4 - yoe / 100 + doy = doe /\
  (doy = 365 -> is_leap (yoe + 1) = true).
Proof.
  intros Hdoe H. unfold year_of_doe in H.
  remember (Z.min (doe / 36524) 3) as c eqn:Hc.
  remember ((doe - c * 36524) / 1461) as q eqn:Hq.
  remember (Z.min ((doe - c * 36524 - q * 1461) / 365) 3) as yy eqn:Hy.
  injection H as <- <-.
  assert (0 <= c <= 3 /\ 0 <= doe - c * 36524 <= (if decide (c = 3) then 36524 else 36523))
    as [Hc1 Hc2] by (clear -Hdoe Hc; case_decide; dlia).
  assert (0 <= q <= 24 /\ 0 <= doe - c * 36524 - q * 1461 <= 1460) as [Hq1 Hq2]
    by (clear -Hc2 Hq; case_decide; dlia).
  assert (0 <= yy <= 3 /\ 0 <= doe - c * 36524 - q * 1461 - yy * 365 <= (if decide (yy = 3) then 365 else 364))
    as [Hy1 Hy2] by (clear -Hq2 Hy; case_decide; dlia).
  assert ((c * 100 + q * 4 + yy) / 4 = c * 25 + q) as -> by (clear -Hy1; dlia).
  assert ((c * 100 + q * 4 + yy) / 100 = c) as -> by (clear -Hq1 Hy1; dlia).
  split_and!; try (case_decide; lia).
  intros H365. unfold is_leap. assert (yy = 3) as E3 by (case_decide; lia).
  assert (q = 24 -> c = 3) as E24 by (clear -Hc2 H365 E3; intros ->; repeat case_decide; lia).
  rewrite E3. apply andb_true_iff. split; [apply Z.eqb_eq; clear; dlia|].
  destruct (decide (q = 24)) as [Hq24|]; apply orb_true_iff; [right|left].
  - rewrite Hq24, E24 by done. done.
  - apply negb_true_iff, Z.eqb_neq. clear -Hq1 n. dlia.
Qed.

Lemma civil_of_doe_ok doe y m d : 0 <= doe < 146097 -> civil_of_doe doe = (y, m, d) ->
  1 <= m <= 12 /\ 1 <= d <= days_in m y /\ 0 <= y <= 400 /\
  days_from_civil y m d + 719468 = doe.
Proof.
  intros Hdoe H. unfold civil_of_doe in H.
  destruct (year_of_doe doe) as [yoe doy] eqn:Ey.
  apply year_of_doe_ok in Ey as (Hyoe & Hdoy & Hsum & Hleap); [|done].
  pose proof (doy_ok_all doy Hdoy) as Hok. unfold doy_ok in Hok.
  destruct (month_of_doy doy) as [m0 d0]. injection H as <- <- <-.
  assert (days_from_civil (if m0 <=? 2 then yoe + 1 else yoe) m0 d0
          = yoe * 365 + yoe / 4 - yoe / 100 +
            ((153 * (if m0 <=? 2 then m0 + 9 else m0 - 3) + 2) / 5 + d0 - 1) - 719468) as Hd.
  { unfold days_from_civil. destruct (m0 <=? 2) eqn:Em.
    - rewrite (Z.div_small (yoe + 1 - 1)), (Z.mod_small (yoe + 1 - 1)) by lia.
      replace (yoe + 1 - 1) with yoe by lia. lia.
    - rewrite (Z.div_small yoe 400), (Z.mod_small yoe 400) by lia. lia. }
  assert (d0 <= days_in m0 (if m0 <=? 2 then yoe + 1 else yoe)) as Hdays.
  { destruct (m0 =? 2) eqn:Em2; gobool.
    - subst m0. cbn. destruct (decide (doy = 365)) as [->|]; [|destruct (is_leap _); lia].
      rewrite Hleap by done. lia.
    - unfold days_in in *. apply Z.eqb_neq in Em2. rewrite Em2 in *. done. }
  gobool. split_and!; try lia.
  all: destruct (m0 <=? 2); lia.
Qed.

Lemma days_from_civil_era y m d k :
  days_from_civil (y + k * 400) m d = days_from_civil y m d + k * 146097.
Proof.
  unfold days_from_civil. case_tests.
  - replace (y + k * 400 - 1) with (y - 1 + k * 400) by lia.
    rewrite Z.div_add, Z.mod_add by lia. lia.
  - rewrite Z.div_add, Z.mod_add by lia. lia.
Qed.

Lemma is_leap_era y k : is_leap (y + k * 400) = is_leap y.
Proof.
  unfold is_leap.
  replace ((y + k * 400) mod 4) with (y mod 4)
    by (replace (y + k * 400) with (y + k * 100 * 4) by lia; by rewrite Z.mod_add).
  replace ((y + k * 400) mod 100) with (y mod 100)
    by (replace (y + k * 400) with (y + k * 4 * 100) by lia; by rewrite Z.mod_add).
  by rewrite Z.mod_add.
Qed.

Lemma civil_from_days_ok days y m d : civil_from_days days = (y, m, d) ->
  1 <= m <= 12 /\ 1 <= d <= days_in m y /\ days_from_civil y m d = days /\
  (days + 719468) / 146097 * 400 <= y <= (days + 719468) / 146097 * 400 + 400.
Proof.
  unfold civil_from_days. intros H.
  destruct (civil_of_doe _) as [[y0 m0] d0] eqn:E. injection H as <- <- <-.
  apply civil_of_doe_ok in E as (Hm & Hd & Hy & Hdays); [|by apply Z.mod_pos_bound].
  assert (days_in m0 (y0 + (days + 719468) / 146097 * 400) = days_in m0 y0) as ->
    by (unfold days_in; by rewrite is_leap_era).
  rewrite days_from_civil_era.
  pose proof (Z.div_mod (days + 719468) 146097 ltac:(lia)). lia.
Qed.

(** ** Formatting and parsing back *)

Lemma fixed_digits_2 n s : fixed_digits 2 n s
  = String (chr (48 + n / 10 mod 10)) (String (chr (48 + n mod 10)) s).
Proof. done. Qed.

Lemma getnum_fixed n s b : 0 <= n < 100 -> getnum (fixed_digits 2 n s) b = Some (n, s).
Proof.
  intros Hn. rewrite fixed_digits_2.
  destruct (chr_digit (n / 10 mod 10)) as [E1 V1]; [dlia|].
  destruct (chr_digit (n mod 10)) as [E2 V2]; [dlia|].
  cbn [getnum]. rewrite E1, E2, V1, V2. do 2 f_equal. dlia.
Qed.

Lemma parse_year_fixed y s : 0 <= y <= 9999 ->
  parse_year (fixed_digits 4 y s) = Some (y, s).
Proof.
  intros Hy.
  change (fixed_digits 4 y s) with (String (chr (48 + y / 10 / 10 / 10 mod 10))
    (String (chr (48 + y / 10 / 10 mod 10)) (String (chr (48 + y / 10 mod 10))
      (String (chr (48 + y mod 10)) s)))).
  pose proof (fixed_digits_forallb 4 y "" eq_refl) as HF.
  pose proof (digits_val_fixed 4 y 0 "" ltac:(lia)) as HV.
  cbn [fixed_digits] in HF, HV. cbn [str_forallb] in HF.
  cbn [parse_year]. rewrite !andb_true_iff in HF.
  destruct HF as (E1 & E2 & E3 & E4 & _). rewrite E1, E2, E3, E4. cbn [andb].
  unfold Atoi. rewrite HV. cbn [digits_val default].
  change (10 ^ Z.of_nat 4) with 10000. by rewrite Z.mod_small by lia.
Qed.

Lemma trim_zeros_list_spec l : exists k, l = repeat "0"%char k ++ trim_zeros_list l.
Proof.
  induction l as [|c l [k IH]]; [by exists O|]. cbn.
  case_bool_decide as Hc; [|by exists O]. exists (S k). cbn. by rewrite <- IH, Hc.
Qed.

Lemma str_of_list_app l1 l2 : String.string_of_list_ascii (l1 ++ l2)
  = String.string_of_list_ascii l1 +:+ String.string_of_list_ascii l2.
Proof. induction l1 as [|c l IH]; [done|]. cbn. by rewrite IH. Qed.

Definition zeros (k : nat) : string := String.string_of_list_ascii (repeat "0"%char k).

Lemma trim_zeros_spec s : exists k, s = trim_zeros s +:+ zeros k.
Proof.
  destruct (trim_zeros_list_spec (rev (String.list_ascii_of_string s))) as [k H].
  exists k. unfold trim_zeros, zeros. rewrite <- str_of_list_app.
  rewrite <- (rev_involutive (repeat "0"%char k)), <- rev_app_distr.
  rewrite rev_repeat, <- H, rev_involutive. symmetry. apply String.string_of_list_ascii_of_string.
Qed.

Lemma zeros_length k : String.length (zeros k) = k.
Proof. induction k as [|k IH]; [done|]. cbn. by rewrite <- IH at 2. Qed.

Lemma digits_val_zeros k acc : digits_val acc (zeros k) = Some (acc * 10 ^ Z.of_nat k).
Proof.
  revert acc. induction k as [|k IH]; intros acc; [cbn; f_equal; lia|].
  change (zeros (S k)) with (String "0" (zeros k)). cbn [digits_val]. rewrite IH.
  change (is_digit "0") with true. cbn [digit_val]. change (digit_val "0") with 0.
  rewrite Nat2Z.inj_succ, Z.pow_succ_r by lia. f_equal. lia.
Qed.

Lemma digits_val_app s1 s2 acc : digits_val acc (s1 +:+ s2)
  = match digits_val acc s1 with Some a => digits_val a s2 | None => None end.
Proof.
  revert acc. induction s1 as [|c s IH]; intros acc; [done|].
  rewrite str_app_cons. cbn [digits_val]. by destruct (is_digit c).
Qed.

Lemma digits_val_forallb s acc : str_forallb is_digit s = true ->
  exists n, digits_val acc s = Some n.
Proof.
  revert acc. induction s as [|c s IH]; intros acc H; [by eexists|].
  cbn in H. apply andb_true_iff in H as [Hc Hs]. cbn [digits_val]. rewrite Hc. by apply IH.
Qed.

Lemma substring_app_l s1 s2 : String.substring 0 (String.length s1) (s1 +:+ s2) = s1.
Proof. induction s1 as [|c s IH]; [by destruct s2|]. rewrite str_app_cons. cbn. by rewrite IH. Qed.

Lemma frac_nanos_trim ns : 0 <= ns < Second ->
  frac_nanos (trim_zeros (fixed_digits 9 ns "")) = ns /\
  str_forallb is_digit (trim_zeros (fixed_digits 9 ns "")) = true.
Proof.
  intros Hns. destruct (trim_zeros_spec (fixed_digits 9 ns "")) as [k Hk].
  pose proof (fixed_digits_length 9 ns "") as HL.
  pose proof (fixed_digits_forallb 9 ns "" eq_refl) as HF.
  pose proof (digits_val_fixed 9 ns 0 "" ltac:(lia)) as HV.
  rewrite Hk in HL, HF, HV. clear Hk.
  generalize dependent (trim_zeros (fixed_digits 9 ns "")). intros tr HL HF HV.
  rewrite str_length_app, zeros_length in HL. cbn in HL.
  rewrite str_forallb_app in HF. apply andb_true_iff in HF as [HF _]. split; [|done].
  destruct (digits_val_forallb tr 0 HF) as [n Hn].
  rewrite digits_val_app, Hn, digits_val_zeros in HV. cbn in HV. injection HV as HV.
  rewrite Z.mod_small in HV by done.
  unfold frac_nanos. rewrite (Nat.min_r 9) by lia.
  rewrite <- (str_app_nil_r tr) at 2. rewrite substring_app_l. unfold Atoi. rewrite Hn. cbn [default].
  replace (9 - Z.of_nat (String.length tr)) with (Z.of_nat k) by lia. done.
Qed.

Lemma take_digits_app s c r : str_forallb is_digit s = true -> is_digit c = false ->
  take_digits (s +:+ String c r) = (s, String c r).
Proof.
  intros Hs Hc. induction s as [|d s IH].
  { rewrite str_app_nil_l. cbn [take_digits]. by rewrite Hc. }
  cbn in Hs. apply andb_true_iff in Hs as [Hd Hs].
  rewrite str_app_cons. cbn [take_digits]. by rewrite Hd, IH.
Qed.

Lemma parse_frac_format ns : 0 <= ns < Second ->
  parse_frac (format_frac ns +:+ "Z") = (ns, "Z").
Proof.
  intros Hns. unfold format_frac. destruct (Z.eqb_spec ns 0) as [->|Hnz]; [done|].
  destruct (frac_nanos_trim ns Hns) as [Hval Hdig].
  rewrite str_app_cons. cbn [parse_frac].
  rewrite take_digits_app by done.
  destruct (bool_decide_reflect (trim_zeros (fixed_digits 9 ns "") = "")) as [E|_].
  - rewrite E in Hval. change (frac_nanos "") with 0 in Hval. lia.
  - rewrite (bool_decide_eq_true_2 ("."%char = "."%char)) by done. cbn [orb]. by rewrite Hval.
Qed.

Lemma expect_cons c s : expect c (String c s) = Some s.
Proof. cbn. by rewrite bool_decide_eq_true_2. Qed.

Lemma Year_eq t : loc_off t = 0 ->
  Year t = (let '(y, _, _) := civil_from_days (Unix t / 86400) in y).
Proof. intros E. unfold Year, local_sec. by rewrite E, Z.add_0_r. Qed.

(** Parsing the date and time fields that [format_seconds] writes. *)
Lemma Parse_format_seconds t rest ns :
  loc_off t = 0 -> 0 <= Year t <= 9999 -> parse_frac rest = (ns, "Z") ->
  Parse (format_seconds t rest) = Some (mkTime (Unix t * Second + ns) 0).
Proof.
  intros Hoff Hy Hfrac. rewrite Year_eq in Hy by done. unfold format_seconds.
  destruct (civil_from_days (Unix t / 86400)) as [[y m] d] eqn:Ec.
  apply civil_from_days_ok in Ec as (Hm & Hd & Hdays & _).
  assert (1 <= d <= 31) as Hd31.
  { unfold days_in in Hd. repeat case_match; lia. }
  remember (Unix t mod 86400) as sod eqn:Hsod.
  assert (0 <= sod < 86400) as Hsod' by (subst; apply Z.mod_pos_bound; lia).
  assert (0 <= sod / 3600 < 24 /\ 0 <= sod / 60 mod 60 < 60 /\ 0 <= sod mod 60 < 60 /\
    sod = sod / 3600 * 3600 + (sod / 60 mod 60) * 60 + sod mod 60) as (Hh & Hmi & Hs & Hsum)
    by (clear -Hsod'; dlia).
  unfold Parse. rewrite parse_year_fixed by lia. cbn [mbind option_bind].
  rewrite expect_cons. cbn [mbind option_bind]. rewrite getnum_fixed by lia. cbn [mbind option_bind].
  rewrite expect_cons. cbn [mbind option_bind]. rewrite getnum_fixed by lia. cbn [mbind option_bind].
  rewrite expect_cons. cbn [mbind option_bind]. rewrite getnum_fixed by lia. cbn [mbind option_bind].
  rewrite expect_cons. cbn [mbind option_bind]. rewrite getnum_fixed by lia. cbn [mbind option_bind].
  rewrite expect_cons. cbn [mbind option_bind]. rewrite getnum_fixed by lia. cbn [mbind option_bind].
  rewrite Hfrac. change (parse_zone "Z") with (Some (0, "")). cbn [mbind option_bind].
  rewrite bool_decide_eq_true_2 by done. cbn [negb].
  destruct (_ || (60 <=? sod mod 60)) eqn:Hbad.
  { exfalso. gobool. destruct_or! Hbad; gobool; lia. }
  f_equal. unfold of_civil. f_equal. rewrite Hdays.
  pose proof (Z.div_mod (Unix t) 86400 ltac:(lia)). unfold Second. lia.
Qed.

(** [time.Parse] recovers any UTC instant of years 0 to 9999 from its RFC 3339
    text with nanoseconds. *)
Lemma Parse_FormatRFC3339Nano t : loc_off t = 0 -> 0 <= Year t <= 9999 ->
  Parse (FormatRFC3339Nano t) = Some t.
Proof.
  intros Hoff Hy. unfold FormatRFC3339Nano.
  rewrite (Parse_format_seconds t _ (Nanosec t)); [|done..|].
  - destruct t as [n o]. cbn in Hoff. subst o. do 2 f_equal. unfold Unix, Nanosec. cbn.
    pose proof (Z.div_mod n Second ltac:(done)). lia.
  - apply parse_frac_format. unfold Nanosec. by apply Z.mod_pos_bound.
Qed.

(** The microsecond text of an instant parses to the instant truncated to
    microseconds. *)
Lemma Parse_FormatMicros t : loc_off t = 0 -> 0 <= Year t <= 9999 ->
  Parse (FormatMicros t) = Some (mkTime (unix_ns t / 1000 * 1000) 0).
Proof.
  intros Hoff Hy. unfold FormatMicros.
  rewrite (Parse_format_seconds t _ (Nanosec t / 1000 * 1000)); [|done..|].
  - do 2 f_equal. unfold Unix, Nanosec, Second. dlia.
  - assert (0 <= Nanosec t < Second) as Hn by (unfold Nanosec; by apply Z.mod_pos_bound).
    cbn [parse_frac].
    assert (forall w n s, fixed_digits w n s = fixed_digits w n "" +:+ s) as Happ.
    { induction w as [|w IH]; intros n s; [done|]. cbn [fixed_digits].
      rewrite IH, (IH _ (String _ "")), str_app_assoc. done. }
    rewrite Happ, take_digits_app by (done || by apply fixed_digits_forallb).
    rewrite (bool_decide_eq_true_2 ("."%char = "."%char)) by done. cbn [orb].
    rewrite bool_decide_eq_false_2 by done.
    unfold frac_nanos. rewrite fixed_digits_length. cbn [Nat.add Nat.min String.length].
    rewrite <- (str_app_nil_r (fixed_digits 6 _ "")).
    change 6%nat with (String.length (fixed_digits 6 (Nanosec t / 1000) "")) at 1.
    rewrite substring_app_l. unfold Atoi. rewrite digits_val_fixed by dlia. cbn [digits_val default].
    f_equal. change (10 ^ (9 - Z.of_nat 6)) with 1000. change (10 ^ Z.of_nat 6) with 1000000.
    unfold Second in Hn. rewrite Z.mod_small by dlia. cbn [id]. lia.
Qed.

(** ** Later instants have later years *)

Lemma month_of_doy_year doy m d : 0 <= doy < 366 -> month_of_doy doy = (m, d) ->
  (m <=? 2) = (306 <=? doy).
Proof.
  unfold month_of_doy. intros Hd H. injection H as <- _.
  destruct (Z.ltb_spec ((5 * doy + 2) / 153) 10), (Z.leb_spec 306 doy); gobool;
    first [apply Z.leb_le | apply Z.leb_gt]; dlia.
Qed.

(** A year that starts on 1 March ends before the next one starts. *)
Lemma march_year_end yoe doy : 0 <= yoe < 400 -> 0 <= doy < 366 ->
  (doy = 365 -> is_leap (yoe + 1) = true) -> yoe <> 399 ->
  yoe * 365 + yoe / 4 - yoe / 100 + doy < (yoe + 1) * 365 + (yoe + 1) / 4 - (yoe + 1) / 100.
Proof.
  intros Hy Hd Hl Hne. destruct (decide (doy = 365)) as [->|]; [|dlia].
  specialize (Hl eq_refl). unfold is_leap in Hl. apply andb_true_iff in Hl as [H4 H100]. gobool.
  destruct_or! H100; gobool; dlia.
Qed.

Lemma civil_of_doe_mono doe doe' y m d y' m' d' : 0 <= doe -> doe <= doe' -> doe' < 146097 ->
  civil_of_doe doe = (y, m, d) -> civil_of_doe doe' = (y', m', d') -> y <= y'.
Proof.
  unfold civil_of_doe. intros H0 Hle H1 E E'.
  destruct (year_of_doe doe) as [a p] eqn:Ea. destruct (year_of_doe doe') as [b q] eqn:Eb.
  apply year_of_doe_ok in Ea as (Ha & Hp & Hs & Hl); [|lia].
  apply year_of_doe_ok in Eb as (Hb & Hq & Hs' & Hl'); [|lia].
  destruct (month_of_doy p) as [m1 d1] eqn:Em. destruct (month_of_doy q) as [m2 d2] eqn:Em'.
  apply month_of_doy_year in Em; [|done]. apply month_of_doy_year in Em'; [|done].
  injection E as <- _ _. injection E' as <- _ _. rewrite Em, Em'.
  assert (a <= b).
  { destruct (Z.le_gt_cases a b) as [|Hab]; [done|]. exfalso.
    pose proof (march_year_end b q Hb Hq Hl' ltac:(lia)) as Hend.
    assert ((b + 1) * 365 + (b + 1) / 4 - (b + 1) / 100 <= a * 365 + a / 4 - a / 100).
    { assert ((b + 1) / 4 <= a / 4) by (apply Z.div_le_mono; lia).
      assert (a / 100 <= (b + 1) / 100 + (a - (b + 1)))
        by (rewrite <- Z.div_add by done; apply Z.div_le_mono; lia). lia. }
    lia. }
  destruct (decide (a = b)) as [->|]; case_tests; gobool; lia.
Qed.

Lemma civil_from_days_mono days days' y m d y' m' d' : days <= days' ->
  civil_from_days days = (y, m, d) -> civil_from_days days' = (y', m', d') -> y <= y'.
Proof.
  unfold civil_from_days. intros Hle E E'.
  destruct (civil_of_doe ((days + 719468) mod 146097)) as [[a m1] d1] eqn:Ea.
  destruct (civil_of_doe ((days' + 719468) mod 146097)) as [[b m2] d2] eqn:Eb.
  injection E as <- _ _. injection E' as <- _ _.
  pose proof (Z.mod_pos_bound (days + 719468) 146097 ltac:(done)) as Hm.
  pose proof (Z.mod_pos_bound (days' + 719468) 146097 ltac:(done)) as Hm'.
  destruct (decide ((days + 719468) / 146097 = (days' + 719468) / 146097)) as [Heq|Hne].
  - assert (Hmod : (days + 719468) mod 146097 <= (days' + 719468) mod 146097)
      by (rewrite !Z.mod_eq by done; lia).
    rewrite Heq. pose proof (civil_of_doe_mono _ _ _ _ _ _ _ _ (proj1 Hm) Hmod (proj2 Hm') Ea Eb). lia.
  - apply civil_of_doe_ok in Ea as (_ & _ & Ha & _); [|done].
    apply civil_of_doe_ok in Eb as (_ & _ & Hb & _); [|done]. clear -Hne Hle Ha Hb. dlia.
Qed.

Lemma Year_mono t t' : loc_off t = 0 -> loc_off t' = 0 -> unix_ns t <= unix_ns t' -> Year t <= Year t'.
Proof.
  intros H H' Hle. rewrite !Year_eq by done.
  destruct (civil_from_days (Unix t / 86400)) as [[y m] d] eqn:E.
  destruct (civil_from_days (Unix t' / 86400)) as [[y' m'] d'] eqn:E'.
  refine (civil_from_days_mono _ _ _ _ _ _ _ _ _ E E').
  unfold Unix, Second. apply Z.div_le_mono; [done|]. by apply Z.div_le_mono.
Qed.

(** Truncation to microseconds. *)
Lemma Truncate_micro t : Truncate (UTC t) Microsecond = mkTime (unix_ns t / 1000 * 1000) 0.
Proof.
  unfold Truncate, UTC, Microsecond, zero_time, Second. cbn [unix_ns loc_off]. f_equal.
  replace (unix_ns t - -62135596800 * 1000000000)
    with (unix_ns t + 62135596800000000 * 1000) by lia.
  rewrite Z.mod_add by done. rewrite Z.mod_eq by done. lia.
Qed.

Lemma Year_micro n : Year (mkTime (n / 1000 * 1000) 0) = Year (mkTime n 0).
Proof.
  rewrite !Year_eq by done. assert (Unix (mkTime (n / 1000 * 1000) 0) = Unix (mkTime n 0)) as ->; [|done].
  unfold Unix, Second. cbn [unix_ns]. dlia.
Qed.
