(* ===== verification/GoFloat.v ===== *)
(** * float64: [strconv.ParseFloat], JSON number text, and the arithmetic of
    the synthetic readings

    A float64 is the Standard Library's [spec_float] at precision 53 and
    maximal exponent 1024, IEEE 754 binary64 with round to nearest even. *)

From S2P Require Import Prelude GoStrings.
From Stdlib Require Export SpecFloat.
#[local] Open Scope Z_scope.

Abbreviation float64 := spec_float.

#[export] Instance spec_float_eq_dec : EqDecision spec_float.
Proof. solve_decision. Defined.

Definition f64_div : float64 -> float64 -> float64 := SFdiv 53 1024.
Definition f64_add : float64 -> float64 -> float64 := SFadd 53 1024.
Definition f64_sub : float64 -> float64 -> float64 := SFsub 53 1024.
Definition f64_mul : float64 -> float64 -> float64 := SFmul 53 1024.

(** [float64(n)] of an integer. *)
Definition f64_of_int (n : Z) : float64 := binary_normalize 53 1024 n 0 false.

Definition IsNaN (f : float64) : bool := match f with S754_nan => true | _ => false end.
Definition IsInf (f : float64) : bool := match f with S754_infinity _ => true | _ => false end.

(** [int64(f)] of a finite value: truncation toward zero.  Out of range the Go
    result is implementation-defined; the callers stay in range. *)
Definition int_of_f64 (f : float64) : Z :=
  match f with
  | S754_finite s m e =>
      let n := if 0 <=? e then Zpos m * 2 ^ e else Zpos m / 2 ^ (- e) in
      if s then - n else n
  | _ => 0
  end.

(** [math.Trunc], up to the sign of a zero, which no comparison sees. *)
Definition Trunc (f : float64) : float64 :=
  match f with S754_finite _ _ _ => f64_of_int (int_of_f64 f) | _ => f end.

(** The float64 nearest to [(-1)^s * m * 10^x]. *)
Definition f64_of_decimal (s : bool) (m x : Z) : float64 :=
  match m with
  | Zpos p =>
      if 0 <=? x then binary_normalize 53 1024 (if s then - (m * 10 ^ x) else m * 10 ^ x) 0 s
      else f64_div (S754_finite s p 0) (S754_finite false (Z.to_pos (10 ^ (- x))) 0)
  | _ => S754_zero s
  end.

(** ** Number text: [-? int frac? exp?] *)

Fixpoint span_digits (s : string) : string * string :=
  match s with
  | String c s' =>
      if is_digit c then let '(ds, r) := span_digits s' in (String c ds, r) else ("", s)
  | EmptyString => ("", "")
  end.

(** The exponent digits: [if e < 10000 { e = e*10 + digit }]. *)
Fixpoint exp_digits (e : Z) (s : string) : Z :=
  match s with
  | String c s' => exp_digits (if e <? 10000 then e * 10 + digit_val c else e) s'
  | EmptyString => e
  end.

Definition number_exp (s : string) : Z :=
  match s with
  | String _ (String c ds) =>
      if bool_decide (c = "-"%char) then - exp_digits 0 ds
      else if bool_decide (c = "+"%char) then exp_digits 0 ds
      else exp_digits 0 (String c ds)
  | _ => 0
  end.

(** [strconv.ParseFloat(text, 64)] of a JSON number: [None] is the range error
    of an overflow. *)
Definition ParseFloat (text : string) : option float64 :=
  let neg := match text with String c _ => bool_decide (c = "-"%char) | _ => false end in
  let body := if neg then slice_from 1 text else text in
  let '(int_part, r) := span_digits body in
  let '(frac_part, r) :=
    match r with
    | String c r' => if bool_decide (c = "."%char) then span_digits r' else ("", r)
    | EmptyString => ("", r)
    end in
  let f := f64_of_decimal neg (Atoi (int_part +:+ frac_part))
             (number_exp r - str_len frac_part) in
  if IsInf f then None else Some f.

(** ** Shortest decimal text ([json.Marshal] of a float64) *)

Fixpoint down_exp (fuel : nat) (j num den : Z) : Z :=
  match fuel with
  | O => - j
  | S fuel' => if den <=? num * 10 ^ j then - j else down_exp fuel' (j + 1) num den
  end.

(** The decimal exponent [p] with [10^p <= num/den < 10^(p+1)]. *)
Definition dec_exp (num den : Z) : Z :=
  if den <=? num then Z.of_nat (num_digits 310 (num / den)) - 1 else down_exp 330 1 num den.

(** The candidates with [n] digits: the floor and the ceiling, closest first. *)
Definition digit_candidates (num den p : Z) (n : nat) : list Z :=
  let x := p + 1 - Z.of_nat n in
  let '(a, b) := if 0 <=? x then (num, den * 10 ^ x) else (num * 10 ^ (- x), den) in
  let d := a / b in
  if 2 * (a - d * b) <=? b then [d; d + 1] else [d + 1; d].

(** The shortest digits that parse back to [f]: seventeen are always enough. *)
Fixpoint shortest_from (fuel n : nat) (f : float64) (num den p : Z) : Z * Z :=
  match fuel with
  | O => (0, 0)
  | S fuel' =>
      let x := p + 1 - Z.of_nat n in
      match list_find (fun d => f64_of_decimal false d x = f) (digit_candidates num den p n) with
      | Some (_, d) => (d, x)
      | None => shortest_from fuel' (S n) f num den p
      end
  end.

Definition shortest (m : positive) (e : Z) : Z * Z :=
  let '(num, den) := if 0 <=? e then (Zpos m * 2 ^ e, 1) else (Zpos m, 2 ^ (- e)) in
  shortest_from 17 1 (S754_finite false m e) num den (dec_exp num den).

Definition pad_zeros (n : Z) : string := String.string_of_list_ascii (repeat "0"%char (Z.to_nat n)).

(** ['f'] format of [d * 10^x], [d > 0]. *)
Definition format_f (d x : Z) : string :=
  let nd := num_digits 330 d in
  if 0 <=? x then fixed_digits nd d (pad_zeros x)
  else
    let k := Z.to_nat (- x) in
    let int_part := d / 10 ^ (- x) in
    fixed_digits (num_digits 330 int_part) int_part
      (String "." (fixed_digits k (d mod 10 ^ (- x)) "")).

(** ['e'] format with JSON's [e-09 -> e-9] clean-up. *)
Definition format_e (d x : Z) : string :=
  let nd := num_digits 330 d in
  let e := x + Z.of_nat nd - 1 in
  let digits := fixed_digits nd d "" in
  slice 0 1 digits
  +:+ (if (nd =? 1)%nat then "" else String "." (slice_from 1 digits))
  +:+ "e" +:+ (if e <? 0 then "-" else "+") +:+ fixed_digits (num_digits 3 (Z.abs e)) (Z.abs e) "".

Definition format_abs (d x : Z) : string :=
  let e := x + Z.of_nat (num_digits 330 d) - 1 in
  if (e <? -6) || (21 <=? e) then format_e d x else format_f d x.

(** The JSON text of a float64; NaN and infinities are marshalling errors. *)
Definition FormatJSONFloat (f : float64) : option string :=
  match f with
  | S754_zero s => Some (if s then "-0" else "0")
  | S754_finite s m e =>
      let '(d, x) := shortest m e in
      Some (if s then String "-" (format_abs d x) else format_abs d x)
  | _ => None
  end.

Example parse_float_ex :
  ParseFloat "20.01" = Some (S754_finite false 5632314283980227 (-48)).
Proof. vm_compute. reflexivity. Qed.

Example format_float_ex : (ParseFloat "20.01" ≫= FormatJSONFloat) = Some "20.01"
  /\ (ParseFloat "-2.5e-7" ≫= FormatJSONFloat) = Some "-2.5e-7"
  /\ (ParseFloat "1e21" ≫= FormatJSONFloat) = Some "1e+21"
  /\ (ParseFloat "100" ≫= FormatJSONFloat) = Some "100"
  /\ ParseFloat "1e309" = None /\ ParseFloat "1e-400" = Some (S754_zero false)
  /\ is_Some (ParseFloat "1.7976931348623157e308").
Proof. vm_compute. eauto 10. Qed.

(** * Integers below 2^53 are exact as float64 *)

(** ** Binary digits *)

Lemma digits2_bounds p : 2 ^ (Zpos (digits2_pos p) - 1) <= Zpos p < 2 ^ Zpos (digits2_pos p).
Proof.
  induction p as [p IH|p IH|]; cbn [digits2_pos]; [..|done];
    rewrite Pos2Z.inj_succ; replace (Z.succ (Zpos (digits2_pos p)) - 1) with (Zpos (digits2_pos p)) by lia;
    rewrite Z.pow_succ_r by lia;
    (assert (2 ^ Zpos (digits2_pos p) = 2 * 2 ^ (Zpos (digits2_pos p) - 1)) as E
       by (rewrite <- Z.pow_succ_r by lia; f_equal; lia)); lia.
Qed.

Lemma digits2_le p k : 0 <= k -> Zpos p < 2 ^ k -> Zpos (digits2_pos p) <= k.
Proof.
  intros Hk Hp. pose proof (digits2_bounds p) as [Hl _].
  destruct (Z.le_gt_cases (Zpos (digits2_pos p)) k); [done|]. exfalso.
  assert (2 ^ k <= 2 ^ (Zpos (digits2_pos p) - 1)) by (apply Z.pow_le_mono_r; lia). lia.
Qed.

Lemma shift_value p k : Zpos (Pos.iter xO p k) = Zpos p * 2 ^ Zpos k.
Proof.
  induction k as [|k IH] using Pos.peano_ind; [cbn; lia|].
  rewrite Pos.iter_succ. change (Zpos (xO (Pos.iter xO p k))) with (2 * Zpos (Pos.iter xO p k)).
  rewrite IH, Pos2Z.inj_succ, Z.pow_succ_r by lia. lia.
Qed.

Lemma digits2_shift p k : digits2_pos (Pos.iter xO p k) = (digits2_pos p + k)%positive.
Proof.
  induction k as [|k IH] using Pos.peano_ind; [cbn; lia|].
  rewrite Pos.iter_succ. cbn [digits2_pos]. rewrite IH. lia.
Qed.

(** ** Rounding a value that fits *)

(** A mantissa of 53 digits at its exponent is not rounded. *)
Lemma round_canonical m e : Zpos (digits2_pos m) = 53 -> -1074 <= e <= 971 ->
  binary_round_aux 53 1024 false (Zpos m) e loc_Exact = S754_finite false m e.
Proof.
  intros Hd He. assert (forall l, shr_fexp 53 1024 (Zpos m) e l = (shr_record_of_loc (Zpos m) l, e)) as Hs.
  { intros l. unfold shr_fexp, fexp, emin, shr. cbn [Zdigits2]. rewrite Hd.
    replace (Z.max (53 + e - 53) (3 - 1024 - 53) - e) with 0 by lia. done. }
  unfold binary_round_aux. rewrite Hs. cbn [shr_record_of_loc shr_m loc_of_shr_record round_nearest_even].
  rewrite Hs. cbn [shr_record_of_loc shr_m]. by rewrite (proj2 (Z.leb_le _ _)) by lia.
Qed.

(** The float64 of a positive integer below 2^53. *)
Lemma f64_of_int_shape p : Zpos p < 2 ^ 53 -> exists m e, f64_of_int (Zpos p) = S754_finite false m e
  /\ -52 <= e <= 0 /\ Zpos p * 2 ^ (- e) = Zpos m.
Proof.
  intros Hp. pose proof (digits2_le p 53 ltac:(lia) Hp) as Hd.
  unfold f64_of_int, binary_normalize, binary_round, fexp, emin, shl_align. rewrite Z.add_0_r.
  replace (Z.max (Zpos (digits2_pos p) - 53) (3 - 1024 - 53)) with (Zpos (digits2_pos p) - 53) by lia.
  rewrite Z.sub_0_r. destruct (Zpos (digits2_pos p) - 53) as [|x|k] eqn:E; [|lia|].
  - exists p, 0. rewrite round_canonical by lia. split; [done|]. split; [lia|]. cbn. lia.
  - exists (Pos.iter xO p k), (Zneg k). rewrite round_canonical; [|rewrite digits2_shift; lia|lia].
    split; [done|]. split; [lia|]. by rewrite shift_value.
Qed.

Lemma f64_of_two53 : f64_of_int (2 ^ 53) = S754_finite false (2 ^ 52)%positive 1.
Proof. vm_compute. reflexivity. Qed.

(** Conversion to float64 and back. *)
Lemma int_of_f64_of_int n : 0 < n <= 2 ^ 53 -> int_of_f64 (f64_of_int n) = n.
Proof.
  intros Hn. destruct (decide (n = 2 ^ 53)) as [->|Hne]; [vm_compute; reflexivity|].
  destruct n as [|p|p]; [lia| |lia]. destruct (f64_of_int_shape p) as (m & e & -> & He & Hm); [lia|].
  cbn [int_of_f64]. destruct (Z.leb_spec 0 e).
  - assert (e = 0) as -> by lia. cbn in *. lia.
  - rewrite <- Hm. rewrite Z.div_mul; [done|]. apply Z.pow_nonzero; lia.
Qed.

Lemma f64_positive n : 0 < n <= 2 ^ 53 -> exists m e, f64_of_int n = S754_finite false m e
  /\ (e <= 0 \/ f64_of_int n = f64_of_int (2 ^ 53)).
Proof.
  intros Hn. destruct (decide (n = 2 ^ 53)) as [->|Hne]; [by eexists _, _; split; [apply f64_of_two53|right]|].
  destruct n as [|p|p]; [lia| |lia]. destruct (f64_of_int_shape p) as (m & e & -> & He & Hm); [lia|].
  exists m, e. split; [done|]. left. lia.
Qed.

Lemma SFeqb_refl_finite s m e : SFeqb (S754_finite s m e) (S754_finite s m e) = true.
Proof.
  unfold SFeqb, SFcompare. rewrite Z.compare_refl. change (Pos.compare_cont Eq m m) with (m ?= m)%positive.
  rewrite Pos.compare_refl. by destruct s.
Qed.
