(* ===== verification/GoJson.v ===== *)
(** * encoding/json: strict decoding into a syntax tree, and string quoting

    The scanner works as Go's does: one pass over the bytes finds the tokens
    (number text and raw string text), a stack of open containers checks the
    grammar and the nesting limit, and raw strings are unquoted afterwards.
    The token-by-token decoders of the modelled code accept exactly the texts
    of one value followed by white space, so they share [json_parse]. *)

From S2P Require Import Prelude GoStrings.
#[local] Open Scope Z_scope.

#[local] Set Warnings "-register-all".
Inductive json : Type :=
| JNull
| JBool (b : bool)
| JNum (text : string)
| JStr (s : string)
| JArr (items : list json)
| JObj (members : list (string * json)).

(** ** Tokens *)

Inductive token : Type :=
| TPunct (c : ascii)
| TStr (raw : string)
| TNum (text : string)
| TLit (text : string).

(** States of the number scanner, named after Go's [stateNeg], [state0],
    [state1], [stateDot], [stateDot0], [stateE], [stateESign], [stateE0]. *)
Inductive num_state := NNeg | N0 | N1 | NDot | NDot0 | NE | NESign | NE0.

#[export] Instance num_state_eq_dec : EqDecision num_state.
Proof. solve_decision. Defined.

Definition is_e (c : ascii) : bool := bool_decide (c = "e"%char) || bool_decide (c = "E"%char).
Definition is_sign (c : ascii) : bool := bool_decide (c = "+"%char) || bool_decide (c = "-"%char).

Definition num_step (st : num_state) (c : ascii) : option num_state :=
  match st with
  | NNeg => if bool_decide (c = "0"%char) then Some N0 else if is_digit c then Some N1 else None
  | N1 => if is_digit c then Some N1
          else if bool_decide (c = "."%char) then Some NDot
          else if is_e c then Some NE else None
  | N0 => if bool_decide (c = "."%char) then Some NDot else if is_e c then Some NE else None
  | NDot => if is_digit c then Some NDot0 else None
  | NDot0 => if is_digit c then Some NDot0 else if is_e c then Some NE else None
  | NE => if is_sign c then Some NESign else if is_digit c then Some NE0 else None
  | NESign | NE0 => if is_digit c then Some NE0 else None
  end.

Definition num_final (st : num_state) : bool :=
  match st with N0 | N1 | NDot0 | NE0 => true | _ => false end.

Definition num_start (c : ascii) : option num_state :=
  if bool_decide (c = "-"%char) then Some NNeg
  else if bool_decide (c = "0"%char) then Some N0
  else if is_digit c then Some N1 else None.

Definition is_space (c : ascii) : bool :=
  let n := byte_of c in (n =? 32) || (n =? 9) || (n =? 10) || (n =? 13).

Definition is_punct (c : ascii) : bool :=
  match c with
  | "{"%char | "}"%char | "["%char | "]"%char | ","%char | ":"%char => true
  | _ => false
  end.

Definition quote : ascii := chr 34.
Definition backslash : ascii := chr 92.

Definition hex_val (c : ascii) : option Z :=
  if is_digit c then Some (digit_val c)
  else if in_range 97 102 c then Some (byte_of c - 87)
  else if in_range 65 70 c then Some (byte_of c - 55)
  else None.

Definition is_escape (c : ascii) : bool :=
  match c with
  | "b"%char | "f"%char | "n"%char | "r"%char | "t"%char | "/"%char => true
  | _ => bool_decide (c = backslash) || bool_decide (c = quote)
  end.

(** The scanner between tokens, inside a string, after a backslash, inside a
    [\u] escape with [k] hexadecimal digits to go, inside a number, and inside
    a literal with its remaining letters. *)
Inductive lex_mode : Type :=
| MTop
| MStr
| MEsc
| MHex (k : nat)
| MNum (st : num_state)
| MLit (rest : string).

Definition add_text (c : ascii) (r : option (string * list token)) : option (string * list token) :=
  match r with Some (raw, ts) => Some (String c raw, ts) | None => None end.

(** [lex m s] is the text of the current token that is still to come and the
    tokens after it. *)
Fixpoint lex (m : lex_mode) (s : string) : option (string * list token) :=
  match s with
  | EmptyString =>
      match m with
      | MTop => Some ("", [])
      | MNum st => if num_final st then Some ("", []) else None
      | MLit EmptyString => Some ("", [])
      | _ => None
      end
  | String c r =>
      let top (_ : unit) :=
        if is_space c then lex MTop r
        else if is_punct c then
          match lex MTop r with Some (_, ts) => Some ("", TPunct c :: ts) | None => None end
        else if bool_decide (c = quote) then
          match lex MStr r with Some (raw, ts) => Some ("", TStr raw :: ts) | None => None end
        else match num_start c with
        | Some st =>
            match lex (MNum st) r with
            | Some (raw, ts) => Some ("", TNum (String c raw) :: ts)
            | None => None
            end
        | None =>
            let lit := match c with
                       | "t"%char => Some "rue" | "f"%char => Some "alse" | "n"%char => Some "ull"
                       | _ => None
                       end in
            match lit with
            | Some rest =>
                match lex (MLit rest) r with
                | Some (raw, ts) => Some ("", TLit (String c raw) :: ts)
                | None => None
                end
            | None => None
            end
        end in
      match m with
      | MTop => top tt
      | MStr =>
          if bool_decide (c = quote) then
            match lex MTop r with Some (_, ts) => Some ("", ts) | None => None end
          else if byte_of c <? 32 then None
          else add_text c (lex (if bool_decide (c = backslash) then MEsc else MStr) r)
      | MEsc =>
          if bool_decide (c = "u"%char) then add_text c (lex (MHex 4) r)
          else if is_escape c then add_text c (lex MStr r)
          else None
      | MHex k =>
          match hex_val c with
          | Some _ => add_text c (lex (match k with S (S k') => MHex (S k') | _ => MStr end) r)
          | None => None
          end
      | MNum st =>
          match num_step st c with
          | Some st' => add_text c (lex (MNum st') r)
          | None => if num_final st then top tt else None
          end
      | MLit EmptyString => top tt
      | MLit (String l rest) =>
          if bool_decide (c = l) then add_text c (lex (MLit rest) r) else None
      end
  end.

Definition tokens (s : string) : option (list token) := snd <$> lex MTop s.

(** ** Strings *)

(** The length of the valid UTF-8 sequence that starts with [c]. *)
Definition in_byte (lo hi : Z) (s : string) (i : nat) : bool :=
  match String.get i s with Some c => in_range lo hi c | None => false end.

Definition utf8_size (s : string) : option nat :=
  match s with
  | EmptyString => None
  | String c _ =>
      let b := byte_of c in
      let tail i := in_byte 128 191 s i in
      if b <? 128 then Some 1%nat
      else if (194 <=? b) && (b <=? 223) then if tail 1%nat then Some 2%nat else None
      else if b =? 224 then if in_byte 160 191 s 1 && tail 2%nat then Some 3%nat else None
      else if b =? 237 then if in_byte 128 159 s 1 && tail 2%nat then Some 3%nat else None
      else if (225 <=? b) && (b <=? 239) then
        if tail 1%nat && tail 2%nat then Some 3%nat else None
      else if b =? 240 then
        if in_byte 144 191 s 1 && tail 2%nat && tail 3%nat then Some 4%nat else None
      else if b =? 244 then
        if in_byte 128 143 s 1 && tail 2%nat && tail 3%nat then Some 4%nat else None
      else if (241 <=? b) && (b <=? 243) then
        if tail 1%nat && tail 2%nat && tail 3%nat then Some 4%nat else None
      else None
  end.

Definition replacement : string := String (chr 239) (String (chr 191) (String (chr 189) "")).

Definition utf8_encode (r : Z) (acc : string) : string :=
  if r <? 128 then String (chr r) acc
  else if r <? 2048 then String (chr (192 + r / 64)) (String (chr (128 + r mod 64)) acc)
  else if r <? 65536 then
    String (chr (224 + r / 4096))
      (String (chr (128 + r / 64 mod 64)) (String (chr (128 + r mod 64)) acc))
  else
    String (chr (240 + r / 262144))
      (String (chr (128 + r / 4096 mod 64))
        (String (chr (128 + r / 64 mod 64)) (String (chr (128 + r mod 64)) acc))).

Definition hex4 (a b c d : ascii) : Z :=
  let h x := default 0 (hex_val x) in ((h a * 16 + h b) * 16 + h c) * 16 + h d.

Definition unescape (c : ascii) : ascii :=
  match c with
  | "b"%char => chr 8 | "f"%char => chr 12 | "n"%char => chr 10
  | "r"%char => chr 13 | "t"%char => chr 9 | _ => c
  end.

(** [unquoteBytes] after the scanner accepted the raw text; [skip] bytes of
    the current sequence are still to be copied. *)
Fixpoint unquote (skip : nat) (s : string) : string :=
  match s with
  | EmptyString => ""
  | String c r =>
      match skip with
      | S k => String c (unquote k r)
      | O =>
          if bool_decide (c = backslash) then
            match r with
            | String "u"%char (String h1 (String h2 (String h3 (String h4 r2)))) =>
                let u := hex4 h1 h2 h3 h4 in
                if (55296 <=? u) && (u <? 57344) then
                  match r2 with
                  | String b (String "u"%char (String k1 (String k2 (String k3 (String k4 r3))))) =>
                      let u2 := hex4 k1 k2 k3 k4 in
                      if bool_decide (b = backslash) && (u <? 56320) && (56320 <=? u2) && (u2 <? 57344)
                      then utf8_encode (65536 + (u - 55296) * 1024 + (u2 - 56320)) (unquote 0 r3)
                      else replacement +:+ unquote 0 r2
                  | _ => replacement +:+ unquote 0 r2
                  end
                else utf8_encode u (unquote 0 r2)
            | String e r2 => String (unescape e) (unquote 0 r2)
            | EmptyString => ""
            end
          else match utf8_size s with
          | Some n => String c (unquote (n - 1) r)
          | None => replacement +:+ unquote 0 r
          end
      end
  end.

(** ** The grammar *)

(** An open container with what it holds so far, in reverse. *)
Inductive frame : Type :=
| FArr (items : list json)
| FObj (members : list (string * json)) (key : string).

(** What the parser expects next; [PDone v] has just completed [v]. *)
Inductive parse_state : Type :=
| PValue
| PValueOrEnd
| PKey (members : list (string * json)) (allow_end : bool)
| PColon (members : list (string * json)) (key : string)
| PDone (v : json).

Definition lit_value (text : string) : json :=
  if bool_decide (text = "true") then JBool true
  else if bool_decide (text = "false") then JBool false else JNull.

Fixpoint parse_tokens (depth : nat) (st : parse_state) (stack : list frame)
    (ts : list token) : option json :=
  match ts with
  | [] => match st, stack with PDone v, [] => Some v | _, _ => None end
  | t :: ts' =>
      let value (_ : unit) :=
        match t with
        | TPunct "["%char =>
            if (length stack <? depth)%nat
            then parse_tokens depth PValueOrEnd (FArr [] :: stack) ts' else None
        | TPunct "{"%char =>
            if (length stack <? depth)%nat
            then parse_tokens depth (PKey [] true) stack ts' else None
        | TStr raw => parse_tokens depth (PDone (JStr (unquote 0 raw))) stack ts'
        | TNum text => parse_tokens depth (PDone (JNum text)) stack ts'
        | TLit text => parse_tokens depth (PDone (lit_value text)) stack ts'
        | _ => None
        end in
      match st with
      | PValue => value tt
      | PValueOrEnd =>
          match t, stack with
          | TPunct "]"%char, FArr items :: stack' =>
              parse_tokens depth (PDone (JArr (reverse items))) stack' ts'
          | _, _ => value tt
          end
      | PKey members allow_end =>
          match t with
          | TStr raw => parse_tokens depth (PColon members (unquote 0 raw)) stack ts'
          | TPunct "}"%char =>
              if allow_end then parse_tokens depth (PDone (JObj [])) stack ts' else None
          | _ => None
          end
      | PColon members key =>
          match t with
          | TPunct ":"%char => parse_tokens depth PValue (FObj members key :: stack) ts'
          | _ => None
          end
      | PDone v =>
          match t, stack with
          | TPunct ","%char, FArr items :: stack' =>
              parse_tokens depth PValue (FArr (v :: items) :: stack') ts'
          | TPunct "]"%char, FArr items :: stack' =>
              parse_tokens depth (PDone (JArr (reverse (v :: items)))) stack' ts'
          | TPunct ","%char, FObj members key :: stack' =>
              parse_tokens depth (PKey ((key, v) :: members) false) stack' ts'
          | TPunct "}"%char, FObj members key :: stack' =>
              parse_tokens depth (PDone (JObj (reverse ((key, v) :: members)))) stack' ts'
          | _, _ => None
          end
      end
  end.

(** Go's [maxNestingDepth]. *)
Definition max_nesting : nat := 10 * 1000.
#[global] Opaque max_nesting.

(** One value followed by white space only. *)
Definition json_parse (depth : nat) (s : string) : option json :=
  tokens s ≫= parse_tokens depth PValue [].

(** ** Quoting *)

Definition hex_low (n : Z) : ascii := if n <? 10 then chr (48 + n) else chr (87 + n).

Definition html_safe (c : ascii) : bool :=
  let b := byte_of c in
  (32 <=? b) && (b <? 128) && negb ((b =? 34) || (b =? 92) || (b =? 60) || (b =? 62) || (b =? 38)).

Definition escape_byte (c : ascii) (acc : string) : string :=
  let b := byte_of c in
  String backslash
    (if (b =? 34) || (b =? 92) then String c acc
     else if b =? 8 then String "b" acc else if b =? 12 then String "f" acc
     else if b =? 10 then String "n" acc else if b =? 13 then String "r" acc
     else if b =? 9 then String "t" acc
     else String "u" (String "0" (String "0"
            (String (hex_low (b / 16)) (String (hex_low (b mod 16)) acc))))).

(** [appendString(dst, s, escapeHTML = true)] between its quotes. *)
Fixpoint json_escape (skip : nat) (s : string) (acc : string) : string :=
  match s with
  | EmptyString => acc
  | String c r =>
      match skip with
      | S k => String c (json_escape k r acc)
      | O =>
          if byte_of c <? 128 then
            if html_safe c then String c (json_escape 0 r acc)
            else escape_byte c (json_escape 0 r acc)
          else match utf8_size s with
          | None => String backslash ("ufffd" +:+ json_escape 0 r acc)
          | Some n =>
              match s with
              | String c1 (String c2 (String c3 r3)) =>
                  if (byte_of c1 =? 226) && (byte_of c2 =? 128)
                     && ((byte_of c3 =? 168) || (byte_of c3 =? 169))
                  then String backslash ("u202" +:+ String (chr (byte_of c3 - 112)) (json_escape 0 r3 acc))
                  else String c (json_escape (n - 1) r acc)
              | _ => String c (json_escape (n - 1) r acc)
              end
          end
      end
  end.

Definition json_quote (s : string) : string :=
  String quote (json_escape 0 s (String quote "")).

(** A member ["name":value] of a marshalled struct. *)
Definition json_field (name value : string) : string := json_quote name +:+ ":" +:+ value.
Definition json_object (fields : list string) : string := "{" +:+ Join fields "," +:+ "}".

(** [''] is read as a quotation mark: JSON text in examples. *)
Fixpoint jq (s : string) : string :=
  match s with
  | String "'"%char r => String quote (jq r)
  | String c r => String c (jq r)
  | EmptyString => ""
  end.

Example json_parse_ex :
  json_parse 10 (jq " {'a':[1,-2.5e3,null],'b\u0041':{} , 'c':'x\ud83d\ude00\n'} ")
  = Some (JObj [("a", JArr [JNum "1"; JNum "-2.5e3"; JNull]); ("bA", JObj []);
      ("c", JStr ("x" +:+ String (chr 240) (String (chr 159) (String (chr 152) (String (chr 128)
              (String (chr 10) ""))))))]).
Proof. vm_compute. reflexivity. Qed.

Example json_reject_ex :
  map (json_parse 2 ∘ jq)
    [""; "{'a':1,}"; "[1,]"; "01"; "1 2"; "{'a' 1}"; "[1 2]"; "-"; "1."; "'a"; "[[[]]]"; "nul";
     "truex"; "{} x"; "{,}"; "'\x'"; "[}" ]
  = repeat None 17.
Proof. vm_compute. reflexivity. Qed.

(** ** Plain strings: quoting is the identity between the quotes *)

Lemma lex_str_plain s rest raw ts : str_forallb html_safe s = true ->
  lex MStr rest = Some (raw, ts) -> lex MStr (s +:+ rest) = Some (s +:+ raw, ts).
Proof.
  intros Hs Hr. induction s as [|c s IH]; [done|].
  cbn in Hs. apply andb_true_iff in Hs as [Hc Hs].
  rewrite !str_app_cons. cbn [lex].
  assert (c <> quote /\ c <> backslash /\ (byte_of c <? 32) = false) as (Hq & Hb & Hl).
  { split_and!; [intros ->; done..|]. unfold html_safe in Hc. gobool. lia. }
  rewrite (bool_decide_false (c = quote)), (bool_decide_false (c = backslash)), Hl by done.
  by rewrite (IH Hs).
Qed.

Lemma lex_str_end r ts : lex MTop r = Some ("", ts) -> lex MStr (String quote r) = Some ("", ts).
Proof. intros H. cbn. by rewrite H. Qed.

Lemma json_escape_plain s acc : str_forallb html_safe s = true -> json_escape 0 s acc = s +:+ acc.
Proof.
  intros Hs. induction s as [|c s IH]; [done|]. cbn in Hs. apply andb_true_iff in Hs as [Hc Hs].
  rewrite str_app_cons. cbn [json_escape]. rewrite Hc, (IH Hs).
  unfold html_safe in Hc. destruct (byte_of c <? 128) eqn:E; [done|]. gobool. lia.
Qed.

Lemma unquote_plain s : str_forallb html_safe s = true -> unquote 0 s = s.
Proof.
  intros Hs. induction s as [|c s IH]; [done|]. cbn in Hs. apply andb_true_iff in Hs as [Hc Hs].
  cbn [unquote]. rewrite (bool_decide_false (c = backslash)) by (intros ->; done).
  assert (utf8_size (String c s) = Some 1%nat) as ->; [|cbn; by rewrite (IH Hs)].
  unfold utf8_size. unfold html_safe in Hc. destruct (byte_of c <? 128) eqn:E; [done|]. gobool. lia.
Qed.

(** Lexing a quoted plain string from the top level. *)
Lemma lex_quoted s r ts : str_forallb html_safe s = true -> lex MTop r = Some ("", ts) ->
  lex MTop (json_quote s +:+ r) = Some ("", TStr s :: ts).
Proof.
  intros Hs Hr. unfold json_quote. rewrite (json_escape_plain s _ Hs), str_app_cons, str_app_assoc.
  cbn [lex]. cbn [is_space]. replace (is_space quote) with false by done.
  replace (is_punct quote) with false by done.
  rewrite (bool_decide_true (quote = quote)) by done.
  rewrite (lex_str_plain s _ "" ts Hs); [by rewrite str_app_nil_r|].
  rewrite str_app_cons, str_app_nil_l. by apply lex_str_end.
Qed.

Lemma lex_punct c r ts : is_punct c = true -> lex MTop r = Some ("", ts) ->
  lex MTop (String c r) = Some ("", TPunct c :: ts).
Proof.
  intros Hc Hr. cbn [lex]. rewrite Hc, Hr.
  destruct (is_space c) eqn:E; [|done]. by destruct c as [[] [] [] [] [] [] [] []].
Qed.

(** * JSON text that a marshaller writes is read back as the value it denotes

    [encodes d v s]: wherever a value may stand, the text [s] followed by a
    delimiter is scanned and parsed as [v], nesting at most [d] levels deeper.
    One lemma per form of text that the modelled code marshals: plain strings,
    integers, number text, arrays and objects. *)

(** What can follow a value: the end of the text or punctuation. *)
Definition delim (r : string) : bool :=
  match r with "" => true | String c _ => is_punct c end.

Definition encodes (d : nat) (v : json) (s : string) : Prop :=
  exists ts,
    (forall r rest, delim r = true -> lex MTop r = Some ("", rest) ->
       lex MTop (s +:+ r) = Some ("", ts ++ rest))
    /\ (forall depth st stack rest, st = PValue \/ st = PValueOrEnd -> (length stack + d <= depth)%nat ->
       parse_tokens depth st stack (ts ++ rest) = parse_tokens depth (PDone v) stack rest).

Lemma encodes_mono d d' v s : (d <= d')%nat -> encodes d v s -> encodes d' v s.
Proof.
  intros Hd (ts & Hlex & Hparse). exists ts. split; [done|].
  intros depth st stack rest Hst Hl. apply Hparse; [done|lia].
Qed.

(** A whole text. *)
Lemma json_parse_encodes d depth v s : (d <= depth)%nat -> encodes d v s -> json_parse depth s = Some v.
Proof.
  intros Hd (ts & Hlex & Hparse). unfold json_parse, tokens.
  specialize (Hlex "" [] eq_refl eq_refl). rewrite str_app_nil_r, app_nil_r in Hlex. rewrite Hlex.
  change (parse_tokens depth PValue [] ts = Some v).
  rewrite <- (app_nil_r ts), Hparse; [done|by left|cbn [length]; lia].
Qed.

Lemma encodes_string s : str_forallb html_safe s = true -> encodes 0 (JStr s) (json_quote s).
Proof.
  intros Hs. exists [TStr s]. split.
  - intros r rest _ Hr. by apply lex_quoted.
  - intros depth st stack rest [-> | ->] _; cbn; by rewrite unquote_plain.
Qed.

(** ** Numbers *)

Fixpoint num_run (st : num_state) (s : string) : bool :=
  match s with
  | "" => num_final st
  | String c r => match num_step st c with Some st' => num_run st' r | None => false end
  end.

Definition number_text (s : string) : bool :=
  match s with
  | "" => false
  | String c r => match num_start c with Some st => num_run st r | None => false end
  end.

Lemma num_step_punct st c : is_punct c = true -> num_step st c = None.
Proof.
  intros Hc. destruct c as [[] [] [] [] [] [] [] []]; try discriminate Hc; by destruct st.
Qed.

Lemma num_start_not c st : num_start c = Some st ->
  is_space c = false /\ is_punct c = false /\ bool_decide (c = quote) = false.
Proof.
  intros H. destruct c as [[] [] [] [] [] [] [] []]; try discriminate H; by split_and!.
Qed.

Lemma lex_num st s r rest : num_run st s = true -> delim r = true ->
  lex MTop r = Some ("", rest) -> lex (MNum st) (s +:+ r) = Some (s, rest).
Proof.
  revert st. induction s as [|c s IH]; intros st Hs Hr Hl; cbn [num_run] in Hs.
  - rewrite str_app_nil_l. destruct r as [|c r]; [cbn [lex]; rewrite Hs; by injection Hl as <-|].
    cbn [delim] in Hr. cbn [lex]. rewrite num_step_punct, Hs by done.
    etrans; [|exact Hl]. reflexivity.
  - rewrite str_app_cons. cbn [lex]. destruct (num_step st c) as [st'|]; [|done].
    by rewrite (IH st').
Qed.

Lemma encodes_number s : number_text s = true -> encodes 0 (JNum s) s.
Proof.
  intros Hs. exists [TNum s]. split.
  - intros r rest Hd Hr. destruct s as [|c s]; [done|]. cbn [number_text] in Hs.
    destruct (num_start c) as [st|] eqn:Hc; [|done].
    destruct (num_start_not _ _ Hc) as (Hsp & Hp & Hq).
    rewrite str_app_cons. cbn [lex]. rewrite Hsp, Hp, Hq, Hc. by rewrite (lex_num st s r rest).
  - by intros depth st stack rest [-> | ->] _.
Qed.

Lemma num_run_digits s : str_forallb is_digit s = true -> num_run N1 s = true.
Proof.
  induction s as [|c s IH]; [done|]. cbn [str_forallb num_run num_step].
  intros [Hc Hs]%andb_true_iff. rewrite Hc. by apply IH.
Qed.

(** The first digit of a positive number's shortest text is not zero. *)
Lemma fixed_digits_lead fuel n s : 0 < n < 10 ^ Z.of_nat (S fuel) -> exists c r,
  fixed_digits (num_digits fuel n) n s = String c (r +:+ s) /\ num_start c = Some N1
  /\ str_forallb is_digit r = true.
Proof.
  assert (Hd : forall k, 0 < k < 10 -> num_start (chr (48 + k)) = Some N1).
  { intros k Hk. assert (k = 1 \/ k = 2 \/ k = 3 \/ k = 4 \/ k = 5 \/ k = 6 \/ k = 7 \/ k = 8 \/ k = 9)
      as Hc by lia. by repeat (destruct Hc as [-> | Hc]; [done|]); subst. }
  revert n s. induction fuel as [|fuel IH]; intros n s Hn; cbn [num_digits].
  - exists (chr (48 + n)), "". cbn [fixed_digits]. change (10 ^ Z.of_nat 1) with 10 in Hn.
    rewrite Z.mod_small by lia. split; [done|]. split; [apply Hd; lia|done].
  - destruct (Z.ltb_spec n 10) as [Hlt|Hge].
    + exists (chr (48 + n)), "". cbn [fixed_digits]. rewrite Z.mod_small by lia.
      split; [done|]. split; [apply Hd; lia|done].
    + cbn [fixed_digits]. rewrite Nat2Z.inj_succ, Z.pow_succ_r in Hn by lia.
      destruct (IH (n / 10) (String (chr (48 + n mod 10)) s)) as (c & r & -> & Hc & Hr).
      { split; [apply Z.div_str_pos; lia|apply Z.div_lt_upper_bound; lia]. }
      exists c, (r +:+ String (chr (48 + n mod 10)) ""). split; [by rewrite str_app_assoc|].
      split; [done|]. rewrite str_forallb_app, Hr. cbn.
      destruct (chr_digit (n mod 10)) as [-> _]; [|done].
      pose proof (Z.mod_pos_bound n 10 ltac:(lia)). lia.
Qed.

Lemma number_text_FormatInt n : in_int64 n -> number_text (FormatInt n) = true.
Proof.
  unfold in_int64, min_int64, max_int64. intros Hn. unfold FormatInt.
  destruct (Z.ltb_spec n 0) as [Hneg|Hpos].
  - destruct (fixed_digits_lead 20 (- n) "") as (c & r & -> & Hc & Hr); [lia|].
    rewrite str_app_nil_r. cbn [number_text]. replace (num_start "-"%char) with (Some NNeg) by done.
    cbn [num_run]. assert (num_step NNeg c = Some N1) as ->; [|by apply num_run_digits].
    unfold num_step, num_start in *. destruct (bool_decide (c = "-"%char)); [done|].
    destruct (bool_decide (c = "0"%char)); [done|]. by destruct (is_digit c).
  - destruct (decide (n = 0)) as [->|Hnz]; [done|].
    destruct (fixed_digits_lead 20 n "") as (c & r & -> & Hc & Hr); [lia|].
    rewrite str_app_nil_r. cbn [number_text]. rewrite Hc. by apply num_run_digits.
Qed.

(** ** Arrays *)

Definition json_array (items : list string) : string := "[" +:+ Join items "," +:+ "]".

Lemma lex_skip c s : is_punct c = true -> forall rest, lex MTop s = Some ("", rest) ->
  lex MTop (String c "" +:+ s) = Some ("", TPunct c :: rest).
Proof. intros Hc rest Hs. rewrite str_app_cons, str_app_nil_l. by apply lex_punct. Qed.

(** The items after the first, in any array frame. *)
Lemma encodes_items d vs ss : Forall2 (encodes d) vs ss -> vs <> [] -> exists ts,
  (forall r rest, delim r = true -> lex MTop r = Some ("", rest) ->
     lex MTop (Join ss "," +:+ r) = Some ("", ts ++ rest))
  /\ (forall depth st stack acc rest, st = PValue \/ st = PValueOrEnd ->
     (length stack + S d <= depth)%nat ->
     parse_tokens depth st (FArr acc :: stack) (ts ++ TPunct "]" :: rest)
     = parse_tokens depth (PDone (JArr (reverse acc ++ vs))) stack rest).
Proof.
  induction 1 as [|v s vs ss (ts & Hlex & Hparse) Hrest IH]; intros Hne; [done|].
  destruct Hrest as [|v' s' vs ss Hv' Hrest].
  - exists ts. split; [exact Hlex|]. intros depth st stack acc rest Hst Hl.
    rewrite Hparse by (done || (cbn [length]; lia)). cbn [parse_tokens]. by rewrite reverse_cons.
  - destruct IH as (ts' & Hlex' & Hparse'); [done|].
    exists (ts ++ TPunct "," :: ts'). split.
    + intros r rest Hr Hl. specialize (Hlex' r rest Hr Hl).
      change (Join (s :: s' :: ss) ",") with (s +:+ String "," (Join (s' :: ss) ",")).
      rewrite str_app_assoc, str_app_cons, <- (assoc_L (++)). apply Hlex; [done|].
      by apply lex_punct.
    + intros depth st stack acc rest Hst Hl. rewrite <- (assoc_L (++)).
      rewrite Hparse by (done || (cbn [length]; lia)). cbn [parse_tokens app].
      rewrite Hparse' by (lia || by left). by rewrite reverse_cons, <- (assoc_L (++)).
Qed.

Lemma encodes_array d vs ss : Forall2 (encodes d) vs ss -> vs <> [] ->
  encodes (S d) (JArr vs) (json_array ss).
Proof.
  intros H Hne. destruct (encodes_items _ _ _ H Hne) as (ts & Hlex & Hparse).
  exists (TPunct "[" :: ts ++ [TPunct "]"]). split.
  - intros r rest Hd Hr. unfold json_array. rewrite !str_app_assoc. cbn [app].
    apply lex_skip; [done|]. rewrite <- (assoc_L (++)). apply Hlex; [done|]. by apply lex_skip.
  - intros depth st stack rest Hst Hl. cbn [app]. rewrite <- (assoc_L (++)). cbn [app].
    transitivity (parse_tokens depth PValueOrEnd (FArr [] :: stack) (ts ++ TPunct "]" :: rest)).
    { destruct Hst as [-> | ->]; cbn [parse_tokens];
        destruct (Nat.ltb_spec (length stack) depth); done || lia. }
    rewrite Hparse by (lia || by right). done.
Qed.

(** ** Objects *)

(** The members of an object as a marshaller renders them. *)
Definition encodes_member (d : nat) (m : string * json) (s : string) : Prop :=
  str_forallb html_safe m.1 = true
  /\ exists text, s = json_field m.1 text /\ encodes d m.2 text.

Lemma encodes_members d ms ss : Forall2 (encodes_member d) ms ss -> ms <> [] -> exists ts,
  (forall r rest, delim r = true -> lex MTop r = Some ("", rest) ->
     lex MTop (Join ss "," +:+ r) = Some ("", ts ++ rest))
  /\ (forall depth first stack acc rest, (length stack + S d <= depth)%nat ->
     parse_tokens depth (PKey acc first) stack (ts ++ TPunct "}" :: rest)
     = parse_tokens depth (PDone (JObj (reverse acc ++ ms))) stack rest).
Proof.
  induction 1 as [|[k v] s ms ss (Hk & text & -> & ts & Hlex & Hparse) Hrest IH]; intros Hne; [done|].
  cbn [fst snd] in *.
  assert (Hfield : forall r rest, delim r = true -> lex MTop r = Some ("", rest) ->
    lex MTop (json_field k text +:+ r) = Some ("", TStr k :: TPunct ":" :: ts ++ rest)).
  { intros r rest Hd Hr. unfold json_field. rewrite !str_app_assoc. apply lex_quoted; [done|].
    apply lex_skip; [done|]. by apply Hlex. }
  assert (Hkey : forall depth first stack acc rest, (length stack + S d <= depth)%nat ->
    parse_tokens depth (PKey acc first) stack (TStr k :: TPunct ":" :: ts ++ rest)
    = parse_tokens depth (PDone v) (FObj acc k :: stack) rest).
  { intros depth first stack acc rest Hl. cbn [parse_tokens]. rewrite unquote_plain by done.
    apply Hparse; [by left|cbn [length]; lia]. }
  destruct Hrest as [|m' s' ms ss Hm' Hrest].
  - exists (TStr k :: TPunct ":" :: ts). split; [exact Hfield|].
    intros depth first stack acc rest Hl. cbn [app]. rewrite Hkey by done. cbn [parse_tokens].
    by rewrite reverse_cons.
  - destruct IH as (ts' & Hlex' & Hparse'); [done|].
    exists (TStr k :: TPunct ":" :: ts ++ TPunct "," :: ts'). split.
    + intros r rest Hr Hl. specialize (Hlex' r rest Hr Hl).
      change (Join (json_field k text :: s' :: ss) ",")
        with (json_field k text +:+ String "," (Join (s' :: ss) ",")).
      rewrite str_app_assoc, str_app_cons. cbn [app]. rewrite <- (assoc_L (++)).
      apply Hfield; [done|]. by apply lex_punct.
    + intros depth first stack acc rest Hl. cbn [app]. rewrite <- (assoc_L (++)), Hkey by done.
      cbn [parse_tokens app]. rewrite Hparse' by done. by rewrite reverse_cons, <- (assoc_L (++)).
Qed.

Lemma encodes_object d ms ss : Forall2 (encodes_member d) ms ss -> ms <> [] ->
  encodes (S d) (JObj ms) (json_object ss).
Proof.
  intros H Hne. destruct (encodes_members _ _ _ H Hne) as (ts & Hlex & Hparse).
  exists (TPunct "{" :: ts ++ [TPunct "}"]). split.
  - intros r rest Hd Hr. unfold json_object. rewrite !str_app_assoc. cbn [app].
    apply lex_skip; [done|]. rewrite <- (assoc_L (++)). apply Hlex; [done|]. by apply lex_skip.
  - intros depth st stack rest Hst Hl. cbn [app]. rewrite <- (assoc_L (++)). cbn [app].
    transitivity (parse_tokens depth (PKey [] true) stack (ts ++ TPunct "}" :: rest)).
    { destruct Hst as [-> | ->]; cbn [parse_tokens];
        destruct (Nat.ltb_spec (length stack) depth); done || lia. }
    by rewrite Hparse.
Qed.

Lemma max_nesting_ge : (10 <= max_nesting)%nat.
Proof. apply Nat.leb_le. reflexivity. Qed.

Lemma encodes_member_intro d k v text : str_forallb html_safe k = true -> encodes d v text ->
  encodes_member d (k, v) (json_field k text).
Proof. intros Hk Hv. split; [done|]. by exists text. Qed.

(** ** Text without escapes *)

Lemma digits_plain s : str_forallb is_digit s = true -> str_forallb html_safe s = true.
Proof.
  apply str_forallb_impl. intros c Hc. unfold is_digit, in_range in Hc. unfold html_safe. gobool. lia.
Qed.

(** Fixed-width digits before plain text. *)
Lemma fixed_digits_plain w n s : str_forallb html_safe s = true ->
  str_forallb html_safe (fixed_digits w n s) = true.
Proof.
  revert n s. induction w as [|w IH]; intros n s Hs; [done|]. cbn [fixed_digits]. apply IH.
  cbn [str_forallb]. rewrite Hs, andb_true_r.
  destruct (chr_digit (n mod 10)) as [Hd _]; [pose proof (Z.mod_pos_bound n 10 ltac:(lia)); lia|].
  assert (Hp : str_forallb html_safe (String (chr (48 + n mod 10)) "") = true)
    by (apply digits_plain; cbn [str_forallb]; by rewrite Hd).
  cbn [str_forallb] in Hp. by apply andb_true_iff in Hp as [? _].
Qed.
