(* ===== verification/Uuid.v ===== *)
(** * github.com/google/uuid: the interface the program relies on

    The library is not part of the repository, so its functions are the
    operations of a typeclass.  [UuidLaws] states the documented behaviour the
    program depends on, and [Canonical] is a concrete implementation that
    satisfies it, used by the witnesses. *)

From S2P Require Import Prelude GoStrings.
#[local] Open Scope Z_scope.

Class UuidLib (uuid : Type) := {
  uuid_eq_dec :: EqDecision uuid;
  uuid_countable :: Countable uuid;
  uuid_Nil : uuid;
  uuid_Parse : string -> option uuid;
  uuid_Validate : string -> bool;
  uuid_String : uuid -> string;
  uuid_Version : uuid -> Z;
  uuid_Variant : uuid -> Z;
}.

(** The package's [RFC4122] variant constant. *)
Definition RFC4122 : Z := 1.

Definition is_lower_hex (c : ascii) : bool := is_digit c || in_range 97 102 c.
Definition uuid_char (c : ascii) : bool := is_lower_hex c || bool_decide (c = "-"%char).

Class UuidLaws (uuid : Type) `{UuidLib uuid} := {
  (** Parse decodes the canonical form String returns. *)
  uuid_Parse_String u : uuid_Parse (uuid_String u) = Some u;
  uuid_Validate_String u : uuid_Validate (uuid_String u) = true;
  (** The canonical form is made of lower-case hexadecimal digits and dashes. *)
  uuid_String_chars u : str_forallb uuid_char (uuid_String u) = true;
  uuid_String_length u : String.length (uuid_String u) = 36%nat;
}.

#[export] Instance uuid_String_inj `{UuidLaws uuid} : Inj (=) (=) uuid_String.
Proof. intros u v E. apply (f_equal uuid_Parse) in E. rewrite !uuid_Parse_String in E. congruence. Qed.

(** ** Canonical texts as identifiers *)

Module Canonical.

Fixpoint canonical_from (i : Z) (s : string) : bool :=
  match s with
  | EmptyString => i =? 36
  | String c r =>
      (if (i =? 8) || (i =? 13) || (i =? 18) || (i =? 23)
       then bool_decide (c = "-"%char) else is_lower_hex c)
      && canonical_from (i + 1) r
  end.
Definition canonical (s : string) : bool := canonical_from 0 s.

Record cuuid := mk { text : string; text_ok : canonical text = true }.

Lemma cuuid_eq (u v : cuuid) : text u = text v -> u = v.
Proof.
  destruct u as [s Hs], v as [t Ht]. cbn. intros <-. f_equal.
  apply (Eqdep_dec.UIP_dec Bool.bool_dec).
Qed.

#[export] Instance cuuid_eq_dec : EqDecision cuuid.
Proof.
  intros u v. destruct (decide (text u = text v)) as [E|E].
  - left. by apply cuuid_eq.
  - right. congruence.
Defined.

Definition parse (s : string) : option cuuid :=
  match Bool.bool_dec (canonical s) true with
  | left E => Some (mk s E)
  | right _ => None
  end.

Lemma parse_text u : parse (text u) = Some u.
Proof.
  unfold parse. destruct Bool.bool_dec as [E|E]; [|by destruct u].
  f_equal. by apply cuuid_eq.
Qed.

#[export] Instance cuuid_countable : Countable cuuid :=
  inj_countable text parse parse_text.

Definition nil : cuuid := mk "00000000-0000-0000-0000-000000000000" eq_refl.

Definition hex_at (i : nat) (s : string) : Z :=
  let c := byte_at s i in if is_digit c then digit_val c else byte_of c - 87.

#[export] Instance lib : UuidLib cuuid := {
  uuid_Nil := nil;
  uuid_Parse := parse;
  uuid_Validate := canonical;
  uuid_String := text;
  uuid_Version u := hex_at 14 (text u);
  uuid_Variant u := if (8 <=? hex_at 19 (text u)) && (hex_at 19 (text u) <? 12) then 1 else 2;
}.

Lemma canonical_from_chars i s : canonical_from i s = true -> str_forallb uuid_char s = true.
Proof.
  revert i. induction s as [|c s IH]; intros i Hs; [done|]. cbn in Hs |- *.
  apply andb_true_iff in Hs as [Hc Hs]. rewrite (IH _ Hs), andb_true_r.
  unfold uuid_char. by destruct (_ || _); rewrite Hc, ?orb_true_r.
Qed.

Lemma canonical_from_length i s : canonical_from i s = true -> Z.of_nat (String.length s) = 36 - i.
Proof.
  revert i. induction s as [|c s IH]; intros i Hs; cbn [canonical_from String.length] in *.
  - gobool. lia.
  - apply andb_true_iff in Hs as [_ Hs]. apply IH in Hs. lia.
Qed.

#[export] Instance laws : UuidLaws cuuid.
Proof.
  split.
  - apply parse_text.
  - intros [s Hs]. apply Hs.
  - intros [s Hs]. by apply (canonical_from_chars 0).
  - intros [s Hs]. cbn. apply canonical_from_length in Hs. lia.
Qed.

(** Identifiers of version 4 and 7 for the examples. *)
Definition id4 : cuuid := mk "3f2b8c1e-9d4a-4b7c-8e21-5a6f7d8c9b01" eq_refl.
Definition id7 : cuuid := mk "0190f5e2-7a3b-7c1d-9f42-b8a7c6d5e4f3" eq_refl.
Definition boot : cuuid := mk "a1b2c3d4-e5f6-4711-a233-445566778899" eq_refl.

Lemma ids_ok : uuid_Version id4 = 4 /\ uuid_Version id7 = 7
  /\ uuid_Variant id4 = RFC4122 /\ uuid_Variant id7 = RFC4122 /\ uuid_Variant boot = RFC4122
  /\ id4 <> nil /\ id7 <> nil.
Proof. by vm_compute. Qed.
End Canonical.
