(* ===== verification/Identity.v ===== *)
(** * Gateway and Sensor identifiers, and their Digital Twin names

    [gateway/identifier.go] and [digitaltwin/mapper/identity.go]. *)

From S2P Require Import Prelude GoStrings.
#[local] Open Scope Z_scope.

Inductive id_error := ErrInvalidGatewayID | ErrInvalidSensorID.

#[export] Instance id_error_eq_dec : EqDecision id_error.
Proof. solve_decision. Defined.

(** [[A-Za-z0-9]] and [[A-Za-z0-9_-]]. *)
Definition id_head_char (c : ascii) : bool := is_upper c || is_lower c || is_digit c.
Definition id_char (c : ascii) : bool :=
  id_head_char c || bool_decide (c = "_"%char) || bool_decide (c = "-"%char).

(** [^[A-Za-z0-9][A-Za-z0-9_-]{0,63}$] *)
Definition gatewayIDPattern (id : string) : bool :=
  match id with
  | EmptyString => false
  | String c rest => id_head_char c && str_forallb id_char rest && (str_len rest <=? 63)
  end.

Definition ValidateSensorID (id : string) : option id_error :=
  if negb (gatewayIDPattern id) then Some ErrInvalidSensorID else None.

Definition ValidateGatewayID (id : string) : option id_error :=
  if bool_decide (id = "backend_service") || negb (gatewayIDPattern id)
  then Some ErrInvalidGatewayID else None.

Definition GatewayEntityID (gatewayID : string) : string := "urn:ngsi-ld:Gateway:" +:+ gatewayID.

Definition SensorEntityID (gatewayID sensorID : string) : string :=
  "urn:ngsi-ld:Sensor:" +:+ gatewayID +:+ ":" +:+ sensorID.

(** ** Characters of valid identifiers *)

Lemma id_char_ranges c : id_char c = true ->
  48 <= byte_of c <= 57 \/ 65 <= byte_of c <= 90 \/ 97 <= byte_of c <= 122
  \/ byte_of c = 95 \/ byte_of c = 45.
Proof.
  unfold id_char, id_head_char, is_upper, is_lower, is_digit, in_range.
  intros H. gobool.
  destruct H as [[[[H|H]|H]| ->]| ->]; [lia..| |]; vm_compute; auto 10.
Qed.

Lemma id_char_not sep c : id_char sep = false -> id_char c = true -> c <> sep.
Proof. congruence. Qed.

Lemma pattern_chars id : gatewayIDPattern id = true -> str_forallb id_char id = true.
Proof.
  destruct id as [|c id]; cbn; [done|]. intros H. gobool.
  unfold id_char at 1. by rewrite H, H2.
Qed.

Lemma pattern_nonempty id : gatewayIDPattern id = true -> id <> "".
Proof. by destruct id. Qed.

Lemma pattern_length id : gatewayIDPattern id = true -> 1 <= str_len id <= 64.
Proof.
  destruct id as [|c id]; cbn [gatewayIDPattern]; [done|]. intros H. gobool.
  unfold str_len in *. cbn [String.length]. lia.
Qed.

Lemma valid_gateway_pattern id : ValidateGatewayID id = None -> gatewayIDPattern id = true.
Proof. unfold ValidateGatewayID. intros H. inv_ok H. gobool. destruct (gatewayIDPattern id); naive_solver. Qed.

Lemma valid_sensor_pattern id : ValidateSensorID id = None -> gatewayIDPattern id = true.
Proof. unfold ValidateSensorID. intros H. inv_ok H. by gobool. Qed.

(** A valid identifier contains no separator of topics and URNs. *)
Lemma pattern_no_sep id sep : id_char sep = false -> gatewayIDPattern id = true ->
  no_char sep id = true.
Proof.
  intros Hsep Hid. apply pattern_chars in Hid. unfold no_char.
  eapply str_forallb_impl; [|exact Hid]. intros c Hc.
  rewrite bool_decide_false; [done|]. by apply id_char_not.
Qed.

Lemma append_sep_inj sep a b c d : no_char sep a = true -> no_char sep b = true ->
  a +:+ String sep c = b +:+ String sep d -> a = b /\ c = d.
Proof.
  intros Ha Hb E. assert (E' := f_equal (fun s => Split s sep) E).
  cbv beta in E'. rewrite !Split_cons_sep in E' by done.
  injection E' as -> E'. split; [done|].
  rewrite <- (Join_Split c sep), <- (Join_Split d sep). by rewrite E'.
Qed.
