(* ===== verification/Urn.v ===== *)
(** * Digital Twin entities: their public names and the package's errors

    [digitaltwin/identity.go] and the sentinels of [digitaltwin/errors.go]. *)

From S2P Require Import Prelude GoStrings Identity.
#[local] Open Scope Z_scope.

(** ** Errors *)

(** The sentinels of the read operations.  The sentinels the package borrows
    from [telemetry] are those of [HistoryQuery]. *)
Inductive TwinError :=
| ErrNilActor
| ErrNotFound
| ErrInvalidInput
| ErrInvalidCursor
| ErrInvalidProperty
| ErrInconsistentUnit
| ErrDependencyUnavailable
| ErrUnexpected.

#[export] Instance TwinError_eq_dec : EqDecision TwinError.
Proof. solve_decision. Defined.

(** ** Entity types *)

Definition GatewayURNPrefix : string := "urn:ngsi-ld:Gateway:".
Definition SensorURNPrefix : string := "urn:ngsi-ld:Sensor:".
Definition MaxDecodedURNLength : Z := 160.

(** [EntityType] is a string in Go; any other text is [EntityTypeOther]. *)
Inductive EntityType :=
| EntityTypeGateway
| EntityTypeSensor
| EntityTypeOther (text : string).

#[export] Instance EntityType_eq_dec : EqDecision EntityType.
Proof. solve_decision. Defined.

Definition entity_type_text (t : EntityType) : string :=
  match t with
  | EntityTypeGateway => "Gateway"
  | EntityTypeSensor => "Sensor"
  | EntityTypeOther text => text
  end.

(** The conversion [EntityType(s)]. *)
Definition EntityType_of (s : string) : EntityType :=
  if bool_decide (s = "Gateway") then EntityTypeGateway
  else if bool_decide (s = "Sensor") then EntityTypeSensor
  else EntityTypeOther s.

Definition EntityType_Valid (t : EntityType) : bool :=
  match t with EntityTypeOther _ => false | _ => true end.

Lemma EntityType_of_text t : EntityType_Valid t = true -> EntityType_of (entity_type_text t) = t.
Proof. by destruct t. Qed.

Lemma entity_type_text_of s : entity_type_text (EntityType_of s) = s.
Proof. unfold EntityType_of. by repeat case_bool_decide; subst. Qed.

(** ** Names *)

Record ParsedIdentity := mkIdentity {
  pi_Type : EntityType;
  pi_GatewayID : string;
  pi_SensorID : string;
  pi_URN : string;
}.

Definition ParseEntityURN (raw : string) : res TwinError ParsedIdentity :=
  if bool_decide (raw = "") || (MaxDecodedURNLength <? str_len raw) then Err ErrInvalidInput
  else if HasPrefix raw GatewayURNPrefix then
    let remainder := TrimPrefix raw GatewayURNPrefix in
    if bool_decide (remainder = "") || contains_char ":" remainder then Err ErrInvalidInput
    else if bool_decide (is_Some (ValidateGatewayID remainder)) then Err ErrInvalidInput
    else Ok (mkIdentity EntityTypeGateway remainder "" raw)
  else if HasPrefix raw SensorURNPrefix then
    let remainder := TrimPrefix raw SensorURNPrefix in
    match Split remainder ":" with
    | [gatewayID; sensorID] =>
        if bool_decide (gatewayID = "") || bool_decide (sensorID = "") then Err ErrInvalidInput
        else if bool_decide (is_Some (ValidateGatewayID gatewayID)) then Err ErrInvalidInput
        else if bool_decide (is_Some (ValidateSensorID sensorID)) then Err ErrInvalidInput
        else Ok (mkIdentity EntityTypeSensor gatewayID sensorID raw)
    | _ => Err ErrInvalidInput
    end
  else Err ErrInvalidInput.

(** [ParsedIdentity.String]. *)
Definition ParsedIdentity_String (p : ParsedIdentity) : string :=
  if bool_decide (pi_Type p = EntityTypeSensor)
  then entity_type_text (pi_Type p) +:+ "(" +:+ pi_GatewayID p +:+ ":" +:+ pi_SensorID p +:+ ")"
  else entity_type_text (pi_Type p) +:+ "(" +:+ pi_GatewayID p +:+ ")".

(** ** Names and identities correspond *)

(** What a parsed name says. *)
Inductive names : string -> ParsedIdentity -> Prop :=
| names_gateway g : ValidateGatewayID g = None ->
    names (GatewayEntityID g) (mkIdentity EntityTypeGateway g "" (GatewayEntityID g))
| names_sensor g s : ValidateGatewayID g = None -> ValidateSensorID s = None ->
    names (SensorEntityID g s) (mkIdentity EntityTypeSensor g s (SensorEntityID g s)).

Lemma colon_free id : gatewayIDPattern id = true -> no_char ":" id = true.
Proof. by apply pattern_no_sep. Qed.

Lemma not_some {A} (o : option A) : ~ is_Some o <-> o = None.
Proof. symmetry. apply eq_None_not_Some. Qed.

Lemma gateway_urn_length g : gatewayIDPattern g = true -> str_len (GatewayEntityID g) <= 84.
Proof.
  intros H. apply pattern_length in H. unfold str_len, GatewayEntityID in *.
  rewrite str_length_app. cbn [String.length]. lia.
Qed.

Lemma sensor_urn_length g s : gatewayIDPattern g = true -> gatewayIDPattern s = true ->
  str_len (SensorEntityID g s) <= 148.
Proof.
  intros Hg Hs. apply pattern_length in Hg, Hs. unfold str_len, SensorEntityID in *.
  rewrite !str_length_app. cbn [String.length]. lia.
Qed.

Lemma parse_gateway_urn g : ValidateGatewayID g = None ->
  ParseEntityURN (GatewayEntityID g) = Ok (mkIdentity EntityTypeGateway g "" (GatewayEntityID g)).
Proof.
  intros Hv. pose proof (valid_gateway_pattern g Hv) as Hp. pose proof (gateway_urn_length g Hp) as Hl.
  unfold ParseEntityURN. rewrite (proj2 (Z.ltb_ge _ _)) by (unfold MaxDecodedURNLength; lia).
  rewrite (bool_decide_eq_false_2 (GatewayEntityID g = "")) by done. cbn [orb].
  unfold GatewayEntityID, GatewayURNPrefix. rewrite HasPrefix_app, TrimPrefix_app.
  rewrite (bool_decide_eq_false_2 (g = "")) by by apply pattern_nonempty.
  unfold contains_char. rewrite colon_free by done. cbn [negb orb]. rewrite Hv.
  rewrite bool_decide_eq_false_2 by (by intros []). done.
Qed.

Lemma parse_sensor_urn g s : ValidateGatewayID g = None -> ValidateSensorID s = None ->
  ParseEntityURN (SensorEntityID g s) = Ok (mkIdentity EntityTypeSensor g s (SensorEntityID g s)).
Proof.
  intros Hg Hs. pose proof (valid_gateway_pattern g Hg) as Pg. pose proof (valid_sensor_pattern s Hs) as Ps.
  pose proof (sensor_urn_length g s Pg Ps) as Hl.
  unfold ParseEntityURN. rewrite (proj2 (Z.ltb_ge _ _)) by (unfold MaxDecodedURNLength; lia).
  rewrite (bool_decide_eq_false_2 (SensorEntityID g s = "")) by done. cbn [orb].
  unfold SensorEntityID, GatewayURNPrefix. change (HasPrefix _ "urn:ngsi-ld:Gateway:") with false.
  cbv iota. unfold SensorURNPrefix. rewrite HasPrefix_app, TrimPrefix_app.
  change (g +:+ ":" +:+ s) with (g +:+ String ":" s).
  rewrite Split_cons_sep, Split_no_sep by by apply colon_free.
  rewrite !bool_decide_eq_false_2 by by apply pattern_nonempty. cbn [orb].
  rewrite Hg, Hs, !bool_decide_eq_false_2 by (by intros []). done.
Qed.

Lemma parse_urn_names raw p : ParseEntityURN raw = Ok p <-> names raw p.
Proof.
  split.
  - unfold ParseEntityURN. intros H.
    destruct (_ || _); [done|]. destruct (HasPrefix raw GatewayURNPrefix) eqn:Hg.
    + apply HasPrefix_split in Hg. destruct (_ || _); [done|]. case_bool_decide as Hv; [done|].
      apply not_some in Hv. injection H as <-. rewrite Hg at 1 3. by apply names_gateway.
    + destruct (HasPrefix raw SensorURNPrefix) eqn:Hs; [|done]. apply HasPrefix_split in Hs.
      pose proof (Join_Split (TrimPrefix raw SensorURNPrefix) ":") as Hj.
      destruct (Split _ _) as [|g [|s [|]]]; try done. destruct (_ || _); [done|].
      case_bool_decide as Hv; [done|]. case_bool_decide as Hw; [done|]. apply not_some in Hv, Hw.
      injection H as <-. cbn in Hj. rewrite <- Hj in Hs.
      assert (raw = SensorEntityID g s) as -> by done. by apply names_sensor.
  - intros [g Hg|g s Hg Hs]; [by apply parse_gateway_urn|by apply parse_sensor_urn].
Qed.

(** ParseEntityURN accepts exactly the names that the provisioning code gives
    to valid identifiers, and returns the identifiers they were made of. *)
Theorem ParseEntityURN_spec raw p : ParseEntityURN raw = Ok p <->
  (exists g, ValidateGatewayID g = None /\ raw = GatewayEntityID g
     /\ p = mkIdentity EntityTypeGateway g "" raw)
  \/ (exists g s, ValidateGatewayID g = None /\ ValidateSensorID s = None /\ raw = SensorEntityID g s
     /\ p = mkIdentity EntityTypeSensor g s raw).
Proof.
  rewrite parse_urn_names. split.
  - intros [g Hg|g s Hg Hs]; [left; eauto|right; eauto 6].
  - intros [(g & Hg & -> & ->)|(g & s & Hg & Hs & -> & ->)]; by constructor.
Qed.

Lemma parsed_urn raw p : ParseEntityURN raw = Ok p -> pi_URN p = raw.
Proof. intros H. apply parse_urn_names in H. by destruct H. Qed.

Lemma parsed_gateway raw p : ParseEntityURN raw = Ok p -> ValidateGatewayID (pi_GatewayID p) = None.
Proof. intros H. apply parse_urn_names in H. by destruct H. Qed.

Lemma parsed_error raw e : ParseEntityURN raw = Err e -> e = ErrInvalidInput.
Proof. unfold ParseEntityURN. intros H. repeat case_match; by inversion H. Qed.
