(* ===== verification/Telemetry.v ===== *)
(** * Telemetry input types, limits, failure codes and topics

    [telemetry/model.go], [telemetry/errors.go] and [telemetry/topic.go]. *)

From S2P Require Import Prelude GoStrings GoTime GoFloat Identity Uuid.
#[local] Open Scope Z_scope.

(** ** Failure codes *)

(** [ReasonCode] is a string in Go; the constants are the constructors and
    any other text is [ReasonOther]. *)
Inductive ReasonCode : Type :=
| ReasonInvalidTopic
| ReasonUnsupportedProtocol
| ReasonPayloadTooLarge
| ReasonInvalidPayload
| ReasonInvalidTimestamp
| ReasonTimestampInFuture
| ReasonInvalidSequenceRange
| ReasonUnknownGateway
| ReasonUnknownSensor
| ReasonResourceGraphIncomplete
| ReasonLegacyProvenanceUnknown
| ReasonMessageConflict
| ReasonSequenceOverlap
| ReasonQueueFull
| ReasonDependencyUnavailable
| ReasonCommitUnconfirmed
| ReasonAckPublishUnconfirmed
| ReasonOther (text : string).

#[export] Instance ReasonCode_eq_dec : EqDecision ReasonCode.
Proof. solve_decision. Defined.

Definition reason_text (code : ReasonCode) : string :=
  match code with
  | ReasonInvalidTopic => "invalid_topic"
  | ReasonUnsupportedProtocol => "unsupported_protocol"
  | ReasonPayloadTooLarge => "payload_too_large"
  | ReasonInvalidPayload => "invalid_payload"
  | ReasonInvalidTimestamp => "invalid_timestamp"
  | ReasonTimestampInFuture => "timestamp_in_future"
  | ReasonInvalidSequenceRange => "invalid_sequence_range"
  | ReasonUnknownGateway => "unknown_gateway"
  | ReasonUnknownSensor => "unknown_sensor"
  | ReasonResourceGraphIncomplete => "resource_graph_incomplete"
  | ReasonLegacyProvenanceUnknown => "legacy_provenance_unknown"
  | ReasonMessageConflict => "message_conflict"
  | ReasonSequenceOverlap => "sequence_overlap"
  | ReasonQueueFull => "queue_full"
  | ReasonDependencyUnavailable => "dependency_unavailable"
  | ReasonCommitUnconfirmed => "commit_unconfirmed"
  | ReasonAckPublishUnconfirmed => "ack_publish_unconfirmed"
  | ReasonOther text => text
  end.

Definition knownReasonCode (code : ReasonCode) : bool :=
  match code with ReasonOther _ => false | _ => true end.

Record ReasonError := mkReasonError { Code : ReasonCode; Field : string }.

#[export] Instance ReasonError_eq_dec : EqDecision ReasonError.
Proof. solve_decision. Defined.

(** Go error values: a reason error, a nil [*ReasonError] in an interface, an
    error that wraps another, or one without a reason. *)
Inductive error : Type :=
| EReason (e : ReasonError)
| EReasonNil
| EWrap (text : string) (cause : error)
| EWrap2 (text : string) (cause1 cause2 : error)
| EOther (text : string).

(** [errors.As(err, &reason)]: the first [*ReasonError] of the chain. *)
Fixpoint errors_As (err : error) : option (option ReasonError) :=
  match err with
  | EReason e => Some (Some e)
  | EReasonNil => Some None
  | EWrap _ cause => errors_As cause
  | EWrap2 _ cause1 cause2 =>
      match errors_As cause1 with Some r => Some r | None => errors_As cause2 end
  | EOther _ => None
  end.

Definition ReasonError_Error (e : option ReasonError) : string :=
  match e with
  | None => "telemetry error"
  | Some e =>
      if negb (knownReasonCode (Code e)) then "telemetry error"
      else "telemetry error: " +:+ reason_text (Code e)
  end.

Inductive FailureClass :=
| FailureNone
| FailurePermanentInputConflict
| FailureRetryWithBackoff
| FailureCheckClock
| FailureNeedsIntervention
| FailureCommitUnconfirmed
| FailureAckPublishUnconfirmed
| FailureUnknown.

#[export] Instance FailureClass_eq_dec : EqDecision FailureClass.
Proof. solve_decision. Defined.

Definition ClassifyFailure (err : option error) : FailureClass :=
  match err with
  | None => FailureNone
  | Some err =>
      match errors_As err with
      | None | Some None => FailureUnknown
      | Some (Some reason) =>
          match Code reason with
          | ReasonInvalidTopic | ReasonUnsupportedProtocol | ReasonPayloadTooLarge
          | ReasonInvalidPayload | ReasonInvalidTimestamp | ReasonInvalidSequenceRange
          | ReasonMessageConflict | ReasonSequenceOverlap => FailurePermanentInputConflict
          | ReasonQueueFull | ReasonDependencyUnavailable => FailureRetryWithBackoff
          | ReasonTimestampInFuture => FailureCheckClock
          | ReasonUnknownGateway | ReasonUnknownSensor | ReasonResourceGraphIncomplete
          | ReasonLegacyProvenanceUnknown => FailureNeedsIntervention
          | ReasonCommitUnconfirmed => FailureCommitUnconfirmed
          | ReasonAckPublishUnconfirmed => FailureAckPublishUnconfirmed
          | _ => FailureUnknown
          end
      end
  end.

(** ** Batches, samples and limits *)

Record BatchDTO (uuid : Type) := mkBatchDTO {
  ProtocolVersion : Z;
  MessageID : uuid;
  MessageType : string;
  GatewayID : string;
  SensorID : string;
  BootID : uuid;
  FirstSequence : Z;
  SampleCount : Z;
  MeasuredAt : string;
  SampleIntervalUS : Z;
  Samples : list float64;
}.
Arguments mkBatchDTO {uuid}.
Arguments ProtocolVersion {uuid}.
Arguments MessageID {uuid}.
Arguments MessageType {uuid}.
Arguments GatewayID {uuid}.
Arguments SensorID {uuid}.
Arguments BootID {uuid}.
Arguments FirstSequence {uuid}.
Arguments SampleCount {uuid}.
Arguments MeasuredAt {uuid}.
Arguments SampleIntervalUS {uuid}.
Arguments Samples {uuid}.

Record SampleCandidate (uuid : Type) := mkSample {
  s_GatewayID : string;
  s_SensorID : string;
  s_BootID : uuid;
  s_MessageID : uuid;
  s_SampleIndex : Z;
  s_SequenceNum : Z;
  s_MeasuredAt : Time;
  s_Value : float64;
}.
Arguments mkSample {uuid}.
Arguments s_GatewayID {uuid}.
Arguments s_SensorID {uuid}.
Arguments s_BootID {uuid}.
Arguments s_MessageID {uuid}.
Arguments s_SampleIndex {uuid}.
Arguments s_SequenceNum {uuid}.
Arguments s_MeasuredAt {uuid}.
Arguments s_Value {uuid}.

Record Limits := mkLimits {
  MaxPayloadBytes : Z;
  MaxSamples : Z;
  MaxBatchDuration : Z;
  MaxFutureSkew : Z;
}.

Definition Limits_Validate (limits : Limits) : option ReasonError :=
  if MaxPayloadBytes limits <=? 0 then Some (mkReasonError ReasonInvalidPayload "max_payload_bytes")
  else if (MaxSamples limits <=? 0) || (max_int32 <? MaxSamples limits)
  then Some (mkReasonError ReasonInvalidPayload "max_samples")
  else if MaxBatchDuration limits <=? 0
  then Some (mkReasonError ReasonInvalidPayload "max_batch_duration")
  else if MaxFutureSkew limits <? 0
  then Some (mkReasonError ReasonInvalidPayload "max_future_skew")
  else None.

Definition invalidPayloadError (field : string) : ReasonError :=
  mkReasonError ReasonInvalidPayload field.

(** ** Topics *)

Record ParsedTopic := mkParsedTopic {
  SourceTopic : string;
  t_GatewayID : string;
  t_SensorID : string;
}.

Definition invalidTopicError : ReasonError := mkReasonError ReasonInvalidTopic "topic".

Definition ParseTopic (topic : string) : res ReasonError ParsedTopic :=
  match Split topic "/" with
  | [s0; gatewayID; s2; sensorID] =>
      if negb (bool_decide (s0 = "gateways")) || negb (bool_decide (s2 = "telemetry"))
      then Err invalidTopicError
      else if bool_decide (ValidateGatewayID gatewayID <> None)
           || bool_decide (ValidateSensorID sensorID <> None)
      then Err invalidTopicError
      else Ok (mkParsedTopic topic gatewayID sensorID)
  | _ => Err invalidTopicError
  end.

(** ** Theorems *)

Definition telemetry_topic (gatewayID sensorID : string) : string :=
  Join ["gateways"; gatewayID; "telemetry"; sensorID] "/".

Lemma Limits_Validate_ok limits : Limits_Validate limits = None ->
  0 < MaxPayloadBytes limits /\ 0 < MaxSamples limits <= max_int32
  /\ 0 < MaxBatchDuration limits /\ 0 <= MaxFutureSkew limits.
Proof. unfold Limits_Validate. intros H. inv_ok H. gobool. lia. Qed.

Lemma ParseTopic_ok topic p : ParseTopic topic = Ok p ->
  topic = telemetry_topic (t_GatewayID p) (t_SensorID p) /\ SourceTopic p = topic
  /\ ValidateGatewayID (t_GatewayID p) = None /\ ValidateSensorID (t_SensorID p) = None.
Proof.
  unfold ParseTopic. intros H. assert (HJ := Join_Split topic "/"%char).
  destruct (Split topic "/"%char) as [|s0 [|g [|s2 [|sn [|? ?]]]]]; try discriminate H.
  inv_ok H. gobool. subst p s0 s2. cbn [t_GatewayID t_SensorID SourceTopic].
  split_and!; [done..| |]; by apply dec_stable.
Qed.

Lemma ParseTopic_topic g s : ValidateGatewayID g = None -> ValidateSensorID s = None ->
  ParseTopic (telemetry_topic g s) = Ok (mkParsedTopic (telemetry_topic g s) g s).
Proof.
  intros Hg Hs. unfold ParseTopic, telemetry_topic at 1. cbn [Join].
  rewrite (Split_cons_sep "gateways") by done.
  rewrite Split_cons_sep by (apply pattern_no_sep; [done|by apply valid_gateway_pattern]).
  rewrite (Split_cons_sep "telemetry") by done.
  rewrite Split_no_sep by (apply pattern_no_sep; [done|by apply valid_sensor_pattern]).
  by rewrite Hg, Hs.
Qed.

(** [ParseTopic] accepts exactly the topics
    [gateways/<gateway>/telemetry/<sensor>] of valid identifiers, and returns
    those identifiers with the topic unchanged. *)
Theorem ParseTopic_spec topic p : ParseTopic topic = Ok p <->
  topic = telemetry_topic (t_GatewayID p) (t_SensorID p) /\ SourceTopic p = topic
  /\ ValidateGatewayID (t_GatewayID p) = None /\ ValidateSensorID (t_SensorID p) = None.
Proof.
  split; [apply ParseTopic_ok|]. intros (Ht & Hs & Hg & Hn).
  rewrite Ht, ParseTopic_topic by done. destruct p. cbn in *. by subst.
Qed.

(** Every known code has a class that tells the sender what to do, wrapped or not. *)
Lemma ClassifyFailure_known reason ctx : knownReasonCode (Code reason) = true ->
  ClassifyFailure (Some (EWrap ctx (EReason reason))) = ClassifyFailure (Some (EReason reason))
  /\ ClassifyFailure (Some (EReason reason)) <> FailureNone
  /\ ClassifyFailure (Some (EReason reason)) <> FailureUnknown.
Proof.
  intros Hk. split; [done|]. by destruct reason as [[] f].
Qed.
