(* ===== verification/Decode.v ===== *)
(** * Decoding one telemetry_batch payload

    [telemetry/decode.go]: the strict object decoder (exactly the eleven known
    keys, none twice, nothing after the object) and the field decoders.  A
    [json.RawMessage] is the syntax tree of the value it holds. *)

From S2P Require Import Prelude GoStrings GoTime GoFloat GoJson Identity Uuid Telemetry.
#[local] Open Scope Z_scope.

Definition batchFieldNames : gset string :=
  list_to_set ["protocol_version"; "message_id"; "message_type"; "gateway_id"; "sensor_id";
    "boot_id"; "first_sequence"; "sample_count"; "measured_at"; "sample_interval_us"; "samples"].
#[global] Opaque batchFieldNames.

(** The loop over the members, for a fixed set of names: [None] is any of its
    decoding errors. *)
Fixpoint collect_fields (names : gset string) (fields : gmap string json) (members : list (string * json))
    : option (gmap string json) :=
  match members with
  | [] => Some fields
  | (name, value) :: rest =>
      if negb (bool_decide (name ∈ names)) then None
      else if bool_decide (is_Some (fields !! name)) then None
      else collect_fields names (<[name := value]> fields) rest
  end.

(** One strict object of exactly those names, and nothing after it. *)
Definition decode_object (names : gset string) (payload : string) : option (gmap string json) :=
  match json_parse (S max_nesting) payload with
  | Some (JObj members) =>
      match collect_fields names ∅ members with
      | Some fields => if bool_decide (size fields = size names) then Some fields else None
      | None => None
      end
  | _ => None
  end.

Definition decodeBatchObject (payload : string) : option (gmap string json) :=
  decode_object batchFieldNames payload.

(** A missing field reads as an empty raw message, which every decoder rejects
    as it rejects [null]. *)
Definition field (fields : gmap string json) (name : string) : json :=
  default JNull (fields !! name).

Definition isNull (raw : json) : bool := match raw with JNull => true | _ => false end.

Definition decodeInt64 (raw : json) : option Z :=
  if isNull raw then None
  else match raw with JNum text => ParseInt10 text 64 | _ => None end.

Definition decodeInt32 (raw : json) : option Z :=
  if isNull raw then None
  else match raw with JNum text => ParseInt10 text 32 | _ => None end.

Definition decodeString (raw : json) : option string :=
  if isNull raw then None
  else match raw with JStr value => Some value | _ => None end.

Fixpoint decode_items (samples_len : Z) (items : list json) (maximum : Z) : option (list float64) :=
  match items with
  | [] => Some []
  | item :: rest =>
      if samples_len =? maximum then None
      else if isNull item then None
      else
        value ← match item with JNum text => ParseFloat text | _ => None end;
        if IsNaN value || IsInf value then None
        else
          values ← decode_items (samples_len + 1) rest maximum;
          Some (value :: values)
  end.

Definition decodeSamples (raw : json) (maximum : Z) : option (list float64) :=
  if isNull raw then None
  else match raw with JArr items => decode_items 0 items maximum | _ => None end.

Section decode.
Context {uuid : Type} `{!UuidLib uuid}.

Definition decodeUUID (raw : json) : option uuid :=
  value ← decodeString raw;
  if uuid_Validate value then uuid_Parse value else None.

Definition guard_err (b : bool) (e : ReasonError) : res ReasonError unit :=
  if b then Err e else Ok tt.

Definition decodeBatch (payload : string) (topic : ParsedTopic) (limits : Limits)
    : res ReasonError (BatchDTO uuid) :=
  let! _ := guard_err (MaxPayloadBytes limits <? str_len payload)
              (mkReasonError ReasonPayloadTooLarge "payload") in
  let! _ := guard_err ((MaxPayloadBytes limits <=? 0) || (MaxSamples limits <=? 0))
              (invalidPayloadError "limits") in
  let! fields := or_err (invalidPayloadError "object") (decodeBatchObject payload) in
  let! protocol := or_err (invalidPayloadError "protocol_version")
                     (decodeInt64 (field fields "protocol_version")) in
  let! _ := guard_err (negb (protocol =? 1))
              (mkReasonError ReasonUnsupportedProtocol "protocol_version") in
  let! message_id := or_err (invalidPayloadError "message_id")
                       (decodeUUID (field fields "message_id")) in
  let! _ := guard_err (bool_decide (message_id = uuid_Nil)
              || (negb (uuid_Version message_id =? 4) && negb (uuid_Version message_id =? 7))
              || negb (uuid_Variant message_id =? RFC4122))
              (invalidPayloadError "message_id") in
  let! message_type := or_err (invalidPayloadError "message_type")
                         (decodeString (field fields "message_type")) in
  let! _ := guard_err (negb (bool_decide (message_type = "telemetry_batch")))
              (mkReasonError ReasonUnsupportedProtocol "message_type") in
  let! gateway_id := or_err (invalidPayloadError "gateway_id")
                       (decodeString (field fields "gateway_id")) in
  let! _ := guard_err (bool_decide (ValidateGatewayID gateway_id <> None))
              (invalidPayloadError "gateway_id") in
  let! sensor_id := or_err (invalidPayloadError "sensor_id")
                      (decodeString (field fields "sensor_id")) in
  let! _ := guard_err (bool_decide (ValidateSensorID sensor_id <> None))
              (invalidPayloadError "sensor_id") in
  let! boot_id := or_err (invalidPayloadError "boot_id")
                    (decodeUUID (field fields "boot_id")) in
  let! _ := guard_err (bool_decide (boot_id = uuid_Nil) || negb (uuid_Variant boot_id =? RFC4122))
              (invalidPayloadError "boot_id") in
  let! first_sequence := or_err (invalidPayloadError "first_sequence")
                           (decodeInt64 (field fields "first_sequence")) in
  let! sample_count := or_err (invalidPayloadError "sample_count")
                         (decodeInt32 (field fields "sample_count")) in
  let! measured_at := or_err (invalidPayloadError "measured_at")
                        (decodeString (field fields "measured_at")) in
  let! sample_interval_us := or_err (invalidPayloadError "sample_interval_us")
                               (decodeInt64 (field fields "sample_interval_us")) in
  let! _ := guard_err ((sample_count <=? 0) || (MaxSamples limits <? sample_count))
              (invalidPayloadError "sample_count") in
  let! samples := or_err (invalidPayloadError "samples")
                    (decodeSamples (field fields "samples") (MaxSamples limits)) in
  let! _ := guard_err (negb (Z.of_nat (length samples) =? sample_count))
              (invalidPayloadError "sample_count") in
  let! _ := guard_err (negb (bool_decide (gateway_id = t_GatewayID topic))
                       || negb (bool_decide (sensor_id = t_SensorID topic)))
              (mkReasonError ReasonInvalidTopic "topic") in
  Ok (mkBatchDTO protocol message_id message_type gateway_id sensor_id boot_id
        first_sequence sample_count measured_at sample_interval_us samples).
End decode.

(** ** What a decoded batch satisfies *)

(** Message identifiers are RFC 4122 of version 4 or 7, and not nil. *)
Definition message_id_ok `{UuidLib uuid} (id : uuid) : Prop :=
  id <> uuid_Nil /\ (uuid_Version id = 4 \/ uuid_Version id = 7) /\ uuid_Variant id = RFC4122.

Record decoded_ok `{UuidLib uuid} (limits : Limits) (topic : ParsedTopic) (b : BatchDTO uuid) : Prop := {
  dec_protocol : ProtocolVersion b = 1;
  dec_type : MessageType b = "telemetry_batch";
  dec_message : message_id_ok (MessageID b);
  dec_boot : BootID b <> uuid_Nil /\ uuid_Variant (BootID b) = RFC4122;
  dec_gateway : GatewayID b = t_GatewayID topic /\ ValidateGatewayID (GatewayID b) = None;
  dec_sensor : SensorID b = t_SensorID topic /\ ValidateSensorID (SensorID b) = None;
  dec_first : in_int64 (FirstSequence b);
  dec_count : 0 < SampleCount b <= MaxSamples limits /\ SampleCount b <= max_int32;
  dec_length : Z.of_nat (length (Samples b)) = SampleCount b;
  dec_interval : in_int64 (SampleIntervalUS b);
  dec_values : Forall (fun v => IsNaN v = false /\ IsInf v = false) (Samples b);
}.

Lemma collect_fields_some names members : forall fields fields',
  collect_fields names fields members = Some fields' ->
  NoDup members.*1 /\ (forall name, name ∈ members.*1 -> name ∈ names /\ fields !! name = None)
  /\ fields' = list_to_map members ∪ fields.
Proof.
  induction members as [|[name value] members IH]; intros fields fields' H; cbn [collect_fields] in H.
  { injection H as <-. split_and!; [apply NoDup_nil_2| |symmetry; apply (left_id_L ∅ (∪))].
    intros name Hn. by apply not_elem_of_nil in Hn. }
  inv_ok H. gobool. rename Heqb into Hname.
  rewrite <- eq_None_not_Some in Heqb0.
  apply IH in H as (Hnd & Hin & ->). cbn [fmap list_fmap fst].
  assert (Hnot : name ∉ members.*1).
  { intros Hm. destruct (Hin _ Hm) as [_ Hnone]. by rewrite lookup_insert_eq in Hnone. }
  split_and!; [by constructor| |].
  - intros n [->|Hm]%elem_of_cons; [done|]. destruct (Hin _ Hm) as [Hn Hnone]. split; [done|].
    rewrite lookup_insert_ne in Hnone; [exact Hnone|]. intros <-. contradiction.
  - cbn [list_to_map foldr]. rewrite <- insert_union_l.
    rewrite insert_union_r; [done|]. by apply not_elem_of_list_to_map_1.
Qed.

(** The object decoder accepts exactly the strict objects whose members are
    the known names, each once, and returns them as a map. *)
Lemma decode_object_some names payload fields : decode_object names payload = Some fields ->
  exists members, json_parse (S max_nesting) payload = Some (JObj members)
    /\ NoDup members.*1 /\ fields = list_to_map members /\ dom fields = names.
Proof.
  unfold decode_object. intros H. inv_ok H. gobool. subst. rename members into ms.
  apply collect_fields_some in Heqo0 as (Hnd & Hin & ->). rewrite (right_id_L ∅ (∪)) in *.
  exists ms. split; [reflexivity|]. split; [assumption|]. split; [reflexivity|].
  apply set_subseteq_size_eq; [|by rewrite size_dom, Heqb].
  intros x Hx. apply elem_of_dom in Hx as [v Hx]. apply elem_of_list_to_map_2 in Hx.
  apply (Hin x), list_elem_of_fmap. exists (x, v). split; [reflexivity|exact Hx].
Qed.

Lemma collect_fields_complete names members : forall fields, NoDup members.*1 ->
  (forall name, name ∈ members.*1 -> name ∈ names /\ fields !! name = None) ->
  collect_fields names fields members = Some (list_to_map members ∪ fields).
Proof.
  induction members as [|[name value] members IH]; intros fields Hnd Hin; cbn [collect_fields].
  { f_equal. symmetry. apply (left_id_L ∅ (∪)). }
  apply list.NoDup_cons in Hnd as [Hnot Hnd]. destruct (Hin name) as [Hn Hnone]; [by left|].
  rewrite (bool_decide_true (name ∈ names)) by exact Hn. cbn [negb].
  rewrite bool_decide_false by (rewrite Hnone; by intros [? ?]).
  rewrite IH; [|exact Hnd|].
  - cbn [list_to_map foldr fst snd]. rewrite <- insert_union_l, insert_union_r; [done|].
    by apply not_elem_of_list_to_map_1.
  - intros n Hm. destruct (Hin n) as [? ?]; [by right|]. split; [done|].
    rewrite lookup_insert_ne; [assumption|]. intros <-. contradiction.
Qed.

Lemma decode_object_complete names payload members :
  json_parse (S max_nesting) payload = Some (JObj members) -> NoDup members.*1 ->
  dom (list_to_map members : gmap string json) = names ->
  decode_object names payload = Some (list_to_map members).
Proof.
  intros Hj Hnd Hdom. unfold decode_object. rewrite Hj, collect_fields_complete, (right_id_L ∅ (∪)).
  - rewrite bool_decide_true; [reflexivity|]. by rewrite <- Hdom, size_dom.
  - exact Hnd.
  - intros n Hn. split; [|apply lookup_empty]. rewrite <- Hdom.
    apply elem_of_dom. apply list_elem_of_fmap in Hn as ([n' v] & -> & Hn). cbn.
    exists v. by apply elem_of_list_to_map_1.
Qed.

Lemma decode_items_ok items : forall n maximum vs, decode_items n items maximum = Some vs ->
  Forall (fun v => IsNaN v = false /\ IsInf v = false) vs /\ length vs = length items.
Proof.
  induction items as [|i items IH]; intros n maximum vs H; cbn in H; [by injection H as <-|].
  repeat case_match; try done. apply bind_Some in H as (v & _ & H).
  inv_ok H. apply bind_Some in H as (ws & E & H). injection H as <-. injection E as ->.
  match goal with E : decode_items _ _ _ = Some _ |- _ => apply IH in E as [Hf Hl] end.
  gobool. split; [by constructor|]. cbn. by rewrite Hl.
Qed.

Lemma decodeSamples_ok raw maximum vs : decodeSamples raw maximum = Some vs ->
  Forall (fun v => IsNaN v = false /\ IsInf v = false) vs.
Proof. unfold decodeSamples. intros H. inv_ok H. by apply decode_items_ok in H as [? _]. Qed.

Lemma decodeInt64_range raw n : decodeInt64 raw = Some n -> in_int64 n.
Proof.
  unfold decodeInt64. intros H. inv_ok H. apply ParseInt10_range in H; [|done].
  unfold in_int64, min_int64, max_int64. lia.
Qed.

Lemma decodeInt32_range raw n : decodeInt32 raw = Some n -> n <= max_int32.
Proof.
  unfold decodeInt32. intros H. inv_ok H. apply ParseInt10_range in H; [|done].
  unfold max_int32. lia.
Qed.

Lemma guard_err_ok b e u : guard_err b e = Ok u -> b = false.
Proof. by destruct b. Qed.

(** Follows a chain of guarded steps that succeeded. *)
Ltac inv_guards :=
  repeat match goal with
  | H : guard_err _ _ = Ok _ |- _ => apply guard_err_ok in H
  | H : or_err _ ?o = Ok _ |- _ => destruct o eqn:?; [injection H as H|discriminate H]
  end.

(** The object's members hold the batch's fields. *)
Record fields_of `{UuidLib uuid} (maximum : Z) (fields : gmap string json) (b : BatchDTO uuid) : Prop := {
  fld_protocol : decodeInt64 (field fields "protocol_version") = Some (ProtocolVersion b);
  fld_message : decodeUUID (field fields "message_id") = Some (MessageID b);
  fld_type : decodeString (field fields "message_type") = Some (MessageType b);
  fld_gateway : decodeString (field fields "gateway_id") = Some (GatewayID b);
  fld_sensor : decodeString (field fields "sensor_id") = Some (SensorID b);
  fld_boot : decodeUUID (field fields "boot_id") = Some (BootID b);
  fld_first : decodeInt64 (field fields "first_sequence") = Some (FirstSequence b);
  fld_count : decodeInt32 (field fields "sample_count") = Some (SampleCount b);
  fld_measured : decodeString (field fields "measured_at") = Some (MeasuredAt b);
  fld_interval : decodeInt64 (field fields "sample_interval_us") = Some (SampleIntervalUS b);
  fld_samples : decodeSamples (field fields "samples") maximum = Some (Samples b);
}.

Lemma decodeBatch_fields `{UuidLib uuid} payload topic limits (b : BatchDTO uuid) :
  decodeBatch payload topic limits = Ok b ->
  str_len payload <= MaxPayloadBytes limits /\ 0 < MaxPayloadBytes limits
  /\ exists fields, decodeBatchObject payload = Some fields
       /\ fields_of (MaxSamples limits) fields b /\ decoded_ok limits topic b.
Proof.
  unfold decodeBatch. intros Hd. inv_ok Hd. inv_guards. subst. gobool.
  split; [lia|]. split; [lia|]. eexists. split; [reflexivity|].
  split; [by constructor|].
  constructor; cbn [ProtocolVersion MessageID MessageType GatewayID SensorID BootID FirstSequence
    SampleCount MeasuredAt SampleIntervalUS Samples].
  all: eauto using decodeInt64_range, decodeInt32_range, decodeSamples_ok.
  - done.
  - split; [done|by apply dec_stable].
  - split; [done|by apply dec_stable].
Qed.

Lemma guard_false b e : b = false -> guard_err b e = Ok tt.
Proof. by intros ->. Qed.

(** Runs a chain of guarded steps forward: every step that must succeed is a
    hypothesis, every guard is refuted by [t]. *)
Ltac run_guards t :=
  repeat (match goal with
    | |- context [or_err _ ?o] => match goal with H : o = Some _ |- _ => rewrite H end
    | |- context [guard_err ?b ?e] => rewrite (guard_false b e) by t
    end; cbn [mbind res_bind or_err]); try reflexivity.

Lemma decodeBatch_complete `{UuidLib uuid} payload topic limits fields (b : BatchDTO uuid) :
  str_len payload <= MaxPayloadBytes limits -> 0 < MaxPayloadBytes limits ->
  decodeBatchObject payload = Some fields -> fields_of (MaxSamples limits) fields b ->
  decoded_ok limits topic b -> decodeBatch payload topic limits = Ok b.
Proof.
  intros Hlen Hpos Hobj [] []. unfold decodeBatch.
  destruct dec_message0 as (Hm1 & Hm2 & Hm3), dec_boot0 as (Hb1 & Hb2).
  destruct dec_gateway0 as (Hg1 & Hg2), dec_sensor0 as (Hs1 & Hs2).
  run_guards ltac:(gobool; naive_solver lia). by destruct b.
Qed.

(** [decodeBatch] accepts a payload exactly when it is within the
    byte limit, is one strict JSON object of the eleven known keys (each once,
    nothing after it), every member decodes to its field, and the decoded
    batch satisfies the protocol's constraints for that topic and those
    limits; the batch it returns is the one those members denote. *)
Theorem decodeBatch_spec `{UuidLib uuid} payload topic limits (b : BatchDTO uuid) :
  decodeBatch payload topic limits = Ok b <->
  str_len payload <= MaxPayloadBytes limits /\ 0 < MaxPayloadBytes limits
  /\ exists members, json_parse (S max_nesting) payload = Some (JObj members)
       /\ NoDup members.*1
       /\ dom (list_to_map members : gmap string json) = batchFieldNames
       /\ fields_of (MaxSamples limits) (list_to_map members) b /\ decoded_ok limits topic b.
Proof.
  split.
  - intros Hd. apply decodeBatch_fields in Hd as (Hl & Hp & fields & Hobj & Hf & Hok).
    apply decode_object_some in Hobj as (ms & Hj & Hnd & -> & Hdom).
    split; [exact Hl|]. split; [exact Hp|]. exists ms. by repeat (split; [assumption|]).
  - intros (Hl & Hp & ms & Hj & Hnd & Hdom & Hf & Hok).
    eapply decodeBatch_complete; [exact Hl|exact Hp| |exact Hf|exact Hok].
    by apply decode_object_complete.
Qed.
