(* ===== verification/Validation.v ===== *)
(** * Sequence range and timestamp validation

    [telemetry/validation.go].  Sequence numbers, intervals and spans are
    computed with wrap-around 64-bit arithmetic, as in Go. *)

From S2P Require Import Prelude GoStrings GoTime GoFloat Identity Uuid Telemetry.
#[local] Open Scope Z_scope.

Record validatedRange := mkRange {
  FirstMeasuredAt : Time;
  LastMeasuredAt : Time;
  LastSequence : Z;
  Interval : Z;
}.

(** [int64(1) << 53] *)
Definition maxExactFloat64Integer : Z := 9007199254740992.

Definition allDigits (value : string) : bool :=
  negb (bool_decide (value = "")) && str_forallb is_digit value.

Definition validCalendarYear (value : Time) : bool := (1 <=? Year value) && (Year value <=? 9999).

Definition addTimestampSafe (value : Time) (delta : Z) : Time * bool :=
  let result := UTC (Add value delta) in (result, validCalendarYear result).

Definition is_zone_char (c : ascii) : bool :=
  bool_decide (c = "Z"%char) || bool_decide (c = "+"%char) || bool_decide (c = "-"%char).

(** The loop that looks for the zone: the index of the first zone character. *)
Fixpoint find_zone (s : string) : option nat :=
  match s with
  | EmptyString => None
  | String c r => if is_zone_char c then Some O else option_map S (find_zone r)
  end.

Definition zone_start (value : string) : nat :=
  match find_zone (slice_from 19 value) with
  | Some k => (19 + k)%nat
  | None => (String.length value - 1)%nat
  end.

(** The shape of the date and time before the fraction. *)
Definition date_time_shape (value : string) : bool :=
  (20 <=? str_len value) && allDigits (slice 0 4 value)
  && bool_decide (byte_at value 4 = "-"%char) && allDigits (slice 5 7 value)
  && bool_decide (byte_at value 7 = "-"%char) && allDigits (slice 8 10 value)
  && bool_decide (byte_at value 10 = "T"%char) && allDigits (slice 11 13 value)
  && bool_decide (byte_at value 13 = ":"%char) && allDigits (slice 14 16 value)
  && bool_decide (byte_at value 16 = ":"%char) && allDigits (slice 17 19 value).

Definition fraction_ok (value : string) (zoneStart : nat) : bool :=
  (zoneStart =? 19)%nat
  || (bool_decide (byte_at value 19 = "."%char)
      && (let fractionDigits := slice 20 zoneStart value in
          negb (str_len fractionDigits =? 0) && (str_len fractionDigits <=? 6)
          && allDigits fractionDigits)).

Definition zone_ok (zone : string) : bool :=
  bool_decide (zone = "Z")
  || ((str_len zone =? 6)
      && (bool_decide (byte_at zone 0 = "+"%char) || bool_decide (byte_at zone 0 = "-"%char))
      && bool_decide (byte_at zone 3 = ":"%char)
      && allDigits (slice 1 3 zone) && allDigits (slice 4 6 zone)
      && (Atoi (slice 1 3 zone) <=? 23) && (Atoi (slice 4 6 zone) <=? 59)).

(** [None] is any of the syntax errors: the caller reports one code for all. *)
Definition parseMeasuredAt (value : string) : option Time :=
  if negb (date_time_shape value) then None
  else if Atoi (slice 0 4 value) =? 0 then None
  else
    let zoneStart := zone_start value in
    if negb (fraction_ok value zoneStart) then None
    else if negb (zone_ok (slice_from zoneStart value)) then None
    else if (23 <? Atoi (slice 11 13 value)) || (59 <? Atoi (slice 14 16 value))
            || (59 <? Atoi (slice 17 19 value)) then None
    else
      parsed ← Parse value;
      let parsed := UTC parsed in
      if negb (validCalendarYear parsed) then None else Some parsed.

Definition invalidSequence (field : string) : ReasonError :=
  mkReasonError ReasonInvalidSequenceRange field.
Definition invalidTimestamp (field : string) : ReasonError :=
  mkReasonError ReasonInvalidTimestamp field.

Definition validateRange {uuid} (batch : BatchDTO uuid) (limits : Limits) (receivedAt : Time)
    : res ReasonError validatedRange :=
  if SampleCount batch <=? 0 then Err (invalidSequence "sample_count")
  else if FirstSequence batch <? 0 then Err (invalidSequence "first_sequence")
  else
    let steps := int64_sub (SampleCount batch) 1 in
    if int64_sub max_int64 (FirstSequence batch) <? steps then Err (invalidSequence "last_sequence")
    else
      let lastSequence := int64_add (FirstSequence batch) steps in
      if (SampleIntervalUS batch <=? 0) || (maxExactFloat64Integer <? SampleIntervalUS batch)
         || (Z.quot max_int64 Microsecond <? SampleIntervalUS batch)
      then Err (invalidSequence "sample_interval_us")
      else
        let interval := int64_mul (SampleIntervalUS batch) Microsecond in
        if (0 <? steps) && (Z.quot max_int64 steps <? interval) then Err (invalidSequence "span")
        else
          let span := int64_mul steps interval in
          if (MaxBatchDuration limits <=? 0) || (MaxBatchDuration limits <? span)
          then Err (invalidSequence "span")
          else match parseMeasuredAt (MeasuredAt batch) with
          | None => Err (invalidTimestamp "measured_at")
          | Some first =>
              let '(last, ok) := addTimestampSafe first span in
              if negb ok then Err (invalidTimestamp "last_measured_at")
              else if MaxFutureSkew limits <? 0 then Err (invalidTimestamp "max_future_skew")
              else
                let threshold := UTC (Add receivedAt (MaxFutureSkew limits)) in
                if Year threshold <? 1
                then Err (mkReasonError ReasonTimestampInFuture "last_measured_at")
                else if (Year threshold <=? 9999) && After last threshold
                then Err (mkReasonError ReasonTimestampInFuture "last_measured_at")
                else Ok (mkRange first last lastSequence interval)
          end.

(** ** Timestamps *)

Example parseMeasuredAt_ex :
  map (fun s => (fun t => unix_ns t) <$> parseMeasuredAt s)
    ["2026-05-04T10:20:30Z"; "2026-05-04T10:20:30.123456Z"; "2026-05-04T17:20:30.5+07:00";
     "2026-05-04T10:20:30.1234567Z"; "2026-05-04T24:00:00Z"; "2026-02-30T10:20:30Z";
     "2026-05-04 10:20:30Z"; "2026-05-04T10:20:30"; "2026-05-04T10:20:30.Z"; "0000-05-04T10:20:30Z";
     "2026-05-04T10:20:30+24:00"; "0001-01-01T00:00:00+01:00"]
  = [Some 1777890030000000000; Some 1777890030123456000; Some 1777890030500000000;
     None; None; None; None; None; None; None; None; None].
Proof. vm_compute. reflexivity. Qed.

Lemma substring_cons n m c s : String.substring (S n) m (String c s) = String.substring n m s.
Proof. done. Qed.

Lemma substring_full s : String.substring 0 (String.length s) s = s.
Proof. induction s as [|c s IH]; cbn; [done|]. by rewrite IH. Qed.

Lemma find_zone_some s k : find_zone s = Some k -> exists z c r,
  s = z +:+ String c r /\ String.length z = k /\ is_zone_char c = true
  /\ String.substring 0 k s = z.
Proof.
  revert k. induction s as [|c s IH]; intros k H; cbn in H; [done|].
  destruct (is_zone_char c) eqn:Hc.
  { injection H as <-. by exists "", c, s. }
  destruct (find_zone s) as [k'|] eqn:E; [|done]. injection H as <-.
  destruct (IH _ eq_refl) as (z & c' & r & -> & Hk & Hc' & Hsub).
  exists (String c z), c', r. rewrite str_app_cons. cbn. by rewrite Hk, Hsub.
Qed.

(** An accepted text is nineteen characters of date and time, then a fraction
    or nothing, then the zone. *)
Lemma date_time_shape_inv value : date_time_shape value = true ->
  exists y0 y1 y2 y3 m0 m1 d0 d1 h0 h1 n0 n1 s0 s1 c r, value =
    String y0 (String y1 (String y2 (String y3 (String "-" (String m0 (String m1 (String "-"
    (String d0 (String d1 (String "T" (String h0 (String h1 (String ":" (String n0 (String n1
    (String ":" (String s0 (String s1 (String c r)))))))))))))))))))
    /\ Forall (fun c => is_digit c = true) [y0; y1; y2; y3; m0; m1; d0; d1; h0; h1; n0; n1; s0; s1].
Proof.
  unfold date_time_shape. intros H. rewrite !andb_true_iff in H.
  destruct H as (((((((((((Hl & Hy) & H4) & Hm) & H7) & Hd) & H10) & Hh) & H13) & Hn) & H16) & Hs).
  do 20 (destruct value as [|? value]; [done|]). clear Hl.
  cbn in H4, H7, H10, H13, H16. apply bool_decide_eq_true in H4, H7, H10, H13, H16. subst.
  cbn in Hy, Hm, Hd, Hh, Hn, Hs. unfold allDigits in *. cbn in Hy, Hm, Hd, Hh, Hn, Hs.
  rewrite !andb_true_iff in *. destruct_and?.
  repeat eexists. repeat (constructor; [eassumption|]). constructor.
Qed.

Lemma getnum_digits a b s fixed : is_digit a = true -> is_digit b = true ->
  getnum (String a (String b s)) fixed = Some (10 * digit_val a + digit_val b, s).
Proof. intros Ha Hb. cbn. by rewrite Ha, Hb. Qed.

(** The nanoseconds of a parsed text are those of its fraction. *)
Lemma Parse_nanos y0 y1 y2 y3 m0 m1 d0 d1 h0 h1 n0 n1 s0 s1 r t :
  Forall (fun c => is_digit c = true) [y0; y1; y2; y3; m0; m1; d0; d1; h0; h1; n0; n1; s0; s1] ->
  Parse (String y0 (String y1 (String y2 (String y3 (String "-" (String m0 (String m1 (String "-"
    (String d0 (String d1 (String "T" (String h0 (String h1 (String ":" (String n0 (String n1
    (String ":" (String s0 (String s1 r))))))))))))))))))) = Some t ->
  exists secs, unix_ns t = secs * Second + (parse_frac r).1.
Proof.
  rewrite !list.Forall_cons. intros Hdigits H. destruct_and! Hdigits.
  unfold Parse in H.
  assert (Hy : is_digit y0 && is_digit y1 && is_digit y2 && is_digit y3 = true)
    by (by rewrite !andb_true_iff).
  unfold parse_year in H. rewrite Hy in H.
  repeat (cbn [mbind option_bind] in H; first [rewrite expect_cons in H | rewrite getnum_digits in H by done]).
  cbn [mbind option_bind] in H. destruct (parse_frac r) as [ns s] eqn:Ef.
  destruct (parse_zone s) as [[off s']|]; cbn [mbind option_bind] in H; [|done].
  repeat case_match; try done. injection H as <-. cbn. by eexists.
Qed.

(** A fraction of at most six digits is a whole number of microseconds. *)
Lemma parse_frac_micro ds c r : str_forallb is_digit ds = true -> is_zone_char c = true ->
  (String.length ds <= 6)%nat -> ((parse_frac (String "." (ds +:+ String c r))).1) mod 1000 = 0.
Proof.
  intros Hds Hc Hlen. cbn [parse_frac]. rewrite (bool_decide_true ("."%char = "."%char)) by done.
  assert (Hnd : is_digit c = false).
  { unfold is_zone_char in Hc. gobool. by destruct Hc as [[->| ->]| ->]. }
  cbn [orb]. rewrite take_digits_app by done. case_bool_decide; [done|]. cbn [fst].
  unfold frac_nanos. rewrite Nat.min_r by lia. set (n := String.length ds) in *.
  replace (10 ^ (9 - Z.of_nat n)) with (10 ^ (6 - Z.of_nat n) * 1000).
  - rewrite Z.mul_assoc. by apply Z.mod_mul.
  - change 1000 with (10 ^ 3). rewrite <- Z.pow_add_r by lia. f_equal. lia.
Qed.

Lemma parse_frac_zone c r : is_zone_char c = true -> parse_frac (String c r) = (0, String c r).
Proof.
  intros Hc. cbn. unfold is_zone_char in Hc. gobool. by destruct Hc as [[->| ->]| ->].
Qed.

(** Without a zone character the last byte is no zone. *)
Lemma zone_ok_no_zone c r : find_zone (String c r) = None ->
  zone_ok (slice_from (String.length r) (String c r)) = false.
Proof.
  intros H. unfold slice_from. cbn [String.length].
  replace (S (String.length r) - String.length r)%nat with 1%nat by lia.
  assert (Hl : forall m s, (String.length (String.substring m 1 s) <= 1)%nat).
  { induction m as [|m IH]; intros [|d s]; cbn; try lia; [|apply IH].
    destruct s; cbn; lia. }
  unfold zone_ok. assert (Hne : String.substring (String.length r) 1 (String c r) <> "Z").
  { clear Hl. revert c H. induction r as [|d r IH]; intros c H E; cbn [find_zone] in H.
    - cbn in E. injection E as ->. done.
    - destruct (is_zone_char c); [done|]. cbn [String.length] in E. rewrite substring_cons in E.
      apply (IH d); [|done]. cbn [find_zone]. by destruct (if is_zone_char d then _ else _). }
  rewrite bool_decide_false by done. unfold str_len.
  specialize (Hl (String.length r) (String c r)).
  replace (Z.of_nat _ =? 6) with false; [done|]. symmetry. apply Z.eqb_neq. lia.
Qed.

(** The accepted fraction and zone leave whole microseconds. *)
Lemma rest_micro c r :
  (match find_zone (String c r) with
   | Some k => k = O \/ (c = "."%char /\ (str_len (slice 1 k (String c r)) <= 6)
                        /\ allDigits (slice 1 k (String c r)) = true)
   | None => zone_ok (slice_from (String.length r) (String c r)) = true
   end) -> (parse_frac (String c r)).1 mod 1000 = 0.
Proof.
  destruct (find_zone (String c r)) as [k|] eqn:E; intros H.
  2:{ by rewrite zone_ok_no_zone in H. }
  cbn [find_zone] in E. destruct (is_zone_char c) eqn:Hc; [by rewrite parse_frac_zone|].
  destruct (find_zone r) as [k'|] eqn:E'; [|done]. injection E as <-.
  destruct H as [|(-> & Hlen & Hd)]; [done|].
  apply find_zone_some in E' as (z & c' & r' & -> & Hz & Hc' & Hsub).
  unfold slice in Hlen, Hd. rewrite Nat.sub_succ, Nat.sub_0_r, substring_cons, Hsub in Hlen, Hd.
  unfold allDigits in Hd. apply andb_true_iff in Hd as [_ Hd].
  apply parse_frac_micro; [done..|]. unfold str_len in Hlen. lia.
Qed.

Lemma parseMeasuredAt_ok value t : parseMeasuredAt value = Some t ->
  (exists t', Parse value = Some t' /\ t = UTC t') /\ 1 <= Year t <= 9999 /\ loc_off t = 0
  /\ unix_ns t mod 1000 = 0.
Proof.
  unfold parseMeasuredAt. intros H.
  destruct (date_time_shape value) eqn:Hshape; cbn [negb] in H; [|done].
  destruct (_ =? 0); [done|]. destruct (fraction_ok _ _) eqn:Hfrac; cbn [negb] in H; [|done].
  destruct (zone_ok _) eqn:Hzone; cbn [negb] in H; [|done].
  destruct (_ || _ || _); [done|]. apply bind_Some in H as (p & Hp & H).
  destruct (validCalendarYear (UTC p)) eqn:Hyear; cbn [negb] in H; [|done]. injection H as <-.
  split_and!; [by exists p| | |done|].
  1,2: unfold validCalendarYear in Hyear; gobool; lia.
  change (unix_ns (UTC p)) with (unix_ns p).
  apply date_time_shape_inv in Hshape
    as (y0&y1&y2&y3&m0&m1&d0&d1&h0&h1&n0&n1&s0&s1&c&r&->&Hdigits).
  apply (Parse_nanos _ _ _ _ _ _ _ _ _ _ _ _ _ _ (String c r)) in Hp as [secs ->]; [|exact Hdigits].
  assert (Hms : (parse_frac (String c r)).1 mod 1000 = 0).
  2:{ unfold Second. rewrite Z.add_mod by done. rewrite Hms.
      replace (secs * 1000000000) with (secs * 1000000 * 1000) by lia. by rewrite Z.mod_mul. }
  clear secs Hdigits Hyear p. apply rest_micro.
  match type of Hzone with zone_ok (slice_from (zone_start ?V) _) = true =>
    assert (E19 : slice_from 19 V = String c r) by (cbn; by rewrite substring_full)
  end.
  unfold zone_start in Hzone, Hfrac. rewrite E19 in Hzone, Hfrac.
  destruct (find_zone (String c r)) as [k|]; [|exact Hzone].
  unfold fraction_ok in Hfrac. rewrite orb_true_iff, !andb_true_iff in Hfrac.
  destruct Hfrac as [Hk|(Hdot & (_ & Hlen) & Hd)]; [left; apply Nat.eqb_eq in Hk; lia|right].
  split_and!; [by apply bool_decide_eq_true in Hdot|by apply Z.leb_le in Hlen|exact Hd].
Qed.

(** ** Ranges *)

(** The accepted batches, in unbounded arithmetic. *)
Record range_ok {uuid} (b : BatchDTO uuid) (limits : Limits) (receivedAt : Time)
    (r : validatedRange) : Prop := {
  rng_count : 0 < SampleCount b;
  rng_first : 0 <= FirstSequence b;
  rng_last : FirstSequence b + SampleCount b - 1 <= max_int64;
  rng_last_eq : LastSequence r = FirstSequence b + SampleCount b - 1;
  rng_us : 0 < SampleIntervalUS b <= maxExactFloat64Integer;
  rng_interval : Interval r = SampleIntervalUS b * Microsecond;
  rng_interval_max : Interval r <= max_int64;
  rng_span : (SampleCount b - 1) * Interval r <= MaxBatchDuration limits;
  rng_measured : parseMeasuredAt (MeasuredAt b) = Some (FirstMeasuredAt r);
  rng_last_time : LastMeasuredAt r
    = UTC (Add (FirstMeasuredAt r) ((SampleCount b - 1) * Interval r));
  rng_last_year : 1 <= Year (LastMeasuredAt r) <= 9999;
  rng_skew : 0 <= MaxFutureSkew limits;
  rng_future : let threshold := UTC (Add receivedAt (MaxFutureSkew limits)) in
    1 <= Year threshold
    /\ (9999 < Year threshold \/ unix_ns (LastMeasuredAt r) <= unix_ns threshold);
}.

(** What the decoder and the limits guarantee of the machine integers. *)
Definition batch_widths {uuid} (b : BatchDTO uuid) (limits : Limits) : Prop :=
  SampleCount b <= max_int32 /\ in_int64 (FirstSequence b) /\ in_int64 (SampleIntervalUS b)
  /\ 0 < MaxBatchDuration limits <= max_int64.

Lemma quot_le_mul n d x : 0 < d -> 0 <= n -> (x <= Z.quot n d <-> d * x <= n).
Proof.
  intros Hd Hn. rewrite Z.quot_div_nonneg by lia. split; intros H.
  - pose proof (Z.mul_div_le n d Hd). nia.
  - by apply Z.div_le_lower_bound.
Qed.

Ltac in_width := unfold in_int64, min_int64, max_int64, max_int32, maxExactFloat64Integer, Microsecond in *.

(** Rewrites every 64-bit operation whose exact result is in range. *)
Ltac exact64 := unfold int64_sub, int64_add, int64_mul;
  repeat match goal with
  | |- context [wrap64 ?e] => rewrite (wrap64_id e) by (in_width; nia)
  end.

(** The timestamp half of the validator. *)
Lemma validateRange_times_iff {uuid} (b : BatchDTO uuid) limits receivedAt r span last_seq interval :
  (match parseMeasuredAt (MeasuredAt b) with
   | None => Err (invalidTimestamp "measured_at")
   | Some first =>
       let '(last, ok) := addTimestampSafe first span in
       if negb ok then Err (invalidTimestamp "last_measured_at")
       else if MaxFutureSkew limits <? 0 then Err (invalidTimestamp "max_future_skew")
       else
         let threshold := UTC (Add receivedAt (MaxFutureSkew limits)) in
         if Year threshold <? 1
         then Err (mkReasonError ReasonTimestampInFuture "last_measured_at")
         else if (Year threshold <=? 9999) && After last threshold
         then Err (mkReasonError ReasonTimestampInFuture "last_measured_at")
         else Ok (mkRange first last last_seq interval)
   end) = Ok r <->
  parseMeasuredAt (MeasuredAt b) = Some (FirstMeasuredAt r)
  /\ LastMeasuredAt r = UTC (Add (FirstMeasuredAt r) span)
  /\ LastSequence r = last_seq /\ Interval r = interval
  /\ 1 <= Year (LastMeasuredAt r) <= 9999 /\ 0 <= MaxFutureSkew limits
  /\ 1 <= Year (UTC (Add receivedAt (MaxFutureSkew limits)))
  /\ (9999 < Year (UTC (Add receivedAt (MaxFutureSkew limits)))
      \/ unix_ns (LastMeasuredAt r) <= unix_ns (UTC (Add receivedAt (MaxFutureSkew limits)))).
Proof.
  destruct (parseMeasuredAt _) as [first|]; [|split; [done|naive_solver]].
  unfold addTimestampSafe, validCalendarYear, After. cbv zeta iota.
  set (last := UTC (Add first span)). set (thr := UTC (Add receivedAt _)).
  split.
  - intros H. inv_ok H. gobool. subst r.
    cbn [FirstMeasuredAt LastMeasuredAt LastSequence Interval]. split_and!; first [done|lia].
  - destruct r as [f l ls i]. cbn [FirstMeasuredAt LastMeasuredAt LastSequence Interval].
    intros ([= <-] & -> & -> & -> & Hy & Hs & Ht & Hf). fold last in Hy, Hf. fold thr in Ht, Hf.
    replace ((1 <=? Year last) && (Year last <=? 9999)) with true by (symmetry; gobool; lia).
    replace (MaxFutureSkew limits <? 0) with false by (symmetry; gobool; lia).
    replace (Year thr <? 1) with false by (symmetry; gobool; lia). cbn [negb].
    replace ((Year thr <=? 9999) && _) with false; [done|]. symmetry. gobool. lia.
Qed.

(** One guard of the validator: it fails and the specification does too, or it
    holds and its negation is kept. *)
Ltac guard_case :=
  match goal with
  | |- context [if ?b then Err _ else _] =>
      let E := fresh "G" in destruct b eqn:E; gobool;
        [split; [discriminate|]; intros []; in_width; exfalso;
         first [lia | nia | destruct_or! E; gobool; first [lia | nia]]|]
  end.

(** The computed steps, end sequence, interval and span are exact when the
    guards let them through. *)
Lemma validateRange_iff {uuid} (b : BatchDTO uuid) limits receivedAt r :
  batch_widths b limits ->
  (validateRange b limits receivedAt = Ok r <-> range_ok b limits receivedAt r).
Proof.
  intros (Hw1 & Hw2 & Hw3 & Hw4). unfold validateRange. cbv zeta.
  guard_case. guard_case. in_width. exact64. guard_case. exact64.
  change (Z.quot 9223372036854775807 1000) with 9223372036854775.
  destruct ((SampleIntervalUS b <=? 0) || _ || _) eqn:G2; gobool.
  { split; [discriminate|]. intros []. in_width. lia. }
  exact64. set (steps := SampleCount b - 1) in *. set (interval := SampleIntervalUS b * 1000) in *.
  assert (Hspan : (0 <? steps) && (Z.quot 9223372036854775807 steps <? interval) = false
                  <-> steps * interval <= 9223372036854775807).
  { destruct (0 <? steps) eqn:Hs; cbn [andb].
    - apply Z.ltb_lt in Hs. by rewrite <- (quot_le_mul 9223372036854775807 steps interval), Z.ltb_ge by lia.
    - apply Z.ltb_ge in Hs. split; [intros _; nia|done]. }
  destruct ((0 <? steps) && _) eqn:G3.
  { split; [discriminate|]. intros []. in_width. discriminate (proj2 Hspan ltac:(nia)). }
  assert (Hmax := proj1 Hspan eq_refl). clear Hspan G3. assert (0 <= steps * interval) by nia. exact64.
  destruct ((MaxBatchDuration limits <=? 0) || _) eqn:G4; gobool.
  { split; [discriminate|]. intros []. in_width. nia. }
  rewrite validateRange_times_iff. split.
  - intros (Hp & Hl & Hls & Hi & Hy & Hs & Ht & Hf). constructor; in_width; rewrite ?Hi; try done; try lia.
  - intros []. in_width. split_and!; try done; try lia; try (by destruct rng_future0).
    + rewrite rng_last_time0, rng_interval0. done.
Qed.


(** ** Timestamps that [FormatMicros] writes *)

(** The shape checks on a text of digits in the right places. *)
Lemma parseMeasuredAt_digits y0 y1 y2 y3 m0 m1 d0 d1 h0 h1 n0 n1 s0 s1 f0 f1 f2 f3 f4 f5 p :
  let str l := String.string_of_list_ascii l in
  let value := String y0 (String y1 (String y2 (String y3 (String "-" (String m0 (String m1
    (String "-" (String d0 (String d1 (String "T" (String h0 (String h1 (String ":" (String n0
    (String n1 (String ":" (String s0 (String s1 (String "." (String f0 (String f1 (String f2
    (String f3 (String f4 (String f5 "Z"))))))))))))))))))))))))) in
  forallb is_digit [y0;y1;y2;y3;m0;m1;d0;d1;h0;h1;n0;n1;s0;s1;f0;f1;f2;f3;f4;f5] = true ->
  Atoi (str [y0;y1;y2;y3]) <> 0 -> Atoi (str [h0;h1]) <= 23 -> Atoi (str [n0;n1]) <= 59 ->
  Atoi (str [s0;s1]) <= 59 -> Parse value = Some p -> 1 <= Year (UTC p) <= 9999 ->
  parseMeasuredAt value = Some (UTC p).
Proof.
  cbv zeta. intros Hd Hy Hh Hn Hs Hp Hyear. cbn [String.string_of_list_ascii] in *.
  cbn [forallb] in Hd. rewrite !andb_true_iff in Hd. destruct_and! Hd.
  assert (Hz : forall c, is_digit c = true -> is_zone_char c = false).
  { intros c Hc. destruct c as [[] [] [] [] [] [] [] []]; by try discriminate Hc. }
  unfold parseMeasuredAt. match goal with |- context [date_time_shape ?V] => set (value := V) in * end.
  assert (date_time_shape value = true) as ->.
  { unfold date_time_shape, allDigits, value. cbn -[is_digit].
    repeat match goal with H : is_digit _ = true |- _ => rewrite H; clear H end. reflexivity. }
  change (slice 0 4 value) with (String y0 (String y1 (String y2 (String y3 "")))).
  change (slice 11 13 value) with (String h0 (String h1 "")).
  change (slice 14 16 value) with (String n0 (String n1 "")).
  change (slice 17 19 value) with (String s0 (String s1 "")).
  rewrite (proj2 (Z.eqb_neq _ _) Hy). cbn [negb].
  assert (Hzs : zone_start value = 26%nat).
  { unfold zone_start. change (slice_from 19 value) with (String "." (String f0 (String f1 (String f2
      (String f3 (String f4 (String f5 "Z"))))))). cbn [find_zone].
    change (is_zone_char ".") with false. change (is_zone_char "Z") with true. cbv iota.
    rewrite !Hz by assumption. reflexivity. }
  rewrite Hzs. assert (fraction_ok value 26 = true) as ->.
  { unfold fraction_ok, allDigits, value. cbn -[is_digit].
    repeat match goal with H : is_digit _ = true |- _ => rewrite H; clear H end. reflexivity. }
  change (zone_ok (slice_from 26 value)) with true. cbn [negb].
  rewrite (proj2 (Z.ltb_ge _ _) Hh), (proj2 (Z.ltb_ge _ _) Hn), (proj2 (Z.ltb_ge _ _) Hs). cbn [orb].
  rewrite Hp. cbn [mbind option_bind]. unfold validCalendarYear.
  destruct (_ && _) eqn:E; [done|]. gobool. lia.
Qed.

Lemma fixed_digits_last w n s : fixed_digits w n s = fixed_digits w n "" +:+ s.
Proof.
  revert n s. induction w as [|w IH]; intros n s; [done|]. cbn [fixed_digits].
  by rewrite IH, (IH _ (String _ "")), str_app_assoc.
Qed.

Lemma Atoi_fixed w n : 0 <= n < 10 ^ Z.of_nat w -> Atoi (fixed_digits w n "") = n.
Proof. intros Hn. unfold Atoi. rewrite digits_val_fixed by lia. cbn. by rewrite Z.mod_small. Qed.

(** The parser reads the builder's text of any instant of years 1 to 9999,
    truncated to microseconds. *)
Lemma parseMeasuredAt_FormatMicros t : loc_off t = 0 -> 1 <= Year t <= 9999 ->
  parseMeasuredAt (FormatMicros t) = Some (mkTime (unix_ns t / 1000 * 1000) 0).
Proof.
  intros Hoff Hy. assert (HP := Parse_FormatMicros t Hoff ltac:(lia)).
  assert (Hyear : Year (mkTime (unix_ns t / 1000 * 1000) 0) = Year t).
  { rewrite Year_micro. destruct t as [n o]. cbn in Hoff. by subst o. }
  change (mkTime (unix_ns t / 1000 * 1000) 0) with (UTC (mkTime (unix_ns t / 1000 * 1000) 0)).
  rewrite Year_eq in Hy by done. unfold FormatMicros, format_seconds in *.
  destruct (civil_from_days (Unix t / 86400)) as [[y m] d] eqn:Ec.
  assert (0 <= Unix t mod 86400 < 86400) as Hsod by (by apply Z.mod_pos_bound).
  set (sod := Unix t mod 86400) in *. clearbody sod.
  assert (Hdig : forall n, is_digit (chr (48 + n mod 10)) = true).
  { intros n. apply chr_digit. pose proof (Z.mod_pos_bound n 10 ltac:(lia)). lia. }
  pose proof (Atoi_fixed 4 y ltac:(change (10 ^ Z.of_nat 4) with 10000; lia)) as Hy4.
  pose proof (Atoi_fixed 2 (sod / 3600) ltac:(change (10 ^ Z.of_nat 2) with 100; dlia)) as Hh.
  pose proof (Atoi_fixed 2 (sod / 60 mod 60) ltac:(change (10 ^ Z.of_nat 2) with 100; dlia)) as Hmi.
  pose proof (Atoi_fixed 2 (sod mod 60) ltac:(change (10 ^ Z.of_nat 2) with 100; dlia)) as Hs.
  cbn [fixed_digits] in *.
  apply parseMeasuredAt_digits; cbn [String.string_of_list_ascii].
  - cbn [forallb]. by rewrite !Hdig.
  - rewrite Hy4. lia.
  - rewrite Hh. dlia.
  - rewrite Hmi. dlia.
  - rewrite Hs. dlia.
  - exact HP.
  - unfold UTC. cbn [unix_ns]. rewrite Hyear, Year_eq, Ec by done. lia.
Qed.
