(* ===== verification/Message.v ===== *)
(** * Validated messages and commit acknowledgements

    [telemetry/message.go] and [telemetry/ack.go].  The slices a [Message]
    holds are private copies and its accessors copy again, so a message is an
    immutable value here. *)

From S2P Require Import Prelude GoStrings GoSha256 GoTime GoFloat GoJson Identity Uuid Telemetry Decode Validation.
#[local] Open Scope Z_scope.

Record Validator := mkValidator { limits : Limits }.

Definition NewValidator (l : Limits) : res ReasonError Validator :=
  match Limits_Validate l with Some err => Err err | None => Ok (mkValidator l) end.

Record Message (uuid : Type) := mkMessage {
  topic : ParsedTopic;
  batch : BatchDTO uuid;
  rawPayload : string;
  payloadHash : string;
  receivedAt : Time;
  samples : list (SampleCandidate uuid);
}.
Arguments mkMessage {uuid}.
Arguments topic {uuid}.
Arguments batch {uuid}.
Arguments rawPayload {uuid}.
Arguments payloadHash {uuid}.
Arguments receivedAt {uuid}.
Arguments samples {uuid}.

(** The committed outcome of a persistence attempt; any other byte is [OutcomeOther]. *)
Inductive CommitOutcome :=
| CommitOutcomeUnconfirmed
| CommitOutcomeCommitted
| CommitOutcomeDuplicateCommitted
| CommitOutcomeOther (n : Z).

#[export] Instance CommitOutcome_eq_dec : EqDecision CommitOutcome.
Proof. solve_decision. Defined.

Record CommitACK (uuid : Type) := mkCommitACK {
  a_ProtocolVersion : Z;
  a_MessageType : string;
  a_MessageID : uuid;
  a_Status : string;
  a_CommittedAt : Time;
}.
Arguments mkCommitACK {uuid}.
Arguments a_ProtocolVersion {uuid}.
Arguments a_MessageType {uuid}.
Arguments a_MessageID {uuid}.
Arguments a_Status {uuid}.
Arguments a_CommittedAt {uuid}.

Section message.
Context {uuid : Type} `{!UuidLib uuid}.

(** The loop body that expands sample [i]. *)
Definition expand_sample (b : BatchDTO uuid) (r : validatedRange) (i : nat) (value : float64)
    : SampleCandidate uuid :=
  let index := wrap32 (Z.of_nat i) in
  mkSample (GatewayID b) (SensorID b) (BootID b) (MessageID b) index
    (int64_add (FirstSequence b) index)
    (Add (FirstMeasuredAt r) (int64_mul index (Interval r))) value.

Definition Validate (v : option Validator) (topic_text : string) (payload : string)
    (received : Time) : res ReasonError (Message uuid) :=
  match v with
  | None => Err (invalidPayloadError "limits")
  | Some v =>
      match Limits_Validate (limits v) with
      | Some err => Err err
      | None =>
          if MaxPayloadBytes (limits v) <? str_len payload
          then Err (mkReasonError ReasonPayloadTooLarge "payload")
          else
            let! parsedTopic := ParseTopic topic_text in
            let! b := decodeBatch payload parsedTopic (limits v) in
            let! checkedRange := validateRange b (limits v) received in
            Ok (mkMessage parsedTopic b payload (sha256_hex payload) received
                  (imap (expand_sample b checkedRange) (Samples b)))
      end
  end.

(** The accessors; [None] is a nil message, which reads as the zero value. *)
Definition zero_batch : BatchDTO uuid :=
  mkBatchDTO 0 uuid_Nil "" "" "" uuid_Nil 0 0 "" 0 [].

Definition Message_Topic (m : option (Message uuid)) : ParsedTopic :=
  match m with None => mkParsedTopic "" "" "" | Some m => topic m end.
Definition Message_Batch (m : option (Message uuid)) : BatchDTO uuid :=
  match m with None => zero_batch | Some m => batch m end.
Definition Message_RawPayload (m : option (Message uuid)) : string :=
  match m with None => "" | Some m => rawPayload m end.
Definition Message_PayloadHash (m : option (Message uuid)) : string :=
  match m with None => "" | Some m => payloadHash m end.
Definition Message_ReceivedAt (m : option (Message uuid)) : Time :=
  match m with None => zero_time | Some m => receivedAt m end.
Definition Message_Samples (m : option (Message uuid)) : list (SampleCandidate uuid) :=
  match m with None => [] | Some m => samples m end.

Definition FirstSample (m : option (Message uuid)) : option (SampleCandidate uuid) :=
  match m with None => None | Some m => samples m !! O end.
Definition LastSample (m : option (Message uuid)) : option (SampleCandidate uuid) :=
  match m with None => None | Some m => samples m !! (length (samples m) - 1)%nat end.

(** ** Acknowledgements *)

Definition ack_topic (gatewayID : string) (messageID : uuid) : string :=
  "gateways/" +:+ gatewayID +:+ "/acks/" +:+ uuid_String messageID.

Definition NewCommitACK (gatewayID : string) (messageID : uuid) (outcome : CommitOutcome)
    (confirmedAt : Time) : res ReasonError (string * CommitACK uuid) :=
  if bool_decide (ValidateGatewayID gatewayID <> None)
  then Err (invalidPayloadError "gateway_id")
  else if bool_decide (messageID = uuid_Nil) || negb (uuid_Variant messageID =? RFC4122)
          || (negb (uuid_Version messageID =? 4) && negb (uuid_Version messageID =? 7))
  then Err (invalidPayloadError "message_id")
  else if negb (bool_decide (outcome = CommitOutcomeCommitted))
          && negb (bool_decide (outcome = CommitOutcomeDuplicateCommitted))
  then Err (invalidPayloadError "outcome")
  else if IsZero confirmedAt then Err (invalidPayloadError "committed_at")
  else
    let committedAt := UTC confirmedAt in
    if (Year committedAt <? 1) || (9999 <? Year committedAt)
    then Err (invalidPayloadError "committed_at")
    else Ok (ack_topic gatewayID messageID,
             mkCommitACK 1 "telemetry_ack" messageID "committed" committedAt).

(** [json.Marshal(ack)]: the struct tags in order.  Marshalling a time fails
    outside the years 0 to 9999. *)
Definition marshalACK (ack : CommitACK uuid) : option string :=
  if (0 <=? Year (a_CommittedAt ack)) && (Year (a_CommittedAt ack) <=? 9999) then
    Some (json_object
      [json_field "protocol_version" (FormatInt (a_ProtocolVersion ack));
       json_field "message_type" (json_quote (a_MessageType ack));
       json_field "message_id" (json_quote (uuid_String (a_MessageID ack)));
       json_field "status" (json_quote (a_Status ack));
       json_field "committed_at" (json_quote (FormatRFC3339Nano (a_CommittedAt ack)))])
  else None.
End message.

(** ** Validation *)

Section validation.
Context {uuid : Type} `{!UuidLib uuid}.

Lemma NewValidator_ok l v : NewValidator l = Ok v -> limits v = l /\ Limits_Validate l = None.
Proof. unfold NewValidator. intros H. inv_ok H. by subst. Qed.

(** The exact sample [i] of a batch, in unbounded arithmetic. *)
Definition sample_spec (b : BatchDTO uuid) (first : Time) (i : nat) (value : float64)
    : SampleCandidate uuid :=
  mkSample (GatewayID b) (SensorID b) (BootID b) (MessageID b) (Z.of_nat i)
    (FirstSequence b + Z.of_nat i)
    (mkTime (unix_ns first + Z.of_nat i * (SampleIntervalUS b * 1000)) 0) value.

Lemma widths_of_decoded l p (b : BatchDTO uuid) : Limits_Validate l = None ->
  MaxBatchDuration l <= max_int64 -> decoded_ok l p b -> batch_widths b l.
Proof.
  intros Hl Hd []. apply Limits_Validate_ok in Hl. unfold batch_widths. in_width. lia.
Qed.

(** No 32- or 64-bit operation of the expansion wraps. *)
Lemma expand_sample_exact l rcv r p (b : BatchDTO uuid) i value :
  batch_widths b l -> decoded_ok l p b -> range_ok b l rcv r -> Samples b !! i = Some value ->
  expand_sample b r i value = sample_spec b (FirstMeasuredAt r) i value.
Proof.
  intros Hw Hd Hr Hi. apply lookup_lt_Some in Hi.
  pose proof (dec_length _ _ _ Hd) as Hlen.
  destruct Hr as [? ? ? ? ? Hint ? Hspan Hmeas ? ? ? ?], Hw as (? & ? & ? & ?).
  apply parseMeasuredAt_ok in Hmeas as (_ & _ & Hoff & _).
  unfold expand_sample, sample_spec, int64_add, int64_mul, Add. rewrite Hoff, Hint in *.
  rewrite (wrap32_id (Z.of_nat i)) by (in_width; lia). in_width.
  assert (0 <= Z.of_nat i * (SampleIntervalUS b * 1000) <= 9223372036854775807) by nia.
  rewrite !wrap64_id by (in_width; lia). done.
Qed.

Lemma imap_ext_lookup {A B} (f g : nat -> A -> B) l :
  (forall i x, l !! i = Some x -> f i x = g i x) -> imap f l = imap g l.
Proof.
  revert f g. induction l as [|x l IH]; intros f g H; cbn; [done|].
  f_equal; [by apply (H 0%nat)|]. apply IH. intros i y Hi. by apply (H (S i)).
Qed.

(** C35 A validator with valid limits accepts a message exactly when
    its topic is a telemetry topic, its payload decodes for that topic
    within the limits, and its sequence and time range is valid; the message
    it returns carries the parsed topic, the decoded batch, the exact
    payload with its SHA-256, and one candidate per sample whose sequence
    number and time are the exact arithmetic ones, so no 32- or 64-bit
    operation overflowed. *)
Theorem Validate_spec v topic_text payload received (m : Message uuid) :
  Limits_Validate (limits v) = None -> MaxBatchDuration (limits v) <= max_int64 ->
  (Validate (Some v) topic_text payload received = Ok m <->
   exists p b r, ParseTopic topic_text = Ok p
     /\ decodeBatch payload p (limits v) = Ok b /\ range_ok b (limits v) received r
     /\ m = mkMessage p b payload (sha256_hex payload) received
              (imap (sample_spec b (FirstMeasuredAt r)) (Samples b))).
Proof.
  intros Hl Hmax. unfold Validate. rewrite Hl.
  assert (Hexp : forall p b r, decodeBatch payload p (limits v) = Ok b ->
    (validateRange b (limits v) received = Ok r <-> range_ok b (limits v) received r)
    /\ (range_ok b (limits v) received r ->
        imap (expand_sample b r) (Samples b) = imap (sample_spec b (FirstMeasuredAt r)) (Samples b))).
  { intros p b r Hd. apply decodeBatch_fields in Hd as (_ & _ & _ & _ & _ & Hd).
    assert (Hw := widths_of_decoded _ _ _ Hl Hmax Hd). split; [by apply validateRange_iff|].
    intros Hr. apply imap_ext_lookup. intros i x Hi. by eapply expand_sample_exact. }
  split.
  - intros H. inv_ok H. subst m. match goal with H : decodeBatch _ _ _ = _ |- _ => rename H into Hd end.
    match goal with H : validateRange _ _ _ = _ |- _ => rename H into Hr end.
    destruct (Hexp _ _ val1 Hd) as [Hiff Himap]. apply Hiff in Hr.
    eexists _, _, _. split; [reflexivity|]. split; [exact Hd|]. split; [exact Hr|].
    by rewrite (Himap Hr).
  - intros (p & b & r & Hp & Hd & Hr & ->). destruct (Hexp _ _ r Hd) as [Hiff Himap].
    rewrite Hp. cbn [mbind res_bind]. rewrite Hd. cbn [mbind res_bind].
    rewrite (proj2 Hiff Hr). cbn [mbind res_bind]. rewrite (Himap Hr).
    destruct (MaxPayloadBytes (limits v) <? str_len payload) eqn:E; [|done].
    apply decodeBatch_fields in Hd as (Hlen & _). gobool. lia.
Qed.
End validation.

(** ** Messages that passed validation *)

Record message_ok `{U : UuidLib uuid} (m : Message uuid) : Prop := {
  mok_topic : topic m = mkParsedTopic (telemetry_topic (GatewayID (batch m)) (SensorID (batch m)))
                          (GatewayID (batch m)) (SensorID (batch m));
  mok_gateway : ValidateGatewayID (GatewayID (batch m)) = None;
  mok_sensor : ValidateSensorID (SensorID (batch m)) = None;
  mok_message : message_id_ok (MessageID (batch m));
  mok_boot : BootID (batch m) <> uuid_Nil /\ uuid_Variant (BootID (batch m)) = RFC4122;
  mok_count : 0 < SampleCount (batch m) <= max_int32;
  mok_length : Z.of_nat (length (Samples (batch m))) = SampleCount (batch m);
  mok_first : 0 <= FirstSequence (batch m);
  mok_last : FirstSequence (batch m) + SampleCount (batch m) - 1 <= max_int64;
  mok_interval : 0 < SampleIntervalUS (batch m) <= maxExactFloat64Integer;
  mok_values : Forall (fun v => IsNaN v = false /\ IsInf v = false) (Samples (batch m));
  mok_hash : payloadHash m = sha256_hex (rawPayload m);
  mok_samples : exists first, parseMeasuredAt (MeasuredAt (batch m)) = Some first
    /\ samples m = imap (sample_spec (batch m) first) (Samples (batch m))
    /\ Year (UTC (Add first ((SampleCount (batch m) - 1) * (SampleIntervalUS (batch m) * 1000)))) <= 9999;
}.

Lemma Validate_message_ok `{U : UuidLib uuid} v topic_text payload received (m : Message uuid) :
  MaxBatchDuration (limits v) <= max_int64 ->
  Validate (Some v) topic_text payload received = Ok m ->
  message_ok m /\ rawPayload m = payload /\ receivedAt m = received /\ SourceTopic (topic m) = topic_text.
Proof.
  intros Hmax H. assert (Hl : Limits_Validate (limits v) = None).
  { unfold Validate in H. by destruct (Limits_Validate _). }
  unfold Validate in H. rewrite Hl in H. inv_ok H. subst m. cbn [rawPayload receivedAt topic].
  match goal with H : decodeBatch _ _ _ = _ |- _ => apply decodeBatch_fields in H as (_ & _ & _ & _ & _ & Hd) end.
  assert (Hw := widths_of_decoded _ _ _ Hl Hmax Hd).
  match goal with H : validateRange _ _ _ = _ |- _ => apply validateRange_iff in H as Hr; [|exact Hw] end.
  match goal with H : ParseTopic _ = _ |- _ => apply ParseTopic_ok in H as (Ht & Hs & _ & _) end.
  split; [|done]. assert (Hdd := Hd). destruct Hd as [_ _ ? ? Hg Hsn _ Hcount Hlen _ Hvals].
  assert (Hexp : imap (expand_sample val0 val1) (Samples val0)
    = imap (sample_spec val0 (FirstMeasuredAt val1)) (Samples val0)).
  { apply imap_ext_lookup. intros i x Hi. by eapply expand_sample_exact. }
  assert (Hr' := Hr). destruct Hr' as [? ? ? ? ? Hint ? ? ? Hlt ? ? ?].
  constructor; cbn [topic batch payloadHash rawPayload samples]; try tauto; try lia.
  - destruct val as [src g s]. cbn in *. destruct Hg as [<- _], Hsn as [<- _]. by rewrite Hs, Ht.
  - exists (FirstMeasuredAt val1). rewrite Hexp. split_and!; [done..|].
    unfold Microsecond in *. rewrite <- Hint, <- Hlt. lia.
Qed.

(** Sample [i] of a validated message. *)
Lemma message_sample `{U : UuidLib uuid} (m : Message uuid) first i : message_ok m ->
  parseMeasuredAt (MeasuredAt (batch m)) = Some first ->
  samples m !! i = sample_spec (batch m) first i <$> Samples (batch m) !! i.
Proof.
  intros Hm Hf. destruct (mok_samples _ Hm) as (f & Hf' & -> & _).
  rewrite Hf in Hf'. injection Hf' as <-. by rewrite list_lookup_imap.
Qed.

Lemma message_samples_length `{U : UuidLib uuid} (m : Message uuid) : message_ok m ->
  Z.of_nat (length (samples m)) = SampleCount (batch m).
Proof.
  intros Hm. destruct (mok_samples _ Hm) as (f & _ & -> & _). rewrite length_imap. by apply mok_length.
Qed.

(** A validated message has a first and a last sample, which carry the ends of
    its sequence range. *)
Lemma first_last_sample `{U : UuidLib uuid} (m : Message uuid) : message_ok m ->
  exists first s0 s1, parseMeasuredAt (MeasuredAt (batch m)) = Some first
    /\ FirstSample (Some m) = Some s0 /\ LastSample (Some m) = Some s1
    /\ s_SequenceNum s0 = FirstSequence (batch m)
    /\ s_SequenceNum s1 = FirstSequence (batch m) + SampleCount (batch m) - 1
    /\ s_MeasuredAt s0 = first
    /\ s_MeasuredAt s1 = mkTime (unix_ns first
         + (SampleCount (batch m) - 1) * (SampleIntervalUS (batch m) * 1000)) 0.
Proof.
  intros Hm. destruct (mok_samples _ Hm) as (first & Hf & Hs & _).
  pose proof (mok_count _ Hm). pose proof (mok_length _ Hm) as Hl.
  pose proof (message_samples_length _ Hm) as Hls.
  assert (Hlast : is_Some (Samples (batch m) !! (length (samples m) - 1)%nat)).
  { apply lookup_lt_is_Some. lia. }
  assert (Hfst : is_Some (Samples (batch m) !! 0%nat)) by (apply lookup_lt_is_Some; lia).
  destruct Hlast as [v1 Hv1], Hfst as [v0 Hv0].
  exists first, (sample_spec (batch m) first 0 v0),
    (sample_spec (batch m) first (length (samples m) - 1) v1).
  unfold FirstSample, LastSample. rewrite !(message_sample m first) by done.
  rewrite Hv0, Hv1. cbn [fmap option_fmap option_map]. split_and!; try done; cbn.
  - lia.
  - lia.
  - apply parseMeasuredAt_ok in Hf as (_ & _ & Hoff & _). destruct first as [n o]. cbn in *.
    subst. f_equal. lia.
  - do 2 f_equal. by replace (Z.of_nat (length (samples m) - 1)) with (SampleCount (batch m) - 1) by lia.
Qed.

(** The samples of a validated message have consecutive sequence
    numbers from the first one on, times that start at the measured time and
    advance by exactly the interval, and whole microseconds, so a database
    timestamp holds them exactly; distinct samples have distinct times. *)
Theorem samples_timeline `{U : UuidLib uuid} (m : Message uuid) i s : message_ok m ->
  samples m !! i = Some s ->
  s_SequenceNum s = FirstSequence (batch m) + Z.of_nat i /\ s_SampleIndex s = Z.of_nat i
  /\ 0 <= s_SequenceNum s <= max_int64
  /\ (unix_ns (s_MeasuredAt s)) mod 1000 = 0
  /\ (forall j s', (i < j)%nat -> samples m !! j = Some s' ->
        unix_ns (s_MeasuredAt s') - unix_ns (s_MeasuredAt s)
        = (Z.of_nat j - Z.of_nat i) * (SampleIntervalUS (batch m) * 1000)
        /\ unix_ns (s_MeasuredAt s) < unix_ns (s_MeasuredAt s')).
Proof.
  intros Hm Hi. destruct (mok_samples _ Hm) as (first & Hf & _ & _).
  pose proof (mok_interval _ Hm). pose proof (mok_first _ Hm). pose proof (mok_last _ Hm).
  assert (Hlen := message_samples_length _ Hm). assert (Hlt := lookup_lt_Some _ _ _ Hi).
  rewrite (message_sample m first i Hm Hf), fmap_Some in Hi. destruct Hi as (v & Hv & ->).
  cbn [sample_spec s_SequenceNum s_SampleIndex s_MeasuredAt unix_ns].
  split_and!; try lia.
  - apply parseMeasuredAt_ok in Hf as (_ & _ & _ & Hmod).
    rewrite Z.mul_assoc, Z.add_mod, Z.mod_mul, Z.add_0_r, Z.mod_mod by done. exact Hmod.
  - intros j s' Hj Hs'. rewrite (message_sample m first j Hm Hf), fmap_Some in Hs'.
    destruct Hs' as (v' & Hv' & ->). cbn. nia.
Qed.

(** ** Acknowledgements *)

Lemma NewCommitACK_ok `{U : UuidLib uuid} g (id : uuid) outcome t text ack :
  NewCommitACK g id outcome t = Ok (text, ack) ->
  ValidateGatewayID g = None /\ message_id_ok id
  /\ outcome ∈ [CommitOutcomeCommitted; CommitOutcomeDuplicateCommitted]
  /\ text = ack_topic g id /\ 1 <= Year (UTC t) <= 9999
  /\ ack = mkCommitACK 1 "telemetry_ack" id "committed" (UTC t).
Proof.
  unfold NewCommitACK. intros H. inv_ok H. subst.
  rewrite !orb_false_iff, !andb_false_iff, !negb_false_iff, !bool_decide_eq_true,
    !bool_decide_eq_false, !Z.eqb_eq, !Z.ltb_ge in *. unfold message_id_ok.
  split_and!; try tauto; try lia; [by apply dec_stable|].
  destruct Heqb1 as [->| ->]; [left|right; left].
Qed.

(** A refused outcome never becomes an acknowledgement. *)
Lemma NewCommitACK_unconfirmed `{U : UuidLib uuid} g (id : uuid) outcome t :
  outcome ∉ [CommitOutcomeCommitted; CommitOutcomeDuplicateCommitted] ->
  is_ok (NewCommitACK g id outcome t) = false.
Proof.
  intros Ho. destruct (NewCommitACK g id outcome t) as [[text ack]|] eqn:E; [|done].
  by apply NewCommitACK_ok in E as (_ & _ & Hin & _).
Qed.

(** ** A concrete message *)

Module Demo.
Import Canonical.

Definition demo_limits : Limits := mkLimits 4096 16 (10 * Minute) Minute.
Definition demo_validator : Validator := mkValidator demo_limits.

Definition demo_payload : string := jq (
  "{'protocol_version':1,'message_id':'3f2b8c1e-9d4a-4b7c-8e21-5a6f7d8c9b01'," +:+
  "'message_type':'telemetry_batch','gateway_id':'gw-1','sensor_id':'s_1'," +:+
  "'boot_id':'a1b2c3d4-e5f6-4711-a233-445566778899','first_sequence':5,'sample_count':2," +:+
  "'measured_at':'2026-05-04T10:20:30.5Z','sample_interval_us':1000000,'samples':[20.5,-2.5e-7]}").

Definition demo_topic : string := "gateways/gw-1/telemetry/s_1".
Definition demo_received : Time := mkTime 1777890035000000000 0.

Definition demo_first : Time := mkTime 1777890030500000000 0.
Definition demo_batch : BatchDTO cuuid :=
  mkBatchDTO 1 id4 "telemetry_batch" "gw-1" "s_1" boot 5 2 "2026-05-04T10:20:30.5Z" 1000000
    [f64_of_decimal false 205 (-1); f64_of_decimal true 25 (-8)].
Definition demo_message : Message cuuid :=
  mkMessage (mkParsedTopic demo_topic "gw-1" "s_1") demo_batch demo_payload
    (sha256_hex demo_payload) demo_received (imap (sample_spec demo_batch demo_first) (Samples demo_batch)).

Lemma demo_valid : Validate (Some demo_validator) demo_topic demo_payload demo_received = Ok demo_message.
Proof. vm_compute. reflexivity. Qed.

Lemma demo_message_ok : message_ok demo_message.
Proof.
  refine (proj1 (Validate_message_ok demo_validator _ _ _ _ _ demo_valid)).
  vm_compute. discriminate.
Qed.

Definition demo_range : validatedRange :=
  mkRange demo_first (mkTime 1777890031500000000 0) 6 1000000000.

Lemma Validate_spec_witness :
  exists p b r, ParseTopic demo_topic = Ok p /\ decodeBatch demo_payload p demo_limits = Ok b
    /\ range_ok b demo_limits demo_received r
    /\ demo_message = mkMessage p b demo_payload (sha256_hex demo_payload) demo_received
         (imap (sample_spec b (FirstMeasuredAt r)) (Samples b)).
Proof.
  apply (Validate_spec demo_validator demo_topic demo_payload demo_received demo_message).
  - reflexivity.
  - vm_compute. discriminate.
  - exact demo_valid.
Defined.

Definition demo_sample1 : SampleCandidate cuuid :=
  sample_spec demo_batch demo_first 1 (f64_of_decimal true 25 (-8)).

Lemma samples_timeline_witness : s_SequenceNum demo_sample1 = 6
  /\ (unix_ns (s_MeasuredAt demo_sample1)) mod 1000 = 0.
Proof.
  destruct (samples_timeline demo_message 1 demo_sample1 demo_message_ok eq_refl) as (H1 & _ & _ & H2 & _).
  split; [exact H1|exact H2].
Defined.
End Demo.
