(* ===== verification/Txn.v ===== *)
(** * Database transactions

    The boundary between the modelled code and a SQL database, shared by the
    PostgreSQL repositories and the SQLite outbox, with errors of the caller's
    type.  Every call consumes one [Answer]: it works or fails with an
    arbitrary error, so each error path of the code is reachable.  The working
    copy of the tables becomes the committed one only at commit. *)

From S2P Require Import Prelude Telemetry.
#[local] Open Scope Z_scope.

Inductive Answer (E : Type) :=
| Works
| Fails (cause : E).
Arguments Works {E}.
Arguments Fails {E} cause.
Notation Reply := (Answer error).

(** A step of a transaction: the working copy of the tables and the replies of
    the calls to come.  An error ends the transaction, so its working copy is
    dropped. *)
Definition Transaction (E DB A : Type) : Type :=
  DB -> list (Answer E) -> res E (A * DB * list (Answer E)).
Notation Tx := (Transaction error).

Section tx.
Context {E DB : Type}.
Notation Tx := (Transaction E DB).

Definition tx_ret {A} (a : A) : Tx A := fun db rs => Ok (a, db, rs).
Definition tx_fail {A} (e : E) : Tx A := fun _ _ => Err e.
Definition tx_bind {A B} (m : Tx A) (k : A -> Tx B) : Tx B :=
  fun db rs => match m db rs with Ok (a, db', rs') => k a db' rs' | Err e => Err e end.

(** One call: [run] on the tables when the database answers, [wrap cause] when
    it does not.  After the script every call works. *)
Definition call {A} (wrap : E -> E) (run : DB -> A * DB) : Tx A :=
  fun db rs =>
    match rs with
    | Fails cause :: _ => Err (wrap cause)
    | Works :: rs' => let '(a, db') := run db in Ok (a, db', rs')
    | [] => let '(a, db') := run db in Ok (a, db', [])
    end.

(** A call that the database may also refuse (a violated constraint). *)
Definition call_checked {A} (wrap : E -> E) (run : DB -> res E (A * DB)) : Tx A :=
  fun db rs =>
    let go rs' := match run db with Ok (a, db') => Ok (a, db', rs') | Err e => Err (wrap e) end in
    match rs with
    | Fails cause :: _ => Err (wrap cause)
    | Works :: rs' => go rs'
    | [] => go []
    end.

(** The same, for code that looks at the error: it is handed back, and the
    statement that failed left the tables as they were. *)
Definition attempt {A} (run : DB -> res E (A * DB)) : Tx (res E A) :=
  fun db rs =>
    let go rs' := match run db with Ok (a, db') => Ok (Ok a, db', rs') | Err e => Ok (Err e, db, rs') end in
    match rs with
    | Fails cause :: rs' => Ok (Err cause, db, rs')
    | Works :: rs' => go rs'
    | [] => go []
    end.

(** A query reads only. *)
Definition query {A} (wrap : E -> E) (run : DB -> A) : Tx A :=
  call wrap (fun db => (run db, db)).

Lemma tx_bind_ok {A B} (m : Tx A) (k : A -> Tx B) db rs b db'' rs'' :
  tx_bind m k db rs = Ok (b, db'', rs'') ->
  exists a db' rs', m db rs = Ok (a, db', rs') /\ k a db' rs' = Ok (b, db'', rs'').
Proof. unfold tx_bind. destruct (m db rs) as [[[a db'] rs']|]; [eauto 10|done]. Qed.

Lemma query_ok {A} wrap (run : DB -> A) db rs a db' rs' :
  query wrap run db rs = Ok (a, db', rs') -> a = run db /\ db' = db.
Proof. unfold query, call. intros H. repeat case_match; naive_solver. Qed.

Lemma call_ok {A} wrap (run : DB -> A * DB) db rs a db' rs' :
  call wrap run db rs = Ok (a, db', rs') -> run db = (a, db').
Proof. unfold call. intros H. repeat case_match; naive_solver. Qed.

Lemma call_checked_ok {A} wrap (run : DB -> res E (A * DB)) db rs a db' rs' :
  call_checked wrap run db rs = Ok (a, db', rs') -> run db = Ok (a, db').
Proof. unfold call_checked. intros H. repeat case_match; naive_solver. Qed.

Lemma attempt_ok {A} (run : DB -> res E (A * DB)) db rs r db' rs' :
  attempt run db rs = Ok (r, db', rs') ->
  match r with Ok a => run db = Ok (a, db') | Err _ => db' = db end.
Proof. unfold attempt. intros H. repeat case_match; naive_solver. Qed.

End tx.

Notation "'let>' x ':=' m 'in' k" := (tx_bind m (fun x => k))
  (at level 10, x pattern, m at level 100, k at level 200) : go_scope.

(** How [tx.Commit] ends: with a nil error the transaction is durable; with an
    error it may or may not be. *)
Inductive CommitAnswer (E : Type) :=
| CommitOk
| CommitError (cause : E) (durable : bool).
Arguments CommitOk {E}.
Arguments CommitError {E} cause durable.
Notation CommitReply := (CommitAnswer error).
