(* ===== verification/Store.v ===== *)
(** * The telemetry tables

    The tables that [telemetry/postgres_*.go] read and write, with the columns
    and unique keys of the migrations.  The transaction boundary is [Txn]; a
    transaction on one Sensor holds that Sensor's row lock from its first
    write-relevant statement on, so transactions on it run one after another. *)

From S2P Require Import Prelude GoStrings GoTime GoFloat GoJson Uuid Telemetry Txn.
#[local] Open Scope Z_scope.

(** ** Tables *)

(** The columns migration 20 added are nullable for older rows. *)
Record LedgerRow (uuid : Type) := mkLedgerRow {
  l_payload_hash : string;
  l_source_topic : option string;
  l_sensor_id : option string;
  l_boot_id : option uuid;
  l_first_sequence : option Z;
  l_last_sequence : option Z;
  l_sample_count : option Z;
}.
Arguments mkLedgerRow {uuid}.
Arguments l_payload_hash {uuid}.
Arguments l_source_topic {uuid}.
Arguments l_sensor_id {uuid}.
Arguments l_boot_id {uuid}.
Arguments l_first_sequence {uuid}.
Arguments l_last_sequence {uuid}.
Arguments l_sample_count {uuid}.

(** A raw sample; [tr_measured_at] counts microseconds, as [timestamptz] does. *)
Record TelemetryRow (uuid : Type) := mkTelemetryRow {
  tr_measured_at : Z;
  tr_sample_id : Z;
  tr_gateway_id : string;
  tr_sensor_id : string;
  tr_sequence_num : Z;
  tr_value : float64;
  tr_boot_id : option uuid;
  tr_message_id : option uuid;
  tr_sample_index : option Z;
}.
Arguments mkTelemetryRow {uuid}.
Arguments tr_measured_at {uuid}.
Arguments tr_sample_id {uuid}.
Arguments tr_gateway_id {uuid}.
Arguments tr_sensor_id {uuid}.
Arguments tr_sequence_num {uuid}.
Arguments tr_value {uuid}.
Arguments tr_boot_id {uuid}.
Arguments tr_message_id {uuid}.
Arguments tr_sample_index {uuid}.

Record TwinEntity (uuid : Type) := mkTwinEntity {
  e_id : uuid;
  e_entity_id : string;
  e_entity_type : string;
  e_gateway_id : option string;
}.
Arguments mkTwinEntity {uuid}.
Arguments e_id {uuid}.
Arguments e_entity_id {uuid}.
Arguments e_entity_type {uuid}.
Arguments e_gateway_id {uuid}.

Record TwinRelationship (uuid : Type) := mkTwinRelationship {
  rel_source : uuid;
  rel_type : string;
  rel_target : uuid;
}.
Arguments mkTwinRelationship {uuid}.
Arguments rel_source {uuid}.
Arguments rel_type {uuid}.
Arguments rel_target {uuid}.

(** A [jsonb] value: an object by key, or anything else. *)
Inductive jsonb :=
| JsonbObject (members : gmap string json)
| JsonbOther (value : json).

Record TwinState := mkTwinState {
  st_reported_state : jsonb;
  st_desired_state : jsonb;
  st_reported_version : Z;
  st_desired_version : Z;
  st_last_reported_at : option Z;
  st_last_desired_at : option Z;
  st_updated_at : Z;
}.

Record TemporalRow (uuid : Type) := mkTemporalRow {
  tv_observed_at : Z;
  tv_entity_id : uuid;
  tv_property_name : string;
  tv_value_number : option float64;
  tv_value_text : option string;
  tv_value_boolean : option bool;
  tv_metadata : gmap string json;
  tv_message_id : option uuid;
}.
Arguments mkTemporalRow {uuid}.
Arguments tv_observed_at {uuid}.
Arguments tv_entity_id {uuid}.
Arguments tv_property_name {uuid}.
Arguments tv_value_number {uuid}.
Arguments tv_value_text {uuid}.
Arguments tv_value_boolean {uuid}.
Arguments tv_metadata {uuid}.
Arguments tv_message_id {uuid}.

Record DB (uuid : Type) `{UuidLib uuid} := mkDB {
  gateways : gset string;
  sensors : gmap (string * string) (option string);
  processed_messages : gmap (string * uuid) (LedgerRow uuid);
  telemetry : list (TelemetryRow uuid);
  sample_id_seq : Z;
  twin_entities : list (TwinEntity uuid);
  twin_relationships : list (TwinRelationship uuid);
  twin_states : gmap uuid TwinState;
  twin_temporal_values : list (TemporalRow uuid);
}.
Arguments mkDB {uuid H}.
Arguments gateways {uuid H}.
Arguments sensors {uuid H}.
Arguments processed_messages {uuid H}.
Arguments telemetry {uuid H}.
Arguments sample_id_seq {uuid H}.
Arguments twin_entities {uuid H}.
Arguments twin_relationships {uuid H}.
Arguments twin_states {uuid H}.
Arguments twin_temporal_values {uuid H}.

(** [timestamptz] keeps microseconds. *)
Definition timestamptz (t : Time) : Z := unix_ns t / 1000.

(** [jsonb || jsonb]: the right object wins; other values concatenate as arrays. *)
Definition jsonb_array (v : jsonb) : list json :=
  match v with
  | JsonbObject m => [JObj (map_to_list m)]
  | JsonbOther (JArr items) => items
  | JsonbOther v => [v]
  end.

Definition jsonb_concat (a b : jsonb) : jsonb :=
  match a, b with
  | JsonbObject m1, JsonbObject m2 => JsonbObject (m2 ∪ m1)
  | _, _ => JsonbOther (JArr (jsonb_array a ++ jsonb_array b))
  end.
