(* ===== verification/Persist.v ===== *)
(** * Persisting one validated message

    [telemetry/postgres_repository.go], [postgres_ledger.go],
    [postgres_resources.go], [postgres_reported_state.go] and
    [postgres_temporal.go]: one transaction that checks the provisioned graph,
    claims the deduplication ledger row, copies the raw samples, advances the
    Sensor's reported state and appends one temporal observation. *)

From S2P Require Import Prelude GoStrings GoSha256 GoTime GoFloat GoJson Identity Uuid Telemetry.
From S2P Require Import Decode Validation Message Txn Store.
#[local] Open Scope Z_scope.

Definition dependencyError (operation : string) (err : error) : error :=
  EWrap2 operation (EReason (mkReasonError ReasonDependencyUnavailable "")) err.

Definition commitUnconfirmedError (err : error) : error :=
  EWrap2 "commit telemetry transaction" (EReason (mkReasonError ReasonCommitUnconfirmed "")) err.

Definition reason (code : ReasonCode) (field : string) : error := EReason (mkReasonError code field).

Inductive ledgerDisposition :=
| ledgerDispositionUnconfirmed
| ledgerDispositionNew
| ledgerDispositionDuplicate.

#[export] Instance ledgerDisposition_eq_dec : EqDecision ledgerDisposition.
Proof. solve_decision. Defined.

Record MessageIdentity (uuid : Type) := mkIdentity {
  id_GatewayID : string;
  id_SensorID : string;
  id_BootID : uuid;
  id_MessageID : uuid;
}.
Arguments mkIdentity {uuid}.
Arguments id_GatewayID {uuid}.
Arguments id_SensorID {uuid}.
Arguments id_BootID {uuid}.
Arguments id_MessageID {uuid}.

Record PersistResult (uuid : Type) := mkPersistResult {
  Identity : MessageIdentity uuid;
  Outcome : CommitOutcome;
  SamplesSaved : Z;
}.
Arguments mkPersistResult {uuid}.
Arguments Identity {uuid}.
Arguments Outcome {uuid}.
Arguments SamplesSaved {uuid}.

Section persist.
Context {uuid : Type} `{!UuidLib uuid}.

(** ** Ledger metadata *)

Record ledgerMessage := mkLedgerMessage {
  lm_topic : ParsedTopic;
  lm_payloadHash : string;
  lm_sensorID : string;
  lm_bootID : uuid;
  lm_messageID : uuid;
  lm_firstSample : SampleCandidate uuid;
  lm_lastSample : SampleCandidate uuid;
  lm_sampleCount : Z;
}.

Definition ledgerMetadata (message : option (Message uuid)) : res error ledgerMessage :=
  match message with
  | None => Err (reason ReasonInvalidPayload "message")
  | Some m =>
      let tp := Message_Topic message in
      let count := Z.of_nat (length (samples m)) in
      if bool_decide (t_GatewayID tp = "") || bool_decide (t_SensorID tp = "")
         || bool_decide (SourceTopic tp = "") || bool_decide (payloadHash m = "")
      then Err (reason ReasonInvalidPayload "message")
      else match FirstSample message, LastSample message with
      | Some first, Some last =>
          if (count =? 0) || (max_int32 <? count)
          then Err (reason ReasonInvalidPayload "message")
          else if negb (bool_decide (s_GatewayID first = t_GatewayID tp))
                  || negb (bool_decide (s_GatewayID last = t_GatewayID tp))
                  || negb (bool_decide (s_SensorID first = t_SensorID tp))
                  || negb (bool_decide (s_SensorID last = t_SensorID tp))
                  || bool_decide (s_MessageID first = uuid_Nil)
                  || negb (bool_decide (s_MessageID first = s_MessageID last))
                  || bool_decide (s_BootID first = uuid_Nil)
                  || negb (bool_decide (s_BootID first = s_BootID last))
                  || negb (s_SampleIndex first =? 0)
                  || negb (s_SampleIndex last =? wrap32 (count - 1))
                  || (s_SequenceNum first <? 0) || (s_SequenceNum last <? s_SequenceNum first)
                  || negb (int64_sub (s_SequenceNum last) (s_SequenceNum first) =? count - 1)
          then Err (reason ReasonInvalidPayload "message_samples")
          else Ok (mkLedgerMessage tp (payloadHash m) (t_SensorID tp) (s_BootID first)
                     (s_MessageID first) first last (wrap32 count))
      | _, _ => Err (reason ReasonInvalidPayload "message")
      end
  end.

(** ** The provisioned graph *)

Record resolvedTelemetryResource := mkResource {
  r_GatewayID : string;
  r_SensorID : string;
  r_EntityID : uuid;
  r_Unit : option string;
}.

(** The joined query: Gateway entity, Sensor entity and whether the Sensor has
    a state row. *)
Definition twin_graph_rows (urn_gateway urn_sensor gatewayID : string) (db : DB uuid)
    : list (uuid * uuid * bool) :=
  ge ← filter (fun e => e_entity_id e = urn_gateway /\ e_entity_type e = "Gateway"
                        /\ e_gateway_id e = Some gatewayID) (twin_entities db);
  se ← filter (fun e => e_entity_id e = urn_sensor /\ e_entity_type e = "Sensor"
                        /\ e_gateway_id e = Some gatewayID) (twin_entities db);
  if bool_decide (is_Some (twin_states db !! e_id ge))
     && existsb (fun r => bool_decide (rel_source r = e_id ge) && bool_decide (rel_target r = e_id se)
                          && bool_decide (rel_type r = "hasSensor")) (twin_relationships db)
  then [(e_id ge, e_id se, bool_decide (is_Some (twin_states db !! e_id se)))] else [].

Definition resolveTelemetryResource (message : option (Message uuid))
    : Tx (DB uuid) resolvedTelemetryResource :=
  match message with
  | None => tx_fail (reason ReasonInvalidPayload "message")
  | Some _ =>
      let tp := Message_Topic message in
      if bool_decide (t_GatewayID tp = "") || bool_decide (t_SensorID tp = "")
      then tx_fail (reason ReasonInvalidPayload "message")
      else
        let> gatewayExists := query (dependencyError "check telemetry Gateway")
                                (fun db => bool_decide (t_GatewayID tp ∈ gateways db)) in
        if negb gatewayExists then tx_fail (reason ReasonUnknownGateway "gateway_id")
        else
          let> row := query (dependencyError "lock telemetry Sensor")
                        (fun db => sensors db !! (t_GatewayID tp, t_SensorID tp)) in
          match row with
          | None => tx_fail (reason ReasonUnknownSensor "sensor_id")
          | Some unit_col =>
              let> rows := query (dependencyError "verify telemetry Twin graph")
                             (twin_graph_rows (GatewayEntityID (t_GatewayID tp))
                                (SensorEntityID (t_GatewayID tp) (t_SensorID tp)) (t_GatewayID tp)) in
              match rows with
              | [] => tx_fail (reason ReasonResourceGraphIncomplete "twin_graph")
              | (gatewayEntityID, sensorEntityID, sensorStatePresent) :: _ =>
                  if bool_decide (gatewayEntityID = uuid_Nil) || bool_decide (sensorEntityID = uuid_Nil)
                     || negb sensorStatePresent
                  then tx_fail (reason ReasonResourceGraphIncomplete "twin_graph")
                  else tx_ret (mkResource (t_GatewayID tp) (t_SensorID tp) sensorEntityID unit_col)
              end
          end
  end.

(** ** The deduplication ledger *)

Definition ledger_key (entry : ledgerMessage) : string * uuid :=
  (t_GatewayID (lm_topic entry), lm_messageID entry).

Definition ledger_row (entry : ledgerMessage) : LedgerRow uuid :=
  mkLedgerRow (lm_payloadHash entry) (Some (SourceTopic (lm_topic entry))) (Some (lm_sensorID entry))
    (Some (lm_bootID entry)) (Some (s_SequenceNum (lm_firstSample entry)))
    (Some (s_SequenceNum (lm_lastSample entry))) (Some (lm_sampleCount entry)).

(** [INSERT ... ON CONFLICT DO NOTHING RETURNING gateway_id] *)
Definition insert_ledger_row (entry : ledgerMessage) (db : DB uuid) : option string * DB uuid :=
  match processed_messages db !! ledger_key entry with
  | Some _ => (None, db)
  | None =>
      (Some (t_GatewayID (lm_topic entry)),
       mkDB (gateways db) (sensors db) (<[ledger_key entry := ledger_row entry]> (processed_messages db))
         (telemetry db) (sample_id_seq db) (twin_entities db) (twin_relationships db) (twin_states db)
         (twin_temporal_values db))
  end.

(** The [EXISTS] query's condition on another row; NULL columns never match. *)
Definition overlaps (entry : ledgerMessage) (kv : (string * uuid) * LedgerRow uuid) : bool :=
  let '((gateway_id, message_id), row) := kv in
  bool_decide (gateway_id = t_GatewayID (lm_topic entry))
  && bool_decide (l_sensor_id row = Some (lm_sensorID entry))
  && bool_decide (l_boot_id row = Some (lm_bootID entry))
  && match l_first_sequence row, l_last_sequence row with
     | Some first, Some last =>
         (first <=? s_SequenceNum (lm_lastSample entry)) && (s_SequenceNum (lm_firstSample entry) <=? last)
     | _, _ => false
     end
  && negb (bool_decide (message_id = lm_messageID entry)).

Definition overlap_exists (entry : ledgerMessage) (db : DB uuid) : bool :=
  existsb (overlaps entry) (map_to_list (processed_messages db)).

(** The checks on the row that already holds the key. *)
Definition classify_conflict (entry : ledgerMessage) (row : LedgerRow uuid) : res error ledgerDisposition :=
  match l_source_topic row, l_sensor_id row, l_boot_id row, l_first_sequence row, l_last_sequence row,
        l_sample_count row with
  | Some sourceTopic, Some sensorID, Some bootID, Some firstSequence, Some lastSequence, Some sampleCount =>
      if (sampleCount <=? 0) || (firstSequence <? 0) || (lastSequence <? firstSequence)
         || negb (int64_sub lastSequence firstSequence =? sampleCount - 1)
      then Err (reason ReasonLegacyProvenanceUnknown "ledger_provenance")
      else if negb (bool_decide (l_payload_hash row = lm_payloadHash entry))
              || negb (bool_decide (sourceTopic = SourceTopic (lm_topic entry)))
      then Err (reason ReasonMessageConflict "message_id")
      else if negb (bool_decide (sensorID = lm_sensorID entry))
              || negb (bool_decide (bootID = lm_bootID entry))
              || negb (firstSequence =? s_SequenceNum (lm_firstSample entry))
              || negb (lastSequence =? s_SequenceNum (lm_lastSample entry))
              || negb (sampleCount =? lm_sampleCount entry)
      then Err (reason ReasonMessageConflict "message_provenance")
      else Ok ledgerDispositionDuplicate
  | _, _, _, _, _, _ => Err (reason ReasonLegacyProvenanceUnknown "ledger_provenance")
  end.

Definition tx_of_res {A} (r : res error A) : Tx (DB uuid) A :=
  match r with Ok a => tx_ret a | Err e => tx_fail e end.

Definition insertTelemetryLedger (message : option (Message uuid)) : Tx (DB uuid) ledgerDisposition :=
  let> entry := tx_of_res (ledgerMetadata message) in
  let> inserted := call (dependencyError "insert telemetry message ledger") (insert_ledger_row entry) in
  match inserted with
  | Some _ =>
      let> overlap := query (dependencyError "check telemetry sequence overlap") (overlap_exists entry) in
      if overlap : bool then tx_fail (reason ReasonSequenceOverlap "sequence_range")
      else tx_ret ledgerDispositionNew
  | None =>
      let> row := query (dependencyError "read conflicting telemetry message ledger")
                    (fun db => processed_messages db !! ledger_key entry) in
      match row with
      | None => tx_fail (dependencyError "read conflicting telemetry message ledger" (EOther "no rows in result set"))
      | Some row => tx_of_res (classify_conflict entry row)
      end
  end.

(** ** Raw samples *)

Record telemetryCopySource := mkCopySource {
  src_samples : list (SampleCandidate uuid);
  src_next : nat;
}.

Definition copy_Next (source : telemetryCopySource) : bool :=
  (src_next source <? length (src_samples source))%nat.

Definition copy_Values (source : telemetryCopySource)
    : res error (SampleCandidate uuid) * telemetryCopySource :=
  if negb (copy_Next source) then (Err (EOther "telemetry CopyFrom source exhausted"), source)
  else match src_samples source !! src_next source with
  | Some sample => (Ok sample, mkCopySource (src_samples source) (S (src_next source)))
  | None => (Err (EOther "index out of range"), source)
  end.

(** [CopyFrom] calls [Next] and [Values] until [Next] is false. *)
Fixpoint copy_drain (fuel : nat) (source : telemetryCopySource) : res error (list (SampleCandidate uuid)) :=
  match fuel with
  | O => Ok []
  | S fuel' =>
      if copy_Next source then
        match copy_Values source with
        | (Ok sample, source') => let! rest := copy_drain fuel' source' in Ok (sample :: rest)
        | (Err e, _) => Err e
        end
      else Ok []
  end.

Definition telemetry_row (sample_id : Z) (s : SampleCandidate uuid) : TelemetryRow uuid :=
  mkTelemetryRow (timestamptz (s_MeasuredAt s)) sample_id (s_GatewayID s) (s_SensorID s)
    (s_SequenceNum s) (s_Value s) (Some (s_BootID s)) (Some (s_MessageID s)) (Some (s_SampleIndex s)).

(** The unique index [telemetry_message_sample] on new rows. *)
Definition same_sample_key (a b : TelemetryRow uuid) : bool :=
  (tr_measured_at a =? tr_measured_at b) && bool_decide (tr_gateway_id a = tr_gateway_id b)
  && bool_decide (tr_message_id a = tr_message_id b) && bool_decide (tr_sample_index a = tr_sample_index b)
  && bool_decide (is_Some (tr_message_id a)).

Fixpoint copy_rows (rows : list (TelemetryRow uuid)) (next_id : Z) (ss : list (SampleCandidate uuid))
    : res error (list (TelemetryRow uuid) * Z) :=
  match ss with
  | [] => Ok (rows, next_id)
  | s :: ss' =>
      let row := telemetry_row next_id s in
      if existsb (same_sample_key row) rows
      then Err (EOther "duplicate key value violates unique constraint telemetry_message_sample")
      else copy_rows (rows ++ [row]) (next_id + 1) ss'
  end.

Definition CopyFrom (source : telemetryCopySource) (db : DB uuid) : res error (Z * DB uuid) :=
  let! ss := copy_drain (S (length (src_samples source))) source in
  let! (rows, next_id) := copy_rows (telemetry db) (sample_id_seq db) ss in
  Ok (Z.of_nat (length ss),
      mkDB (gateways db) (sensors db) (processed_messages db) rows next_id (twin_entities db)
        (twin_relationships db) (twin_states db) (twin_temporal_values db)).

(** ** Reported state *)

Record reportedStateCandidate := mkCandidate {
  c_value : float64;
  c_observedAt : Time;
  c_bootID : uuid;
  c_sequenceNum : Z;
  c_sampleIntervalUS : Z;
  c_unit : option string;
}.

Definition newReportedStateCandidate (resource : resolvedTelemetryResource)
    (message : option (Message uuid)) : res error reportedStateCandidate :=
  match message with
  | None => Err (reason ReasonInvalidPayload "message")
  | Some m =>
      match LastSample message with
      | None => Err (reason ReasonInvalidPayload "message_samples")
      | Some last =>
          let interval := SampleIntervalUS (batch m) in
          if interval <=? 0 then Err (reason ReasonInvalidPayload "sample_interval_us")
          else Ok (mkCandidate (s_Value last) (UTC (s_MeasuredAt last)) (s_BootID last)
                     (s_SequenceNum last) interval (r_Unit resource))
      end
  end.

(** The merged keys; [None] when the value has no JSON text. *)
Definition candidate_merge (candidate : reportedStateCandidate) : option (gmap string json) :=
  value ← FormatJSONFloat (c_value candidate);
  let merge : gmap string json :=
    list_to_map [("value", JNum value);
      ("observed_at", JStr (FormatRFC3339Nano (c_observedAt candidate)));
      ("boot_id", JStr (uuid_String (c_bootID candidate)));
      ("sequence_num", JNum (FormatInt (c_sequenceNum candidate)));
      ("sample_interval_us", JNum (FormatInt (c_sampleIntervalUS candidate)))] in
  Some (match c_unit candidate with Some unit => <["unit" := JStr unit]> merge | None => merge end).

Definition storedSensorProvenance (stored : jsonb) : option (string * Z) :=
  match stored with
  | JsonbOther _ => None
  | JsonbObject object =>
      match object !! "boot_id" with
      | Some (JStr boot) =>
          if bool_decide (boot = "") then None
          else match object !! "sequence_num" with
          | Some (JNum number) =>
              match ParseInt10 number 64 with
              | Some sequence => if sequence <? 0 then None else Some (boot, sequence)
              | None => None
              end
          | _ => None
          end
      | _ => None
      end
  end.

Definition sensorStateAdvances (stored : jsonb) (lastReportedAt : option Time)
    (candidate : reportedStateCandidate) : bool :=
  match lastReportedAt with
  | None => true
  | Some last =>
      if After (c_observedAt candidate) last then true
      else if negb (time_Equal (c_observedAt candidate) last) then false
      else match storedSensorProvenance stored with
      | None => false
      | Some (storedBoot, storedSequence) =>
          match uuid_Parse storedBoot with
          | None => false
          | Some storedBootID =>
              if negb (bool_decide (storedBootID = c_bootID candidate)) then false
              else storedSequence <? c_sequenceNum candidate
          end
      end
  end.

(** A [timestamptz] read back as an instant. *)
Definition time_of_tz (micros : Z) : Time := mkTime (micros * 1000) 0.

Definition set_twin_states (db : DB uuid) (states : gmap uuid TwinState) : DB uuid :=
  mkDB (gateways db) (sensors db) (processed_messages db) (telemetry db) (sample_id_seq db)
    (twin_entities db) (twin_relationships db) states (twin_temporal_values db).

(** [UPDATE ... WHERE entity_id = $1 AND reported_version = $4]: the rows it
    affects; [now] is the transaction's timestamp. *)
Definition advance_state (now : Z) (entity : uuid) (merge : gmap string json) (observed : Time) (version : Z)
    (db : DB uuid) : res error (Z * DB uuid) :=
  match twin_states db !! entity with
  | Some st =>
      if st_reported_version st =? version then
        if st_reported_version st =? max_int64 then Err (EOther "bigint out of range")
        else Ok (1, set_twin_states db (<[entity := mkTwinState
               (jsonb_concat (st_reported_state st) (JsonbObject merge)) (st_desired_state st)
               (st_reported_version st + 1) (st_desired_version st) (Some (timestamptz observed))
               (st_last_desired_at st) now]> (twin_states db)))
      else Ok (0, db)
  | None => Ok (0, db)
  end.

Definition applySensorReportedState (now : Z) (resource : resolvedTelemetryResource)
    (message : option (Message uuid)) : Tx (DB uuid) bool :=
  if bool_decide (r_EntityID resource = uuid_Nil)
  then tx_fail (reason ReasonInvalidPayload "entity_id")
  else
    let> candidate := tx_of_res (newReportedStateCandidate resource message) in
    let> row := query (dependencyError "lock telemetry Sensor state")
                  (fun db => twin_states db !! r_EntityID resource) in
    match row with
    | None => tx_fail (reason ReasonResourceGraphIncomplete "twin_state")
    | Some st =>
        if st_reported_version st <? 0
        then tx_fail (reason ReasonResourceGraphIncomplete "reported_version")
        else if negb (sensorStateAdvances (st_reported_state st)
                        (time_of_tz <$> st_last_reported_at st) candidate)
        then tx_ret false
        else
          let> affected := call_checked (dependencyError "advance telemetry Sensor reported state")
            (fun db =>
               match candidate_merge candidate with
               | None => Err (EOther "json: unsupported value")
               | Some merge => advance_state now (r_EntityID resource) merge (c_observedAt candidate)
                                 (st_reported_version st) db
               end) in
          if negb (affected =? 1) then tx_fail (reason ReasonResourceGraphIncomplete "twin_state")
          else tx_ret true
    end.

(** ** The temporal observation *)

Definition temporal_row (resource : resolvedTelemetryResource) (last : SampleCandidate uuid)
    (interval : Z) : TemporalRow uuid :=
  mkTemporalRow (timestamptz (UTC (s_MeasuredAt last))) (r_EntityID resource) "sample_interval_us"
    (Some (f64_of_int interval)) None None
    (list_to_map [("unit", JStr "us"); ("boot_id", JStr (uuid_String (s_BootID last)));
                  ("source", JStr "telemetry_batch")])
    (Some (s_MessageID last)).

Definition append_temporal (row : TemporalRow uuid) (db : DB uuid) : Z * DB uuid :=
  (1, mkDB (gateways db) (sensors db) (processed_messages db) (telemetry db) (sample_id_seq db)
        (twin_entities db) (twin_relationships db) (twin_states db) (twin_temporal_values db ++ [row])).

Definition appendSensorSampleIntervalTemporal (resource : resolvedTelemetryResource)
    (message : option (Message uuid)) : Tx (DB uuid) unit :=
  if bool_decide (r_EntityID resource = uuid_Nil)
  then tx_fail (reason ReasonInvalidPayload "entity_id")
  else match message with
  | None => tx_fail (reason ReasonInvalidPayload "message")
  | Some m =>
      match LastSample message with
      | None => tx_fail (reason ReasonInvalidPayload "message_samples")
      | Some last =>
          let interval := SampleIntervalUS (batch m) in
          if (interval <=? 0) || (maxExactFloat64Integer <? interval)
          then tx_fail (reason ReasonInvalidPayload "sample_interval_us")
          else
            let> affected := call (dependencyError "append telemetry Sensor temporal value")
                               (append_temporal (temporal_row resource last interval)) in
            if negb (affected =? 1)
            then tx_fail (reason ReasonDependencyUnavailable "twin_temporal_values")
            else tx_ret tt
      end
  end.

(** ** The transaction *)

(** The database as one [Persist] call meets it. *)
Record Weather := mkWeather {
  w_begin : Reply;
  w_calls : list Reply;
  w_commit : CommitReply;
  w_now : Z;
}.

Definition commit {A} (w : Weather) (db working : DB uuid) (result : A) : res error A * DB uuid :=
  match w_commit w with
  | CommitOk => (Ok result, working)
  | CommitError cause durable => (Err (commitUnconfirmedError cause), if durable then working else db)
  end.

(** The statements after [BeginTx] and before [Commit]. *)
Definition persist_body (now : Z) (metadata : ledgerMessage) (message : option (Message uuid))
    : Tx (DB uuid) (PersistResult uuid) :=
  let> resource := resolveTelemetryResource message in
  let> disposition := insertTelemetryLedger message in
  let identity := mkIdentity (r_GatewayID resource) (r_SensorID resource) (lm_bootID metadata)
                    (lm_messageID metadata) in
  if bool_decide (disposition = ledgerDispositionDuplicate)
  then tx_ret (mkPersistResult identity CommitOutcomeDuplicateCommitted 0)
  else if negb (bool_decide (disposition = ledgerDispositionNew))
  then tx_fail (reason ReasonDependencyUnavailable "ledger_outcome")
  else
    let> copyCount := call_checked (dependencyError "copy telemetry samples")
                        (CopyFrom (mkCopySource (Message_Samples message) 0)) in
    if negb (copyCount =? lm_sampleCount metadata)
    then tx_fail (EWrap "telemetry sample copy count mismatch" (reason ReasonDependencyUnavailable ""))
    else
      let> _ := applySensorReportedState now resource message in
      let> _ := appendSensorSampleIntervalTemporal resource message in
      tx_ret (mkPersistResult identity CommitOutcomeCommitted copyCount).

(** [ctx] is false for a nil context. *)
Definition Persist (w : Weather) (ctx : bool) (message : option (Message uuid)) (db : DB uuid)
    : res error (PersistResult uuid) * DB uuid :=
  match ledgerMetadata message with
  | Err e => (Err e, db)
  | Ok metadata =>
      if negb ctx then (Err (reason ReasonInvalidPayload "context"), db)
      else match w_begin w with
      | Fails cause => (Err (dependencyError "begin telemetry transaction" cause), db)
      | Works =>
          match persist_body (w_now w) metadata message db (w_calls w) with
          | Err e => (Err e, db)
          | Ok (result, working, _) => commit w db working result
          end
      end
  end.

End persist.

Arguments ledgerMessage : clear implicits.
Arguments resolvedTelemetryResource : clear implicits.
Arguments telemetryCopySource : clear implicits.
Arguments reportedStateCandidate : clear implicits.
