(* ===== verification/PersistSpec.v ===== *)
(** * What [Persist] guarantees

    Atomicity and error reporting, the effect of a committed message, duplicate
    detection, and the invariants of the ledger, the raw samples and the
    reported state that every call preserves. *)

From S2P Require Import Prelude GoStrings GoSha256 GoTime GoFloat GoJson Uuid Identity Telemetry Decode Validation.
From S2P Require Import Message Txn Store Persist.
#[local] Open Scope Z_scope.

Section spec.
Context {uuid : Type} `{!UuidLib uuid}.
Implicit Types (db : DB uuid) (m : Message uuid) (entry md : ledgerMessage uuid) (ss : list (SampleCandidate uuid)).

(** ** The effect of one message *)

Definition new_rows (db : DB uuid) (ss : list (SampleCandidate uuid)) : list (TelemetryRow uuid) :=
  imap (fun i s => telemetry_row (sample_id_seq db + Z.of_nat i) s) ss.

(** The state row after the message: replaced when the candidate advances it. *)
Definition state_after (now : Z) (cand : reportedStateCandidate uuid) (st : TwinState) : option TwinState :=
  if sensorStateAdvances (st_reported_state st) (time_of_tz <$> st_last_reported_at st) cand then
    merge ← candidate_merge cand;
    Some (mkTwinState (jsonb_concat (st_reported_state st) (JsonbObject merge)) (st_desired_state st)
            (st_reported_version st + 1) (st_desired_version st) (Some (timestamptz (c_observedAt cand)))
            (st_last_desired_at st) now)
  else Some st.

(** [committed_effect]: everything a new message writes, and nothing else. *)
Record committed_effect (now : Z) (db : DB uuid) (m : Message uuid) (md : ledgerMessage uuid)
    (resource : resolvedTelemetryResource uuid) (db' : DB uuid) : Prop := {
  eff_absent : processed_messages db !! ledger_key md = None;
  eff_ledger : processed_messages db' = <[ledger_key md := ledger_row md]> (processed_messages db);
  eff_no_overlap : overlap_exists md db' = false;
  eff_rows : telemetry db' = telemetry db ++ new_rows db (samples m);
  eff_seq : sample_id_seq db' = sample_id_seq db + Z.of_nat (length (samples m));
  eff_state : exists cand st st', newReportedStateCandidate resource (Some m) = Ok cand
    /\ twin_states db !! r_EntityID resource = Some st /\ 0 <= st_reported_version st
    /\ state_after now cand st = Some st'
    /\ twin_states db' = <[r_EntityID resource := st']> (twin_states db);
  eff_interval : 0 < SampleIntervalUS (batch m) <= maxExactFloat64Integer;
  eff_temporal : exists last, LastSample (Some m) = Some last
    /\ twin_temporal_values db' = twin_temporal_values db
         ++ [temporal_row resource last (SampleIntervalUS (batch m))];
  eff_others : gateways db' = gateways db /\ sensors db' = sensors db
    /\ twin_entities db' = twin_entities db /\ twin_relationships db' = twin_relationships db;
}.

(** ** Steps *)

Lemma copy_drain_from fuel ss k : (length ss - k < fuel)%nat ->
  copy_drain fuel (mkCopySource ss k) = Ok (drop k ss).
Proof.
  revert k. induction fuel as [|fuel IH]; intros k Hf; [lia|]. cbn [copy_drain].
  unfold copy_Values, copy_Next. cbn [src_next src_samples].
  destruct (k <? length ss)%nat eqn:E; cbn [negb].
  - apply Nat.ltb_lt in E. destruct (lookup_lt_is_Some_2 ss k E) as [s Hs]. rewrite Hs.
    rewrite IH by lia. cbn. by rewrite (drop_S _ _ _ Hs).
  - apply Nat.ltb_ge in E. by rewrite drop_ge.
Qed.

Lemma copy_rows_ok ss : forall rows id rows' id', copy_rows rows id ss = Ok (rows', id') ->
  rows' = rows ++ imap (fun i s => telemetry_row (id + Z.of_nat i) s) ss
  /\ id' = id + Z.of_nat (length ss).
Proof.
  induction ss as [|s ss IH]; intros rows id rows' id' H; cbn [copy_rows] in H.
  { injection H as <- <-. cbn. rewrite app_nil_r. split; [done|lia]. }
  destruct (existsb _ rows); [done|]. apply IH in H as [-> ->]. rewrite <- app_assoc. cbn.
  split; [|lia]. f_equal. rewrite Z.add_0_r. f_equal.
  apply imap_ext. intros i x _. cbn. f_equal. lia.
Qed.

Lemma CopyFrom_ok ss db n db' : CopyFrom (mkCopySource ss 0) db = Ok (n, db') ->
  n = Z.of_nat (length ss) /\ db' = mkDB (gateways db) (sensors db) (processed_messages db)
    (telemetry db ++ new_rows db ss) (sample_id_seq db + Z.of_nat (length ss)) (twin_entities db)
    (twin_relationships db) (twin_states db) (twin_temporal_values db).
Proof.
  unfold CopyFrom. cbn [src_samples]. rewrite copy_drain_from by lia. cbn [mbind res_bind].
  rewrite drop_0. intros H. destruct (copy_rows _ _ _) as [[rows id]|] eqn:E; [|done].
  cbn in H. injection H as <- <-. by apply copy_rows_ok in E as [-> ->].
Qed.

(** Inverts the binds of a transaction that succeeded. *)
Ltac inv_tx H :=
  repeat match type of H with
  | tx_bind _ _ _ _ = Ok _ =>
      let a := fresh "a" in let db1 := fresh "db" in let rs1 := fresh "rs" in let E := fresh "E" in
      apply tx_bind_ok in H as (a & db1 & rs1 & E & H); cbv beta in H;
      try (apply query_ok in E as [-> ->])
  | tx_ret _ _ _ = Ok _ => unfold tx_ret in H; injection H as H; subst
  | tx_fail _ _ _ = Ok _ => discriminate H
  | (if ?b then _ else _) _ _ = Ok _ => destruct b eqn:?
  | match ?x with _ => _ end _ _ = Ok _ => destruct x eqn:?
  | (let '(_, _) := ?x in _) _ _ = Ok _ => destruct x eqn:?
  end.

Lemma resolve_ok m db rs r db' rs' : resolveTelemetryResource (Some m) db rs = Ok (r, db', rs') ->
  db' = db /\ r_GatewayID r = t_GatewayID (topic m) /\ r_SensorID r = t_SensorID (topic m)
  /\ t_GatewayID (topic m) ∈ gateways db
  /\ sensors db !! (t_GatewayID (topic m), t_SensorID (topic m)) = Some (r_Unit r).
Proof.
  unfold resolveTelemetryResource. cbn [Message_Topic]. intros H. inv_tx H.
  gobool. by subst.
Qed.

Lemma tx_of_res_ok {A} (r : res error A) db rs a db' rs' :
  tx_of_res r db rs = Ok (a, db', rs') -> r = Ok a /\ db' = db.
Proof. destruct r; cbn; [|done]. unfold tx_ret. naive_solver. Qed.

Lemma classify_conflict_dup md row d : classify_conflict md row = Ok d ->
  d = ledgerDispositionDuplicate /\ l_payload_hash row = lm_payloadHash md
  /\ l_source_topic row = Some (SourceTopic (lm_topic md)) /\ l_sensor_id row = Some (lm_sensorID md)
  /\ l_boot_id row = Some (lm_bootID md)
  /\ l_first_sequence row = Some (s_SequenceNum (lm_firstSample md))
  /\ l_last_sequence row = Some (s_SequenceNum (lm_lastSample md))
  /\ l_sample_count row = Some (lm_sampleCount md).
Proof.
  unfold classify_conflict.
  destruct (l_source_topic row), (l_sensor_id row), (l_boot_id row), (l_first_sequence row),
    (l_last_sequence row), (l_sample_count row); try discriminate.
  intros H. inv_ok H. gobool. by subst.
Qed.

Lemma insertTelemetryLedger_ok m db rs d db' rs' :
  insertTelemetryLedger (Some m) db rs = Ok (d, db', rs') -> exists md, ledgerMetadata (Some m) = Ok md /\
  ((d = ledgerDispositionNew /\ processed_messages db !! ledger_key md = None
    /\ db' = mkDB (gateways db) (sensors db) (<[ledger_key md := ledger_row md]> (processed_messages db))
         (telemetry db) (sample_id_seq db) (twin_entities db) (twin_relationships db) (twin_states db)
         (twin_temporal_values db)
    /\ overlap_exists md db' = false)
   \/ (d = ledgerDispositionDuplicate /\ db' = db
       /\ exists row, processed_messages db !! ledger_key md = Some row
            /\ classify_conflict md row = Ok ledgerDispositionDuplicate)).
Proof.
  unfold insertTelemetryLedger. intros H.
  apply tx_bind_ok in H as (md & db0 & rs0 & E & H). apply tx_of_res_ok in E as [E ->].
  exists md. split; [done|].
  apply tx_bind_ok in H as (ins & db1 & rs1 & Ei & H). apply call_ok in Ei.
  unfold insert_ledger_row in Ei. destruct (processed_messages db !! ledger_key md) as [row|] eqn:Erow.
  - injection Ei as <- <-. inv_tx H. right. injection Erow as <-.
    apply tx_of_res_ok in H as [H ->]. assert (d = ledgerDispositionDuplicate) as ->.
    { by apply classify_conflict_dup in H as [-> _]. }
    eauto 10.
  - injection Ei as <- <-. inv_tx H. left. done.
Qed.

Lemma applySensorReportedState_ok now resource m db rs b db' rs' :
  applySensorReportedState now resource (Some m) db rs = Ok (b, db', rs') ->
  exists cand st st', newReportedStateCandidate resource (Some m) = Ok cand
    /\ twin_states db !! r_EntityID resource = Some st /\ 0 <= st_reported_version st
    /\ state_after now cand st = Some st'
    /\ b = sensorStateAdvances (st_reported_state st) (time_of_tz <$> st_last_reported_at st) cand
    /\ db' = set_twin_states db (<[r_EntityID resource := st']> (twin_states db)).
Proof.
  unfold applySensorReportedState. destruct (bool_decide (r_EntityID resource = uuid_Nil)); [done|]. intros H.
  apply tx_bind_ok in H as (cand & db0 & rs0 & E & H). apply tx_of_res_ok in E as [E ->].
  apply tx_bind_ok in H as (row & db1 & rs1 & Er & H). apply query_ok in Er as [-> ->].
  destruct (twin_states db !! r_EntityID resource) as [st|] eqn:Est; [|done].
  destruct (st_reported_version st <? 0) eqn:Hv; [done|]. apply Z.ltb_ge in Hv.
  exists cand, st. unfold state_after.
  destruct (sensorStateAdvances _ _ _); cbn [negb] in H.
  - apply tx_bind_ok in H as (n & db2 & rs2 & Ec & H). apply call_checked_ok in Ec.
    destruct (candidate_merge cand) as [merge|]; [|done]. unfold advance_state in Ec. rewrite Est in Ec.
    rewrite Z.eqb_refl in Ec. destruct (st_reported_version st =? max_int64); [done|].
    injection Ec as <- <-. cbn in H. unfold tx_ret in H. injection H as <- <- _.
    eexists. by repeat (split; [done|]).
  - unfold tx_ret in H. injection H as <- <- _. exists st. repeat (split; [done|]).
    rewrite insert_id by done. by destruct db.
Qed.

Lemma appendTemporal_ok resource m db rs u db' rs' :
  appendSensorSampleIntervalTemporal resource (Some m) db rs = Ok (u, db', rs') ->
  0 < SampleIntervalUS (batch m) <= maxExactFloat64Integer /\ exists last, LastSample (Some m) = Some last
    /\ db' = (append_temporal (temporal_row resource last (SampleIntervalUS (batch m))) db).2.
Proof.
  unfold appendSensorSampleIntervalTemporal. destruct (bool_decide (_ = uuid_Nil)); [done|].
  destruct (LastSample (Some m)) as [last|]; [|done]. intros H.
  destruct (_ || _) eqn:Hi; [done|]. gobool. split; [lia|]. exists last. split; [done|]. apply tx_bind_ok in H as (n & db1 & rs1 & E & H).
  apply call_ok in E. injection E as <- <-. cbn in H. unfold tx_ret in H. by injection H as _ <- _.
Qed.

(** The two ways the statements of the transaction succeed. *)
Lemma persist_body_ok now md m db rs r db' rs' : ledgerMetadata (Some m) = Ok md ->
  persist_body now md (Some m) db rs = Ok (r, db', rs') ->
  id_MessageID (Identity r) = lm_messageID md /\ id_BootID (Identity r) = lm_bootID md
  /\ id_GatewayID (Identity r) = t_GatewayID (topic m) /\ id_SensorID (Identity r) = t_SensorID (topic m)
  /\ ((Outcome r = CommitOutcomeDuplicateCommitted /\ SamplesSaved r = 0 /\ db' = db
       /\ exists row, processed_messages db !! ledger_key md = Some row
            /\ classify_conflict md row = Ok ledgerDispositionDuplicate)
      \/ (Outcome r = CommitOutcomeCommitted /\ SamplesSaved r = Z.of_nat (length (samples m))
          /\ exists resource, committed_effect now db m md resource db'
               /\ r_GatewayID resource = t_GatewayID (topic m)
               /\ r_SensorID resource = t_SensorID (topic m))).
Proof.
  intros Hmd H. unfold persist_body in H.
  apply tx_bind_ok in H as (res & db0 & rs0 & Er & H).
  apply resolve_ok in Er as (-> & Hg & Hs & Hgw & Hsens).
  apply tx_bind_ok in H as (d & db1 & rs1 & El & H).
  apply insertTelemetryLedger_ok in El as (md' & Hmd' & Hl). rewrite Hmd in Hmd'. injection Hmd' as <-.
  destruct Hl as [(-> & Hnone & -> & Hov)|(-> & -> & row & Hrow & Hc)].
  2:{ rewrite bool_decide_true in H by done. unfold tx_ret in H. injection H as <- <- _.
      split_and!; try done. left. eauto 10. }
  cbn in H. apply tx_bind_ok in H as (n & db2 & rs2 & Ec & H). apply call_checked_ok in Ec.
  apply CopyFrom_ok in Ec as [-> ->].
  destruct (negb (Z.of_nat (length (samples m)) =? lm_sampleCount md)); [done|].
  apply tx_bind_ok in H as (b & db3 & rs3 & Es & H).
  apply applySensorReportedState_ok in Es as (cand & st & st' & Hcand & Hst & Hv & Hafter & _ & ->).
  apply tx_bind_ok in H as (u & db4 & rs4 & Et & H).
  apply appendTemporal_ok in Et as (Hint & last & Hlast & ->).
  unfold tx_ret in H. injection H as <- <- _. cbn in *.
  split_and!; try done. right. split; [done|]. split; [done|]. exists res.
  split; [|done]. constructor; cbn; eauto 10.
Qed.

(** ** Atomicity *)

(** The error left by an uncertain commit, and only that one, carries
    [commit_unconfirmed]. *)
Definition unconfirmed (e : error) : bool :=
  bool_decide (ClassifyFailure (Some e) = FailureCommitUnconfirmed).

Lemma persist_outcome w ctx m db result db' : Persist w ctx (Some m) db = (result, db') ->
  match result with
  | Ok r => exists md, ledgerMetadata (Some m) = Ok md /\
      ((Outcome r = CommitOutcomeDuplicateCommitted /\ db' = db
        /\ exists row, processed_messages db !! ledger_key md = Some row
             /\ classify_conflict md row = Ok ledgerDispositionDuplicate)
       \/ (Outcome r = CommitOutcomeCommitted /\ SamplesSaved r = Z.of_nat (length (samples m))
           /\ exists resource, committed_effect (w_now w) db m md resource db'))
  | Err e => db' = db \/ (exists cause, e = commitUnconfirmedError cause /\ exists md resource,
      ledgerMetadata (Some m) = Ok md /\ committed_effect (w_now w) db m md resource db')
  end.
Proof.
  unfold Persist. intros H. destruct (ledgerMetadata (Some m)) as [md|e] eqn:Hmd.
  2:{ injection H as <- <-. by left. }
  destruct (negb ctx); [injection H as <- <-; by left|].
  destruct (w_begin w) as [|cause]; [|injection H as <- <-; by left].
  destruct (persist_body _ _ _ _ _) as [[[r working] rs']|e] eqn:Eb; [|injection H as <- <-; by left].
  apply persist_body_ok in Eb as (_ & _ & _ & _ & Hr); [|done].
  unfold commit in H. destruct (w_commit w) as [|cause durable].
  - injection H as <- <-. exists md. split; [done|].
    destruct Hr as [(Ho & _ & -> & Hrow)|(Ho & Hn & resource & Heff & _)]; [left; eauto|right; eauto].
  - injection H as <- <-. destruct durable; [|by left].
    destruct Hr as [(_ & _ & -> & _)|(_ & _ & resource & Heff & _)]; [by left|right; eauto 10].
Qed.

Lemma persist_cases w ctx m md db result db' : ledgerMetadata (Some m) = Ok md ->
  Persist w ctx (Some m) db = (result, db') ->
  db' = db \/ exists resource, committed_effect (w_now w) db m md resource db'.
Proof.
  intros Hmd H. apply persist_outcome in H. destruct result as [r|e].
  - destruct H as (md' & E & H). rewrite Hmd in E. injection E as <-.
    destruct H as [(_ & -> & _)|(_ & _ & ?)]; [by left|by right].
  - destruct H as [->|(_ & _ & md' & resource & E & H)]; [by left|].
    rewrite Hmd in E. injection E as <-. right. eauto.
Qed.

(** ** Ledger entries of validated messages *)

(** The entry of a validated message: its identifiers, hash and exact range. *)
Record entry_of (m : Message uuid) (md : ledgerMessage uuid) : Prop := {
  ent_topic : lm_topic md = topic m;
  ent_hash : lm_payloadHash md = payloadHash m;
  ent_sensor : lm_sensorID md = SensorID (batch m);
  ent_boot : lm_bootID md = BootID (batch m);
  ent_message : lm_messageID md = MessageID (batch m);
  ent_first : s_SequenceNum (lm_firstSample md) = FirstSequence (batch m);
  ent_last : s_SequenceNum (lm_lastSample md) = FirstSequence (batch m) + SampleCount (batch m) - 1;
  ent_count : lm_sampleCount md = SampleCount (batch m);
}.

Lemma sample_ids m i s : message_ok m -> samples m !! i = Some s ->
  s_GatewayID s = GatewayID (batch m) /\ s_SensorID s = SensorID (batch m)
  /\ s_BootID s = BootID (batch m) /\ s_MessageID s = MessageID (batch m)
  /\ s_SampleIndex s = Z.of_nat i /\ s_SequenceNum s = FirstSequence (batch m) + Z.of_nat i.
Proof.
  intros Hm Hs. destruct (mok_samples _ Hm) as (first & Hf & _).
  rewrite (message_sample m first i Hm Hf), fmap_Some in Hs. by destruct Hs as (v & _ & ->).
Qed.

Lemma str_app_nonempty a b : a <> "" -> a +:+ b <> "".
Proof. by destruct a. Qed.

Lemma ledgerMetadata_valid m : message_ok m -> exists md, ledgerMetadata (Some m) = Ok md /\ entry_of m md.
Proof.
  intros Hm. destruct (first_last_sample m Hm) as (first & s0 & s1 & Hf & H0 & H1 & Hq0 & Hq1 & _).
  pose proof (message_samples_length m Hm) as Hlen. pose proof (mok_count _ Hm) as Hc.
  pose proof (mok_first _ Hm) as Hfirst. pose proof (mok_last _ Hm) as Hlast.
  assert (I0 := sample_ids m _ _ Hm H0). assert (I1 := sample_ids m _ _ Hm H1).
  destruct I0 as (G0 & S0 & B0 & M0 & X0 & _), I1 as (G1 & S1 & B1 & M1 & X1 & _).
  destruct (mok_message _ Hm) as (Hnil & _), (mok_boot _ Hm) as (Hbnil & _).
  pose proof (pattern_nonempty _ (valid_gateway_pattern _ (mok_gateway _ Hm))).
  pose proof (pattern_nonempty _ (valid_sensor_pattern _ (mok_sensor _ Hm))).
  unfold ledgerMetadata. rewrite H0, H1. cbn [Message_Topic].
  rewrite (mok_topic _ Hm). cbn [t_GatewayID t_SensorID SourceTopic].
  rewrite (mok_hash _ Hm), G0, G1, S0, S1, B0, B1, M0, M1, X0, X1, Hq0, Hq1.
  bdec ltac:(first [done | apply sha256_hex_nonempty | by apply str_app_nonempty]).
  in_width. rewrite (wrap32_id (Z.of_nat _ - 1)) by (in_width; lia).
  unfold int64_sub. rewrite (wrap64_id (_ - FirstSequence _)) by (in_width; lia).
  assert (Hidx : Z.of_nat (length (samples m) - 1) = Z.of_nat (length (samples m)) - 1) by lia.
  rewrite Hidx. cbn [orb negb].
  repeat match goal with |- context [if ?b then _ else _] =>
    replace b with false by (symmetry; rewrite !orb_false_iff, ?negb_false_iff, ?Z.eqb_eq, ?Z.eqb_neq, ?Z.ltb_ge; lia) end.
  eexists. split; [reflexivity|]. constructor; cbn; try done.
  - by rewrite (mok_topic _ Hm).
  - by rewrite (mok_hash _ Hm).
  - rewrite wrap32_id by (in_width; lia). done.
Qed.

Lemma classify_own_row m md : message_ok m -> entry_of m md ->
  classify_conflict md (ledger_row md) = Ok ledgerDispositionDuplicate.
Proof.
  intros Hm []. pose proof (mok_count _ Hm). pose proof (mok_first _ Hm). pose proof (mok_last _ Hm).
  unfold classify_conflict, ledger_row. cbn. rewrite ent_first0, ent_last0, ent_count0.
  unfold int64_sub. in_width. rewrite wrap64_id by (in_width; lia).
  rewrite !bool_decide_true, !Z.eqb_refl by done. cbn [orb negb].
  replace (_ || _) with false; [done|]. symmetry.
  rewrite !orb_false_iff, negb_false_iff, Z.eqb_eq, Z.leb_gt, !Z.ltb_ge. lia.
Qed.

(** ** The contract *)

(** C15 Persist is atomic and honest.  A nil error means the transaction
    is durable: either the stored row already recorded this very message and
    nothing changed, or every write of the new message is in place.  Any error
    other than [commit_unconfirmed] leaves the database as it was; after a
    [commit_unconfirmed] error it holds either all of the message or none. *)
Theorem Persist_atomic w ctx m db result db' : Persist w ctx (Some m) db = (result, db') ->
  match result with
  | Ok r => exists md, ledgerMetadata (Some m) = Ok md /\
      ((Outcome r = CommitOutcomeDuplicateCommitted /\ db' = db
        /\ exists row, processed_messages db !! ledger_key md = Some row
             /\ classify_conflict md row = Ok ledgerDispositionDuplicate)
       \/ (Outcome r = CommitOutcomeCommitted /\ SamplesSaved r = Z.of_nat (length (samples m))
           /\ exists resource, committed_effect (w_now w) db m md resource db'))
  | Err e => db' = db \/ (exists cause, e = commitUnconfirmedError cause /\ exists md resource,
      ledgerMetadata (Some m) = Ok md /\ committed_effect (w_now w) db m md resource db')
  end.
Proof. exact (persist_outcome w ctx m db result db'). Qed.

End spec.

(** * Invariants of the telemetry tables

    Every [Persist] call, whatever the database answers, keeps the ledger's
    sequence ranges disjoint, keeps ledger and raw samples in step, and only
    moves a Sensor's reported state forward. *)

Section inv.
Context {uuid : Type} `{!UuidLib uuid}.
Implicit Types (db : DB uuid) (m : Message uuid) (md : ledgerMessage uuid).

(** ** Disjoint sequence ranges *)

(** Two ledger rows record overlapping ranges of one Sensor's boot. *)
Definition rows_overlap (k1 k2 : string * uuid) (r1 r2 : LedgerRow uuid) : Prop :=
  k1.1 = k2.1 /\ (exists s b, l_sensor_id r1 = Some s /\ l_sensor_id r2 = Some s
    /\ l_boot_id r1 = Some b /\ l_boot_id r2 = Some b)
  /\ exists f1 e1 f2 e2, l_first_sequence r1 = Some f1 /\ l_last_sequence r1 = Some e1
       /\ l_first_sequence r2 = Some f2 /\ l_last_sequence r2 = Some e2 /\ f1 <= e2 /\ f2 <= e1.

Definition ranges_disjoint (db : DB uuid) : Prop :=
  forall k1 k2 r1 r2, k1 <> k2 -> processed_messages db !! k1 = Some r1 ->
    processed_messages db !! k2 = Some r2 -> ~ rows_overlap k1 k2 r1 r2.

Lemma rows_overlap_sym k1 k2 r1 r2 : rows_overlap k1 k2 r1 r2 -> rows_overlap k2 k1 r2 r1.
Proof.
  intros (Hk & (s & b & Hs) & f1 & e1 & f2 & e2 & H). split; [done|].
  split; [exists s, b; tauto|]. exists f2, e2, f1, e1. tauto.
Qed.

(** The overlap query finds every row that overlaps the entry. *)
Lemma overlap_complete md db k r : overlap_exists md db = false -> k <> ledger_key md ->
  processed_messages db !! k = Some r -> ~ rows_overlap (ledger_key md) k (ledger_row md) r.
Proof.
  intros Hno Hk Hr (Hg & (s & b & Hs1 & Hs2 & Hb1 & Hb2) & f1 & e1 & f2 & e2 & Hf1 & He1 & Hf2 & He2 & Hle1 & Hle2).
  destruct k as [g mid]. cbn in *. subst g. simplify_eq.
  apply not_true_iff_false in Hno. apply Hno. unfold overlap_exists. rewrite existsb_exists.
  exists ((t_GatewayID (lm_topic md), mid), r). split.
  { apply list_elem_of_In. by apply elem_of_map_to_list. }
  assert (mid <> lm_messageID md) by (intros ->; by apply Hk).
  unfold overlaps. rewrite Hf2, He2, Hs2, Hb2. bdec ltac:(first [done | congruence]).
  cbn in *. apply Z.leb_le in Hle1, Hle2. by rewrite Hle1, Hle2.
Qed.

Lemma effect_ranges_disjoint now db m md resource db' : committed_effect now db m md resource db' ->
  ranges_disjoint db -> ranges_disjoint db'.
Proof.
  intros Heff Hd k1 k2 r1 r2 Hk H1 H2.
  pose proof (eff_no_overlap _ _ _ _ _ _ Heff) as Hno.
  assert (Hnew : forall k r, k <> ledger_key md -> processed_messages db' !! k = Some r ->
    ~ rows_overlap (ledger_key md) k (ledger_row md) r) by (intros k r; by apply overlap_complete).
  assert (Hrow : forall k r, processed_messages db' !! k = Some r ->
    (k = ledger_key md /\ r = ledger_row md) \/ (k <> ledger_key md /\ processed_messages db !! k = Some r)).
  { intros k r Hr. rewrite (eff_ledger _ _ _ _ _ _ Heff), lookup_insert_Some in Hr. naive_solver. }
  destruct (Hrow _ _ H1) as [[-> ->]|[Hk1 H1']], (Hrow _ _ H2) as [[-> ->]|[Hk2 H2']].
  - done.
  - by apply Hnew.
  - intros Hov. apply rows_overlap_sym in Hov. by eapply Hnew.
  - by eapply Hd.
Qed.

(** ** Ledger and raw samples *)

(** The raw samples stored for a message. *)
Definition rows_of (db : DB uuid) (k : string * uuid) : list (TelemetryRow uuid) :=
  filter (fun r => tr_gateway_id r = k.1 /\ tr_message_id r = Some k.2) (telemetry db).

(** The rows of a ledger entry: one per sequence number of its range, in
    order, with its Sensor and boot. *)
Definition rows_match (row : LedgerRow uuid) (rows : list (TelemetryRow uuid)) : Prop :=
  exists first count, l_first_sequence row = Some first /\ l_sample_count row = Some count
    /\ Z.of_nat (length rows) = count
    /\ forall i r, rows !! i = Some r -> tr_sequence_num r = first + Z.of_nat i
         /\ tr_sample_index r = Some (Z.of_nat i) /\ Some (tr_sensor_id r) = l_sensor_id row
         /\ tr_boot_id r = l_boot_id row.

(** A message has raw samples exactly when the ledger has it, and then each of
    its samples once.  Ledger rows from before the provenance columns have
    none. *)
Definition samples_in_step (db : DB uuid) : Prop :=
  forall k, match processed_messages db !! k with
    | Some row => l_first_sequence row = None \/ rows_match row (rows_of db k)
    | None => rows_of db k = []
    end.

Lemma entry_key m md : message_ok m -> entry_of m md -> ledger_key md = (GatewayID (batch m), MessageID (batch m)).
Proof. intros Hm Hent. unfold ledger_key. by rewrite (ent_topic _ _ Hent), (ent_message _ _ Hent), (mok_topic _ Hm). Qed.

Lemma new_rows_lookup db ss i r : new_rows db ss !! i = Some r ->
  exists s, ss !! i = Some s /\ r = telemetry_row (sample_id_seq db + Z.of_nat i) s.
Proof. intros Hr. unfold new_rows in Hr. rewrite list_lookup_imap, fmap_Some in Hr. naive_solver. Qed.

(** A commit adds the samples of its message, and no others. *)
Lemma effect_rows_of now db m md resource db' k : message_ok m -> entry_of m md ->
  committed_effect now db m md resource db' ->
  rows_of db' k = if decide (k = ledger_key md) then rows_of db k ++ new_rows db (samples m) else rows_of db k.
Proof.
  intros Hm Hent Heff. unfold rows_of. rewrite (eff_rows _ _ _ _ _ _ Heff), list.filter_app.
  assert (Hgm : forall i r, new_rows db (samples m) !! i = Some r ->
    tr_gateway_id r = GatewayID (batch m) /\ tr_message_id r = Some (MessageID (batch m))).
  { intros i r Hr. destruct (new_rows_lookup _ _ _ _ Hr) as (s & Hs & ->).
    destruct (sample_ids m i s Hm Hs) as (Hg & _ & _ & Hmid & _). cbn. by rewrite Hg, Hmid. }
  rewrite (entry_key _ _ Hm Hent). destruct (decide _) as [->|Hk].
  - by rewrite (filter_all _ (new_rows db (samples m))) by (intros i r Hr; exact (Hgm i r Hr)).
  - rewrite (filter_none _ (new_rows db (samples m))), app_nil_r; [done|].
    intros i r Hr [E1 E2]. apply Hgm in Hr as [Hg Hmid]. apply Hk. destruct k as [g mid]. cbn in *. congruence.
Qed.

Lemma effect_samples_in_step now db m md resource db' : message_ok m -> entry_of m md ->
  committed_effect now db m md resource db' -> samples_in_step db -> samples_in_step db'.
Proof.
  intros Hm Hent Heff Hin k. rewrite (effect_rows_of _ _ _ _ _ _ k Hm Hent Heff), (eff_ledger _ _ _ _ _ _ Heff).
  destruct (decide (k = ledger_key md)) as [->|Hk]; [|rewrite lookup_insert_ne by congruence; exact (Hin k)].
  rewrite lookup_insert_eq. right. specialize (Hin (ledger_key md)).
  rewrite (eff_absent _ _ _ _ _ _ Heff) in Hin. rewrite Hin. cbn [app].
  exists (FirstSequence (batch m)), (SampleCount (batch m)).
  cbn. rewrite (ent_first _ _ Hent), (ent_count _ _ Hent). split_and!; [done..| |].
  - unfold new_rows. rewrite length_imap. by apply message_samples_length.
  - intros i r Hr. destruct (new_rows_lookup _ _ _ _ Hr) as (s & Hs & ->).
    destruct (sample_ids m i s Hm Hs) as (_ & Hsn & Hb & _ & Hidx & Hseq).
    cbn. rewrite Hsn, Hb, Hidx, Hseq, (ent_sensor _ _ Hent), (ent_boot _ _ Hent). done.
Qed.

(** ** Reported state *)

(** The state row moves forward: nothing changes, or the version grows by one,
    the report time does not go back, and the desired half is kept. *)
Definition state_progress (st st' : TwinState) : Prop :=
  st' = st \/
  (st_reported_version st' = st_reported_version st + 1
   /\ st_desired_state st' = st_desired_state st /\ st_desired_version st' = st_desired_version st
   /\ st_last_desired_at st' = st_last_desired_at st
   /\ exists t', st_last_reported_at st' = Some t'
       /\ match st_last_reported_at st with None => True | Some t => t <= t' end).

Lemma state_after_progress now cand st st' : state_after now cand st = Some st' -> state_progress st st'.
Proof.
  unfold state_after. destruct (sensorStateAdvances _ _ cand) eqn:Ha; [|intros [= <-]; by left].
  destruct (candidate_merge cand) as [merge|]; [|done]. cbn. intros [= <-]. right. cbn.
  split_and!; try done. eexists. split; [reflexivity|].
  destruct (st_last_reported_at st) as [t|]; [|done]. unfold timestamptz.
  unfold sensorStateAdvances in Ha. cbn in Ha. unfold After, time_Equal, time_of_tz in Ha. cbn in Ha.
  destruct (t * 1000 <? unix_ns (c_observedAt cand)) eqn:E1.
  - apply Z.ltb_lt in E1. dlia.
  - destruct (unix_ns (c_observedAt cand) =? t * 1000) eqn:E2; [|done].
    apply Z.eqb_eq in E2. rewrite E2. by rewrite Z.div_mul.
Qed.

Lemma effect_state_progress now db m md resource db' id st : committed_effect now db m md resource db' ->
  twin_states db !! id = Some st -> exists st', twin_states db' !! id = Some st' /\ state_progress st st'.
Proof.
  intros Heff Hst. destruct (eff_state _ _ _ _ _ _ Heff) as (cand & st0 & st' & _ & H0 & _ & Ha & ->).
  destruct (decide (id = r_EntityID resource)) as [->|Hne].
  - rewrite H0 in Hst. injection Hst as <-. rewrite lookup_insert_eq. eauto using state_after_progress.
  - rewrite lookup_insert_ne by done. exists st. split; [done|by left].
Qed.

(** ** The invariant *)

Record telemetry_inv (db : DB uuid) : Prop := {
  inv_ranges : ranges_disjoint db;
  inv_samples : samples_in_step db;
}.

(** C27 Whatever the database answers, persisting a validated message
    keeps the ledger ranges of every Sensor boot disjoint and keeps ledger and
    raw samples in step (each recorded message has each of its samples exactly
    once, no other message has any); no ledger row is ever changed or removed,
    no raw sample or temporal observation is removed, and every reported state
    stays or moves forward with its desired half untouched. *)
Theorem Persist_preserves w ctx m db result db' : message_ok m ->
  Persist w ctx (Some m) db = (result, db') -> telemetry_inv db ->
  telemetry_inv db' /\ processed_messages db ⊆ processed_messages db'
  /\ telemetry db `prefix_of` telemetry db'
  /\ twin_temporal_values db `prefix_of` twin_temporal_values db'
  /\ (forall id st, twin_states db !! id = Some st ->
       exists st', twin_states db' !! id = Some st' /\ state_progress st st').
Proof.
  intros Hm H [Hr Hs]. destruct (ledgerMetadata_valid m Hm) as (md & Hmd & Hent).
  destruct (persist_cases _ _ _ _ _ _ _ Hmd H) as [->|[resource Heff]].
  { split; [done|]. do 3 (split; [done|]). intros id st Hst. exists st. split; [done|by left]. }
  split; [split; [by eapply effect_ranges_disjoint|by eapply effect_samples_in_step]|].
  split_and!.
  - rewrite (eff_ledger _ _ _ _ _ _ Heff). apply insert_subseteq. exact (eff_absent _ _ _ _ _ _ Heff).
  - rewrite (eff_rows _ _ _ _ _ _ Heff). by eexists.
  - destruct (eff_temporal _ _ _ _ _ _ Heff) as (last & _ & ->). by eexists.
  - intros id st Hst. by eapply effect_state_progress.
Qed.

End inv.

(** * Redelivery, conflicts, failures and progress of [Persist]

    A message that reached the ledger is recognised on every later delivery,
    a different message under the same identifier is refused, every failure
    carries a known reason, and without faults a new message is stored. *)

Create HintDb failures.

Section redelivery.
Context {uuid : Type} `{!UuidLib uuid}.
Implicit Types (db : DB uuid) (m : Message uuid) (md : ledgerMessage uuid) (w : Weather).

(** A database that answers every call and commits. *)
Definition clear_sky (w : Weather) : Prop :=
  w_begin w = Works /\ w_calls w = [] /\ w_commit w = CommitOk.

(** The provisioned graph of the message's Gateway and Sensor. *)
Definition provisioned (db : DB uuid) (m : Message uuid) (r : resolvedTelemetryResource uuid) : Prop :=
  let g := t_GatewayID (topic m) in let s := t_SensorID (topic m) in
  g ∈ gateways db /\ sensors db !! (g, s) = Some (r_Unit r) /\ r_GatewayID r = g /\ r_SensorID r = s
  /\ exists ge rest, twin_graph_rows (GatewayEntityID g) (SensorEntityID g s) g db
       = (ge, r_EntityID r, true) :: rest /\ ge <> uuid_Nil /\ r_EntityID r <> uuid_Nil.

Lemma resolve_provisioned m db rs r db' rs' :
  resolveTelemetryResource (Some m) db rs = Ok (r, db', rs') -> provisioned db m r.
Proof.
  unfold resolveTelemetryResource. cbn [Message_Topic]. destruct (_ || _); [done|]. intros H.
  apply tx_bind_ok in H as (b & db0 & rs0 & E & H). apply query_ok in E as [-> ->].
  destruct (bool_decide (_ ∈ gateways db)) eqn:Hg; [|done]. apply bool_decide_eq_true in Hg. cbn [negb] in H.
  apply tx_bind_ok in H as (row & db1 & rs1 & E & H). apply query_ok in E as [-> ->].
  destruct (sensors db !! _) as [u|] eqn:Hs; [|done].
  apply tx_bind_ok in H as (rows & db2 & rs2 & E & H). apply query_ok in E as [-> ->].
  destruct (twin_graph_rows _ _ _ db) as [|[[ge se] present] rest] eqn:Hrows; [done|].
  destruct (_ || negb present) eqn:Hb; [done|]. unfold tx_ret in H. injection H as <- _ _.
  rewrite !orb_false_iff, negb_false_iff, !bool_decide_eq_false in Hb. destruct Hb as [[? ?] ->].
  unfold provisioned. cbn. eauto 10.
Qed.

Lemma call_run {A} wrap (run : DB uuid -> A * DB uuid) db :
  call (E:=error) wrap run db [] = Ok (run db, []) .
Proof. unfold call. by destruct (run db). Qed.

Lemma resolve_run m db r : message_ok m -> provisioned db m r ->
  resolveTelemetryResource (Some m) db [] = Ok (r, db, []).
Proof.
  intros Hm (Hg & Hs & Hrg & Hrs & ge & rest & Hrows & Hnil & Hnil').
  pose proof (pattern_nonempty _ (valid_gateway_pattern _ (mok_gateway _ Hm))) as Hgne.
  pose proof (pattern_nonempty _ (valid_sensor_pattern _ (mok_sensor _ Hm))) as Hsne.
  unfold resolveTelemetryResource. cbn [Message_Topic]. revert Hg Hs Hrg Hrs Hrows.
  rewrite (mok_topic _ Hm). cbn [t_GatewayID t_SensorID]. intros Hg Hs Hrg Hrs Hrows.
  bdec ltac:(done). cbn [orb].
  unfold tx_bind, query. rewrite call_run. cbn [negb]. rewrite bool_decide_true by done. cbn [negb].
  rewrite call_run, Hs, call_run, Hrows. bdec ltac:(done). cbn [orb negb]. unfold tx_ret.
  destruct r. cbn in *. by subst.
Qed.

Lemma ledger_run_duplicate m md db row : ledgerMetadata (Some m) = Ok md ->
  processed_messages db !! ledger_key md = Some row ->
  classify_conflict md row = Ok ledgerDispositionDuplicate ->
  insertTelemetryLedger (Some m) db [] = Ok (ledgerDispositionDuplicate, db, []).
Proof.
  intros Hmd Hrow Hc. unfold insertTelemetryLedger, tx_bind, query. rewrite Hmd. cbn [tx_of_res tx_ret].
  unfold tx_ret. rewrite call_run. unfold insert_ledger_row. rewrite Hrow. rewrite call_run, Hrow, Hc. done.
Qed.

Lemma persist_run_duplicate w m md db r row : message_ok m -> clear_sky w ->
  ledgerMetadata (Some m) = Ok md -> provisioned db m r ->
  processed_messages db !! ledger_key md = Some row ->
  classify_conflict md row = Ok ledgerDispositionDuplicate ->
  exists result, Persist w true (Some m) db = (Ok result, db)
    /\ Outcome result = CommitOutcomeDuplicateCommitted.
Proof.
  intros Hm (Hb & Hc & Hco) Hmd Hp Hrow Hcl. unfold Persist. rewrite Hmd, Hb, Hc. cbn [negb].
  unfold persist_body, tx_bind. rewrite (resolve_run m db r Hm Hp).
  rewrite (ledger_run_duplicate m md db row Hmd Hrow Hcl). rewrite bool_decide_true by done.
  unfold tx_ret, commit. rewrite Hco. eauto.
Qed.

(** The graph a run used is still there after its effect. *)
Lemma twin_graph_rows_ext u1 u2 g db db' : twin_entities db' = twin_entities db ->
  twin_relationships db' = twin_relationships db -> dom (twin_states db') = dom (twin_states db) ->
  twin_graph_rows u1 u2 g db' = twin_graph_rows u1 u2 g db.
Proof.
  intros He Hr Hd. unfold twin_graph_rows. rewrite He, Hr.
  assert (Hs : forall k, bool_decide (is_Some (twin_states db' !! k)) = bool_decide (is_Some (twin_states db !! k))).
  { intros k. apply bool_decide_ext. by rewrite <- !elem_of_dom, Hd. }
  apply list_bind_ext; [|done]. intros ge. apply list_bind_ext; [|done]. intros se. by rewrite !Hs.
Qed.

Lemma effect_provisioned now db m md resource db' r : committed_effect now db m md resource db' ->
  provisioned db m r -> provisioned db' m r.
Proof.
  intros Heff. destruct (eff_others _ _ _ _ _ _ Heff) as (Hg & Hs & He & Hr).
  destruct (eff_state _ _ _ _ _ _ Heff) as (cand & st & st' & _ & Hst & _ & _ & Hst').
  unfold provisioned. cbv zeta. rewrite Hg, Hs, (twin_graph_rows_ext _ _ _ db db'); try done.
  rewrite Hst'. apply dom_insert_lookup_L. eauto.
Qed.

(** A successful run of the statements went through a provisioned graph. *)
Lemma persist_body_provisioned now md m db rs result db' rs' :
  persist_body now md (Some m) db rs = Ok (result, db', rs') -> exists r, provisioned db m r.
Proof.
  unfold persist_body. intros H. apply tx_bind_ok in H as (r & db0 & rs0 & E & _).
  exists r. by eapply resolve_provisioned.
Qed.

(** What the database holds when a message may have been stored. *)
Lemma persist_recorded w ctx m md db result db' : message_ok m -> entry_of m md ->
  ledgerMetadata (Some m) = Ok md -> Persist w ctx (Some m) db = (result, db') ->
  is_ok result = true \/ db' <> db ->
  exists r row, provisioned db' m r /\ processed_messages db' !! ledger_key md = Some row
    /\ classify_conflict md row = Ok ledgerDispositionDuplicate.
Proof.
  intros Hm Hent Hmd H Hor. unfold Persist in H. rewrite Hmd in H.
  destruct (negb ctx); [injection H as <- <-; by destruct Hor|].
  destruct (w_begin w); [|injection H as <- <-; by destruct Hor].
  destruct (persist_body _ _ _ _ _) as [[[r working] rs']|e] eqn:Eb; [|injection H as <- <-; by destruct Hor].
  destruct (persist_body_provisioned _ _ _ _ _ _ _ _ Eb) as [rsc Hp].
  apply persist_body_ok in Eb as (_ & _ & _ & _ & Hr); [|done].
  assert (Hw : exists r row, provisioned working m r
    /\ processed_messages working !! ledger_key md = Some row
    /\ classify_conflict md row = Ok ledgerDispositionDuplicate).
  { destruct Hr as [(_ & _ & -> & row & Hrow & Hc)|(_ & _ & resource & Heff & _)]; [eauto|].
    exists rsc, (ledger_row md). split; [by eapply effect_provisioned|].
    rewrite (eff_ledger _ _ _ _ _ _ Heff), lookup_insert_eq.
    split; [done|]. by apply (classify_own_row m). }
  unfold commit in H. destruct (w_commit w) as [|cause durable]; [by injection H as <- <-|].
  injection H as <- <-. destruct durable; [done|]. by destruct Hor.
Qed.

(** Once a delivery succeeded, or its transaction became durable
    although the commit reported an error, every later delivery of the message
    to a working database is recognised: the outcome is the committed duplicate
    and the database does not change.  Retrying is therefore always safe. *)
Theorem Persist_redelivery w ctx m db result db' w' : message_ok m ->
  Persist w ctx (Some m) db = (result, db') -> is_ok result = true \/ db' <> db -> clear_sky w' ->
  exists r, Persist w' true (Some m) db' = (Ok r, db') /\ Outcome r = CommitOutcomeDuplicateCommitted.
Proof.
  intros Hm H Hor Hsky. destruct (ledgerMetadata_valid m Hm) as (md & Hmd & Hent).
  destruct (persist_recorded _ _ _ _ _ _ _ Hm Hent Hmd H Hor) as (r & row & Hp & Hrow & Hc).
  by eapply persist_run_duplicate.
Qed.

(** A message whose identifier the ledger already holds with another
    payload, topic, Sensor, boot or range is refused whatever the database
    answers, and changes nothing. *)
Theorem Persist_conflict w ctx m db row result db' : message_ok m ->
  processed_messages db !! (GatewayID (batch m), MessageID (batch m)) = Some row ->
  l_payload_hash row <> payloadHash m \/ l_source_topic row <> Some (SourceTopic (topic m))
  \/ l_sensor_id row <> Some (SensorID (batch m)) \/ l_boot_id row <> Some (BootID (batch m))
  \/ l_first_sequence row <> Some (FirstSequence (batch m))
  \/ l_sample_count row <> Some (SampleCount (batch m)) ->
  Persist w ctx (Some m) db = (result, db') -> is_ok result = false /\ db' = db.
Proof.
  intros Hm Hrow Hdiff H. destruct (ledgerMetadata_valid m Hm) as (md & Hmd & Hent).
  assert (Hkey : ledger_key md = (GatewayID (batch m), MessageID (batch m))).
  { unfold ledger_key. by rewrite (ent_topic _ _ Hent), (ent_message _ _ Hent), (mok_topic _ Hm). }
  rewrite <- Hkey in Hrow.
  assert (Hno : forall rsc now db1, ~ committed_effect now db m md rsc db1).
  { intros rsc now db1 Heff. by rewrite (eff_absent _ _ _ _ _ _ Heff) in Hrow. }
  assert (Hnodup : classify_conflict md row <> Ok ledgerDispositionDuplicate).
  { intros Hc. apply classify_conflict_dup in Hc as (_ & Hh & Ht & Hs & Hb & Hf & _ & Hn).
    rewrite (ent_hash _ _ Hent) in Hh. rewrite (ent_topic _ _ Hent) in Ht. rewrite (ent_sensor _ _ Hent) in Hs.
    rewrite (ent_boot _ _ Hent) in Hb. rewrite (ent_first _ _ Hent) in Hf. rewrite (ent_count _ _ Hent) in Hn. tauto. }
  apply persist_outcome in H. destruct result as [r|e]; [exfalso|split; [done|]].
  - destruct H as (md' & E & H). rewrite Hmd in E. injection E as <-.
    destruct H as [(_ & _ & row' & Hrow' & Hc)|(_ & _ & resource & Heff)]; [|by eapply Hno].
    rewrite Hrow in Hrow'. injection Hrow' as <-. done.
  - destruct H as [H|(_ & _ & md' & resource & E & Heff)]; [done|].
    rewrite Hmd in E. injection E as <-. by apply Hno in Heff.
Qed.

(** ** Failures carry a known reason *)

Definition known (e : error) : Prop :=
  exists r, errors_As e = Some (Some r) /\ knownReasonCode (Code r) = true.

Definition known_failures {A} (t : Tx (DB uuid) A) : Prop := forall db rs e, t db rs = Err e -> known e.

Lemma known_reason code f : knownReasonCode code = true -> known (reason code f).
Proof. intros H. by exists (mkReasonError code f). Qed.

Lemma known_dependency op e : known (dependencyError op e).
Proof. by eexists. Qed.

Lemma known_failures_bind {A B} (t : Tx (DB uuid) A) (k : A -> Tx (DB uuid) B) :
  known_failures t -> (forall a, known_failures (k a)) -> known_failures (tx_bind t k).
Proof.
  intros Ht Hk db rs e H. unfold tx_bind in H. destruct (t db rs) as [[[a db'] rs']|e'] eqn:E.
  - by eapply Hk.
  - injection H as <-. by eapply Ht.
Qed.

Lemma known_failures_ret {A} (a : A) : known_failures (tx_ret a : Tx (DB uuid) A).
Proof. by intros db rs e. Qed.

Lemma known_failures_fail {A} e : known e -> known_failures (tx_fail e : Tx (DB uuid) A).
Proof. intros He db rs e' H. by injection H as <-. Qed.

Lemma known_failures_call {A} op (run : DB uuid -> A * DB uuid) : known_failures (call (dependencyError op) run).
Proof.
  intros db rs e H. unfold call in H. repeat case_match; try done; injection H as <-; apply known_dependency.
Qed.

Lemma known_failures_query {A} op (run : DB uuid -> A) : known_failures (query (dependencyError op) run).
Proof. apply known_failures_call. Qed.

Lemma known_failures_call_checked {A} op (run : DB uuid -> res error (A * DB uuid)) :
  known_failures (call_checked (dependencyError op) run).
Proof.
  intros db rs e H. unfold call_checked in H. repeat case_match; try done; injection H as <-; apply known_dependency.
Qed.

Lemma known_failures_res {A} (r : res error A) : (forall e, r = Err e -> known e) -> known_failures (tx_of_res r).
Proof. intros Hr. destruct r; [apply known_failures_ret|by apply known_failures_fail, Hr]. Qed.

Lemma ledgerMetadata_known m e : ledgerMetadata (Some m) = Err e -> known e.
Proof. unfold ledgerMetadata. intros H. repeat case_match; try done; injection H as <-; by apply known_reason. Qed.

Lemma classify_conflict_known md row e : classify_conflict md row = Err e -> known e.
Proof.
  unfold classify_conflict.
  destruct (l_source_topic row), (l_sensor_id row), (l_boot_id row), (l_first_sequence row),
    (l_last_sequence row), (l_sample_count row); intros H;
    repeat match type of H with (if ?b then _ else _) = _ => destruct b end;
    try done; injection H as <-; by apply known_reason.
Qed.

Lemma newReportedStateCandidate_known resource m e :
  newReportedStateCandidate resource (Some m) = Err e -> known e.
Proof. unfold newReportedStateCandidate. intros H. repeat case_match; try done; injection H as <-; by apply known_reason. Qed.

Hint Resolve known_failures_ret known_failures_call known_failures_query known_failures_call_checked
  known_dependency known_failures_fail known_failures_res ledgerMetadata_known classify_conflict_known
  newReportedStateCandidate_known : failures.
Hint Extern 1 (known (reason _ _)) => by apply known_reason : failures.
Hint Extern 1 (known (EWrap _ (reason _ _))) => by eexists : failures.

(** Splits a transaction into its binds, matches and tests. *)
Ltac known_steps :=
  repeat match goal with
  | |- known_failures (tx_bind _ _) => apply known_failures_bind; [|intros ?]
  | |- known_failures (if ?b then _ else _) => destruct b
  | |- known_failures (match ?x with _ => _ end) => destruct x
  end; eauto with failures.

Lemma persist_body_known now md m : known_failures (persist_body now md (Some m)).
Proof.
  unfold persist_body, resolveTelemetryResource, insertTelemetryLedger, applySensorReportedState,
    appendSensorSampleIntervalTemporal. cbn [Message_Topic Message_Samples]. known_steps.
Qed.

(** Every error [Persist] returns carries a known reason code, so
    its failure class tells the caller what to do: it is never [FailureNone]
    or [FailureUnknown]. *)
Theorem Persist_errors_classified w ctx m db e db' : Persist w ctx (Some m) db = (Err e, db') ->
  ClassifyFailure (Some e) <> FailureNone /\ ClassifyFailure (Some e) <> FailureUnknown.
Proof.
  intros H. assert (Hk : known e).
  { unfold Persist in H. destruct (ledgerMetadata (Some m)) as [md|e'] eqn:Hmd.
    2:{ injection H as <- _. by eapply ledgerMetadata_known. }
    destruct (negb ctx); [injection H as <- _; by apply known_reason|].
    destruct (w_begin w); [|injection H as <- _; apply known_dependency].
    destruct (persist_body _ _ _ _ _) as [[[r working] rs']|e'] eqn:Eb.
    - unfold commit in H. destruct (w_commit w); [done|]. injection H as <- _. by eexists.
    - injection H as <- _. by eapply persist_body_known. }
  destruct Hk as ([code f] & Has & Hcode). unfold ClassifyFailure. rewrite Has. cbn in *.
  by destruct code.
Qed.

(** ** Without faults a new message is stored *)

Lemma overlap_exists_insert md db db' : overlap_exists md db = false ->
  processed_messages db' = <[ledger_key md := ledger_row md]> (processed_messages db) ->
  overlap_exists md db' = false.
Proof.
  intros Hno Hdb. apply existsb_false. intros [k row] Hk. apply elem_of_map_to_list in Hk.
  rewrite Hdb, lookup_insert_Some in Hk. destruct Hk as [[<- _]|[Hne Hk]].
  - unfold overlaps, ledger_key. bdec ltac:(done). by rewrite andb_false_r.
  - destruct (overlaps md (k, row)) eqn:E; [|done]. exfalso. apply not_true_iff_false in Hno. apply Hno.
    unfold overlap_exists. rewrite existsb_exists. exists (k, row). split; [|done].
    by apply list_elem_of_In, elem_of_map_to_list.
Qed.

Lemma copy_rows_run (ss : list (SampleCandidate uuid)) : forall rows id,
  (forall s r, s ∈ ss -> r ∈ rows -> tr_gateway_id r = s_GatewayID s -> tr_message_id r = Some (s_MessageID s) ->
     tr_sample_index r <> Some (s_SampleIndex s)) ->
  NoDup (s_SampleIndex <$> ss) -> is_ok (copy_rows rows id ss) = true.
Proof.
  induction ss as [|s ss IH]; intros rows id Hrows Hnd; [done|]. cbn [copy_rows].
  rewrite existsb_false.
  - apply IH; [|by cbn in Hnd; apply list.NoDup_cons in Hnd as [_ ?]].
    intros s' r Hs' Hr Hg Hmid Hidx. apply elem_of_app in Hr as [Hr|Hr].
    { apply (Hrows s' r); try done. by right. }
    apply list_elem_of_singleton in Hr as ->. cbn in Hidx. injection Hidx as Hidx.
    cbn in Hnd. apply list.NoDup_cons in Hnd as [Hnot _]. apply Hnot. rewrite Hidx. by apply list_elem_of_fmap_2.
  - intros r Hr. unfold same_sample_key, telemetry_row. cbn.
    destruct (bool_decide (s_GatewayID s = tr_gateway_id r)) eqn:E1; [|by rewrite andb_false_r].
    destruct (bool_decide (Some (s_MessageID s) = tr_message_id r)) eqn:E2; [|by rewrite andb_false_r].
    apply bool_decide_eq_true in E1, E2. rewrite (bool_decide_false (Some (s_SampleIndex s) = _)).
    + by rewrite andb_false_r.
    + intros E3. apply (Hrows s r); try done. by left.
Qed.

Lemma copy_from_run m db md : message_ok m -> entry_of m md -> rows_of db (ledger_key md) = [] ->
  CopyFrom (mkCopySource (samples m) 0) db = Ok (Z.of_nat (length (samples m)),
    mkDB (gateways db) (sensors db) (processed_messages db) (telemetry db ++ new_rows db (samples m))
      (sample_id_seq db + Z.of_nat (length (samples m))) (twin_entities db)
      (twin_relationships db) (twin_states db) (twin_temporal_values db)).
Proof.
  intros Hm Hent Hin. unfold CopyFrom. cbn [src_samples].
  rewrite copy_drain_from by lia. rewrite drop_0. cbn [mbind res_bind].
  assert (Hok : is_ok (copy_rows (telemetry db) (sample_id_seq db) (samples m)) = true).
  { apply copy_rows_run.
    - intros s r Hs Hr Hg Hmid _. apply list_elem_of_lookup in Hs as [i Hs].
      destruct (sample_ids m i s Hm Hs) as (Hsg & _ & _ & Hsm & _).
      unfold rows_of in Hin.
      assert (Hr' : r ∈ filter (fun r => tr_gateway_id r = (ledger_key md).1
                     /\ tr_message_id r = Some (ledger_key md).2) (telemetry db)).
      { apply list_elem_of_filter. split; [|done]. unfold ledger_key. cbn.
        rewrite (ent_topic _ _ Hent), (ent_message _ _ Hent), (mok_topic _ Hm). cbn. by rewrite <- Hsg, <- Hsm. }
      rewrite Hin in Hr'. by apply not_elem_of_nil in Hr'.
    - apply NoDup_alt. intros i j x Hi Hj. rewrite list_lookup_fmap, fmap_Some in Hi, Hj.
      destruct Hi as (s & Hs & ->), Hj as (s' & Hs' & E).
      apply (sample_ids m) in Hs as (_ & _ & _ & _ & Hx & _); [|done].
      apply (sample_ids m) in Hs' as (_ & _ & _ & _ & Hx' & _); [|done]. lia. }
  destruct (copy_rows _ _ _) as [[rows id]|] eqn:E; [|done]. apply copy_rows_ok in E as [-> ->]. done.
Qed.

Lemma candidate_merge_some cand : IsNaN (c_value cand) = false /\ IsInf (c_value cand) = false ->
  is_Some (candidate_merge cand).
Proof.
  intros [Hn Hi]. unfold candidate_merge.
  assert (is_Some (FormatJSONFloat (c_value cand))) as [t ->].
  { destruct (c_value cand) as [sg|sg| |sg mt ex]; try done; unfold FormatJSONFloat.
    destruct (shortest mt ex). by eexists. }
  by eexists.
Qed.

Lemma apply_run now r m db st last : SampleIntervalUS (batch m) > 0 -> r_EntityID r <> uuid_Nil ->
  LastSample (Some m) = Some last -> IsNaN (s_Value last) = false /\ IsInf (s_Value last) = false ->
  twin_states db !! r_EntityID r = Some st -> 0 <= st_reported_version st < max_int64 ->
  exists b states, applySensorReportedState now r (Some m) db [] = Ok (b, set_twin_states db states, []).
Proof.
  intros Hint Hnil Hlast Hfin Hst Hver. unfold applySensorReportedState, tx_bind, query.
  rewrite bool_decide_false by done. unfold newReportedStateCandidate. rewrite Hlast.
  replace (SampleIntervalUS (batch m) <=? 0) with false by (symmetry; apply Z.leb_gt; lia).
  cbn [tx_of_res]. unfold tx_ret. rewrite call_run, Hst.
  replace (st_reported_version st <? 0) with false by (symmetry; apply Z.ltb_ge; lia).
  destruct (sensorStateAdvances _ _ _); cbn [negb].
  - unfold call_checked. set (cand := mkCandidate _ _ _ _ _ _).
    destruct (candidate_merge_some cand Hfin) as [merge ->]. unfold advance_state. rewrite Hst, Z.eqb_refl.
    replace (st_reported_version st =? max_int64) with false by (symmetry; apply Z.eqb_neq; lia).
    cbn. eauto.
  - eexists false, (twin_states db). by destruct db.
Qed.

Lemma append_run r m db last : 0 < SampleIntervalUS (batch m) <= maxExactFloat64Integer ->
  r_EntityID r <> uuid_Nil -> LastSample (Some m) = Some last ->
  exists db', appendSensorSampleIntervalTemporal r (Some m) db [] = Ok (tt, db', []).
Proof.
  intros Hint Hnil Hlast. unfold appendSensorSampleIntervalTemporal, tx_bind.
  rewrite bool_decide_false by done. rewrite Hlast.
  replace (SampleIntervalUS (batch m) <=? 0) with false by (symmetry; apply Z.leb_gt; lia).
  replace (maxExactFloat64Integer <? _) with false by (symmetry; apply Z.ltb_ge; lia). cbn [orb].
  rewrite call_run. cbn. unfold tx_ret. eauto.
Qed.

Lemma sample_finite m i s : message_ok m -> samples m !! i = Some s ->
  IsNaN (s_Value s) = false /\ IsInf (s_Value s) = false.
Proof.
  intros Hm Hs. destruct (mok_samples _ Hm) as (first & Hf & _).
  rewrite (message_sample m first i Hm Hf), fmap_Some in Hs. destruct Hs as (v & Hv & ->). cbn.
  exact (Forall_lookup_1 _ _ _ _ (mok_values _ Hm) Hv).
Qed.

(** On a working database, a new message of a provisioned Sensor
    whose range overlaps no recorded one is committed, with all its samples. *)
Lemma Persist_stores w m db r st : message_ok m -> clear_sky w -> provisioned db m r ->
  samples_in_step db -> processed_messages db !! (GatewayID (batch m), MessageID (batch m)) = None ->
  (forall k row first last, processed_messages db !! k = Some row -> k.1 = GatewayID (batch m) ->
     l_sensor_id row = Some (SensorID (batch m)) -> l_boot_id row = Some (BootID (batch m)) ->
     l_first_sequence row = Some first -> l_last_sequence row = Some last ->
     last < FirstSequence (batch m) \/ FirstSequence (batch m) + SampleCount (batch m) - 1 < first) ->
  twin_states db !! r_EntityID r = Some st -> 0 <= st_reported_version st < max_int64 ->
  exists result db', Persist w true (Some m) db = (Ok result, db')
    /\ Outcome result = CommitOutcomeCommitted /\ SamplesSaved result = SampleCount (batch m).
Proof.
  intros Hm (Hb & Hc & Hco) Hp Hin Habs Hfree Hst Hver.
  destruct (ledgerMetadata_valid m Hm) as (md & Hmd & Hent).
  assert (Hkey : ledger_key md = (GatewayID (batch m), MessageID (batch m))).
  { unfold ledger_key. by rewrite (ent_topic _ _ Hent), (ent_message _ _ Hent), (mok_topic _ Hm). }
  rewrite <- Hkey in Habs.
  assert (Hno : overlap_exists md db = false).
  { apply existsb_false. intros [[g mid] row] Hk. apply elem_of_map_to_list in Hk. unfold overlaps.
    rewrite (ent_topic _ _ Hent), (ent_sensor _ _ Hent), (ent_boot _ _ Hent), (ent_last _ _ Hent),
      (ent_first _ _ Hent), (mok_topic _ Hm). cbn [t_GatewayID].
    destruct (bool_decide (g = _)) eqn:E1; [|done]. destruct (bool_decide (l_sensor_id row = _)) eqn:E2; [|done].
    destruct (bool_decide (l_boot_id row = _)) eqn:E3; [|done]. apply bool_decide_eq_true in E1, E2, E3.
    destruct (l_first_sequence row) as [f|] eqn:Ef; [|done]. destruct (l_last_sequence row) as [e|] eqn:Ee; [|done].
    destruct (Hfree _ _ f e Hk E1 E2 E3 Ef Ee) as [Hlt|Hlt].
    - replace (FirstSequence (batch m) <=? e) with false by (symmetry; apply Z.leb_gt; lia). by rewrite andb_false_r.
    - by replace (f <=? _) with false by (symmetry; apply Z.leb_gt; lia). }
  destruct (first_last_sample m Hm) as (first & s0 & s1 & _ & _ & Hlast & _ & _ & _ & _).
  pose proof (mok_interval _ Hm) as Hint. pose proof (message_samples_length m Hm) as Hlen.
  assert (Hnil : r_EntityID r <> uuid_Nil) by (destruct Hp as (_ & _ & _ & _ & ? & ? & _ & _ & Hn); exact Hn).
  unfold Persist. rewrite Hmd, Hb, Hc. cbn [negb]. unfold persist_body, tx_bind.
  rewrite (resolve_run m db r Hm Hp).
  unfold insertTelemetryLedger, tx_bind, query. rewrite Hmd. cbn [tx_of_res]. unfold tx_ret.
  rewrite call_run. unfold insert_ledger_row. rewrite Habs, call_run.
  erewrite overlap_exists_insert by (exact Hno || reflexivity).
  rewrite (bool_decide_false (_ = ledgerDispositionDuplicate)), (bool_decide_true (_ = ledgerDispositionNew)) by done.
  cbn [negb Message_Samples]. unfold call_checked at 1.
  rewrite (copy_from_run m _ md Hm Hent).
  2:{ specialize (Hin (ledger_key md)). by rewrite Habs in Hin. }
  rewrite Hlen, (ent_count _ _ Hent), Z.eqb_refl. cbn [negb].
  match goal with |- context [applySensorReportedState _ _ _ ?d _] =>
    destruct (apply_run (w_now w) r m d st s1) as (b & states & ->);
      [lia|exact Hnil|exact Hlast|by eapply sample_finite|exact Hst|exact Hver|] end.
  match goal with |- context [appendSensorSampleIntervalTemporal _ _ ?d _] =>
    destruct (append_run r m d s1 Hint Hnil Hlast) as (db' & ->) end.
  unfold commit. rewrite Hco. eauto.
Qed.

End redelivery.
