(* ===== verification/Ingress.v ===== *)
(** * The MQTT ingress core

    [mqttingress/ingress.go] and [counters.go]: bounded admission, one queue, a
    fixed worker pool and the post-commit acknowledgement.  [Admit], [process],
    [StopAdmission] and [Start] are executable functions; the goroutines that
    run them interleave as the step relation [step], whose admission threads
    hold the read lock across several steps, as the code does. *)

From S2P Require Import Prelude GoStrings GoSha256 GoTime GoFloat GoJson Identity Uuid Telemetry.
From S2P Require Import Decode Validation Message Txn Store Persist.
#[local] Open Scope Z_scope.

Inductive AdmissionDecision :=
| AdmissionAccepted
| AdmissionRejectedNotRunning
| AdmissionRejectedStopping
| AdmissionRejectedRetained
| AdmissionRejectedOversized
| AdmissionRejectedInvalidTopic
| AdmissionRejectedQueueFull.

#[export] Instance AdmissionDecision_eq_dec : EqDecision AdmissionDecision.
Proof. solve_decision. Defined.

Record item := mkItem { it_topic : string; it_payload : string; it_receivedAt : Time }.

(** ** Counters: one constructor per field of the [counters] struct *)

Inductive counter :=
| accepted | rejectedNotRunning | rejectedStopping | rejectedRetained | rejectedOversized
| rejectedInvalidTpc | queueFull | queueHighWater
| processed | validationRejected | persistFailures | commitUnconfirmed | identityMismatch
| ackBuildFailures
| committed | duplicateCommitted | samplesNew | ackPublished | ackPublishFailures
| processingNanos | processingCount.

#[export] Instance counter_eq_dec : EqDecision counter.
Proof. solve_decision. Defined.

Definition counters : Type := counter -> Z.
Definition zero_counters : counters := fun _ => 0.

(** [counters.c.Add(n)] *)
Definition bump (c : counter) (n : Z) (cs : counters) : counters :=
  fun d => if decide (d = c) then cs d + n else cs d.

(** ** One delivery *)

Record Delivery := mkDelivery { d_Topic : string; d_Payload : string; d_QoS : Z; d_Retained : bool }.

(** A payload-free log event: stage, reason code and failure class. *)
Record Reject := mkReject { rj_stage : string; rj_code : string; rj_class : FailureClass }.

Definition logReject (stage : string) (err : error) : Reject :=
  mkReject stage
    (match errors_As err with Some (Some r) => reason_text (Code r) | _ => "" end)
    (ClassifyFailure (Some err)).

(** The dependencies of the core, with [store] the repository's state. *)
Record Pipeline (uuid store : Type) := mkPipeline {
  p_Validate : string -> string -> Time -> res ReasonError (Message uuid);
  p_Persist : Weather -> Message uuid -> store -> res error (PersistResult uuid) * store;
}.
Arguments mkPipeline {uuid store}.
Arguments p_Validate {uuid store}.
Arguments p_Persist {uuid store}.

(** What the environment answers while one item is processed. *)
Record Env := mkEnv {
  env_weather : Weather;
  env_confirmedAt : Time;
  env_publish : option error;
  env_nanos : Z;
}.

(** The effects of one [process] call. *)
Record Effects (store : Type) := mkEffects {
  fx_counters : counters;
  fx_store : store;
  fx_published : option Delivery;
  fx_reject : option Reject;
}.
Arguments mkEffects {store}.
Arguments fx_counters {store}.
Arguments fx_store {store}.
Arguments fx_published {store}.
Arguments fx_reject {store}.

Section pipeline.
Context {uuid : Type} `{!UuidLib uuid} {store : Type}.

Definition identityMatches (message : Message uuid) (identity : MessageIdentity uuid) : bool :=
  bool_decide (id_GatewayID identity = t_GatewayID (Message_Topic (Some message)))
  && bool_decide (id_SensorID identity = t_SensorID (Message_Topic (Some message)))
  && bool_decide (id_MessageID identity = MessageID (Message_Batch (Some message))).

(** The pipeline of one item after [processed.Add(1)]; the deferred latency
    counters are added by [process]. *)
Definition process_item (P : Pipeline uuid store) (env : Env) (it : item) (cs : counters) (st : store)
    : Effects store :=
  match p_Validate P (it_topic it) (it_payload it) (it_receivedAt it) with
  | Err err => mkEffects (bump validationRejected 1 cs) st None (Some (logReject "validate" (EReason err)))
  | Ok message =>
      match p_Persist P (env_weather env) message st with
      | (Err err, st') => mkEffects (bump persistFailures 1 cs) st' None (Some (logReject "persist" err))
      | (Ok result, st') =>
          if negb (bool_decide (Outcome result = CommitOutcomeCommitted))
             && negb (bool_decide (Outcome result = CommitOutcomeDuplicateCommitted))
          then mkEffects (bump commitUnconfirmed 1 cs) st' None
                 (Some (logReject "commit" (reason ReasonCommitUnconfirmed "")))
          else if negb (identityMatches message (Identity result))
          then mkEffects (bump identityMismatch 1 cs) st' None
                 (Some (logReject "identity" (reason ReasonMessageConflict "")))
          else
            let confirmedAt := UTC (env_confirmedAt env) in
            let cs :=
              if bool_decide (Outcome result = CommitOutcomeCommitted)
              then bump samplesNew (SamplesSaved result) (bump committed 1 cs)
              else bump duplicateCommitted 1 cs in
            let topic := Message_Topic (Some message) in
            let batch := Message_Batch (Some message) in
            match NewCommitACK (t_GatewayID topic) (MessageID batch) (Outcome result) confirmedAt with
            | Err buildErr => mkEffects (bump ackBuildFailures 1 cs) st' None
                                (Some (logReject "ack_build" (EReason buildErr)))
            | Ok (ackTopic, ack) =>
                match marshalACK ack with
                | None => mkEffects (bump ackBuildFailures 1 cs) st' None
                            (Some (logReject "ack_marshal" (reason ReasonAckPublishUnconfirmed "")))
                | Some wire =>
                    let delivery := mkDelivery ackTopic wire 1 false in
                    match env_publish env with
                    | Some _ => mkEffects (bump ackPublishFailures 1 cs) st' (Some delivery)
                                  (Some (logReject "ack_publish" (reason ReasonAckPublishUnconfirmed "")))
                    | None => mkEffects (bump ackPublished 1 cs) st' (Some delivery) None
                    end
                end
            end
      end
  end.

Definition process (P : Pipeline uuid store) (env : Env) (it : item) (cs : counters) (st : store)
    : Effects store :=
  let fx := process_item P env it (bump processed 1 cs) st in
  mkEffects (bump processingCount 1 (bump processingNanos (env_nanos env) (fx_counters fx)))
    (fx_store fx) (fx_published fx) (fx_reject fx).

End pipeline.

(** ** The ingress *)

Record Options := mkOptions {
  o_QueueCapacity : Z;
  o_WorkerCount : Z;
  o_MaxPayloadBytes : Z;
  o_PersistTimeout : Z;
  o_PublishTimeout : Z;
}.

(** A worker waits in its main loop or in [drainQueue], holds an item, or has
    returned. *)
Inductive worker :=
| WWaiting (draining : bool)
| WHolding (draining : bool) (it : item)
| WExited.

Record delivery_args := mkArgs { ar_topic : string; ar_payload : string; ar_at : Time; ar_retained : bool }.

(** An [Admit] call: before the read lock, holding it, past the stopping check,
    after the enqueue, after the accepted count, and with the observed queue
    length. *)
Inductive admission :=
| AEntered (a : delivery_args)
| ALocked (a : delivery_args)
| AChecked (a : delivery_args)
| AEnqueued
| ACounted
| AObserved (n : Z).

Record Ingress := mkIngress {
  i_capacity : Z;
  i_workerCount : nat;
  i_maxPayloadBytes : Z;
  i_queue : list item;
  i_stopped : bool;          (** the [stop] channel is closed *)
  i_stopping : bool;
  i_started : bool;
  i_draining : bool;
  i_cancelled : bool;        (** [runCtx] was cancelled *)
  i_workers : list worker;
  i_counters : counters;
}.

Definition set_queue (q : list item) (i : Ingress) : Ingress :=
  mkIngress (i_capacity i) (i_workerCount i) (i_maxPayloadBytes i) q (i_stopped i) (i_stopping i)
    (i_started i) (i_draining i) (i_cancelled i) (i_workers i) (i_counters i).
Definition set_workers (ws : list worker) (i : Ingress) : Ingress :=
  mkIngress (i_capacity i) (i_workerCount i) (i_maxPayloadBytes i) (i_queue i) (i_stopped i) (i_stopping i)
    (i_started i) (i_draining i) (i_cancelled i) ws (i_counters i).
Definition set_counters (cs : counters) (i : Ingress) : Ingress :=
  mkIngress (i_capacity i) (i_workerCount i) (i_maxPayloadBytes i) (i_queue i) (i_stopped i) (i_stopping i)
    (i_started i) (i_draining i) (i_cancelled i) (i_workers i) cs.
Definition count (c : counter) (i : Ingress) : Ingress := set_counters (bump c 1 (i_counters i)) i.

(** [New]: the bounds it checks; the three dependencies are present. *)
Definition New (opts : Options) : res string Ingress :=
  if o_QueueCapacity opts <? 1 then Err "mqttingress: queue capacity must be positive"
  else if o_WorkerCount opts <? 1 then Err "mqttingress: worker count must be positive"
  else if o_MaxPayloadBytes opts <? 1 then Err "mqttingress: max payload bytes must be positive"
  else if o_PersistTimeout opts <=? 0 then Err "mqttingress: persist timeout must be positive"
  else if o_PublishTimeout opts <=? 0 then Err "mqttingress: publish timeout must be positive"
  else Ok (mkIngress (o_QueueCapacity opts) (Z.to_nat (o_WorkerCount opts)) (o_MaxPayloadBytes opts)
             [] false false false false false [] zero_counters).

Definition Start (i : Ingress) : res string Ingress :=
  if i_started i then Err "mqttingress: already started"
  else if i_draining i then Err "mqttingress: ingress is shutting down"
  else Ok (mkIngress (i_capacity i) (i_workerCount i) (i_maxPayloadBytes i) (i_queue i) (i_stopped i)
             (i_stopping i) true (i_draining i) (i_cancelled i)
             (replicate (i_workerCount i) (WWaiting false)) (i_counters i)).

Definition StopAdmission (i : Ingress) : Ingress :=
  if i_stopping i then i
  else mkIngress (i_capacity i) (i_workerCount i) (i_maxPayloadBytes i) (i_queue i) true true
         (i_started i) (i_draining i) (i_cancelled i) (i_workers i) (i_counters i).

Definition Accepting (i : Ingress) : bool := i_started i && negb (i_stopping i).

(** [Drain] up to its wait: mark draining, and stop admission when started. *)
Definition mark_draining (i : Ingress) : Ingress :=
  mkIngress (i_capacity i) (i_workerCount i) (i_maxPayloadBytes i) (i_queue i) (i_stopped i) (i_stopping i)
    (i_started i) true (i_cancelled i) (i_workers i) (i_counters i).
Definition cancelRun (i : Ingress) : Ingress :=
  mkIngress (i_capacity i) (i_workerCount i) (i_maxPayloadBytes i) (i_queue i) (i_stopped i) (i_stopping i)
    (i_started i) (i_draining i) true (i_workers i) (i_counters i).

(** The checks of [Admit] after the stopping flag, and its non-blocking send. *)
Definition admit_send (a : delivery_args) (i : Ingress) : AdmissionDecision * Ingress :=
  if ar_retained a then (AdmissionRejectedRetained, count rejectedRetained i)
  else if i_maxPayloadBytes i <? str_len (ar_payload a)
  then (AdmissionRejectedOversized, count rejectedOversized i)
  else match ParseTopic (ar_topic a) with
  | Err _ => (AdmissionRejectedInvalidTopic, count rejectedInvalidTpc i)
  | Ok _ =>
      if Z.of_nat (length (i_queue i)) <? i_capacity i
      then (AdmissionAccepted, set_queue (i_queue i ++ [mkItem (ar_topic a) (ar_payload a) (ar_at a)]) i)
      else (AdmissionRejectedQueueFull, count queueFull i)
  end.

(** The compare-and-swap loop of [recordQueueHighWater]: the value it leaves. *)
Definition recordQueueHighWater (observed : Z) (i : Ingress) : Ingress :=
  if observed <=? 0 then i
  else
    let observed := if i_capacity i <? observed then i_capacity i else observed in
    let current := i_counters i queueHighWater in
    if observed <=? current then i
    else set_counters (fun c => if decide (c = queueHighWater) then observed else i_counters i c) i.

Definition Admit (a : delivery_args) (i : Ingress) : AdmissionDecision * Ingress :=
  if negb (i_started i) then (AdmissionRejectedNotRunning, count rejectedNotRunning i)
  else
    if i_stopping i then (AdmissionRejectedStopping, count rejectedStopping i)
    else
    let '(d, i') := admit_send a i in
    if bool_decide (d = AdmissionAccepted)
    then (d, recordQueueHighWater (Z.of_nat (length (i_queue i'))) (count accepted i'))
    else (d, i').

Record Snapshot := mkSnapshot {
  sn_counters : counters;
  sn_QueueDepth : Z;
  sn_QueueCapacity : Z;
}.
Definition Ingress_Snapshot (i : Ingress) : Snapshot :=
  mkSnapshot (i_counters i) (Z.of_nat (length (i_queue i))) (i_capacity i).

(** ** Interleaving *)

(** The ingress with the calls in flight, the repository's state, every
    delivery handed to the publisher, and the number of sends into the queue. *)
Record System (store : Type) := mkSystem {
  y_ingress : Ingress;
  y_admits : gmap nat admission;
  y_store : store;
  y_published : list Delivery;
  y_sent : Z;
}.
Arguments mkSystem {store}.
Arguments y_ingress {store}.
Arguments y_admits {store}.
Arguments y_store {store}.
Arguments y_published {store}.
Arguments y_sent {store}.

(** The admission write lock is free when no call is inside the read lock. *)
Definition reads_locked (a : admission) : bool := match a with AEntered _ => false | _ => true end.
Definition write_lock_free (admits : gmap nat admission) : Prop :=
  map_Forall (fun _ a => reads_locked a = false) admits.

Definition upd {store} (y : System store) (i : Ingress) (admits : gmap nat admission) : System store :=
  mkSystem i admits (y_store y) (y_published y) (y_sent y).

Section step.
Context {uuid : Type} `{!UuidLib uuid} {store : Type} (P : Pipeline uuid store).

(** Steps of an [Admit] call [t]. *)
Inductive admit_step (y : System store) : System store -> Prop :=
| step_not_running : i_started (y_ingress y) = false ->
    admit_step y (upd y (count rejectedNotRunning (y_ingress y)) (y_admits y))
| step_enter t a : i_started (y_ingress y) = true -> y_admits y !! t = None ->
    admit_step y (upd y (y_ingress y) (<[t := AEntered a]> (y_admits y)))
| step_lock t a : y_admits y !! t = Some (AEntered a) ->
    admit_step y (upd y (y_ingress y) (<[t := ALocked a]> (y_admits y)))
| step_refuse t a : y_admits y !! t = Some (ALocked a) -> i_stopping (y_ingress y) = true ->
    admit_step y (upd y (count rejectedStopping (y_ingress y)) (delete t (y_admits y)))
| step_check t a : y_admits y !! t = Some (ALocked a) -> i_stopping (y_ingress y) = false ->
    admit_step y (upd y (y_ingress y) (<[t := AChecked a]> (y_admits y)))
| step_reject t a d i' : y_admits y !! t = Some (AChecked a) -> admit_send a (y_ingress y) = (d, i') ->
    d <> AdmissionAccepted -> admit_step y (upd y i' (delete t (y_admits y)))
| step_send t a i' : y_admits y !! t = Some (AChecked a) ->
    admit_send a (y_ingress y) = (AdmissionAccepted, i') ->
    admit_step y (mkSystem i' (<[t := AEnqueued]> (y_admits y)) (y_store y) (y_published y) (y_sent y + 1))
| step_count t : y_admits y !! t = Some AEnqueued ->
    admit_step y (upd y (count accepted (y_ingress y)) (<[t := ACounted]> (y_admits y)))
| step_observe t : y_admits y !! t = Some ACounted ->
    admit_step y (upd y (y_ingress y)
      (<[t := AObserved (Z.of_nat (length (i_queue (y_ingress y))))]> (y_admits y)))
| step_high_water t n : y_admits y !! t = Some (AObserved n) ->
    admit_step y (upd y (recordQueueHighWater n (y_ingress y)) (delete t (y_admits y))).

(** Steps of worker [k]. *)
Inductive worker_step (y : System store) : System store -> Prop :=
| step_receive k d it q : i_workers (y_ingress y) !! k = Some (WWaiting d) ->
    i_queue (y_ingress y) = it :: q ->
    worker_step y (upd y (set_workers (<[k := WHolding d it]> (i_workers (y_ingress y)))
                            (set_queue q (y_ingress y))) (y_admits y))
| step_process k d it env : i_workers (y_ingress y) !! k = Some (WHolding d it) ->
    let fx := process P env it (i_counters (y_ingress y)) (y_store y) in
    worker_step y (mkSystem
      (set_counters (fx_counters fx)
         (set_workers (<[k := WWaiting d]> (i_workers (y_ingress y))) (y_ingress y)))
      (y_admits y) (fx_store fx) (y_published y ++ option_list (fx_published fx)) (y_sent y))
| step_see_stop k : i_workers (y_ingress y) !! k = Some (WWaiting false) ->
    i_stopped (y_ingress y) = true ->
    worker_step y (upd y (set_workers (<[k := WWaiting true]> (i_workers (y_ingress y))) (y_ingress y))
                     (y_admits y))
| step_exit k : i_workers (y_ingress y) !! k = Some (WWaiting true) -> i_queue (y_ingress y) = [] ->
    worker_step y (upd y (set_workers (<[k := WExited]> (i_workers (y_ingress y))) (y_ingress y))
                     (y_admits y)).

(** Life-cycle calls; [StopAdmission] takes the write lock. *)
Inductive control_step (y : System store) : System store -> Prop :=
| step_start i' : Start (y_ingress y) = Ok i' -> control_step y (upd y i' (y_admits y))
| step_stop : write_lock_free (y_admits y) ->
    control_step y (upd y (StopAdmission (y_ingress y)) (y_admits y))
| step_mark_draining : control_step y (upd y (mark_draining (y_ingress y)) (y_admits y))
| step_cancel : control_step y (upd y (cancelRun (y_ingress y)) (y_admits y)).

Inductive step (y y' : System store) : Prop :=
| by_admit : admit_step y y' -> step y y'
| by_worker : worker_step y y' -> step y y'
| by_control : control_step y y' -> step y y'.

(** Runs from a fresh ingress. *)
Inductive reachable (opts : Options) (st : store) : System store -> Prop :=
| reach_new i : New opts = Ok i -> reachable opts st (mkSystem i ∅ st [] 0)
| reach_step y y' : reachable opts st y -> step y y' -> reachable opts st y'.

End step.
