(* ===== verification/IngressSpec.v ===== *)
(** * What the ingress core guarantees

    Bounded memory, the admission barrier, conservation of every counter,
    complete drains, and acknowledgements only for recorded messages, for every
    interleaving of callbacks, workers and life-cycle calls. *)

From S2P Require Import Prelude GoStrings GoSha256 GoTime GoFloat GoJson Uuid Identity Telemetry Decode Validation.
From S2P Require Import Message Txn Store Persist PersistSpec Ingress.
#[local] Open Scope Z_scope.

(** ** One admission *)

(** The classification of one delivery, in the order of the checks. *)
Definition admit_class (a : delivery_args) (i : Ingress) : AdmissionDecision :=
  if negb (i_started i) then AdmissionRejectedNotRunning
  else if i_stopping i then AdmissionRejectedStopping
  else if ar_retained a then AdmissionRejectedRetained
  else if i_maxPayloadBytes i <? str_len (ar_payload a) then AdmissionRejectedOversized
  else if negb (is_ok (ParseTopic (ar_topic a))) then AdmissionRejectedInvalidTopic
  else if i_capacity i <=? Z.of_nat (length (i_queue i)) then AdmissionRejectedQueueFull
  else AdmissionAccepted.

Definition decision_counter (d : AdmissionDecision) : counter :=
  match d with
  | AdmissionAccepted => accepted
  | AdmissionRejectedNotRunning => rejectedNotRunning
  | AdmissionRejectedStopping => rejectedStopping
  | AdmissionRejectedRetained => rejectedRetained
  | AdmissionRejectedOversized => rejectedOversized
  | AdmissionRejectedInvalidTopic => rejectedInvalidTpc
  | AdmissionRejectedQueueFull => queueFull
  end.

(** [Admit] makes exactly one of its seven decisions, in order, counts
    it in its own counter and no other admission counter, and appends the
    delivery to the queue exactly when it accepts it. *)
Theorem Admit_spec a i d i' : Admit a i = (d, i') ->
  d = admit_class a i
  /\ i_queue i' = (if bool_decide (d = AdmissionAccepted)
                   then i_queue i ++ [mkItem (ar_topic a) (ar_payload a) (ar_at a)] else i_queue i)
  /\ (forall c, c <> queueHighWater -> i_counters i' c
        = i_counters i c + (if decide (c = decision_counter d) then 1 else 0))
  /\ i_workers i' = i_workers i /\ i_stopping i' = i_stopping i /\ i_started i' = i_started i.
Proof.
  unfold Admit, admit_class, admit_send. intros H.
  destruct (i_started i) eqn:E1; cbn [negb] in *.
  2:{ injection H as <- <-. split_and!; try done. intros c _. unfold count, bump. cbn. case_decide; lia. }
  destruct (i_stopping i) eqn:E2.
  { injection H as <- <-. split_and!; try done. intros c _. unfold count, bump. cbn. case_decide; lia. }
  destruct (ar_retained a).
  { injection H as <- <-. split_and!; try done. intros c _. unfold count, bump. cbn. case_decide; lia. }
  destruct (i_maxPayloadBytes i <? _).
  { injection H as <- <-. split_and!; try done. intros c _. unfold count, bump. cbn. case_decide; lia. }
  destruct (ParseTopic (ar_topic a)) as [p|e]; cbn [is_ok negb].
  2:{ injection H as <- <-. split_and!; try done. intros c _. unfold count, bump. cbn. case_decide; lia. }
  rewrite Z.leb_antisym. destruct (Z.of_nat (length (i_queue i)) <? i_capacity i) eqn:E3; cbn [negb].
  - injection H as <- <-. unfold recordQueueHighWater. cbn [i_queue set_queue count].
    split_and!; try done; repeat case_match; try done.
    all: intros c Hc; unfold count, set_counters, bump; cbn; repeat case_decide; try done; lia.
  - injection H as <- <-. split_and!; try done. intros c _. unfold count, bump. cbn. case_decide; lia.
Qed.

(** ** One item *)

Definition outcome_sum (cs : counters) : Z :=
  cs validationRejected + cs persistFailures + cs commitUnconfirmed + cs identityMismatch
  + cs committed + cs duplicateCommitted.
Definition ack_sum (cs : counters) : Z := cs ackBuildFailures + cs ackPublished + cs ackPublishFailures.

Definition admission_counter (c : counter) : bool :=
  match c with
  | accepted | rejectedNotRunning | rejectedStopping | rejectedRetained | rejectedOversized
  | rejectedInvalidTpc | queueFull | queueHighWater => true
  | _ => false
  end.

Section item.
Context {uuid : Type} `{!UuidLib uuid} {store : Type}.

(** Evaluates [decide] on two counter names. *)
Ltac count_names :=
  repeat match goal with
  | |- context [decide (?a = ?b)] =>
      first [rewrite (decide_True _ _ (eq_refl a : a = b)) | rewrite (decide_False (P := a = b)) by discriminate]
  end.

Lemma process_counts (P : Pipeline uuid store) env it cs st :
  let cs' := fx_counters (process P env it cs st) in
  cs' processed = cs processed + 1 /\ outcome_sum cs' = outcome_sum cs + 1
  /\ ack_sum cs' - (cs' committed + cs' duplicateCommitted)
     = ack_sum cs - (cs committed + cs duplicateCommitted)
  /\ cs' processingCount = cs processingCount + 1
  /\ (forall c, admission_counter c = true -> cs' c = cs c).
Proof.
  cbv zeta. unfold process. cbn [fx_counters]. set (cs1 := bump processed 1 cs).
  assert (Hone : forall fx, fx = process_item P env it cs1 st ->
    fx_counters fx processed = cs1 processed /\ outcome_sum (fx_counters fx) = outcome_sum cs1 + 1
    /\ ack_sum (fx_counters fx) - (fx_counters fx committed + fx_counters fx duplicateCommitted)
       = ack_sum cs1 - (cs1 committed + cs1 duplicateCommitted)
    /\ fx_counters fx processingCount = cs1 processingCount
    /\ (forall c, admission_counter c = true -> fx_counters fx c = cs1 c)).
  { intros fx ->. unfold process_item, outcome_sum, ack_sum.
    repeat case_match; cbn [fx_counters]; unfold bump;
      (split_and!; [count_names; lia..|intros [] Hc; first [discriminate Hc|by count_names]]). }
  destruct (Hone _ eq_refl) as (H1 & H2 & H3 & H4 & H5).
  unfold outcome_sum, ack_sum, bump in *. subst cs1. unfold bump in *.
  revert H1 H2 H3 H4. count_names. intros H1 H2 H3 H4. split_and!; [lia..|].
  intros c Hc. specialize (H5 c Hc). revert H5. destruct c; try discriminate Hc; by count_names.
Qed.
End item.

(** ** Every interleaving *)

Section interleaving.
Context {uuid : Type} `{!UuidLib uuid} {store : Type} (P : Pipeline uuid store).
Implicit Types (y : System store).

Definition holding (w : worker) : Z := match w with WHolding _ _ => 1 | _ => 0 end.
Definition uncounted (a : admission) : Z := match a with AEnqueued => 1 | _ => 0 end.

(** A worker that left its main loop, and one that returned. *)
Definition draining_worker (w : worker) : bool :=
  match w with WWaiting d | WHolding d _ => d | WExited => true end.

Record ingress_inv (y : System store) : Prop := {
  inv_capacity : 1 <= i_capacity (y_ingress y);
  inv_queue : Z.of_nat (length (i_queue (y_ingress y))) <= i_capacity (y_ingress y);
  inv_stop : i_stopped (y_ingress y) = i_stopping (y_ingress y);
  inv_barrier : i_stopping (y_ingress y) = true ->
    forall t a, y_admits y !! t <> Some (AChecked a);
  inv_sent_processed : y_sent y = Z.of_nat (length (i_queue (y_ingress y)))
    + list_sum holding (i_workers (y_ingress y)) + i_counters (y_ingress y) processed;
  inv_sent_accepted : y_sent y = i_counters (y_ingress y) accepted + map_sum uncounted (y_admits y);
  inv_high_water : 0 <= i_counters (y_ingress y) queueHighWater <= i_capacity (y_ingress y);
  inv_outcomes : i_counters (y_ingress y) processed = outcome_sum (i_counters (y_ingress y));
  inv_acks : i_counters (y_ingress y) committed + i_counters (y_ingress y) duplicateCommitted
    = ack_sum (i_counters (y_ingress y));
  inv_drain : forall k w, i_workers (y_ingress y) !! k = Some w -> draining_worker w = true ->
    i_stopping (y_ingress y) = true;
  inv_exit : forall k, i_workers (y_ingress y) !! k = Some WExited -> i_queue (y_ingress y) = [];
  inv_started : i_started (y_ingress y) = false -> i_workers (y_ingress y) = [];
}.

(** A step that only adds to one rejection counter and drops a call. *)
Lemma bump_other c d n cs : d <> c -> bump c n cs d = cs d.
Proof. intros H. unfold bump. by rewrite decide_False. Qed.

Lemma bump_same c n cs : bump c n cs c = cs c + n.
Proof. unfold bump. by rewrite decide_True. Qed.

Definition rejection (c : counter) : bool :=
  match c with
  | rejectedNotRunning | rejectedStopping | rejectedRetained | rejectedOversized
  | rejectedInvalidTpc | queueFull => true
  | _ => false
  end.

Lemma sums_bump_rejection c cs : rejection c = true ->
  outcome_sum (bump c 1 cs) = outcome_sum cs /\ ack_sum (bump c 1 cs) = ack_sum cs
  /\ bump c 1 cs processed = cs processed /\ bump c 1 cs accepted = cs accepted
  /\ bump c 1 cs queueHighWater = cs queueHighWater
  /\ bump c 1 cs committed = cs committed /\ bump c 1 cs duplicateCommitted = cs duplicateCommitted.
Proof. intros Hc. unfold outcome_sum, ack_sum. by destruct c. Qed.

Lemma inv_count_rejection y c admits' : ingress_inv y -> rejection c = true ->
  map_sum uncounted admits' = map_sum uncounted (y_admits y) ->
  (forall t a, admits' !! t = Some (AChecked a) -> y_admits y !! t = Some (AChecked a)) ->
  ingress_inv (upd y (count c (y_ingress y)) admits').
Proof.
  intros [] Hc Hsum Hadm. destruct (sums_bump_rejection c (i_counters (y_ingress y)) Hc)
    as (E1 & E2 & E3 & E4 & E5 & E6 & E7).
  constructor; cbn; rewrite ?E1, ?E2, ?E3, ?E4, ?E5, ?E6, ?E7, ?Hsum; try done.
  intros Hs t a Ht. by eapply inv_barrier0; [|apply Hadm].
Qed.

(** A step that only changes the calls in flight. *)
Lemma inv_admits y admits' : ingress_inv y ->
  map_sum uncounted admits' = map_sum uncounted (y_admits y) ->
  (i_stopping (y_ingress y) = true -> forall t a, admits' !! t <> Some (AChecked a)) ->
  ingress_inv (upd y (y_ingress y) admits').
Proof. intros [] Hsum Hadm. constructor; cbn; rewrite ?Hsum; done. Qed.

Lemma admit_send_accepted a i i' : admit_send a i = (AdmissionAccepted, i') ->
  Z.of_nat (length (i_queue i)) < i_capacity i
  /\ i' = set_queue (i_queue i ++ [mkItem (ar_topic a) (ar_payload a) (ar_at a)]) i.
Proof. unfold admit_send. intros H. repeat case_match; try done. gobool. by injection H as <-. Qed.

Lemma admit_send_rejected a i d i' : admit_send a i = (d, i') -> d <> AdmissionAccepted ->
  exists c, rejection c = true /\ i' = count c i.
Proof. unfold admit_send. intros H Hd. repeat case_match; injection H as <- <-; try done;
  (eexists; split; [|reflexivity]; reflexivity).
Qed.

Lemma recordQueueHighWater_inv n y admits' : ingress_inv y ->
  map_sum uncounted admits' = map_sum uncounted (y_admits y) ->
  (forall t a, admits' !! t = Some (AChecked a) -> y_admits y !! t = Some (AChecked a)) ->
  ingress_inv (upd y (recordQueueHighWater n (y_ingress y)) admits').
Proof.
  intros Hinv Hsum Hadm. unfold recordQueueHighWater.
  assert (Hkeep : ingress_inv (upd y (y_ingress y) admits')).
  { apply inv_admits; [done..|]. intros Hs t a Ht. by eapply (inv_barrier _ Hinv); [|apply Hadm]. }
  destruct (n <=? 0) eqn:E; [done|]. destruct (_ <=? i_counters _ _) eqn:E2; [done|]. clear Hkeep.
  gobool. destruct Hinv. constructor; cbn; rewrite ?Hsum; try done.
  - intros Hs t a Ht. by eapply inv_barrier0; [|apply Hadm].
  - rewrite decide_True by done. destruct (_ <? n) eqn:E3; gobool; lia.
Qed.

(** Where the entry of one call changes, no other call is past its check. *)
Lemma insert_not_checked t v (admits : gmap nat admission) : (forall a, v <> AChecked a) ->
  forall t' a, <[t := v]> admits !! t' = Some (AChecked a) -> admits !! t' = Some (AChecked a).
Proof. intros Hv t' a Ht. apply lookup_insert_Some in Ht as [[_ E]|[_ ?]]; [by destruct (Hv a)|done]. Qed.

Lemma delete_checked t (admits : gmap nat admission) t' a :
  delete t admits !! t' = Some (AChecked a) -> admits !! t' = Some (AChecked a).
Proof. intros Ht. by apply lookup_delete_Some in Ht as [_ ?]. Qed.

Lemma admit_step_inv y y' : ingress_inv y -> admit_step y y' -> ingress_inv y'.
Proof.
  intros Hinv Hstep. assert (Hb := inv_barrier _ Hinv). destruct Hstep.
  - by apply inv_count_rejection.
  - apply inv_admits; [done|(rewrite map_sum_insert by done); cbn; lia|].
    intros Hs t' a' Ht. apply insert_not_checked in Ht; [|done]. by eapply Hb.
  - apply inv_admits; [done|(rewrite (map_sum_update _ _ _ (AEntered a)) by done); cbn; lia|].
    intros Hs t' a' Ht. apply insert_not_checked in Ht; [|done]. by eapply Hb.
  - apply inv_count_rejection; [done|done| |apply delete_checked].
    rewrite (map_sum_delete _ _ _ (ALocked a)) by done. cbn. lia.
  - apply inv_admits; [done|(rewrite (map_sum_update _ _ _ (ALocked a)) by done); cbn; lia|]. congruence.
  - destruct (admit_send_rejected _ _ _ _ H0 H1) as (c & Hc & ->).
    apply inv_count_rejection; [done|done| |apply delete_checked].
    rewrite (map_sum_delete _ _ _ (AChecked a)) by done. cbn. lia.
  - apply admit_send_accepted in H0 as [Hlt ->].
    assert (Hns : i_stopping (y_ingress y) = false).
    { destruct (i_stopping (y_ingress y)) eqn:E; [|done]. by apply Hb in H. }
    destruct Hinv. constructor; cbn; rewrite ?length_app, ?Nat2Z.inj_add; cbn; try done.
    + lia.
    + intros Hs. congruence.
    + lia.
    + rewrite (map_sum_update _ _ _ (AChecked a)) by done. cbn. lia.
    + intros k Hk. assert (Hd := inv_drain0 k _ Hk eq_refl). congruence.
  - destruct Hinv. constructor; cbn; try done.
    + intros Hs t' a' Ht. apply insert_not_checked in Ht; [|done]. by eapply inv_barrier0.
    + rewrite (map_sum_update _ _ _ AEnqueued), bump_same by done. cbn. lia.
  - apply inv_admits; [done|(rewrite (map_sum_update _ _ _ ACounted) by done); cbn; lia|].
    intros Hs t' a' Ht. apply insert_not_checked in Ht; [|done]. by eapply Hb.
  - apply recordQueueHighWater_inv; [done| |apply delete_checked].
    rewrite (map_sum_delete _ _ _ (AObserved n)) by done. cbn. lia.
Qed.

(** A worker changes place. *)
Lemma inv_worker_move y k w w' : ingress_inv y -> i_workers (y_ingress y) !! k = Some w ->
  holding w = holding w' -> (draining_worker w' = true -> i_stopping (y_ingress y) = true) ->
  (w' = WExited -> i_queue (y_ingress y) = []) ->
  ingress_inv (upd y (set_workers (<[k := w']> (i_workers (y_ingress y))) (y_ingress y)) (y_admits y)).
Proof.
  intros [] Hk Hh Hd He. constructor; cbn; try done.
  - rewrite (list_sum_update _ _ _ w) by done. lia.
  - intros k' w1 Hk'. apply list_lookup_insert_Some in Hk' as [(_ & <- & _)|[_ Hk']]; eauto.
  - intros k' Hk'. apply list_lookup_insert_Some in Hk' as [(_ & -> & _)|[_ Hk']]; eauto.
  - intros Hs. by rewrite (inv_started0 Hs) in Hk.
Qed.

Lemma worker_step_inv y y' : ingress_inv y -> worker_step P y y' -> ingress_inv y'.
Proof.
  intros Hinv Hstep. destruct Hstep.
  - destruct Hinv. rewrite H0 in *. constructor; cbn in *; try done.
    + lia.
    + rewrite (list_sum_update _ _ _ (WWaiting d)) by done. cbn. lia.
    + intros k' w1 Hk' Hd. apply list_lookup_insert_Some in Hk' as [(_ & <- & _)|[_ Hk']]; [|eauto].
      by apply (inv_drain0 k (WWaiting d)).
    + intros k' Hk'. apply list_lookup_insert_Some in Hk' as [(_ & ? & _)|[_ Hk']]; [done|].
      by apply inv_exit0 in Hk'.
    + intros Hs. by rewrite (inv_started0 Hs) in H.
  - destruct (process_counts P env it (i_counters (y_ingress y)) (y_store y)) as (C1 & C2 & C3 & _ & C5).
    fold fx in C1, C2, C3, C5. clearbody fx. destruct Hinv. constructor; cbn; try done.
    + rewrite (list_sum_update _ _ _ (WHolding d it)), C1 by done. cbn. lia.
    + by rewrite C5.
    + by rewrite C5.
    + rewrite C1, C2. lia.
    + unfold ack_sum in *. lia.
    + intros k' w1 Hk' Hd. apply list_lookup_insert_Some in Hk' as [(_ & <- & _)|[_ Hk']]; [|eauto].
      by apply (inv_drain0 k (WHolding d it)).
    + intros k' Hk'. apply list_lookup_insert_Some in Hk' as [(_ & ? & _)|[_ Hk']]; eauto. done.
    + intros Hs. by rewrite (inv_started0 Hs) in H.
  - eapply inv_worker_move; [done|done|done| |done]. intros _. by rewrite <- (inv_stop _ Hinv).
  - eapply inv_worker_move; [done|done|done| |done]. intros _. by apply (inv_drain _ Hinv k (WWaiting true)).
Qed.

Lemma control_step_inv y y' : ingress_inv y -> control_step y y' -> ingress_inv y'.
Proof.
  intros Hinv Hstep. destruct Hstep.
  - unfold Start in H. destruct (i_started _) eqn:Es; [done|]. destruct (i_draining _); [done|].
    injection H as <-. destruct Hinv. rewrite (inv_started0 Es) in *. constructor; cbn in *; try done.
    + assert (Hz : list_sum holding (replicate (i_workerCount (y_ingress y)) (WWaiting false)) = 0).
      { induction (i_workerCount (y_ingress y)) as [|n IH]; [done|]. exact IH. }
      change (list_sum holding []) with 0 in *. lia.
    + intros k w Hk. by apply lookup_replicate in Hk as [-> _].
    + intros k Hk. by apply lookup_replicate in Hk as [? _].
  - unfold StopAdmission. destruct (i_stopping (y_ingress y)) eqn:E.
    { destruct Hinv. constructor; cbn; try done. }
    destruct Hinv. constructor; cbn; try done.
    intros _ t a Ht. specialize (H t (AChecked a) Ht). done.
  - destruct Hinv. by constructor.
  - destruct Hinv. by constructor.
Qed.

Lemma reachable_inv opts st y : reachable P opts st y -> ingress_inv y.
Proof.
  induction 1 as [i Hnew|y y' _ IH [Hs|Hs|Hs]].
  - unfold New in Hnew. inv_ok Hnew. gobool. subst. constructor; cbn; try done;
      try (unfold zero_counters; lia).
  - by eapply admit_step_inv.
  - by eapply worker_step_inv.
  - by eapply control_step_inv.
Qed.

(** ** Configuration *)

Lemma reachable_config opts st y : reachable P opts st y ->
  i_capacity (y_ingress y) = o_QueueCapacity opts
  /\ i_workerCount (y_ingress y) = Z.to_nat (o_WorkerCount opts)
  /\ (length (i_workers (y_ingress y)) <= Z.to_nat (o_WorkerCount opts))%nat.
Proof.
  induction 1 as [i Hnew|y y' _ IH Hs].
  { unfold New in Hnew. inv_ok Hnew. subst. cbn. lia. }
  destruct IH as (Hc & Hw & Hl). destruct Hs as [Hs|Hs|Hs]; destruct Hs; cbn; rewrite ?length_insert; try done.
  - destruct (admit_send_rejected _ _ _ _ H0 H1) as (c & _ & ->). done.
  - apply admit_send_accepted in H0 as [_ ->]. done.
  - unfold recordQueueHighWater. by repeat case_match.
  - unfold Start in H. inv_ok H. subst. cbn. rewrite length_replicate, <- Hw. done.
  - unfold StopAdmission. by case_match.
Qed.

Lemma holding_bound (ws : list worker) : list_sum holding ws <= Z.of_nat (length ws).
Proof.
  induction ws as [|w ws IH]; [done|]. change (holding w + list_sum holding ws <= Z.of_nat (S (length ws))).
  assert (holding w <= 1) by (by destruct w). lia.
Qed.

(** In every reachable state the queue holds at most its capacity,
    the items sent but not yet processed are at most the capacity plus one per
    worker, and the high-water mark stays between zero and the capacity. *)
Theorem ingress_bounded opts st y : reachable P opts st y ->
  Z.of_nat (length (i_queue (y_ingress y))) <= o_QueueCapacity opts
  /\ y_sent y - i_counters (y_ingress y) processed <= o_QueueCapacity opts + o_WorkerCount opts
  /\ 0 <= i_counters (y_ingress y) queueHighWater <= o_QueueCapacity opts.
Proof.
  intros Hr. pose proof (reachable_inv opts st y Hr) as []. destruct (reachable_config opts st y Hr) as (Hc & _ & Hl).
  pose proof (holding_bound (i_workers (y_ingress y))). rewrite Hc in *.
  assert (0 <= o_WorkerCount opts).
  { clear -Hr. induction Hr as [i Hnew|]; [|done]. unfold New in Hnew. inv_ok Hnew. gobool. lia. }
  split_and!; lia.
Qed.

(** In every reachable state each item sent into the queue is
    waiting, held by one worker, or processed once; it is counted as accepted
    except by the calls that have yet to count it; the processed items split
    exactly into the six outcomes, and the confirmed commits split exactly into
    published, unpublished and unbuildable acknowledgements. *)
Theorem ingress_conserved opts st y : reachable P opts st y ->
  let cs := i_counters (y_ingress y) in
  y_sent y = Z.of_nat (length (i_queue (y_ingress y))) + list_sum holding (i_workers (y_ingress y)) + cs processed
  /\ y_sent y = cs accepted + map_sum uncounted (y_admits y)
  /\ cs processed = cs validationRejected + cs persistFailures + cs commitUnconfirmed
       + cs identityMismatch + cs committed + cs duplicateCommitted
  /\ cs committed + cs duplicateCommitted = cs ackBuildFailures + cs ackPublished + cs ackPublishFailures.
Proof. intros Hr. by destruct (reachable_inv opts st y Hr). Qed.

(** ** The barrier and the drain *)

Inductive steps : System store -> System store -> Prop :=
| steps_refl y : steps y y
| steps_step y y' y'' : step P y y' -> steps y' y'' -> steps y y''.

Lemma stopped_step y y' : ingress_inv y -> i_stopping (y_ingress y) = true -> step P y y' ->
  i_stopping (y_ingress y') = true /\ y_sent y' = y_sent y
  /\ (length (i_queue (y_ingress y')) <= length (i_queue (y_ingress y)))%nat.
Proof.
  intros Hinv Hs Hstep. destruct Hstep as [H|H|H]; destruct H; cbn; try done.
  - destruct (admit_send_rejected _ _ _ _ H0 H1) as (c & _ & ->). done.
  - by apply (inv_barrier _ Hinv Hs) in H.
  - unfold recordQueueHighWater. by repeat case_match.
  - rewrite H0. cbn. split_and!; [done|done|lia].
  - unfold Start in H. inv_ok H. subst. done.
  - unfold StopAdmission. by rewrite Hs.
Qed.

Lemma step_inv y y' : ingress_inv y -> step P y y' -> ingress_inv y'.
Proof. intros Hi [H|H|H]; eauto using admit_step_inv, worker_step_inv, control_step_inv. Qed.

Lemma stopped_steps y y' : steps y y' -> ingress_inv y -> i_stopping (y_ingress y) = true ->
  ingress_inv y' /\ i_stopping (y_ingress y') = true /\ y_sent y' = y_sent y
  /\ (length (i_queue (y_ingress y')) <= length (i_queue (y_ingress y)))%nat.
Proof.
  induction 1 as [y|y y' y'' Hs _ IH]; intros Hi Hst; [done|].
  destruct (stopped_step _ _ Hi Hst Hs) as (Hst' & Hsent & Hlen).
  destruct (IH (step_inv _ _ Hi Hs) Hst') as (? & ? & ? & ?). split_and!; try done; [congruence|lia].
Qed.

(** C37 [StopAdmission] is a barrier and the drain is complete.  Once it has
    run, no call ever enqueues again and the queue only shrinks; and when every
    worker has returned, the queue is empty and every item that was ever sent
    has been processed exactly once. *)
Theorem drain_complete opts st y y' : reachable P opts st y -> i_stopping (y_ingress y) = true -> steps y y' ->
  y_sent y' = y_sent y
  /\ (length (i_queue (y_ingress y')) <= length (i_queue (y_ingress y)))%nat
  /\ (i_workers (y_ingress y') <> [] -> Forall (fun w => w = WExited) (i_workers (y_ingress y')) ->
       i_queue (y_ingress y') = [] /\ i_counters (y_ingress y') processed = y_sent y).
Proof.
  intros Hr Hs Hsteps. destruct (stopped_steps _ _ Hsteps (reachable_inv _ _ _ Hr) Hs) as (Hi & _ & Hsent & Hlen).
  split_and!; [done..|]. intros Hne Hall.
  assert (Hz : list_sum holding (i_workers (y_ingress y')) = 0).
  { induction Hall as [|w ws -> _ IH]; [done|]. destruct ws; [done|]. by apply IH. }
  destruct (i_workers (y_ingress y')) as [|w ws] eqn:E; [done|]. inversion Hall; subst.
  assert (Hq : i_queue (y_ingress y') = []) by (apply (inv_exit _ Hi 0%nat); by rewrite E).
  split; [done|]. pose proof (inv_sent_processed _ Hi) as Hc. rewrite Hq, E, Hz in Hc. cbn in Hc. lia.
Qed.

(** Work left for the workers after the stop. *)
Definition worker_work (w : worker) : Z :=
  match w with
  | WExited => 0 | WWaiting true => 1 | WHolding true _ => 2 | WWaiting false => 2 | WHolding false _ => 3
  end.
Definition work (y : System store) : Z :=
  2 * Z.of_nat (length (i_queue (y_ingress y))) + list_sum worker_work (i_workers (y_ingress y)).

(** After the stop every worker step reduces a measure bounded by
    the queue and the workers, and as long as a worker has not returned some
    worker step is possible: the workers return after finitely many steps. *)
Theorem drain_terminates opts st y : reachable P opts st y -> i_stopping (y_ingress y) = true ->
  0 <= work y
  /\ (forall y', worker_step P y y' -> work y' < work y)
  /\ (forall k w (env : Env), i_workers (y_ingress y) !! k = Some w -> w <> WExited ->
       exists y', worker_step P y y').
Proof.
  intros Hr Hs. pose proof (reachable_inv _ _ _ Hr) as Hi. split_and!.
  - unfold work. assert (0 <= list_sum worker_work (i_workers (y_ingress y))); [|lia].
    apply list_sum_nonneg. by intros [[]|[]|].
  - intros y' Hstep. unfold work. destruct Hstep; cbn.
    + rewrite (list_sum_update _ _ _ (WWaiting d)), H0 by done. cbn [length]. destruct d; cbn; lia.
    + rewrite (list_sum_update _ _ _ (WHolding d it)) by done. destruct d; cbn; lia.
    + rewrite (list_sum_update _ _ _ (WWaiting false)) by done. cbn. lia.
    + rewrite (list_sum_update _ _ _ (WWaiting true)) by done. cbn. lia.
  - intros k w env Hk Hw. destruct w as [[]|d it|]; [| | |done].
    + destruct (i_queue (y_ingress y)) as [|it q] eqn:Eq; eexists; [by eapply step_exit|by eapply step_receive].
    + eexists. eapply step_see_stop; [done|]. by rewrite (inv_stop _ Hi).
    + eexists. by eapply (step_process _ _ _ _ _ env).
Qed.

End interleaving.

(** * An acknowledgement proves a recorded message

    The ingress core only sees its dependencies through interfaces.
    [RepositoryContract] states what the validator and the repository promise
    it; the core's theorem is proved against that contract, and the telemetry
    package discharges it. *)

Class RepositoryContract {uuid : Type} `{U : UuidLib uuid} {store : Type} (P : Pipeline uuid store) := {
  (** The repository durably holds the message. *)
  recorded : store -> string -> uuid -> Prop;
  (** A validated message's topic and payload name the same Gateway. *)
  rc_gateway t p at_ m : p_Validate P t p at_ = Ok m -> t_GatewayID (topic m) = GatewayID (batch m);
  (** A confirmed commit means the message is recorded. *)
  rc_records t p at_ m w st r st' : p_Validate P t p at_ = Ok m -> p_Persist P w m st = (Ok r, st') ->
    Outcome r = CommitOutcomeCommitted \/ Outcome r = CommitOutcomeDuplicateCommitted ->
    recorded st' (GatewayID (batch m)) (MessageID (batch m));
  (** Nothing recorded is lost. *)
  rc_keeps t p at_ m w st r st' g id : p_Validate P t p at_ = Ok m -> p_Persist P w m st = (r, st') ->
    recorded st g id -> recorded st' g id;
}.

Section core.
Context {uuid : Type} `{U : UuidLib uuid} {store : Type} (P : Pipeline uuid store).

(** The store only changes by persisting validated messages. *)
Lemma process_store env it cs st : let fx := process P env it cs st in
  fx_store fx = st \/ exists m, p_Validate P (it_topic it) (it_payload it) (it_receivedAt it) = Ok m
    /\ fx_store fx = (p_Persist P (env_weather env) m st).2.
Proof.
  cbv zeta. unfold process, process_item. cbn [fx_store].
  destruct (p_Validate P _ _ _) as [m|e]; [|by left].
  destruct (p_Persist P _ m st) as [[r|e] st'] eqn:E; right; exists m; rewrite E;
    (split; [done|]); repeat case_match; done.
Qed.

Lemma reachable_store (Q : store -> Prop) opts st y : reachable P opts st y -> Q st ->
  (forall t p at_ m w s, p_Validate P t p at_ = Ok m -> Q s -> Q (p_Persist P w m s).2) -> Q (y_store y).
Proof.
  intros Hr H0 HQ. induction Hr as [i _|y y' _ IH Hs]; [done|].
  destruct Hs as [Hs|Hs|Hs]; destruct Hs; try exact IH.
  change (Q (fx_store fx)).
  destruct (process_store env it (i_counters (y_ingress y)) (y_store y)) as [E|(m & Hm & E)];
    fold fx in E; rewrite E; eauto.
Qed.

Context `{!RepositoryContract P}.

(** A delivery that acknowledges a recorded message. *)
Definition acknowledges (st : store) (d : Delivery) : Prop :=
  exists g id at_, recorded st g id /\ d_Topic d = ack_topic g id
    /\ marshalACK (mkCommitACK 1 "telemetry_ack" id "committed" at_) = Some (d_Payload d)
    /\ d_QoS d = 1 /\ d_Retained d = false.

Lemma process_acknowledges env it cs st d : let fx := process P env it cs st in
  fx_published fx = Some d -> acknowledges (fx_store fx) d.
Proof.
  cbv zeta. unfold process, process_item. cbn [fx_published fx_store].
  destruct (p_Validate P _ _ _) as [m|e] eqn:Hm; [|done].
  destruct (p_Persist P _ m st) as [[r|e] st'] eqn:Hp; [|done].
  destruct (negb _ && negb _) eqn:Ho; [done|]. destruct (negb (identityMatches _ _)); [done|].
  destruct (NewCommitACK _ _ _ _) as [[text ack]|e] eqn:Ha; [|done].
  destruct (marshalACK ack) as [wire|] eqn:Hw; [|done].
  apply NewCommitACK_ok in Ha as (_ & _ & _ & -> & _ & ->).
  cbn [Message_Topic Message_Batch] in *. rewrite (rc_gateway _ _ _ _ Hm).
  assert (Hrec : recorded st' (GatewayID (batch m)) (MessageID (batch m))).
  { eapply rc_records; [exact Hm|exact Hp|].
    apply andb_false_iff in Ho. rewrite !negb_false_iff, !bool_decide_eq_true in Ho. done. }
  destruct (env_publish env); cbn; intros [= <-]; do 3 eexists; (split; [exact Hrec|]); by split_and!.
Qed.

Lemma process_keeps env it cs st g id : recorded st g id ->
  recorded (fx_store (process P env it cs st)) g id.
Proof.
  intros Hr. destruct (process_store env it cs st) as [->|(m & Hm & ->)]; [done|].
  destruct (p_Persist P (env_weather env) m st) as [r st'] eqn:E. cbn. by eapply rc_keeps.
Qed.

Lemma acknowledges_mono st st' d : (forall g id, recorded st g id -> recorded st' g id) ->
  acknowledges st d -> acknowledges st' d.
Proof. intros Hm (g & id & t & Hr & H). exists g, id, t. split; [by apply Hm|done]. Qed.

Lemma published_acknowledge opts st y : reachable P opts st y ->
  Forall (acknowledges (y_store y)) (y_published y).
Proof.
  induction 1 as [i _|y y' _ IH Hs]; [constructor|].
  destruct Hs as [Hs|Hs|Hs]; destruct Hs; try exact IH. cbn [y_published y_store].
  apply list.Forall_app. split.
  - eapply list.Forall_impl; [exact IH|]. intros d' Hd. eapply acknowledges_mono; [|exact Hd].
    intros g id. apply process_keeps.
  - destruct (fx_published fx) as [d'|] eqn:E; [|constructor]. constructor; [|constructor].
    by apply process_acknowledges.
Qed.

(** C-ack-safety Against any validator and repository that keep the contract,
    for every interleaving: whatever the core hands to the publisher is the
    version-1 acknowledgement of a message the repository has durably recorded,
    on that message's topic, at QoS 1 and not retained. *)
Theorem acks_only_recorded opts st y d : reachable P opts st y -> d ∈ y_published y ->
  acknowledges (y_store y) d.
Proof. intros Hr Hd. by apply (proj1 (list.Forall_forall _ _) (published_acknowledge _ _ _ Hr)). Qed.

End core.

(** ** The telemetry package keeps the contract *)

Section telemetry.
Context {uuid : Type} `{U : UuidLib uuid} (v : Validator) (Hdur : MaxBatchDuration (limits v) <= max_int64).

Definition telemetry_pipeline : Pipeline uuid (DB uuid) :=
  mkPipeline (Validate (Some v)) (fun w m db => Persist w true (Some m) db).

(** The ledger holds the message with its provenance. *)
Definition ledger_records (db : DB uuid) (g : string) (id : uuid) : Prop :=
  exists row first, processed_messages db !! (g, id) = Some row /\ l_first_sequence row = Some first.

Lemma ledger_row_recorded m md row db : message_ok m -> entry_of m md ->
  processed_messages db !! ledger_key md = Some row -> l_first_sequence row = Some (s_SequenceNum (lm_firstSample md)) ->
  ledger_records db (GatewayID (batch m)) (MessageID (batch m)).
Proof.
  intros Hm Hent Hrow Hf. exists row, (s_SequenceNum (lm_firstSample md)). split; [|done].
  by rewrite <- Hrow; unfold ledger_key; rewrite (ent_topic _ _ Hent), (ent_message _ _ Hent), (mok_topic _ Hm).
Qed.

#[export] Instance telemetry_contract : RepositoryContract telemetry_pipeline.
Proof.
  refine {| recorded := ledger_records |}; cbn [telemetry_pipeline p_Validate p_Persist].
  - intros t p at_ m Hm. apply (Validate_message_ok _ _ _ _ _ Hdur) in Hm as (Hm & _). by rewrite (mok_topic _ Hm).
  - intros t p at_ m w st r st' Hm Hp Ho. apply (Validate_message_ok _ _ _ _ _ Hdur) in Hm as (Hm & _).
    destruct (ledgerMetadata_valid m Hm) as (md & Hmd & Hent). apply persist_outcome in Hp.
    destruct Hp as (md' & E & Hp). rewrite Hmd in E. injection E as <-.
    destruct Hp as [(_ & -> & row & Hrow & Hc)|(_ & _ & resource & Heff)].
    + eapply ledger_row_recorded; [done..|]. by apply classify_conflict_dup in Hc as (_ & _ & _ & _ & _ & Hf & _).
    + eapply ledger_row_recorded; [done..| |]; [by rewrite (eff_ledger _ _ _ _ _ _ Heff), lookup_insert_eq|done].
  - intros t p at_ m w st r st' g id Hm Hp (row & first & Hrow & Hf).
    apply (Validate_message_ok _ _ _ _ _ Hdur) in Hm as (Hm & _).
    destruct (ledgerMetadata_valid m Hm) as (md & Hmd & Hent). exists row, first. split; [|done].
    destruct (persist_cases _ _ _ _ _ _ _ Hmd Hp) as [->|[resource Heff]]; [done|].
    rewrite (eff_ledger _ _ _ _ _ _ Heff). apply lookup_insert_Some. right. split; [|done].
    intros E. rewrite <- E in Hrow. by rewrite (eff_absent _ _ _ _ _ _ Heff) in Hrow.
Defined.

Lemma effect_inv now db m md resource db' : message_ok m -> entry_of m md ->
  committed_effect now db m md resource db' -> telemetry_inv db -> telemetry_inv db'.
Proof.
  intros Hm Hent Heff [Hr Hs]. split; [by eapply effect_ranges_disjoint|by eapply effect_samples_in_step].
Qed.

Lemma telemetry_store_inv opts db y : reachable telemetry_pipeline opts db y -> telemetry_inv db ->
  telemetry_inv (y_store y).
Proof.
  intros Hr Hi. apply (reachable_store _ _ _ _ _ Hr Hi). cbn.
  intros t p at_ m w s Hm Hs. apply (Validate_message_ok _ _ _ _ _ Hdur) in Hm as (Hm & _).
  destruct (ledgerMetadata_valid m Hm) as (md & Hmd & Hent).
  destruct (Persist w true (Some m) s) as [r s'] eqn:E. cbn.
  destruct (persist_cases _ _ _ _ _ _ _ Hmd E) as [->|[resource Heff]]; [done|by eapply effect_inv].
Qed.

(** C2 With the telemetry package plugged in, starting from
    consistent tables: every acknowledgement the core ever handed to the
    publisher names a message whose ledger row is present and whose samples are
    all stored, each exactly once, in sequence order. *)
Theorem acked_samples_stored opts db y d : reachable telemetry_pipeline opts db y -> telemetry_inv db ->
  d ∈ y_published y -> exists g id row, d_Topic d = ack_topic g id
    /\ processed_messages (y_store y) !! (g, id) = Some row
    /\ rows_match row (rows_of (y_store y) (g, id)).
Proof.
  intros Hr Hi Hd.
  pose proof (proj1 (list.Forall_forall _ _) (published_acknowledge _ _ _ _ Hr) d Hd) as (g & id & t & Hrec & Ht & _).
  destruct Hrec as (row & first & Hrow & Hf). exists g, id, row. split_and!; [done..|].
  pose proof (inv_samples _ (telemetry_store_inv _ _ _ Hr Hi) (g, id)) as Hstep. rewrite Hrow in Hstep.
  destruct Hstep as [Hn|Hm]; [congruence|done].
Qed.

End telemetry.
