(* ===== verification/IngressDemo.v ===== *)
(** * A provisioned database and the theorems at work on it *)

From S2P Require Import Prelude GoStrings GoSha256 GoTime GoFloat GoJson Uuid Identity Telemetry Decode Validation.
From S2P Require Import Message Txn Store Persist PersistSpec Ingress IngressSpec.
Import Canonical Demo.
#[local] Open Scope Z_scope.

Definition gateway_entity : cuuid := mk "11111111-1111-4111-8111-111111111111" eq_refl.
Definition sensor_entity : cuuid := mk "22222222-2222-4222-8222-222222222222" eq_refl.

Definition empty_state : TwinState :=
  mkTwinState (JsonbObject ∅) (JsonbObject ∅) 0 0 None None 0.

Definition demo_db : DB cuuid :=
  mkDB {["gw-1"]} {[("gw-1", "s_1") := Some "Celsius"]} ∅ [] 1
    [mkTwinEntity gateway_entity "urn:ngsi-ld:Gateway:gw-1" "Gateway" (Some "gw-1");
     mkTwinEntity sensor_entity "urn:ngsi-ld:Sensor:gw-1:s_1" "Sensor" (Some "gw-1")]
    [mkTwinRelationship gateway_entity "hasSensor" sensor_entity]
    {[gateway_entity := empty_state; sensor_entity := empty_state]} [].

Definition demo_sky : Weather := mkWeather Works [] CommitOk 7.
Definition demo_run : res error (PersistResult cuuid) * DB cuuid :=
  Persist demo_sky true (Some demo_message) demo_db.

(** A commit whose answer was lost although it became durable. *)
Definition lost_commit : Weather := mkWeather Works [] (CommitError (EOther "connection reset") true) 7.
Definition lost_run : res error (PersistResult cuuid) * DB cuuid :=
  Persist lost_commit true (Some demo_message) demo_db.

Definition demo_resource : resolvedTelemetryResource cuuid :=
  mkResource "gw-1" "s_1" sensor_entity (Some "Celsius").

Example demo_run_committed :
  (fun r => (Outcome r, SamplesSaved r)) <$>
    (match demo_run.1 with Ok r => Some r | Err _ => None end) = Some (CommitOutcomeCommitted, 2)
  /\ length (telemetry demo_run.2) = 2%nat /\ size (processed_messages demo_run.2) = 1%nat.
Proof. vm_compute. done. Qed.

Lemma demo_provisioned : provisioned demo_db demo_message demo_resource.
Proof.
  unfold provisioned. cbv zeta. split; [vm_compute; reflexivity|]. split; [reflexivity|].
  split; [reflexivity|]. split; [reflexivity|]. exists gateway_entity, [].
  split; [vm_compute; reflexivity|]. split; intros E; apply (f_equal text) in E; discriminate E.
Qed.

Lemma demo_in_step : samples_in_step demo_db.
Proof. intros k. unfold demo_db at 1. cbn [processed_messages]. by rewrite lookup_empty. Qed.

Lemma demo_inv : telemetry_inv demo_db.
Proof. split; [|apply demo_in_step]. intros k1 k2 r1 r2 _ H. unfold demo_db in H. cbn [processed_messages] in H.
  by rewrite lookup_empty in H.
Qed.

Lemma demo_run_ok : is_ok demo_run.1 = true.
Proof. vm_compute. reflexivity. Qed.

Lemma lost_run_durable : lost_run.2 <> demo_db.
Proof. intros E. apply (f_equal (fun d => length (telemetry d))) in E. vm_compute in E. discriminate E. Qed.

Lemma Persist_atomic_witness : is_ok demo_run.1 = true /\ exists md, ledgerMetadata (Some demo_message) = Ok md.
Proof.
  split; [exact demo_run_ok|].
  assert (H := Persist_atomic demo_sky true demo_message demo_db _ _ (surjective_pairing demo_run)).
  pose proof demo_run_ok as Hok. destruct demo_run.1 as [r|e]; [|discriminate Hok].
  destruct H as (md & Hmd & _). exists md. exact Hmd.
Defined.

Lemma Persist_preserves_witness : telemetry_inv demo_run.2.
Proof.
  exact (proj1 (Persist_preserves demo_sky true demo_message demo_db _ _ demo_message_ok
    (surjective_pairing demo_run) demo_inv)).
Defined.

Lemma Persist_redelivery_witness :
  exists r, Persist demo_sky true (Some demo_message) lost_run.2 = (Ok r, lost_run.2)
    /\ Outcome r = CommitOutcomeDuplicateCommitted.
Proof.
  apply (Persist_redelivery lost_commit true demo_message demo_db lost_run.1 lost_run.2 demo_sky
    demo_message_ok (surjective_pairing lost_run)).
  - right. exact lost_run_durable.
  - repeat split.
Defined.

(** The same identifier already recorded with another payload. *)
Definition other_row : LedgerRow cuuid :=
  mkLedgerRow "00" (Some demo_topic) (Some "s_1") (Some boot) (Some 5) (Some 6) (Some 2).
Definition conflict_db : DB cuuid :=
  mkDB (gateways demo_db) (sensors demo_db) {[("gw-1", id4) := other_row]} [] 1
    (twin_entities demo_db) (twin_relationships demo_db) (twin_states demo_db) [].
Definition conflict_run : res error (PersistResult cuuid) * DB cuuid :=
  Persist demo_sky true (Some demo_message) conflict_db.

Lemma Persist_conflict_witness : is_ok conflict_run.1 = false /\ conflict_run.2 = conflict_db.
Proof.
  apply (Persist_conflict demo_sky true demo_message conflict_db other_row conflict_run.1 conflict_run.2
    demo_message_ok).
  - vm_compute. reflexivity.
  - left. vm_compute. discriminate.
  - exact (surjective_pairing conflict_run).
Defined.

Lemma conflict_run_error : conflict_run.1 = Err (reason ReasonMessageConflict "message_id").
Proof. vm_compute. reflexivity. Qed.

Lemma Persist_errors_classified_witness : exists e, conflict_run.1 = Err e
  /\ ClassifyFailure (Some e) <> FailureUnknown.
Proof.
  exists (reason ReasonMessageConflict "message_id"). split; [exact conflict_run_error|].
  apply (Persist_errors_classified demo_sky true demo_message conflict_db _ conflict_run.2).
  rewrite <- conflict_run_error. exact (surjective_pairing conflict_run).
Defined.

Lemma Persist_stores_witness : exists result db',
  Persist demo_sky true (Some demo_message) demo_db = (Ok result, db')
  /\ Outcome result = CommitOutcomeCommitted /\ SamplesSaved result = SampleCount (batch demo_message).
Proof.
  apply (Persist_stores demo_sky demo_message demo_db demo_resource empty_state demo_message_ok).
  - repeat split.
  - exact demo_provisioned.
  - exact demo_in_step.
  - reflexivity.
  - intros k row first last H. unfold demo_db in H. cbn [processed_messages] in H.
    rewrite lookup_empty in H. discriminate H.
  - vm_compute. reflexivity.
  - vm_compute. split; [discriminate|reflexivity].
Defined.

(** * A run of the ingress: one delivery admitted, persisted, acknowledged and drained *)

Import Canonical Demo.

Definition demo_opts : Options := mkOptions 4 1 4096 Second Second.
Definition demo_args : delivery_args := mkArgs demo_topic demo_payload demo_received false.
Definition demo_pipeline : Pipeline cuuid (DB cuuid) := telemetry_pipeline demo_validator.
Definition demo_env : Env := mkEnv demo_sky (mkTime 1777890036000000000 0) None 5.

(** The ingress as [New] builds it, and after [Start]. *)
Definition fresh : Ingress := mkIngress 4 1 4096 [] false false false false false [] zero_counters.
Definition running : Ingress := mkIngress 4 1 4096 [] false false true false false [WWaiting false] zero_counters.

Example Admit_ex :
  map (fun a => (Admit a running).1)
    [demo_args; mkArgs demo_topic demo_payload demo_received true; mkArgs "gateways/x" "" demo_received false]
  = [AdmissionAccepted; AdmissionRejectedRetained; AdmissionRejectedInvalidTopic]
  /\ (Admit demo_args fresh).1 = AdmissionRejectedNotRunning
  /\ (Admit demo_args (StopAdmission running)).1 = AdmissionRejectedStopping.
Proof. vm_compute. done. Qed.

Definition demo_item : item := mkItem demo_topic demo_payload demo_received.

(** The counters after the admission, and what processing the item does. *)
Definition admitted_counters : counters :=
  i_counters (recordQueueHighWater 1 (count accepted (set_queue [demo_item] running))).
Definition demo_fx : Effects (DB cuuid) := process demo_pipeline demo_env demo_item admitted_counters demo_db.

Definition with_item : System (DB cuuid) :=
  mkSystem (mkIngress 4 1 4096 [] false false true false false [WHolding false demo_item] admitted_counters)
    ∅ demo_db [] 1.
(** The item is processed; [stop] tells whether admission stopped. *)
Definition after_item (stop : bool) (w : worker) : System (DB cuuid) :=
  mkSystem (mkIngress 4 1 4096 [] stop stop true false false [w] (fx_counters demo_fx))
    ∅ (fx_store demo_fx) (option_list (fx_published demo_fx)) 1.

(** [extend R R' c] adds the step [c y] to the run [R] that ends in [y]. *)
Ltac extend R R' c :=
  match type of R with
  | reachable _ _ _ ?y => let st := c y in pose proof (reach_step _ _ _ _ _ R st) as R'
  end.

Lemma admitted_reachable : reachable demo_pipeline demo_opts demo_db with_item.
Proof.
  pose proof (reach_new demo_pipeline demo_opts demo_db fresh eq_refl) as R.
  extend R R1 ltac:(fun y => constr:(by_control demo_pipeline y _ (step_start y running eq_refl))).
  extend R1 R2 ltac:(fun y => constr:(by_admit demo_pipeline y _ (step_enter y 0%nat demo_args eq_refl eq_refl))).
  extend R2 R3 ltac:(fun y => constr:(by_admit demo_pipeline y _ (step_lock y 0%nat demo_args eq_refl))).
  extend R3 R4 ltac:(fun y => constr:(by_admit demo_pipeline y _ (step_check y 0%nat demo_args eq_refl eq_refl))).
  extend R4 R5 ltac:(fun y => constr:(by_admit demo_pipeline y _ (step_send y 0%nat demo_args (set_queue [demo_item] running) eq_refl eq_refl))).
  extend R5 R6 ltac:(fun y => constr:(by_admit demo_pipeline y _ (step_count y 0%nat eq_refl))).
  extend R6 R7 ltac:(fun y => constr:(by_admit demo_pipeline y _ (step_observe y 0%nat eq_refl))).
  extend R7 R8 ltac:(fun y => constr:(by_admit demo_pipeline y _ (step_high_water y 0%nat 1 eq_refl))).
  extend R8 R9 ltac:(fun y => constr:(by_worker demo_pipeline y _ (step_receive demo_pipeline y 0%nat false demo_item [] eq_refl eq_refl))).
  exact R9.
Qed.

Lemma processed_reachable : reachable demo_pipeline demo_opts demo_db (after_item false (WWaiting false)).
Proof.
  exact (reach_step _ _ _ _ _ admitted_reachable (by_worker demo_pipeline with_item _
    (step_process demo_pipeline with_item 0%nat false demo_item demo_env eq_refl))).
Qed.

(** One delivery goes through, then admission stops and the worker returns. *)
Definition drained : System (DB cuuid) := after_item true WExited.

Lemma drained_reachable : reachable demo_pipeline demo_opts demo_db drained.
Proof.
  pose proof (reach_step _ _ _ _ _ processed_reachable (by_control demo_pipeline _ _
    (step_stop (after_item false (WWaiting false)) (map_Forall_empty _)))) as R1.
  pose proof (reach_step _ _ _ _ _ (R1 : reachable _ _ _ (after_item true (WWaiting false)))
    (by_worker demo_pipeline _ _ (step_see_stop demo_pipeline (after_item true (WWaiting false)) 0%nat
      eq_refl eq_refl))) as R2.
  exact (reach_step _ _ _ _ _ (R2 : reachable _ _ _ (after_item true (WWaiting true)))
    (by_worker demo_pipeline _ _ (step_exit demo_pipeline (after_item true (WWaiting true)) 0%nat
      eq_refl eq_refl))).
Qed.

Lemma demo_reachable : exists y, reachable demo_pipeline demo_opts demo_db y
  /\ length (y_published y) = 1%nat /\ i_stopping (y_ingress y) = true
  /\ i_workers (y_ingress y) = [WExited] /\ y_sent y = 1.
Proof.
  exists drained. split; [exact drained_reachable|]. split; [vm_compute; reflexivity|].
  split; [reflexivity|]. split; reflexivity.
Qed.

Lemma Admit_spec_witness : (Admit demo_args running).1 = admit_class demo_args running.
Proof. exact (proj1 (Admit_spec demo_args running _ _ (surjective_pairing _))). Defined.

Lemma ingress_bounded_witness : exists y, y_sent y = 1
  /\ Z.of_nat (length (i_queue (y_ingress (y : System (DB cuuid))))) <= 4.
Proof.
  destruct demo_reachable as (y & Hr & _ & _ & _ & Hs). exists y. split; [exact Hs|].
  exact (proj1 (ingress_bounded demo_pipeline demo_opts demo_db y Hr)).
Defined.

Lemma ingress_conserved_witness : exists y : System (DB cuuid), y_sent y = 1
  /\ y_sent y = i_counters (y_ingress y) accepted + map_sum uncounted (y_admits y).
Proof.
  destruct demo_reachable as (y & Hr & _ & _ & _ & Hs). exists y. split; [exact Hs|].
  exact (proj1 (proj2 (ingress_conserved demo_pipeline demo_opts demo_db y Hr))).
Defined.

Lemma drain_complete_witness : exists y : System (DB cuuid), y_sent y = 1
  /\ i_queue (y_ingress y) = [] /\ i_counters (y_ingress y) processed = 1.
Proof.
  destruct demo_reachable as (y & Hr & _ & Hst & Hw & Hs). exists y. split; [exact Hs|].
  destruct (drain_complete demo_pipeline demo_opts demo_db y y Hr Hst (steps_refl _ y)) as (_ & _ & H).
  rewrite Hw, Hs in H. apply H; [discriminate|]. constructor; [reflexivity|constructor].
Defined.

Lemma drain_terminates_witness : exists y : System (DB cuuid), y_sent y = 1 /\ 0 <= work y.
Proof.
  destruct demo_reachable as (y & Hr & _ & Hst & _ & Hs). exists y. split; [exact Hs|].
  exact (proj1 (drain_terminates demo_pipeline demo_opts demo_db y Hr Hst)).
Defined.

Lemma demo_duration : MaxBatchDuration (limits demo_validator) <= max_int64.
Proof. vm_compute. discriminate. Qed.

Lemma acks_only_recorded_witness : exists y d, d ∈ y_published (y : System (DB cuuid))
  /\ acknowledges demo_pipeline (RepositoryContract0 := telemetry_contract demo_validator demo_duration)
       (y_store y) d.
Proof.
  destruct demo_reachable as (y & Hr & Hp & _). destruct (y_published y) as [|d l] eqn:E; [discriminate Hp|].
  exists y, d. rewrite E. split; [left|].
  apply (acks_only_recorded demo_pipeline (RepositoryContract0 := telemetry_contract demo_validator demo_duration)
    demo_opts demo_db y d Hr). rewrite E. left.
Defined.

Lemma acked_samples_stored_witness : exists (y : System (DB cuuid)) g id row,
  processed_messages (y_store y) !! (g, id) = Some row /\ rows_match row (rows_of (y_store y) (g, id)).
Proof.
  destruct demo_reachable as (y & Hr & Hp & _). destruct (y_published y) as [|d l] eqn:E; [discriminate Hp|].
  assert (Hd : d ∈ y_published y) by (rewrite E; left).
  destruct (acked_samples_stored demo_validator demo_duration demo_opts demo_db y d Hr demo_inv Hd)
    as (g & id & row & _ & H1 & H2). exists y, g, id, row. split; [exact H1|exact H2].
Defined.
