(* ===== verification/Batch.v ===== *)
(** * Building one synthetic batch (gateway simulator)

    [gatewaysim/batch.go]: the deterministic readings, the serialized
    [telemetry_batch] and its check by the server's own validator. *)

From S2P Require Import Prelude GoStrings GoSha256 GoTime GoFloat GoJson Identity Uuid Telemetry Decode Validation Message.
#[local] Open Scope Z_scope.

Definition ServerLimits : Limits := mkLimits 65536 1000 (60 * Second) (2 * Minute).

Record BatchRequest (uuid : Type) := mkBatchRequest {
  r_GatewayID : string;
  r_SensorID : string;
  r_BootID : uuid;
  r_MessageID : uuid;
  r_FirstSequence : Z;
  r_MeasuredAt : Time;
  r_SampleCount : Z;
  r_SampleIntervalUS : Z;
}.
Arguments mkBatchRequest {uuid}.
Arguments r_GatewayID {uuid}.
Arguments r_SensorID {uuid}.
Arguments r_BootID {uuid}.
Arguments r_MessageID {uuid}.
Arguments r_FirstSequence {uuid}.
Arguments r_MeasuredAt {uuid}.
Arguments r_SampleCount {uuid}.
Arguments r_SampleIntervalUS {uuid}.

Record BuiltBatch (uuid : Type) := mkBuiltBatch {
  b_Topic : string;
  b_Payload : string;
  b_Batch : BatchDTO uuid;
  b_FirstMeasuredAt : Time;
  b_LastMeasuredAt : Time;
}.
Arguments mkBuiltBatch {uuid}.
Arguments b_Topic {uuid}.
Arguments b_Payload {uuid}.
Arguments b_Batch {uuid}.
Arguments b_FirstMeasuredAt {uuid}.
Arguments b_LastMeasuredAt {uuid}.

Definition formatMeasuredAt (t : Time) : string := FormatMicros (Truncate (UTC t) Microsecond).

(** The triangular wave; [%] is Go's remainder, with the sign of the dividend. *)
Definition syntheticValue (sequence : Z) : float64 :=
  let period := 2000 in
  let position := Z.rem sequence period in
  let position := if position <? 0 then int64_add position period else position in
  let position := if Z.quot period 2 <? position then int64_sub period position else position in
  f64_add (f64_of_int 20) (f64_div (f64_of_int position) (f64_of_int 100)).

Section batch.
Context {uuid : Type} `{!UuidLib uuid}.

(** [json.Marshal(batch)]: the struct tags in order; a NaN or infinite sample
    is a marshalling error. *)
Definition marshalSamples (samples : list float64) : option string :=
  texts ← mapM FormatJSONFloat samples;
  Some (json_array texts).

Definition marshalBatch (b : BatchDTO uuid) : option string :=
  samples ← marshalSamples (Samples b);
  Some (json_object
    [json_field "protocol_version" (FormatInt (ProtocolVersion b));
     json_field "message_id" (json_quote (uuid_String (MessageID b)));
     json_field "message_type" (json_quote (MessageType b));
     json_field "gateway_id" (json_quote (GatewayID b));
     json_field "sensor_id" (json_quote (SensorID b));
     json_field "boot_id" (json_quote (uuid_String (BootID b)));
     json_field "first_sequence" (FormatInt (FirstSequence b));
     json_field "sample_count" (FormatInt (SampleCount b));
     json_field "measured_at" (json_quote (MeasuredAt b));
     json_field "sample_interval_us" (FormatInt (SampleIntervalUS b));
     json_field "samples" samples]).

(** The batch a request describes, before serialization. *)
Definition request_batch (req : BatchRequest uuid) : BatchDTO uuid :=
  mkBatchDTO 1 (r_MessageID req) "telemetry_batch" (r_GatewayID req) (r_SensorID req) (r_BootID req)
    (r_FirstSequence req) (r_SampleCount req) (formatMeasuredAt (r_MeasuredAt req))
    (r_SampleIntervalUS req)
    (map (fun i => syntheticValue (int64_add (r_FirstSequence req) (Z.of_nat i)))
       (seq 0 (Z.to_nat (r_SampleCount req)))).

Definition batch_error (text : string) : error := EOther ("gatewaysim: " +:+ text).

Definition lift_reason {A} (r : res ReasonError A) : res error A :=
  match r with Ok v => Ok v | Err e => Err (EReason e) end.

Definition BuildSyntheticBatch (req : BatchRequest uuid) (limits : Limits) (receivedAt : Time)
    : res error (BuiltBatch uuid) :=
  if bool_decide (ValidateGatewayID (r_GatewayID req) <> None)
  then Err (batch_error "invalid gateway identifier")
  else if bool_decide (ValidateSensorID (r_SensorID req) <> None)
  then Err (batch_error "invalid sensor identifier")
  else if bool_decide (r_BootID req = uuid_Nil) || negb (uuid_Variant (r_BootID req) =? RFC4122)
  then Err (batch_error "invalid boot id")
  else if bool_decide (r_MessageID req = uuid_Nil) || negb (uuid_Variant (r_MessageID req) =? RFC4122)
          || (negb (uuid_Version (r_MessageID req) =? 4) && negb (uuid_Version (r_MessageID req) =? 7))
  then Err (batch_error "invalid message id")
  else if r_SampleCount req <=? 0 then Err (batch_error "sample count must be positive")
  else if r_SampleIntervalUS req <=? 0 then Err (batch_error "sample interval must be positive")
  else if IsZero (r_MeasuredAt req) then Err (batch_error "measured_at must be set")
  else
    let! payload := or_err (batch_error "marshal batch") (marshalBatch (request_batch req)) in
    let topic := "gateways/" +:+ r_GatewayID req +:+ "/telemetry/" +:+ r_SensorID req in
    let! validator := lift_reason (NewValidator limits) in
    let! message := lift_reason (Validate (Some validator) topic payload receivedAt) in
    let! first := or_err (batch_error "validated batch has no samples") (FirstSample (Some message)) in
    match LastSample (Some message) with
    | Some last =>
        Ok (mkBuiltBatch topic payload (Message_Batch (Some message))
              (s_MeasuredAt first) (s_MeasuredAt last))
    | None =>
        Ok (mkBuiltBatch topic payload (Message_Batch (Some message))
              (s_MeasuredAt first) zero_time)
    end.

(** [uuid.MustParse] of a constant the library accepts. *)
Definition MustParse (s : string) : uuid := default uuid_Nil (uuid_Parse s).
Definition probeBootID : uuid := MustParse "00000000-0000-4000-8000-000000000001".
Definition probeMessageID : uuid := MustParse "00000000-0000-4000-8000-000000000002".

(** The reference instant of the probe: [time.Date(2026, 1, 1, 0, 0, 0, 0, time.UTC)]. *)
Definition probe_reference : Time := of_civil 2026 1 1 0 0 0 0 0.

Definition validateSampleProfile (gatewayID sensorID : string) (rateHz samplesPerBatch : Z)
    : res error (Z * Z) :=
  if (rateHz <=? 0) || negb (Z.rem 1000000 rateHz =? 0)
  then Err (EOther "GATEWAY_SAMPLE_RATE_HZ must be a positive integer that divides 1000000")
  else
    let intervalUS := Z.quot 1000000 rateHz in
    match BuildSyntheticBatch (mkBatchRequest gatewayID sensorID probeBootID probeMessageID 0
            probe_reference (wrap32 samplesPerBatch) intervalUS) ServerLimits probe_reference with
    | Err err => Err (EWrap "profile is not accepted by the telemetry validator" err)
    | Ok _ =>
        Ok (intervalUS,
            int64_mul (int64_mul (int64_sub samplesPerBatch 1) intervalUS) Microsecond)
    end.
End batch.

(** ** Readings and their text *)

(** The position on the wave of a non-negative sequence number. *)
Definition wave_position (sequence : Z) : Z :=
  let p := sequence mod 2000 in if 1000 <? p then 2000 - p else p.

Definition wave_value (position : Z) : float64 :=
  f64_add (f64_of_int 20) (f64_div (f64_of_int position) (f64_of_int 100)).

Lemma syntheticValue_wave sequence : 
  exists position, 0 <= position <= 1000 /\ syntheticValue sequence = wave_value position
    /\ (0 <= sequence -> position = wave_position sequence).
Proof.
  unfold syntheticValue, wave_position. change (Z.quot 2000 2) with 1000.
  assert (- 2000 < Z.rem sequence 2000 < 2000)
    by (pose proof (Z.rem_bound_abs sequence 2000 ltac:(done)); lia).
  set (p := Z.rem sequence 2000) in *.
  assert (Hp : 0 <= sequence -> p = sequence mod 2000) by (intros; apply Z.rem_mod_nonneg; lia).
  unfold int64_add, int64_sub. destruct (Z.ltb_spec p 0).
  - rewrite wrap64_id by (unfold in_int64, min_int64, max_int64; lia).
    destruct (Z.ltb_spec 1000 (p + 2000)).
    + rewrite wrap64_id by (unfold in_int64, min_int64, max_int64; lia).
      eexists. split; [|split; [reflexivity|]]; [lia|].
      intros Hs. specialize (Hp Hs). pose proof (Z.mod_pos_bound sequence 2000). lia.
    + eexists. split; [|split; [reflexivity|]]; [lia|].
      intros Hs. specialize (Hp Hs). pose proof (Z.mod_pos_bound sequence 2000). lia.
  - destruct (Z.ltb_spec 1000 p).
    + rewrite wrap64_id by (unfold in_int64, min_int64, max_int64; lia).
      eexists. split; [|split; [reflexivity|]]; [lia|].
      intros ?. rewrite <- Hp by done. destruct (Z.ltb_spec 1000 p); lia.
    + eexists. split; [|split; [reflexivity|]]; [lia|].
      intros ?. rewrite <- Hp by done. destruct (Z.ltb_spec 1000 p); lia.
Qed.

(** Every reading is a finite float64 whose shortest JSON text is a short
    number that parses back to it: checked for the 1001 positions. *)
Definition wave_text_ok (position : Z) : bool :=
  let v := wave_value position in
  match FormatJSONFloat v with
  | Some text =>
      number_text text && (str_len text <=? 18) && bool_decide (ParseFloat text = Some v)
      && negb (IsNaN v) && negb (IsInf v)
  | None => false
  end.

Lemma wave_text_all position : 0 <= position <= 1000 -> wave_text_ok position = true.
Proof.
  intros H. assert (Hall : all_below 1001 0 wave_text_ok = true) by (vm_compute; reflexivity).
  apply (all_below_spec _ _ _ _ Hall). lia.
Qed.

Lemma syntheticValue_text sequence : exists text, FormatJSONFloat (syntheticValue sequence) = Some text
  /\ number_text text = true /\ str_len text <= 18
  /\ ParseFloat text = Some (syntheticValue sequence)
  /\ IsNaN (syntheticValue sequence) = false /\ IsInf (syntheticValue sequence) = false.
Proof.
  destruct (syntheticValue_wave sequence) as (p & Hp & -> & _).
  assert (H := wave_text_all p Hp). unfold wave_text_ok in H.
  destruct (FormatJSONFloat (wave_value p)) as [text|]; [|done]. exists text. gobool.
  split_and!; [done|tauto|lia|tauto..].
Qed.
#[global] Opaque syntheticValue.

(** ** Reading back what was serialized *)

Section roundtrip.
Context {uuid : Type} `{!UuidLib uuid} `{!UuidLaws uuid}.

Lemma uuid_plain (id : uuid) : str_forallb html_safe (uuid_String id) = true.
Proof.
  apply (str_forallb_impl uuid_char); [|apply uuid_String_chars].
  intros c. by destruct c as [[] [] [] [] [] [] [] []].
Qed.

Lemma id_plain id : gatewayIDPattern id = true -> str_forallb html_safe id = true.
Proof.
  intros H. apply (str_forallb_impl id_char); [|by apply pattern_chars].
  intros c. by destruct c as [[] [] [] [] [] [] [] []].
Qed.

Lemma FormatMicros_plain t : str_forallb html_safe (FormatMicros t) = true.
Proof.
  unfold FormatMicros, format_seconds. destruct (civil_from_days _) as [[y m] d].
  repeat (apply fixed_digits_plain; cbn [str_forallb]; rewrite ?andb_true_iff; repeat split).
Qed.

(** A batch the marshaller writes without escapes, with the texts of its samples. *)
Record plain_batch (b : BatchDTO uuid) (texts : list string) : Prop := {
  pb_type : str_forallb html_safe (MessageType b) = true;
  pb_gateway : str_forallb html_safe (GatewayID b) = true;
  pb_sensor : str_forallb html_safe (SensorID b) = true;
  pb_measured : str_forallb html_safe (MeasuredAt b) = true;
  pb_protocol : in_int64 (ProtocolVersion b);
  pb_first : in_int64 (FirstSequence b);
  pb_count : 0 <= SampleCount b <= max_int32;
  pb_interval : in_int64 (SampleIntervalUS b);
  pb_some : Samples b <> [];
  pb_texts : Forall2 (fun v text => FormatJSONFloat v = Some text /\ number_text text = true
               /\ ParseFloat text = Some v /\ IsNaN v = false /\ IsInf v = false) (Samples b) texts;
}.

Definition batch_members (b : BatchDTO uuid) (texts : list string) : list (string * json) :=
  [("protocol_version", JNum (FormatInt (ProtocolVersion b)));
   ("message_id", JStr (uuid_String (MessageID b)));
   ("message_type", JStr (MessageType b));
   ("gateway_id", JStr (GatewayID b));
   ("sensor_id", JStr (SensorID b));
   ("boot_id", JStr (uuid_String (BootID b)));
   ("first_sequence", JNum (FormatInt (FirstSequence b)));
   ("sample_count", JNum (FormatInt (SampleCount b)));
   ("measured_at", JStr (MeasuredAt b));
   ("sample_interval_us", JNum (FormatInt (SampleIntervalUS b)));
   ("samples", JArr (map JNum texts))].

Lemma marshalSamples_texts b texts : plain_batch b texts ->
  marshalSamples (Samples b) = Some (json_array texts).
Proof.
  intros [_ _ _ _ _ _ _ _ _ H]. unfold marshalSamples.
  assert (mapM FormatJSONFloat (Samples b) = Some texts) as ->; [|done].
  apply mapM_Some. eapply Forall2_impl; [|exact H]. by intros v text (? & _).
Qed.

(** The members of the payload, as the decoder sees them. *)
Lemma json_parse_batch b texts payload : plain_batch b texts -> marshalBatch b = Some payload ->
  json_parse (S max_nesting) payload = Some (JObj (batch_members b texts)).
Proof.
  intros Hb. unfold marshalBatch. rewrite (marshalSamples_texts _ _ Hb). cbn [mbind option_bind].
  intros [= <-]. destruct Hb as [? ? ? ? ? ? Hc ? Hne Ht].
  assert (in_int64 (SampleCount b)) by (unfold in_int64, min_int64, max_int64, max_int32 in *; lia).
  apply (json_parse_encodes 2); [pose proof max_nesting_ge; lia|].
  apply encodes_object; [|done].
  assert (Hnum : forall n, in_int64 n -> encodes 1 (JNum (FormatInt n)) (FormatInt n)).
  { intros n Hn. apply (encodes_mono 0); [lia|]. by apply encodes_number, number_text_FormatInt. }
  assert (Hstr : forall s, str_forallb html_safe s = true -> encodes 1 (JStr s) (json_quote s)).
  { intros s Hs. apply (encodes_mono 0); [lia|]. by apply encodes_string. }
  assert (encodes 1 (JArr (map JNum texts)) (json_array texts)).
  { apply encodes_array.
    - clear -Ht. induction Ht as [|v text vs texts (_ & Hn & _) _ IH]; [constructor|].
      constructor; [by apply encodes_number|exact IH].
    - intros Hnil. apply fmap_nil_inv in Hnil. subst texts. apply Hne. by inversion Ht. }
  repeat (constructor; [apply encodes_member_intro; [reflexivity|];
    first [assumption | apply Hnum; assumption | apply Hstr; first [assumption | apply uuid_plain]]|]).
  constructor.
Qed.

Lemma decode_items_texts vs texts : forall n maximum,
  Forall2 (fun v text => FormatJSONFloat v = Some text /\ number_text text = true
     /\ ParseFloat text = Some v /\ IsNaN v = false /\ IsInf v = false) vs texts ->
  0 <= n -> n + Z.of_nat (length vs) <= maximum ->
  decode_items n (map JNum texts) maximum = Some vs.
Proof.
  intros n maximum H. revert n. induction H as [|v text vs texts (_ & _ & Hp & Hn & Hi) _ IH];
    intros n H0 Hmax; [done|].
  cbn [map decode_items length isNull] in *. destruct (Z.eqb_spec n maximum); [lia|].
  rewrite Hp. cbn [mbind option_bind]. rewrite Hn, Hi. cbn [orb].
  by rewrite IH by lia.
Qed.

(** A text that parses to an integer also parses at any width that holds it. *)
Lemma ParseInt10_narrow s w w' n : ParseInt10 s w = Some n -> - 2 ^ (w' - 1) <= n < 2 ^ (w' - 1) ->
  ParseInt10 s w' = Some n.
Proof.
  unfold ParseInt10. intros H Hn. destruct s as [|c s]; [done|]. cbv zeta in *.
  destruct (if bool_decide (c = "+"%char) || bool_decide (c = "-"%char) then s else String c s); [done|].
  destruct (digits_val 0 _) as [z|]; [|done].
  destruct (bool_decide (c = "-"%char)); cbn [negb andb] in *.
  - destruct (_ <? z); [done|]. injection H as <-. destruct (Z.ltb_spec (2 ^ (w' - 1)) z); [lia|done].
  - destruct (_ <=? z); [done|]. injection H as <-. destruct (Z.leb_spec (2 ^ (w' - 1)) z); [lia|done].
Qed.

Lemma ParseInt10_FormatInt32 n : 0 <= n <= max_int32 -> ParseInt10 (FormatInt n) 32 = Some n.
Proof.
  unfold max_int32. intros Hn. apply (ParseInt10_narrow _ 64); [|change (2 ^ (32 - 1)) with 2147483648; lia].
  apply ParseInt10_FormatInt. unfold in_int64, min_int64, max_int64. lia.
Qed.

Lemma field_eq k v ms : field (list_to_map ((k, v) :: ms)) k = v.
Proof. unfold field. cbn [list_to_map foldr fst snd]. by rewrite lookup_insert_eq. Qed.

Lemma field_ne k k' v ms : k' <> k ->
  field (list_to_map ((k', v) :: ms)) k = field (list_to_map ms) k.
Proof. intros H. unfold field. cbn [list_to_map foldr fst snd]. by rewrite lookup_insert_ne. Qed.

Lemma decodeUUID_String (id : uuid) : decodeUUID (JStr (uuid_String id)) = Some id.
Proof.
  unfold decodeUUID, decodeString. cbn [isNull mbind option_bind].
  by rewrite uuid_Validate_String, uuid_Parse_String.
Qed.

Lemma batch_members_names b texts : (batch_members b texts).*1 = (batch_members b []).*1
  /\ NoDup (batch_members b texts).*1
  /\ dom (list_to_map (batch_members b texts) : gmap string json) = batchFieldNames.
Proof.
  split; [done|]. split.
  - cbn [batch_members fmap list_fmap fst]. by apply (bool_decide_unpack _); vm_compute.
  - rewrite dom_list_to_map_L. reflexivity.
Qed.

Lemma batch_members_fields b texts maximum : plain_batch b texts ->
  Z.of_nat (length (Samples b)) <= maximum ->
  fields_of maximum (list_to_map (batch_members b texts)) b.
Proof.
  intros [? ? ? ? ? ? Hc ? _ Ht] Hmax. unfold batch_members. constructor.
  all: repeat (rewrite field_ne by done); rewrite field_eq.
  all: unfold decodeInt64, decodeInt32, decodeString, decodeSamples; cbn [isNull].
  all: try apply decodeUUID_String.
  all: try (apply ParseInt10_FormatInt; assumption).
  all: try reflexivity.
  - by apply ParseInt10_FormatInt32.
  - by apply decode_items_texts.
Qed.

(** The server's decoder recovers exactly the batch that was serialized. *)
Lemma decodeBatch_marshal b texts payload topic limits : plain_batch b texts ->
  marshalBatch b = Some payload -> str_len payload <= MaxPayloadBytes limits ->
  0 < MaxPayloadBytes limits -> decoded_ok limits topic b -> decodeBatch payload topic limits = Ok b.
Proof.
  intros Hb Hm Hlen Hpos Hd. destruct (batch_members_names b texts) as (_ & Hnd & Hdom).
  eapply decodeBatch_complete; [exact Hlen|exact Hpos| | |exact Hd].
  - apply decode_object_complete; [by eapply json_parse_batch|exact Hnd|exact Hdom].
  - apply batch_members_fields; [exact Hb|]. rewrite (dec_length _ _ _ Hd). by destruct (dec_count _ _ _ Hd) as [[_ ?] _].
Qed.
End roundtrip.

(** ** The builder *)

(** What Go's types guarantee of a request. *)
Definition request_widths {uuid} (req : BatchRequest uuid) : Prop :=
  r_SampleCount req <= max_int32 /\ in_int64 (r_FirstSequence req) /\ in_int64 (r_SampleIntervalUS req).

Section build.
Context {uuid : Type} `{!UuidLib uuid} `{!UuidLaws uuid}.
Implicit Types req : BatchRequest uuid.

(** The identity checks at the head of the builder. *)
Record request_ok req : Prop := {
  req_gateway : ValidateGatewayID (r_GatewayID req) = None;
  req_sensor : ValidateSensorID (r_SensorID req) = None;
  req_boot : r_BootID req <> uuid_Nil /\ uuid_Variant (r_BootID req) = RFC4122;
  req_message : message_id_ok (r_MessageID req);
  req_count : 0 < r_SampleCount req;
  req_interval : 0 < r_SampleIntervalUS req;
  req_measured : IsZero (r_MeasuredAt req) = false;
}.

Lemma synthetic_texts (f : nat -> Z) js : exists texts,
  Forall2 (fun v text => FormatJSONFloat v = Some text /\ number_text text = true
    /\ ParseFloat text = Some v /\ IsNaN v = false /\ IsInf v = false)
    (map (fun i => syntheticValue (f i)) js) texts
  /\ Forall (fun text => str_len text <= 18) texts /\ length texts = length js.
Proof.
  induction js as [|i js (texts & Ht & Hl & Hn)]; [by exists []|].
  destruct (syntheticValue_text (f i)) as (text & Hf & Hnum & Hlen & Hp & Hnan & Hinf).
  exists (text :: texts). cbn [map length]. rewrite Hn.
  split; [by constructor|]. split; [by constructor|done].
Qed.

Lemma request_plain req : request_ok req -> request_widths req -> exists texts payload,
  plain_batch (request_batch req) texts /\ marshalBatch (request_batch req) = Some payload
  /\ Forall (fun text => str_len text <= 18) texts /\ Z.of_nat (length texts) = r_SampleCount req.
Proof.
  intros [Hg Hs _ _ Hc Hi _] (Hw1 & Hw2 & Hw3).
  destruct (synthetic_texts (fun i => int64_add (r_FirstSequence req) (Z.of_nat i))
              (seq 0 (Z.to_nat (r_SampleCount req)))) as (texts & Ht & Hl & Hn).
  rewrite length_seq in Hn.
  assert (Hb : plain_batch (request_batch req) texts).
  { constructor; cbn [request_batch MessageType GatewayID SensorID MeasuredAt ProtocolVersion
      FirstSequence SampleCount SampleIntervalUS]; try done.
    - by apply id_plain, valid_gateway_pattern.
    - by apply id_plain, valid_sensor_pattern.
    - apply FormatMicros_plain.
    - lia.
    - cbn [request_batch Samples]. intros Hnil. apply fmap_nil_inv in Hnil.
      apply (f_equal length) in Hnil. rewrite length_seq in Hnil. cbn in Hnil. lia. }
  eexists texts, _. split; [exact Hb|]. split.
  { unfold marshalBatch. rewrite (marshalSamples_texts _ _ Hb). reflexivity. }
  split; [done|]. rewrite Hn. lia.
Qed.

Lemma request_decoded req limits topic : request_ok req -> request_widths req ->
  r_SampleCount req <= MaxSamples limits ->
  t_GatewayID topic = r_GatewayID req -> t_SensorID topic = r_SensorID req ->
  decoded_ok limits topic (request_batch req).
Proof.
  intros [Hg Hs Hb Hm Hc Hi _] (Hw1 & Hw2 & Hw3) Hmax Htg Hts.
  constructor; cbn [request_batch ProtocolVersion MessageType MessageID BootID GatewayID SensorID
    FirstSequence SampleCount SampleIntervalUS]; try done; try (split; done || lia).
  - cbn [request_batch Samples]. rewrite length_map, length_seq. lia.
  - cbn [request_batch Samples]. apply list.Forall_forall. intros v Hv.
    apply list_elem_of_fmap in Hv as (i & -> & _).
    destruct (syntheticValue_text (int64_add (r_FirstSequence req) (Z.of_nat i))) as (? & _ & _ & _ & _ & ? & ?).
    done.
Qed.

(** The builder's outcome once its identity checks pass: it is the server
    validator's verdict on the serialized batch. *)
Lemma Build_eq req limits receivedAt payload : request_ok req ->
  marshalBatch (request_batch req) = Some payload ->
  BuildSyntheticBatch req limits receivedAt =
    (let! v := lift_reason (NewValidator limits) in
     let! m := lift_reason (Validate (Some v) (telemetry_topic (r_GatewayID req) (r_SensorID req))
                 payload receivedAt) in
     let! first := or_err (batch_error "validated batch has no samples") (FirstSample (Some m)) in
     Ok (mkBuiltBatch (telemetry_topic (r_GatewayID req) (r_SensorID req)) payload (batch m)
           (s_MeasuredAt first) (default zero_time (s_MeasuredAt <$> LastSample (Some m))))).
Proof.
  intros [Hg Hs [Hb1 Hb2] (Hm1 & Hm2 & Hm3) Hc Hi Hz] Hmar. unfold BuildSyntheticBatch.
  rewrite Hg, Hs, Hz, Hmar, Hb2, Hm3.
  rewrite (bool_decide_false (r_BootID req = uuid_Nil)), (bool_decide_false (r_MessageID req = uuid_Nil)) by done.
  rewrite (proj2 (Z.leb_gt (r_SampleCount req) 0)), (proj2 (Z.leb_gt (r_SampleIntervalUS req) 0)) by done.
  assert (negb (uuid_Version (r_MessageID req) =? 4) && negb (uuid_Version (r_MessageID req) =? 7) = false)
    as -> by (destruct Hm2 as [-> | ->]; done).
  replace ("gateways/" +:+ r_GatewayID req +:+ "/telemetry/" +:+ r_SensorID req)
    with (telemetry_topic (r_GatewayID req) (r_SensorID req)).
  2:{ unfold telemetry_topic. cbn [Join]. by rewrite !str_app_cons, !str_app_nil_l. }
  rewrite bool_decide_false by (intros []; done). cbn [orb negb mbind res_bind or_err].
  change (RFC4122 =? RFC4122) with true. cbn [orb negb].
  destruct (lift_reason (NewValidator limits)) as [v|]; cbn [mbind res_bind]; [|done].
  destruct (lift_reason (Validate _ _ _ _)) as [m|]; cbn [mbind res_bind]; [|done].
  destruct (or_err _ (FirstSample _)) as [f|]; cbn [mbind res_bind]; [|done].
  by destruct (LastSample (Some m)).
Qed.

Lemma BuildSyntheticBatch_request req limits receivedAt built :
  BuildSyntheticBatch req limits receivedAt = Ok built -> request_ok req.
Proof.
  unfold BuildSyntheticBatch. intros H.
  repeat (match type of H with (if ?b then _ else _) = _ => destruct b eqn:?; [discriminate H|] end).
  gobool. destruct_or!; gobool; try discriminate.
  all: constructor; unfold message_id_ok; try tauto; try lia; by apply dec_stable.
Qed.
End build.

(** ** Later validation *)

Section later.
Context {uuid : Type} `{!UuidLib uuid}.

(** The only use of the receive time is the upper bound on the last sample, so
    a range valid now is valid at every later time. *)
Lemma validateRange_later (b : BatchDTO uuid) limits now later r : unix_ns now <= unix_ns later ->
  validateRange b limits now = Ok r -> validateRange b limits later = Ok r.
Proof.
  intros Hle. unfold validateRange. cbv zeta.
  repeat match goal with
  | |- (if ?b then Err _ else _) = _ -> _ =>
      lazymatch b with context [now] => fail | _ => destruct b; [done|] end
  | |- (match ?x with None => _ | Some _ => _ end) = _ -> _ => destruct x; [|done]
  | |- (let '(_, _) := ?p in _) = _ -> _ => destruct p as [last ok]
  end.
  set (thr := UTC (Add now (MaxFutureSkew limits))). set (thr' := UTC (Add later (MaxFutureSkew limits))).
  assert (Hy : Year thr <= Year thr') by (apply Year_mono; [done..|cbn; lia]).
  assert (Ht : unix_ns thr <= unix_ns thr') by (cbn; lia).
  destruct (Z.ltb_spec (Year thr) 1); [done|]. destruct (Z.ltb_spec (Year thr') 1); [lia|].
  unfold After. intros H'. destruct ((Year thr' <=? 9999) && _) eqn:E; gobool.
  - replace ((Year thr <=? 9999) && (unix_ns thr <? unix_ns last)) with true in H'; [done|].
    symmetry. gobool. lia.
  - by destruct ((Year thr <=? 9999) && _).
Qed.

Lemma Validate_later v topic_text payload now later (m : Message uuid) : unix_ns now <= unix_ns later ->
  Validate v topic_text payload now = Ok m -> exists m',
  Validate v topic_text payload later = Ok m' /\ batch m' = batch m /\ samples m' = samples m.
Proof.
  intros Hle. unfold Validate. destruct v as [v|]; [|done].
  destruct (Limits_Validate _); [done|]. destruct (_ <? _); [done|].
  destruct (ParseTopic _) as [p|]; cbn [mbind res_bind]; [|done].
  destruct (decodeBatch _ _ _) as [b|]; cbn [mbind res_bind]; [|done].
  destruct (validateRange b (limits v) now) as [r|] eqn:Hr; cbn [mbind res_bind]; [|done].
  intros [= <-]. rewrite (validateRange_later _ _ _ _ _ Hle Hr). cbn [mbind res_bind].
  eexists. by split.
Qed.
End later.

(** ** Size of the payload *)

Lemma str_len_app s1 s2 : str_len (s1 +:+ s2) = str_len s1 + str_len s2.
Proof. unfold str_len. rewrite str_length_app. lia. Qed.

Lemma str_len_cons c s : str_len (String c s) = 1 + str_len s.
Proof. unfold str_len. cbn [String.length]. lia. Qed.

Lemma str_len_quote s : str_forallb html_safe s = true -> str_len (json_quote s) = str_len s + 2.
Proof.
  intros Hs. unfold json_quote. rewrite (json_escape_plain _ _ Hs), str_len_cons, str_len_app.
  change (str_len (String quote "")) with 1. lia.
Qed.

Lemma str_len_field name value : str_forallb html_safe name = true ->
  str_len (json_field name value) = str_len name + 3 + str_len value.
Proof.
  intros Hs. unfold json_field. rewrite !str_len_app, str_len_quote by done.
  change (str_len ":") with 1. lia.
Qed.

Lemma num_digits_le fuel n : (num_digits fuel n <= S fuel)%nat.
Proof.
  revert n. induction fuel as [|fuel IH]; intros n; cbn [num_digits]; [lia|].
  destruct (n <? 10); [lia|]. specialize (IH (n / 10)). lia.
Qed.

Lemma str_len_FormatInt n : 0 <= str_len (FormatInt n) <= 22.
Proof.
  unfold FormatInt. destruct (n <? 0).
  - pose proof (num_digits_le 20 (- n)). rewrite str_len_cons. unfold str_len.
    rewrite fixed_digits_length. cbn [String.length]. lia.
  - pose proof (num_digits_le 20 n). unfold str_len. rewrite fixed_digits_length. cbn [String.length]. lia.
Qed.

Lemma str_len_FormatMicros t : str_len (FormatMicros t) = 27.
Proof.
  unfold FormatMicros, format_seconds. destruct (civil_from_days _) as [[y m] d].
  unfold str_len. repeat (rewrite fixed_digits_length; cbn [String.length]). done.
Qed.

Lemma str_len_join texts k : 0 <= k -> Forall (fun text => str_len text <= k) texts ->
  str_len (Join texts ",") <= (k + 1) * Z.of_nat (length texts).
Proof.
  intros Hk. induction 1 as [|text texts Ht _ IH]; [change (0 <= (k + 1) * 0); lia|]. cbn [length].
  destruct texts as [|text' texts]; [cbn [Join length]; lia|].
  change (Join (text :: text' :: texts) ",") with (text +:+ String "," (Join (text' :: texts) ",")).
  rewrite str_len_app, str_len_cons. nia.
Qed.

(** Evaluates the lengths of string literals. *)
Ltac literal_lengths :=
  repeat match goal with
  | |- context [str_len ?s] =>
      lazymatch s with
      | EmptyString => change (str_len s) with 0
      | String _ _ => let n := eval vm_compute in (str_len s) in change (str_len s) with n
      end
  end.

(** A serialized batch takes at most 620 bytes and 19 for each sample. *)
Lemma marshalBatch_size `{UuidLaws uuid} (b : BatchDTO uuid) texts payload t : plain_batch b texts ->
  Forall (fun text => str_len text <= 18) texts -> MeasuredAt b = FormatMicros t ->
  MessageType b = "telemetry_batch" -> str_len (GatewayID b) <= 64 -> str_len (SensorID b) <= 64 ->
  marshalBatch b = Some payload -> str_len payload <= 620 + 19 * Z.of_nat (length texts).
Proof.
  intros Hb Ht Hm Hty Hg Hs. unfold marshalBatch. rewrite (marshalSamples_texts _ _ Hb). cbn [mbind option_bind].
  intros [= <-]. apply (str_len_join _ 18) in Ht; [|done]. destruct Hb.
  unfold json_object. rewrite !str_len_app. cbn [Join].
  repeat (rewrite ?str_len_app, ?str_len_cons). rewrite !str_len_field by done.
  rewrite !str_len_quote by first [assumption | apply uuid_plain].
  unfold json_array. rewrite !str_len_app, Hm, Hty, str_len_FormatMicros.
  assert (Hu : forall id : uuid, str_len (uuid_String id) = 36)
    by (intros id; unfold str_len; by rewrite uuid_String_length).
  rewrite !Hu. pose proof (str_len_FormatInt (ProtocolVersion b)). pose proof (str_len_FormatInt (FirstSequence b)).
  pose proof (str_len_FormatInt (SampleCount b)). pose proof (str_len_FormatInt (SampleIntervalUS b)).
  literal_lengths. lia.
Qed.

(** ** Correctness of the builder *)

Lemma ServerLimits_ok : Limits_Validate ServerLimits = None /\ MaxBatchDuration ServerLimits <= max_int64.
Proof. split; [reflexivity|]. by apply Z.leb_le. Qed.

Section correctness.
Context {uuid : Type} `{!UuidLib uuid} `{!UuidLaws uuid}.
Implicit Types req : BatchRequest uuid.

(** A successful build, in terms of the server's validator. *)
Lemma Build_inv req limits receivedAt built : request_widths req -> MaxBatchDuration limits <= max_int64 ->
  BuildSyntheticBatch req limits receivedAt = Ok built ->
  request_ok req /\ exists texts payload m, plain_batch (request_batch req) texts
    /\ marshalBatch (request_batch req) = Some payload
    /\ Validate (Some (mkValidator limits)) (telemetry_topic (r_GatewayID req) (r_SensorID req)) payload
         receivedAt = Ok m
    /\ message_ok m /\ batch m = request_batch req
    /\ b_Topic built = telemetry_topic (r_GatewayID req) (r_SensorID req)
    /\ b_Payload built = payload /\ b_Batch built = request_batch req
    /\ Some (b_FirstMeasuredAt built) = s_MeasuredAt <$> FirstSample (Some m)
    /\ Some (b_LastMeasuredAt built) = s_MeasuredAt <$> LastSample (Some m).
Proof.
  intros Hw Hmax H. assert (Hok := BuildSyntheticBatch_request _ _ _ _ H). split; [done|].
  destruct (request_plain _ Hok Hw) as (texts & payload & Hb & Hm & _).
  rewrite (Build_eq _ _ _ _ Hok Hm) in H.
  destruct (NewValidator limits) as [v|] eqn:Hv; [|done]. cbn [lift_reason mbind res_bind] in H.
  apply NewValidator_ok in Hv as [Hv Hl]. destruct v as [l]. cbn in Hv. subst l.
  destruct (Validate _ _ _ _) as [m|] eqn:Hval; [|done]. cbn [lift_reason mbind res_bind] in H.
  destruct (Validate_message_ok (mkValidator limits) _ _ _ _ Hmax Hval) as (Hmok & _).
  destruct (FirstSample (Some m)) as [first|] eqn:Hf; [|done]. cbn [or_err mbind res_bind] in H.
  injection H as <-. cbn [b_Topic b_Payload b_Batch b_FirstMeasuredAt b_LastMeasuredAt].
  assert (Hbatch : batch m = request_batch req).
  { unfold Validate in Hval. cbn [Message.limits] in Hval. rewrite Hl in Hval. inv_ok Hval. subst m. cbn [batch].
    match goal with H : decodeBatch _ _ _ = Ok _ |- _ => rename H into Hd end.
    match goal with H : ParseTopic _ = Ok _ |- _ => rename H into Hp end.
    rewrite ParseTopic_topic in Hp by apply Hok. injection Hp as <-.
    apply decodeBatch_fields in Hd as (_ & _ & fields & Hobj & Hfld & Hdec).
    apply decode_object_some in Hobj as (ms & Hj & _ & -> & _).
    rewrite (json_parse_batch _ _ _ Hb Hm) in Hj. injection Hj as <-.
    assert (Hlen : Z.of_nat (length (Samples (request_batch req))) <= MaxSamples limits).
    { pose proof (fld_count _ _ _ Hfld) as Hc1. pose proof (dec_count _ _ _ Hdec) as [[_ Hc2] _].
      unfold batch_members in Hc1. repeat (rewrite field_ne in Hc1 by done). rewrite field_eq in Hc1.
      unfold decodeInt32 in Hc1. cbn [isNull] in Hc1.
      rewrite ParseInt10_FormatInt32 in Hc1 by apply Hb. injection Hc1 as Hc1.
      rewrite <- Hc1 in Hc2. cbn [request_batch Samples SampleCount] in *. rewrite length_map, length_seq.
      pose proof (req_count _ Hok). lia. }
    pose proof (batch_members_fields _ _ _ Hb Hlen) as Hfld'.
    clear -Hfld Hfld'. destruct Hfld, Hfld'. destruct (request_batch req), val0. cbn in *. congruence. }
  destruct (first_last_sample _ Hmok) as (t & s0 & s1 & _ & Hf' & Hl' & _).
  exists texts, payload, m. rewrite Hf. split_and!; try done.
  unfold LastSample in *. by rewrite Hl'.
Qed.

(** C34 A batch the builder accepts is read back by the server's validator,
    now or at any later time, as exactly the batch that was requested: same
    message, boot and sequence range, same readings; its topic names the
    Gateway and the Sensor; and its first time is the requested one truncated
    to microseconds. *)
Theorem BuildSyntheticBatch_accepted req limits receivedAt built later :
  request_widths req -> MaxBatchDuration limits <= max_int64 ->
  BuildSyntheticBatch req limits receivedAt = Ok built -> unix_ns receivedAt <= unix_ns later ->
  b_Topic built = telemetry_topic (r_GatewayID req) (r_SensorID req)
  /\ b_Batch built = request_batch req
  /\ exists m, Validate (Some (mkValidator limits)) (b_Topic built) (b_Payload built) later = Ok m
       /\ batch m = request_batch req
       /\ Some (b_FirstMeasuredAt built) = s_MeasuredAt <$> FirstSample (Some m)
       /\ Some (b_LastMeasuredAt built) = s_MeasuredAt <$> LastSample (Some m).
Proof.
  intros Hw Hmax H Hle.
  destruct (Build_inv _ _ _ _ Hw Hmax H) as (_ & texts & payload & m & _ & _ & Hv & _ & Hb & Ht & Hp & Hbb & Hf & Hl).
  destruct (Validate_later _ _ _ _ _ _ Hle Hv) as (m' & Hv' & Hb' & Hs').
  rewrite Ht, Hp. split; [done|]. split; [done|]. exists m'. rewrite Hb'. split_and!; try done.
  - rewrite Hf. unfold FirstSample. by rewrite Hs'.
  - rewrite Hl. unfold LastSample. by rewrite Hs'.
Qed.

Lemma parseMeasuredAt_formatMeasuredAt t :
  let first := mkTime (unix_ns t / 1000 * 1000) 0 in
  1 <= Year first <= 9999 -> parseMeasuredAt (formatMeasuredAt t) = Some first.
Proof.
  intros first Hy. unfold formatMeasuredAt. rewrite Truncate_micro. fold first.
  rewrite parseMeasuredAt_FormatMicros by done. do 2 f_equal. unfold first. cbn [unix_ns].
  by rewrite Z.div_mul.
Qed.

(** Every request within the limits is built: no serialization, decoding or
    size error is left. *)
Lemma Build_complete req limits receivedAt : request_widths req -> request_ok req ->
  Limits_Validate limits = None -> MaxBatchDuration limits <= max_int64 ->
  620 + 19 * r_SampleCount req <= MaxPayloadBytes limits -> r_SampleCount req <= MaxSamples limits ->
  0 <= r_FirstSequence req -> r_FirstSequence req + r_SampleCount req - 1 <= max_int64 ->
  r_SampleIntervalUS req <= maxExactFloat64Integer ->
  (r_SampleCount req - 1) * (r_SampleIntervalUS req * 1000) <= MaxBatchDuration limits ->
  let first := mkTime (unix_ns (r_MeasuredAt req) / 1000 * 1000) 0 in
  let last := Add first ((r_SampleCount req - 1) * (r_SampleIntervalUS req * 1000)) in
  1 <= Year first -> 1 <= Year last <= 9999 -> unix_ns last <= unix_ns receivedAt + MaxFutureSkew limits ->
  exists built, BuildSyntheticBatch req limits receivedAt = Ok built.
Proof.
  intros Hw Hok Hl Hmax Hsize Hcount Hf0 Hf1 Hi Hspan first last Hy Hly Hskew.
  assert (Hsteps : 0 <= (r_SampleCount req - 1) * (r_SampleIntervalUS req * 1000))
    by (pose proof (req_count _ Hok); pose proof (req_interval _ Hok); nia).
  assert (Year first <= Year last) by (apply Year_mono; [done..|unfold last; cbn [Add unix_ns]; lia]).
  destruct (request_plain _ Hok Hw) as (texts & payload & Hb & Hm & Hshort & Hn).
  rewrite (Build_eq _ _ _ _ Hok Hm). unfold NewValidator. rewrite Hl. cbn [lift_reason mbind res_bind].
  assert (Hpay : str_len payload <= MaxPayloadBytes limits).
  { assert (str_len payload <= 620 + 19 * Z.of_nat (length texts)); [|lia].
    eapply (marshalBatch_size _ _ _ _ Hb Hshort); [reflexivity|reflexivity| | |exact Hm].
    - apply pattern_length, valid_gateway_pattern, Hok.
    - apply pattern_length, valid_sensor_pattern, Hok. }
  pose proof (Limits_Validate_ok _ Hl) as (Hl1 & Hl2 & Hl3 & Hl4).
  set (p := mkParsedTopic (telemetry_topic (r_GatewayID req) (r_SensorID req)) (r_GatewayID req) (r_SensorID req)).
  assert (Hdec := request_decoded req limits p Hok Hw Hcount eq_refl eq_refl).
  assert (Hfirst : parseMeasuredAt (MeasuredAt (request_batch req)) = Some first)
    by (apply parseMeasuredAt_formatMeasuredAt; fold first; lia).
  assert (Hrange : validateRange (request_batch req) limits receivedAt
    = Ok (mkRange first last (r_FirstSequence req + r_SampleCount req - 1) (r_SampleIntervalUS req * 1000))).
  { apply validateRange_iff; [by eapply widths_of_decoded|].
    assert (Hthr : Year last <= Year (UTC (Add receivedAt (MaxFutureSkew limits))))
      by (apply Year_mono; [done..|cbn; cbn in Hskew; lia]).
    destruct Hw as (Hw1 & Hw2 & Hw3). pose proof (req_count _ Hok). pose proof (req_interval _ Hok).
    constructor; cbn [FirstMeasuredAt LastMeasuredAt LastSequence Interval request_batch SampleCount
      FirstSequence SampleIntervalUS MeasuredAt]; try done; in_width; try lia.
    cbv zeta. split; [lia|]. right. exact Hskew. }
  assert (Hval : Validate (Some (mkValidator limits)) (telemetry_topic (r_GatewayID req) (r_SensorID req)) payload
    receivedAt = Ok (mkMessage p (request_batch req) payload (sha256_hex payload) receivedAt
      (imap (expand_sample (request_batch req) (mkRange first last (r_FirstSequence req + r_SampleCount req - 1)
         (r_SampleIntervalUS req * 1000))) (Samples (request_batch req))))).
  { unfold Validate. cbn [Message.limits]. rewrite Hl.
    rewrite (proj2 (Z.ltb_ge _ _) Hpay), ParseTopic_topic by apply Hok. fold p. cbn [mbind res_bind].
    rewrite (decodeBatch_marshal _ _ _ _ _ Hb Hm Hpay Hl1 Hdec). cbn [mbind res_bind]. by rewrite Hrange. }
  rewrite Hval. cbn [lift_reason mbind res_bind].
  destruct (Validate_message_ok (mkValidator limits) _ _ _ _ Hmax Hval) as (Hmok & _).
  destruct (first_last_sample _ Hmok) as (t & s0 & s1 & _ & -> & _). cbn [or_err mbind res_bind]. by eexists.
Qed.

Lemma Validate_range v topic_text payload receivedAt (m : Message uuid) :
  MaxBatchDuration (Message.limits v) <= max_int64 ->
  Validate (Some v) topic_text payload receivedAt = Ok m ->
  exists r, range_ok (batch m) (Message.limits v) receivedAt r.
Proof.
  intros Hmax H. unfold Validate in H. destruct (Limits_Validate _) eqn:Hl; [done|]. inv_ok H. subst m.
  match goal with H : decodeBatch _ _ _ = _ |- _ => apply decodeBatch_fields in H as (_ & _ & _ & _ & _ & Hd) end.
  match goal with H : validateRange _ _ _ = _ |- _ => apply validateRange_iff in H; [by eexists|] end.
  by eapply widths_of_decoded.
Qed.

(** A sample profile the simulator accepts at load time divides a
    second exactly, keeps a batch within the server's sample count and span,
    and is enough for every later batch: any request with that profile, a due
    measurement time and a sequence range that fits is built without error. *)
Theorem validateSampleProfile_sound gatewayID sensorID rateHz n interval span :
  validateSampleProfile gatewayID sensorID rateHz n = Ok (interval, span) -> 1 <= n <= 1000 ->
  rateHz * interval = 1000000 /\ span = (n - 1) * (interval * 1000) /\ 0 <= span <= 60 * Second
  /\ forall req receivedAt, request_ok req ->
       r_GatewayID req = gatewayID -> r_SensorID req = sensorID ->
       r_SampleCount req = n -> r_SampleIntervalUS req = interval ->
       0 <= r_FirstSequence req -> r_FirstSequence req + n - 1 <= max_int64 ->
       1 <= Year (UTC (r_MeasuredAt req)) ->
       Year (Add (UTC (r_MeasuredAt req)) span) <= 9999 ->
       unix_ns (r_MeasuredAt req) + span <= unix_ns receivedAt ->
       exists built, BuildSyntheticBatch req ServerLimits receivedAt = Ok built.
Proof.
  unfold validateSampleProfile. intros H Hn.
  destruct ((rateHz <=? 0) || _) eqn:Hr; [done|]. gobool.
  destruct (BuildSyntheticBatch _ _ _) as [built|] eqn:Hb; [|done]. injection H as <- <-.
  assert (Hq : rateHz * Z.quot 1000000 rateHz = 1000000).
  { pose proof (Z.quot_rem' 1000000 rateHz). lia. }
  set (interval := Z.quot 1000000 rateHz) in *. clearbody interval.
  rewrite (wrap32_id n) in Hb by (unfold max_int32; lia).
  assert (0 < interval <= 1000000) as Hi by (destruct (Z.le_gt_cases interval 0); nia).
  apply Build_inv in Hb as (_ & texts & payload & m & _ & _ & Hv & _ & Hm & _).
  2:{ unfold request_widths. cbn. unfold in_int64, min_int64, max_int64, max_int32. lia. }
  2:{ apply ServerLimits_ok. }
  apply Validate_range in Hv as [r Hrange]; [|apply ServerLimits_ok].
  rewrite Hm in Hrange. destruct Hrange as [_ _ _ _ _ Hint _ Hspan _ _ _ _ _].
  rewrite Hint in Hspan. cbn in Hspan. unfold Microsecond, Second in Hspan.
  assert (0 <= (n - 1) * (interval * 1000)) by nia.
  unfold int64_mul, int64_sub, Microsecond, Second.
  rewrite (wrap64_id (n - 1)), (wrap64_id ((n - 1) * interval)), wrap64_id
    by (unfold in_int64, min_int64, max_int64; nia).
  split; [done|]. split; [lia|]. split; [lia|].
  intros req receivedAt Hok _ _ Hc Hiv Hf0 Hf1 Hy Hy' Hdue.
  assert (Hd : unix_ns (r_MeasuredAt req) / 1000 * 1000 <= unix_ns (r_MeasuredAt req)) by dlia.
  apply Build_complete; rewrite ?Hc, ?Hiv; try done; cbn [Add unix_ns loc_off ServerLimits MaxPayloadBytes
    MaxSamples MaxBatchDuration MaxFutureSkew]; unfold max_int64, maxExactFloat64Integer, Second, Minute; try lia.
  - unfold request_widths, in_int64, min_int64, max_int64, max_int32 in *. lia.
  - by rewrite Year_micro.
  - split.
    + unfold UTC in Hy. rewrite <- (Year_micro (unix_ns (r_MeasuredAt req))) in Hy. etrans; [exact Hy|].
      apply Year_mono; [done..|cbn [Add unix_ns]; lia].
    + etrans; [|exact Hy']. apply Year_mono; [done..|cbn [Add UTC unix_ns]; lia].
  - unfold Second. lia.
Qed.
End correctness.
