(* ===== verification/Outbox.v ===== *)
(** * The durable outbox (gateway simulator)

    [gatewaysim/outbox.go]: one SQLite file bound to one Gateway and Sensor.
    A file is its tables; the context deadline, the driver and the file system
    show up as the replies of the calls, so every call may fail. *)

From S2P Require Import Prelude GoStrings GoTime GoFloat GoJson Identity Uuid Telemetry Txn Message Batch.
#[local] Open Scope Z_scope.

Definition outboxSchemaVersion : Z := 1.
Definition outboxStatusPending : string := "pending".
Definition outboxStatusQuarantined : string := "quarantined".
Definition maxQuarantineReason : Z := 256.
Definition maxAdminPendingLimit : Z := 1000.

(** The sentinel errors; a wrapped sentinel keeps it as its cause. *)
Definition sim_error (text : string) : error := EOther ("gatewaysim: " +:+ text).
Definition ErrOutboxFull : error := sim_error "outbox capacity reached".
Definition ErrOutboxBusy : error := sim_error "outbox is locked by another simulator or admin process".
Definition ErrOutboxIdentity : error := sim_error "outbox file is bound to a different gateway or sensor".
Definition ErrOutboxSchema : error := sim_error "outbox file has an unsupported schema version".
Definition ErrOutboxCorrupt : error := sim_error "outbox file is not a usable SQLite database".
Definition ErrOutboxCommitUnknown : error := sim_error "outbox commit outcome is unknown".
Definition ErrOutboxReason : error := sim_error "quarantine reason is required and bounded".
Definition ErrOutboxMissing : error := sim_error "outbox file does not exist".

Record OutboxConfig := mkOutboxConfig {
  cfg_Path : string;
  cfg_GatewayID : string;
  cfg_SensorID : string;
  cfg_MaxRows : Z;
  cfg_MaxBytes : Z;
  cfg_OpTimeout : Z;
}.

(** The settings an open outbox keeps; the file it works on is the state. *)
Record Outbox := mkOutbox {
  gatewayID : string;
  sensorID : string;
  maxRows : Z;
  maxBytes : Z;
}.

Record Item (uuid : Type) := mkItem {
  ID : Z;
  i_MessageID : uuid;
  i_GatewayID : string;
  i_SensorID : string;
  i_BootID : uuid;
  i_Topic : string;
  i_Payload : string;
  i_ByteSize : Z;
  i_FirstSequence : Z;
  i_SampleCount : Z;
  i_Status : string;
  i_EnqueuedAt : Time;
}.
Arguments mkItem {uuid}.
Arguments ID {uuid}.
Arguments i_MessageID {uuid}.
Arguments i_GatewayID {uuid}.
Arguments i_SensorID {uuid}.
Arguments i_BootID {uuid}.
Arguments i_Topic {uuid}.
Arguments i_Payload {uuid}.
Arguments i_ByteSize {uuid}.
Arguments i_FirstSequence {uuid}.
Arguments i_SampleCount {uuid}.
Arguments i_Status {uuid}.
Arguments i_EnqueuedAt {uuid}.

Record EnqueueRequest (uuid : Type) := mkEnqueueRequest {
  q_BootID : uuid;
  q_MessageID : uuid;
  q_MeasuredAt : Time;
  q_ReceivedAt : Time;
  q_SampleCount : Z;
  q_SampleIntervalUS : Z;
}.
Arguments mkEnqueueRequest {uuid}.
Arguments q_BootID {uuid}.
Arguments q_MessageID {uuid}.
Arguments q_MeasuredAt {uuid}.
Arguments q_ReceivedAt {uuid}.
Arguments q_SampleCount {uuid}.
Arguments q_SampleIntervalUS {uuid}.

Record OutboxCounts := mkOutboxCounts {
  PendingRows : Z;
  PendingBytes : Z;
  QuarantinedRows : Z;
  QuarantinedBytes : Z;
}.

(** ** The file *)

Record OutboxRow := mkOutboxRow {
  o_id : Z;
  o_message_id : string;
  o_gateway_id : string;
  o_sensor_id : string;
  o_boot_id : string;
  o_topic : string;
  o_payload : string;
  o_byte_size : Z;
  o_first_sequence : Z;
  o_sample_count : Z;
  o_sample_interval_us : Z;
  o_status : string;
  o_reason : option string;
  o_enqueued_at : string;
}.

(** [outbox] lists the rows in rowid order; [outbox_seq] is the AUTOINCREMENT
    high-water mark; [foreign_tables] counts the tables of a file at user
    version 0. *)
Record OutboxDB := mkOutboxDB {
  user_version : Z;
  foreign_tables : Z;
  outbox_meta : option (string * string);
  outbox : list OutboxRow;
  outbox_seq : Z;
  outbox_streams : gmap (string * string * string) Z;
}.

Definition set_outbox (rows : list OutboxRow) (db : OutboxDB) : OutboxDB :=
  mkOutboxDB (user_version db) (foreign_tables db) (outbox_meta db) rows (outbox_seq db) (outbox_streams db).

Notation OTx := (Tx OutboxDB).

(** The environment of one operation: the replies of its calls, how its commit
    ends, and the clock it reads. *)
Record OutboxWeather := mkOutboxWeather {
  ow_begin : Reply;
  ow_calls : list Reply;
  ow_commit : CommitReply;
  ow_now : Time;
}.

(** The environment after the first [n] calls. *)
Definition after (n : nat) (w : OutboxWeather) : OutboxWeather :=
  mkOutboxWeather (ow_begin w) (drop n (ow_calls w)) (ow_commit w) (ow_now w).

(** An operation that reads outside a transaction. *)
Definition run_query {A} (w : OutboxWeather) (body : OTx A) (db : OutboxDB) : res error A :=
  match body db (ow_calls w) with Ok (a, _, _) => Ok a | Err e => Err e end.

(** [BeginTx], the body, [commit]; the deferred rollback drops the working copy. *)
Definition run_tx {A} (w : OutboxWeather) (body : OTx A) (db : OutboxDB) : res error A * OutboxDB :=
  match ow_begin w with
  | Fails cause => (Err cause, db)
  | Works =>
      match body db (ow_calls w) with
      | Err e => (Err e, db)
      | Ok (a, working, _) =>
          match ow_commit w with
          | CommitOk => (Ok a, working)
          | CommitError _ durable =>
              (Err (EWrap "commit" ErrOutboxCommitUnknown), if durable then working else db)
          end
      end
  end.

Definition plain (cause : error) : error := cause.
Definition corrupt (cause : error) : error := EWrap "driver" ErrOutboxCorrupt.

(** ** Statements *)

Definition is_pending (row : OutboxRow) : bool := bool_decide (o_status row = outboxStatusPending).

Definition outboxUsage : OTx (Z * Z) :=
  call_checked plain (fun db =>
    let bytes := list_sum o_byte_size (outbox db) in
    if (bytes <? min_int64) || (max_int64 <? bytes) then Err (EOther "integer overflow")
    else Ok ((Z.of_nat (length (outbox db)), bytes), db)).

Definition nextSequence (gateway_id sensor_id boot_id : string) : OTx Z :=
  let> row := query plain (fun db => outbox_streams db !! (gateway_id, sensor_id, boot_id)) in
  match row with
  | None => tx_ret 0
  | Some next =>
      if next <? 0 then tx_fail (EWrap "negative next_sequence" ErrOutboxCorrupt) else tx_ret next
  end.

(** The row gets the next rowid; [message_id] is unique and [status] checked. *)
Definition insert_outbox (row : Z -> OutboxRow) (db : OutboxDB) : res error (unit * OutboxDB) :=
  let id := outbox_seq db + 1 in
  let row := row id in
  if max_int64 <? id then Err (EOther "database or disk is full")
  else if bool_decide (o_message_id row ∈ map o_message_id (outbox db))
  then Err (EOther "UNIQUE constraint failed: outbox.message_id")
  else if negb (bool_decide (o_status row = outboxStatusPending))
          && negb (bool_decide (o_status row = outboxStatusQuarantined))
  then Err (EOther "CHECK constraint failed")
  else Ok (tt, mkOutboxDB (user_version db) (foreign_tables db) (outbox_meta db) (outbox db ++ [row]) id
                 (outbox_streams db)).

Definition upsert_stream (key : string * string * string) (next : Z) (db : OutboxDB) : unit * OutboxDB :=
  (tt, mkOutboxDB (user_version db) (foreign_tables db) (outbox_meta db) (outbox db) (outbox_seq db)
         (<[key := next]> (outbox_streams db))).

(** The rows a statement with [gateway_id = ? AND message_id = ? AND status =
    'pending'] selects. *)
Definition selected (gateway_id message_id : string) (row : OutboxRow) : bool :=
  bool_decide (o_gateway_id row = gateway_id) && bool_decide (o_message_id row = message_id) && is_pending row.

Definition delete_pending_rows (gateway_id message_id : string) (db : OutboxDB) : Z * OutboxDB :=
  (Z.of_nat (length (List.filter (selected gateway_id message_id) (outbox db))),
   set_outbox (List.filter (fun row => negb (selected gateway_id message_id row)) (outbox db)) db).

Definition quarantine_row (reason : string) (row : OutboxRow) : OutboxRow :=
  mkOutboxRow (o_id row) (o_message_id row) (o_gateway_id row) (o_sensor_id row) (o_boot_id row)
    (o_topic row) (o_payload row) (o_byte_size row) (o_first_sequence row) (o_sample_count row)
    (o_sample_interval_us row) outboxStatusQuarantined (Some reason) (o_enqueued_at row).

Definition quarantine_rows (gateway_id message_id reason : string) (db : OutboxDB) : Z * OutboxDB :=
  (Z.of_nat (length (List.filter (selected gateway_id message_id) (outbox db))),
   set_outbox (map (fun row => if selected gateway_id message_id row then quarantine_row reason row else row)
     (outbox db)) db).

(** ** Reading rows *)

Section operations.
Context {uuid : Type} `{!UuidLib uuid}.
Variable o : Outbox.

Definition scanOutboxItem (row : OutboxRow) : res error (Item uuid) :=
  let! _ := (if (- 2147483648 <=? o_sample_count row) && (o_sample_count row <=? max_int32) then Ok tt
             else Err (EOther "converting driver.Value type int64 to a int32: value out of range")) in
  let! mid := or_err (EWrap "invalid message_id" ErrOutboxCorrupt) (uuid_Parse (o_message_id row)) in
  let! bid := or_err (EWrap "invalid boot_id" ErrOutboxCorrupt) (uuid_Parse (o_boot_id row)) in
  let! at_ := or_err (EWrap "invalid enqueued_at" ErrOutboxCorrupt) (Parse (o_enqueued_at row)) in
  Ok (mkItem (o_id row) mid (o_gateway_id row) (o_sensor_id row) bid (o_topic row) (o_payload row)
        (o_byte_size row) (o_first_sequence row) (o_sample_count row) (o_status row) at_).

(** The loop over [rows.Next], with the error [rows.Err] may report after it. *)
Definition scan_rows (rows : list OutboxRow) : OTx (list (Item uuid)) :=
  match map_res scanOutboxItem rows with
  | Err e => tx_fail e
  | Ok items => query plain (fun _ => items)
  end.

Definition pending_of (db : OutboxDB) : list OutboxRow :=
  List.filter (fun row => bool_decide (o_gateway_id row = gatewayID o) && is_pending row) (outbox db).

Definition limit_error : error := sim_error "pending limit must be between 1 and the row quota".

Definition Pending (w : OutboxWeather) (limit : Z) (db : OutboxDB) : res error (list (Item uuid)) :=
  if (limit <=? 0) || (maxRows o <? limit) then Err limit_error
  else run_query w
    (let> rows := query plain (fun db => take (Z.to_nat limit) (pending_of db)) in
     scan_rows rows) db.

Definition PendingAfter (w : OutboxWeather) (afterID limit : Z) (db : OutboxDB) : res error (list (Item uuid)) :=
  if (limit <=? 0) || (maxRows o <? limit) then Err limit_error
  else run_query w
    (let> rows := query plain (fun db =>
       take (Z.to_nat limit) (List.filter (fun row => afterID <? o_id row) (pending_of db))) in
     scan_rows rows) db.

(** [None] is [ok = false]. *)
Definition Lookup (w : OutboxWeather) (messageID : uuid) (db : OutboxDB) : res error (option (Item uuid)) :=
  run_query w
    (let> row := query plain (fun db =>
       List.find (fun row => bool_decide (o_gateway_id row = gatewayID o)
                             && bool_decide (o_message_id row = uuid_String messageID)) (outbox db)) in
     match row with
     | None => tx_ret None
     | Some row => match scanOutboxItem row with Ok item => tx_ret (Some item) | Err e => tx_fail e end
     end) db.

Definition Counts (w : OutboxWeather) (db : OutboxDB) : res error OutboxCounts :=
  run_query w
    (query plain (fun db =>
       let own := List.filter (fun row => bool_decide (o_gateway_id row = gatewayID o)) (outbox db) in
       let when status f row := if bool_decide (o_status row = status) then f row else 0 in
       mkOutboxCounts
         (list_sum (when outboxStatusPending (fun _ => 1)) own)
         (list_sum (when outboxStatusPending o_byte_size) own)
         (list_sum (when outboxStatusQuarantined (fun _ => 1)) own)
         (list_sum (when outboxStatusQuarantined o_byte_size) own))) db.

(** ** Changing the file *)

Definition enqueue_batch (req : EnqueueRequest uuid) (firstSequence : Z) : BatchRequest uuid :=
  mkBatchRequest (gatewayID o) (sensorID o) (q_BootID req) (q_MessageID req) firstSequence
    (q_MeasuredAt req) (q_SampleCount req) (q_SampleIntervalUS req).

Definition enqueue_row (req : EnqueueRequest uuid) (built : BuiltBatch uuid) (byteSize firstSequence : Z)
    (enqueuedAt : Time) (id : Z) : OutboxRow :=
  mkOutboxRow id (uuid_String (q_MessageID req)) (gatewayID o) (sensorID o) (uuid_String (q_BootID req))
    (b_Topic built) (b_Payload built) byteSize firstSequence (q_SampleCount req) (q_SampleIntervalUS req)
    outboxStatusPending None (FormatRFC3339Nano enqueuedAt).

Definition enqueue_body (now : Time) (req : EnqueueRequest uuid) : OTx (Item uuid) :=
  let> firstSequence := nextSequence (gatewayID o) (sensorID o) (uuid_String (q_BootID req)) in
  let> usage := outboxUsage in
  let '(rows, totalBytes) := usage in
  if maxRows o <=? rows then tx_fail ErrOutboxFull
  else match BuildSyntheticBatch (enqueue_batch req firstSequence) ServerLimits (q_ReceivedAt req) with
  | Err e => tx_fail e
  | Ok built =>
      let byteSize := str_len (b_Topic built) + str_len (b_Payload built) in
      if maxBytes o <? int64_add totalBytes byteSize then tx_fail ErrOutboxFull
      else
        let enqueuedAt := UTC now in
        let> _ := call_checked plain (insert_outbox (enqueue_row req built byteSize firstSequence enqueuedAt)) in
        let> id := query plain outbox_seq in
        let newNext := int64_add firstSequence (q_SampleCount req) in
        let> _ := call plain (upsert_stream (gatewayID o, sensorID o, uuid_String (q_BootID req)) newNext) in
        tx_ret (mkItem id (q_MessageID req) (gatewayID o) (sensorID o) (q_BootID req) (b_Topic built)
          (b_Payload built) byteSize firstSequence (q_SampleCount req) outboxStatusPending enqueuedAt)
  end.

Definition Enqueue (w : OutboxWeather) (req : EnqueueRequest uuid) (db : OutboxDB)
    : res error (Item uuid) * OutboxDB :=
  run_tx w (enqueue_body (ow_now w) req) db.

(** [Exec], then [RowsAffected]. *)
Definition affected_body (run : OutboxDB -> Z * OutboxDB) : OTx bool :=
  let> affected := call plain run in
  let> affected := query plain (fun _ => affected) in
  tx_ret (0 <? affected).

Definition DeletePending (w : OutboxWeather) (gateway_id : string) (messageID : uuid) (db : OutboxDB)
    : res error bool * OutboxDB :=
  if negb (bool_decide (gateway_id = gatewayID o))
  then (Err (EWrap "not the bound gateway" ErrOutboxIdentity), db)
  else run_tx w (affected_body (delete_pending_rows gateway_id (uuid_String messageID))) db.

Definition Quarantine (w : OutboxWeather) (messageID : uuid) (reason : string) (db : OutboxDB)
    : res error bool * OutboxDB :=
  let reason := TrimSpace reason in
  if bool_decide (reason = "") || (maxQuarantineReason <? str_len reason)
     || contains_byte (fun c => (byte_of c =? 0) || (byte_of c =? 13) || (byte_of c =? 10)) reason
  then (Err (EWrap "length must be bounded" ErrOutboxReason), db)
  else run_tx w (affected_body (quarantine_rows (gatewayID o) (uuid_String messageID) reason)) db.

(** ** Opening a file *)

Definition readUserVersion : OTx Z := query corrupt user_version.

Definition readBinding : OTx (string * string) :=
  let> meta := query corrupt outbox_meta in
  match meta with
  | None => tx_fail (EWrap "bound identity row is missing" ErrOutboxCorrupt)
  | Some binding => tx_ret binding
  end.

(** The seven statements of the schema, then the binding and the version.  A
    file that reaches them has no table of its own. *)
Definition create_tables (db : OutboxDB) : unit * OutboxDB :=
  (tt, mkOutboxDB (user_version db) 3 None [] 0 ∅).

Definition insert_meta (db : OutboxDB) : res error (unit * OutboxDB) :=
  match outbox_meta db with
  | Some _ => Err (EOther "UNIQUE constraint failed: outbox_meta.id")
  | None => Ok (tt, mkOutboxDB (user_version db) (foreign_tables db) (Some (gatewayID o, sensorID o))
                      (outbox db) (outbox_seq db) (outbox_streams db))
  end.

Definition set_version (db : OutboxDB) : unit * OutboxDB :=
  (tt, mkOutboxDB outboxSchemaVersion (foreign_tables db) (outbox_meta db) (outbox db) (outbox_seq db)
         (outbox_streams db)).

Definition createSchema (w : OutboxWeather) (db : OutboxDB) : res error unit * OutboxDB :=
  run_tx w
    (let> _ := call plain create_tables in
     let> _ := call_checked plain insert_meta in
     let> _ := call plain set_version in
     tx_ret tt) db.

(** A single statement outside a transaction commits by itself. *)
Definition run_auto (w : OutboxWeather) (run : OutboxDB -> res error (unit * OutboxDB)) (db : OutboxDB)
    : res error unit * OutboxDB :=
  match run db with
  | Err e => (Err e, db)
  | Ok (_, db') =>
      match ow_commit w with
      | CommitOk => (Ok tt, db')
      | CommitError cause durable => (Err cause, if durable then db' else db)
      end
  end.

Definition verifyBinding (w : OutboxWeather) (db : OutboxDB) : res error unit * OutboxDB :=
  match run_query w (query corrupt outbox_meta) db with
  | Err e => (Err e, db)
  | Ok None => run_auto w insert_meta db
  | Ok (Some (g, s)) =>
      if negb (bool_decide (g = gatewayID o)) || negb (bool_decide (s = sensorID o))
      then (Err (EWrap "file identity differs" ErrOutboxIdentity), db)
      else (Ok tt, db)
  end.

Definition prepare (w : OutboxWeather) (db : OutboxDB) : res error unit * OutboxDB :=
  match run_query w readUserVersion db with
  | Err e => (Err e, db)
  | Ok version =>
      if version =? outboxSchemaVersion then verifyBinding (after 1 w) db
      else if version =? 0 then
        match run_query (after 1 w) (query corrupt foreign_tables) db with
        | Err e => (Err e, db)
        | Ok tables =>
            if negb (tables =? 0) then (Err (EWrap "foreign tables" ErrOutboxSchema), db)
            else createSchema (after 2 w) db
        end
      else (Err (EWrap "file version" ErrOutboxSchema), db)
  end.
End operations.

Definition config_error (text : string) : error := sim_error ("outbox " +:+ text).

Definition validateOutboxConfig (cfg : OutboxConfig) : option error :=
  if bool_decide (cfg_Path cfg = ":memory:") || Contains (cfg_Path cfg) "mode=memory"
  then Some (config_error "path must be a durable file, not an in-memory database")
  else if negb (IsAbs (cfg_Path cfg)) || negb (bool_decide (Clean_rooted (cfg_Path cfg) = cfg_Path cfg))
          || Contains (cfg_Path cfg) "?"
  then Some (config_error "path must be a clean absolute file path without a query string")
  else if bool_decide (cfg_GatewayID cfg = "") || bool_decide (cfg_SensorID cfg = "")
  then Some (config_error "requires a gateway and sensor identity")
  else if cfg_MaxRows cfg <=? 0 then Some (config_error "max rows must be positive")
  else if cfg_MaxBytes cfg <=? 0 then Some (config_error "max bytes must be positive")
  else if cfg_OpTimeout cfg <=? 0 then Some (config_error "operation timeout must be positive")
  else None.

(** The file system's part of opening: is there a regular file, does the lock
    open, does the database open. *)
Record OpenWeather := mkOpenWeather {
  fs_regular : bool;
  fs_lock : Reply;
  fs_open : Reply;
  fs_db : OutboxWeather;
}.

Definition OpenOutbox (w : OpenWeather) (cfg : OutboxConfig) (db : OutboxDB) : res error Outbox * OutboxDB :=
  match validateOutboxConfig cfg with
  | Some err => (Err err, db)
  | None =>
      match fs_lock w, fs_open w with
      | Fails err, _ => (Err err, db)
      | Works, Fails err => (Err (corrupt err), db)
      | Works, Works =>
          let o := mkOutbox (cfg_GatewayID cfg) (cfg_SensorID cfg) (cfg_MaxRows cfg) (cfg_MaxBytes cfg) in
          match prepare o (fs_db w) db with
          | (Err err, db') => (Err err, db')
          | (Ok _, db') => (Ok o, db')
          end
      end
  end.

(** Administrative opening never changes the file. *)
Definition OpenOutboxAdmin (w : OpenWeather) (path : string) (opTimeout : Z) (db : OutboxDB)
    : res error Outbox :=
  if Contains path "?" || negb (IsAbs path) || negb (bool_decide (Clean_rooted path = path))
  then Err (config_error "path must be a clean absolute file path without a query string")
  else if opTimeout <=? 0 then Err (config_error "operation timeout must be positive")
  else if negb (fs_regular w) then Err ErrOutboxMissing
  else match fs_lock w, fs_open w with
  | Fails err, _ => Err err
  | Works, Fails err => Err (corrupt err)
  | Works, Works =>
      match run_query (fs_db w) readUserVersion db with
      | Err e => Err e
      | Ok version =>
          if negb (version =? outboxSchemaVersion) then Err (EWrap "file version" ErrOutboxSchema)
          else match run_query (after 1 (fs_db w)) readBinding db with
          | Err e => Err e
          | Ok (g, s) => Ok (mkOutbox g s maxAdminPendingLimit 1)
          end
      end
  end.
