(* ===== verification/OutboxSpec.v ===== *)
(** * The outbox keeps its rows, its quota and its sequence numbers

    The invariant of a bound file, what one [Enqueue] does, and the
    preservation of the invariant by every operation in every environment,
    the commits whose outcome the caller does not learn included. *)

From S2P Require Import Prelude GoStrings GoTime GoFloat GoJson Identity Uuid Telemetry Decode Validation.
From S2P Require Import Txn Message Batch Outbox.
#[local] Open Scope Z_scope.

(** ** Transactions *)

(** Go's [errors.Is] for a sentinel. *)
Fixpoint errors_Is (target err : error) : Prop :=
  err = target \/
  match err with
  | EWrap _ cause => errors_Is target cause
  | EWrap2 _ c1 c2 => errors_Is target c1 \/ errors_Is target c2
  | _ => False
  end.

(** How a transaction ends: nothing happened, the body is durable and its
    result is returned, or the commit failed and the body may be durable. *)
Inductive tx_outcome {A} (run : A -> OutboxDB -> Prop) (db : OutboxDB) : res error A -> OutboxDB -> Prop :=
| tx_nothing e : tx_outcome run db (Err e) db
| tx_committed a db' : run a db' -> tx_outcome run db (Ok a) db'
| tx_unknown e a db' : errors_Is ErrOutboxCommitUnknown e -> run a db' -> tx_outcome run db (Err e) db'.

Lemma run_tx_outcome {A} w (body : OTx A) (run : A -> OutboxDB -> Prop) db r db' :
  (forall a working rs, body db (ow_calls w) = Ok (a, working, rs) -> run a working) ->
  run_tx w body db = (r, db') -> tx_outcome run db r db'.
Proof.
  intros Hrun. unfold run_tx. destruct (ow_begin w) as [|cause]; [|intros [= <- <-]; constructor].
  destruct (body db (ow_calls w)) as [[[a working] rs]|e] eqn:E; [|intros [= <- <-]; constructor].
  specialize (Hrun _ _ _ eq_refl). destruct (ow_commit w) as [|cause durable]; intros [= <- <-].
  - by constructor.
  - destruct durable; [|constructor]. apply (tx_unknown _ _ _ a); [|done]. right. by left.
Qed.

Lemma tx_outcome_ok {A} (run : A -> OutboxDB -> Prop) db a db' : tx_outcome run db (Ok a) db' -> run a db'.
Proof. by inversion 1. Qed.

Lemma tx_outcome_preserves {A} (run : A -> OutboxDB -> Prop) (P : OutboxDB -> Prop) db r db' :
  tx_outcome run db r db' -> P db -> (forall a db'', run a db'' -> P db'') -> P db'.
Proof. intros [] HP Hrun; eauto. Qed.

Lemma affected_ok run db rs b working rs' : affected_body run db rs = Ok (b, working, rs') ->
  working = (run db).2 /\ b = (0 <? (run db).1).
Proof.
  unfold affected_body. intros H. apply tx_bind_ok in H as (n & db1 & rs1 & H1 & H).
  apply call_ok in H1. apply tx_bind_ok in H as (n' & db2 & rs2 & H2 & H). apply query_ok in H2 as [-> ->].
  injection H as <- <- <-. by rewrite H1.
Qed.

(** ** Rows in rowid order *)

Section spec.
Context {uuid : Type} `{!UuidLib uuid} `{!UuidLaws uuid}.
Variable o : Outbox.
Implicit Types (row : OutboxRow) (db : OutboxDB).

Definition stream_key row : string * string * string := (o_gateway_id row, o_sensor_id row, o_boot_id row).
Definition row_end row : Z := o_first_sequence row + o_sample_count row.

(** A later row has a larger rowid, another message, and, on the same boot, a
    later sequence range. *)
Definition follows r1 r2 : Prop :=
  o_id r1 < o_id r2 /\ o_message_id r1 <> o_message_id r2
  /\ (stream_key r1 = stream_key r2 -> row_end r1 <= o_first_sequence r2).

(** The batch whose serialization the row holds; the server accepts it at any
    time from [since] on. *)
Record row_batch row (b : BatchDTO uuid) : Prop := {
  rb_topic : o_topic row = telemetry_topic (GatewayID b) (SensorID b);
  rb_gateway : o_gateway_id row = GatewayID b;
  rb_sensor : o_sensor_id row = SensorID b;
  rb_message : o_message_id row = uuid_String (MessageID b);
  rb_boot : o_boot_id row = uuid_String (BootID b);
  rb_first : o_first_sequence row = FirstSequence b;
  rb_count : o_sample_count row = SampleCount b;
  rb_accepted : exists since, forall now, unix_ns since <= unix_ns now -> exists m,
    Validate (Some (mkValidator ServerLimits)) (o_topic row) (o_payload row) now = Ok m /\ batch m = b;
}.

Record row_ok row : Prop := {
  ro_bound : o_gateway_id row = gatewayID o /\ o_sensor_id row = sensorID o;
  ro_status : o_status row = outboxStatusPending \/ o_status row = outboxStatusQuarantined;
  ro_size : o_byte_size row = str_len (o_topic row) + str_len (o_payload row);
  ro_batch : exists b, row_batch row b;
  ro_first : 0 <= o_first_sequence row;
  ro_count : 0 < o_sample_count row <= max_int32;
  ro_last : row_end row - 1 <= max_int64;
}.

(** [next] is the first free number of the stream; a negative counter means
    that the last allocation ended at the largest number there is. *)
Definition below_next (streams : gmap (string * string * string) Z) row : Prop :=
  exists next, streams !! stream_key row = Some next /\ (row_end row <= next \/ next < 0).

Record outbox_inv db : Prop := {
  inv_meta : outbox_meta db = Some (gatewayID o, sensorID o);
  inv_version : user_version db = outboxSchemaVersion;
  inv_rows : Forall row_ok (outbox db);
  inv_order : StronglySorted follows (outbox db);
  inv_ids : Forall (fun row => o_id row <= outbox_seq db) (outbox db);
  inv_streams : Forall (below_next (outbox_streams db)) (outbox db);
  inv_next : forall key next, outbox_streams db !! key = Some next -> next <= max_int64;
}.

(** The quota of the configuration, on rows and on their business bytes, the
    topic and payload of each; [config.go] allows at most a million and 8 GiB. *)
Definition within_quota db : Prop :=
  Z.of_nat (length (outbox db)) <= maxRows o /\ list_sum o_byte_size (outbox db) <= maxBytes o.

(** ** What one enqueue does *)

(** The row that stores an item. *)
Definition item_row (item : Item uuid) (interval : Z) : OutboxRow :=
  mkOutboxRow (ID item) (uuid_String (i_MessageID item)) (i_GatewayID item) (i_SensorID item)
    (uuid_String (i_BootID item)) (i_Topic item) (i_Payload item) (i_ByteSize item) (i_FirstSequence item)
    (i_SampleCount item) interval outboxStatusPending None (FormatRFC3339Nano (i_EnqueuedAt item)).

Record enqueued (now : Time) (req : EnqueueRequest uuid) db (item : Item uuid) db' : Prop := {
  en_first : default 0 (outbox_streams db !! (gatewayID o, sensorID o, uuid_String (q_BootID req)))
             = i_FirstSequence item;
  en_nonneg : 0 <= i_FirstSequence item;
  en_rows : Z.of_nat (length (outbox db)) < maxRows o;
  en_bytes : int64_add (list_sum o_byte_size (outbox db)) (i_ByteSize item) <= maxBytes o;
  en_sum : list_sum o_byte_size (outbox db) <= max_int64;
  en_built : exists built,
    BuildSyntheticBatch (enqueue_batch o req (i_FirstSequence item)) ServerLimits (q_ReceivedAt req) = Ok built
    /\ i_Topic item = b_Topic built /\ i_Payload item = b_Payload built;
  en_fresh : uuid_String (q_MessageID req) ∉ map o_message_id (outbox db);
  en_item : item = mkItem (outbox_seq db + 1) (q_MessageID req) (gatewayID o) (sensorID o) (q_BootID req)
    (i_Topic item) (i_Payload item) (str_len (i_Topic item) + str_len (i_Payload item))
    (i_FirstSequence item) (q_SampleCount req) outboxStatusPending (UTC now);
  en_db : db' = mkOutboxDB (user_version db) (foreign_tables db) (outbox_meta db)
    (outbox db ++ [item_row item (q_SampleIntervalUS req)])
    (outbox_seq db + 1)
    (<[(gatewayID o, sensorID o, uuid_String (q_BootID req)) :=
        int64_add (i_FirstSequence item) (q_SampleCount req)]> (outbox_streams db));
}.

Lemma nextSequence_ok g s b db rs next db' rs' : nextSequence g s b db rs = Ok (next, db', rs') ->
  db' = db /\ 0 <= next /\ default 0 (outbox_streams db !! (g, s, b)) = next.
Proof.
  unfold nextSequence. intros H. apply tx_bind_ok in H as (r & db1 & rs1 & H1 & H).
  apply query_ok in H1 as [-> ->]. destruct (outbox_streams db !! _) as [n|]; cbn [default].
  - destruct (Z.ltb_spec n 0); [done|]. injection H as <- <- <-. done.
  - injection H as <- <- <-. done.
Qed.

Lemma outboxUsage_ok db rs rows bytes db' rs' : outboxUsage db rs = Ok (rows, bytes, db', rs') ->
  db' = db /\ rows = Z.of_nat (length (outbox db)) /\ bytes = list_sum o_byte_size (outbox db)
  /\ bytes <= max_int64.
Proof.
  unfold outboxUsage. intros H. apply call_checked_ok in H. destruct (_ || _) eqn:E; [done|]. gobool.
  injection H as <- <- <-. split_and!; [done..|lia].
Qed.

Lemma insert_outbox_ok f db u db' : insert_outbox f db = Ok (u, db') ->
  o_message_id (f (outbox_seq db + 1)) ∉ map o_message_id (outbox db)
  /\ db' = mkOutboxDB (user_version db) (foreign_tables db) (outbox_meta db)
             (outbox db ++ [f (outbox_seq db + 1)]) (outbox_seq db + 1) (outbox_streams db).
Proof.
  unfold insert_outbox. destruct (_ <? _); [done|]. destruct (bool_decide (_ ∈ _)) eqn:E; [done|].
  destruct (_ && _); [done|]. gobool. by intros [= _ <-].
Qed.

Lemma enqueue_body_ok now req db rs item db' rs' :
  enqueue_body o now req db rs = Ok (item, db', rs') -> enqueued now req db item db'.
Proof.
  unfold enqueue_body. intros H. apply tx_bind_ok in H as (first & db1 & rs1 & H1 & H).
  apply nextSequence_ok in H1 as (-> & Hpos & Hfirst).
  apply tx_bind_ok in H as ([rows bytes] & db1 & rs2 & H2 & H).
  apply outboxUsage_ok in H2 as (-> & -> & -> & Hsum).
  destruct (Z.leb_spec (maxRows o) (Z.of_nat (length (outbox db)))); [done|].
  destruct (BuildSyntheticBatch _ _ _) as [built|] eqn:Hb; [|done]. cbv zeta in H.
  destruct (Z.ltb_spec (maxBytes o) (int64_add (list_sum o_byte_size (outbox db))
    (str_len (b_Topic built) + str_len (b_Payload built)))); [done|].
  apply tx_bind_ok in H as (u1 & db1 & rs3 & H3 & H). apply call_checked_ok in H3.
  apply insert_outbox_ok in H3 as (Hfresh & ->).
  apply tx_bind_ok in H as (id & db1 & rs4 & H4 & H). apply query_ok in H4 as [-> ->].
  apply tx_bind_ok in H as (u2 & db1 & rs5 & H5 & H). apply call_ok in H5. injection H5 as _ <-.
  injection H as <- <- <-. cbn [outbox_seq] in *.
  constructor; cbn; try done. by exists built.
Qed.

(** ** Every operation keeps the invariant *)

Definition enqueue_widths (req : EnqueueRequest uuid) : Prop :=
  q_SampleCount req <= max_int32 /\ in_int64 (q_SampleIntervalUS req).

Lemma enqueued_batch now req db item db' : outbox_inv db -> enqueue_widths req ->
  enqueued now req db item db' -> exists row b, outbox db' = outbox db ++ [row] /\ row_batch row b
    /\ b = request_batch (enqueue_batch o req (i_FirstSequence item))
    /\ 0 < q_SampleCount req
    /\ i_FirstSequence item + q_SampleCount req - 1 <= max_int64
    /\ str_len (i_Topic item) + str_len (i_Payload item) <= 66000.
Proof.
  intros Hinv (Hw1 & Hw2) [Hf Hpos _ _ _ (built & Hb & Ht & Hp) _ Hit Hdb].
  assert (Hfmax : i_FirstSequence item <= max_int64).
  { destruct (outbox_streams db !! _) as [n|] eqn:E; cbn [default] in Hf; [|unfold max_int64; lia].
    apply (inv_next _ Hinv) in E. cbn in Hf. lia. }
  apply Build_inv in Hb as (Hok & texts & payload & m & _ & _ & Hv & Hm & Hbatch & Htopic & Hpay & _).
  2:{ split_and!; cbn; [done| |done]. unfold in_int64, min_int64, max_int64 in *. lia. }
  2:{ apply ServerLimits_ok. }
  set (req' := enqueue_batch o req (i_FirstSequence item)) in *.
  assert (Hlast := mok_last _ Hm). rewrite Hbatch in Hlast. cbn in Hlast.
  assert (Hcount := req_count _ Hok). cbn in Hcount.
  assert (Hsize : str_len payload <= 65536).
  { unfold Validate in Hv. destruct (Limits_Validate _); [done|]. destruct (Z.ltb_spec (MaxPayloadBytes
      (limits (mkValidator ServerLimits))) (str_len payload)) as [|Hs]; [done|]. exact Hs. }
  eexists _, _. split; [by rewrite Hdb|]. split; [|split; [reflexivity|]].
  - rewrite Hit. constructor; unfold item_row; cbn -[FormatRFC3339Nano]; try done; [by rewrite Ht, Htopic|].
    exists (q_ReceivedAt req). intros now' Hle. rewrite Ht, Hp, Htopic, Hpay.
    destruct (Validate_later _ _ _ _ _ _ Hle Hv) as (m' & Hv' & Hb' & _). exists m'. by rewrite Hb'.
  - split; [done|]. split; [done|]. rewrite Ht, Hp, Htopic, Hpay. cbn [r_GatewayID r_SensorID req' enqueue_batch].
    pose proof (pattern_length _ (valid_gateway_pattern _ (req_gateway _ Hok))) as Hg. cbn in Hg.
    pose proof (pattern_length _ (valid_sensor_pattern _ (req_sensor _ Hok))) as Hs. cbn in Hs.
    unfold telemetry_topic. cbn [Join]. rewrite !str_len_app, !str_len_cons, !str_len_app, !str_len_cons, !str_len_app, !str_len_cons.
    literal_lengths. lia.
Qed.

Lemma enqueued_inv now req db item db' : outbox_inv db -> enqueue_widths req ->
  enqueued now req db item db' -> outbox_inv db'.
Proof.
  intros Hinv Hw Hen. assert (Hen' := Hen).
  destruct (enqueued_batch _ _ _ _ _ Hinv Hw Hen) as (row & b & Hrow & Hb & _ & Hcount & Hlast & _).
  destruct Hen as [Hf Hpos _ _ _ _ Hfresh Hit Hdb].
  rewrite Hdb in Hrow. cbn [outbox] in Hrow. apply app_inv_head in Hrow. injection Hrow as Hrow.
  rewrite Hrow in Hdb.
  assert (Hkey : stream_key row = (gatewayID o, sensorID o, uuid_String (q_BootID req)))
    by (subst row; rewrite Hit; done).
  assert (Hstart : o_first_sequence row = i_FirstSequence item) by (subst row; done).
  assert (Hn : o_sample_count row = q_SampleCount req) by (subst row; rewrite Hit; done).
  assert (Hid : o_id row = outbox_seq db + 1) by (subst row; rewrite Hit; done).
  assert (Hmid : o_message_id row = uuid_String (q_MessageID req)) by (subst row; rewrite Hit; done).
  assert (Hend : row_end row = i_FirstSequence item + q_SampleCount req) by (unfold row_end; lia).
  assert (Hnext : (row_end row <= int64_add (i_FirstSequence item) (q_SampleCount req)
                   \/ int64_add (i_FirstSequence item) (q_SampleCount req) < 0)
                  /\ int64_add (i_FirstSequence item) (q_SampleCount req) <= max_int64).
  { split; [|apply wrap64_range]. unfold int64_add. rewrite Hend.
    destruct (decide (i_FirstSequence item + q_SampleCount req <= max_int64)).
    - left. rewrite wrap64_id; [done|]. unfold in_int64, min_int64. lia.
    - right. replace (i_FirstSequence item + q_SampleCount req) with (max_int64 + 1) by lia. done. }
  destruct Hinv as [Hmeta Hv Hrows Hord Hids Hstr Hnx]. subst db'.
  constructor; cbn [outbox_meta user_version outbox outbox_seq outbox_streams].
  - done.
  - done.
  - apply list.Forall_app. split; [done|]. constructor; [|constructor].
    constructor; [subst row; by rewrite Hit|subst row; by left|subst row; by rewrite Hit|by exists b|lia| |lia].
    destruct Hw. lia.
  - apply StronglySorted_snoc; [done|]. apply list.Forall_forall. intros r Hr.
    rewrite list.Forall_forall in Hids, Hstr. specialize (Hids _ Hr). destruct (Hstr _ Hr) as (n & Hln & Hle).
    split; [lia|]. split.
    + intros Heq. apply Hfresh. apply list_elem_of_fmap. exists r. by rewrite <- Hmid.
    + rewrite Hkey, Hstart. intros Hk. rewrite Hk in Hln. rewrite Hln in Hf. cbn in Hf. lia.
  - apply list.Forall_app. split.
    + eapply list.Forall_impl; [exact Hids|]. cbn. lia.
    + constructor; [lia|constructor].
  - apply list.Forall_app. split.
    + rewrite list.Forall_forall in Hstr |- *. intros r Hr. destruct (Hstr _ Hr) as (n & Hln & Hle).
      unfold below_next. destruct (decide (stream_key r = stream_key row)) as [Hk|Hk].
      * rewrite Hk, Hkey, lookup_insert_eq. rewrite Hk, Hkey in Hln. rewrite Hln in Hf. cbn in Hf.
        eexists. split; [reflexivity|]. lia.
      * rewrite lookup_insert_ne by (rewrite <- Hkey; congruence). by exists n.
    + constructor; [|constructor]. exists (int64_add (i_FirstSequence item) (q_SampleCount req)).
      rewrite Hkey, lookup_insert_eq. split; [done|tauto].
  - intros key n. destruct (decide (key = (gatewayID o, sensorID o, uuid_String (q_BootID req)))) as [->|].
    + rewrite lookup_insert_eq. intros [= <-]. tauto.
    + rewrite lookup_insert_ne by done. apply Hnx.
Qed.

Lemma filtered_inv f db : outbox_inv db -> outbox_inv (set_outbox (List.filter f (outbox db)) db).
Proof.
  intros []. constructor; cbn [set_outbox outbox_meta user_version outbox outbox_seq outbox_streams];
    try done; try by apply Forall_List_filter. by apply StronglySorted_filter.
Qed.

(** A change of status and reason only. *)
Definition same_item r1 r2 : Prop :=
  o_id r1 = o_id r2 /\ o_message_id r1 = o_message_id r2 /\ o_gateway_id r1 = o_gateway_id r2
  /\ o_sensor_id r1 = o_sensor_id r2 /\ o_boot_id r1 = o_boot_id r2 /\ o_topic r1 = o_topic r2
  /\ o_payload r1 = o_payload r2 /\ o_byte_size r1 = o_byte_size r2
  /\ o_first_sequence r1 = o_first_sequence r2 /\ o_sample_count r1 = o_sample_count r2
  /\ o_sample_interval_us r1 = o_sample_interval_us r2 /\ o_enqueued_at r1 = o_enqueued_at r2.

Definition mark (f : OutboxRow -> bool) (reason : string) row : OutboxRow :=
  if f row then quarantine_row reason row else row.

Lemma mark_same f reason row : same_item (mark f reason row) row.
Proof. unfold mark, same_item. by destruct (f row). Qed.

Lemma row_ok_same r1 r2 : same_item r1 r2 ->
  o_status r1 = outboxStatusPending \/ o_status r1 = outboxStatusQuarantined -> row_ok r2 -> row_ok r1.
Proof.
  intros (E1 & E2 & E3 & E4 & E5 & E6 & E7 & E8 & E9 & E10 & _) Hs [Hb _ Hsz (b & []) Hf Hc Hl].
  unfold row_end in *. constructor; unfold row_end; rewrite ?E3, ?E4, ?E6, ?E7, ?E8, ?E9, ?E10; try done.
  exists b. constructor; by rewrite ?E2, ?E3, ?E4, ?E5, ?E6, ?E7, ?E9, ?E10.
Qed.

Lemma Forall_mark (P : OutboxRow -> Prop) f reason rows :
  (forall row, P row -> P (mark f reason row)) -> Forall P rows -> Forall P (map (mark f reason) rows).
Proof. intros HP. induction 1; cbn; constructor; auto. Qed.

Lemma marked_inv f reason db : outbox_inv db -> outbox_inv (set_outbox (map (mark f reason) (outbox db)) db).
Proof.
  intros [Hm Hv Hr Ho Hi Hs Hn].
  constructor; cbn [set_outbox outbox_meta user_version outbox outbox_seq outbox_streams]; try done.
  - revert Hr. apply Forall_mark. intros row Hr. apply (row_ok_same _ row); [apply mark_same| |done].
    unfold mark. destruct (f row); [by right|apply Hr].
  - apply StronglySorted_map; [|done]. intros x y (H1 & H2 & H3).
    destruct (mark_same f reason x) as (A1 & A2 & A3 & A4 & A5 & _ & _ & _ & A9 & A10 & _).
    destruct (mark_same f reason y) as (B1 & B2 & B3 & B4 & B5 & _ & _ & _ & B9 & B10 & _).
    unfold follows, stream_key, row_end in *. by rewrite A1, A2, A3, A4, A5, A9, A10, B1, B2, B3, B4, B5, B9.
  - revert Hi. apply Forall_mark. intros row. by destruct (mark_same f reason row) as (-> & _).
  - revert Hs. apply Forall_mark. intros row. unfold below_next, stream_key, row_end.
    destruct (mark_same f reason row) as (_ & _ & E3 & E4 & E5 & _ & _ & _ & E9 & E10 & _).
    by rewrite E3, E4, E5, E9, E10.
Qed.

(** ** The quota *)

(** The bounds [config.go] enforces. *)
Definition outbox_limits : Prop := 0 < maxRows o <= 1000000 /\ 0 < maxBytes o <= 8589934592.

Lemma rows_nonneg db : outbox_inv db -> Forall (fun row => 0 <= o_byte_size row) (outbox db).
Proof.
  intros [_ _ Hr _ _ _ _]. eapply list.Forall_impl; [exact Hr|]. intros row Hrow.
  rewrite (ro_size _ Hrow). unfold str_len. lia.
Qed.

Lemma enqueued_quota now req db item db' : outbox_limits -> outbox_inv db -> enqueue_widths req ->
  enqueued now req db item db' -> within_quota db -> within_quota db'.
Proof.
  intros Hl Hinv Hw Hen [Hr Hb].
  destruct (enqueued_batch _ _ _ _ _ Hinv Hw Hen) as (_ & _ & _ & _ & _ & _ & _ & Hsize).
  destruct Hen as [_ _ Hrows Hbytes _ _ _ Hit Hdb]. rewrite Hdb. unfold within_quota. cbn [outbox].
  rewrite length_app, list_sum_app. split; [cbn [length]; lia|].
  assert (Hs : i_ByteSize item = str_len (i_Topic item) + str_len (i_Payload item)) by (rewrite Hit at 1; done).
  assert (0 <= list_sum o_byte_size (outbox db)).
  { pose proof (rows_nonneg _ Hinv) as Hnn. unfold list_sum. clear -Hnn.
    induction Hnn as [|row rows Hrow _ IH]; cbn; lia. }
  change (list_sum o_byte_size [item_row item (q_SampleIntervalUS req)]) with (i_ByteSize item + 0).
  unfold int64_add in Hbytes. rewrite wrap64_id in Hbytes; [lia|].
  unfold in_int64, min_int64, max_int64. destruct Hl. unfold str_len in *. lia.
Qed.

(** ** Operations and runs *)

Inductive op :=
| OpEnqueue (w : OutboxWeather) (req : EnqueueRequest uuid)
| OpDelete (w : OutboxWeather) (gateway_id : string) (id : uuid)
| OpQuarantine (w : OutboxWeather) (id : uuid) (reason : string).

(** The file after an operation; the reads leave it alone. *)
Definition op_step (a : op) db : OutboxDB :=
  match a with
  | OpEnqueue w req => (Enqueue o w req db).2
  | OpDelete w g id => (DeletePending o w g id db).2
  | OpQuarantine w id reason => (Quarantine o w id reason db).2
  end.

Definition op_ok (a : op) : Prop := match a with OpEnqueue _ req => enqueue_widths req | _ => True end.

(** What an operation may have done to the file. *)
Inductive op_effect (a : op) db : OutboxDB -> Prop :=
| effect_none : op_effect a db db
| effect_enqueue w req item db' : a = OpEnqueue w req -> enqueued (ow_now w) req db item db' -> op_effect a db db'
| effect_delete w g id : a = OpDelete w g id -> g = gatewayID o ->
    op_effect a db (set_outbox (List.filter (fun row => negb (selected g (uuid_String id) row)) (outbox db)) db)
| effect_quarantine w id reason reason' : a = OpQuarantine w id reason ->
    op_effect a db (set_outbox (map (mark (selected (gatewayID o) (uuid_String id)) reason') (outbox db)) db).

Lemma Enqueue_outcome w req db r db' : Enqueue o w req db = (r, db') ->
  tx_outcome (enqueued (ow_now w) req db) db r db'.
Proof. apply run_tx_outcome. intros a working rs. apply enqueue_body_ok. Qed.

Lemma DeletePending_outcome w g id db r db' : DeletePending o w g id db = (r, db') ->
  tx_outcome (fun deleted db' => g = gatewayID o
    /\ db' = set_outbox (List.filter (fun row => negb (selected g (uuid_String id) row)) (outbox db)) db
    /\ deleted = (0 <? Z.of_nat (length (List.filter (selected g (uuid_String id)) (outbox db))))) db r db'.
Proof.
  unfold DeletePending. destruct (bool_decide (g = gatewayID o)) eqn:E; [|intros [= <- <-]; constructor].
  apply run_tx_outcome. intros a working rs H. apply affected_ok in H as [-> ->]. gobool. done.
Qed.

Lemma Quarantine_outcome w id reason db r db' : Quarantine o w id reason db = (r, db') ->
  tx_outcome (fun moved db' => db' = set_outbox (map (mark (selected (gatewayID o) (uuid_String id))
      (TrimSpace reason)) (outbox db)) db
    /\ moved = (0 <? Z.of_nat (length (List.filter (selected (gatewayID o) (uuid_String id)) (outbox db))))) db r db'.
Proof.
  unfold Quarantine. cbv zeta. destruct (_ || _ || _); [intros [= <- <-]; constructor|].
  apply run_tx_outcome. intros a working rs H. by apply affected_ok in H as [-> ->].
Qed.

Lemma op_step_effect a db : op_effect a db (op_step a db).
Proof.
  destruct a as [w req|w g id|w id reason]; cbn [op_step].
  - destruct (Enqueue o w req db) as [r db'] eqn:E. apply Enqueue_outcome in E. cbn.
    destruct E; [constructor|by eapply effect_enqueue..].
  - destruct (DeletePending o w g id db) as [r db'] eqn:E. apply DeletePending_outcome in E. cbn.
    destruct E as [|? ? (? & -> & _)|? ? ? _ (? & -> & _)]; [constructor|by eapply effect_delete..].
  - destruct (Quarantine o w id reason db) as [r db'] eqn:E. apply Quarantine_outcome in E. cbn.
    destruct E as [|? ? (-> & _)|? ? ? _ (-> & _)]; [constructor|by eapply effect_quarantine..].
Qed.

Lemma op_effect_inv a db db' : op_ok a -> outbox_inv db -> op_effect a db db' -> outbox_inv db'.
Proof.
  intros Hok Hinv []; [done| |by apply filtered_inv|by apply marked_inv].
  subst a. by eapply enqueued_inv.
Qed.

Lemma op_effect_quota a db db' : outbox_limits -> op_ok a -> outbox_inv db -> op_effect a db db' ->
  within_quota db -> within_quota db'.
Proof.
  intros Hl Hok Hinv [] Hq; [done|subst a; by eapply enqueued_quota| |].
  - destruct Hq as [H1 H2]. split; cbn [set_outbox outbox].
    + pose proof (length_List_filter_le (fun row => negb (selected g (uuid_String id) row)) (outbox db)). lia.
    + etrans; [apply list_sum_filter_le; by apply rows_nonneg|done].
  - destruct Hq as [H1 H2]. split; cbn [set_outbox outbox]; [by rewrite length_map|].
    etrans; [|exact H2]. clear. unfold list_sum. apply Z.eq_le_incl.
    induction (outbox db) as [|row rows IH]; cbn; [done|].
    destruct (mark_same (selected (gatewayID o) (uuid_String id)) reason' row) as (_ & _ & _ & _ & _ & _ & _ & -> & _).
    by rewrite IH.
Qed.

Definition run_ops (ops : list op) db : OutboxDB := fold_left (fun db a => op_step a db) ops db.

Lemma run_ops_inv ops db : Forall op_ok ops -> outbox_inv db -> outbox_inv (run_ops ops db).
Proof.
  intros Hops. revert db. induction Hops as [|a ops Ha _ IH]; intros db Hinv; [done|].
  apply IH. by apply (op_effect_inv a db), op_step_effect.
Qed.

Lemma run_ops_quota ops db : outbox_limits -> Forall op_ok ops -> outbox_inv db -> within_quota db ->
  within_quota (run_ops ops db).
Proof.
  intros Hl Hops. revert db. induction Hops as [|a ops Ha _ IH]; intros db Hinv Hq; [done|].
  apply IH; [by apply (op_effect_inv a db), op_step_effect|].
  exact (op_effect_quota a db _ Hl Ha Hinv (op_step_effect a db) Hq).
Qed.

(** ** A fresh file *)

Lemma prepare_fresh w db db' : user_version db = 0 -> prepare o w db = (Ok tt, db') ->
  db' = mkOutboxDB outboxSchemaVersion 3 (Some (gatewayID o, sensorID o)) [] 0 ∅.
Proof.
  intros Hv. unfold prepare, readUserVersion, run_query. destruct (query _ _ _ _) as [[[v db1] rs]|] eqn:E; [|done].
  apply query_ok in E as [-> ->]. rewrite Hv. change (0 =? outboxSchemaVersion) with false.
  change (0 =? 0) with true. cbv iota.
  destruct (query corrupt foreign_tables _ _) as [[[t db2] rs2]|] eqn:E2; [|done].
  destruct (negb _); [done|]. unfold createSchema, run_tx.
  destruct (ow_begin _); [|done]. set (body := fun _ => _) in *.
  destruct (tx_bind (call plain create_tables) _ _ _) as [[[u db3] rs3]|] eqn:Eb; [|done].
  apply tx_bind_ok in Eb as ([] & db4 & rs4 & H1 & Eb). apply call_ok in H1. injection H1 as <-.
  apply tx_bind_ok in Eb as ([] & db5 & rs5 & H2 & Eb). apply call_checked_ok in H2. injection H2 as <-.
  apply tx_bind_ok in Eb as ([] & db6 & rs6 & H3 & Eb). apply call_ok in H3. injection H3 as <-.
  injection Eb as <- <- <-. destruct (ow_commit _); [|done]. by intros [= <-].
Qed.

Lemma fresh_inv db : outbox_meta db = Some (gatewayID o, sensorID o) -> user_version db = outboxSchemaVersion ->
  outbox db = [] -> outbox_streams db = ∅ -> outbox_inv db.
Proof.
  intros Hm Hv Ho Hs. constructor; rewrite ?Ho, ?Hs; try done; try constructor.
Qed.

(** C26 One [Enqueue] either does nothing, or allocates the stream's next
    sequence range, appends exactly the row of the item it returns and advances
    the counter, all or nothing.  An item is returned only when the transaction
    is durable; when the commit's outcome is unknown the error says so, and the
    row and the counter are there together or not at all. *)
Theorem Enqueue_atomic w req db r db' : Enqueue o w req db = (r, db') ->
  tx_outcome (enqueued (ow_now w) req db) db r db'.
Proof.
  apply run_tx_outcome. intros a working rs. apply enqueue_body_ok.
Qed.

(** C28 Whatever mix of enqueues, deletes and quarantines runs on a
    bound file, failing calls and commits of unknown outcome included, the file
    keeps its invariant: rows in rowid order with distinct messages, every row
    of the bound Gateway and Sensor with its exact size and a payload the
    server accepts as the batch it names, and per boot increasing sequence
    ranges below the counter. *)
Theorem outbox_keeps_invariant ops db : Forall op_ok ops -> outbox_inv db -> outbox_inv (run_ops ops db).
Proof. apply run_ops_inv. Qed.

(** C39 With the bounds of the configuration, the number of stored rows and the
    sum of their [byte_size] columns, the topic and payload sizes, never exceed
    the configured quota, quarantined rows included. This does not bound the
    SQLite file, which also holds indexes, free pages and its journal. *)
Theorem outbox_within_quota ops db : outbox_limits -> Forall op_ok ops -> outbox_inv db -> within_quota db ->
  within_quota (run_ops ops db).
Proof. apply run_ops_quota. Qed.

End spec.
