(* ===== verification/OutboxQueue.v ===== *)
(** * Sequence allocation over a run, and the outbox as a queue

    What a sequence of operations does to one file: the sequence ranges ever
    handed out, the rows read back, the acknowledged and the quarantined rows. *)

From S2P Require Import Prelude GoStrings GoTime GoFloat GoJson Uuid Identity Telemetry Decode Validation Message.
From S2P Require Import Txn Batch Outbox OutboxSpec.
#[local] Open Scope Z_scope.

(** ** Contiguous ranges *)

Fixpoint contiguous (start : Z) (rows : list OutboxRow) : Prop :=
  match rows with
  | [] => True
  | row :: rest => o_first_sequence row = start /\ contiguous (row_end row) rest
  end.

Fixpoint range_end (start : Z) (rows : list OutboxRow) : Z :=
  match rows with [] => start | row :: rest => range_end (row_end row) rest end.

Lemma contiguous_snoc start rows row : contiguous start rows -> o_first_sequence row = range_end start rows ->
  contiguous start (rows ++ [row]).
Proof. revert start. induction rows as [|r rows IH]; intros start; cbn; [done|]. intros [H1 H2] H3. eauto. Qed.

Lemma range_end_snoc start rows row : range_end start (rows ++ [row]) = row_end row.
Proof. revert start. induction rows as [|r rows IH]; intros start; cbn; [done|]. apply IH. Qed.

Definition of_stream (key : string * string * string) (rows : list OutboxRow) : list OutboxRow :=
  List.filter (fun row => bool_decide (stream_key row = key)) rows.

Lemma of_stream_app key rows rows' : of_stream key (rows ++ rows') = of_stream key rows ++ of_stream key rows'.
Proof. unfold of_stream. by rewrite List.filter_app. Qed.

Section history.
Context {uuid : Type} `{!UuidLib uuid} `{!UuidLaws uuid}.
Variable o : Outbox.
Implicit Types (row : OutboxRow) (db : OutboxDB).

(** The rows an operation added: their rowids are above the old high-water mark. *)
Definition new_rows db db' : list OutboxRow :=
  List.filter (fun row => outbox_seq db <? o_id row) (outbox db').

(** Every row ever added, deleted since or not. *)
Fixpoint run_history (ops : list op) db (history : list OutboxRow) : list OutboxRow :=
  match ops with
  | [] => history
  | a :: rest => run_history rest (op_step o a db) (history ++ new_rows db (op_step o a db))
  end.

Record history_inv db (history : list OutboxRow) : Prop := {
  hist_ranges : forall key, contiguous 0 (of_stream key history);
  hist_next : forall key, let last := range_end 0 (of_stream key history) in
    default 0 (outbox_streams db !! key) = last
    \/ (last = max_int64 + 1 /\ exists next, outbox_streams db !! key = Some next /\ next < 0);
  hist_stored : Forall (fun row => exists row', row' ∈ history /\ same_item row row') (outbox db);
}.

Lemma new_rows_none db db' : Forall (fun row => o_id row <= outbox_seq db) (outbox db') -> new_rows db db' = [].
Proof.
  unfold new_rows. induction 1 as [|row rows Hrow _ IH]; cbn; [done|].
  destruct (Z.ltb_spec (outbox_seq db) (o_id row)); [lia|done].
Qed.

Lemma enqueued_new now req db (item : Item uuid) db' : outbox_inv o db -> enqueued o now req db item db' ->
  new_rows db db' = [item_row item (q_SampleIntervalUS req)].
Proof.
  intros Hinv Hen. destruct Hen as [_ _ _ _ _ _ _ Hit ->]. unfold new_rows. cbn [outbox].
  rewrite List.filter_app. assert (E := new_rows_none db db (inv_ids _ _ Hinv)). unfold new_rows in E. rewrite E.
  cbn [List.filter app]. rewrite Hit. cbn [item_row ID o_id].
  destruct (Z.ltb_spec (outbox_seq db) (outbox_seq db + 1)); [done|lia].
Qed.

Lemma same_item_refl row : same_item row row.
Proof. by repeat split. Qed.

Lemma same_item_trans r1 r2 r3 : same_item r1 r2 -> same_item r2 r3 -> same_item r1 r3.
Proof. unfold same_item. intros H1 H2. destruct_and!. split_and!; congruence. Qed.

Lemma Forall_stored_mono (h h' rows : list OutboxRow) : (forall row, row ∈ h -> row ∈ h') ->
  Forall (fun row => exists row', row' ∈ h /\ same_item row row') rows ->
  Forall (fun row => exists row', row' ∈ h' /\ same_item row row') rows.
Proof.
  intros Hh HF. eapply list.Forall_impl; [exact HF|]. cbn. intros row (row' & Hin & Hs). eauto.
Qed.

Lemma history_enqueue now req db (item : Item uuid) db' h : outbox_inv o db -> enqueue_widths req ->
  enqueued o now req db item db' -> history_inv db h ->
  history_inv db' (h ++ [item_row item (q_SampleIntervalUS req)]).
Proof.
  intros Hinv Hw Hen [Hr Hn Hs].
  destruct (enqueued_batch _ _ _ _ _ _ Hinv Hw Hen) as (_ & _ & _ & _ & _ & Hcount & Hlast & _).
  destruct Hen as [Hf Hpos _ _ _ _ _ Hit Hdb]. set (row := item_row item (q_SampleIntervalUS req)) in *.
  set (key0 := (gatewayID o, sensorID o, uuid_String (q_BootID req))) in *.
  assert (Hkey : stream_key row = key0) by (unfold row; rewrite Hit; done).
  assert (Hstart : o_first_sequence row = i_FirstSequence item) by done.
  assert (Hend : row_end row = i_FirstSequence item + q_SampleCount req)
    by (unfold row_end, row; rewrite Hit; done).
  assert (Hlast0 : range_end 0 (of_stream key0 h) = i_FirstSequence item).
  { destruct (Hn key0) as [E|(_ & n & E & Hneg)]; [congruence|]. rewrite E in Hf. cbn in Hf. lia. }
  assert (Hof : forall key, of_stream key (h ++ [row]) =
    of_stream key h ++ (if bool_decide (key0 = key) then [row] else [])).
  { intros key. rewrite of_stream_app. unfold of_stream at 2. cbn. by rewrite Hkey. }
  constructor.
  - intros key. rewrite Hof. destruct (bool_decide (key0 = key)) eqn:E; [|by rewrite app_nil_r].
    gobool. subst key. apply contiguous_snoc; [apply Hr|]. congruence.
  - intros key. cbv zeta. rewrite Hof, Hdb. cbn [outbox_streams]. fold key0.
    destruct (bool_decide (key0 = key)) eqn:E; gobool.
    + subst key. rewrite range_end_snoc, lookup_insert_eq, Hend. cbn [default]. unfold int64_add.
      destruct (decide (i_FirstSequence item + q_SampleCount req <= max_int64)).
      * left. rewrite wrap64_id; [done|]. unfold in_int64, min_int64. lia.
      * right. replace (i_FirstSequence item + q_SampleCount req) with (max_int64 + 1) by lia.
        split; [done|]. by eexists.
    + rewrite app_nil_r, lookup_insert_ne by done. apply Hn.
  - rewrite Hdb. cbn [outbox]. apply list.Forall_app. split.
    + eapply Forall_stored_mono; [|exact Hs]. intros r Hin. apply elem_of_app. by left.
    + constructor; [|constructor]. exists row. split; [apply elem_of_app; right; by left|apply same_item_refl].
Qed.

Lemma history_effect a db db' h : op_ok a -> outbox_inv o db -> op_effect o a db db' -> history_inv db h ->
  history_inv db' (h ++ new_rows db db').
Proof.
  intros Hok Hinv Heff Hh. destruct Heff as [|w req item db' -> Hen|w g id -> Hg|w id reason reason' ->].
  - rewrite new_rows_none by apply Hinv. by rewrite app_nil_r.
  - rewrite (enqueued_new _ _ _ _ _ Hinv Hen). by eapply history_enqueue.
  - rewrite new_rows_none; [|cbn [set_outbox outbox]; apply Forall_List_filter, Hinv].
    rewrite app_nil_r. destruct Hh as [Hr Hn Hs]. constructor; [done..|].
    cbn [set_outbox outbox]. by apply Forall_List_filter.
  - rewrite new_rows_none.
    2:{ cbn [set_outbox outbox]. apply Forall_mark; [|apply Hinv].
        intros row. by destruct (mark_same (selected (gatewayID o) (uuid_String id)) reason' row) as (-> & _). }
    rewrite app_nil_r. destruct Hh as [Hr Hn Hs]. constructor; [done..|].
    cbn [set_outbox outbox]. apply Forall_mark; [|done]. intros row (row' & Hin & Hsame). exists row'.
    split; [done|]. eapply same_item_trans; [apply mark_same|done].
Qed.

Lemma run_history_inv ops db h : Forall op_ok ops -> outbox_inv o db -> history_inv db h ->
  history_inv (run_ops o ops db) (run_history ops db h).
Proof.
  intros Hops. revert db h. induction Hops as [|a ops Ha _ IH]; intros db h Hinv Hh; [done|].
  apply IH; [by apply (op_effect_inv o a db), op_step_effect|].
  by apply (history_effect a); [| |apply op_step_effect|].
Qed.

(** Over any run from a freshly prepared file, the sequence ranges
    handed to one boot are adjacent and start at 0: each new range begins where
    the previous one ended, whether or not rows were deleted, quarantined or
    left by a commit of unknown outcome in between; and every row on disk is
    one of the rows that were added, changed in its status and reason only. *)
Theorem sequences_contiguous w ops db0 db : Forall op_ok ops ->
  user_version db0 = 0 -> prepare o w db0 = (Ok tt, db) ->
  (forall key, contiguous 0 (of_stream key (run_history ops db [])))
  /\ Forall (fun row => exists row', row' ∈ run_history ops db [] /\ same_item row row')
       (outbox (run_ops o ops db)).
Proof.
  intros Hops Hv Hprep. apply prepare_fresh in Hprep; [|done].
  assert (Hinv : outbox_inv o db) by (apply fresh_inv; by subst db).
  destruct (run_history_inv ops db [] Hops Hinv) as [H1 H2 H3]; [|done].
  subst db. constructor; cbn; [done| |constructor]. intros key. left. by rewrite lookup_empty.
Qed.

(** A stream whose last range ends at the largest sequence number is reported as
    a corrupt file from then on: the counter has wrapped to a negative number. *)
Lemma exhausted_stream_corrupt now req db (item : Item uuid) db' w' req' :
  enqueued o now req db item db' -> i_FirstSequence item + q_SampleCount req = max_int64 + 1 ->
  q_BootID req' = q_BootID req -> ow_begin w' = Works -> ow_calls w' = [] ->
  Enqueue o w' req' db' = (Err (EWrap "negative next_sequence" ErrOutboxCorrupt), db').
Proof.
  intros [_ _ _ _ _ _ _ _ ->] Hend Hb Hw Hc. unfold Enqueue, run_tx. rewrite Hw, Hc.
  unfold enqueue_body, nextSequence, tx_bind, query, call. cbn [outbox_streams]. rewrite Hb, lookup_insert_eq.
  unfold int64_add. rewrite Hend. reflexivity.
Qed.
End history.

(** * Opening an outbox file

    The path and schema checks, and the binding of a file to one Gateway and
    Sensor. *)

(** The rows and counters of a file: what opening must not touch. *)
Definition contents (db : OutboxDB) := (outbox db, outbox_seq db, outbox_streams db).

Lemma run_query_ok {A} w (run : OutboxDB -> A) db a :
  run_query w (query corrupt run) db = Ok a -> a = run db.
Proof.
  unfold run_query. destruct (query _ _ _ _) as [[[b db'] rs]|] eqn:E; [|done].
  apply query_ok in E as [-> ->]. by intros [= <-].
Qed.

Lemma run_query_err {A} w (run : OutboxDB -> A) db e :
  run_query w (query corrupt run) db = Err e -> errors_Is ErrOutboxCorrupt e.
Proof.
  unfold run_query, query, call. destruct (ow_calls w) as [|[|cause] rs]; [done..|].
  intros [= <-]. right. by left.
Qed.

Lemma verifyBinding_spec o w db r db' : verifyBinding o w db = (r, db') ->
  contents db' = contents db /\ user_version db' = user_version db
  /\ (r = Ok tt -> outbox_meta db' = Some (gatewayID o, sensorID o))
  /\ (forall binding, outbox_meta db = Some binding -> db' = db
        /\ (binding <> (gatewayID o, sensorID o) ->
            exists e, r = Err e /\ (errors_Is ErrOutboxIdentity e \/ errors_Is ErrOutboxCorrupt e))).
Proof.
  unfold verifyBinding. destruct (run_query _ _ _) as [meta|e] eqn:E.
  - apply run_query_ok in E as ->. destruct (outbox_meta db) as [[g s]|] eqn:Hm.
    + destruct (_ || _) eqn:Hne; gobool; intros [= <- <-].
      * split_and!; try done. intros binding _. split; [done|]. intros _. eexists. split; [reflexivity|]. left. right. by left.
      * subst g s. split_and!; try done. by intros binding [= <-].
    + unfold run_auto, insert_meta. rewrite Hm. destruct (ow_commit w) as [|cause []]; intros [= <- <-]; by split_and!.
  - intros [= <- <-]. split_and!; try done. intros binding _. split; [done|]. intros _.
    exists e. split; [done|]. right. by eapply run_query_err.
Qed.

Lemma createSchema_spec o w db r db' : createSchema o w db = (r, db') ->
  db' = db \/ (outbox_meta db' = Some (gatewayID o, sensorID o) /\ user_version db' = outboxSchemaVersion
               /\ contents db' = ([], 0, ∅)).
Proof.
  intros H. apply (run_tx_outcome _ _ (fun _ db' => outbox_meta db' = Some (gatewayID o, sensorID o)
    /\ user_version db' = outboxSchemaVersion /\ contents db' = ([], 0, ∅))) in H; [destruct H; auto|].
  intros [] working rs Hb. apply tx_bind_ok in Hb as ([] & db1 & rs1 & H1 & Hb). apply call_ok in H1. injection H1 as <-.
  apply tx_bind_ok in Hb as ([] & db2 & rs2 & H2 & Hb). apply call_checked_ok in H2. injection H2 as <-.
  apply tx_bind_ok in Hb as ([] & db3 & rs3 & H3 & Hb). apply call_ok in H3. injection H3 as <-.
  by injection Hb as <- <-.
Qed.

Lemma createSchema_ok o w db db' : createSchema o w db = (Ok tt, db') ->
  outbox_meta db' = Some (gatewayID o, sensorID o) /\ user_version db' = outboxSchemaVersion.
Proof.
  intros H. apply (run_tx_outcome _ _ (fun _ db' => outbox_meta db' = Some (gatewayID o, sensorID o)
    /\ user_version db' = outboxSchemaVersion)) in H; [by apply tx_outcome_ok in H|].
  intros [] working rs Hb. apply tx_bind_ok in Hb as ([] & db1 & rs1 & H1 & Hb). apply call_ok in H1. injection H1 as <-.
  apply tx_bind_ok in Hb as ([] & db2 & rs2 & H2 & Hb). apply call_checked_ok in H2. injection H2 as <-.
  apply tx_bind_ok in Hb as ([] & db3 & rs3 & H3 & Hb). apply call_ok in H3. injection H3 as <-.
  by injection Hb as <- <-.
Qed.

(** The kinds of file [prepare] finds. *)
Lemma prepare_spec o w db r db' : prepare o w db = (r, db') ->
  (r = Ok tt -> outbox_meta db' = Some (gatewayID o, sensorID o) /\ user_version db' = outboxSchemaVersion)
  /\ (user_version db = outboxSchemaVersion -> contents db' = contents db)
  /\ (user_version db <> outboxSchemaVersion -> user_version db <> 0 \/ foreign_tables db <> 0 ->
      db' = db /\ exists e, r = Err e /\ (errors_Is ErrOutboxSchema e \/ errors_Is ErrOutboxCorrupt e))
  /\ (forall binding, user_version db = outboxSchemaVersion -> outbox_meta db = Some binding ->
      binding <> (gatewayID o, sensorID o) -> db' = db /\ exists e, r = Err e).
Proof.
  unfold prepare, readUserVersion. destruct (run_query w _ db) as [version|e] eqn:E.
  2:{ intros [= <- <-]. split_and!; try done; [|by eauto].
      intros _ _. split; [done|]. exists e. split; [done|]. right. by eapply run_query_err. }
  apply run_query_ok in E as ->. destruct (Z.eqb_spec (user_version db) outboxSchemaVersion) as [Hv|Hv].
  - intros H. apply verifyBinding_spec in H as (Hc & Hv' & Hok & Hb). split_and!; try done.
    + intros ->. split; [by apply Hok|by rewrite Hv'].
    + intros binding _ Hm Hne. destruct (Hb _ Hm) as [-> Herr]. split; [done|]. destruct (Herr Hne) as (e & -> & _). eauto.
  - destruct (Z.eqb_spec (user_version db) 0) as [H0|H0].
    + destruct (run_query (after 1 w) _ db) as [tables|e] eqn:E.
      2:{ intros [= <- <-]. split_and!; try done. intros _ _. split; [done|]. exists e. split; [done|]. right.
          by eapply run_query_err. }
      apply run_query_ok in E as ->. destruct (Z.eqb_spec (foreign_tables db) 0) as [Ht|Ht]; cbn [negb].
      * intros H. split_and!; [|by intros ?|by intros _ [? | ?]|by intros ? ?].
        intros ->. by eapply createSchema_ok.
      * intros [= <- <-]. split_and!; try done. intros _ _. split; [done|]. eexists. split; [reflexivity|].
        left. right. by left.
    + intros [= <- <-]. split_and!; try done. intros _ _. split; [done|]. eexists. split; [reflexivity|].
      left. right. by left.
Qed.

Lemma validateOutboxConfig_ok cfg : validateOutboxConfig cfg = None ->
  IsAbs (cfg_Path cfg) = true /\ Clean_rooted (cfg_Path cfg) = cfg_Path cfg
  /\ Contains (cfg_Path cfg) "?" = false /\ Contains (cfg_Path cfg) "mode=memory" = false
  /\ cfg_GatewayID cfg <> "" /\ cfg_SensorID cfg <> ""
  /\ 0 < cfg_MaxRows cfg /\ 0 < cfg_MaxBytes cfg /\ 0 < cfg_OpTimeout cfg.
Proof. unfold validateOutboxConfig. intros H. inv_ok H. gobool. split_and!; try done; lia. Qed.

(** An outbox that opens has a valid configuration and a file at the
    supported version that is bound to exactly that Gateway and Sensor.
    Opening never changes the rows, the counters or the identifiers of a file
    at that version; a file of another version, with foreign tables or bound to
    another identity is refused and left exactly as it was. *)
Theorem OpenOutbox_spec w cfg db r db' : OpenOutbox w cfg db = (r, db') ->
  (forall o, r = Ok o -> validateOutboxConfig cfg = None
     /\ o = mkOutbox (cfg_GatewayID cfg) (cfg_SensorID cfg) (cfg_MaxRows cfg) (cfg_MaxBytes cfg)
     /\ outbox_meta db' = Some (cfg_GatewayID cfg, cfg_SensorID cfg) /\ user_version db' = outboxSchemaVersion)
  /\ (user_version db = outboxSchemaVersion -> contents db' = contents db)
  /\ (user_version db <> outboxSchemaVersion -> user_version db <> 0 \/ foreign_tables db <> 0 ->
      db' = db /\ exists e, r = Err e)
  /\ (forall binding, user_version db = outboxSchemaVersion -> outbox_meta db = Some binding ->
      binding <> (cfg_GatewayID cfg, cfg_SensorID cfg) -> db' = db /\ exists e, r = Err e).
Proof.
  unfold OpenOutbox. destruct (validateOutboxConfig cfg) as [err|] eqn:Hcfg; [intros [= <- <-]; by split_and!; eauto|].
  destruct (fs_lock w); [|intros [= <- <-]; by split_and!; eauto].
  destruct (fs_open w); [|intros [= <- <-]; by split_and!; eauto].
  destruct (prepare _ _ _) as [[[]|e] db1] eqn:E; intros [= <- <-];
    apply prepare_spec in E as (H1 & H2 & H3 & H4); cbn [gatewayID sensorID] in *.
  - split_and!; [|done| |].
    + intros o [= <-]. destruct (H1 eq_refl). by split_and!.
    + intros Hv Hf. destruct (H3 Hv Hf) as (_ & e & [=] & _).
    + intros binding Hv Hm Hne. destruct (H4 _ Hv Hm Hne) as (_ & e & [=]).
  - split_and!; [done|done| |].
    + intros Hv Hf. destruct (H3 Hv Hf) as (-> & _). eauto.
    + intros binding Hv Hm Hne. destruct (H4 _ Hv Hm Hne) as (-> & _). eauto.
Qed.

(** Administrative opening takes the identity from the file: it opens
    only an existing file at the supported version with a bound identity, and
    keeps the fixed listing limit. *)
Theorem OpenOutboxAdmin_spec w path opTimeout db o : OpenOutboxAdmin w path opTimeout db = Ok o ->
  fs_regular w = true /\ fs_lock w = Works /\ 0 < opTimeout /\ Clean_rooted path = path
  /\ user_version db = outboxSchemaVersion /\ outbox_meta db = Some (gatewayID o, sensorID o)
  /\ maxRows o = maxAdminPendingLimit.
Proof.
  unfold OpenOutboxAdmin. destruct (_ || _ || _) eqn:Hp; [done|]. gobool.
  destruct (Z.leb_spec opTimeout 0); [done|]. destruct (fs_regular w); [|done]. cbn [negb].
  destruct (fs_lock w); [|done]. destruct (fs_open w); [|done].
  destruct (run_query (fs_db w) _ _) as [v|] eqn:Ev; [|done]. apply run_query_ok in Ev as ->.
  destruct (Z.eqb_spec (user_version db) outboxSchemaVersion) as [Hv|]; [|done]. cbn [negb].
  unfold run_query. destruct (readBinding db _) as [[[[g s] db1] rs]|] eqn:Eb; [|done].
  intros [= <-]. cbn [gatewayID sensorID maxRows].
  unfold readBinding in Eb. apply tx_bind_ok in Eb as (meta & db2 & rs2 & Hq & Hb).
  apply query_ok in Hq as [-> ->]. destruct (outbox_meta db) as [b|]; [|done]. injection Hb as -> <- <-. by split_and!.
Qed.

(** * Reading, acknowledging, quarantining and opening

    The functional behaviour of the outbox operations that the scheduler and
    the acknowledgement worker call. *)

Section queue.
Context {uuid : Type} `{!UuidLib uuid} `{!UuidLaws uuid}.
Variable o : Outbox.
Implicit Types (row : OutboxRow) (db : OutboxDB).

(** An environment where every call is answered. *)
Definition calm (w : OutboxWeather) : Prop :=
  ow_begin w = Works /\ ow_calls w = [] /\ ow_commit w = CommitOk.

(** ** Reading back *)

Lemma scan_item_row (item : Item uuid) interval : i_Status item = outboxStatusPending ->
  - 2147483648 <= i_SampleCount item <= max_int32 -> loc_off (i_EnqueuedAt item) = 0 ->
  0 <= Year (i_EnqueuedAt item) <= 9999 -> scanOutboxItem (item_row item interval) = Ok item.
Proof.
  intros Hs Hc Hoff Hy. unfold scanOutboxItem, item_row.
  cbn [o_id o_message_id o_gateway_id o_sensor_id o_boot_id o_topic o_payload o_byte_size o_first_sequence
       o_sample_count o_status o_enqueued_at].
  rewrite (proj2 (Z.leb_le _ _)), (proj2 (Z.leb_le _ _)) by lia. cbn [andb mbind res_bind].
  rewrite !uuid_Parse_String, Parse_FormatRFC3339Nano by done. cbn [or_err mbind res_bind].
  destruct item. cbn in Hs |- *. by subst.
Qed.

Lemma find_snoc {A} (f : A -> bool) l x : Forall (fun y => f y = false) l -> f x = true ->
  List.find f (l ++ [x]) = Some x.
Proof. intros Hl Hx. induction Hl as [|y l Hy _ IH]; cbn; [by rewrite Hx|by rewrite Hy]. Qed.

(** An item that [Enqueue] returned is found again under its message
    identifier, unchanged: identity, topic, payload bytes, sequence range and
    enqueue time. *)
Theorem Enqueue_then_Lookup w w' req db item db' :
  Enqueue o w req db = (Ok item, db') -> outbox_inv o db -> enqueue_widths req ->
  0 <= Year (UTC (ow_now w)) <= 9999 -> ow_calls w' = [] ->
  Lookup o w' (q_MessageID req) db' = Ok (Some item).
Proof.
  intros H Hinv Hw Hy Hcalm. apply Enqueue_outcome in H. inversion H as [|? ? Hen|]; subst.
  destruct (enqueued_batch _ _ _ _ _ _ Hinv Hw Hen) as (_ & _ & _ & _ & _ & Hcount & _ & _).
  destruct Hen as [_ _ _ _ _ _ Hfresh Hit ->].
  unfold Lookup, run_query, query, tx_bind, call. rewrite Hcalm. cbn [outbox].
  rewrite find_snoc.
  - rewrite scan_item_row; [done|rewrite Hit..]; cbn; try done. destruct Hw. lia.
  - apply list.Forall_forall. intros r Hr. apply andb_false_iff. right. gobool.
    intros Heq. apply Hfresh, list_elem_of_fmap. by exists r.
  - rewrite Hit. cbn. by rewrite !bool_decide_true.
Qed.

(** ** Acknowledging *)

Lemma selected_unique g id rows : StronglySorted follows rows -> forall r1 r2 l,
  List.filter (selected g id) rows <> r1 :: r2 :: l.
Proof.
  intros Hs r1 r2 l E. assert (Hf := StronglySorted_filter _ (selected g id) _ Hs). rewrite E in Hf.
  inversion Hf as [|? ? _ HF]; subst. apply list.Forall_cons in HF as [(_ & Hne & _) _].
  assert (H1 : r1 ∈ List.filter (selected g id) rows) by (rewrite E; left).
  assert (H2 : r2 ∈ List.filter (selected g id) rows) by (rewrite E; right; left).
  apply list_elem_of_In, filter_In in H1 as [_ H1]. apply list_elem_of_In, filter_In in H2 as [_ H2].
  unfold selected in *. gobool. congruence.
Qed.

(** The rows selected by a message identifier: none, or one in its place. *)
Lemma selected_split g id rows : StronglySorted follows rows ->
  (List.filter (selected g id) rows = [] /\ List.filter (fun r => negb (selected g id r)) rows = rows)
  \/ exists l1 row l2, rows = l1 ++ row :: l2 /\ selected g id row = true
       /\ List.filter (selected g id) rows = [row]
       /\ List.filter (fun r => negb (selected g id r)) rows = l1 ++ l2.
Proof.
  intros Hs. induction Hs as [|row rows Hs IH Hf]; [by left|]. cbn [List.filter].
  destruct (selected g id row) eqn:E; cbn [negb].
  - right. exists [], row, rows. destruct IH as [[-> ->]|(l1 & r & l2 & _ & Hr & Hone & _)]; [done|].
    exfalso. apply (selected_unique g id (row :: rows) ltac:(by constructor) row r []). cbn [List.filter].
    by rewrite E, Hone.
  - destruct IH as [[-> ->]|(l1 & r & l2 & -> & Hr & -> & ->)]; [by left|].
    right. exists (row :: l1), r, l2. by split_and!.
Qed.

(** [DeletePending] under the bound Gateway's name reports [true]
    exactly when the commit removed the one pending row of that message and
    nothing else, and [false] exactly when there was no such row (already
    acknowledged, unknown or quarantined) and the file is unchanged; under
    another name, and on any error other than an unknown commit, the file is
    unchanged. *)
Theorem DeletePending_spec w g (id : uuid) db r db' : outbox_inv o db ->
  DeletePending o w g id db = (r, db') ->
  match r with
  | Ok true => g = gatewayID o /\ exists l1 row l2, outbox db = l1 ++ row :: l2
      /\ o_message_id row = uuid_String id /\ o_status row = outboxStatusPending
      /\ db' = set_outbox (l1 ++ l2) db
  | Ok false => g = gatewayID o /\ db' = db
      /\ Forall (fun row => o_message_id row = uuid_String id -> o_status row <> outboxStatusPending) (outbox db)
  | Err e => db' = db \/ (errors_Is ErrOutboxCommitUnknown e /\ exists w', DeletePending o w' g id db = (Ok true, db')
                                                                          \/ DeletePending o w' g id db = (Ok false, db'))
  end.
Proof.
  intros Hinv H.
  assert (Hno : List.filter (selected g (uuid_String id)) (outbox db) = [] -> g = gatewayID o ->
    Forall (fun row => o_message_id row = uuid_String id -> o_status row <> outboxStatusPending) (outbox db)).
  { intros Hnil ->. apply list.Forall_forall. intros row Hrow Hm Hp.
    assert (Hin : row ∈ List.filter (selected (gatewayID o) (uuid_String id)) (outbox db)).
    { apply list_elem_of_In, filter_In. split; [by apply list_elem_of_In|].
      assert (Hok := inv_rows _ _ Hinv). rewrite list.Forall_forall in Hok. destruct (Hok _ Hrow) as [[Hb _]].
      unfold selected, is_pending. by rewrite Hb, Hm, Hp, !bool_decide_true. }
    rewrite Hnil in Hin. by apply not_elem_of_nil in Hin. }
  apply DeletePending_outcome in H.
  destruct H as [e|b db' (Hg & Hdb & Hb)|e b db' He (Hg & Hdb & Hb)]; [by left| |].
  - destruct (selected_split g (uuid_String id) _ (inv_order _ _ Hinv))
      as [[Hnil Heq]|(l1 & row & l2 & Hrows & Hsel & Hone & Hrest)].
    + rewrite Hnil in Hb. cbn in Hb. subst b. split; [done|]. rewrite Hdb, Heq. split; [by destruct db|]. auto.
    + rewrite Hone in Hb. cbn in Hb. subst b. split; [done|]. exists l1, row, l2. rewrite Hdb, Hrest.
      unfold selected, is_pending in Hsel. gobool. by split_and!.
  - right. split; [done|]. exists (mkOutboxWeather Works [] CommitOk zero_time).
    unfold DeletePending. rewrite bool_decide_true by done. cbn [negb]. unfold run_tx, affected_body, tx_bind, query, call.
    cbn [ow_begin ow_calls ow_commit delete_pending_rows]. rewrite Hdb.
    destruct (0 <? _); [by left|by right].
Qed.

(** A second acknowledgement of the same message is a no-op. *)
Lemma DeletePending_idempotent w w' g (id : uuid) db b db' b' db'' : outbox_inv o db ->
  DeletePending o w g id db = (Ok b, db') -> DeletePending o w' g id db' = (Ok b', db'') ->
  b' = false /\ db'' = db'.
Proof.
  intros Hinv H1 H2. apply DeletePending_outcome, tx_outcome_ok in H1 as (Hg & -> & _).
  apply DeletePending_outcome, tx_outcome_ok in H2 as (_ & -> & ->). cbn [set_outbox outbox].
  assert (E : forall f (l : list OutboxRow), List.filter f (List.filter (fun r => negb (f r)) l) = []).
  { intros f l. induction l as [|x l IH]; cbn; [done|]. destruct (f x) eqn:E; cbn; [done|]. by rewrite E. }
  assert (E' : forall (f : OutboxRow -> bool) l, List.filter f (List.filter f l) = List.filter f l).
  { intros f l. induction l as [|x l IH]; cbn; [done|]. destruct (f x) eqn:Ex; cbn; [|done]. by rewrite Ex, IH. }
  rewrite E. split; [done|]. by rewrite E'.
Qed.

(** [Quarantine] refuses an empty, long or multi-line reason
    without touching the file; otherwise it changes at most the status and the
    reason of the one pending row of that message: every row keeps its place,
    identity, topic, bytes, size and sequence range, so the quota still counts
    it, and afterwards the message has no pending row. *)
Theorem Quarantine_spec w (id : uuid) reason db r db' : outbox_inv o db ->
  Quarantine o w id reason db = (r, db') ->
  outbox_seq db' = outbox_seq db /\ outbox_streams db' = outbox_streams db
  /\ Forall2 same_item (outbox db') (outbox db)
  /\ list_sum o_byte_size (outbox db') = list_sum o_byte_size (outbox db)
  /\ (db' <> db -> 1 <= str_len (TrimSpace reason) <= maxQuarantineReason)
  /\ (forall b, r = Ok b -> Forall (fun row => o_message_id row = uuid_String id -> is_pending row = false) (outbox db')).
Proof.
  intros Hinv H. assert (Hreason : db' <> db -> 1 <= str_len (TrimSpace reason) <= maxQuarantineReason).
  { unfold Quarantine in H. cbv zeta in H. destruct (_ || _ || _) eqn:E; [by injection H as _ <-|]. gobool.
    intros _. destruct (TrimSpace reason); [done|]. unfold str_len in *. cbn [String.length] in *. lia. }
  assert (Hsame : forall f (l : list OutboxRow), Forall2 same_item (map (mark f (TrimSpace reason)) l) l)
    by (intros f l; induction l; cbn; constructor; [apply mark_same|done]).
  assert (Hsum : forall l l', Forall2 same_item l l' -> list_sum o_byte_size l = list_sum o_byte_size l').
  { unfold list_sum. induction 1 as [|x y l l' Hxy _ IH]; cbn; [done|]. rewrite IH.
    by destruct Hxy as (_ & _ & _ & _ & _ & _ & _ & -> & _). }
  assert (Hrefl : Forall2 same_item (outbox db) (outbox db)) by (induction (outbox db); constructor; done).
  apply Quarantine_outcome in H.
  destruct H as [e|b db' (-> & _)|e b db' _ (-> & _)]; cbn [set_outbox outbox outbox_seq outbox_streams];
    split_and!; auto; try done.
  intros b' _. apply list.Forall_forall. intros row Hrow Hid.
  apply list_elem_of_fmap in Hrow as (row0 & -> & Hin). unfold mark in *.
  destruct (selected _ _ row0) eqn:E; [done|]. assert (Hok := inv_rows _ _ Hinv).
  rewrite list.Forall_forall in Hok. destruct (Hok _ Hin) as [[Hb _]].
  unfold selected in E. rewrite Hb, Hid, !bool_decide_true in E by done. exact E.
Qed.

(** ** Walking the pending rows page by page *)

(** The rows of the outbox the reads can decode. *)
Definition readable db (items : list (Item uuid)) : Prop := map_res scanOutboxItem (pending_of o db) = Ok items.

Lemma map_res_take {E A B} (f : A -> res E B) l ys n : map_res f l = Ok ys -> map_res f (take n l) = Ok (take n ys).
Proof.
  revert ys n. induction l as [|x l IH]; intros ys n H; cbn in H; inv_ok H; subst; [by destruct n|].
  destruct n as [|n]; [done|]. cbn. rewrite Heqr. cbn. by rewrite (IH _ n eq_refl).
Qed.

Lemma map_res_filter {E A B} (f : A -> res E B) (p : A -> bool) (q : B -> bool) l ys :
  (forall x y, f x = Ok y -> q y = p x) -> map_res f l = Ok ys ->
  map_res f (List.filter p l) = Ok (List.filter q ys).
Proof.
  intros Hpq. revert ys. induction l as [|x l IH]; intros ys H; cbn in H; inv_ok H; subst; [done|].
  cbn. rewrite (Hpq _ _ Heqr). destruct (p x); [|by apply IH]. cbn. rewrite Heqr. cbn. by rewrite (IH _ eq_refl).
Qed.

Lemma scan_id row (item : Item uuid) : scanOutboxItem row = Ok item -> ID item = o_id row.
Proof. unfold scanOutboxItem. intros H. inv_ok H. by subst. Qed.

(** A page: the first [limit] pending items past [afterID]. *)
Lemma PendingAfter_page w afterID limit db items : ow_calls w = [] -> readable db items ->
  1 <= limit <= maxRows o ->
  PendingAfter o w afterID limit db = Ok (take (Z.to_nat limit) (List.filter (fun i => afterID <? ID i) items)).
Proof.
  intros Hw Hr Hl. unfold PendingAfter.
  rewrite (proj2 (Z.leb_gt limit 0)), (proj2 (Z.ltb_ge (maxRows o) limit)) by lia. cbn [orb].
  unfold run_query, query, tx_bind, call, scan_rows. rewrite Hw.
  rewrite (map_res_take _ _ (List.filter (fun i => afterID <? ID i) items)); [done|].
  apply map_res_filter; [|exact Hr]. intros row item Hs. by rewrite (scan_id _ _ Hs).
Qed.

Definition no_item : Item uuid := mkItem 0 uuid_Nil "" "" uuid_Nil "" "" 0 0 0 "" zero_time.

(** The pages a caller sees that asks from the identifier of the last row it saw. *)
Fixpoint walk (fuel : nat) (afterID limit : Z) db : option (list (Item uuid)) :=
  match fuel with
  | O => None
  | S fuel' =>
      match PendingAfter o (mkOutboxWeather Works [] CommitOk zero_time) afterID limit db with
      | Ok [] => Some []
      | Ok page =>
          rest ← walk fuel' (ID (List.last page no_item)) limit db;
          Some (page ++ rest)
      | Err _ => None
      end
  end.

Lemma filter_past (items1 items2 : list (Item uuid)) item :
  StronglySorted (fun a b => ID a < ID b) (items1 ++ item :: items2) ->
  List.filter (fun i => ID item <? ID i) (items1 ++ item :: items2) = items2.
Proof.
  intros Hs. induction items1 as [|x items1 IH]; cbn [app List.filter] in *; inversion Hs as [|? ? Hs' HF]; subst.
  - rewrite Z.ltb_irrefl. clear -HF. induction HF as [|y l Hy _ IHl]; cbn; [done|].
    by rewrite (proj2 (Z.ltb_lt _ _) Hy), IHl.
  - rewrite list.Forall_forall in HF. specialize (HF item ltac:(apply elem_of_app; right; left)).
    destruct (Z.ltb_spec (ID item) (ID x)); [lia|]. by apply IH.
Qed.

Lemma walk_suffix limit db done_ items : readable db (done_ ++ items) -> 1 <= limit <= maxRows o ->
  StronglySorted (fun a b : Item uuid => ID a < ID b) (done_ ++ items) ->
  forall fuel afterID, (length items < fuel)%nat ->
  List.filter (fun i => afterID <? ID i) (done_ ++ items) = items -> walk fuel afterID limit db = Some items.
Proof.
  intros Hr Hl Hs fuel. revert done_ items Hr Hs. induction fuel as [|fuel IH]; intros done_ items Hr Hs afterID Hf Hpast; [lia|].
  cbn [walk]. rewrite (PendingAfter_page _ afterID limit db (done_ ++ items)), Hpast by done.
  destruct items as [|x items]; [by rewrite take_nil|].
  destruct (Z.to_nat limit) as [|n] eqn:En; [lia|].
  set (page := take (S n) (x :: items)). assert (Hp : exists init y, page = init ++ [y]).
  { destruct (exists_last (l := page)) as (init & y & E); [by subst page|]. eauto. }
  destruct Hp as (init & y & Hp). assert (Hcons : page = x :: take n items) by done.
  rewrite Hcons. rewrite <- Hcons. rewrite Hp, List.last_last. destruct (init ++ [y]) eqn:Ei; [congruence|].
  rewrite <- Ei in Hp |- *. clear Ei.
  assert (Hsplit : x :: items = page ++ drop (S n) (x :: items)) by (symmetry; apply take_drop).
  assert (Hall : done_ ++ x :: items = (done_ ++ page) ++ drop (S n) (x :: items))
    by (by rewrite <- (assoc_L (++)), <- Hsplit).
  rewrite (IH (done_ ++ page) (drop (S n) (x :: items))).
  - cbn. f_equal. rewrite <- Hp. symmetry. exact Hsplit.
  - by rewrite <- Hall.
  - by rewrite <- Hall.
  - rewrite length_drop. cbn [length] in *. lia.
  - rewrite Hp. rewrite Hall, Hp in Hs. rewrite !(assoc_L (++)), <- (assoc_L (++) (done_ ++ init)) in *. cbn [app] in *.
    by apply filter_past.
Qed.

(** C40 Walking the outbox with [PendingAfter], each time from the last
    identifier seen, visits every pending item exactly once in enqueue order,
    for any page size within the row quota, and ends: one page per item and one
    empty page are enough. *)
Theorem pages_complete limit db items : outbox_inv o db -> readable db items -> 1 <= limit <= maxRows o ->
  Forall (fun item : Item uuid => 0 < ID item) items ->
  walk (S (length items)) 0 limit db = Some items.
Proof.
  intros Hinv Hr Hl Hpos. apply (walk_suffix limit db [] items); try done; [|lia|].
  - assert (Hs := StronglySorted_filter _ (fun row => bool_decide (o_gateway_id row = gatewayID o) && is_pending row)
      _ (inv_order _ _ Hinv)).
    change (List.filter _ (outbox db)) with (pending_of o db) in Hs. unfold readable in Hr.
    clear -Hs Hr. revert items Hr. induction Hs as [|row rows _ IH HF]; intros items Hr; cbn in Hr; inv_ok Hr; subst; [constructor|].
    constructor; [by apply IH|]. apply list.Forall_forall. intros y Hy. apply list_elem_of_lookup in Hy as [i Hi].
    match goal with H : map_res _ _ = Ok _ |- _ => destruct (map_res_lookup _ _ _ _ _ H Hi) as (row' & Hrow' & Hscan') end.
    rewrite (scan_id _ _ Hscan'), (scan_id _ _ Heqr). by apply (Forall_lookup_1 _ _ _ _ HF Hrow').
  - clear -Hpos. cbn [app]. induction Hpos as [|x l Hx _ IH]; cbn; [done|]. destruct (Z.ltb_spec 0 (ID x)); [|lia].
    by rewrite IH.
Qed.
End queue.
