(* ===== verification/AckParse.v ===== *)
(** * Parsing a commit acknowledgement (gateway simulator)

    The strict parser of [gatewaysim/ack.go], and its agreement with the
    acknowledgements the server publishes. *)

From S2P Require Import Prelude GoStrings GoTime GoFloat GoJson Identity Uuid Telemetry Decode Validation.
From S2P Require Import Message Batch.
#[local] Open Scope Z_scope.

Definition ackProtocolVersion : Z := 1.
Definition ackMessageType : string := "telemetry_ack".
Definition ackStatusCommitted : string := "committed".
Definition maxACKBytes : Z := 1024.

Inductive ack_error := ErrACKOversize | ErrACKMalformed | ErrACKTopic.

#[export] Instance ack_error_eq_dec : EqDecision ack_error.
Proof. solve_decision. Defined.

Definition ackFieldNames : gset string :=
  list_to_set ["protocol_version"; "message_type"; "message_id"; "status"; "committed_at"].
#[global] Opaque ackFieldNames.

Definition decodeACKObject (payload : string) : option (gmap string json) := decode_object ackFieldNames payload.

Definition isACKNull (raw : json) : bool := match raw with JNull => true | _ => false end.

Definition decodeACKInt64 (raw : json) : option Z :=
  if isACKNull raw then None
  else match raw with JNum text => ParseInt10 text 64 | _ => None end.

Definition decodeACKString (raw : json) : option string :=
  if isACKNull raw then None
  else match raw with JStr value => Some value | _ => None end.

Section parse.
Context {uuid : Type} `{!UuidLib uuid}.

Definition parseOwnACKTopic (topic gatewayID : string) : res ack_error uuid :=
  match Split topic "/" with
  | [s0; s1; s2; s3] =>
      if negb (bool_decide (s0 = "gateways")) || negb (bool_decide (s2 = "acks"))
         || negb (bool_decide (s1 = gatewayID))
      then Err ErrACKTopic
      else match uuid_Parse s3 with
      | None => Err ErrACKTopic
      | Some id =>
          if bool_decide (id = uuid_Nil) || negb (bool_decide (uuid_String id = s3))
          then Err ErrACKTopic else Ok id
      end
  | _ => Err ErrACKTopic
  end.

Definition malformed (b : bool) : res ack_error unit := if b then Err ErrACKMalformed else Ok tt.

Definition ParseCommitACK (topic payload gatewayID : string) : res ack_error (CommitACK uuid) :=
  if maxACKBytes <? str_len payload then Err ErrACKOversize
  else
    let! topicID := parseOwnACKTopic topic gatewayID in
    let! fields := or_err ErrACKMalformed (decodeACKObject payload) in
    let! protocolVersion := or_err ErrACKMalformed (decodeACKInt64 (field fields "protocol_version")) in
    let! _ := malformed (negb (protocolVersion =? ackProtocolVersion)) in
    let! messageType := or_err ErrACKMalformed (decodeACKString (field fields "message_type")) in
    let! _ := malformed (negb (bool_decide (messageType = ackMessageType))) in
    let! status := or_err ErrACKMalformed (decodeACKString (field fields "status")) in
    let! _ := malformed (negb (bool_decide (status = ackStatusCommitted))) in
    let! messageIDRaw := or_err ErrACKMalformed (decodeACKString (field fields "message_id")) in
    let! messageID := or_err ErrACKMalformed (uuid_Parse messageIDRaw) in
    let! _ := malformed (bool_decide (messageID = uuid_Nil) || negb (uuid_Variant messageID =? RFC4122)
                || (negb (uuid_Version messageID =? 4) && negb (uuid_Version messageID =? 7))) in
    let! _ := malformed (negb (bool_decide (messageID = topicID))) in
    let! committedAtRaw := or_err ErrACKMalformed (decodeACKString (field fields "committed_at")) in
    let! committedAt := or_err ErrACKMalformed (Parse committedAtRaw) in
    let! _ := malformed (negb (has_suffix_char committedAtRaw "Z") || IsZero committedAt) in
    Ok (mkCommitACK ackProtocolVersion ackMessageType messageID ackStatusCommitted (UTC committedAt)).
End parse.

(** ** What an accepted acknowledgement is *)

Section facts.
Context {uuid : Type} `{!UuidLib uuid}.

Lemma malformed_ok b u : malformed b = Ok u -> b = false.
Proof. by destruct b. Qed.

Ltac inv_parse H :=
  inv_ok H;
  repeat match goal with
  | H : malformed _ = Ok _ |- _ => apply malformed_ok in H
  | H : or_err _ ?o = Ok _ |- _ => destruct o eqn:?; [injection H as H|discriminate H]
  end; subst; gobool; subst.

Lemma parseOwnACKTopic_ok topic gatewayID (id : uuid) : parseOwnACKTopic topic gatewayID = Ok id ->
  topic = ack_topic gatewayID id /\ id <> uuid_Nil.
Proof.
  unfold parseOwnACKTopic. intros H. assert (HJ := Join_Split topic "/"%char).
  destruct (Split topic "/"%char) as [|s0 [|s1 [|s2 [|s3 [|? ?]]]]]; try discriminate H.
  inv_ok H. gobool. subst. split; [|done]. unfold ack_topic. cbn [Join]. reflexivity.
Qed.

Lemma parseOwnACKTopic_topic `{!UuidLaws uuid} gatewayID (id : uuid) : ValidateGatewayID gatewayID = None ->
  id <> uuid_Nil -> parseOwnACKTopic (ack_topic gatewayID id) gatewayID = Ok id.
Proof.
  intros Hg Hid. unfold parseOwnACKTopic.
  replace (ack_topic gatewayID id) with (Join ["gateways"; gatewayID; "acks"; uuid_String id] "/") by done.
  cbn [Join]. rewrite (Split_cons_sep "gateways") by done.
  rewrite Split_cons_sep by (apply pattern_no_sep; [done|by apply valid_gateway_pattern]).
  rewrite (Split_cons_sep "acks") by done. rewrite Split_no_sep.
  2:{ apply (str_forallb_impl uuid_char); [|apply uuid_String_chars].
      intros c. by destruct c as [[] [] [] [] [] [] [] []]. }
  rewrite !bool_decide_true by done. cbn [negb orb]. rewrite uuid_Parse_String.
  by rewrite (bool_decide_false (id = uuid_Nil)), (bool_decide_true (uuid_String id = _)).
Qed.

Lemma ParseCommitACK_topic topic payload gatewayID (ack : CommitACK uuid) :
  ParseCommitACK topic payload gatewayID = Ok ack -> topic = ack_topic gatewayID (a_MessageID ack).
Proof.
  unfold ParseCommitACK. intros H. inv_parse H.
  match goal with H : parseOwnACKTopic _ _ = Ok _ |- _ => by apply parseOwnACKTopic_ok in H as [Ht _] end.
Qed.

(** An accepted acknowledgement is small, arrives on the bound
    Gateway's own topic for exactly the message it names, is one strict JSON
    object with the five known members and nothing else, says version 1,
    [telemetry_ack] and [committed], and carries a version 4 or 7 identifier
    and a UTC commit time. *)
Theorem ParseCommitACK_sound topic payload gatewayID (ack : CommitACK uuid) :
  ParseCommitACK topic payload gatewayID = Ok ack ->
  str_len payload <= maxACKBytes /\ topic = ack_topic gatewayID (a_MessageID ack)
  /\ message_id_ok (a_MessageID ack)
  /\ a_ProtocolVersion ack = 1 /\ a_MessageType ack = "telemetry_ack" /\ a_Status ack = "committed"
  /\ loc_off (a_CommittedAt ack) = 0
  /\ exists members text, json_parse (S max_nesting) payload = Some (JObj members) /\ NoDup members.*1
       /\ dom (list_to_map members : gmap string json) = ackFieldNames
       /\ field (list_to_map members) "status" = JStr "committed"
       /\ field (list_to_map members) "committed_at" = JStr text /\ has_suffix_char text "Z" = true.
Proof.
  unfold ParseCommitACK. intros H. inv_parse H.
  match goal with H : parseOwnACKTopic _ _ = Ok _ |- _ => apply parseOwnACKTopic_ok in H as [Ht Hn] end.
  match goal with H : decodeACKObject _ = Some _ |- _ =>
    apply decode_object_some in H as (ms & Hj & Hnd & -> & Hdom) end.
  cbn [a_MessageID a_ProtocolVersion a_MessageType a_Status a_CommittedAt].
  assert (Hs : forall raw v, decodeACKString raw = Some v -> raw = JStr v).
  { intros raw v. unfold decodeACKString. destruct raw; cbn [isACKNull]; congruence. }
  split; [lia|]. split; [done|]. split; [unfold message_id_ok; tauto|]. split_and!; try done.
  eexists ms, _. split_and!; [exact Hj|exact Hnd|exact Hdom| | |]; [by apply Hs..|done].
Qed.
End facts.

(** ** The server's acknowledgements are accepted *)

Section roundtrip.
Context {uuid : Type} `{!UuidLib uuid} `{!UuidLaws uuid}.

Lemma FormatRFC3339Nano_plain t : str_forallb html_safe (FormatRFC3339Nano t) = true.
Proof.
  unfold FormatRFC3339Nano, format_seconds. destruct (civil_from_days _) as [[y m] d].
  assert (Hfrac : str_forallb html_safe (format_frac (Nanosec t) +:+ "Z") = true).
  { rewrite str_forallb_app, andb_true_r. unfold format_frac. destruct (_ =? 0); [done|].
    cbn [str_forallb]. apply andb_true_iff. split; [done|].
    destruct (trim_zeros_spec (fixed_digits 9 (Nanosec t) "")) as [k Hk].
    assert (Hd : str_forallb is_digit (fixed_digits 9 (Nanosec t) "") = true) by by apply fixed_digits_forallb.
    rewrite Hk, str_forallb_app in Hd. apply andb_true_iff in Hd as [Hd _]. by apply digits_plain. }
  repeat (apply fixed_digits_plain; cbn [str_forallb]; rewrite ?andb_true_iff; repeat split). exact Hfrac.
Qed.

Lemma list_ascii_app s1 s2 : String.list_ascii_of_string (s1 +:+ s2)
  = String.list_ascii_of_string s1 ++ String.list_ascii_of_string s2.
Proof. induction s1 as [|c s1 IH]; [done|]. rewrite str_app_cons. cbn. by rewrite IH. Qed.

Lemma has_suffix_snoc s c : has_suffix_char (s +:+ String c "") c = true.
Proof.
  unfold has_suffix_char. rewrite list_ascii_app. cbn [String.list_ascii_of_string].
  rewrite list.last_snoc. by rewrite bool_decide_true.
Qed.

Definition ends_Z (s : string) : Prop := exists r, s = r +:+ "Z".

Lemma ends_Z_cons c s : ends_Z s -> ends_Z (String c s).
Proof. intros [r ->]. by exists (String c r). Qed.

Lemma ends_Z_digits w n s : ends_Z s -> ends_Z (fixed_digits w n s).
Proof. intros [r ->]. exists (fixed_digits w n r). by rewrite fixed_digits_last, (fixed_digits_last w n r), str_app_assoc. Qed.

Lemma FormatRFC3339Nano_ends t : ends_Z (FormatRFC3339Nano t).
Proof.
  unfold FormatRFC3339Nano, format_seconds. destruct (civil_from_days _) as [[y m] d].
  repeat (apply ends_Z_digits || apply ends_Z_cons). by eexists.
Qed.

Lemma str_len_FormatRFC3339Nano t : str_len (FormatRFC3339Nano t) <= 30.
Proof.
  unfold FormatRFC3339Nano, format_seconds. destruct (civil_from_days _) as [[y m] d].
  assert (str_len (format_frac (Nanosec t)) <= 10).
  { unfold format_frac. destruct (_ =? 0); [done|]. rewrite str_len_cons.
    destruct (trim_zeros_spec (fixed_digits 9 (Nanosec t) "")) as [k Hk].
    apply (f_equal str_len) in Hk. rewrite str_len_app in Hk. unfold str_len at 1 in Hk.
    rewrite fixed_digits_length in Hk. cbn [String.length] in Hk. unfold str_len in *. lia. }
  unfold str_len in *. repeat (rewrite fixed_digits_length; cbn [String.length]). rewrite str_length_app.
  cbn [String.length]. lia.
Qed.

Definition ack_members (ack : CommitACK uuid) : list (string * json) :=
  [("protocol_version", JNum (FormatInt (a_ProtocolVersion ack)));
   ("message_type", JStr (a_MessageType ack));
   ("message_id", JStr (uuid_String (a_MessageID ack)));
   ("status", JStr (a_Status ack));
   ("committed_at", JStr (FormatRFC3339Nano (a_CommittedAt ack)))].

Lemma json_parse_ack ack payload : marshalACK ack = Some payload -> in_int64 (a_ProtocolVersion ack) ->
  str_forallb html_safe (a_MessageType ack) = true -> str_forallb html_safe (a_Status ack) = true ->
  decodeACKObject payload = Some (list_to_map (ack_members ack)).
Proof.
  unfold marshalACK. intros H Hp Ht Hs. destruct (_ && _); [|done]. injection H as <-.
  apply decode_object_complete.
  - apply (json_parse_encodes 1); [pose proof max_nesting_ge; lia|]. apply encodes_object; [|done].
    assert (encodes 0 (JNum (FormatInt (a_ProtocolVersion ack))) (FormatInt (a_ProtocolVersion ack)))
      by by apply encodes_number, number_text_FormatInt.
    repeat (constructor; [apply encodes_member_intro; [reflexivity|];
      first [assumption | apply encodes_string; first [assumption | apply uuid_plain | apply FormatRFC3339Nano_plain]]|]).
    constructor.
  - cbn [ack_members fmap list_fmap fst]. by apply (bool_decide_unpack _); vm_compute.
  - rewrite dom_list_to_map_L. reflexivity.
Qed.

Lemma str_len_ack ack payload : marshalACK ack = Some payload ->
  str_len (a_MessageType ack) <= 64 -> str_len (a_Status ack) <= 64 ->
  str_forallb html_safe (a_MessageType ack) = true -> str_forallb html_safe (a_Status ack) = true ->
  str_len payload <= maxACKBytes.
Proof.
  unfold marshalACK. intros H Hlt Hls Ht Hs. destruct (_ && _); [|done]. injection H as <-.
  unfold json_object. rewrite !str_len_app. cbn [Join]. repeat (rewrite ?str_len_app, ?str_len_cons).
  rewrite !str_len_field by done.
  rewrite !str_len_quote by first [assumption | apply uuid_plain | apply FormatRFC3339Nano_plain].
  pose proof (str_len_FormatInt (a_ProtocolVersion ack)). pose proof (str_len_FormatRFC3339Nano (a_CommittedAt ack)).
  assert (str_len (uuid_String (a_MessageID ack)) = 36) as -> by (unfold str_len; by rewrite uuid_String_length).
  unfold maxACKBytes. literal_lengths. lia.
Qed.

(** A committed acknowledgement as the server marshals it parses back. *)
Lemma ParseCommitACK_marshal gatewayID (id : uuid) at_ payload : ValidateGatewayID gatewayID = None ->
  message_id_ok id -> loc_off at_ = 0 -> IsZero at_ = false ->
  marshalACK (mkCommitACK 1 "telemetry_ack" id "committed" at_) = Some payload ->
  ParseCommitACK (ack_topic gatewayID id) payload gatewayID
    = Ok (mkCommitACK 1 "telemetry_ack" id "committed" at_).
Proof.
  intros Hg (Hn & Hv & Hr) Hoff Hz Hm. set (ack := mkCommitACK 1 _ id _ at_) in *. unfold ParseCommitACK.
  assert (Hlen : str_len payload <= maxACKBytes) by by apply (str_len_ack ack); try apply Z.leb_le.
  rewrite (proj2 (Z.ltb_ge _ _) Hlen).
  rewrite parseOwnACKTopic_topic by done. cbn [mbind res_bind].
  assert (H1 : in_int64 (a_ProtocolVersion ack)) by (split; by apply Z.leb_le).
  rewrite (json_parse_ack ack payload Hm H1 eq_refl eq_refl). cbn [or_err mbind res_bind]. unfold ack_members.
  repeat first [rewrite field_eq | rewrite field_ne by done].
  unfold decodeACKInt64, decodeACKString. cbn [isACKNull ack a_ProtocolVersion a_MessageType a_MessageID a_Status
    a_CommittedAt or_err mbind res_bind].
  change (ParseInt10 (FormatInt 1) 64) with (Some 1). cbn [or_err mbind res_bind].
  change (malformed (negb (1 =? ackProtocolVersion))) with (@Ok ack_error unit tt). cbn [mbind res_bind].
  rewrite !bool_decide_true by done. cbn [negb malformed mbind res_bind]. rewrite uuid_Parse_String.
  cbn [or_err mbind res_bind]. rewrite (bool_decide_false (id = uuid_Nil)), (bool_decide_true (id = id)), Hr by done. cbn [orb].
  assert (negb (uuid_Version id =? 4) && negb (uuid_Version id =? 7) = false) as ->
    by (destruct Hv as [-> | ->]; done).
  change (negb (RFC4122 =? RFC4122)) with false. cbn [orb malformed mbind res_bind].
  rewrite Parse_FormatRFC3339Nano.
  - cbn [or_err mbind res_bind]. destruct (FormatRFC3339Nano_ends at_) as [r Hr']. rewrite Hr', has_suffix_snoc, Hz.
    cbn [negb orb malformed mbind res_bind]. unfold ack, UTC. destruct at_ as [n off]. cbn in Hoff. by subst off.
  - done.
  - unfold marshalACK in Hm. cbn [ack a_CommittedAt] in Hm. destruct (_ && _) eqn:E; [|done]. gobool. lia.
Qed.

(** Every acknowledgement the server builds and serializes is accepted
    by the Gateway it is addressed to, and names the same message and commit
    time. *)
Theorem server_ack_accepted gatewayID (id : uuid) outcome confirmedAt topic ack payload :
  NewCommitACK gatewayID id outcome confirmedAt = Ok (topic, ack) -> marshalACK ack = Some payload ->
  ParseCommitACK topic payload gatewayID = Ok ack
  /\ outcome <> CommitOutcomeUnconfirmed /\ a_MessageID ack = id /\ a_CommittedAt ack = UTC confirmedAt.
Proof.
  unfold NewCommitACK. intros H Hm.
  repeat (match type of H with (if ?b then _ else _) = _ => destruct b eqn:?; [discriminate H|] end).
  injection H as <- <-.
  assert (Hg : ValidateGatewayID gatewayID = None).
  { match goal with H : bool_decide (_ <> None) = false |- _ => apply bool_decide_eq_false in H end. by apply dec_stable. }
  split; [|split_and!; [|done|done]].
  - apply ParseCommitACK_marshal; [done| |done| |done].
    + gobool. unfold message_id_ok. split; [done|]. split; [|done]. naive_solver.
    + done.
  - intros ->. done.
Qed.
End roundtrip.
