(* ===== verification/AckProcessor.v ===== *)
(** * The acknowledgement worker (gateway simulator)

    [gatewaysim/ack.go]: the bounded admission queue that the broker callback
    fills and the one worker that deletes acknowledged rows.  The callback and
    the worker interleave; their steps are the atomic actions of the system. *)

From S2P Require Import Prelude GoStrings GoTime GoJson Uuid Identity Telemetry Message Txn Batch Outbox.
From S2P Require Import OutboxSpec OutboxQueue AckParse.
#[local] Open Scope Z_scope.

Definition minACKAdmissionCapacity : Z := 1.
Definition maxACKAdmissionCapacity : Z := 4096.

Record ackAdmission := mkAdmission { adm_topic : string; adm_payload : string }.

Record ACKStats := mkACKStats {
  AdmittedCount : Z;
  Acknowledged : Z;
  DroppedRetained : Z;
  DroppedOversize : Z;
  DroppedFull : Z;
  DeleteFailed : Z;
}.

(** [finished] and [fatalErr] as the worker leaves them; [notify] is the
    one-place wake channel; [recorded] lists the acknowledgements an optional
    latency recorder was told of. *)
Record ACKProcessor (uuid : Type) := mkACKProcessor {
  p_gatewayID : string;
  p_capacity : Z;
  p_admissions : list ackAdmission;
  p_notify : bool;
  p_done : bool;
  p_started : bool;
  p_finished : bool;
  p_fatalErr : option error;
  p_fatalClosed : bool;
  p_stats : ACKStats;
  p_latency : option (list uuid);
}.
Arguments mkACKProcessor {uuid}.
Arguments p_gatewayID {uuid}.
Arguments p_capacity {uuid}.
Arguments p_admissions {uuid}.
Arguments p_notify {uuid}.
Arguments p_done {uuid}.
Arguments p_started {uuid}.
Arguments p_finished {uuid}.
Arguments p_fatalErr {uuid}.
Arguments p_fatalClosed {uuid}.
Arguments p_stats {uuid}.
Arguments p_latency {uuid}.

Definition zero_stats : ACKStats := mkACKStats 0 0 0 0 0 0.

Section processor.
Context {uuid : Type} `{!UuidLib uuid}.
Implicit Types p : ACKProcessor uuid.

(** [None] is a nil outbox; the option is the latency recorder. *)
Definition NewACKProcessor (o : option Outbox) (admissionCapacity : Z) (latency : bool)
    : res error (ACKProcessor uuid) :=
  match o with
  | None => Err (sim_error "ACK processor requires an outbox")
  | Some o =>
      if (admissionCapacity <? minACKAdmissionCapacity) || (maxACKAdmissionCapacity <? admissionCapacity)
      then Err (sim_error "ACK admission capacity out of bounds")
      else Ok (mkACKProcessor (gatewayID o) admissionCapacity [] false false false false None false zero_stats
                 (if latency then Some [] else None))
  end.

Definition with_admissions (l : list ackAdmission) p : ACKProcessor uuid :=
  mkACKProcessor (p_gatewayID p) (p_capacity p) l (p_notify p) (p_done p) (p_started p) (p_finished p)
    (p_fatalErr p) (p_fatalClosed p) (p_stats p) (p_latency p).

Definition with_stats (s : ACKStats) p : ACKProcessor uuid :=
  mkACKProcessor (p_gatewayID p) (p_capacity p) (p_admissions p) (p_notify p) (p_done p) (p_started p)
    (p_finished p) (p_fatalErr p) (p_fatalClosed p) s (p_latency p).

Definition with_control (done_ started finished : bool) p : ACKProcessor uuid :=
  mkACKProcessor (p_gatewayID p) (p_capacity p) (p_admissions p) (p_notify p) done_ started finished
    (p_fatalErr p) (p_fatalClosed p) (p_stats p) (p_latency p).

Definition add_admitted (s : ACKStats) : ACKStats :=
  mkACKStats (AdmittedCount s + 1) (Acknowledged s) (DroppedRetained s) (DroppedOversize s) (DroppedFull s) (DeleteFailed s).
Definition add_acknowledged (s : ACKStats) : ACKStats :=
  mkACKStats (AdmittedCount s) (Acknowledged s + 1) (DroppedRetained s) (DroppedOversize s) (DroppedFull s) (DeleteFailed s).
Definition add_retained (s : ACKStats) : ACKStats :=
  mkACKStats (AdmittedCount s) (Acknowledged s) (DroppedRetained s + 1) (DroppedOversize s) (DroppedFull s) (DeleteFailed s).
Definition add_oversize (s : ACKStats) : ACKStats :=
  mkACKStats (AdmittedCount s) (Acknowledged s) (DroppedRetained s) (DroppedOversize s + 1) (DroppedFull s) (DeleteFailed s).
Definition add_full (s : ACKStats) : ACKStats :=
  mkACKStats (AdmittedCount s) (Acknowledged s) (DroppedRetained s) (DroppedOversize s) (DroppedFull s + 1) (DeleteFailed s).
Definition add_failed (s : ACKStats) : ACKStats :=
  mkACKStats (AdmittedCount s) (Acknowledged s) (DroppedRetained s) (DroppedOversize s) (DroppedFull s) (DeleteFailed s + 1).

Definition Start p : ACKProcessor uuid :=
  if p_started p then p else with_control (p_done p) true (p_finished p) p.

(** The broker callback: it never blocks and never looks at the JSON. *)
Definition Admit (topic payload : string) (retained : bool) p : ACKProcessor uuid :=
  if retained then with_stats (add_retained (p_stats p)) p
  else if maxACKBytes <? str_len payload then with_stats (add_oversize (p_stats p)) p
  else
    let admission := mkAdmission topic payload in
    if Z.of_nat (length (p_admissions p)) <? p_capacity p
    then with_stats (add_admitted (p_stats p)) (with_admissions (p_admissions p ++ [admission]) p)
    else with_stats (add_full (p_stats p)) p.

Definition Stats p : ACKStats := p_stats p.
Definition Fatal p : option error := p_fatalErr p.

(** [Stop]: the stop signal; the caller then waits for [finished]. *)
Definition Stop p : ACKProcessor uuid := with_control true (p_started p) (p_finished p) p.

Definition signalScheduler p : ACKProcessor uuid :=
  mkACKProcessor (p_gatewayID p) (p_capacity p) (p_admissions p) true (p_done p) (p_started p) (p_finished p)
    (p_fatalErr p) (p_fatalClosed p) (p_stats p) (p_latency p).

Definition RecordAckDeleted (id : uuid) p : ACKProcessor uuid :=
  mkACKProcessor (p_gatewayID p) (p_capacity p) (p_admissions p) (p_notify p) (p_done p) (p_started p) (p_finished p)
    (p_fatalErr p) (p_fatalClosed p) (p_stats p) (option_map (fun l => l ++ [id]) (p_latency p)).

Definition setFatal (err : error) p : ACKProcessor uuid :=
  mkACKProcessor (p_gatewayID p) (p_capacity p) (p_admissions p) (p_notify p) (p_done p) (p_started p) (p_finished p)
    (match p_fatalErr p with None => Some err | Some e => Some e end) true (p_stats p) (p_latency p).

(** [None] is a nil error. *)
Definition handleAdmission (w : OutboxWeather) (o : Outbox) (admission : ackAdmission) p (db : OutboxDB)
    : option error * ACKProcessor uuid * OutboxDB :=
  match ParseCommitACK (adm_topic admission) (adm_payload admission) (p_gatewayID p) with
  | Err _ => (None, p, db)
  | Ok ack =>
      match DeletePending o w (p_gatewayID p) (a_MessageID ack) db with
      | (Err err, db') =>
          (Some (EWrap "ACK delete did not commit" err), with_stats (add_failed (p_stats p)) p, db')
      | (Ok false, db') => (None, p, db')
      | (Ok true, db') =>
          (None, signalScheduler (RecordAckDeleted (a_MessageID ack) (with_stats (add_acknowledged (p_stats p)) p)), db')
      end
  end.

(** ** The system *)

Record AckSystem := mkAckSystem { as_proc : ACKProcessor uuid; as_db : OutboxDB }.

(** The scheduler enqueues into the same file meanwhile ([step_enqueue]).
    [run] is at its [select]: it takes the oldest admission, or sees [done]
    when the stop signal is closed; both may be ready. *)
Definition running p : Prop := p_started p = true /\ p_finished p = false.

Definition run_item (w : OutboxWeather) (o : Outbox) (admission : ackAdmission) (rest : list ackAdmission)
    (y : AckSystem) : AckSystem :=
  match handleAdmission w o admission (with_admissions rest (as_proc y)) (as_db y) with
  | (None, p, db) => mkAckSystem p db
  | (Some err, p, db) =>
      mkAckSystem (with_control (p_done p) (p_started p) true (setFatal err p)) db
  end.

Inductive ack_step (o : Outbox) : AckSystem -> AckSystem -> Prop :=
| step_start p db : ack_step o (mkAckSystem p db) (mkAckSystem (Start p) db)
| step_admit topic payload retained p db :
    ack_step o (mkAckSystem p db) (mkAckSystem (Admit topic payload retained p) db)
| step_stop p db : ack_step o (mkAckSystem p db) (mkAckSystem (Stop p) db)
| step_drain p db : ack_step o (mkAckSystem p db)
    (mkAckSystem (mkACKProcessor (p_gatewayID p) (p_capacity p) (p_admissions p) false (p_done p) (p_started p)
                    (p_finished p) (p_fatalErr p) (p_fatalClosed p) (p_stats p) (p_latency p)) db)
| step_exit p db : running p -> p_done p = true ->
    ack_step o (mkAckSystem p db) (mkAckSystem (with_control (p_done p) (p_started p) true p) db)
| step_item w admission rest p db : running p -> p_admissions p = admission :: rest ->
    ack_step o (mkAckSystem p db) (run_item w o admission rest (mkAckSystem p db))
| step_enqueue w req p db : enqueue_widths req ->
    ack_step o (mkAckSystem p db) (mkAckSystem p (Enqueue o w req db).2).

(** The systems reachable from a new processor on an open outbox. *)
Inductive ack_reachable (o : Outbox) (capacity : Z) (latency : bool) (db0 : OutboxDB) : AckSystem -> Prop :=
| ack_init p : NewACKProcessor (Some o) capacity latency = Ok p ->
    ack_reachable o capacity latency db0 (mkAckSystem p db0)
| ack_next y y' : ack_reachable o capacity latency db0 y -> ack_step o y y' ->
    ack_reachable o capacity latency db0 y'.
End processor.
Arguments AckSystem : clear implicits.

(** * Every removed row was acknowledged, and every acknowledgement is counted once

    Invariants of the acknowledgement worker beside the outbox it empties. *)

Section spec.
Context {uuid : Type} `{!UuidLib uuid} `{!UuidLaws uuid}.
Variable o : Outbox.
Implicit Types (p : ACKProcessor uuid) (db : OutboxDB).

(** Rows ever added (the rowids are dense) less the rows still there. *)
Definition removed db0 db : Z :=
  (Z.of_nat (length (outbox db0)) + (outbox_seq db - outbox_seq db0)) - Z.of_nat (length (outbox db)).

Record ack_inv (capacity : Z) db0 (y : AckSystem uuid) : Prop := {
  ai_gateway : p_gatewayID (as_proc y) = gatewayID o;
  ai_capacity : p_capacity (as_proc y) = capacity;
  ai_queue : Z.of_nat (length (p_admissions (as_proc y))) <= capacity;
  ai_nonneg : 0 <= Acknowledged (p_stats (as_proc y)) /\ 0 <= DeleteFailed (p_stats (as_proc y));
  ai_admitted : Acknowledged (p_stats (as_proc y)) + DeleteFailed (p_stats (as_proc y))
                + Z.of_nat (length (p_admissions (as_proc y))) <= AdmittedCount (p_stats (as_proc y));
  ai_removed : Acknowledged (p_stats (as_proc y)) <= removed db0 (as_db y)
               <= Acknowledged (p_stats (as_proc y)) + DeleteFailed (p_stats (as_proc y));
  ai_fatal : match p_fatalErr (as_proc y) with
             | None => DeleteFailed (p_stats (as_proc y)) = 0 /\ p_fatalClosed (as_proc y) = false
             | Some _ => DeleteFailed (p_stats (as_proc y)) = 1 /\ p_fatalClosed (as_proc y) = true
                         /\ p_finished (as_proc y) = true
             end;
  ai_latency : forall l, p_latency (as_proc y) = Some l ->
               Z.of_nat (length l) = Acknowledged (p_stats (as_proc y));
  ai_outbox : outbox_inv o (as_db y);
}.

Lemma NewACKProcessor_ok capacity latency p db0 : outbox_inv o db0 ->
  NewACKProcessor (Some o) capacity latency = Ok p -> ack_inv capacity db0 (mkAckSystem p db0).
Proof.
  unfold NewACKProcessor. intros Hinv H. destruct (_ || _) eqn:E; [done|]. injection H as <-. gobool.
  unfold minACKAdmissionCapacity in *. constructor; cbn; try done; try lia.
  - unfold removed. lia.
  - destruct latency; [|done]. by intros l [= <-].
Qed.

Lemma Enqueue_removed w req db0 db : outbox_inv o db -> enqueue_widths req ->
  removed db0 (Enqueue o w req db).2 = removed db0 db /\ outbox_inv o (Enqueue o w req db).2.
Proof.
  intros Hinv Hw. destruct (Enqueue o w req db) as [r db'] eqn:E. apply Enqueue_outcome in E. cbn.
  assert (H : forall item db'', enqueued o (ow_now w) req db item db'' ->
    removed db0 db'' = removed db0 db /\ outbox_inv o db'').
  { intros item db'' Hen. split; [|by eapply enqueued_inv]. destruct Hen as [_ _ _ _ _ _ _ _ ->].
    unfold removed. cbn [outbox outbox_seq]. rewrite length_app. cbn [length]. lia. }
  destruct E; [done|by eapply H..].
Qed.

(** What one admission does to the processor and the file. *)
Inductive handled (admission : ackAdmission) p db : option error * ACKProcessor uuid * OutboxDB -> Prop :=
| handled_ignored : handled admission p db (None, p, db)
| handled_deleted (ack : CommitACK uuid) l1 row l2 :
    ParseCommitACK (adm_topic admission) (adm_payload admission) (gatewayID o) = Ok ack ->
    outbox db = l1 ++ row :: l2 -> o_message_id row = uuid_String (a_MessageID ack) ->
    o_status row = outboxStatusPending ->
    handled admission p db
      (None, signalScheduler (RecordAckDeleted (a_MessageID ack) (with_stats (add_acknowledged (p_stats p)) p)),
       set_outbox (l1 ++ l2) db)
| handled_unknown (ack : CommitACK uuid) err db' :
    ParseCommitACK (adm_topic admission) (adm_payload admission) (gatewayID o) = Ok ack ->
    db' = db \/ (exists l1 row l2, outbox db = l1 ++ row :: l2 /\ o_message_id row = uuid_String (a_MessageID ack)
                   /\ o_status row = outboxStatusPending /\ db' = set_outbox (l1 ++ l2) db) ->
    handled admission p db (Some err, with_stats (add_failed (p_stats p)) p, db').

Lemma handleAdmission_handled w admission p db : p_gatewayID p = gatewayID o -> outbox_inv o db ->
  handled admission p db (handleAdmission w o admission p db).
Proof.
  intros Hg Hinv. unfold handleAdmission. rewrite Hg.
  destruct (ParseCommitACK _ _ _) as [ack|e] eqn:Hp; [|constructor].
  destruct (DeletePending o w (gatewayID o) (a_MessageID ack) db) as [r db'] eqn:Hd.
  apply DeletePending_outcome in Hd.
  assert (Hsplit := selected_split (gatewayID o) (uuid_String (a_MessageID ack)) _ (inv_order _ _ Hinv)).
  assert (Hrow : forall l1 row l2, selected (gatewayID o) (uuid_String (a_MessageID ack)) row = true ->
    outbox db = l1 ++ row :: l2 -> o_message_id row = uuid_String (a_MessageID ack) /\ o_status row = outboxStatusPending).
  { intros l1 row l2 Hs _. unfold selected, is_pending in Hs. by gobool. }
  destruct Hd as [e|b db' (_ & Hdb & Hb)|e b db' _ (_ & Hdb & Hb)].
  - eapply handled_unknown; [done|by left].
  - destruct Hsplit as [[Hnil Heq]|(l1 & row & l2 & Hrows & Hsel & Hone & Hrest)].
    + rewrite Hnil in Hb. cbn in Hb. subst b. rewrite Heq in Hdb.
      replace db' with db by (subst db'; by destruct db). constructor.
    + rewrite Hone in Hb. cbn in Hb. subst b. destruct (Hrow _ _ _ Hsel Hrows) as [Hm Hst].
      rewrite Hdb, Hrest. by eapply handled_deleted.
  - eapply handled_unknown; [done|].
    destruct Hsplit as [[Hnil Heq]|(l1 & row & l2 & Hrows & Hsel & Hone & Hrest)].
    + left. subst db'. rewrite Heq. by destruct db.
    + right. exists l1, row, l2. destruct (Hrow _ _ _ Hsel Hrows) as [Hm Hst]. by rewrite Hdb, Hrest.
Qed.

Lemma removed_one db0 db l1 row l2 : outbox db = l1 ++ row :: l2 ->
  removed db0 (set_outbox (l1 ++ l2) db) = removed db0 db + 1.
Proof. intros E. unfold removed. cbn [set_outbox outbox outbox_seq]. rewrite E, !length_app. cbn [length]. lia. Qed.

Lemma removed_row_inv db l1 row l2 : outbox_inv o db -> outbox db = l1 ++ row :: l2 ->
  outbox_inv o (set_outbox (l1 ++ l2) db).
Proof.
  intros Hinv E. replace (l1 ++ l2) with (List.filter (fun r => negb (bool_decide (o_id r = o_id row))) (outbox db)).
  { by apply filtered_inv. }
  pose proof (inv_order _ _ Hinv) as Hs. rewrite E in *. clear E Hinv. induction l1 as [|x l1 IH]; cbn [app List.filter].
  - rewrite bool_decide_true by done. cbn. inversion Hs as [|? ? _ HF]; subst.
    induction HF as [|y l (Hid & _) _ IH]; cbn; [done|]. rewrite bool_decide_false by lia. cbn. f_equal. apply IH.
    inversion Hs as [|? ? Hs' HF']; subst. inversion Hs'; subst. inversion HF'; subst. by constructor.
  - inversion Hs as [|? ? Hs' HF]; subst. rewrite list.Forall_forall in HF.
    destruct (HF row) as (Hid & _); [apply elem_of_app; right; left|].
    rewrite bool_decide_false by lia. cbn. f_equal. by apply IH.
Qed.

Lemma ack_step_inv capacity db0 y y' : ack_inv capacity db0 y -> ack_step o y y' -> ack_inv capacity db0 y'.
Proof.
  intros [Hg Hc Hq Hn Ha Hr Hf Hl Ho] Hs.
  destruct Hs as [p db|topic payload retained p db|p db|p db|p db Hrun Hdone|w admission rest p db Hrun Hadm|w req p db Hw];
    cbn [as_proc as_db] in *.
  - unfold Start. destruct (p_started p); by constructor.
  - unfold Admit. destruct retained; [by constructor|]. destruct (_ <? str_len _); [by constructor|].
    destruct (Z.ltb_spec (Z.of_nat (length (p_admissions p))) (p_capacity p)); [|by constructor].
    constructor; cbn; try done; rewrite ?length_app; cbn [length]; lia.
  - by constructor.
  - by constructor.
  - constructor; cbn; try done. by destruct (p_fatalErr p); destruct_and?.
  - unfold run_item. cbn [as_proc as_db].
    assert (Hnf : p_fatalErr p = None).
    { destruct Hrun as [_ Hfin]. destruct (p_fatalErr p); [|done]. destruct Hf as (_ & _ & ?). congruence. }
    rewrite Hadm in Hq, Ha. cbn [length] in Hq, Ha. rewrite Hnf in Hf. destruct Hf as [Hf0 Hfc].
    destruct (handleAdmission_handled w admission (with_admissions rest p) db Hg Ho)
      as [|ack l1 row l2 Hp Hrows Hm Hst|ack err db' Hp Hdb].
    + constructor; cbn; try done; try lia. by rewrite Hnf.
    + constructor; cbn; try done; try lia.
      * rewrite (removed_one _ _ _ _ _ Hrows). lia.
      * by rewrite Hnf.
      * intros l. destruct (p_latency p) as [l0|]; [|done]. cbn. intros [= <-].
        rewrite length_app. cbn [length]. specialize (Hl _ eq_refl). lia.
      * by eapply removed_row_inv.
    + constructor; cbn; try done; try lia.
      * destruct Hdb as [->|(l1 & row & l2 & Hrows & _ & _ & ->)]; [lia|]. rewrite (removed_one _ _ _ _ _ Hrows). lia.
      * rewrite Hnf. split_and!; [lia|done..].
      * destruct Hdb as [->|(l1 & row & l2 & Hrows & _ & _ & ->)]; [done|by eapply removed_row_inv].
  - destruct (Enqueue_removed w req db0 db Ho Hw) as [Hrem Hinv']. constructor; cbn; try done. by rewrite Hrem.
Qed.

Lemma ack_reachable_inv capacity latency db0 y : outbox_inv o db0 ->
  ack_reachable o capacity latency db0 y -> ack_inv capacity db0 y.
Proof.
  intros Hinv. induction 1 as [p Hp|y y' _ IH Hs]; [by eapply NewACKProcessor_ok|by eapply ack_step_inv].
Qed.

(** In every interleaving of callbacks, worker and scheduler, the
    queue stays within its capacity, [Acknowledged] counts exactly the rows
    removed by deletes whose commit was confirmed (the number of rows removed
    is at least [Acknowledged] and at most one more, and then the processor
    has failed), and a failed delete is fatal: it happens at most once, is
    recorded, and ends the worker. *)
Theorem ack_accounting capacity latency db0 y : outbox_inv o db0 ->
  ack_reachable o capacity latency db0 y ->
  Z.of_nat (length (p_admissions (as_proc y))) <= capacity
  /\ Acknowledged (Stats (as_proc y)) <= removed db0 (as_db y)
       <= Acknowledged (Stats (as_proc y)) + DeleteFailed (Stats (as_proc y))
  /\ Acknowledged (Stats (as_proc y)) + DeleteFailed (Stats (as_proc y)) <= AdmittedCount (Stats (as_proc y))
  /\ (Fatal (as_proc y) = None -> DeleteFailed (Stats (as_proc y)) = 0)
  /\ (Fatal (as_proc y) <> None -> DeleteFailed (Stats (as_proc y)) = 1 /\ ~ running (as_proc y))
  /\ outbox_inv o (as_db y).
Proof.
  intros Hinv Hr. apply ack_reachable_inv in Hr as [Hg Hc Hq Hn Ha Hrem Hf Hl Ho]; [|done].
  unfold Stats, Fatal. split_and!; [lia..|lia| | |done].
  - intros E. rewrite E in Hf. by destruct Hf.
  - destruct (p_fatalErr (as_proc y)); [|done]. intros _. destruct Hf as (Hf & _ & Hfin). split; [done|].
    intros [_ Hrun]. congruence.
Qed.

(** The only way the worker changes the file is to remove the one
    pending row of a message that a valid acknowledgement on the bound
    Gateway's own topic names; anything malformed, foreign, repeated or unknown
    leaves the file, the counters and the wake signal alone. *)
Theorem only_acknowledged_rows_removed w capacity latency db0 p db admission rest :
  outbox_inv o db0 -> ack_reachable o capacity latency db0 (mkAckSystem p db) -> p_admissions p = admission :: rest ->
  let y' := run_item w o admission rest (mkAckSystem p db) in
  (as_db y' = db \/ exists (ack : CommitACK uuid) l1 row l2,
     ParseCommitACK (adm_topic admission) (adm_payload admission) (gatewayID o) = Ok ack
     /\ adm_topic admission = ack_topic (gatewayID o) (a_MessageID ack)
     /\ outbox db = l1 ++ row :: l2 /\ o_message_id row = uuid_String (a_MessageID ack)
     /\ o_status row = outboxStatusPending /\ as_db y' = set_outbox (l1 ++ l2) db)
  /\ (is_ok (ParseCommitACK (uuid := uuid) (adm_topic admission) (adm_payload admission) (gatewayID o)) = false ->
      y' = mkAckSystem (with_admissions rest p) db).
Proof.
  intros Hinv Hr Hadm y'. apply ack_reachable_inv in Hr as [Hg Hc Hq Hn Ha Hrem Hf Hl Ho]; [|done].
  cbn [as_proc as_db] in *. unfold y', run_item. cbn [as_proc as_db].
  assert (Ht : forall ack : CommitACK uuid,
    ParseCommitACK (adm_topic admission) (adm_payload admission) (gatewayID o) = Ok ack ->
    adm_topic admission = ack_topic (gatewayID o) (a_MessageID ack)).
  { intros ack. apply ParseCommitACK_topic. }
  destruct (handleAdmission_handled w admission (with_admissions rest p) db Hg Ho)
    as [|ack l1 row l2 Hp Hrows Hm Hst|ack err db' Hp Hdb]; cbn [as_db].
  - split; [by left|done].
  - split; [|by rewrite Hp]. right. exists ack, l1, row, l2. split_and!; auto.
  - split; [|by rewrite Hp]. destruct Hdb as [->|(l1 & row & l2 & Hrows & Hm & Hst & ->)]; [by left|].
    right. exists ack, l1, row, l2. split_and!; auto.
Qed.
End spec.
