(* ===== verification/OutboxDemo.v ===== *)
(** * Concrete runs of the simulator's outbox and acknowledgement worker

    One Gateway, one Sensor, one batch of two samples: the hypotheses of the
    theorems hold of it. *)

From S2P Require Import Prelude GoStrings GoTime GoFloat GoJson Identity Uuid Telemetry Decode Validation.
From S2P Require Import Txn Message Batch Outbox OutboxSpec OutboxQueue.
From S2P Require Import AckParse AckProcessor.
Import Canonical.
#[local] Open Scope Z_scope.

Definition demo_outbox : Outbox := mkOutbox "gw-1" "s_1" 100 1000000.
Definition demo_now : Time := mkTime 1777890035000000000 0.
Definition demo_weather : OutboxWeather := mkOutboxWeather Works [] CommitOk demo_now.
Definition demo_request : EnqueueRequest cuuid :=
  mkEnqueueRequest boot id4 (mkTime 1777890030000000000 0) demo_now 2 500000.

(** An empty file at version 0, and as [prepare] leaves it. *)
Definition new_file : OutboxDB := mkOutboxDB 0 0 None [] 0 ∅.
Definition fresh_file : OutboxDB := mkOutboxDB 1 3 (Some ("gw-1", "s_1")) [] 0 ∅.

Lemma prepare_new : prepare demo_outbox demo_weather new_file = (Ok tt, fresh_file).
Proof. reflexivity. Qed.

Lemma fresh_file_inv : outbox_inv (uuid := cuuid) demo_outbox fresh_file.
Proof. by apply fresh_inv. Qed.

Definition demo_enqueue := Enqueue demo_outbox demo_weather demo_request fresh_file.
Definition demo_file : OutboxDB := demo_enqueue.2.
Definition demo_item : Item cuuid := match demo_enqueue.1 with Ok it => it | Err _ => no_item end.

Lemma demo_enqueue_ok : demo_enqueue = (Ok demo_item, demo_file).
Proof. vm_compute. reflexivity. Qed.

Lemma demo_enqueued : enqueued demo_outbox demo_now demo_request fresh_file demo_item demo_file.
Proof. exact (tx_outcome_ok _ _ _ _ (Enqueue_outcome _ _ _ _ _ _ demo_enqueue_ok)). Qed.

Lemma demo_widths : enqueue_widths demo_request.
Proof. split; [vm_compute; discriminate|split; vm_compute; discriminate]. Qed.

Lemma demo_file_inv : outbox_inv (uuid := cuuid) demo_outbox demo_file.
Proof. exact (enqueued_inv _ _ _ _ _ _ fresh_file_inv demo_widths demo_enqueued). Qed.

Definition demo_row : OutboxRow := item_row demo_item 500000.

Lemma demo_file_rows : outbox demo_file = [demo_row].
Proof. vm_compute. reflexivity. Qed.

(** A database that answers every call. *)
Definition demo_ops : list (op (uuid := cuuid)) :=
  [OpEnqueue demo_weather demo_request; OpQuarantine demo_weather id7 "unknown";
   OpDelete (mkOutboxWeather Works [] (CommitError (EOther "disk I/O error") true) demo_now) "gw-1" id4].

Lemma demo_ops_ok : Forall op_ok demo_ops.
Proof. do 3 (constructor; [first [exact demo_widths|exact I]|]). constructor. Qed.

(** ** Witnesses: building and the outbox *)

Lemma BuildSyntheticBatch_accepted_witness : exists built : BuiltBatch cuuid,
  BuildSyntheticBatch (enqueue_batch demo_outbox demo_request 0) ServerLimits demo_now = Ok built
  /\ b_Topic built = "gateways/gw-1/telemetry/s_1".
Proof.
  destruct (BuildSyntheticBatch (enqueue_batch demo_outbox demo_request 0) ServerLimits demo_now) as [built|e] eqn:E;
    [|vm_compute in E; discriminate E].
  exists built. split; [reflexivity|].
  refine (proj1 (BuildSyntheticBatch_accepted _ _ _ _ demo_now _ _ E _));
    [split; [|split]; vm_compute; repeat split; discriminate|vm_compute; discriminate|vm_compute; discriminate].
Defined.

Lemma Enqueue_atomic_witness :
  tx_outcome (enqueued demo_outbox demo_now demo_request fresh_file) fresh_file (Ok demo_item) demo_file.
Proof. exact (Enqueue_atomic demo_outbox demo_weather demo_request fresh_file _ _ demo_enqueue_ok). Defined.

Lemma outbox_keeps_invariant_witness : outbox_inv (uuid := cuuid) demo_outbox (run_ops demo_outbox demo_ops fresh_file).
Proof. exact (outbox_keeps_invariant demo_outbox demo_ops fresh_file demo_ops_ok fresh_file_inv). Defined.

Lemma outbox_within_quota_witness : within_quota demo_outbox (run_ops demo_outbox demo_ops fresh_file).
Proof.
  refine (outbox_within_quota demo_outbox demo_ops fresh_file _ demo_ops_ok fresh_file_inv _);
    [split; split|split]; vm_compute; congruence.
Defined.

Definition demo_key : string * string * string := ("gw-1", "s_1", text boot).

Lemma sequences_contiguous_witness : length (of_stream demo_key (run_history demo_outbox demo_ops fresh_file [])) = 1%nat
  /\ contiguous 0 (of_stream demo_key (run_history demo_outbox demo_ops fresh_file [])).
Proof.
  split; [vm_compute; reflexivity|].
  exact (proj1 (sequences_contiguous demo_outbox demo_weather demo_ops new_file fresh_file demo_ops_ok eq_refl prepare_new) demo_key).
Defined.

Lemma Enqueue_then_Lookup_witness : Lookup demo_outbox demo_weather id4 demo_file = Ok (Some demo_item).
Proof.
  refine (Enqueue_then_Lookup demo_outbox demo_weather demo_weather demo_request fresh_file demo_item demo_file
    demo_enqueue_ok fresh_file_inv demo_widths _ eq_refl).
  split; vm_compute; discriminate.
Defined.

Lemma DeletePending_spec_witness : exists l1 row l2, outbox demo_file = l1 ++ row :: l2 /\ o_status row = "pending"
  /\ (DeletePending demo_outbox demo_weather "gw-1" id4 demo_file).2 = set_outbox (l1 ++ l2) demo_file.
Proof.
  destruct (DeletePending demo_outbox demo_weather "gw-1" id4 demo_file) as [r db'] eqn:E.
  assert (Hr : r = Ok true) by (change r with (fst (r, db')); rewrite <- E; vm_compute; reflexivity). subst r.
  destruct (DeletePending_spec demo_outbox demo_weather "gw-1" id4 demo_file (Ok true) db' demo_file_inv E)
    as (_ & l1 & row & l2 & H1 & _ & H2 & H3).
  exists l1, row, l2. split; [exact H1|]. split; [exact H2|exact H3].
Defined.

Lemma Quarantine_spec_witness :
  outbox_seq (Quarantine demo_outbox demo_weather id4 "bad calibration" demo_file).2 = 1.
Proof.
  exact (proj1 (Quarantine_spec demo_outbox demo_weather id4 "bad calibration" demo_file _ _ demo_file_inv
    (surjective_pairing _))).
Defined.

Lemma pages_complete_witness : walk demo_outbox 2 0 1 demo_file = Some [demo_item].
Proof.
  refine (pages_complete demo_outbox 1 demo_file [demo_item] demo_file_inv _ _ _).
  - vm_compute. reflexivity.
  - split; vm_compute; discriminate.
  - constructor; [vm_compute; reflexivity|constructor].
Defined.

Definition demo_config : OutboxConfig := mkOutboxConfig "/var/lib/outbox.db" "gw-1" "s_1" 100 1000000 1000000000.
Definition demo_open : OpenWeather := mkOpenWeather true Works Works demo_weather.

Lemma OpenOutbox_spec_witness : exists db', OpenOutbox demo_open demo_config demo_file = (Ok demo_outbox, db')
  /\ contents db' = contents demo_file.
Proof.
  destruct (OpenOutbox demo_open demo_config demo_file) as [r db'] eqn:E.
  exists db'. assert (Hr : r = Ok demo_outbox) by (change r with (fst (r, db')); rewrite <- E; vm_compute; reflexivity).
  subst r. split; [reflexivity|].
  refine (proj1 (proj2 (OpenOutbox_spec demo_open demo_config demo_file _ db' E)) _). vm_compute. reflexivity.
Defined.

(** ** Witnesses: acknowledgements *)

Definition demo_ack : CommitACK cuuid := mkCommitACK 1 "telemetry_ack" id4 "committed" demo_now.
Definition demo_ack_payload : string := default "" (marshalACK demo_ack).

Lemma demo_new_ack : NewCommitACK "gw-1" id4 CommitOutcomeCommitted demo_now = Ok (ack_topic "gw-1" id4, demo_ack).
Proof. vm_compute. reflexivity. Qed.

Lemma demo_marshal : marshalACK demo_ack = Some demo_ack_payload.
Proof. vm_compute. reflexivity. Qed.

Lemma server_ack_accepted_witness : ParseCommitACK (ack_topic "gw-1" id4) demo_ack_payload "gw-1" = Ok demo_ack.
Proof.
  exact (proj1 (server_ack_accepted "gw-1" id4 CommitOutcomeCommitted demo_now _ _ _ demo_new_ack demo_marshal)).
Defined.

Lemma demo_ack_parses : ParseCommitACK (ack_topic "gw-1" id4) demo_ack_payload "gw-1" = Ok demo_ack.
Proof.
  apply ParseCommitACK_marshal; try exact demo_marshal; try (vm_compute; reflexivity).
  split; [vm_compute; discriminate|]. split; [left|]; vm_compute; reflexivity.
Qed.

Lemma ParseCommitACK_sound_witness : ack_topic "gw-1" id4 = ack_topic "gw-1" (a_MessageID demo_ack)
  /\ message_id_ok (a_MessageID demo_ack).
Proof.
  destruct (ParseCommitACK_sound _ _ _ _ demo_ack_parses) as (_ & H1 & H2 & _). split; [exact H1|exact H2].
Defined.

Definition demo_processor : ACKProcessor cuuid := mkACKProcessor "gw-1" 8 [] false false false false None false zero_stats None.
Definition demo_admitted : ACKProcessor cuuid :=
  AckProcessor.Admit (ack_topic "gw-1" id4) demo_ack_payload false (AckProcessor.Start demo_processor).
Definition demo_admission : ackAdmission := mkAdmission (ack_topic "gw-1" id4) demo_ack_payload.
Definition demo_acked : AckSystem cuuid :=
  run_item demo_weather demo_outbox demo_admission [] (mkAckSystem demo_admitted demo_file).

Lemma demo_admitted_queue : p_admissions demo_admitted = [demo_admission].
Proof. vm_compute. reflexivity. Qed.

Lemma demo_admitted_reachable : ack_reachable demo_outbox 8 false demo_file (mkAckSystem demo_admitted demo_file).
Proof.
  eapply ack_next; [eapply ack_next; [exact (ack_init demo_outbox 8 false demo_file demo_processor eq_refl)|apply step_start]|apply step_admit].
Qed.

Lemma demo_acked_reachable : ack_reachable demo_outbox 8 false demo_file demo_acked.
Proof.
  eapply ack_next; [exact demo_admitted_reachable|].
  exact (step_item demo_outbox demo_weather demo_admission [] demo_admitted demo_file (conj eq_refl eq_refl) demo_admitted_queue).
Qed.

Lemma demo_acked_state : Acknowledged (p_stats (as_proc demo_acked)) = 1 /\ outbox (as_db demo_acked) = [].
Proof. vm_compute. split; reflexivity. Qed.

Lemma ack_accounting_witness : Acknowledged (p_stats (as_proc demo_acked)) = 1
  /\ Acknowledged (AckProcessor.Stats (as_proc demo_acked)) <= removed demo_file (as_db demo_acked).
Proof.
  split; [exact (proj1 demo_acked_state)|].
  destruct (ack_accounting demo_outbox 8 false demo_file demo_acked demo_file_inv demo_acked_reachable) as (_ & [H _] & _).
  exact H.
Defined.

Lemma only_acknowledged_rows_removed_witness : as_db demo_acked = demo_file \/ exists (ack : CommitACK cuuid) l1 row l2,
  adm_topic demo_admission = ack_topic "gw-1" (a_MessageID ack) /\ as_db demo_acked = set_outbox (l1 ++ l2) demo_file
  /\ o_message_id row = uuid_String (a_MessageID ack).
Proof.
  destruct (only_acknowledged_rows_removed demo_outbox demo_weather 8 false demo_file demo_admitted demo_file
    demo_admission [] demo_file_inv demo_admitted_reachable demo_admitted_queue) as [[H|H] _].
  - left. exact H.
  - right. destruct H as (ack & l1 & row & l2 & _ & H1 & _ & H2 & _ & H3). exists ack, l1, row, l2.
    split; [exact H1|]. split; [exact H3|exact H2].
Defined.
