(* ===== verification/Scheduler.v ===== *)
(** * The scheduler (gateway simulator)

    [gatewaysim/scheduler.go]: batch generation, replay of pending rows, the
    bounded in-flight set and the retry timers.  The loop goroutine owns the
    state; a publish invocation runs beside it and hands back its result.  What
    the outside decides in one pass (the clock, the broker's readiness, the
    replies of the outbox, the order in which Go ranges over a map, the random
    numbers) is the environment of that pass. *)

From S2P Require Import Prelude GoStrings GoTime GoFloat Identity Uuid Telemetry Txn Message Batch.
From S2P Require Import Outbox OutboxSpec OutboxQueue.
#[local] Open Scope Z_scope.

(** ** Errors and constants *)

Definition ErrSchedulerEnqueue : error := sim_error "scheduler enqueue failed".
Definition ErrSchedulerPending : error := sim_error "scheduler pending scan failed".
Definition ErrSchedulerLookup : error := sim_error "scheduler in-flight lookup failed".
Definition ErrSchedulerCommitUnknown : error :=
  sim_error "outbox commit outcome is unknown; supervised restart required".
Definition ErrSchedulerCompletion : error :=
  sim_error "finite completion budget expired with pending items".
Definition ErrSchedulerFatal : error := sim_error "scheduler stopped on an internal failure".

Inductive entry_state := statePublishing | stateAwaitAck | stateBackoff.

#[export] Instance entry_state_eq_dec : EqDecision entry_state.
Proof. solve_decision. Defined.

Definition maxAdmissionPages : nat := 4.
Definition parkDuration : Z := 24 * Hour.
Definition defaultShutdownTimeout : Z := 10 * Second.

(** ** Retry delay *)

(** [time.Duration(float64(d) * factor)]. *)
Definition duration_of_f64 (f : float64) : Z := int_of_f64 f.

Definition f64_of_duration (d : Z) : float64 := f64_of_int d.

(** The doubling loop: [retries] rounds at most. *)
Fixpoint double_capped (retries : nat) (d max : Z) : Z :=
  match retries with
  | O => d
  | S retries' =>
      if max <=? d then d
      else
        let d := int64_mul d 2 in
        double_capped retries' (if max <? d then max else d) max
  end.

(** The float64 nearest to 0.2. *)
Definition f64_fifth : float64 := f64_div (f64_of_int 2) (f64_of_int 10).

Definition jitter_factor (r : float64) : float64 :=
  f64_add (f64_of_int 1) (f64_mul (f64_sub (f64_mul r (f64_of_int 2)) (f64_of_int 1)) f64_fifth).

Definition retryDelay (min max : Z) (retries : nat) (randFloat : float64) : Z :=
  let min := if min <=? 0 then Millisecond else min in
  let max := if max <? min then min else max in
  let d := double_capped retries min max in
  let out := duration_of_f64 (f64_mul (f64_of_duration d) (jitter_factor randFloat)) in
  let out := if max <? out then max else out in
  if out <? 0 then 0 else out.

(** ** State *)

Record schedulerConfig := mkSchedulerConfig {
  c_gatewayID : string;
  c_sensorID : string;
  c_samplesPerBatch : Z;
  c_sampleIntervalUS : Z;
  c_batchSpan : Z;
  c_maxInflight : Z;
  c_ackTimeout : Z;
  c_retryMin : Z;
  c_retryMax : Z;
  c_shutdownTimeout : Z;
}.

Record inflightEntry (uuid : Type) := mkEntry {
  item : Item uuid;
  state : entry_state;
  retries : nat;
  nextAt : Time;
}.
Arguments mkEntry {uuid}.
Arguments item {uuid}.
Arguments state {uuid}.
Arguments retries {uuid}.
Arguments nextAt {uuid}.

(** [None] is a nil error. *)
Record publishResult (uuid : Type) := mkPublishResult { res_messageID : uuid; res_err : option error }.
Arguments mkPublishResult {uuid}.
Arguments res_messageID {uuid}.
Arguments res_err {uuid}.

(** A [Publish] invocation that has been started. *)
Record publication (uuid : Type) := mkPublication { pub_id : uuid; pub_topic : string; pub_payload : string }.
Arguments mkPublication {uuid}.
Arguments pub_id {uuid}.
Arguments pub_topic {uuid}.
Arguments pub_payload {uuid}.

Section scheduler.
Context {uuid : Type} `{!UuidLib uuid}.

(** [invocations] lists the publish goroutines that have not returned;
    [started_log] every one ever started.  [timer] is the duration the wake
    timer was last reset to.  A zero time stands for an unset deadline. *)
Record Scheduler := mkScheduler {
  cfg : schedulerConfig;
  bootID : uuid;
  finiteTarget : Z;
  completionBudget : Z;
  started : bool;
  shutdownDeadline : Time;
  timer : Z;
  inflight : gmap uuid (inflightEntry uuid);
  inflightCount : Z;
  nextGenAt : Time;
  genDone : bool;
  genReady : bool;
  readyObserved : bool;
  completionDeadline : Time;
  generationPaused : bool;
  completed : bool;
  uniqueEnqueued : Z;
  publishAttempts : Z;
  fatalErr : option error;
  fatalClosed : bool;
  invocations : list (publication uuid);
  started_log : list (publication uuid);
}.
Implicit Types (s : Scheduler) (e : inflightEntry uuid).

(** One field replaced. *)
Definition set_started (v : bool) s : Scheduler :=
  mkScheduler (cfg s) (bootID s) (finiteTarget s) (completionBudget s) v (shutdownDeadline s) (timer s)
    (inflight s) (inflightCount s) (nextGenAt s) (genDone s) (genReady s) (readyObserved s)
    (completionDeadline s) (generationPaused s) (completed s) (uniqueEnqueued s) (publishAttempts s)
    (fatalErr s) (fatalClosed s) (invocations s) (started_log s).
Definition set_shutdownDeadline (v : Time) s : Scheduler :=
  mkScheduler (cfg s) (bootID s) (finiteTarget s) (completionBudget s) (started s) v (timer s) (inflight s)
    (inflightCount s) (nextGenAt s) (genDone s) (genReady s) (readyObserved s) (completionDeadline s)
    (generationPaused s) (completed s) (uniqueEnqueued s) (publishAttempts s) (fatalErr s) (fatalClosed s)
    (invocations s) (started_log s).
Definition set_timer (v : Z) s : Scheduler :=
  mkScheduler (cfg s) (bootID s) (finiteTarget s) (completionBudget s) (started s) (shutdownDeadline s) v
    (inflight s) (inflightCount s) (nextGenAt s) (genDone s) (genReady s) (readyObserved s)
    (completionDeadline s) (generationPaused s) (completed s) (uniqueEnqueued s) (publishAttempts s)
    (fatalErr s) (fatalClosed s) (invocations s) (started_log s).
Definition set_inflight (v : gmap uuid (inflightEntry uuid)) s : Scheduler :=
  mkScheduler (cfg s) (bootID s) (finiteTarget s) (completionBudget s) (started s) (shutdownDeadline s)
    (timer s) v (inflightCount s) (nextGenAt s) (genDone s) (genReady s) (readyObserved s)
    (completionDeadline s) (generationPaused s) (completed s) (uniqueEnqueued s) (publishAttempts s)
    (fatalErr s) (fatalClosed s) (invocations s) (started_log s).
Definition set_inflightCount (v : Z) s : Scheduler :=
  mkScheduler (cfg s) (bootID s) (finiteTarget s) (completionBudget s) (started s) (shutdownDeadline s)
    (timer s) (inflight s) v (nextGenAt s) (genDone s) (genReady s) (readyObserved s) (completionDeadline s)
    (generationPaused s) (completed s) (uniqueEnqueued s) (publishAttempts s) (fatalErr s) (fatalClosed s)
    (invocations s) (started_log s).
Definition set_nextGenAt (v : Time) s : Scheduler :=
  mkScheduler (cfg s) (bootID s) (finiteTarget s) (completionBudget s) (started s) (shutdownDeadline s)
    (timer s) (inflight s) (inflightCount s) v (genDone s) (genReady s) (readyObserved s)
    (completionDeadline s) (generationPaused s) (completed s) (uniqueEnqueued s) (publishAttempts s)
    (fatalErr s) (fatalClosed s) (invocations s) (started_log s).
Definition set_genReady (v : bool) s : Scheduler :=
  mkScheduler (cfg s) (bootID s) (finiteTarget s) (completionBudget s) (started s) (shutdownDeadline s)
    (timer s) (inflight s) (inflightCount s) (nextGenAt s) (genDone s) v (readyObserved s)
    (completionDeadline s) (generationPaused s) (completed s) (uniqueEnqueued s) (publishAttempts s)
    (fatalErr s) (fatalClosed s) (invocations s) (started_log s).
Definition set_readyObserved (v : bool) s : Scheduler :=
  mkScheduler (cfg s) (bootID s) (finiteTarget s) (completionBudget s) (started s) (shutdownDeadline s)
    (timer s) (inflight s) (inflightCount s) (nextGenAt s) (genDone s) (genReady s) v (completionDeadline s)
    (generationPaused s) (completed s) (uniqueEnqueued s) (publishAttempts s) (fatalErr s) (fatalClosed s)
    (invocations s) (started_log s).
Definition set_generationPaused (v : bool) s : Scheduler :=
  mkScheduler (cfg s) (bootID s) (finiteTarget s) (completionBudget s) (started s) (shutdownDeadline s)
    (timer s) (inflight s) (inflightCount s) (nextGenAt s) (genDone s) (genReady s) (readyObserved s)
    (completionDeadline s) v (completed s) (uniqueEnqueued s) (publishAttempts s) (fatalErr s) (fatalClosed
    s) (invocations s) (started_log s).
Definition set_completed (v : bool) s : Scheduler :=
  mkScheduler (cfg s) (bootID s) (finiteTarget s) (completionBudget s) (started s) (shutdownDeadline s)
    (timer s) (inflight s) (inflightCount s) (nextGenAt s) (genDone s) (genReady s) (readyObserved s)
    (completionDeadline s) (generationPaused s) v (uniqueEnqueued s) (publishAttempts s) (fatalErr s)
    (fatalClosed s) (invocations s) (started_log s).
Definition set_uniqueEnqueued (v : Z) s : Scheduler :=
  mkScheduler (cfg s) (bootID s) (finiteTarget s) (completionBudget s) (started s) (shutdownDeadline s)
    (timer s) (inflight s) (inflightCount s) (nextGenAt s) (genDone s) (genReady s) (readyObserved s)
    (completionDeadline s) (generationPaused s) (completed s) v (publishAttempts s) (fatalErr s)
    (fatalClosed s) (invocations s) (started_log s).
Definition finish_generation (deadline : Time) s : Scheduler :=
  mkScheduler (cfg s) (bootID s) (finiteTarget s) (completionBudget s) (started s) (shutdownDeadline s)
    (timer s) (inflight s) (inflightCount s) (nextGenAt s) true (genReady s) (readyObserved s) deadline
    (generationPaused s) (completed s) (uniqueEnqueued s) (publishAttempts s) (fatalErr s) (fatalClosed s)
    (invocations s) (started_log s).
Definition launch (p : publication uuid) s : Scheduler :=
  mkScheduler (cfg s) (bootID s) (finiteTarget s) (completionBudget s) (started s) (shutdownDeadline s)
    (timer s) (inflight s) (inflightCount s) (nextGenAt s) (genDone s) (genReady s) (readyObserved s)
    (completionDeadline s) (generationPaused s) (completed s) (uniqueEnqueued s) (publishAttempts s + 1)
    (fatalErr s) (fatalClosed s) (invocations s ++ [p]) (started_log s ++ [p]).
Definition invocation_returned (rest : list (publication uuid)) s : Scheduler :=
  mkScheduler (cfg s) (bootID s) (finiteTarget s) (completionBudget s) (started s) (shutdownDeadline s)
    (timer s) (inflight s) (inflightCount s) (nextGenAt s) (genDone s) (genReady s) (readyObserved s)
    (completionDeadline s) (generationPaused s) (completed s) (uniqueEnqueued s) (publishAttempts s)
    (fatalErr s) (fatalClosed s) rest (started_log s).

(** The first failure is kept. *)
Definition setFatal (err : error) s : Scheduler :=
  mkScheduler (cfg s) (bootID s) (finiteTarget s) (completionBudget s) (started s) (shutdownDeadline s)
    (timer s) (inflight s) (inflightCount s) (nextGenAt s) (genDone s) (genReady s) (readyObserved s)
    (completionDeadline s) (generationPaused s) (completed s) (uniqueEnqueued s) (publishAttempts s) (match
    fatalErr s with None => Some err | Some e => Some e end) true (invocations s) (started_log s).

(** ** Construction *)

(** What [NewScheduler] checks of its options: the presence of its
    collaborators, the configuration, and the boot identifier. *)
Record SchedulerOptions := mkSchedulerOptions {
  so_outbox : option Outbox;
  so_publisher : bool;
  so_ack : bool;
  so_ack_notify : bool;
  so_config : schedulerConfig;
  so_outboxMaxRows : Z;
  so_finiteBatch : Z;
  so_completionBudget : Z;
  so_newUUID : res error uuid;
}.

Definition NewScheduler (opts : SchedulerOptions) : res error Scheduler :=
  let c := so_config opts in
  if bool_decide (so_outbox opts = None) then Err (sim_error "scheduler requires an outbox")
  else if negb (so_publisher opts) then Err (sim_error "scheduler requires a publisher")
  else if negb (so_ack opts) then Err (sim_error "scheduler requires an ACK observer")
  else if bool_decide (c_gatewayID c = "") || bool_decide (c_sensorID c = "")
  then Err (sim_error "scheduler requires a gateway and sensor identity")
  else if (c_samplesPerBatch c <? 1) || (c_sampleIntervalUS c <=? 0) || (c_batchSpan c <? 0)
  then Err (sim_error "scheduler requires a valid sample profile")
  else if (c_maxInflight c <? 1) || (so_outboxMaxRows opts <? c_maxInflight c)
  then Err (sim_error "scheduler max in-flight must be between 1 and the outbox row cap")
  else if c_ackTimeout c <=? 0 then Err (sim_error "scheduler requires a positive ACK timeout")
  else if (c_retryMin c <=? 0) || (c_retryMax c <? c_retryMin c)
  then Err (sim_error "scheduler requires 0 < retry min <= retry max")
  else if so_finiteBatch opts <? 0 then Err (sim_error "scheduler finite batch count must not be negative")
  else if (0 <? so_finiteBatch opts) && (so_completionBudget opts <=? 0)
  then Err (sim_error "scheduler finite run requires a positive completion budget")
  else if negb (so_ack_notify opts) then Err (sim_error "scheduler ACK observer must expose a notify channel")
  else match so_newUUID opts with
  | Err err => Err (EWrap "boot id" err)
  | Ok id =>
      if bool_decide (id = uuid_Nil) || negb (uuid_Variant id =? RFC4122)
      then Err (sim_error "generated boot id is invalid")
      else Ok (mkScheduler c id (so_finiteBatch opts) (so_completionBudget opts) false zero_time parkDuration
                 ∅ 0 zero_time false false false zero_time false false 0 0 None false [] [])
  end.

Definition BootID s : uuid := bootID s.

Definition cadence s : Z :=
  int64_mul (int64_mul (c_sampleIntervalUS (cfg s)) Microsecond) (c_samplesPerBatch (cfg s)).

(** The start of [Run]; [now] is the clock. *)
Definition begin_run (now : Time) s : res error Scheduler :=
  if started s then Err (sim_error "scheduler already started")
  else Ok (set_nextGenAt (UTC now) (set_timer parkDuration (set_started true s))).

Definition BeginShutdown (deadline : Time) s : Scheduler :=
  if IsZero deadline then s
  else if IsZero (shutdownDeadline s) || Before deadline (shutdownDeadline s)
  then set_shutdownDeadline deadline s else s.

(** ** Publishing *)

Definition set_entry (id : uuid) e s : Scheduler := set_inflight (<[id := e]> (inflight s)) s.

(** The entry owns one new publish invocation of its stored bytes. *)
Definition startPublish (id : uuid) e s : Scheduler :=
  launch (mkPublication (i_MessageID (item e)) (i_Topic (item e)) (i_Payload (item e)))
    (set_entry id (mkEntry (item e) statePublishing (retries e) (nextAt e)) s).

Definition admit_row (it : Item uuid) s : Scheduler :=
  startPublish (i_MessageID it) (mkEntry it statePublishing 0 zero_time) s.

Definition scheduleBackoff (now : Time) (r : float64) (id : uuid) e s : Scheduler :=
  set_entry id (mkEntry (item e) stateBackoff (S (retries e))
    (Add (UTC now) (retryDelay (c_retryMin (cfg s)) (c_retryMax (cfg s)) (retries e) r))) s.

Definition onPublishResult (now : Time) (r : float64) (result : publishResult uuid) s : Scheduler :=
  match inflight s !! res_messageID result with
  | None => s
  | Some e =>
      if negb (bool_decide (state e = statePublishing)) then s
      else match res_err result with
      | Some _ => scheduleBackoff now r (res_messageID result) e s
      | None =>
          set_entry (res_messageID result)
            (mkEntry (item e) stateAwaitAck (retries e) (Add (UTC now) (c_ackTimeout (cfg s)))) s
      end
  end.

(** ** One pass over the in-flight set *)

(** The environment of one pass of the loop.  The acknowledgement worker may
    delete rows between two reads, so each read has the file it sees. *)
Record PassEnv := mkPassEnv {
  pe_ready : bool;
  pe_now : Time;
  pe_order : list uuid;
  pe_lookup : uuid -> OutboxWeather * OutboxDB;
  pe_clock : uuid -> Time;
  pe_rand : uuid -> float64;
  pe_page : nat -> OutboxWeather * OutboxDB;
  pe_newUUID : res error uuid;
  pe_enqueue : OutboxWeather;
  pe_budget_clock : Time;
}.
Implicit Types pe : PassEnv.
Variable o : Outbox.

Definition rowStillPending (read : OutboxWeather * OutboxDB) (id : uuid) : res error bool :=
  match Lookup o read.1 id read.2 with
  | Err err => Err err
  | Ok None => Ok false
  | Ok (Some it) => Ok (bool_decide (i_Status it = outboxStatusPending))
  end.

(** The body of the loop over the in-flight set for one entry. *)
Definition retry_entry pe (id : uuid) s : option error * Scheduler :=
  match inflight s !! id with
  | None => (None, s)
  | Some e =>
      if bool_decide (state e = statePublishing) || Before (pe_now pe) (nextAt e) then (None, s)
      else match state e with
      | stateAwaitAck =>
          match rowStillPending (pe_lookup pe id) (i_MessageID (item e)) with
          | Err err => (Some (EWrap "lookup" ErrSchedulerLookup), s)
          | Ok false => (None, set_inflight (delete id (inflight s)) s)
          | Ok true => (None, scheduleBackoff (pe_clock pe id) (pe_rand pe id) id e s)
          end
      | _ => (None, startPublish id e s)
      end
  end.

Fixpoint for_entries (body : uuid -> Scheduler -> option error * Scheduler) (order : list uuid) s
    : option error * Scheduler :=
  match order with
  | [] => (None, s)
  | id :: rest =>
      match body id s with
      | (Some err, s') => (Some err, s')
      | (None, s') => for_entries body rest s'
      end
  end.

Definition processDueRetries pe s : option error * Scheduler := for_entries (retry_entry pe) (pe_order pe) s.

Definition free_slots s : Z := c_maxInflight (cfg s) - Z.of_nat (size (inflight s)).

(** The loop over one page: the scheduler and whether it ran out of slots
    before the page ended. *)
Fixpoint admit_items (items : list (Item uuid)) s : bool * Scheduler :=
  match items with
  | [] => (false, s)
  | it :: rest =>
      if free_slots s <=? 0 then (true, s)
      else if bool_decide (is_Some (inflight s !! i_MessageID it)) then admit_items rest s
      else admit_items rest (admit_row it s)
  end.

(** [pages] pages are left. *)
Fixpoint admit_pages pe (page pages : nat) (cursor : Z) s : res error bool * Scheduler :=
  match pages with
  | O => (Ok (0 <? free_slots s), s)
  | S pages' =>
      if free_slots s <=? 0 then (Ok false, s)
      else match PendingAfter o (pe_page pe page).1 cursor (c_maxInflight (cfg s)) (pe_page pe page).2 with
      | Err _ => (Err (EWrap "pending" ErrSchedulerPending), s)
      | Ok [] => (Ok false, s)
      | Ok items =>
          match admit_items items s with
          | (true, s') => (Ok false, s')
          | (false, s') =>
              if Z.of_nat (length items) <? c_maxInflight (cfg s) then (Ok false, s')
              else admit_pages pe (S page) pages' (ID (List.last items no_item)) s'
          end
      end
  end.

Definition admitPending pe s : res error bool * Scheduler :=
  if free_slots s <=? 0 then (Ok false, s) else admit_pages pe 0 maxAdmissionPages 0 s.

(** ** Generation *)

(** Go's [errors.Is] on the errors the outbox returns, as a test. *)
Fixpoint is_error (target : string) (err : error) : bool :=
  match err with
  | EOther text => bool_decide (text = "gatewaysim: " +:+ target)
  | EWrap _ cause => is_error target cause
  | EWrap2 _ c1 c2 => is_error target c1 || is_error target c2
  | _ => false
  end.

Definition generate_request pe s (msgID : uuid) : EnqueueRequest uuid :=
  let now := pe_now pe in
  mkEnqueueRequest (bootID s) msgID (Truncate (UTC (Add now (- c_batchSpan (cfg s)))) Microsecond) (UTC now)
    (wrap32 (c_samplesPerBatch (cfg s))) (c_sampleIntervalUS (cfg s)).

Definition generate pe s (db : OutboxDB) : option error * Scheduler * OutboxDB :=
  let s := set_nextGenAt (Add (UTC (pe_now pe)) (cadence s)) s in
  match pe_newUUID pe with
  | Err _ => (Some (EWrap "message id" ErrSchedulerFatal), s, db)
  | Ok msgID =>
      match Enqueue o (pe_enqueue pe) (generate_request pe s msgID) db with
      | (Err err, db') =>
          if is_error "outbox capacity reached" err then (None, set_generationPaused true s, db')
          else if is_error "outbox commit outcome is unknown" err
          then (Some (EWrap "enqueue" ErrSchedulerCommitUnknown), s, db')
          else (Some (EWrap "enqueue" ErrSchedulerEnqueue), s, db')
      | (Ok it, db') =>
          let s := admit_row it (set_uniqueEnqueued (uniqueEnqueued s + 1) s) in
          (None,
           (if (0 <? finiteTarget s) && negb (genDone s) && (finiteTarget s <=? uniqueEnqueued s)
            then finish_generation (Add (UTC (pe_budget_clock pe)) (completionBudget s)) s else s), db')
      end
  end.

(** ** The pass *)

Definition observe pe s : Scheduler :=
  set_inflightCount (Z.of_nat (size (inflight s))) (set_readyObserved (pe_ready pe) s).

Definition reconcile_body pe s (db : OutboxDB) : option error * Scheduler * OutboxDB :=
  if negb (pe_ready pe) then (None, set_genReady false s, db)
  else match processDueRetries pe s with
  | (Some err, s) => (Some err, s, db)
  | (None, s) =>
      match admitPending pe s with
      | (Err err, s) => (Some err, s, db)
      | (Ok more, s) =>
          let s := set_genReady (negb (genDone s) && negb (generationPaused s) && (0 <? free_slots s) && negb more) s in
          if genReady s && negb (Before (pe_now pe) (nextGenAt s)) then generate pe s db else (None, s, db)
      end
  end.

Definition reconcile pe s (db : OutboxDB) : option error * Scheduler * OutboxDB :=
  let '(err, s, db) := reconcile_body pe s db in (err, observe pe s, db).

(** [None] stops on the first failed lookup, with the context alive or ended. *)
Definition sync_entry (read : uuid -> OutboxWeather * OutboxDB) (id : uuid) s : option error * Scheduler :=
  match rowStillPending (read id) id with
  | Err _ => (Some (EWrap "lookup" ErrSchedulerLookup), s)
  | Ok pending => (None, if pending then s else set_inflight (delete id (inflight s)) s)
  end.

Definition syncInflight (order : list uuid) (read : uuid -> OutboxWeather * OutboxDB) (ctx_ended : bool) s
    : Scheduler :=
  match for_entries (sync_entry read) order s with
  | (None, s) => set_generationPaused false s
  | (Some err, s) => if ctx_ended then s else setFatal err s
  end.

(** ** The wake timer *)

Definition consider (next t : Time) : Time :=
  if IsZero t then next else if IsZero next || Before t next then t else next.

Definition waits e : bool := bool_decide (state e = stateAwaitAck) || bool_decide (state e = stateBackoff).

Definition next_wake (order : list uuid) s : Time :=
  let next := zero_time in
  let next := if genReady s || (negb (genDone s) && negb (generationPaused s) && (0 <? free_slots s))
              then consider next (nextGenAt s) else next in
  let next := if (0 <? finiteTarget s) && genDone s && negb (IsZero (completionDeadline s))
              then consider next (completionDeadline s) else next in
  fold_left (fun next id =>
    match inflight s !! id with
    | Some e => if waits e then consider next (nextAt e) else next
    | None => next
    end) order next.

Definition resetTimer (d : Z) s : Scheduler := set_timer (if d <? 0 then 0 else d) s.

Definition armTimer (ready : bool) (order : list uuid) (now : Time) s : Scheduler :=
  if negb ready then resetTimer parkDuration s
  else
    let next := next_wake order s in
    if IsZero next then resetTimer parkDuration s
    else
      let d := unix_ns next - unix_ns now in
      resetTimer (if d <? 0 then 0 else d) s.

(** ** Completion and shutdown *)

Definition checkCompletion (w : OutboxWeather) (now : Time) s (db : OutboxDB) : bool * option error :=
  if (finiteTarget s <=? 0) || negb (genDone s) then (false, None)
  else match Counts o w db with
  | Err _ => (true, Some (EWrap "counts" ErrSchedulerPending))
  | Ok counts =>
      if PendingRows counts =? 0 then (true, None)
      else if negb (IsZero (completionDeadline s)) && negb (Before now (completionDeadline s))
      then (true, Some ErrSchedulerCompletion)
      else (false, None)
  end.

Definition publishingCount s : Z :=
  Z.of_nat (size (filter (fun kv : uuid * inflightEntry uuid => state kv.2 = statePublishing) (inflight s))).

Definition publishDrainBudget (now : Time) s : Z :=
  let budget := if c_shutdownTimeout (cfg s) <=? 0 then defaultShutdownTimeout else c_shutdownTimeout (cfg s) in
  if IsZero (shutdownDeadline s) then budget
  else
    let remaining := unix_ns (shutdownDeadline s) - unix_ns now in
    if remaining <? budget then remaining else budget.

(** A result: of which running invocation, with the clock and the random number
    it is handled with.  Only an invocation that runs hands one back. *)
Record arrival := mkArrival {
  ar_id : uuid;
  ar_err : option error;
  ar_now : Time;
  ar_rand : float64;
}.

Definition take_result (a : arrival) s : Scheduler :=
  if bool_decide (ar_id a ∈ map pub_id (invocations s)) then
    onPublishResult (ar_now a) (ar_rand a) (mkPublishResult (ar_id a) (ar_err a))
      (invocation_returned (List.filter (fun p => negb (bool_decide (pub_id p = ar_id a))) (invocations s)) s)
  else s.

(** The results that arrive before the budget's timer fires. *)
Fixpoint drain_results (arrivals : list arrival) s : Scheduler :=
  match arrivals with
  | [] => s
  | a :: rest => if publishingCount s =? 0 then s else drain_results rest (take_result a s)
  end.

Definition waitPublishes (now : Time) (arrivals : list arrival) s : Scheduler :=
  if publishingCount s =? 0 then s
  else if publishDrainBudget now s <=? 0 then s
  else drain_results arrivals s.

(** [fail]: a nil error becomes the unclassified one. *)
Definition fail (err : option error) (now : Time) (arrivals : list arrival) s : error * Scheduler :=
  let err := default ErrSchedulerFatal err in
  (err, waitPublishes now arrivals (setFatal err s)).

(** One turn of [loop] up to its [select].  [te_deleted] is the file after the
    rows the acknowledgement worker deletes between the pass and the completion
    check. *)
Inductive verdict :=
| Blocks
| Again
| Returns (err : option error).

Record TurnEnv := mkTurnEnv {
  te_pass : PassEnv;
  te_ctx_before : bool;
  te_ctx_after : bool;
  te_deleted : OutboxDB -> OutboxDB;
  te_counts : OutboxWeather;
  te_completion_now : Time;
  te_ready_arm : bool;
  te_arm_order : list uuid;
  te_arm_now : Time;
  te_ready_check : bool;
  te_drain_now : Time;
  te_arrivals : list arrival;
}.

Definition loop_turn (te : TurnEnv) s (db : OutboxDB) : verdict * Scheduler * OutboxDB :=
  let wait := waitPublishes (te_drain_now te) (te_arrivals te) in
  let failed err s := let '(err, s) := fail err (te_drain_now te) (te_arrivals te) s in (Returns (Some err), s) in
  if te_ctx_before te then (Returns None, wait s, db)
  else match fatalErr s with
  | Some err => (failed (Some err) s, db)
  | None =>
      match reconcile (te_pass te) s db with
      | (Some err, s, db) => if te_ctx_after te then (Returns None, wait s, db) else (failed (Some err) s, db)
      | (None, s, db) =>
          let db := te_deleted te db in
          match checkCompletion (te_counts te) (te_completion_now te) s db with
          | (true, Some err) => if te_ctx_after te then (Returns None, wait s, db) else (failed (Some err) s, db)
          | (true, None) => (Returns None, wait (set_completed true s), db)
          | (false, _) =>
              let s := armTimer (te_ready_arm te) (te_arm_order te) (te_arm_now te) s in
              ((if negb (Bool.eqb (te_ready_check te) (readyObserved s)) then Again else Blocks), s, db)
          end
      end
  end.

(** The arms of the [select]. *)
Inductive wake :=
| wake_ctx
| wake_pub_fatal (err : option error)
| wake_ack_fatal (err : option error)
| wake_timer
| wake_notify (order : list uuid) (read : uuid -> OutboxWeather * OutboxDB) (ctx_ended : bool)
| wake_result (a : arrival)
| wake_ready.

Definition select_arm (k : wake) (now : Time) (arrivals : list arrival) s : verdict * Scheduler :=
  match k with
  | wake_ctx => (Returns None, waitPublishes now arrivals s)
  | wake_pub_fatal err | wake_ack_fatal err =>
      let '(err, s) := fail err now arrivals s in (Returns (Some err), s)
  | wake_timer | wake_ready => (Again, s)
  | wake_notify order read ctx_ended => (Again, syncInflight order read ctx_ended s)
  | wake_result a => (Again, take_result a s)
  end.

(** A snapshot for logs; a failed count leaves the totals at zero. *)
Definition Stats (acknowledged : Z) (w : OutboxWeather) s (db : OutboxDB) :=
  let '(rows, bytes) := match Counts o w db with Ok c => (PendingRows c, PendingBytes c) | Err _ => (0, 0) end in
  (uniqueEnqueued s, publishAttempts s, acknowledged, rows, bytes, inflightCount s, generationPaused s, completed s).

Definition Fatal s : option error := fatalErr s.
End scheduler.

Arguments Scheduler uuid {_}.
Arguments SchedulerOptions : clear implicits.
Arguments PassEnv : clear implicits.
Arguments TurnEnv : clear implicits.
Arguments wake : clear implicits.
Arguments arrival : clear implicits.
