(* ===== verification/SchedulerInv.v ===== *)
(** * The scheduler keeps its in-flight set in order

    Every entry owns at most one publish invocation, a stored row is published
    byte for byte, and the slots stay within their bound, whatever the broker,
    the acknowledgement worker and the clock do meanwhile. *)

From S2P Require Import Prelude GoStrings GoTime GoFloat Identity Uuid Telemetry Decode Validation.
From S2P Require Import Txn Message Batch Outbox OutboxSpec OutboxQueue Scheduler.
#[local] Open Scope Z_scope.

Section inv.
Context {uuid : Type} `{!UuidLib uuid} `{!UuidLaws uuid}.
Variable o : Outbox.
Implicit Types (s : Scheduler uuid) (e : inflightEntry uuid) (db : OutboxDB) (id : uuid) (ever : list OutboxRow).

(** ** Versions of the file *)

(** [db2] is [db1] after some acknowledgements. *)
Definition emptied db1 db2 : Prop := exists f, db2 = set_outbox (List.filter f (outbox db1)) db1.

Lemma filter_filter {A} (f g : A -> bool) (l : list A) :
  List.filter f (List.filter g l) = List.filter (fun x => g x && f x) l.
Proof. induction l as [|x l IH]; cbn; [done|]. destruct (g x); cbn; [destruct (f x)|]; by rewrite ?IH. Qed.

Lemma emptied_refl db : emptied db db.
Proof.
  exists (fun _ => true). replace (List.filter _ (outbox db)) with (outbox db); [by destruct db|].
  induction (outbox db) as [|x l IH]; cbn; [done|]. by rewrite <- IH.
Qed.

Lemma emptied_trans db1 db2 db3 : emptied db1 db2 -> emptied db2 db3 -> emptied db1 db3.
Proof. intros [f ->] [g ->]. exists (fun x => f x && g x). cbn [outbox set_outbox]. by rewrite filter_filter. Qed.

Lemma emptied_inv db1 db2 : emptied db1 db2 -> outbox_inv o db1 -> outbox_inv o db2.
Proof. intros [f ->]. apply filtered_inv. Qed.

Lemma emptied_row db1 db2 row : emptied db1 db2 -> row ∈ outbox db2 -> row ∈ outbox db1.
Proof. intros [f ->] Hr. cbn in Hr. rewrite list_elem_of_In in *. by apply filter_In in Hr as [? _]. Qed.

(** The message has a pending row. *)
Definition pending_id db id : Prop :=
  exists row, row ∈ outbox db /\ o_message_id row = uuid_String id /\ is_pending row = true.

Lemma pending_emptied db1 db2 id : emptied db1 db2 -> pending_id db2 id -> pending_id db1 id.
Proof. intros He (row & Hr & H). exists row. split; [by eapply emptied_row|done]. Qed.

(** ** What the reads return *)

(** The item is what the row stores. *)
Record stored_as row (it : Item uuid) : Prop := {
  sa_message : o_message_id row = uuid_String (i_MessageID it);
  sa_topic : i_Topic it = o_topic row;
  sa_payload : i_Payload it = o_payload row;
  sa_status : i_Status it = o_status row;
}.

Lemma scan_stored row (it : Item uuid) : row_ok (uuid := uuid) o row -> scanOutboxItem row = Ok it -> stored_as row it.
Proof.
  intros Hok H. unfold scanOutboxItem in H. inv_ok H. subst it.
  destruct (ro_batch _ _ Hok) as (b & Hb). constructor; cbn; try done. rewrite (rb_message _ _ Hb) in *.
  match goal with H : or_err _ (uuid_Parse (uuid_String _)) = _ |- _ => rewrite uuid_Parse_String in H; by injection H as -> end.
Qed.

Lemma pending_unique db row1 row2 : outbox_inv (uuid := uuid) o db -> row1 ∈ outbox db -> row2 ∈ outbox db ->
  o_message_id row1 = o_message_id row2 -> row1 = row2.
Proof.
  intros Hinv H1 H2 E. apply list_elem_of_lookup in H1 as [i Hi]. apply list_elem_of_lookup in H2 as [j Hj].
  assert (Hs := inv_order _ _ Hinv). destruct (lt_eq_lt_dec i j) as [[Hlt| ->]|Hlt].
  - by destruct (StronglySorted_lookup _ _ _ _ _ _ Hs Hlt Hi Hj) as (_ & ? & _).
  - congruence.
  - by destruct (StronglySorted_lookup _ _ _ _ _ _ Hs Hlt Hj Hi) as (_ & ? & _).
Qed.

Lemma rowStillPending_ok (read : OutboxWeather * OutboxDB) id b : outbox_inv (uuid := uuid) o read.2 ->
  rowStillPending o read id = Ok b -> (b = true <-> pending_id read.2 id).
Proof.
  destruct read as [w db]. cbn [snd]. intros Hinv. unfold rowStillPending, Lookup, run_query. cbn [fst snd].
  destruct (tx_bind _ _ _ _) as [[[r db1] rs]|err] eqn:E; [|done].
  apply tx_bind_ok in E as (row & db2 & rs2 & H1 & E). apply query_ok in H1 as [-> ->].
  destruct (List.find _ _) as [row|] eqn:Ef.
  - apply find_some in Ef as [Hin Hf]. apply list_elem_of_In in Hin. gobool.
    destruct (scanOutboxItem row) as [it|] eqn:Es; [|done]. injection E as <- <- <-. intros [= <-].
    assert (Hok := inv_rows _ _ Hinv). rewrite list.Forall_forall in Hok.
    rewrite (sa_status _ _ (scan_stored _ _ (Hok _ Hin) Es)). split.
    + intros Hb. by exists row.
    + intros (row' & Hin' & Hid & Hp). rewrite (pending_unique _ row row' Hinv Hin Hin'); [done|congruence].
  - injection E as <- <- <-. intros [= <-]. split; [done|]. intros (row & Hin & Hid & _).
    assert (Hok := inv_rows _ _ Hinv). rewrite list.Forall_forall in Hok.
    apply list_elem_of_In in Hin. pose proof (find_none _ _ Ef _ Hin) as Hn. cbn in Hn.
    apply list_elem_of_In in Hin. destruct (ro_bound _ _ (Hok _ Hin)) as [Hb _].
    rewrite Hb, Hid, !bool_decide_true in Hn by done. done.
Qed.

Lemma PendingAfter_ok w afterID limit db (items : list (Item uuid)) : PendingAfter o w afterID limit db = Ok items ->
  map_res scanOutboxItem (take (Z.to_nat limit) (List.filter (fun row => afterID <? o_id row) (pending_of o db)))
  = Ok items.
Proof.
  unfold PendingAfter. destruct (_ || _); [done|]. unfold run_query.
  destruct (tx_bind _ _ _ _) as [[[r db1] rs]|err] eqn:E; [|done]. intros [= ->].
  apply tx_bind_ok in E as (rows & db2 & rs2 & H1 & E). apply query_ok in H1 as [-> ->].
  unfold scan_rows in E. destruct (map_res _ _); [|done]. by apply query_ok in E as [-> _].
Qed.

Lemma page_row w afterID limit db (items : list (Item uuid)) it : outbox_inv (uuid := uuid) o db ->
  PendingAfter o w afterID limit db = Ok items -> it ∈ items ->
  exists row, row ∈ outbox db /\ is_pending row = true /\ stored_as row it.
Proof.
  intros Hinv Hp Hin. apply PendingAfter_ok in Hp. apply list_elem_of_lookup in Hin as [i Hi].
  destruct (map_res_lookup _ _ _ _ _ Hp Hi) as (row & Hrow & Hs). exists row.
  apply list_elem_of_lookup_2, elem_of_take in Hrow as (j & Hrow & _). apply list_elem_of_lookup_2 in Hrow.
  rewrite list_elem_of_In in Hrow. apply filter_In in Hrow as [Hrow _].
  unfold pending_of in Hrow. apply filter_In in Hrow as [Hrow Hf]. apply andb_prop in Hf as [_ Hf].
  apply list_elem_of_In in Hrow. split; [done|]. split; [done|].
  assert (Hok := inv_rows _ _ Hinv). rewrite list.Forall_forall in Hok. by apply scan_stored; [apply Hok|].
Qed.

(** ** The invariant *)

Definition owners s : list uuid := map pub_id (invocations s).

(** The bytes handed to the publisher are those of a row. *)
Definition published_row (rows : list OutboxRow) (p : publication uuid) : Prop :=
  exists row, row ∈ rows /\ o_message_id row = uuid_String (pub_id p)
              /\ pub_topic p = o_topic row /\ pub_payload p = o_payload row.

(** [ever] lists every row the file ever held. *)
Record sched_inv (ever : list OutboxRow) s db : Prop := {
  si_key : forall id e, inflight s !! id = Some e -> i_MessageID (item e) = id;
  si_size : Z.of_nat (size (inflight s)) <= c_maxInflight (cfg s);
  si_owner : forall id e, inflight s !! id = Some e -> (state e = statePublishing <-> id ∈ owners s);
  si_single : NoDup (owners s);
  si_orphan : forall id, id ∈ owners s -> inflight s !! id = None -> ~ pending_id db id;
  si_running : forall p, p ∈ invocations s -> p ∈ started_log s;
  si_started : forall id e, inflight s !! id = Some e -> id ∈ map pub_id (started_log s);
  si_verbatim : Forall (published_row ever) (started_log s);
  si_entry : forall id e, inflight s !! id = Some e -> exists row, row ∈ ever /\ stored_as row (item e);
  si_attempts : publishAttempts s = Z.of_nat (length (started_log s));
  si_ever : forall row, row ∈ outbox db -> row ∈ ever;
  si_width : in_int64 (c_sampleIntervalUS (cfg s));
  si_finite : 0 < finiteTarget s ->
    uniqueEnqueued s <= finiteTarget s /\ (genDone s = false -> uniqueEnqueued s < finiteTarget s)
    /\ (genDone s = true -> uniqueEnqueued s = finiteTarget s);
}.

(** A change of the other fields. *)
Ltac same_inv := match goal with H : sched_inv _ _ _ |- _ => destruct H; constructor; assumption end.

Lemma inv_emptied ever s db1 db2 : sched_inv ever s db1 -> emptied db1 db2 -> sched_inv ever s db2.
Proof.
  intros [] He. constructor; try done.
  - intros id Hid Hnone Hp. by eapply si_orphan0, pending_emptied.
  - intros row Hr. by eapply si_ever0, emptied_row.
Qed.

Lemma inv_delete ever s db id : sched_inv ever s db -> ~ pending_id db id ->
  sched_inv ever (set_inflight (delete id (inflight s)) s) db.
Proof.
  intros [] Hgone. constructor; cbn [set_inflight inflight invocations started_log cfg publishAttempts
    finiteTarget uniqueEnqueued genDone]; try done.
  - intros id' e [_ H]%lookup_delete_Some. eauto.
  - rewrite map_size_delete. destruct (inflight s !! id); unfold Datatypes.id; lia.
  - intros id' e [_ H]%lookup_delete_Some. by apply si_owner0.
  - intros id' Ho [<-|Hn]%lookup_delete_None; [done|]. by apply si_orphan0.
  - intros id' e [_ H]%lookup_delete_Some. eauto.
  - intros id' e [_ H]%lookup_delete_Some. eauto.
Qed.

(** An entry changes its state and deadline only. *)
Lemma inv_set_entry ever s db id e e' : sched_inv ever s db -> inflight s !! id = Some e -> item e' = item e ->
  (state e' = statePublishing <-> id ∈ owners s) -> sched_inv ever (set_entry id e' s) db.
Proof.
  intros [] He Hitem Hown. constructor; cbn [set_entry set_inflight inflight invocations started_log cfg publishAttempts
    finiteTarget uniqueEnqueued genDone]; try done.
  - intros id' x [[<- <-]|[_ H]]%lookup_insert_Some; [rewrite Hitem|]; eauto.
  - rewrite map_size_insert_Some by (by rewrite He). done.
  - intros id' x [[<- <-]|[_ H]]%lookup_insert_Some; [done|]. by apply si_owner0.
  - intros id' Ho [Hn _]%lookup_insert_None. by apply si_orphan0.
  - intros id' x [[<- <-]|[_ H]]%lookup_insert_Some; eauto.
  - intros id' x [[<- <-]|[_ H]]%lookup_insert_Some; [rewrite Hitem|]; eauto.
Qed.

(** An entry without an invocation, or a new one with a free slot, starts one. *)
Lemma inv_start ever s db id e : sched_inv ever s db -> i_MessageID (item e) = id -> id ∉ owners s ->
  (exists row, row ∈ ever /\ stored_as row (item e)) ->
  is_Some (inflight s !! id) \/ 0 < free_slots s ->
  sched_inv ever (startPublish id e s) db.
Proof.
  intros [] Hid Hno (row & Hrow & Hst) Hroom.
  set (p := mkPublication (i_MessageID (item e)) (i_Topic (item e)) (i_Payload (item e))).
  assert (Hp : published_row ever p).
  { exists row. destruct Hst as [Hm Ht Hpay _]. split_and!; done. }
  assert (Hpid : pub_id p = id) by done.
  constructor; cbn [startPublish launch set_entry set_inflight inflight invocations started_log cfg publishAttempts
    finiteTarget uniqueEnqueued genDone]; fold p; unfold owners;
    cbn [startPublish launch set_entry set_inflight invocations]; fold p; try done.
  - intros id' x [[<- <-]|[_ H]]%lookup_insert_Some; [done|eauto].
  - unfold free_slots in Hroom. destruct (inflight s !! id) eqn:E.
    + by rewrite map_size_insert_Some by (by rewrite E).
    + rewrite map_size_insert_None by done. destruct Hroom as [[? ?]|?]; [done|lia].
  - intros id' x Hx. rewrite map_app, elem_of_app. cbn [map]. rewrite list_elem_of_singleton.
    apply lookup_insert_Some in Hx as [[<- <-]|[Hne H]]; [split; [intros _; by right|done]|].
    rewrite (si_owner0 _ _ H). split; [tauto|]. intros [|E]; [done|]. congruence.
  - rewrite map_app. apply list.NoDup_app. split; [done|]. split; [|apply list.NoDup_singleton].
    intros x Hx Hx'%list_elem_of_singleton. apply Hno. rewrite <- Hpid, <- Hx'. exact Hx.
  - intros id'. rewrite map_app, elem_of_app. intros Ho [Hn Hne]%lookup_insert_None.
    cbn [map] in Ho. rewrite list_elem_of_singleton in Ho. destruct Ho as [Ho|Ho]; [by apply si_orphan0|congruence].
  - intros x. rewrite !elem_of_app. intros [|]; [left; auto|by right].
  - intros id' x. rewrite map_app, elem_of_app. intros [[<- <-]|[_ H]]%lookup_insert_Some; [right|left; eauto].
    change (map pub_id [p]) with [pub_id p]. rewrite Hpid. left.
  - apply list.Forall_app. split; [done|]. by constructor.
  - intros id' x [[<- <-]|[_ H]]%lookup_insert_Some; [by exists row|eauto].
  - rewrite length_app. cbn [length]. lia.
Qed.

(** ** The passes *)

Lemma for_entries_inv (P : Scheduler uuid -> Prop) body order s r s' :
  (forall id s r s', P s -> body id s = (r, s') -> P s') -> P s -> for_entries body order s = (r, s') -> P s'.
Proof.
  intros Hbody. revert s. induction order as [|id order IH]; intros s Hs H; cbn in H; [by injection H as _ <-|].
  destruct (body id s) as [[err|] s1] eqn:E; [injection H as _ <-; by eapply Hbody|].
  eapply IH; [|done]. by eapply Hbody.
Qed.

Lemma not_pending_later (read : OutboxWeather * OutboxDB) db id : outbox_inv (uuid := uuid) o read.2 ->
  emptied read.2 db -> rowStillPending o read id = Ok false -> ~ pending_id db id.
Proof.
  intros Hinv He H Hp. apply (rowStillPending_ok _ _ _ Hinv) in H. by apply (pending_emptied _ _ _ He), H in Hp.
Qed.

Lemma inv_scheduleBackoff ever s db now r id e : sched_inv ever s db -> inflight s !! id = Some e ->
  id ∉ owners s -> sched_inv ever (scheduleBackoff now r id e s) db.
Proof. intros Hinv He Hno. by apply (inv_set_entry _ _ _ _ e). Qed.

Lemma retry_entry_inv pe ever id s db r s' : (forall id, outbox_inv (uuid := uuid) o (pe_lookup pe id).2) ->
  (forall id, emptied (pe_lookup pe id).2 db) -> sched_inv ever s db ->
  retry_entry o pe id s = (r, s') -> sched_inv ever s' db.
Proof.
  intros Hin He Hs. unfold retry_entry. destruct (inflight s !! id) as [e|] eqn:Ee; [|by intros [= _ <-]].
  destruct (_ || _) eqn:Eb; [by intros [= _ <-]|]. gobool.
  assert (Hno : id ∉ owners s) by (rewrite <- (si_owner _ _ _ Hs _ _ Ee); done).
  assert (Hid := si_key _ _ _ Hs _ _ Ee). destruct (state e).
  - done.
  - destruct (rowStillPending _ _ _) as [[]|] eqn:El; intros [= _ <-].
    + by apply inv_scheduleBackoff.
    + apply inv_delete; [done|]. rewrite Hid in El. by eapply not_pending_later.
    + done.
  - intros [= _ <-]. apply inv_start; try done; [by eapply si_entry|by left].
Qed.

(** One row of a page that is pending. *)
Definition waiting_row ever db (it : Item uuid) : Prop :=
  pending_id db (i_MessageID it) /\ exists row, row ∈ ever /\ stored_as row it.

Lemma admit_items_inv ever db items s b s' : Forall (waiting_row ever db) items -> sched_inv ever s db ->
  admit_items items s = (b, s') -> sched_inv ever s' db.
Proof.
  intros Hit. revert s. induction Hit as [|it items [Hp Hrow] _ IH]; intros s Hs H; cbn in H; [by injection H as _ <-|].
  destruct (Z.leb_spec (free_slots s) 0); [by injection H as _ <-|].
  destruct (bool_decide _) eqn:E; [by eapply IH|]. gobool. eapply IH; [|done].
  apply eq_None_not_Some in E. apply inv_start; try done; [|by right].
  intros Ho. by apply (si_orphan _ _ _ Hs _ Ho E).
Qed.

Lemma page_waiting ever w afterID limit db (items : list (Item uuid)) s : outbox_inv (uuid := uuid) o db ->
  sched_inv ever s db -> PendingAfter o w afterID limit db = Ok items -> Forall (waiting_row ever db) items.
Proof.
  intros Hinv Hs Hp. apply list.Forall_forall. intros it Hin.
  destruct (page_row _ _ _ _ _ _ Hinv Hp Hin) as (row & Hrow & Hpend & Hst). split.
  - exists row. split_and!; [done|apply (sa_message _ _ Hst)|done].
  - exists row. split; [by eapply si_ever|done].
Qed.

(** The reads of a pass see the file between the start of the pass ([db0]) and
    its enqueue ([db]), each read no earlier than the ones before it, and a
    fresh message identifier has never been used. *)
Record pass_ok (ever : list OutboxRow) (pe : PassEnv uuid) db0 db : Prop := {
  po_lookup : forall id, emptied db0 (pe_lookup pe id).2;
  po_page : forall id n, emptied (pe_lookup pe id).2 (pe_page pe n).2;
  po_pages : forall n m, (n <= m)%nat -> emptied (pe_page pe n).2 (pe_page pe m).2;
  po_enqueue : forall n, emptied (pe_page pe n).2 db;
  po_fresh : forall id, pe_newUUID pe = Ok id -> uuid_String id ∉ map o_message_id ever;
}.

Lemma admit_pages_inv pe ever pages : (forall n, outbox_inv (uuid := uuid) o (pe_page pe n).2) ->
  (forall n m, (n <= m)%nat -> emptied (pe_page pe n).2 (pe_page pe m).2) ->
  forall page cursor s r s', sched_inv ever s (pe_page pe page).2 ->
  admit_pages o pe page pages cursor s = (r, s') -> exists n, sched_inv ever s' (pe_page pe n).2.
Proof.
  intros Hin He. induction pages as [|pages IH]; intros page cursor s r s' Hs H; cbn [admit_pages] in H;
    [injection H as _ <-; eauto|].
  destruct (_ <=? 0); [injection H as _ <-; eauto|].
  destruct (PendingAfter _ _ _ _ _) as [items|] eqn:Ep; [|injection H as _ <-; eauto].
  assert (Hw := page_waiting _ _ _ _ _ _ _ (Hin page) Hs Ep).
  destruct items as [|it items']; [injection H as _ <-; eauto|]. set (items := it :: items') in *.
  destruct (admit_items items s) as [b s1] eqn:Ea.
  assert (Hs1 := admit_items_inv _ _ _ _ _ _ Hw Hs Ea).
  destruct b; [injection H as _ <-; eauto|]. destruct (_ <? _); [injection H as _ <-; eauto|].
  eapply IH; [|exact H]. eapply inv_emptied; [done|]. apply He. lia.
Qed.

(** ** Generation *)

(** [Enqueue] fails before its commit, commits, or does not learn whether it did. *)
Inductive enqueue_case w (req : EnqueueRequest uuid) db : res error (Item uuid) -> OutboxDB -> Prop :=
| case_failed err : enqueue_case w req db (Err err) db
| case_enqueued it db' : enqueued o (ow_now w) req db it db' -> enqueue_case w req db (Ok it) db'
| case_unknown it db' : enqueued o (ow_now w) req db it db' ->
    enqueue_case w req db (Err (EWrap "commit" ErrOutboxCommitUnknown)) db'.

Lemma Enqueue_case w req db r db' : Enqueue o w req db = (r, db') -> enqueue_case w req db r db'.
Proof.
  unfold Enqueue, run_tx. destruct (ow_begin w); [|intros [= <- <-]; constructor].
  destruct (enqueue_body _ _ _ _ _) as [[[it working] rs]|] eqn:E; [|intros [= <- <-]; constructor].
  apply enqueue_body_ok in E. destruct (ow_commit w) as [|cause durable]; intros [= <- <-]; [by constructor|].
  destruct durable; [by eapply case_unknown|constructor].
Qed.

Lemma owner_ever ever s db id : sched_inv ever s db -> id ∈ owners s -> uuid_String id ∈ map o_message_id ever.
Proof.
  intros Hs Ho. apply list_elem_of_fmap in Ho as (p & -> & Hp).
  apply (si_running _ _ _ Hs) in Hp. assert (Hv := si_verbatim _ _ _ Hs). rewrite list.Forall_forall in Hv.
  destruct (Hv _ Hp) as (row & Hrow & Hm & _). apply list_elem_of_fmap. by exists row.
Qed.

Lemma entry_ever ever s db id e : sched_inv ever s db -> inflight s !! id = Some e ->
  uuid_String id ∈ map o_message_id ever.
Proof.
  intros Hs He. destruct (si_entry _ _ _ Hs _ _ He) as (row & Hrow & Hst). apply list_elem_of_fmap. exists row.
  split; [|done]. rewrite (sa_message _ _ Hst). by rewrite (si_key _ _ _ Hs _ _ He).
Qed.

(** The row of an enqueue that may have committed joins the history. *)
Lemma inv_enqueued ever s db now (req : EnqueueRequest uuid) it db' : sched_inv ever s db ->
  uuid_String (q_MessageID req) ∉ map o_message_id ever -> enqueued o now req db it db' ->
  sched_inv (ever ++ [item_row it (q_SampleIntervalUS req)]) s db'.
Proof.
  intros Hs Hfresh [_ _ _ _ _ _ _ Hit ->]. set (row := item_row it _).
  assert (Hrow : o_message_id row = uuid_String (q_MessageID req)) by (unfold row; by rewrite Hit).
  assert (Hsub : forall r, r ∈ ever -> r ∈ ever ++ [row]) by (intros; apply elem_of_app; by left).
  assert (Hs' := Hs). destruct Hs. constructor; try done.
  - intros id Ho Hn (r & Hr & Hm & Hp). cbn [outbox] in Hr. apply elem_of_app in Hr as [Hr|Hr].
    + apply (si_orphan0 _ Ho Hn). by exists r.
    + apply list_elem_of_singleton in Hr as ->. apply Hfresh. rewrite <- Hrow, Hm. by eapply owner_ever.
  - eapply list.Forall_impl; [exact si_verbatim0|]. intros p (r & Hr & H). exists r. split; [auto|done].
  - intros id e He. destruct (si_entry0 _ _ He) as (r & Hr & H). exists r. split; [auto|done].
  - cbn [outbox]. intros r. rewrite !elem_of_app. intros [|]; [left; auto|by right].
Qed.

(** The history after a pass that leaves [db]: at most one row more, of a message
    never seen before. *)
Definition grown db ever ever' : Prop :=
  ever' = ever \/ exists row, ever' = ever ++ [row] /\ row ∈ outbox db /\ o_message_id row ∉ map o_message_id ever.

Lemma enqueued_grown ever now (req : EnqueueRequest uuid) db it db' : enqueued o now req db it db' ->
  uuid_String (q_MessageID req) ∉ map o_message_id ever ->
  grown db' ever (ever ++ [item_row it (q_SampleIntervalUS req)]).
Proof.
  intros [_ _ _ _ _ _ _ Hit ->] Hf. right. exists (item_row it (q_SampleIntervalUS req)).
  split; [done|]. split; [cbn; apply elem_of_app; right; left|]. by rewrite Hit.
Qed.

Lemma generate_inv pe ever s db r s' db' : sched_inv ever s db -> genDone s = false -> 0 < free_slots s ->
  (forall id, pe_newUUID pe = Ok id -> uuid_String id ∉ map o_message_id ever) ->
  generate o pe s db = (r, s', db') -> exists ever', grown db' ever ever' /\ sched_inv ever' s' db'.
Proof.
  intros Hs Hgen Hfree Hfresh. unfold generate. cbv zeta.
  assert (Hs0 : sched_inv ever (set_nextGenAt (Add (UTC (pe_now pe)) (cadence s)) s) db) by same_inv.
  set (s0 := set_nextGenAt _ s) in *.
  destruct (pe_newUUID pe) as [id|] eqn:Eid; [|intros [= _ <- <-]; exists ever; split; [by left|done]].
  specialize (Hfresh id eq_refl). set (req := generate_request pe s0 id).
  destruct (Enqueue o (pe_enqueue pe) req db) as [er db1] eqn:Ee. apply Enqueue_case in Ee.
  destruct Ee as [err|it db1 Hen|it db1 Hen].
  - case_tests; intros [= _ <- <-]; exists ever; (split; [by left|]); [same_inv|done..].
  - intros [= _ <- <-]. exists (ever ++ [item_row it (q_SampleIntervalUS req)]). split; [exact (enqueued_grown _ _ req _ it _ Hen Hfresh)|].
    assert (Hi : i_MessageID it = id) by (destruct Hen as [_ _ _ _ _ _ _ -> _]; done).
    assert (Hnone : inflight s0 !! id = None).
    { destruct (inflight s0 !! id) eqn:E; [|done]. exfalso. apply Hfresh. by eapply (entry_ever _ s0). }
    assert (Hown : id ∉ owners s0) by (intros Ho; apply Hfresh; by eapply (owner_ever _ s0)).
    assert (Hs1 := inv_enqueued _ s0 _ _ req it _ Hs0 Hfresh Hen).
    assert (Hadm : sched_inv (ever ++ [item_row it (q_SampleIntervalUS req)]) (admit_row it s0) db1).
    { apply inv_start; [done|done|by rewrite Hi| |by right]. exists (item_row it (q_SampleIntervalUS req)).
      split; [apply elem_of_app; right; left|]. constructor; try done.
      destruct Hen as [_ _ _ _ _ _ _ -> _]. done. }
    pose proof (si_finite _ _ _ Hs) as Hfin.
    cbn [admit_row startPublish launch set_entry set_inflight set_uniqueEnqueued finiteTarget genDone uniqueEnqueued].
    change (genDone s0) with (genDone s). change (finiteTarget s0) with (finiteTarget s).
    change (uniqueEnqueued s0) with (uniqueEnqueued s). rewrite Hgen. cbn [negb]. rewrite andb_true_r.
    destruct ((0 <? finiteTarget s) && (finiteTarget s <=? uniqueEnqueued s + 1)) eqn:Ec; gobool;
      destruct Hadm; (constructor; try assumption); cbn; change (finiteTarget s0) with (finiteTarget s);
      change (uniqueEnqueued s0) with (uniqueEnqueued s); change (genDone s0) with (genDone s);
      intros Hpos; destruct (Hfin Hpos) as (H1 & H2 & H3); specialize (H2 Hgen).
    + split_and!; [lia|done|lia].
    + split_and!; [lia..|congruence].
  - cbn. intros [= _ <- <-]. exists (ever ++ [item_row it (q_SampleIntervalUS req)]). split; [exact (enqueued_grown _ _ req _ it _ Hen Hfresh)|].
    exact (inv_enqueued _ s0 _ _ req it _ Hs0 Hfresh Hen).
Qed.

(** ** The loop *)

Lemma reconcile_inv pe ever s db0 db r s' db' : outbox_inv (uuid := uuid) o db0 -> pass_ok ever pe db0 db ->
  sched_inv ever s db0 -> reconcile o pe s db = (r, s', db') ->
  exists ever', grown db' ever ever' /\ sched_inv ever' s' db'.
Proof.
  intros Hinv [Hl Hp Hpp Hd Hfresh] Hs. unfold reconcile.
  assert (Hil : forall id, outbox_inv (uuid := uuid) o (pe_lookup pe id).2) by (intros; by eapply emptied_inv).
  assert (Hip : forall n, outbox_inv (uuid := uuid) o (pe_page pe n).2)
    by (intros n; by eapply emptied_inv, (Hil (uuid_Nil))).
  assert (H0 : emptied db0 (pe_page pe 0).2) by (eapply emptied_trans; [apply (Hl uuid_Nil)|apply Hp]).
  assert (Hbody : forall r s' db', reconcile_body o pe s db = (r, s', db') ->
    exists ever', grown db' ever ever' /\ sched_inv ever' s' db').
  { clear r s' db'. intros r s' db'. unfold reconcile_body.
    assert (Hsd : sched_inv ever s db) by (eapply inv_emptied; [done|]; by eapply emptied_trans).
    destruct (negb (pe_ready pe)); [intros [= _ <- <-]; exists ever; split; [by left|same_inv]|].
    destruct (processDueRetries o pe s) as [r1 s1] eqn:E1.
    assert (Hs1 : sched_inv ever s1 (pe_page pe 0).2).
    { unfold processDueRetries in E1. revert E1. apply (for_entries_inv (fun s => sched_inv ever s (pe_page pe 0).2)).
      - intros id x rx x' Hx. apply retry_entry_inv; [done|intros; apply Hp|done].
      - exact (inv_emptied _ _ _ _ Hs H0). }
    destruct r1 as [err|]; [intros [= _ <- <-]; exists ever; split; [by left|exact (inv_emptied _ _ _ _ Hs1 (Hd 0%nat))]|].
    destruct (admitPending o pe s1) as [r2 s2] eqn:E2.
    assert (Hs2 : sched_inv ever s2 db).
    { unfold admitPending in E2. destruct (_ <=? 0); [injection E2 as _ <-; exact (inv_emptied _ _ _ _ Hs1 (Hd 0%nat))|].
      destruct (admit_pages_inv _ _ _ Hip Hpp _ _ _ _ _ Hs1 E2) as (n & Hn). exact (inv_emptied _ _ _ _ Hn (Hd n)). }
    destruct r2 as [more|err]; [|intros [= _ <- <-]; exists ever; split; [by left|done]].
    set (s3 := set_genReady _ s2). assert (Hs3 : sched_inv ever s3 db) by same_inv.
    destruct (genReady s3 && _) eqn:Eg; [|intros [= _ <- <-]; exists ever; split; [by left|done]].
    apply andb_prop in Eg as [Eg _]. unfold s3 in Eg. cbn in Eg. gobool. by apply generate_inv. }
  destruct (reconcile_body o pe s db) as [[r1 s1] db1]. intros [= _ <- <-].
  destruct (Hbody _ _ _ eq_refl) as (ever' & Hg & Hi). exists ever'. split; [done|]. unfold observe. same_inv.
Qed.

Lemma sync_inv ever s db order read ended : sched_inv ever s db ->
  (forall id, outbox_inv (uuid := uuid) o (read id).2 /\ emptied (read id).2 db) ->
  sched_inv ever (syncInflight o order read ended s) db.
Proof.
  intros Hs Hread. unfold syncInflight. destruct (for_entries _ order s) as [r s1] eqn:E.
  assert (Hs1 : sched_inv ever s1 db).
  { revert E. apply (for_entries_inv (fun s => sched_inv ever s db)); [|done].
    intros id x rx x' Hx. unfold sync_entry. destruct (Hread id) as [Hi He].
    destruct (rowStillPending o (read id) id) as [[]|] eqn:El; intros [= _ <-]; try done.
    apply inv_delete; [done|]. by eapply not_pending_later. }
  destruct r; [destruct ended; [done|same_inv]|same_inv].
Qed.

Lemma owners_rest id (l : list (publication uuid)) x :
  x ∈ map pub_id (List.filter (fun p => negb (bool_decide (pub_id p = id))) l)
  <-> x ∈ map pub_id l /\ x <> id.
Proof.
  rewrite !list_elem_of_fmap. split.
  - intros (p & -> & Hp). apply list_elem_of_In, filter_In in Hp as [Hp Hf]. gobool.
    split; [|done]. exists p. by rewrite list_elem_of_In.
  - intros [(p & -> & Hp) Hne]. exists p. split; [done|]. apply list_elem_of_In, filter_In.
    split; [by apply list_elem_of_In|]. by gobool.
Qed.

Lemma owners_rest_NoDup id (l : list (publication uuid)) : NoDup (map pub_id l) ->
  NoDup (map pub_id (List.filter (fun p => negb (bool_decide (pub_id p = id))) l)).
Proof.
  induction l as [|p l IH]; cbn; [done|]. intros [Hn Hd]%list.NoDup_cons.
  destruct (bool_decide _); cbn; [by apply IH|]. apply list.NoDup_cons. split; [|by apply IH].
  rewrite owners_rest. tauto.
Qed.

(** A returned invocation settles its entry, or its entry is gone. *)
Lemma inv_result ever s db (a : arrival uuid) : sched_inv ever s db -> sched_inv ever (take_result a s) db.
Proof.
  intros Hs. unfold take_result. destruct (bool_decide _) eqn:Ei; [|done]. gobool.
  set (s0 := invocation_returned _ s). set (id := ar_id a) in *.
  assert (Hother : forall x, x ∈ owners s0 <-> x ∈ owners s /\ x <> id) by (intros; apply owners_rest).
  destruct (inflight s !! id) as [e|] eqn:Ee.
  - assert (Hst : state e = statePublishing) by by apply (si_owner _ _ _ Hs _ _ Ee).
    assert (Hset : forall e', item e' = item e -> state e' <> statePublishing -> sched_inv ever (set_entry id e' s0) db).
    { intros e' Hitem Hne. destruct Hs. constructor; unfold owners;
        cbn [s0 set_entry set_inflight invocation_returned inflight invocations started_log cfg publishAttempts
             finiteTarget uniqueEnqueued genDone]; try done.
      - intros id' x [[<- <-]|[_ H]]%lookup_insert_Some; [rewrite Hitem|]; eauto.
      - by rewrite map_size_insert_Some by (by rewrite Ee).
      - intros id' x Hx. rewrite owners_rest. fold id. apply lookup_insert_Some in Hx as [[<- <-]|[Hne' H]].
        + split; [done|]. by intros [_ ?].
        + rewrite (si_owner0 _ _ H). unfold owners. split; [by split|by intros [? _]].
      - by apply owners_rest_NoDup.
      - intros id' Ho [Hn _]%lookup_insert_None. apply owners_rest in Ho as [Ho _]. by apply si_orphan0.
      - intros p Hp. apply list_elem_of_In, filter_In in Hp as [Hp _]. apply si_running0. by apply list_elem_of_In.
      - intros id' x [[<- <-]|[_ H]]%lookup_insert_Some; eauto.
      - intros id' x [[<- <-]|[_ H]]%lookup_insert_Some; [rewrite Hitem|]; eauto. }
    unfold onPublishResult. cbn [res_messageID res_err]. change (inflight s0) with (inflight s). fold id. rewrite Ee.
    rewrite bool_decide_true by done. cbn [negb]. destruct (ar_err a); by apply Hset.
  - unfold onPublishResult. cbn [res_messageID]. change (inflight s0) with (inflight s). fold id. rewrite Ee.
    destruct Hs. constructor; try assumption; unfold owners; cbn [s0 invocation_returned inflight invocations].
    + intros id' e He. rewrite owners_rest. fold id. rewrite (si_owner0 _ _ He). unfold owners.
      split; [|by intros [? _]]. intros Ho. split; [done|]. congruence.
    + by apply owners_rest_NoDup.
    + intros id' Ho Hn. apply owners_rest in Ho as [Ho _]. by apply si_orphan0.
    + intros p Hp. apply list_elem_of_In, filter_In in Hp as [Hp _]. apply si_running0. by apply list_elem_of_In.
Qed.

Lemma wait_inv ever s db now arrivals : sched_inv ever s db -> sched_inv ever (waitPublishes now arrivals s) db.
Proof.
  intros Hs. unfold waitPublishes. destruct (_ =? 0); [done|]. destruct (_ <=? 0); [done|].
  revert s Hs. induction arrivals as [|a arrivals IH]; intros s Hs; cbn; [done|].
  destruct (_ =? 0); [done|]. by apply IH, inv_result.
Qed.

Lemma fail_inv ever s db err now arrivals : sched_inv ever s db -> sched_inv ever (fail err now arrivals s).2 db.
Proof. intros Hs. apply wait_inv. same_inv. Qed.
End inv.
