(* ===== verification/SchedulerRun.v ===== *)
(** * What the scheduler promises

    Bounded retry delays, no lost wake-ups, oldest-first admission without
    starvation, generation only when nothing older waits, and a finite run that
    is complete only when every batch was acknowledged. *)

From S2P Require Import Prelude GoStrings GoTime GoFloat Uuid Identity Telemetry Decode Validation Message Txn.
From S2P Require Import Batch Outbox OutboxSpec OutboxQueue Scheduler SchedulerInv.
#[local] Open Scope Z_scope.

(** ** Retry delays *)

Lemma double_capped_eq retries d max : 0 < d <= max -> max <= 4611686018427387904 ->
  double_capped retries d max = Z.min max (d * 2 ^ Z.of_nat retries).
Proof.
  revert d. induction retries as [|retries IH]; intros d Hd Hmax; cbn [double_capped]; [change (2 ^ Z.of_nat 0) with 1; lia|].
  rewrite Nat2Z.inj_succ, Z.pow_succ_r by lia. assert (0 < 2 ^ Z.of_nat retries) by (apply Z.pow_pos_nonneg; lia).
  destruct (Z.leb_spec max d); [nia|].
  assert (E : int64_mul d 2 = d * 2).
  { unfold int64_mul. apply wrap64_id. unfold in_int64, min_int64, max_int64. lia. }
  rewrite E. destruct (Z.ltb_spec max (d * 2)); rewrite IH by lia; nia.
Qed.

Lemma jitter_bounds max d f : 0 <= max ->
  let out := duration_of_f64 (f64_mul (f64_of_duration d) f) in
  let out := if max <? out then max else out in
  0 <= (if out <? 0 then 0 else out) <= max.
Proof. intros Hm. cbv zeta. case_tests; gobool; lia. Qed.

(** The retry delay never exceeds the configured maximum and is never
    negative, for any retry count and any random number; before the jitter it
    is the minimum doubled once per retry, capped at the maximum, and the
    doubling never overflows for maxima up to 2^62 ns (146 years). *)
Theorem retryDelay_bounded min max retries r : 0 < min <= max -> max <= 4611686018427387904 ->
  0 <= retryDelay min max retries r <= max
  /\ double_capped retries min max = Z.min max (min * 2 ^ Z.of_nat retries).
Proof.
  intros Hmin Hmax. split; [|by apply double_capped_eq]. unfold retryDelay. cbv zeta.
  rewrite (proj2 (Z.leb_gt min 0)), (proj2 (Z.ltb_ge max min)) by lia. apply jitter_bounds. lia.
Qed.

Section spec.
Context {uuid : Type} `{!UuidLib uuid} `{!UuidLaws uuid}.
Variable o : Outbox.
Implicit Types (s : Scheduler uuid) (e : inflightEntry uuid) (db : OutboxDB) (id : uuid) (ever : list OutboxRow).
Implicit Types pe : PassEnv uuid.

(** ** The wake timer *)

(** [next] is no later than [t], when [t] is set. *)
Definition not_after (next t : Time) : Prop := IsZero t = true \/ (IsZero next = false /\ unix_ns next <= unix_ns t).

Lemma consider_new next t : not_after (consider next t) t.
Proof.
  unfold not_after, consider. destruct (IsZero t) eqn:Et; [by left|]. right.
  destruct (IsZero next) eqn:En; cbn; [by split|]. unfold Before. destruct (Z.ltb_spec (unix_ns t) (unix_ns next)).
  - split; [done|lia].
  - by split.
Qed.

Lemma consider_keeps next t u : not_after next u -> not_after (consider next t) u.
Proof.
  unfold not_after, consider. intros [Hu|[Hn Hle]]; [by left|]. right.
  destruct (IsZero t) eqn:Et; [by split|]. rewrite Hn. cbn. unfold Before.
  destruct (Z.ltb_spec (unix_ns t) (unix_ns next)); [split; [done|lia]|by split].
Qed.

Lemma next_wake_fold s order next u : not_after next u ->
  not_after (fold_left (fun next id => match inflight s !! id with
    | Some e => if waits e then consider next (nextAt e) else next | None => next end) order next) u.
Proof.
  revert next. induction order as [|id order IH]; intros next Hn; [done|]. cbn. apply IH.
  case_tests; [by apply consider_keeps|done..].
Qed.

Lemma next_wake_entry s order id e : id ∈ order -> inflight s !! id = Some e -> waits e = true ->
  not_after (next_wake order s) (nextAt e).
Proof.
  intros Hin He Hw. unfold next_wake. cbv zeta.
  set (n := if (0 <? finiteTarget s) && _ && _ then _ else _). clearbody n. revert n.
  induction order as [|id' order IH]; intros n; [by apply not_elem_of_nil in Hin|]. cbn.
  apply elem_of_cons in Hin as [<-|Hin]; [|by apply IH].
  rewrite He, Hw. apply next_wake_fold, consider_new.
Qed.

(** When the wake timer fires. *)
Definition fires (now : Time) s : Z := unix_ns now + timer s.

(** No lost wake-up: with the broker ready, the timer armed before the
    loop blocks fires no later than the retry or acknowledgement deadline of
    every waiting entry, the next generation tick when one may run, and the
    completion deadline of a finite run (at once when that is past). *)
Theorem armTimer_covers order now s :
  (forall id, is_Some (inflight s !! id) -> id ∈ order) ->
  let due t := IsZero t = true \/ fires now (armTimer true order now s) <= Z.max (unix_ns now) (unix_ns t) in
  (forall id e, inflight s !! id = Some e -> state e = stateAwaitAck \/ state e = stateBackoff -> due (nextAt e))
  /\ (genDone s = false -> generationPaused s = false -> 0 < free_slots s -> due (nextGenAt s))
  /\ (0 < finiteTarget s -> genDone s = true -> due (completionDeadline s)).
Proof.
  intros Hord due.
  assert (Hdue : forall t, not_after (next_wake order s) t -> due t).
  { intros t [Ht|[Hn Hle]]; [by left|]. right. unfold fires, armTimer, resetTimer. cbn [negb]. rewrite Hn. cbn.
    case_tests; gobool; cbn [timer set_timer]; lia. }
  split_and!.
  - intros id e He Hs. apply Hdue, (next_wake_entry _ _ id e); [apply Hord; by rewrite He|done|].
    unfold waits. destruct Hs as [-> | ->]; done.
  - intros Hg Hp Hf. apply Hdue. unfold next_wake. rewrite Hg, Hp. apply Z.ltb_lt in Hf. rewrite Hf. cbn.
    rewrite orb_true_r, andb_false_r. apply next_wake_fold, consider_new.
  - intros Hf Hg. apply Hdue. unfold next_wake. rewrite Hg. apply Z.ltb_lt in Hf. rewrite Hf. cbn.
    apply next_wake_fold. destruct (IsZero (completionDeadline s)) eqn:Ez; cbn; [by left|apply consider_new].
Qed.

(** ** Admission *)

(** The rows to replay, oldest first (rowids start at 1). *)
Definition backlog db : list OutboxRow := List.filter (fun row => 0 <? o_id row) (pending_of o db).

(** No entry holds the row's message. *)
Definition unclaimed s row : bool :=
  match uuid_Parse (o_message_id row) with Some id => bool_decide (inflight s !! id = None) | None => false end.

Definition publication_of (it : Item uuid) : publication uuid :=
  mkPublication (i_MessageID it) (i_Topic it) (i_Payload it).

Definition unclaimed_item s (it : Item uuid) : bool := bool_decide (inflight s !! i_MessageID it = None).

Lemma free_slots_admit s (it : Item uuid) : inflight s !! i_MessageID it = None ->
  free_slots (admit_row it s) = free_slots s - 1.
Proof.
  intros Hn. unfold free_slots, admit_row, startPublish, launch, set_entry, set_inflight. cbn [cfg inflight item].
  rewrite map_size_insert_None by done. lia.
Qed.

(** The loop over a page: the oldest unclaimed items take the free slots. *)
Lemma admit_items_spec items s b s' : NoDup (map i_MessageID items) -> admit_items items s = (b, s') ->
  started_log s' = started_log s
    ++ map publication_of (take (Z.to_nat (free_slots s)) (List.filter (unclaimed_item s) items))
  /\ (forall id, is_Some (inflight s !! id) -> is_Some (inflight s' !! id))
  /\ (if b then free_slots s' <= 0 else Forall (fun it => is_Some (inflight s' !! i_MessageID it)) items).
Proof.
  revert s. induction items as [|it items IH]; intros s Hnd H; cbn [admit_items] in H.
  - injection H as <- <-. cbn. rewrite take_nil, app_nil_r. split_and!; [done..|constructor].
  - cbn [map] in Hnd. apply list.NoDup_cons in Hnd as [Hnot Hnd].
    destruct (Z.leb_spec (free_slots s) 0).
    { injection H as <- <-. replace (Z.to_nat (free_slots s)) with 0%nat by lia. cbn. by rewrite app_nil_r. }
    destruct (bool_decide (is_Some _)) eqn:E; gobool.
    + destruct (IH _ Hnd H) as (H1 & H2 & H3). cbn [List.filter]. unfold unclaimed_item at 1.
      rewrite bool_decide_false by (by rewrite <- not_eq_None_Some in E). split_and!; [done..|].
      destruct b; [done|]. constructor; auto.
    + apply eq_None_not_Some in E. destruct (IH _ Hnd H) as (H1 & H2 & H3). rewrite free_slots_admit in H1 by done.
      cbn [List.filter]. unfold unclaimed_item at 1. rewrite bool_decide_true by done.
      assert (Hf : List.filter (unclaimed_item (admit_row it s)) items = List.filter (unclaimed_item s) items).
      { apply filter_ext_in. intros x Hx. unfold unclaimed_item. apply bool_decide_ext.
        unfold admit_row, startPublish, launch, set_entry, set_inflight. cbn [inflight item].
        rewrite lookup_insert_ne; [done|]. intros Heq. apply Hnot. rewrite Heq. apply list_elem_of_fmap.
        exists x. by rewrite list_elem_of_In. }
      assert (Hin : is_Some (inflight (admit_row it s) !! i_MessageID it)).
      { unfold admit_row, startPublish, launch, set_entry, set_inflight. cbn [inflight item]. by rewrite lookup_insert_eq. }
      split_and!.
      * rewrite H1, Hf. replace (Z.to_nat (free_slots s)) with (S (Z.to_nat (free_slots s - 1))) by lia.
        cbn [take map admit_row startPublish launch started_log]. by rewrite <- (assoc_L (++)).
      * intros id Hid. apply H2. unfold admit_row, startPublish, launch, set_entry, set_inflight. cbn [inflight item].
        destruct (decide (i_MessageID it = id)) as [->|]; [by rewrite lookup_insert_eq|by rewrite lookup_insert_ne].
      * destruct b; [done|]. constructor; [by apply H2|done].
Qed.

(** Distinct messages that are all in flight are at most the entries. *)
Lemma claimed_bound s (l : list uuid) : NoDup l -> Forall (fun id => is_Some (inflight s !! id)) l ->
  (length l <= size (inflight s))%nat.
Proof.
  intros Hnd Hf. rewrite <- size_dom. rewrite <- (size_list_to_set (C := gset uuid) l) by done.
  apply subseteq_size. intros x Hx. apply elem_of_list_to_set in Hx. apply elem_of_dom.
  rewrite list.Forall_forall in Hf. by apply Hf.
Qed.

Lemma backlog_scanned db items n : outbox_inv (uuid := uuid) o db ->
  map_res scanOutboxItem (take n (backlog db)) = Ok items ->
  Forall2 (stored_as (uuid := uuid)) (take n (backlog db)) items /\ NoDup (map i_MessageID items).
Proof.
  intros Hinv H.
  assert (Hs : StronglySorted follows (backlog db)) by (apply StronglySorted_filter, StronglySorted_filter, (inv_order _ _ Hinv)).
  assert (Hok : Forall (row_ok (uuid := uuid) o) (backlog db)) by (apply Forall_List_filter, Forall_List_filter, (inv_rows _ _ Hinv)).
  revert items n H. induction Hs as [|row rows _ IH Hf]; intros items [|n] H; cbn in H; inv_ok H; subst;
    [by split; constructor..|].
  apply list.Forall_cons in Hok as [Hrow Hok].
  match goal with H : map_res _ _ = Ok ?ys |- _ => destruct (IH Hok _ _ H) as [H2 Hnd] end.
  assert (Hst := scan_stored _ _ _ Hrow Heqr). split; [by constructor|]. cbn [map]. apply list.NoDup_cons.
  split; [|done]. intros (y & Hy & Hin)%list_elem_of_fmap. apply list_elem_of_lookup in Hin as [i Hi].
  destruct (Forall2_lookup_r _ _ _ _ _ H2 Hi) as (row' & Hrow' & Hst').
  apply list_elem_of_lookup_2, elem_of_take in Hrow' as (j & Hj & _).
  destruct (Forall_lookup_1 _ _ _ _ Hf Hj) as (_ & Hne & _). apply Hne.
  rewrite (sa_message _ _ Hst), (sa_message _ _ Hst'). by f_equal.
Qed.

Lemma unclaimed_stored s row (it : Item uuid) : stored_as row it -> unclaimed s row = unclaimed_item s it.
Proof. intros [Hm _ _ _]. unfold unclaimed. by rewrite Hm, uuid_Parse_String. Qed.

Lemma Forall2_filter {A B} (R : A -> B -> Prop) f g l1 l2 : (forall x y, R x y -> f x = g y) ->
  Forall2 R l1 l2 -> Forall2 R (List.filter f l1) (List.filter g l2).
Proof. intros Hfg. induction 1 as [|x y l1 l2 Hxy _ IH]; cbn; [constructor|]. rewrite (Hfg _ _ Hxy). destruct (g y); [by constructor|done]. Qed.

Lemma Forall2_map_r {A B C} (R : A -> C -> Prop) (g : B -> C) l1 l2 :
  Forall2 (fun x y => R x (g y)) l1 l2 -> Forall2 R l1 (map g l2).
Proof. induction 1; constructor; done. Qed.

Lemma length_filter_split {A} (f : A -> bool) l :
  length l = (length (List.filter f l) + length (List.filter (fun x => negb (f x)) l))%nat.
Proof. induction l as [|x l IH]; cbn; [done|]. destruct (f x); cbn; lia. Qed.

Lemma NoDup_map_filter {A B} (g : A -> B) (f : A -> bool) l : NoDup (map g l) -> NoDup (map g (List.filter f l)).
Proof.
  induction l as [|x l IH]; cbn; [done|]. intros [Hn Hd]%list.NoDup_cons.
  destruct (f x); cbn; [|by apply IH]. apply list.NoDup_cons. split; [|by apply IH].
  intros (y & Hy & Hin)%list_elem_of_fmap. apply Hn, list_elem_of_fmap. exists y. split; [done|].
  apply list_elem_of_In in Hin. apply filter_In in Hin as [Hin _]. by apply list_elem_of_In.
Qed.

(** A full page always offers enough unclaimed items to fill the slots. *)
Lemma full_page_fills s (items : list (Item uuid)) : NoDup (map i_MessageID items) ->
  c_maxInflight (cfg s) <= Z.of_nat (length items) ->
  free_slots s <= Z.of_nat (length (List.filter (unclaimed_item s) items)).
Proof.
  intros Hnd Hlen. set (claimed := List.filter (fun it => negb (unclaimed_item s it)) items).
  assert (Hc : (length (map i_MessageID claimed) <= size (inflight s))%nat).
  { apply claimed_bound; [by apply NoDup_map_filter|]. apply list.Forall_forall. intros id (it & -> & Hin)%list_elem_of_fmap.
    apply list_elem_of_In, filter_In in Hin as [_ Hf]. unfold unclaimed_item in Hf. gobool. by apply not_eq_None_Some. }
  rewrite length_map in Hc. pose proof (length_filter_split (unclaimed_item s) items) as Hs. fold claimed in Hs.
  unfold free_slots. lia.
Qed.

(** The publication of a row. *)
Definition publishes row (p : publication uuid) : Prop :=
  o_message_id row = uuid_String (pub_id p) /\ pub_topic p = o_topic row /\ pub_payload p = o_payload row.

Lemma admit_page_spec pe s items b s' (db := (pe_page pe 0).2) : outbox_inv (uuid := uuid) o db ->
  0 < c_maxInflight (cfg s) -> 0 <= free_slots s ->
  map_res scanOutboxItem (take (Z.to_nat (c_maxInflight (cfg s))) (backlog db)) = Ok items ->
  admit_items items s = (b, s') ->
  (exists pubs, started_log s' = started_log s ++ pubs
     /\ Forall2 publishes (take (Z.to_nat (free_slots s)) (List.filter (unclaimed s) (backlog db))) pubs)
  /\ (Z.of_nat (length items) < c_maxInflight (cfg s) ->
        free_slots s' <= 0 \/ Forall (fun row => unclaimed s' row = false) (backlog db))
  /\ (c_maxInflight (cfg s) <= Z.of_nat (length items) -> cfg s' = cfg s -> free_slots s' <= 0).
Proof.
  intros Hinv Hmax Hfree Hscan Hadm.
  destruct (backlog_scanned _ _ _ Hinv Hscan) as [Hst Hnd].
  destruct (admit_items_spec _ _ _ _ Hnd Hadm) as (Hlog & _ & Hall).
  assert (Hlen := Forall2_length Hst). rewrite length_take in Hlen.
  set (page := take (Z.to_nat (c_maxInflight (cfg s))) (backlog db)) in *.
  assert (Hfilter : Forall2 stored_as (List.filter (unclaimed s) page) (List.filter (unclaimed_item s) items))
    by (eapply Forall2_filter; [|exact Hst]; apply unclaimed_stored).
  split_and!.
  - eexists. split; [exact Hlog|].
    assert (Htake : take (Z.to_nat (free_slots s)) (List.filter (unclaimed s) (backlog db))
                    = take (Z.to_nat (free_slots s)) (List.filter (unclaimed s) page)).
    { rewrite <- (take_drop (Z.to_nat (c_maxInflight (cfg s))) (backlog db)) at 1. fold page.
      rewrite List.filter_app, take_app.
      destruct (decide (c_maxInflight (cfg s) <= Z.of_nat (length items))) as [Hge|Hlt].
      - pose proof (full_page_fills _ _ Hnd Hge) as Hfill. rewrite <- (Forall2_length Hfilter) in Hfill.
        replace (Z.to_nat (free_slots s) - length (List.filter (unclaimed s) page))%nat with 0%nat by lia.
        by rewrite app_nil_r.
      - rewrite (drop_ge (backlog db)) by lia. cbn. by rewrite take_nil, app_nil_r. }
    rewrite Htake. apply Forall2_map_r. apply (Forall2_take _ _ _ (Z.to_nat (free_slots s))) in Hfilter.
    revert Hfilter. apply Forall2_impl. by intros row it [Hm Ht Hp _].
  - intros Hlt. destruct b; [by left|]. right. unfold page in Hst. rewrite take_ge in Hst by lia.
    apply list.Forall_forall. intros row Hrow. apply list_elem_of_lookup in Hrow as [i Hi].
    destruct (Forall2_lookup_l _ _ _ _ _ Hst Hi) as (it & Hit & Hs).
    rewrite (unclaimed_stored _ _ _ Hs). unfold unclaimed_item. apply bool_decide_eq_false, not_eq_None_Some.
    by apply (Forall_lookup_1 _ _ _ _ Hall Hit).
  - intros Hge Hcfg. destruct b; [done|]. unfold free_slots. rewrite Hcfg.
    enough (length (map i_MessageID items) <= size (inflight s'))%nat as H by (rewrite length_map in H; lia).
    apply claimed_bound; [done|]. apply list.Forall_forall. intros id (it & -> & Hin)%list_elem_of_fmap.
    rewrite list.Forall_forall in Hall. by apply Hall.
Qed.

(** What a pass leaves alone until it generates. *)
Definition settings s := (cfg s, bootID s, finiteTarget s, genDone s, generationPaused s, uniqueEnqueued s,
  (nextGenAt s, completed s, fatalErr s)).

Lemma admit_items_settings items s b s' : admit_items items s = (b, s') -> settings s' = settings s.
Proof.
  revert s. induction items as [|it items IH]; intros s H; cbn in H; [by injection H as _ <-|].
  destruct (_ <=? 0); [by injection H as _ <-|]. destruct (bool_decide _); [by apply IH|]. by rewrite (IH _ H).
Qed.

Lemma admit_pages_settings pe pages page cursor s r s' : admit_pages o pe page pages cursor s = (r, s') ->
  settings s' = settings s.
Proof.
  revert page cursor s. induction pages as [|pages IH]; intros page cursor s H; cbn [admit_pages] in H; [by injection H as _ <-|].
  destruct (_ <=? 0); [by injection H as _ <-|].
  destruct (PendingAfter _ _ _ _ _) as [[|it items']|]; [by injection H as _ <-| |by injection H as _ <-].
  destruct (admit_items _ s) as [b s1] eqn:Ea. apply admit_items_settings in Ea.
  destruct b; [injection H as _ <-; done|]. destruct (_ <? _); [injection H as _ <-; done|].
  by rewrite (IH _ _ _ H).
Qed.

Lemma admit_pages_full pe pages page cursor s : free_slots s <= 0 ->
  admit_pages o pe page pages cursor s = (Ok false, s).
Proof.
  intros Hf. destruct pages; cbn [admit_pages].
  - by rewrite (proj2 (Z.ltb_ge _ _) Hf).
  - by rewrite (proj2 (Z.leb_le _ _) Hf).
Qed.

Lemma admitPending_ok pe s more s' (db := (pe_page pe 0).2) : outbox_inv (uuid := uuid) o db ->
  admitPending o pe s = (Ok more, s') ->
  more = false
  /\ (exists pubs, started_log s' = started_log s ++ pubs
        /\ Forall2 publishes (take (Z.to_nat (free_slots s)) (List.filter (unclaimed s) (backlog db))) pubs)
  /\ (free_slots s' <= 0 \/ Forall (fun row => unclaimed s' row = false) (backlog db)).
Proof.
  intros Hinv. unfold admitPending. destruct (Z.leb_spec (free_slots s) 0) as [Hz|Hpos].
  { intros [= <- <-]. split; [done|]. split; [|by left]. exists []. rewrite app_nil_r. split; [done|].
    replace (Z.to_nat (free_slots s)) with 0%nat by lia. constructor. }
  unfold maxAdmissionPages. cbn [admit_pages]. rewrite (proj2 (Z.leb_gt _ _) Hpos).
  destruct (PendingAfter _ _ _ _ _) as [items|] eqn:Ep; [|done]. apply PendingAfter_ok in Ep. fold db in Ep.
  fold (backlog db) in Ep. assert (Hmax : 0 < c_maxInflight (cfg s)) by (unfold free_slots in Hpos; lia).
  destruct (admit_items items s) as [b s1] eqn:Ea.
  destruct (admit_page_spec pe s items b s1 Hinv Hmax ltac:(lia) Ep Ea) as (Hlog & Hshort & Hfull).
  assert (Hcfg : cfg s1 = cfg s) by (apply admit_items_settings in Ea; by injection Ea).
  destruct items as [|it items'].
  { cbn in Ea. injection Ea as <- <-. intros [= <- <-]. split; [done|]. split; [done|]. apply Hshort. cbn. lia. }
  destruct b.
  - intros [= <- <-]. split; [done|]. split; [done|].
    destruct (decide (Z.of_nat (length (it :: items')) < c_maxInflight (cfg s))) as [Hlt|Hge]; [by apply Hshort|].
    left. apply Hfull; [lia|done].
  - destruct (Z.ltb_spec (Z.of_nat (length (it :: items'))) (c_maxInflight (cfg s))) as [Hlt|Hge].
    + intros [= <- <-]. auto.
    + specialize (Hfull Hge Hcfg). rewrite (proj2 (Z.leb_le _ _) Hfull). intros [= <- <-]. auto.
Qed.

(** Admission is oldest first and starves nothing: it starts one publish
    for each of the oldest pending rows that no entry holds, as many as there are
    free slots, with the row's own topic and payload, and afterwards either the
    slots are full or every pending row is in flight.  The answer "an older row
    may remain" never occurs: the first page is always enough. *)
Theorem admitPending_oldest_first pe s more s' : outbox_inv (uuid := uuid) o (pe_page pe 0).2 ->
  admitPending o pe s = (Ok more, s') ->
  more = false
  /\ (exists pubs, started_log s' = started_log s ++ pubs
        /\ Forall2 publishes (take (Z.to_nat (free_slots s)) (List.filter (unclaimed s) (backlog (pe_page pe 0).2))) pubs)
  /\ (free_slots s' <= 0 \/ Forall (fun row => unclaimed s' row = false) (backlog (pe_page pe 0).2)).
Proof. apply admitPending_ok. Qed.
End spec.

(** * Runs of the scheduler

    The loop beside the acknowledgement worker: the reachable states, their
    invariant, and what a finished finite run means. *)

Inductive phase := AtTop | AtSelect | Finished (err : option error).

Definition next_phase (v : verdict) : phase :=
  match v with Again => AtTop | Blocks => AtSelect | Returns err => Finished err end.

#[export] Instance OutboxRow_eq_dec : EqDecision OutboxRow.
Proof. solve_decision. Defined.

Section run.
Context {uuid : Type} `{!UuidLib uuid} `{!UuidLaws uuid}.
Variable o : Outbox.
Implicit Types (s : Scheduler uuid) (e : inflightEntry uuid) (db : OutboxDB) (id : uuid) (ever : list OutboxRow).
Implicit Types pe : PassEnv uuid.

(** ** One pass *)

Lemma retry_entry_settings pe id s r s' : retry_entry o pe id s = (r, s') -> settings s' = settings s.
Proof.
  unfold retry_entry. destruct (inflight s !! id) as [e|]; [|by intros [= _ <-]].
  destruct (_ || _); [by intros [= _ <-]|]. destruct (state e); [by intros [= _ <-]| |by intros [= _ <-]].
  destruct (rowStillPending _ _ _) as [[]|]; by intros [= _ <-].
Qed.

Lemma processDueRetries_settings pe s r s' : processDueRetries o pe s = (r, s') -> settings s' = settings s.
Proof.
  unfold processDueRetries. apply (for_entries_inv (fun s' => settings s' = settings s)); [|done].
  intros id x rx x' Hx H. by rewrite (retry_entry_settings _ _ _ _ _ H).
Qed.

Lemma admitPending_settings pe s r s' : admitPending o pe s = (r, s') -> settings s' = settings s.
Proof. unfold admitPending. destruct (_ <=? 0); [by intros [= _ <-]|]. apply admit_pages_settings. Qed.

(** Generation changes the file only by the one enqueue, and what it reports. *)
Lemma generate_effect pe s db r s' db' : generate o pe s db = (r, s', db') ->
  (db' = db \/ exists id it, pe_newUUID pe = Ok id
     /\ enqueued o (ow_now (pe_enqueue pe)) (generate_request pe s id) db it db'
     /\ ((r = None /\ publication_of it ∈ started_log s') \/ r = Some (EWrap "enqueue" ErrSchedulerCommitUnknown)))
  /\ nextGenAt s' = Add (UTC (pe_now pe)) (cadence s)
  /\ (cfg s', finiteTarget s', completed s', fatalErr s') = (cfg s, finiteTarget s, completed s, fatalErr s)
  /\ (forall id, is_Some (inflight s !! id) -> is_Some (inflight s' !! id)).
Proof.
  unfold generate. cbv zeta. set (s0 := set_nextGenAt _ s).
  destruct (pe_newUUID pe) as [id|] eqn:Eid; [|intros [= _ <- <-]; split_and!; auto].
  change (generate_request pe s0 id) with (generate_request pe s id).
  destruct (Enqueue _ _ _ db) as [er db1] eqn:Ee. apply Enqueue_case in Ee. destruct Ee as [err|it db1 Hen|it db1 Hen].
  - case_tests; intros [= _ <- <-]; split_and!; auto.
  - intros [= <- <- <-]. set (s1 := admit_row it _).
    assert (Hin : forall x, is_Some (inflight s !! x) -> is_Some (inflight s1 !! x)).
    { intros x Hx. change (inflight s1) with (<[i_MessageID it := mkEntry it statePublishing 0%nat zero_time]> (inflight s)).
      destruct (decide (i_MessageID it = x)) as [->|]; [by rewrite lookup_insert_eq|by rewrite lookup_insert_ne]. }
    assert (Hp : publication_of it ∈ started_log s1) by (apply elem_of_app; right; left).
    destruct (_ && _ && _); (split_and!; [right; exists id, it; split_and!; auto|done..]).
  - intros [= <- <- <-]. cbn. split_and!; try done. right. exists id, it. auto.
Qed.

Lemma reconcile_effect pe s db r s' db' : outbox_inv (uuid := uuid) o (pe_page pe 0).2 ->
  reconcile o pe s db = (r, s', db') ->
  (cfg s', finiteTarget s', completed s', fatalErr s') = (cfg s, finiteTarget s, completed s, fatalErr s)
  /\ (db' = db \/
      (pe_ready pe = true /\ genDone s = false /\ generationPaused s = false /\ unix_ns (nextGenAt s) <= unix_ns (pe_now pe)
       /\ Forall (fun row => unclaimed s' row = false) (backlog o (pe_page pe 0).2)
       /\ nextGenAt s' = Add (UTC (pe_now pe)) (cadence s)
       /\ exists id it, pe_newUUID pe = Ok id
         /\ enqueued o (ow_now (pe_enqueue pe)) (generate_request pe s id) db it db'
         /\ ((r = None /\ publication_of it ∈ started_log s') \/ r = Some (EWrap "enqueue" ErrSchedulerCommitUnknown)))).
Proof.
  intros Hinv. unfold reconcile. destruct (reconcile_body o pe s db) as [[r0 s0] db0] eqn:E.
  intros [= <- <- <-]. unfold observe. cbn [set_inflightCount set_readyObserved cfg finiteTarget completed fatalErr
    nextGenAt started_log]. change (unclaimed (set_inflightCount _ (set_readyObserved _ s0))) with (unclaimed s0).
  unfold reconcile_body in E. destruct (pe_ready pe) eqn:Er; cbn [negb] in E; [|injection E as <- <- <-; auto].
  destruct (processDueRetries o pe s) as [r1 s1] eqn:E1. apply processDueRetries_settings in E1.
  assert (Hset : forall x, settings x = settings s ->
    (cfg x, finiteTarget x, completed x, fatalErr x) = (cfg s, finiteTarget s, completed s, fatalErr s))
    by (intros x Hx; unfold settings in Hx; by simplify_eq; congruence).
  destruct r1 as [err|]; [injection E as <- <- <-; auto|].
  destruct (admitPending o pe s1) as [r2 s2] eqn:E2.
  assert (Hs2 : settings s2 = settings s) by (rewrite (admitPending_settings _ _ _ _ E2); done).
  destruct r2 as [more|err]; [|injection E as <- <- <-; auto]. set (s3 := set_genReady _ s2) in *.
  destruct (genReady s3 && _) eqn:Eg; [|injection E as <- <- <-; split; [by apply (Hset s2)|by left]].
  apply andb_prop in Eg as [Eg Hdue]. unfold s3 in Eg. cbn in Eg. unfold Before in Hdue. gobool.
  destruct (admitPending_ok _ _ _ _ _ Hinv E2) as (_ & _ & [Hfull|Hall]); [lia|].
  apply generate_effect in E as (Hdb & Hnext & Hcfg & Hkeep). split.
  { rewrite Hcfg. by apply (Hset s2). }
  destruct Hdb as [->|(id & it & Hid & Hen & Hr)]; [by left|]. right.
  unfold settings in Hs2. injection Hs2 as Hc Hb Hft Hgd Hgp Hue Hng Hco Hfa.
  change (nextGenAt s3) with (nextGenAt s2) in Hdue.
  split_and!; [done|congruence|congruence|rewrite <- Hng; lia| | |].
  - eapply list.Forall_impl; [exact Hall|]. intros row. unfold unclaimed. destruct (uuid_Parse _) as [x|]; [|done].
    intros Hn. apply bool_decide_eq_false, not_eq_None_Some in Hn. apply bool_decide_eq_false, not_eq_None_Some.
    by apply Hkeep.
  - rewrite Hnext. unfold cadence. change (cfg s3) with (cfg s2). by rewrite Hc.
  - exists id, it. split; [done|]. split; [|done].
    replace (generate_request pe s id) with (generate_request pe s3 id); [done|].
    unfold generate_request. change (cfg s3) with (cfg s2). change (bootID s3) with (bootID s2). by rewrite Hc, Hb.
Qed.

(** A pass changes the file only by the one batch it generates, and it
    generates only when the broker is ready, the run is not done, generation is
    not paused, the cadence is due and every older pending row already has its
    slot.  The batch is published at once; when the outcome of its commit is
    unknown the pass stops with [ErrSchedulerCommitUnknown] instead. *)
Theorem generation_gated pe s db r s' db' : outbox_inv (uuid := uuid) o (pe_page pe 0).2 ->
  reconcile o pe s db = (r, s', db') -> db' <> db ->
  pe_ready pe = true /\ genDone s = false /\ generationPaused s = false /\ unix_ns (nextGenAt s) <= unix_ns (pe_now pe)
  /\ Forall (fun row => unclaimed s' row = false) (backlog o (pe_page pe 0).2)
  /\ nextGenAt s' = Add (UTC (pe_now pe)) (cadence s)
  /\ exists id it, pe_newUUID pe = Ok id
     /\ enqueued o (ow_now (pe_enqueue pe)) (generate_request pe s id) db it db'
     /\ ((r = None /\ publication_of it ∈ started_log s') \/ r = Some (EWrap "enqueue" ErrSchedulerCommitUnknown)).
Proof. intros Hinv H Hne. by apply reconcile_effect in H as [_ [?|?]]. Qed.

(** ** Completion *)

Lemma Counts_zero w db c : outbox_inv (uuid := uuid) o db -> Counts o w db = Ok c -> PendingRows c = 0 ->
  Forall (fun row => is_pending row = false) (outbox db).
Proof.
  intros Hinv Hc Hz. unfold Counts, run_query in Hc. destruct (query _ _ _ _) as [[[c' db1] rs]|] eqn:E; [|done].
  injection Hc as ->. apply query_ok in E as [-> ->]. cbn [PendingRows] in Hz.
  assert (Hown : Forall (fun row => o_gateway_id row = gatewayID o) (outbox db)).
  { eapply list.Forall_impl; [exact (inv_rows _ _ Hinv)|]. intros row Hr. apply (ro_bound _ _ Hr). }
  set (f := fun row => if bool_decide (o_status row = outboxStatusPending) then 1 else 0) in Hz.
  assert (Hf : forall row, 0 <= f row) by (intros row; unfold f; case_tests; lia).
  clear -Hown Hz Hf. induction Hown as [|row rows Hrow _ IH]; [constructor|]. cbn [List.filter] in Hz.
  rewrite bool_decide_true in Hz by done.
  change (f row + list_sum f (List.filter (fun row => bool_decide (o_gateway_id row = gatewayID o)) rows) = 0) in Hz.
  pose proof (list_sum_nonneg f (List.filter (fun row => bool_decide (o_gateway_id row = gatewayID o)) rows) Hf).
  specialize (Hf row). constructor; [|apply IH; lia]. unfold is_pending. unfold f at 1 in Hz.
  destruct (bool_decide (o_status row = outboxStatusPending)); [lia|done].
Qed.

Lemma completed_drained w now s db : outbox_inv (uuid := uuid) o db -> checkCompletion o w now s db = (true, None) ->
  0 < finiteTarget s /\ genDone s = true /\ (forall id, ~ pending_id db id).
Proof.
  intros Hinv. unfold checkCompletion. destruct (_ || _) eqn:E; [done|]. gobool.
  destruct (Counts o w db) as [c|] eqn:Ec; [|done]. destruct (Z.eqb_spec (PendingRows c) 0) as [Hz|]; [|by case_tests].
  intros _. split_and!; [lia|done|]. intros id (row & Hin & _ & Hp).
  pose proof (Counts_zero _ _ _ Hinv Ec Hz) as Hall. rewrite list.Forall_forall in Hall. rewrite (Hall _ Hin) in Hp. done.
Qed.

(** ** The system *)

(** [sc_ever] lists every row the file ever held, in this run or before. *)
Record SchedState := mkSchedState {
  sc_sched : Scheduler uuid;
  sc_db : OutboxDB;
  sc_phase : phase;
  sc_ever : list OutboxRow;
}.

Definition record_rows ever db : list OutboxRow :=
  ever ++ List.filter (fun row => negb (bool_decide (row ∈ ever))) (outbox db).

(** The file when the pass of a turn is over. *)
Definition file_after_pass (te : TurnEnv uuid) s db : OutboxDB :=
  if te_ctx_before te then db
  else match fatalErr s with Some _ => db | None => (reconcile o (te_pass te) s db).2 end.

(** A turn of the loop, an arm of its [select], and what happens beside it: the
    acknowledgement worker deletes rows, the composition sets a deadline. *)
Inductive sched_step : SchedState -> SchedState -> Prop :=
| sched_turn te s db0 db ever v s' db' :
    emptied db0 db -> pass_ok ever (te_pass te) db0 db -> (forall d, emptied d (te_deleted te d)) ->
    loop_turn o te s db = (v, s', db') ->
    sched_step (mkSchedState s db0 AtTop ever)
      (mkSchedState s' db' (next_phase v) (record_rows ever (file_after_pass te s db)))
| sched_select k now arrivals s db ever v s' :
    (forall order read ended, k = wake_notify order read ended -> forall id, (read id).2 = db) ->
    select_arm o k now arrivals s = (v, s') ->
    sched_step (mkSchedState s db AtSelect ever) (mkSchedState s' db (next_phase v) ever)
| sched_deleted s db db' ph ever : emptied db db' ->
    sched_step (mkSchedState s db ph ever) (mkSchedState s db' ph ever)
| sched_deadline deadline s db ph ever :
    sched_step (mkSchedState s db ph ever) (mkSchedState (BeginShutdown deadline s) db ph ever).

(** Rows with the same message are the same row. *)
Definition history_ok ever : Prop :=
  (forall r1 r2, r1 ∈ ever -> r2 ∈ ever -> o_message_id r1 = o_message_id r2 -> r1 = r2)
  /\ Forall (row_ok (uuid := uuid) o) ever.

(** [Run] has just begun on the open file; [past] lists its rows of earlier runs,
    acknowledged ones included. *)
Inductive sched_start (opts : SchedulerOptions uuid) db0 : SchedState -> Prop :=
| sched_begin past s now s' : so_outbox opts = Some o -> in_int64 (c_sampleIntervalUS (so_config opts)) ->
    history_ok past -> (forall row, row ∈ outbox db0 -> row ∈ past) ->
    NewScheduler opts = Ok s -> begin_run now s = Ok s' ->
    sched_start opts db0 (mkSchedState s' db0 AtTop past).

Inductive sched_reachable (opts : SchedulerOptions uuid) db0 : SchedState -> Prop :=
| sched_init y : sched_start opts db0 y -> sched_reachable opts db0 y
| sched_next y y' : sched_reachable opts db0 y -> sched_step y y' -> sched_reachable opts db0 y'.

Record state_inv (y : SchedState) : Prop := {
  sv_sched : sched_inv (sc_ever y) (sc_sched y) (sc_db y);
  sv_outbox : outbox_inv (uuid := uuid) o (sc_db y);
  sv_history : history_ok (sc_ever y);
  sv_completed : completed (sc_sched y) = true -> sc_phase y = Finished None /\ 0 < finiteTarget (sc_sched y)
    /\ genDone (sc_sched y) = true /\ (forall id, ~ pending_id (sc_db y) id);
}.

Lemma NewScheduler_inv opts db0 past s now s' : outbox_inv (uuid := uuid) o db0 ->
  history_ok past -> (forall row, row ∈ outbox db0 -> row ∈ past) ->
  in_int64 (c_sampleIntervalUS (so_config opts)) -> NewScheduler opts = Ok s -> begin_run now s = Ok s' ->
  state_inv (mkSchedState s' db0 AtTop past).
Proof.
  intros Hinv Hh Hpast Hw Hn Hb. unfold NewScheduler in Hn. cbv zeta in Hn.
  inv_ok Hn. subst s. injection Hb as <-. gobool.
  constructor; cbn [sc_sched sc_db sc_phase sc_ever].
  - constructor; cbn; try done; try by intros ? ? [].
    + rewrite map_size_empty. lia.
    + constructor.
    + by intros id Hp%not_elem_of_nil.
  - done.
  - done.
  - done.
Qed.

(** ** Histories *)

Lemma inv_ever_mono ever ever' s db : sched_inv ever s db -> (forall r, r ∈ ever -> r ∈ ever') -> sched_inv ever' s db.
Proof.
  intros [] Hsub. constructor; try done.
  - eapply list.Forall_impl; [exact si_verbatim|]. intros p (r & Hr & H). exists r. auto.
  - intros id e He. destruct (si_entry _ _ He) as (r & Hr & H). exists r. auto.
  - auto.
Qed.

Lemma record_rows_old ever db r : r ∈ ever -> r ∈ record_rows ever db.
Proof. intros Hr. apply elem_of_app. by left. Qed.

Lemma record_rows_elem ever db r : r ∈ record_rows ever db <-> r ∈ ever \/ r ∈ outbox db.
Proof.
  unfold record_rows. rewrite elem_of_app, !list_elem_of_In, filter_In, <- !list_elem_of_In. split.
  - intros [|[]]; auto.
  - intros [|Hr]; [auto|]. destruct (decide (r ∈ ever)); [auto|right]. split; [done|]. by rewrite bool_decide_false.
Qed.

(** A history with at most one new row is what the file shows. *)
Lemma grown_recorded ever ever' s db : grown db ever ever' -> sched_inv ever' s db ->
  forall r, r ∈ ever' <-> r ∈ record_rows ever db.
Proof.
  intros Hg Hs r. rewrite record_rows_elem. destruct Hg as [->|(row & -> & Hrow & _)].
  - split; [auto|]. intros [|Hr]; [done|]. by apply (si_ever _ _ _ Hs).
  - split.
    + rewrite elem_of_app, list_elem_of_singleton. intros [?| ->]; auto.
    + intros [Hr|Hr]; [apply elem_of_app; by left|by apply (si_ever _ _ _ Hs)].
Qed.

Lemma grown_history ever ever' s db : grown db ever ever' -> sched_inv ever' s db -> outbox_inv (uuid := uuid) o db ->
  history_ok ever -> history_ok (record_rows ever db).
Proof.
  intros Hg Hs Hinv [Hu Hr]. assert (Heq := grown_recorded _ _ _ _ Hg Hs). split.
  - intros r1 r2. rewrite <- !Heq. destruct Hg as [->|(row & -> & Hrow & Hf)]; [apply Hu|].
    rewrite !elem_of_app, !list_elem_of_singleton.
    assert (Hnew : forall r, r ∈ ever -> o_message_id r <> o_message_id row).
    { intros r Hin E. apply Hf, list_elem_of_fmap. exists r. by rewrite E. }
    intros [H1|H1] [H2|H2] E; subst; [by apply Hu| | |done]; exfalso; [by apply (Hnew r1)|by apply (Hnew r2)].
  - apply list.Forall_forall. intros r. rewrite record_rows_elem. rewrite list.Forall_forall in Hr.
    assert (Ho := inv_rows _ _ Hinv). rewrite list.Forall_forall in Ho. intros [|]; auto.
Qed.

(** ** Turns *)

Lemma pass_emptied ever pe db0 db : pass_ok ever pe db0 db -> emptied db0 db.
Proof.
  intros [Hl Hp _ Hd _]. eapply emptied_trans; [apply (Hl uuid_Nil)|]. eapply emptied_trans; [apply (Hp _ 0%nat)|apply Hd].
Qed.

(** What the pass of a turn leaves. *)
Lemma reconcile_history pe ever s db0 db r s' db' : outbox_inv (uuid := uuid) o db0 -> pass_ok ever pe db0 db ->
  sched_inv ever s db0 -> history_ok ever -> reconcile o pe s db = (r, s', db') ->
  sched_inv (record_rows ever db') s' db' /\ history_ok (record_rows ever db') /\ outbox_inv (uuid := uuid) o db'
  /\ completed s' = completed s /\ finiteTarget s' = finiteTarget s.
Proof.
  intros Hinv Hok Hs Hh H. assert (Hinv_db : outbox_inv (uuid := uuid) o db)
    by (eapply emptied_inv; [by eapply pass_emptied|done]).
  destruct (reconcile_inv _ _ _ _ _ _ _ _ _ Hinv Hok Hs H) as (ever' & Hg & Hs').
  assert (Hp : outbox_inv (uuid := uuid) o (pe_page pe 0).2).
  { eapply emptied_inv; [|exact Hinv]. eapply emptied_trans; [apply (po_lookup _ _ _ _ Hok uuid_Nil)|apply (po_page _ _ _ _ Hok)]. }
  destruct (reconcile_effect _ _ _ _ _ _ Hp H) as [Hc Hdb]. injection Hc as Hcfg Hft Hco Hfa.
  assert (Hinv' : outbox_inv (uuid := uuid) o db').
  { destruct Hdb as [->|(_ & _ & _ & _ & _ & _ & id & it & _ & Hen & _)]; [done|].
    eapply enqueued_inv; [exact Hinv_db| |exact Hen]. split; cbn; [|apply (si_width _ _ _ Hs)].
    unfold wrap32, max_int32. dlia. }
  split_and!; [|by eapply grown_history|done..].
  eapply inv_ever_mono; [exact Hs'|]. intros x. by rewrite (grown_recorded _ _ _ _ Hg Hs').
Qed.

Lemma take_result_settings (a : arrival uuid) s : settings (take_result a s) = settings s.
Proof. unfold take_result, onPublishResult. by repeat case_match. Qed.

Lemma wait_settings now arrivals s : settings (waitPublishes now arrivals s) = settings s.
Proof.
  unfold waitPublishes. destruct (_ =? 0); [done|]. destruct (_ <=? 0); [done|].
  revert s. induction arrivals as [|a arrivals IH]; intros s; cbn; [done|].
  destruct (_ =? 0); [done|]. by rewrite IH, take_result_settings.
Qed.

Lemma settings_completed s s' : settings s' = settings s -> completed s' = completed s.
Proof. intros H. by injection H. Qed.

(** The invariant apart from completion. *)
Record core_inv ever s db : Prop := {
  ci_sched : sched_inv ever s db;
  ci_outbox : outbox_inv (uuid := uuid) o db;
  ci_history : history_ok ever;
}.

Lemma core_wait ever s db now arrivals : core_inv ever s db -> core_inv ever (waitPublishes now arrivals s) db.
Proof. intros []. constructor; [by apply wait_inv|done..]. Qed.

Lemma core_emptied ever s db db' : core_inv ever s db -> emptied db db' -> core_inv ever s db'.
Proof. intros [] He. constructor; [by eapply inv_emptied|by eapply emptied_inv|done]. Qed.

Lemma core_recorded ever s db : core_inv ever s db -> core_inv (record_rows ever db) s db.
Proof.
  intros [Hs Ho Hh]. constructor; [|done|].
  - eapply inv_ever_mono; [exact Hs|]. intros r. apply record_rows_old.
  - by eapply (grown_history ever ever); [by left|done..].
Qed.

(** Changes of the fields no invariant mentions. *)
Lemma core_setFatal ever s db err : core_inv ever s db -> core_inv ever (setFatal err s) db.
Proof. intros [[] ? ?]. by constructor. Qed.
Lemma core_completed ever s db b : core_inv ever s db -> core_inv ever (set_completed b s) db.
Proof. intros [[] ? ?]. by constructor. Qed.
Lemma core_arm ever s db ready order now : core_inv ever s db -> core_inv ever (armTimer ready order now s) db.
Proof. intros [[] ? ?]. unfold armTimer, resetTimer. constructor; [|done..]. case_tests; by constructor. Qed.

Lemma state_open ever s db ph : core_inv ever s db -> completed s = false -> state_inv (mkSchedState s db ph ever).
Proof. intros [] Hc. constructor; try done. cbn. congruence. Qed.

Lemma turn_inv te s db0 db ever v s' db' : state_inv (mkSchedState s db0 AtTop ever) ->
  pass_ok ever (te_pass te) db0 db -> (forall d, emptied d (te_deleted te d)) -> loop_turn o te s db = (v, s', db') ->
  state_inv (mkSchedState s' db' (next_phase v) (record_rows ever (file_after_pass te s db))).
Proof.
  intros Hy Hok Hdel H. destruct Hy as [Hs Ho Hh Hc]. cbn [sc_sched sc_db sc_phase sc_ever] in *.
  assert (Hopen : completed s = false) by (destruct (completed s); [destruct Hc as [? _]|]; done).
  assert (Hcore : core_inv (record_rows ever db) s db).
  { apply core_recorded. apply (core_emptied _ _ db0); [by constructor|by eapply pass_emptied]. }
  unfold loop_turn in H. unfold file_after_pass.
  destruct (te_ctx_before te).
  { injection H as <- <- <-. apply state_open; [by apply core_wait|]. by rewrite (settings_completed s) by apply wait_settings. }
  destruct (fatalErr s) as [err|] eqn:Ef.
  { injection H as <- <- <-. apply state_open; [by apply core_wait, core_setFatal|].
    by rewrite (settings_completed (setFatal err s)) by apply wait_settings. }
  destruct (reconcile o (te_pass te) s db) as [[r s1] db1] eqn:Er. cbn [snd].
  destruct (reconcile_history _ _ _ _ _ _ _ _ Ho Hok Hs Hh Er) as (Hs1 & Hh1 & Ho1 & Hco & _).
  assert (Hc1 : core_inv (record_rows ever db1) s1 db1) by by constructor. rewrite Hopen in Hco.
  assert (Hstop : forall d ph, core_inv (record_rows ever db1) s1 d ->
    state_inv (mkSchedState (waitPublishes (te_drain_now te) (te_arrivals te) s1) d ph (record_rows ever db1))).
  { intros d ph Hd. apply state_open; [by apply core_wait|]. by rewrite (settings_completed s1) by apply wait_settings. }
  assert (Hfail : forall d ph err, core_inv (record_rows ever db1) s1 d ->
    state_inv (mkSchedState (waitPublishes (te_drain_now te) (te_arrivals te) (setFatal err s1)) d ph (record_rows ever db1))).
  { intros d ph err Hd. apply state_open; [by apply core_wait, core_setFatal|].
    by rewrite (settings_completed (setFatal err s1)) by apply wait_settings. }
  destruct r as [err|]; [destruct (te_ctx_after te); injection H as <- <- <-; auto|].
  assert (Hc2 := core_emptied _ _ _ _ Hc1 (Hdel db1)). set (db2 := te_deleted te db1) in *.
  destruct (checkCompletion _ _ _ s1 db2) as [[] e] eqn:Ec.
  - destruct e as [err|]; [destruct (te_ctx_after te); injection H as <- <- <-; auto|].
    apply (completed_drained _ _ _ _ (ci_outbox _ _ _ Hc2)) in Ec as (Hft & Hgd & Hnone). injection H as <- <- <-.
    destruct (core_wait _ _ _ (te_drain_now te) (te_arrivals te) (core_completed _ _ _ true Hc2)) as [Hs3 Ho3 Hh3].
    pose proof (wait_settings (te_drain_now te) (te_arrivals te) (set_completed true s1)) as Hset.
    injection Hset as _ _ Hft3 Hgd3 _ _ _ _ _.
    constructor; cbn [sc_sched sc_db sc_phase sc_ever next_phase]; [done..|]. intros _. rewrite Hft3, Hgd3. by split_and!.
  - injection H as <- <- <-. apply state_open; [by apply core_arm|]. unfold armTimer, resetTimer. by case_tests.
Qed.

Lemma select_inv k now arrivals s db ever v s' : core_inv ever s db ->
  (forall order read ended, k = wake_notify order read ended -> forall id, (read id).2 = db) ->
  select_arm o k now arrivals s = (v, s') -> core_inv ever s' db /\ completed s' = completed s.
Proof.
  intros Hc Hread H. destruct k as [|err|err| |order read ended|a|]; cbn in H; injection H as <- <-.
  - split; [by apply core_wait|]. by rewrite (settings_completed s) by apply wait_settings.
  - split; [by apply core_wait, core_setFatal|].
    by rewrite (settings_completed (setFatal (default ErrSchedulerFatal err) s)) by apply wait_settings.
  - split; [by apply core_wait, core_setFatal|].
    by rewrite (settings_completed (setFatal (default ErrSchedulerFatal err) s)) by apply wait_settings.
  - done.
  - destruct Hc as [Hs Ho Hh]. split.
    + constructor; [|done..]. apply sync_inv; [done|]. intros id. rewrite (Hread _ _ _ eq_refl id).
      split; [done|apply emptied_refl].
    + unfold syncInflight. destruct (for_entries _ order s) as [r s1] eqn:E.
      assert (H1 : completed s1 = completed s).
      { revert E. apply (for_entries_inv (fun x => completed x = completed s)); [|done].
        intros id x rx x' Hx. unfold sync_entry. by repeat case_match; intros [= _ <-]. }
      destruct r; [destruct ended|]; done.
  - destruct Hc as [Hs Ho Hh]. split; [constructor; [by apply inv_result|done..]|].
    by rewrite (settings_completed s) by apply take_result_settings.
  - done.
Qed.

Lemma sched_step_inv y y' : state_inv y -> sched_step y y' -> state_inv y'.
Proof.
  intros Hy Hs. destruct Hs as [te s db0 db ever v s' db' _ Hok Hdel Hl|k now arrivals s db ever v s' Hread Hsel
    |s db db' ph ever He|deadline s db ph ever]; [exact (turn_inv _ _ _ _ _ _ _ _ Hy Hok Hdel Hl)| | |].
  - destruct Hy as [Hs Ho Hh Hc]. cbn [sc_sched sc_db sc_phase sc_ever] in *.
    destruct (select_inv k now arrivals s db ever v s') as [Hc' Hco]; [by constructor|done..|].
    apply state_open; [done|]. rewrite Hco. destruct (completed s); [by destruct Hc|done].
  - destruct Hy as [Hs Ho Hh Hc]. cbn [sc_sched sc_db sc_phase sc_ever] in *. constructor; cbn [sc_sched sc_db sc_phase sc_ever].
    + exact (inv_emptied _ _ _ _ Hs He).
    + exact (emptied_inv _ _ _ He Ho).
    + done.
    + intros Hco. destruct (Hc Hco) as (H1 & H2 & H3 & H4). split_and!; try done.
      intros id Hp. by eapply H4, pending_emptied.
  - destruct Hy as [Hs Ho Hh Hc]. unfold BeginShutdown.
    destruct (IsZero deadline); [by constructor|]. destruct (_ || _); [|by constructor].
    constructor; cbn [sc_sched sc_db sc_phase sc_ever] in *; [destruct Hs; by constructor|done..].
Qed.

Lemma sched_start_inv opts db0 y : outbox_inv (uuid := uuid) o db0 -> sched_start opts db0 y -> state_inv y.
Proof. intros Hinv []. by eapply NewScheduler_inv. Qed.

Lemma sched_reachable_inv opts db0 y : outbox_inv (uuid := uuid) o db0 -> sched_reachable opts db0 y -> state_inv y.
Proof.
  intros Hinv. induction 1 as [y Hy|y y' _ IH Hs]; [by eapply sched_start_inv|by eapply sched_step_inv].
Qed.

(** C36 At any moment of any run: the in-flight set stays within its
    bound; no message ever has two publish invocations running; an entry is
    publishing exactly when its invocation runs; and every publication ever
    started is, byte for byte, the topic and payload of the one row the outbox
    ever stored under that message. *)
Theorem publish_discipline opts db0 y : outbox_inv (uuid := uuid) o db0 -> sched_reachable opts db0 y ->
  Z.of_nat (size (inflight (sc_sched y))) <= c_maxInflight (cfg (sc_sched y))
  /\ NoDup (map pub_id (invocations (sc_sched y)))
  /\ (forall id e, inflight (sc_sched y) !! id = Some e ->
        state e = statePublishing <-> id ∈ map pub_id (invocations (sc_sched y)))
  /\ Forall (fun p => exists row, publishes row p /\ forall row', row' ∈ sc_ever y ->
        o_message_id row' = uuid_String (pub_id p) <-> row' = row) (started_log (sc_sched y))
  /\ publishAttempts (sc_sched y) = Z.of_nat (length (started_log (sc_sched y))).
Proof.
  intros Hinv Hr. apply sched_reachable_inv in Hr as [[] _ [Hu _] _]; [|done]. split_and!; try done.
  eapply list.Forall_impl; [exact si_verbatim|]. intros p (row & Hrow & Hm & Ht & Hp). exists row. split; [by split_and!|].
  intros row' Hrow'. split; [|by intros ->]. intros E. apply Hu; [done..|congruence].
Qed.

(** A finite run never generates more than its target, and it ends as
    complete only when it generated exactly its target and no pending row of
    the outbox is left: every batch was acknowledged.  A complete run returns
    without an error. *)
Theorem finite_run_complete opts db0 y : outbox_inv (uuid := uuid) o db0 -> sched_reachable opts db0 y ->
  (0 < finiteTarget (sc_sched y) -> uniqueEnqueued (sc_sched y) <= finiteTarget (sc_sched y))
  /\ (completed (sc_sched y) = true ->
      sc_phase y = Finished None /\ 0 < finiteTarget (sc_sched y)
      /\ uniqueEnqueued (sc_sched y) = finiteTarget (sc_sched y)
      /\ Forall (fun row => is_pending row = false) (outbox (sc_db y))).
Proof.
  intros Hinv Hr. apply sched_reachable_inv in Hr as [Hs Ho _ Hc]; [|done]. split.
  - intros Hpos. by apply (si_finite _ _ _ Hs).
  - intros Hdone. destruct (Hc Hdone) as (Hph & Hpos & Hgd & Hnone). split_and!; [done..| |].
    + by apply (si_finite _ _ _ Hs).
    + apply list.Forall_forall. intros row Hrow. destruct (is_pending row) eqn:E; [exfalso|done].
      assert (Hok := inv_rows _ _ Ho). rewrite list.Forall_forall in Hok. destruct (ro_batch _ _ (Hok _ Hrow)) as (b & Hb).
      apply (Hnone (MessageID b)). exists row. split; [done|]. split; [apply (rb_message _ _ Hb)|done].
Qed.
End run.
