(* ===== verification/Uplink.v ===== *)
(** * What the server holds of one Gateway's outbox

    The ingress core with the telemetry package behind it, fed with deliveries
    of which those under one Gateway's topics are publications of its outbox
    rows.  Every ledger row of that Gateway is then the exact image of an outbox
    row, samples included. *)

From S2P Require Import Prelude GoStrings GoSha256 GoTime GoFloat GoJson Uuid Identity Telemetry Decode Validation.
From S2P Require Import Message Txn Store Persist PersistSpec Ingress IngressSpec Batch.
From S2P Require Import Outbox OutboxSpec OutboxQueue AckParse AckProcessor Scheduler SchedulerInv SchedulerRun.
#[local] Open Scope Z_scope.

(** ** Texts *)

Lemma str_app_inv_l s t1 t2 : s +:+ t1 = s +:+ t2 -> t1 = t2.
Proof. induction s as [|c s IH]; [done|]. rewrite !str_app_cons. by intros [= H%IH]. Qed.

Lemma str_app_inv_len s1 s2 t1 t2 : s1 +:+ t1 = s2 +:+ t2 -> String.length t1 = String.length t2 -> s1 = s2 /\ t1 = t2.
Proof.
  revert s2. induction s1 as [|c s1 IH]; intros [|c' s2] H Hl; rewrite ?str_app_cons, ?str_app_nil_l in H.
  - done.
  - apply (f_equal String.length) in H. cbn in H. rewrite str_length_app in H. lia.
  - apply (f_equal String.length) in H. cbn in H. rewrite str_length_app in H. lia.
  - injection H as -> H. destruct (IH _ H Hl) as [-> ->]. done.
Qed.

Section server.
Context {uuid : Type} `{!UuidLib uuid} `{!UuidLaws uuid}.
Implicit Types (row : OutboxRow) (db : DB uuid) (m : Message uuid) (ever : list OutboxRow).

(** The server's validator has the limits the simulator checks against. *)
Definition server_validator : Validator := mkValidator ServerLimits.
Definition server_pipeline : Pipeline uuid (DB uuid) := telemetry_pipeline server_validator.

Lemma server_duration : MaxBatchDuration (limits server_validator) <= max_int64.
Proof. done. Qed.

#[export] Instance server_contract : RepositoryContract server_pipeline :=
  telemetry_contract server_validator server_duration.

(** ** The image of an outbox row *)

(** The server holds the row: its ledger entry carries the payload's hash and
    the row's sequence range, and the raw samples are those of the batch, each
    with its value, time, sequence number and index, each once, and no others. *)
Record server_has db row : Prop := {
  has_image : exists m lrow base, message_ok m /\ row_batch row (batch m) /\ rawPayload m = o_payload row
    /\ processed_messages db !! (GatewayID (batch m), MessageID (batch m)) = Some lrow
    /\ l_payload_hash lrow = sha256_hex (o_payload row)
    /\ l_first_sequence lrow = Some (o_first_sequence row) /\ l_sample_count lrow = Some (o_sample_count row)
    /\ rows_of db (GatewayID (batch m), MessageID (batch m))
       = imap (fun i s => telemetry_row (base + Z.of_nat i) s) (samples m)
}.

(** What arrives under the Gateway's name is a stored row. *)
Definition arrives (g : string) ever (topic payload : string) : Prop :=
  (exists row, row ∈ ever /\ topic = o_topic row /\ payload = o_payload row)
  \/ forall p, ParseTopic topic = Ok p -> t_GatewayID p <> g.

(** Every ledger row of the Gateway is the image of an outbox row. *)
Definition content (g : string) ever db : Prop :=
  forall id lrow, processed_messages db !! (g, id) = Some lrow ->
  exists row, row ∈ ever /\ o_message_id row = uuid_String id /\ server_has db row.

Lemma has_image_keeps now db m md resource db' row : message_ok m -> entry_of m md ->
  committed_effect now db m md resource db' -> server_has db row -> server_has db' row.
Proof.
  intros Hm Hent Heff [(m0 & lrow & base & H1 & H2 & H3 & H4 & H5 & H6 & H7 & H8)].
  assert (Hne : (GatewayID (batch m0), MessageID (batch m0)) <> ledger_key md).
  { intros E. rewrite E in H4. by rewrite (eff_absent _ _ _ _ _ _ Heff) in H4. }
  constructor. exists m0, lrow, base. split_and!; try done.
  - by rewrite (eff_ledger _ _ _ _ _ _ Heff), lookup_insert_ne.
  - rewrite (effect_rows_of _ _ _ _ _ _ _ Hm Hent Heff). by rewrite decide_False.
Qed.

(** The validated message of a row is the row's batch. *)
Lemma validated_row row b received m : row_batch row b ->
  Validate (Some server_validator) (o_topic row) (o_payload row) received = Ok m -> batch m = b.
Proof.
  intros Hb Hv. destruct (rb_accepted _ _ Hb) as (since & Hacc).
  destruct (Hacc since ltac:(done)) as (m' & Hv' & Hb').
  unfold Validate in Hv, Hv'. destruct (Limits_Validate _); [done|]. inv_ok Hv. inv_ok Hv'. subst. cbn [batch] in *.
  match goal with H1 : decodeBatch _ _ _ = Ok ?b1, H2 : decodeBatch _ _ _ = Ok ?b2 |- ?b1 = ?b2 =>
    cbn [limits server_validator] in H1, H2; rewrite H1 in H2; by injection H2 end.
Qed.

Lemma effect_has now db m md resource db' row : message_ok m -> entry_of m md -> samples_in_step db ->
  committed_effect now db m md resource db' -> row_batch row (batch m) -> rawPayload m = o_payload row ->
  server_has db' row.
Proof.
  intros Hm Hent Hstep Heff Hb Hp. assert (Hkey := entry_key _ _ Hm Hent).
  constructor. exists m, (ledger_row md), (sample_id_seq db). split_and!; try done.
  - by rewrite <- Hkey, (eff_ledger _ _ _ _ _ _ Heff), lookup_insert_eq.
  - cbn. rewrite (ent_hash _ _ Hent), (mok_hash _ Hm). by rewrite Hp.
  - cbn. rewrite (ent_first _ _ Hent). by rewrite (rb_first _ _ Hb).
  - cbn. rewrite (ent_count _ _ Hent). by rewrite (rb_count _ _ Hb).
  - rewrite (effect_rows_of _ _ _ _ _ _ _ Hm Hent Heff), decide_True by done.
    specialize (Hstep (ledger_key md)). rewrite (eff_absent _ _ _ _ _ _ Heff) in Hstep. by rewrite <- Hkey, Hstep.
Qed.

Record server_inv (g : string) ever db : Prop := {
  sr_content : content g ever db;
  sr_step : samples_in_step db;
}.

Lemma persist_server_inv g ever db topic_text payload received m w :
  Forall (fun row => exists b : BatchDTO uuid, row_batch row b) ever -> arrives g ever topic_text payload ->
  Validate (Some server_validator) topic_text payload received = Ok m -> server_inv g ever db ->
  server_inv g ever (Persist w true (Some m) db).2
  /\ forall row, server_has db row -> server_has (Persist w true (Some m) db).2 row.
Proof.
  intros Hrows Harr Hv [Hc Hs].
  destruct (Validate_message_ok _ _ _ _ _ server_duration Hv) as (Hm & Hraw & _ & Htopic).
  destruct (ledgerMetadata_valid m Hm) as (md & Hmd & Hent).
  destruct (Persist w true (Some m) db) as [r db'] eqn:E. cbn [snd].
  destruct (persist_cases _ _ _ _ _ _ _ Hmd E) as [->|[resource Heff]]; [done|].
  assert (Hkeep : forall row, server_has db row -> server_has db' row) by (intros; by eapply has_image_keeps).
  split; [|done]. constructor; [|by eapply effect_samples_in_step].
  assert (Hkey := entry_key _ _ Hm Hent).
  intros id lrow. rewrite (eff_ledger _ _ _ _ _ _ Heff), Hkey. intros [[[= Hg Hid] <-]|[_ H]]%lookup_insert_Some.
  - destruct Harr as [(row & Hrow & -> & ->)|Hother].
    + rewrite list.Forall_forall in Hrows. destruct (Hrows _ Hrow) as (b & Hb).
      assert (Hbm := validated_row _ _ _ _ Hb Hv). subst b. exists row. split; [done|]. split.
      * rewrite (rb_message _ _ Hb). by f_equal.
      * by eapply effect_has.
    + exfalso. apply (Hother (topic m)); [|by rewrite (mok_topic _ Hm)].
      unfold Validate in Hv. destruct (Limits_Validate _); [done|]. inv_ok Hv. by subst m.
  - destruct (Hc _ _ H) as (row & ? & ? & ?). exists row. auto.
Qed.

(** ** Everything the core holds arrived *)

Record all_arrived (Q : string -> string -> Prop) (y : System (DB uuid)) : Prop := {
  aa_queue : Forall (fun it => Q (it_topic it) (it_payload it)) (i_queue (y_ingress y));
  aa_workers : forall k d it, i_workers (y_ingress y) !! k = Some (WHolding d it) -> Q (it_topic it) (it_payload it);
  aa_admits : forall t a, y_admits y !! t = Some (AEntered a) \/ y_admits y !! t = Some (ALocked a)
    \/ y_admits y !! t = Some (AChecked a) -> Q (ar_topic a) (ar_payload a);
}.

(** The call that enters in this step. *)
Definition enters_with (Q : string -> string -> Prop) (y y' : System (DB uuid)) : Prop :=
  forall t a, y_admits y' !! t = Some (AEntered a) -> y_admits y !! t = Some (AEntered a) \/ Q (ar_topic a) (ar_payload a).

Lemma admit_send_queue a i d i' : admit_send a i = (d, i') ->
  i_workers i' = i_workers i
  /\ (i_queue i' = i_queue i \/ i_queue i' = i_queue i ++ [Ingress.mkItem (ar_topic a) (ar_payload a) (ar_at a)]).
Proof. unfold admit_send. intros H. repeat case_match; injection H as <- <-; split; auto. Qed.

Lemma recordQueueHighWater_keeps n i :
  i_workers (recordQueueHighWater n i) = i_workers i /\ i_queue (recordQueueHighWater n i) = i_queue i.
Proof. unfold recordQueueHighWater. by repeat case_match. Qed.

(** A call moves to a later point, or leaves. *)
Lemma arrived_admits Q y i t x : all_arrived Q y ->
  i_queue i = i_queue (y_ingress y) -> i_workers i = i_workers (y_ingress y) ->
  (forall a, x = AEntered a \/ x = ALocked a \/ x = AChecked a -> Q (ar_topic a) (ar_payload a)) ->
  all_arrived Q (upd y i (<[t := x]> (y_admits y))).
Proof.
  intros [Hq Hw Ha] Ei Ew Hx. constructor; cbn [upd y_ingress y_admits]; rewrite ?Ei, ?Ew; try done.
  intros t' a H. rewrite !lookup_insert_Some in H.
  destruct H as [[[_ H]|[_ H]]|[[[_ H]|[_ H]]|[[_ H]|[_ H]]]]; first [by apply Hx; auto | by eapply Ha; eauto].
Qed.

Lemma arrived_leaves Q y i t : all_arrived Q y ->
  i_queue i = i_queue (y_ingress y) -> i_workers i = i_workers (y_ingress y) ->
  all_arrived Q (upd y i (delete t (y_admits y))).
Proof.
  intros [Hq Hw Ha] Ei Ew. constructor; cbn [upd y_ingress y_admits]; rewrite ?Ei, ?Ew; try done.
  intros t' a H. apply (Ha t'). rewrite !lookup_delete_Some in H. tauto.
Qed.

Lemma admit_step_arrived Q y y' : admit_step y y' -> enters_with Q y y' -> all_arrived Q y -> all_arrived Q y'.
Proof.
  intros Hs Henter Hy. assert (Hy' := Hy). destruct Hy' as [Hq Hw Ha].
  destruct Hs as [Hn|t a Hst Hn|t a Ht|t a Ht Hst|t a Ht Hst|t a d i' Ht Hsend Hd|t a i' Ht Hsend|t Ht|t Ht|t n Ht].
  - by constructor.
  - apply arrived_admits; try done. intros a' [[= <-]|[|]]; [|done..].
    destruct (Henter t a) as [H|H]; [cbn; by rewrite lookup_insert_eq|congruence|done].
  - apply arrived_admits; try done. intros a' [|[[= <-]|]]; [done| |done]. eauto.
  - by apply arrived_leaves.
  - apply arrived_admits; try done. intros a' [|[|[= <-]]]; [done..|]. eauto.
  - destruct (admit_send_queue _ _ _ _ Hsend) as [Ew [Eq|Eq]]; [by apply arrived_leaves|].
    exfalso. apply Hd. unfold admit_send in Hsend. repeat case_match; injection Hsend as <- <-; try done;
      apply (f_equal length) in Eq; rewrite length_app in Eq; cbn in Eq; lia.
  - destruct (admit_send_queue _ _ _ _ Hsend) as [Ew Eq]. constructor; cbn [y_ingress y_admits].
    + destruct Eq as [-> | ->]; [done|]. apply list.Forall_app. split; [done|]. constructor; [|constructor]. cbn. eauto.
    + intros k d it. rewrite Ew. apply Hw.
    + intros t' a' H. apply (Ha t'). rewrite !lookup_insert_Some in H.
      destruct H as [[[_ H]|[_ H]]|[[[_ H]|[_ H]]|[[_ H]|[_ H]]]]; try done; auto.
  - apply arrived_admits; try done. by intros a' [|[|]].
  - apply arrived_admits; try done. by intros a' [|[|]].
  - destruct (recordQueueHighWater_keeps n (y_ingress y)) as [Ew Eq]. by apply arrived_leaves.
Qed.

Lemma worker_step_arrived Q y y' : worker_step server_pipeline y y' -> all_arrived Q y -> all_arrived Q y'.
Proof.
  intros Hs [Hq Hw Ha]. destruct Hs as [k d it q Hk Hqe|k d it env Hk fx|k Hk Hst|k Hk Hqe];
    constructor; cbn [upd y_ingress y_admits set_workers set_queue set_counters i_queue i_workers] in *; try done.
  - rewrite Hqe in Hq. by inversion Hq.
  - intros k' d' it' [[_ [[= <- <-] _]]|[_ H]]%list_lookup_insert_Some; [|eauto]. rewrite Hqe in Hq. by inversion Hq.
  - intros k' d' it' [[_ [? _]]|[_ H]]%list_lookup_insert_Some; [done|eauto].
  - intros k' d' it' [[_ [? _]]|[_ H]]%list_lookup_insert_Some; [done|eauto].
  - intros k' d' it' [[_ [? _]]|[_ H]]%list_lookup_insert_Some; [done|eauto].
Qed.

Lemma control_step_arrived Q (y y' : System (DB uuid)) : control_step y y' -> all_arrived Q y -> all_arrived Q y'.
Proof.
  intros Hs [Hq Hw Ha]. destruct Hs as [i' Hi|Hf| |]; constructor; cbn [upd y_ingress y_admits] in *; try done.
  - unfold Ingress.Start in Hi. by repeat case_match; simplify_eq.
  - unfold Ingress.Start in Hi. repeat case_match; simplify_eq. cbn [i_workers].
    intros k d it Hk. apply lookup_replicate in Hk as [Hk _]. done.
  - unfold StopAdmission. by case_match.
  - unfold StopAdmission. by case_match.
Qed.

(** One step of the core keeps what the server holds. *)
Lemma step_server_inv g ever (y y' : System (DB uuid)) : step server_pipeline y y' ->
  Forall (fun row => exists b : BatchDTO uuid, row_batch row b) ever -> all_arrived (arrives g ever) y ->
  enters_with (arrives g ever) y y' -> server_inv g ever (y_store y) ->
  all_arrived (arrives g ever) y' /\ server_inv g ever (y_store y')
  /\ forall row, server_has (y_store y) row -> server_has (y_store y') row.
Proof.
  intros Hs Hrows Harr Henter Hinv. destruct Hs as [Hs|Hs|Hs].
  - split; [by eapply admit_step_arrived|]. by destruct Hs.
  - split; [by eapply worker_step_arrived|]. destruct Hs as [| k d it env Hk fx| |]; try done. cbn [y_store].
    destruct (process_store server_pipeline env it (i_counters (y_ingress y)) (y_store y)) as [E|(m & Hv & E)];
      change (fx_store fx) with (fx_store (process server_pipeline env it (i_counters (y_ingress y)) (y_store y)));
      rewrite E; [done|].
    eapply persist_server_inv; [done|eapply (aa_workers _ _ Harr); exact Hk|exact Hv|done].
  - split; [by eapply control_step_arrived|]. by destruct Hs.
Qed.

Lemma arrives_mono g ever ever' t p : (forall row, row ∈ ever -> row ∈ ever') -> arrives g ever t p -> arrives g ever' t p.
Proof. intros Hsub [(row & Hr & H)|H]; [left; exists row; auto|by right]. Qed.

Lemma all_arrived_mono Q Q' (y : System (DB uuid)) : (forall t p, Q t p -> Q' t p) -> all_arrived Q y -> all_arrived Q' y.
Proof.
  intros HQ [Hq Hw Ha]. constructor; [eapply list.Forall_impl; [exact Hq|]; auto|eauto|eauto].
Qed.

Lemma server_inv_mono g ever ever' db : (forall row, row ∈ ever -> row ∈ ever') -> server_inv g ever db -> server_inv g ever' db.
Proof.
  intros Hsub [Hc Hs]. constructor; [|done]. intros id lrow H. destruct (Hc _ _ H) as (row & Hr & H'). exists row. auto.
Qed.

(** An acknowledgement of the core for the Gateway names a row it holds. *)
Lemma acknowledged_row g ever db (d : Delivery) (id : uuid) : server_inv g ever db ->
  acknowledges server_pipeline db d -> d_Topic d = ack_topic g id ->
  exists row, row ∈ ever /\ o_message_id row = uuid_String id /\ server_has db row.
Proof.
  intros [Hc _] (g' & id' & t & (lrow & first & Hl & _) & Ht & _) Htopic. rewrite Htopic in Ht.
  assert (E : g = g' /\ uuid_String id = uuid_String id').
  { unfold ack_topic in Ht. apply str_app_inv_l in Ht. apply str_app_inv_len in Ht as [-> Ht].
    - apply str_app_inv_l in Ht. done.
    - rewrite !str_length_app, !uuid_String_length. done. }
  destruct E as [<- E]. apply (inj uuid_String) in E as <-. by eapply Hc.
Qed.
End server.

(** * End to end: no batch is lost

    The simulator's scheduler and acknowledgement worker, the broker and the
    server's ingress core with the telemetry package, composed.  The broker may
    lose, repeat, delay and reorder; other Gateways may send anything under
    their own topics. *)

Section uplink.
Context {uuid : Type} `{!UuidLib uuid} `{!UuidLaws uuid}.
Variable o : Outbox.
Implicit Types (s : Scheduler uuid) (p : ACKProcessor uuid) (db : OutboxDB) (row : OutboxRow) (ever : list OutboxRow).
Implicit Types (srv : System (DB uuid)).

(** ** The acknowledgement worker beside the scheduler *)

(** What the worker and its callback do, fed with the acknowledgements the
    server published. *)
Inductive worker_move (published : list Delivery) : AckSystem uuid -> AckSystem uuid -> Prop :=
| move_start p db : worker_move published (mkAckSystem p db) (mkAckSystem (AckProcessor.Start p) db)
| move_stop p db : worker_move published (mkAckSystem p db) (mkAckSystem (Stop p) db)
| move_exit p db : running p -> p_done p = true ->
    worker_move published (mkAckSystem p db) (mkAckSystem (with_control (p_done p) (p_started p) true p) db)
| move_deliver d retained p db : d ∈ published ->
    worker_move published (mkAckSystem p db)
      (mkAckSystem (AckProcessor.Admit (d_Topic d) (d_Payload d) retained p) db)
| move_item w admission rest p db : running p -> p_admissions p = admission :: rest ->
    worker_move published (mkAckSystem p db) (run_item w o admission rest (mkAckSystem p db)).

Inductive worker_moves (published : list Delivery) : AckSystem uuid -> AckSystem uuid -> Prop :=
| moves_none y : worker_moves published y y
| moves_more y1 y2 y3 : worker_moves published y1 y2 -> worker_move published y2 y3 -> worker_moves published y1 y3.

(** The moves are steps of the acknowledgement system. *)
Lemma worker_move_step published y y' : worker_move published y y' -> ack_step o y y'.
Proof. intros []; by constructor. Qed.

(** Every queued admission came from the server. *)
Record worker_inv (published : list Delivery) p : Prop := {
  wi_gateway : p_gatewayID p = gatewayID o;
  wi_genuine : Forall (fun a => exists d, d ∈ published /\ adm_topic a = d_Topic d /\ adm_payload a = d_Payload d)
    (p_admissions p);
}.

(** Rows leave the file only for the server. *)
Record handed_over (store : DB uuid) db db' : Prop := {
  ho_emptied : emptied db db';
  ho_server : forall row, row ∈ outbox db -> row ∈ outbox db' \/ server_has store row;
}.

Lemma handed_over_refl store db : handed_over store db db.
Proof. constructor; [apply emptied_refl|auto]. Qed.

Lemma handed_over_trans store db1 db2 db3 : handed_over store db1 db2 -> handed_over store db2 db3 -> handed_over store db1 db3.
Proof.
  intros [H1 H2] [H3 H4]. constructor; [by eapply emptied_trans|]. intros row Hr.
  destruct (H2 _ Hr) as [Hr2|]; [by apply H4|by right].
Qed.

(** One row less. *)
Lemma emptied_one db l1 row l2 : outbox_inv (uuid := uuid) o db -> outbox db = l1 ++ row :: l2 ->
  emptied db (set_outbox (l1 ++ l2) db).
Proof.
  intros Hinv E. exists (fun r => negb (bool_decide (r = row))). f_equal. rewrite E, List.filter_app. cbn [List.filter].
  rewrite bool_decide_true by done. cbn [negb].
  assert (Hs := inv_order _ _ Hinv). rewrite E in Hs.
  assert (Hne : forall r, r ∈ l1 \/ r ∈ l2 -> r <> row).
  { intros r Hr ->. destruct Hr as [Hr|Hr]; apply list_elem_of_lookup in Hr as [i Hi].
    - assert (Hlt := lookup_lt_Some _ _ _ Hi).
      destruct (StronglySorted_lookup _ _ i (length l1) row row Hs) as (_ & Hn & _); [done| | |done].
      + by rewrite lookup_app_l.
      + by rewrite lookup_app_r, Nat.sub_diag by lia.
    - destruct (StronglySorted_lookup _ _ (length l1) (length l1 + S i) row row Hs) as (_ & Hn & _); [lia| | |done].
      + by rewrite lookup_app_r, Nat.sub_diag by lia.
      + rewrite lookup_app_r by lia. by replace (length l1 + S i - length l1)%nat with (S i) by lia. }
  assert (Hid : forall l, (forall r, r ∈ l -> r <> row) -> List.filter (fun r => negb (bool_decide (r = row))) l = l).
  { intros l Hl. induction l as [|x l IH]; [done|]. cbn [List.filter]. rewrite bool_decide_false by (apply Hl; left).
    cbn [negb]. f_equal. apply IH. intros r Hr. apply Hl. by right. }
  rewrite !Hid; [done|intros r Hr; apply Hne; auto..].
Qed.

Section moves.
Variables (ever : list OutboxRow) (store : DB uuid) (published : list Delivery).
Hypothesis Hacks : Forall (acknowledges server_pipeline store) published.
Hypothesis Hserver : server_inv (gatewayID o) ever store.
Hypothesis Hunique : forall r1 r2, r1 ∈ ever -> r2 ∈ ever -> o_message_id r1 = o_message_id r2 -> r1 = r2.

(** The row an acknowledgement removes is one the server holds. *)
Lemma removed_is_held topic payload (ack : CommitACK uuid) row :
  (exists d, d ∈ published /\ topic = d_Topic d /\ payload = d_Payload d) ->
  ParseCommitACK topic payload (gatewayID o) = Ok ack -> row ∈ ever ->
  o_message_id row = uuid_String (a_MessageID ack) -> server_has store row.
Proof.
  intros (d & Hd & -> & ->) Hp Hrow Hm. apply ParseCommitACK_topic in Hp.
  rewrite list.Forall_forall in Hacks.
  destruct (acknowledged_row _ _ _ _ _ Hserver (Hacks _ Hd) Hp) as (row' & Hrow' & Hm' & Hhas).
  by rewrite (Hunique row row' Hrow Hrow') by congruence.
Qed.

Lemma worker_move_inv y y' : worker_move published y y' -> worker_inv published (as_proc y) ->
  outbox_inv (uuid := uuid) o (as_db y) -> (forall row, row ∈ outbox (as_db y) -> row ∈ ever) ->
  worker_inv published (as_proc y') /\ handed_over store (as_db y) (as_db y').
Proof.
  intros Hs Hy Hinv Hever. destruct Hs as [p db|p db|p db _ _|d retained p db Hd|w admission rest p db Hrun Hadm];
    cbn [as_proc as_db] in *.
  - split; [|apply handed_over_refl]. unfold AckProcessor.Start. case_match; [done|]. by destruct Hy.
  - split; [by destruct Hy|apply handed_over_refl].
  - split; [by destruct Hy|apply handed_over_refl].
  - split; [|apply handed_over_refl]. destruct Hy as [Hg Hq]. unfold AckProcessor.Admit. repeat case_match; constructor; try done.
    cbn. apply list.Forall_app. split; [done|]. constructor; [|constructor]. by exists d.
  - destruct Hy as [Hg Hq]. rewrite Hadm in Hq. apply list.Forall_cons in Hq as [Hgen Hq].
    unfold run_item. cbn [as_proc as_db].
    assert (Hone : forall (ack : CommitACK uuid) l1 row l2,
      ParseCommitACK (adm_topic admission) (adm_payload admission) (gatewayID o) = Ok ack ->
      outbox db = l1 ++ row :: l2 -> o_message_id row = uuid_String (a_MessageID ack) ->
      handed_over store db (set_outbox (l1 ++ l2) db)).
    { intros ack l1 row l2 Hp Hrows Hm. constructor; [by eapply emptied_one|]. cbn [set_outbox outbox].
      assert (Hrow : row ∈ outbox db) by (rewrite Hrows; apply elem_of_app; right; left).
      intros r. rewrite Hrows. rewrite !elem_of_app, elem_of_cons. intros [?|[->|?]]; auto. right.
      eapply removed_is_held; eauto. }
    destruct (handleAdmission_handled o w admission (with_admissions rest p) db Hg Hinv)
      as [|ack l1 row l2 Hp Hrows Hm Hst|ack err db' Hp Hdb]; cbn [as_proc as_db].
    + split; [by constructor|apply handed_over_refl].
    + split; [by constructor|by eapply Hone].
    + split; [by constructor|]. destruct Hdb as [->|(l1 & row & l2 & Hrows & Hm & _ & ->)];
        [apply handed_over_refl|by eapply Hone].
Qed.

Lemma worker_moves_inv y y' : worker_moves published y y' -> worker_inv published (as_proc y) ->
  outbox_inv (uuid := uuid) o (as_db y) -> (forall row, row ∈ outbox (as_db y) -> row ∈ ever) ->
  worker_inv published (as_proc y') /\ handed_over store (as_db y) (as_db y').
Proof.
  intros Hs Hw Hinv Hever. induction Hs as [y|y1 y2 y3 _ IH Hm]; [split; [done|apply handed_over_refl]|].
  destruct (IH Hw Hinv Hever) as [Hw2 Hh2]. destruct (worker_move_inv _ _ Hm Hw2) as [Hw3 Hh3].
  - eapply emptied_inv; [apply Hh2|done].
  - intros row Hr. apply Hever. by eapply emptied_row; [apply Hh2|].
  - split; [done|by eapply handed_over_trans].
Qed.
End moves.

(** ** The composed system *)

Record Uplink := mkUplink {
  u_sched : SchedState;
  u_ack : ACKProcessor uuid;
  u_server : System (DB uuid);
}.

(** What may reach the server: a publication of the scheduler, any number of
    times, or a delivery under another Gateway's topics. *)
Definition reaches s (topic payload : string) : Prop :=
  (exists pub, pub ∈ started_log s /\ topic = pub_topic pub /\ payload = pub_payload pub)
  \/ forall t, ParseTopic topic = Ok t -> t_GatewayID t <> gatewayID o.

(** The worker may move between any two reads of a scheduler turn. *)
Inductive up_step : Uplink -> Uplink -> Prop :=
| up_turn te s db0 db ever v s' db' p1 p2 p3 srv :
    worker_moves (y_published srv) (mkAckSystem p1 db0) (mkAckSystem p2 db) ->
    pass_ok ever (te_pass te) db0 db -> (forall d, emptied d (te_deleted te d)) ->
    loop_turn o te s db = (v, s', db') ->
    worker_moves (y_published srv) (mkAckSystem p2 (file_after_pass o te s db)) (mkAckSystem p3 db') ->
    up_step (mkUplink (mkSchedState s db0 AtTop ever) p1 srv)
      (mkUplink (mkSchedState s' db' (next_phase v) (record_rows ever (file_after_pass o te s db))) p3 srv)
| up_select k now arrivals s db ever v s' p srv :
    (forall order read ended, k = wake_notify order read ended -> forall id, (read id).2 = db) ->
    select_arm o k now arrivals s = (v, s') ->
    up_step (mkUplink (mkSchedState s db AtSelect ever) p srv) (mkUplink (mkSchedState s' db (next_phase v) ever) p srv)
| up_deadline deadline s db ph ever p srv :
    up_step (mkUplink (mkSchedState s db ph ever) p srv)
      (mkUplink (mkSchedState (BeginShutdown deadline s) db ph ever) p srv)
| up_worker s db ph ever p p' db' srv :
    worker_move (y_published srv) (mkAckSystem p db) (mkAckSystem p' db') ->
    up_step (mkUplink (mkSchedState s db ph ever) p srv) (mkUplink (mkSchedState s db' ph ever) p' srv)
| up_server y p srv srv' : Ingress.step server_pipeline srv srv' -> enters_with (reaches (sc_sched y)) srv srv' ->
    up_step (mkUplink y p srv) (mkUplink y p srv').

(** Both sides start: the simulator on a file whose rows of earlier runs are
    stored or with the server already, the server on consistent tables. *)
Inductive up_reachable (opts : SchedulerOptions uuid) (capacity : Z) (latency : bool) (sopts : Options)
    (db0 : OutboxDB) (st0 : DB uuid) : Uplink -> Prop :=
| up_init y p i : sched_start o opts db0 y ->
    NewACKProcessor (Some o) capacity latency = Ok p -> New sopts = Ok i ->
    server_inv (gatewayID o) (sc_ever y) st0 ->
    (forall row, row ∈ sc_ever y -> row ∈ outbox db0 \/ server_has st0 row) ->
    up_reachable opts capacity latency sopts db0 st0 (mkUplink y p (mkSystem i ∅ st0 [] 0))
| up_next u u' : up_reachable opts capacity latency sopts db0 st0 u -> up_step u u' ->
    up_reachable opts capacity latency sopts db0 st0 u'.

Record up_inv (sopts : Options) (st0 : DB uuid) (u : Uplink) : Prop := {
  ui_state : state_inv o (u_sched u);
  ui_worker : worker_inv (y_published (u_server u)) (u_ack u);
  ui_reachable : Ingress.reachable server_pipeline sopts st0 (u_server u);
  ui_arrived : all_arrived (arrives (gatewayID o) (sc_ever (u_sched u))) (u_server u);
  ui_server : server_inv (gatewayID o) (sc_ever (u_sched u)) (y_store (u_server u));
  ui_kept : forall row, row ∈ sc_ever (u_sched u) ->
    row ∈ outbox (sc_db (u_sched u)) \/ server_has (y_store (u_server u)) row;
}.

Lemma New_arrived Q sopts i (st0 : DB uuid) : New sopts = Ok i -> all_arrived Q (mkSystem i ∅ st0 [] 0).
Proof.
  unfold New. intros H. repeat case_match; simplify_eq. constructor; cbn; [constructor|done|].
  intros t a H. rewrite !lookup_empty in H. by destruct H as [|[|]].
Qed.

(** The file after the pass has everything it had before. *)
Lemma pass_file te s db0 db ever : state_inv o (mkSchedState s db0 AtTop ever) -> pass_ok ever (te_pass te) db0 db ->
  outbox_inv (uuid := uuid) o (file_after_pass o te s db)
  /\ forall row, row ∈ outbox db -> row ∈ outbox (file_after_pass o te s db).
Proof.
  intros [Hs Ho Hh _] Hok. cbn [sc_sched sc_db sc_ever] in *.
  assert (Hdb : outbox_inv (uuid := uuid) o db) by (eapply emptied_inv; [by eapply pass_emptied|done]).
  unfold file_after_pass. destruct (te_ctx_before te); [done|]. destruct (fatalErr s); [done|].
  destruct (reconcile o (te_pass te) s db) as [[r s1] db1] eqn:E. cbn [snd].
  destruct (reconcile_history _ _ _ _ _ _ _ _ _ Ho Hok Hs Hh E) as (_ & _ & Ho1 & _). split; [done|].
  assert (Hp : outbox_inv (uuid := uuid) o (pe_page (te_pass te) 0).2).
  { eapply emptied_inv; [|exact Ho]. eapply emptied_trans; [apply (po_lookup _ _ _ _ Hok uuid_Nil)|apply (po_page _ _ _ _ Hok)]. }
  destruct (reconcile_effect _ _ _ _ _ _ _ Hp E) as [_ [->|(_ & _ & _ & _ & _ & _ & id & it & _ & Hen & _)]]; [done|].
  intros row Hr. rewrite (en_db _ _ _ _ _ _ Hen). cbn [outbox]. apply elem_of_app. by left.
Qed.

Lemma reaches_arrives y t payload : state_inv o y -> reaches (sc_sched y) t payload ->
  arrives (gatewayID o) (sc_ever y) t payload.
Proof.
  intros [Hs _ _ _] [(pub & Hp & -> & ->)|H]; [left|by right].
  assert (Hv := si_verbatim _ _ _ Hs). rewrite list.Forall_forall in Hv.
  destruct (Hv _ Hp) as (row & Hr & _ & Ht & Hpay). by exists row.
Qed.

Lemma rows_have_batch y : state_inv o y -> Forall (fun row => exists b : BatchDTO uuid, row_batch row b) (sc_ever y).
Proof.
  intros [_ _ [_ Hr] _]. eapply list.Forall_impl; [exact Hr|]. intros row Hrow. apply (ro_batch _ _ Hrow).
Qed.

Lemma up_worker_inv sopts st0 s db ph ever p p' db' srv :
  up_inv sopts st0 (mkUplink (mkSchedState s db ph ever) p srv) ->
  worker_moves (y_published srv) (mkAckSystem p db) (mkAckSystem p' db') ->
  worker_inv (y_published srv) p' /\ handed_over (y_store srv) db db'.
Proof.
  intros [[Hs Ho [Hu _] _] Hw Hreach _ Hserver _] Hm. cbn [u_sched u_ack u_server sc_sched sc_db sc_ever] in *.
  eapply (worker_moves_inv ever (y_store srv) (y_published srv)) in Hm; try done.
  - by eapply published_acknowledge.
  - cbn. apply (si_ever _ _ _ Hs).
Qed.

Lemma up_turn_inv sopts st0 te s db0 db ever v s' db' p1 p2 p3 srv :
  up_inv sopts st0 (mkUplink (mkSchedState s db0 AtTop ever) p1 srv) ->
  worker_moves (y_published srv) (mkAckSystem p1 db0) (mkAckSystem p2 db) ->
  pass_ok ever (te_pass te) db0 db -> (forall d, emptied d (te_deleted te d)) ->
  loop_turn o te s db = (v, s', db') ->
  worker_moves (y_published srv) (mkAckSystem p2 (file_after_pass o te s db)) (mkAckSystem p3 db') ->
  up_inv sopts st0
    (mkUplink (mkSchedState s' db' (next_phase v) (record_rows ever (file_after_pass o te s db))) p3 srv).
Proof.
  intros Hu Hm1 Hok Hdel Hl Hm2. destruct (up_worker_inv _ _ _ _ _ _ _ _ _ _ Hu Hm1) as [Hw2 Hh2].
  destruct Hu as [Hst Hw Hreach Harr Hsrv Hkept]. cbn [u_sched u_ack u_server sc_sched sc_db sc_ever] in *.
  assert (Hst' := turn_inv _ _ _ _ _ _ _ _ _ Hst Hok Hdel Hl).
  destruct (pass_file _ _ _ _ _ Hst Hok) as [Ho1 Hsub]. set (d1 := file_after_pass o te s db) in *.
  assert (Hold : forall row, row ∈ ever -> row ∈ record_rows ever d1) by (intros; by apply record_rows_old).
  assert (Hsrv' := server_inv_mono _ _ _ _ Hold Hsrv).
  assert (Hm2' := Hm2). eapply (worker_moves_inv (record_rows ever d1) (y_store srv)) in Hm2'; try done.
  2:{ by eapply published_acknowledge. }
  2:{ destruct Hst' as [_ _ [Hu' _] _]. exact Hu'. }
  2:{ intros row Hr. apply record_rows_elem. by right. }
  destruct Hm2' as [Hw3 Hh3].
  constructor; cbn [u_sched u_ack u_server sc_sched sc_db sc_ever]; try done.
  - eapply all_arrived_mono; [|exact Harr]. intros t payload. by apply arrives_mono.
  - intros row. rewrite record_rows_elem. intros [Hr|Hr]; [|by apply (ho_server _ _ _ Hh3)].
    destruct (Hkept _ Hr) as [Hr0|]; [|by right]. destruct (ho_server _ _ _ Hh2 _ Hr0) as [Hr1|]; [|by right].
    by apply (ho_server _ _ _ Hh3), Hsub.
Qed.

Lemma up_step_inv sopts st0 u u' : up_inv sopts st0 u -> up_step u u' -> up_inv sopts st0 u'.
Proof.
  intros Hu Hs. destruct Hs as [te s db0 db ever v s' db' p1 p2 p3 srv Hm1 Hok Hdel Hl Hm2
    |k now arrivals s db ever v s' p srv Hread Hsel|deadline s db ph ever p srv
    |s db ph ever p p' db' srv Hm|y p srv srv' Hs Henter].
  - by eapply up_turn_inv.
  - destruct Hu as [Hst Hw Hreach Harr Hsrv Hkept].
    constructor; try done. exact (sched_step_inv _ _ _ Hst (sched_select _ _ _ _ _ _ _ _ _ Hread Hsel)).
  - destruct Hu as [Hst Hw Hreach Harr Hsrv Hkept].
    constructor; try done. exact (sched_step_inv _ _ _ Hst (sched_deadline _ _ _ _ _ _)).
  - assert (Hm' := up_worker_inv _ _ _ _ _ _ _ _ _ _ Hu (moves_more _ _ _ _ (moves_none _ _) Hm)).
    destruct Hm' as [Hw' [He Hh]]. destruct Hu as [Hst Hw Hreach Harr Hsrv Hkept].
    constructor; cbn [u_sched u_ack u_server sc_sched sc_db sc_ever] in *; try done.
    + exact (sched_step_inv _ _ _ Hst (sched_deleted _ _ _ _ _ _ He)).
    + intros row Hr. destruct (Hkept _ Hr); [by apply Hh|by right].
  - destruct Hu as [Hst [Hg Hw] Hreach Harr Hsrv Hkept]. cbn [u_sched u_ack u_server] in *.
    assert (Henter' : enters_with (arrives (gatewayID o) (sc_ever y)) srv srv').
    { intros t a Ha. destruct (Henter t a Ha); [by left|right]. by apply reaches_arrives. }
    destruct (step_server_inv _ _ _ _ Hs (rows_have_batch _ Hst) Harr Henter' Hsrv) as (Harr' & Hsrv' & Hkeep).
    constructor; cbn [u_sched u_ack u_server]; try done.
    + constructor; [done|]. eapply list.Forall_impl; [exact Hw|]. intros a (d & Hd & H). exists d. split; [|done].
      destruct Hs as [[]|[]|[]]; try done. cbn. apply elem_of_app. by left.
    + by eapply reach_step.
    + intros row Hr. destruct (Hkept _ Hr); [by left|right; by apply Hkeep].
Qed.

Lemma up_reachable_inv opts capacity latency sopts db0 st0 u : outbox_inv (uuid := uuid) o db0 ->
  up_reachable opts capacity latency sopts db0 st0 u -> up_inv sopts st0 u.
Proof.
  intros Hinv. induction 1 as [y p i Hy Hp Hi Hsrv Hkept|u u' _ IH Hs]; [|by eapply up_step_inv].
  assert (Hdb : sc_db y = db0) by by destruct Hy.
  constructor; cbn [u_sched u_ack u_server y_published y_store]; try done.
  - by eapply sched_start_inv.
  - unfold NewACKProcessor in Hp. case_match; simplify_eq. by constructor.
  - by constructor.
  - by eapply New_arrived.
  - by rewrite Hdb.
Qed.

(** C1 No batch is ever lost.  Over a broker that may lose, repeat, delay
    and reorder deliveries, with any failures of the database, the file and the
    clocks, in every interleaving: a row the outbox ever stored is either still
    in the outbox or held by the server, in its ledger with the payload's hash
    and range and with every sample of its batch stored exactly once. *)
Theorem no_batch_lost opts capacity latency sopts db0 st0 u row : outbox_inv (uuid := uuid) o db0 ->
  up_reachable opts capacity latency sopts db0 st0 u -> row ∈ sc_ever (u_sched u) ->
  row ∈ outbox (sc_db (u_sched u)) \/ server_has (y_store (u_server u)) row.
Proof. intros Hinv Hr. by apply (ui_kept _ _ _ (up_reachable_inv _ _ _ _ _ _ _ Hinv Hr)). Qed.

(** C38 When a finite run ends as complete, the server holds every
    pending row the outbox ever stored. *)
Theorem completed_run_delivered opts capacity latency sopts db0 st0 u row : outbox_inv (uuid := uuid) o db0 ->
  up_reachable opts capacity latency sopts db0 st0 u -> completed (sc_sched (u_sched u)) = true ->
  row ∈ sc_ever (u_sched u) -> is_pending row = true -> server_has (y_store (u_server u)) row.
Proof.
  intros Hinv Hr Hc Hrow Hp. destruct (up_reachable_inv _ _ _ _ _ _ _ Hinv Hr) as [Hst _ _ _ _ Hkept].
  destruct (Hkept _ Hrow) as [Hin|]; [|done]. exfalso.
  destruct (sv_completed _ _ Hst Hc) as (_ & _ & _ & Hnone).
  assert (Hok := inv_rows _ _ (sv_outbox _ _ Hst)). rewrite list.Forall_forall in Hok.
  destruct (ro_batch _ _ (Hok _ Hin)) as (b & Hb). apply (Hnone (MessageID b)).
  exists row. split; [done|]. split; [apply (rb_message _ _ Hb)|done].
Qed.

(** The server never holds anything else under the Gateway's name:
    every ledger entry of the Gateway, whatever repeats and reorderings
    happened, is the image of one row the outbox stored. *)
Theorem server_holds_only_batches opts capacity latency sopts db0 st0 u id lrow : outbox_inv (uuid := uuid) o db0 ->
  up_reachable opts capacity latency sopts db0 st0 u ->
  processed_messages (y_store (u_server u)) !! (gatewayID o, id) = Some lrow ->
  exists row, row ∈ sc_ever (u_sched u) /\ o_message_id row = uuid_String id /\ server_has (y_store (u_server u)) row.
Proof.
  intros Hinv Hr. destruct (ui_server _ _ _ (up_reachable_inv _ _ _ _ _ _ _ Hinv Hr)) as [Hc _]. apply Hc.
Qed.
End uplink.
