(* ===== verification/UplinkDemo.v ===== *)
(** * A finite run end to end

    The scheduler generates one batch and publishes it, the server stores and
    acknowledges it, the worker deletes the row and the run ends as complete. *)

From S2P Require Import Prelude GoStrings GoTime GoFloat GoJson Identity Uuid Telemetry.
From S2P Require Import Decode Validation Message Txn Store Persist PersistSpec IngressDemo Ingress IngressSpec.
From S2P Require Import Batch Outbox OutboxSpec OutboxQueue AckParse AckProcessor OutboxDemo.
From S2P Require Import Scheduler SchedulerInv SchedulerRun Uplink.
Import Canonical.
#[local] Open Scope Z_scope.

(** ** The scheduler starts *)

Definition demo_schedule : schedulerConfig :=
  mkSchedulerConfig "gw-1" "s_1" 2 500000 (500 * Millisecond) 2 (10 * Second) Second (30 * Second) (5 * Second).
Definition demo_options : SchedulerOptions cuuid :=
  mkSchedulerOptions (Some demo_outbox) true true true demo_schedule 100 1 Minute (Ok boot).

Definition sched0 : Scheduler cuuid :=
  mkScheduler demo_schedule boot 1 Minute true zero_time parkDuration ∅ 0 demo_now false false false zero_time
    false false 0 0 None false [] [].
Definition state0 : SchedState := mkSchedState sched0 fresh_file AtTop [].

Lemma state0_start : sched_start demo_outbox demo_options fresh_file state0.
Proof.
  refine (sched_begin demo_outbox demo_options fresh_file [] (mkScheduler demo_schedule boot 1 Minute false zero_time
    parkDuration ∅ 0 zero_time false false false zero_time false false 0 0 None false [] []) demo_now sched0 eq_refl _ _ _ _ eq_refl).
  - split; vm_compute; discriminate.
  - split; [|constructor]. by intros r1 r2 H%not_elem_of_nil.
  - by intros row H%not_elem_of_nil.
  - reflexivity.
Qed.

(** A pass whose reads all see one file. *)
Definition demo_pass (id : res error cuuid) (file : OutboxDB) : PassEnv cuuid :=
  mkPassEnv true demo_now [] (fun _ => (demo_weather, file)) (fun _ => demo_now) (fun _ => f64_of_int 0)
    (fun _ => (demo_weather, file)) id demo_weather demo_now.
Definition demo_turn (id : res error cuuid) (file : OutboxDB) : TurnEnv cuuid :=
  mkTurnEnv (demo_pass id file) false false (fun d => d) demo_weather demo_now true [id7] demo_now true demo_now [].

Lemma demo_pass_ok ever id file : (forall u, id = Ok u -> uuid_String u ∉ map o_message_id ever) ->
  pass_ok ever (demo_pass id file) file file.
Proof. intros Hf. constructor; try done; intros; apply emptied_refl. Qed.

(** ** The first turn generates and publishes *)

Definition turn1 := loop_turn demo_outbox (demo_turn (Ok id7) fresh_file) sched0 fresh_file.
Definition sched1 : Scheduler cuuid := turn1.1.2.
Definition file1 : OutboxDB := turn1.2.
Definition ever1 : list OutboxRow :=
  record_rows [] (file_after_pass demo_outbox (demo_turn (Ok id7) fresh_file) sched0 fresh_file).
Definition state1 : SchedState := mkSchedState sched1 file1 AtSelect ever1.

Lemma turn1_blocks : turn1.1.1 = Blocks.
Proof. vm_compute. reflexivity. Qed.

Lemma turn1_eq : turn1 = (Blocks, sched1, file1).
Proof. rewrite <- turn1_blocks. unfold sched1, file1. by destruct turn1 as [[v s] db]. Qed.

Lemma state1_step : sched_step demo_outbox state0 state1.
Proof.
  refine (sched_turn demo_outbox (demo_turn (Ok id7) fresh_file) sched0 fresh_file fresh_file [] Blocks sched1 file1
    (emptied_refl _) (demo_pass_ok _ _ _ _) (fun d => emptied_refl d) turn1_eq).
  by intros u _ H%not_elem_of_nil.
Qed.

Lemma state1_reachable : sched_reachable demo_outbox demo_options fresh_file state1.
Proof. exact (sched_next _ _ _ _ _ (sched_init _ _ _ _ state0_start) state1_step). Qed.

Definition row1 : OutboxRow := List.hd demo_row ever1.

Lemma ever1_rows : ever1 = [row1] /\ outbox file1 = [row1] /\ is_pending row1 = true.
Proof. vm_compute. split; [|split]; reflexivity. Qed.

Definition pub1 : publication cuuid := List.hd (mkPublication id7 "" "") (started_log sched1).

Lemma sched1_log : started_log sched1 = [pub1].
Proof. vm_compute. reflexivity. Qed.

(** ** The server stores and acknowledges *)

Definition pipe : Pipeline cuuid (DB cuuid) := server_pipeline.
Definition uplink_opts : Options := mkOptions 4 1 65536 Second Second.
Definition uplink_args : delivery_args := mkArgs (pub_topic pub1) (pub_payload pub1) demo_now false.
Definition uplink_item : Ingress.item := Ingress.mkItem (pub_topic pub1) (pub_payload pub1) demo_now.
Definition uplink_env : Env := mkEnv demo_sky demo_now None 5.

Definition ing_new : Ingress := mkIngress 4 1 65536 [] false false false false false [] zero_counters.
Definition ing_run : Ingress := mkIngress 4 1 65536 [] false false true false false [WWaiting false] zero_counters.
Definition ing_full : Ingress :=
  mkIngress 4 1 65536 [uplink_item] false false true false false [WWaiting false] zero_counters.
Definition ing_done : Ingress := recordQueueHighWater 1 (count accepted ing_full).
Definition ing_hold : Ingress :=
  mkIngress 4 1 65536 [] false false true false false [WHolding false uplink_item] (i_counters ing_done).

Definition srv (i : Ingress) (admits : gmap nat admission) (sent : Z) : System (DB cuuid) :=
  mkSystem i admits demo_db [] sent.
Definition uplink_fx : Effects (DB cuuid) := process pipe uplink_env uplink_item (i_counters ing_hold) demo_db.
Definition srv_end : System (DB cuuid) :=
  mkSystem (mkIngress 4 1 65536 [] false false true false false [WWaiting false] (fx_counters uplink_fx))
    ∅ (fx_store uplink_fx) (option_list (fx_published uplink_fx)) 1.

Lemma uplink_send : admit_send uplink_args ing_run = (AdmissionAccepted, ing_full).
Proof.
  assert (E : (admit_send uplink_args ing_run).1 = AdmissionAccepted) by (vm_compute; reflexivity).
  unfold admit_send in *. cbn [ar_retained uplink_args ar_topic ar_payload ar_at i_queue i_capacity ing_run] in *.
  repeat case_match; try discriminate E. reflexivity.
Qed.

(** No call enters. *)
Lemma no_entry Q (y y' : System (DB cuuid)) : (forall t a, y_admits y' !! t = Some (AEntered a) -> y_admits y !! t = Some (AEntered a)) ->
  enters_with Q y y'.
Proof. intros H t a Ha. left. by apply H. Qed.

Notation up := (up_reachable demo_outbox demo_options 8 false uplink_opts fresh_file demo_db).

Lemma demo_server_inv ever : server_inv "gw-1" ever demo_db.
Proof. constructor; [|apply demo_in_step]. intros id lrow H. unfold demo_db in H. cbn [processed_messages] in H. by rewrite lookup_empty in H. Qed.

Lemma up_started : up (mkUplink state0 demo_processor (srv ing_new ∅ 0)).
Proof.
  refine (up_init demo_outbox demo_options 8 false uplink_opts fresh_file demo_db state0 demo_processor ing_new
    state0_start eq_refl eq_refl (demo_server_inv _) _).
  by intros row H%not_elem_of_nil.
Qed.

Lemma up_generated : up (mkUplink state1 demo_processor (srv ing_new ∅ 0)).
Proof.
  refine (up_next _ _ _ _ _ _ _ _ _ up_started (up_turn demo_outbox (demo_turn (Ok id7) fresh_file) sched0 fresh_file fresh_file
    [] Blocks sched1 file1 demo_processor demo_processor demo_processor _ (moves_none _ _ _) (demo_pass_ok _ _ _ _)
    (fun d => emptied_refl d) turn1_eq _)).
  - by intros u _ H%not_elem_of_nil.
  - assert (E : file_after_pass demo_outbox (demo_turn (Ok id7) fresh_file) sched0 fresh_file = file1).
    { vm_compute. reflexivity. }
    rewrite E. apply moves_none.
Qed.

(** One step of the server. *)
Lemma up_serve p y y' : up (mkUplink state1 p y) -> Ingress.step pipe y y' ->
  enters_with (reaches demo_outbox sched1) y y' -> up (mkUplink state1 p y').
Proof. intros H Hs He. eapply up_next; [exact H|]. by apply up_server. Qed.

Ltac no_entry := apply no_entry; intros t' a' H'; cbn [y_admits upd srv] in H' |- *; first
  [ exact H'
  | rewrite lookup_insert_Some in H'; destruct H' as [[_ [=]]|[_ H']]; exact H'
  | rewrite lookup_delete_Some in H'; destruct H' as [_ H']; exact H' ].

(** [serve R c] adds the server step [c y] to the run [R] that ends in [y]. *)
Ltac serve R c :=
  match type of R with
  | up_reachable _ _ _ _ _ _ _ (mkUplink _ _ ?y) => let st := c y in
      match type of st with Ingress.step _ _ ?y' =>
        let H := fresh in assert (H : enters_with (reaches demo_outbox sched1) y y');
        [ |pose proof (up_serve _ _ _ R st H) as R'; clear R H; rename R' into R] end
  end.

Lemma up_admitted : up (mkUplink state1 demo_processor (srv ing_hold ∅ 1)).
Proof.
  pose proof up_generated as R.
  serve R ltac:(fun y => constr:(by_control pipe y _ (Ingress.step_start y ing_run eq_refl))); [no_entry|].
  serve R ltac:(fun y => constr:(by_admit pipe y _ (step_enter y 0%nat uplink_args eq_refl eq_refl))).
  { intros t a H. right. cbn [y_admits upd srv] in H. apply lookup_insert_Some in H as [[_ [= <-]]|[_ H]]; [|done].
      left. exists pub1. rewrite sched1_log. split; [left|done]. }
  serve R ltac:(fun y => constr:(by_admit pipe y _ (step_lock y 0%nat uplink_args eq_refl))); [no_entry|].
  serve R ltac:(fun y => constr:(by_admit pipe y _ (step_check y 0%nat uplink_args eq_refl eq_refl))); [no_entry|].
  serve R ltac:(fun y => constr:(by_admit pipe y _ (step_send y 0%nat uplink_args ing_full eq_refl uplink_send))); [no_entry|].
  serve R ltac:(fun y => constr:(by_admit pipe y _ (step_count y 0%nat eq_refl))); [no_entry|].
  serve R ltac:(fun y => constr:(by_admit pipe y _ (step_observe y 0%nat eq_refl))); [no_entry|].
  serve R ltac:(fun y => constr:(by_admit pipe y _ (step_high_water y 0%nat 1 eq_refl))); [no_entry|].
  serve R ltac:(fun y => constr:(by_worker pipe y _ (step_receive pipe y 0%nat false uplink_item [] eq_refl eq_refl))); [no_entry|].
  exact R.
Qed.

Lemma up_stored : up (mkUplink state1 demo_processor srv_end).
Proof.
  refine (up_serve _ _ _ up_admitted (by_worker pipe (srv ing_hold ∅ 1) srv_end
    (step_process pipe (srv ing_hold ∅ 1) 0%nat false uplink_item uplink_env eq_refl)) _).
  apply no_entry. intros t a H. exact H.
Qed.

(** ** The worker deletes the row *)

Definition ack1 : Delivery := List.hd (mkDelivery "" "" 0 false) (y_published srv_end).

Lemma srv_end_published : y_published srv_end = [ack1].
Proof. vm_compute. reflexivity. Qed.

Definition worker1 : ACKProcessor cuuid := AckProcessor.Admit (d_Topic ack1) (d_Payload ack1) false (AckProcessor.Start demo_processor).
Definition admission1 : ackAdmission := mkAdmission (d_Topic ack1) (d_Payload ack1).
Definition acked1 : AckSystem cuuid := run_item demo_weather demo_outbox admission1 [] (mkAckSystem worker1 file1).

Lemma worker1_queue : p_admissions worker1 = [admission1].
Proof. vm_compute. reflexivity. Qed.

Lemma up_moves s db ph ever p y' w : up (mkUplink (mkSchedState s db ph ever) p w) ->
  worker_move demo_outbox (y_published w) (mkAckSystem p db) y' ->
  up (mkUplink (mkSchedState s (as_db y') ph ever) (as_proc y') w).
Proof. intros H Hm. destruct y' as [p' db']. eapply up_next; [exact H|]. by apply up_worker. Qed.

Lemma up_acked : up (mkUplink (mkSchedState sched1 (as_db acked1) AtSelect ever1) (as_proc acked1) srv_end).
Proof.
  pose proof (up_moves _ _ _ _ _ _ _ up_stored (move_start _ _ demo_processor file1)) as R. cbn [as_db as_proc] in R.
  assert (Hd : ack1 ∈ y_published srv_end) by (rewrite srv_end_published; left).
  apply (fun R => up_moves _ _ _ _ _ _ _ R (move_deliver _ _ ack1 false _ file1 Hd)) in R. cbn [as_db as_proc] in R.
  exact (up_moves _ _ _ _ _ _ _ R (move_item demo_outbox _ demo_weather admission1 [] worker1 file1 (conj eq_refl eq_refl) worker1_queue)).
Qed.

(** ** The run is complete *)

Definition file2 : OutboxDB := as_db acked1.
Definition turn2 := loop_turn demo_outbox (demo_turn (Err (EOther "unused")) file2) sched1 file2.

Lemma turn2_result : turn2.1.1 = Returns None /\ completed turn2.1.2 = true.
Proof. vm_compute. split; reflexivity. Qed.

Definition sched2 : Scheduler cuuid := turn2.1.2.
Definition file3 : OutboxDB := turn2.2.

Lemma turn2_eq : turn2 = (Returns None, sched2, file3).
Proof. rewrite <- (proj1 turn2_result). unfold sched2, file3. by destruct turn2 as [[v s] db]. Qed.

Definition ever2 : list OutboxRow :=
  record_rows ever1 (file_after_pass demo_outbox (demo_turn (Err (EOther "unused")) file2) sched1 file2).
Definition state2 : SchedState := mkSchedState sched2 file3 (Finished None) ever2.

Lemma up_completed : up (mkUplink state2 (as_proc acked1) srv_end).
Proof.
  pose proof (up_next _ _ _ _ _ _ _ _ _ up_acked (up_select demo_outbox wake_timer demo_now [] sched1 file2 ever1 Again sched1
    (as_proc acked1) srv_end ltac:(done) eq_refl)) as R.
  refine (up_next _ _ _ _ _ _ _ _ _ R (up_turn demo_outbox (demo_turn (Err (EOther "unused")) file2) sched1 file2 file2
    ever1 (Returns None) sched2 file3 (as_proc acked1) (as_proc acked1) (as_proc acked1) srv_end (moves_none _ _ _)
    (demo_pass_ok _ _ _ _) (fun d => emptied_refl d) turn2_eq _)).
  - done.
  - assert (E : file_after_pass demo_outbox (demo_turn (Err (EOther "unused")) file2) sched1 file2 = file3).
    { vm_compute. reflexivity. }
    rewrite E. apply moves_none.
Qed.

Lemma row1_ever : row1 ∈ ever2.
Proof. apply record_rows_old. rewrite (proj1 ever1_rows). left. Qed.

(** ** Witnesses *)

Lemma no_batch_lost_witness : outbox file3 = []
  /\ (row1 ∈ outbox file3 \/ server_has (y_store srv_end) row1).
Proof.
  split; [vm_compute; reflexivity|].
  exact (no_batch_lost demo_outbox demo_options 8 false uplink_opts fresh_file demo_db _ row1 fresh_file_inv
    up_completed row1_ever).
Defined.

Lemma completed_run_delivered_witness : completed sched2 = true /\ server_has (y_store srv_end) row1.
Proof.
  split; [exact (proj2 turn2_result)|].
  exact (completed_run_delivered demo_outbox demo_options 8 false uplink_opts fresh_file demo_db _ row1 fresh_file_inv
    up_completed (proj2 turn2_result) row1_ever (proj2 (proj2 ever1_rows))).
Defined.

Lemma server_holds_only_batches_witness : exists lrow row,
  processed_messages (y_store srv_end) !! ("gw-1", id7) = Some lrow /\ row ∈ ever2 /\ o_message_id row = text id7.
Proof.
  assert (H : is_Some (processed_messages (y_store srv_end) !! ("gw-1", id7))).
  { destruct (processed_messages (y_store srv_end) !! ("gw-1", id7)) as [l|] eqn:E; [by exists l|].
    apply (f_equal (fun x => match x with Some _ => true | None => false end)) in E. vm_compute in E. discriminate E. }
  destruct H as [lrow H].
  destruct (server_holds_only_batches demo_outbox demo_options 8 false uplink_opts fresh_file demo_db _ id7 lrow
    fresh_file_inv up_completed H) as (row & H1 & H2 & _).
  exists lrow, row. split; [exact H|]. split; [exact H1|exact H2].
Defined.

Lemma retryDelay_bounded_witness : 0 <= retryDelay Second (30 * Second) 70 (f64_of_int 1) <= 30 * Second.
Proof.
  refine (proj1 (retryDelay_bounded Second (30 * Second) 70 (f64_of_int 1) _ _)); [split; vm_compute; congruence|vm_compute; discriminate].
Defined.

Definition demo_entry : inflightEntry cuuid := mkEntry no_item stateBackoff 1 (Add demo_now Second).
Definition backing_off : Scheduler cuuid := set_inflight {[id7 := demo_entry]} sched0.

Lemma armTimer_covers_witness :
  IsZero (nextAt demo_entry) = true
  \/ fires demo_now (armTimer true [id7] demo_now backing_off) <= Z.max (unix_ns demo_now) (unix_ns (nextAt demo_entry)).
Proof.
  refine (proj1 (armTimer_covers [id7] demo_now backing_off _) id7 demo_entry _ _).
  - intros id [e H]. change (inflight backing_off) with ({[id7 := demo_entry]} : gmap cuuid (inflightEntry cuuid)) in H.
    apply lookup_singleton_Some in H as [<- _]. left.
  - exact (lookup_singleton_eq id7 demo_entry).
  - right. reflexivity.
Defined.

Lemma admitPending_oldest_first_witness : exists s',
  admitPending demo_outbox (demo_pass (Ok id7) demo_file) sched0 = (Ok false, s')
  /\ length (started_log s') = 1%nat.
Proof.
  destruct (admitPending demo_outbox (demo_pass (Ok id7) demo_file) sched0) as [r s'] eqn:E.
  assert (Hl : length (started_log s') = 1%nat).
  { change s' with (snd (r, s')). rewrite <- E. vm_compute. reflexivity. }
  destruct r as [more|e].
  - exists s'. split; [|exact Hl]. f_equal. f_equal.
    exact (proj1 (admitPending_oldest_first demo_outbox (demo_pass (Ok id7) demo_file) sched0 more s' demo_file_inv E)).
  - apply (f_equal (fun x => is_ok x.1)) in E. vm_compute in E. discriminate E.
Defined.

Lemma generation_gated_witness : exists r s' db',
  reconcile demo_outbox (demo_pass (Ok id7) fresh_file) sched0 fresh_file = (r, s', db')
  /\ length (outbox db') = 1%nat /\ nextGenAt s' = Add (UTC demo_now) (cadence sched0).
Proof.
  destruct (reconcile demo_outbox (demo_pass (Ok id7) fresh_file) sched0 fresh_file) as [[r s'] db'] eqn:E.
  assert (Hl : length (outbox db') = 1%nat).
  { change db' with (snd (r, s', db')). rewrite <- E. vm_compute. reflexivity. }
  exists r, s', db'. split; [reflexivity|]. split; [exact Hl|].
  assert (Hne : db' <> fresh_file) by (intros ->; discriminate Hl).
  destruct (generation_gated demo_outbox (demo_pass (Ok id7) fresh_file) sched0 fresh_file r s' db' fresh_file_inv E Hne)
    as (_ & _ & _ & _ & _ & H & _). exact H.
Defined.

Lemma publish_discipline_witness : started_log sched1 = [pub1] /\ Z.of_nat (size (inflight sched1)) <= c_maxInflight (cfg sched1).
Proof.
  split; [exact sched1_log|].
  exact (proj1 (publish_discipline demo_outbox demo_options fresh_file state1 fresh_file_inv state1_reachable)).
Defined.

Lemma finite_run_complete_witness : 0 < finiteTarget sched1 /\ uniqueEnqueued sched1 <= finiteTarget sched1.
Proof.
  assert (H : 0 < finiteTarget sched1) by (vm_compute; reflexivity). split; [exact H|].
  exact (proj1 (finite_run_complete demo_outbox demo_options fresh_file state1 fresh_file_inv state1_reachable) H).
Defined.
