(* ===== verification/QueryTime.v ===== *)
(** * Timestamps and integers of a query string

    [parseRFC3339Micro], [parseRFC3339MicroUTCZ] and [parseASCIIInteger] of
    [httpserver/history_query_parser.go].  The text of their errors is dropped:
    the callers answer with one code for all of them. *)

From S2P Require Import Prelude GoStrings GoTime GoFloat Uuid Identity Telemetry Validation.
#[local] Open Scope Z_scope.

(** ** Integers *)

(** A range loop over the runes of a text sees only ASCII digits exactly when
    all its bytes are digits; [strconv.Atoi] then fails only out of range. *)
Definition parseASCIIInteger (s : string) : option Z :=
  if bool_decide (s = "") then None
  else if negb (str_forallb is_digit s) then None
  else ParseInt10 s 64.

(** ** The lexical checks *)

Definition digit_at (s : string) (i : nat) : bool := is_digit (byte_at s i).
Definition char_at (s : string) (i : nat) (c : ascii) : bool := bool_decide (byte_at s i = c).

(** Length, date and time; [delimiter] is the test on the byte between them. *)
Definition date_time_digits (delimiter : ascii -> bool) (s : string) : bool :=
  if str_len s <? 20 then false
  else if negb (digit_at s 0 && digit_at s 1 && digit_at s 2 && digit_at s 3) then false
  else
    let yearVal := digit_val (byte_at s 0) * 1000 + digit_val (byte_at s 1) * 100
                   + digit_val (byte_at s 2) * 10 + digit_val (byte_at s 3) in
    if yearVal <? 1 then false
    else if negb (char_at s 4 "-") || negb (char_at s 7 "-") then false
    else if negb (digit_at s 5) || negb (digit_at s 6) then false
    else if negb (digit_at s 8) || negb (digit_at s 9) then false
    else if negb (delimiter (byte_at s 10)) then false
    else if negb (char_at s 13 ":") || negb (char_at s 16 ":") then false
    else forallb (digit_at s) [11%nat; 12%nat; 14%nat; 15%nat; 17%nat; 18%nat].

(** The loop over the fraction digits: how many it passes. *)
Fixpoint count_digits (s : string) : nat :=
  match s with
  | String c r => if is_digit c then S (count_digits r) else O
  | EmptyString => O
  end.

(** The index after the fraction, where the offset must start. *)
Definition offset_index (s : string) : option nat :=
  let idx :=
    if char_at s 19 "." then
      let numFracDigits := count_digits (slice_from 20 s) in
      if (numFracDigits <? 1)%nat || (6 <? numFracDigits)%nat then None else Some (20 + numFracDigits)%nat
    else Some 19%nat in
  match idx with
  | Some idx => if (String.length s <=? idx)%nat then None else Some idx
  | None => None
  end.

(** [time.Parse] and the normalisation to UTC microseconds. *)
Definition parse_utc_micro (s : string) : option Time :=
  match Parse s with
  | None => None
  | Some parsed =>
      let utc := UTC parsed in
      if (Year utc <? 1) || (9999 <? Year utc) then None else Some (Truncate utc Microsecond)
  end.

(** The offset at [idx]; the text with [z] replaced when it is accepted. *)
Definition check_offset (s : string) (idx : nat) : option string :=
  let offsetIndicator := byte_at s idx in
  if bool_decide (offsetIndicator = "Z"%char) || bool_decide (offsetIndicator = "z"%char) then
    if negb (idx =? String.length s - 1)%nat then None
    else if bool_decide (offsetIndicator = "z"%char) then Some (slice 0 idx s +:+ "Z") else Some s
  else if bool_decide (offsetIndicator = "+"%char) || bool_decide (offsetIndicator = "-"%char) then
    if negb (idx + 6 =? String.length s)%nat then None
    else if negb (char_at s (idx + 3) ":") then None
    else if negb (forallb (digit_at s) [(idx + 1)%nat; (idx + 2)%nat; (idx + 4)%nat; (idx + 5)%nat]) then None
    else
      let offsetHours := digit_val (byte_at s (idx + 1)) * 10 + digit_val (byte_at s (idx + 2)) in
      let offsetMins := digit_val (byte_at s (idx + 4)) * 10 + digit_val (byte_at s (idx + 5)) in
      if (23 <? offsetHours) || (59 <? offsetMins) then None else Some s
  else None.

Definition parseRFC3339Micro (s : string) : option Time :=
  if negb (date_time_digits (fun c => bool_decide (c = "T"%char) || bool_decide (c = "t"%char)) s) then None
  else
    idx ← offset_index s;
    s' ← check_offset s idx;
    parse_utc_micro s'.

Definition parseRFC3339MicroUTCZ (s : string) : option Time :=
  if negb (date_time_digits (fun c => bool_decide (c = "T"%char)) s) then None
  else
    idx ← offset_index s;
    if negb (char_at s idx "Z") then None
    else if negb (idx =? String.length s - 1)%nat then None
    else parse_utc_micro s.

Example parseRFC3339Micro_ex :
  map (fun s => (fun t => unix_ns t) <$> parseRFC3339Micro s)
    ["2026-05-04T10:20:30Z"; "2026-05-04T10:20:30.123456z"; "2026-05-04T17:20:30.5+07:00";
     "2026-05-04T10:20:30.1234567Z"; "2026-05-04T24:00:00Z"; "2026-02-30T10:20:30Z";
     "2026-05-04t10:20:30Z"; "2026-05-04T10:20:30"; "2026-05-04T10:20:30.Z"; "0000-05-04T10:20:30Z";
     "2026-05-04T10:20:30+24:00"; "0001-01-01T00:00:00+01:00"; "9999-12-31T23:59:59-00:01"]
  = [Some 1777890030000000000; Some 1777890030123456000; Some 1777890030500000000;
     None; None; None; None; None; None; None; None; None; None].
Proof. vm_compute. reflexivity. Qed.

(** * The query parser reads timestamps as the telemetry validator does

    [parseRFC3339Micro] and [parseRFC3339MicroUTCZ] are written apart from
    [parseMeasuredAt] of the telemetry package; they accept the same texts, up
    to the lower-case zone, and give the same instants. *)

From Stdlib Require Import Btauto.

(** ** Texts cut at an index *)

Lemma byte_at_app p r k : byte_at (p +:+ r) (String.length p + k) = byte_at r k.
Proof. induction p as [|c p IH]; [done|exact IH]. Qed.

Lemma slice_from_app_l p r k : slice_from (String.length p + k) (p +:+ r) = slice_from k r.
Proof.
  unfold slice_from. rewrite str_length_app.
  replace (String.length p + String.length r - (String.length p + k))%nat
    with (String.length r - k)%nat by lia.
  induction p as [|c p IH]; [done|exact IH].
Qed.

Lemma slice_app_mid p a b : slice (String.length p) (String.length p + String.length a) (p +:+ (a +:+ b)) = a.
Proof.
  unfold slice. replace (String.length p + String.length a - String.length p)%nat with (String.length a) by lia.
  induction p as [|c p IH]; [exact (substring_app_l a b)|exact IH].
Qed.

Lemma slice_0_app p r : slice 0 (String.length p) (p +:+ r) = p.
Proof. unfold slice. rewrite Nat.sub_0_r. apply substring_app_l. Qed.

Lemma count_digits_split s : exists ds r, s = ds +:+ r /\ count_digits s = String.length ds
  /\ str_forallb is_digit ds = true /\ is_digit (byte_at r 0) = false.
Proof.
  induction s as [|c s (ds & r & -> & Hc & Hd & Hr)]; [by exists "", ""|].
  cbn [count_digits]. destruct (is_digit c) eqn:E.
  - exists (String c ds), r. rewrite Hc. cbn. by rewrite E, Hd.
  - by exists "", (String c (ds +:+ r)).
Qed.

Lemma count_digits_app ds r : str_forallb is_digit ds = true -> is_digit (byte_at r 0) = false ->
  count_digits (ds +:+ r) = String.length ds.
Proof.
  intros Hd Hr. induction ds as [|c ds IH].
  - rewrite str_app_nil_l. destruct r as [|c r]; [done|]. cbn in *. by rewrite Hr.
  - cbn in Hd. apply andb_true_iff in Hd as [Hc Hd]. rewrite str_app_cons. cbn. by rewrite Hc, IH.
Qed.

(** ** The zone *)

Lemma zone_ok_head z : zone_ok z = true -> is_zone_char (byte_at z 0) = true /\ z <> "".
Proof.
  unfold zone_ok, is_zone_char. intros H. rewrite orb_true_iff, !andb_true_iff in H.
  destruct H as [H|(((((( _ & H) & _) & _) & _) & _) & _)].
  - by apply bool_decide_eq_true in H as ->.
  - destruct z; [done|]. split; [|done]. apply orb_true_iff in H as [H|H]; rewrite H; by rewrite ?orb_true_r.
Qed.

Lemma two_digits a b : is_digit a = true -> is_digit b = true ->
  Atoi (String a (String b "")) = digit_val a * 10 + digit_val b.
Proof. intros Ha Hb. unfold Atoi. cbn [digits_val]. rewrite Ha, Hb. cbn. lia. Qed.

(** The check of the offset depends on the text from it on. *)
Lemma check_offset_app h z : check_offset (h +:+ z) (String.length h)
  = if zone_ok z then Some (h +:+ z) else if bool_decide (z = "z") then Some (h +:+ "Z") else None.
Proof.
  unfold check_offset, char_at. cbn [forallb]. unfold digit_at.
  rewrite !byte_at_app, str_length_app, slice_0_app.
  replace (byte_at (h +:+ z) (String.length h)) with (byte_at z 0)
    by (rewrite <- (Nat.add_0_r (String.length h)) at 1; by rewrite byte_at_app).
  destruct z as [|a z]; [done|]. change (byte_at (String a z) 0) with a.
  destruct (decide (a = "Z"%char)) as [->|HZ].
  { destruct z as [|b z].
    - cbn [String.length]. replace (String.length h =? _)%nat with true by (symmetry; apply Nat.eqb_eq; lia). done.
    - cbn [String.length]. replace (String.length h =? _)%nat with false by (symmetry; apply Nat.eqb_neq; lia).
      unfold zone_ok. by rewrite !andb_false_r. }
  destruct (decide (a = "z"%char)) as [->|Hz].
  { destruct z as [|b z].
    - cbn [String.length]. replace (String.length h =? _)%nat with true by (symmetry; apply Nat.eqb_eq; lia). done.
    - cbn [String.length]. replace (String.length h =? _)%nat with false by (symmetry; apply Nat.eqb_neq; lia).
      unfold zone_ok. by rewrite !andb_false_r. }
  rewrite !(bool_decide_eq_false_2 (a = _)) by done. cbn [orb].
  rewrite (bool_decide_eq_false_2 (String a z = "z")) by congruence.
  unfold zone_ok. rewrite (bool_decide_eq_false_2 (String a z = "Z")) by congruence. cbn [orb].
  change (byte_at (String a z) 0) with a.
  destruct (bool_decide (a = "+"%char) || bool_decide (a = "-"%char)) eqn:Hs; [|by rewrite !andb_false_r].
  destruct (decide (String.length (String a z) = 6%nat)) as [E|E].
  2:{ replace (String.length h + 6 =? _)%nat with false by (symmetry; apply Nat.eqb_neq; lia).
      unfold str_len. replace (Z.of_nat _ =? 6) with false by (symmetry; apply Z.eqb_neq; lia). done. }
  rewrite E, Nat.eqb_refl. unfold str_len. rewrite E. cbn [negb andb Z.eqb Z.of_nat].
  destruct z as [|b [|c [|d [|e [|f [|]]]]]]; try done. cbn [byte_at String.get default from_option].
  change (slice 1 3 _) with (String b (String c "")). change (slice 4 6 _) with (String e (String f "")).
  unfold allDigits. cbn [str_forallb]. rewrite !(bool_decide_eq_false_2 (String _ _ = "")) by done.
  change (Z.of_nat 6 =? 6) with true. unfold id.
  destruct (bool_decide (d = ":"%char)); cbn [negb andb]; [|done].
  destruct (is_digit b) eqn:Db, (is_digit c) eqn:Dc, (is_digit e) eqn:De, (is_digit f) eqn:Df;
    cbn [negb andb orb]; try done.
  rewrite !two_digits by done. rewrite !Z.leb_antisym.
  by destruct (23 <? _), (59 <? _).
Qed.

(** ** The fraction and the zone after the seconds *)

Definition fraction (f : string) : Prop :=
  f = "" \/ exists ds, f = String "." ds /\ str_forallb is_digit ds = true /\ (1 <= String.length ds <= 6)%nat.

(** A byte at which the scan of the fraction stops. *)
Definition stops (z : string) : Prop :=
  z <> "" /\ is_digit (byte_at z 0) = false /\ byte_at z 0 <> "."%char.

Lemma zone_stops z : zone_ok z = true -> stops z.
Proof.
  intros H. apply zone_ok_head in H as [H Hne]. split; [done|]. unfold is_zone_char in H. gobool.
  by destruct H as [[->| ->]| ->].
Qed.

Lemma offset_index_frac p f z : String.length p = 19%nat -> fraction f -> stops z ->
  offset_index (p +:+ (f +:+ z)) = Some (String.length (p +:+ f)).
Proof.
  intros Hp Hf (Hne & Hd & Hdot). unfold offset_index, char_at.
  assert (String.length z <> 0%nat) as Hz by (by destruct z).
  pose proof (byte_at_app p (f +:+ z) 0) as E. rewrite Nat.add_0_r, Hp in E. rewrite E. clear E.
  destruct Hf as [->|(ds & -> & Hds & Hl)].
  - rewrite str_app_nil_l, bool_decide_eq_false_2 by done. rewrite !str_length_app, Hp. cbn [String.length].
    by rewrite (proj2 (Nat.leb_gt _ _)) by lia.
  - rewrite str_app_cons. cbn [byte_at String.get default from_option].
    pose proof (slice_from_app_l p (String "." (ds +:+ z)) 1) as E. rewrite Hp in E. change (19 + 1)%nat with 20%nat in E.
    rewrite E. change (slice_from 1 (String "." (ds +:+ z))) with (String.substring 0 (String.length (ds +:+ z) - 0) (ds +:+ z)).
    rewrite Nat.sub_0_r, substring_full, count_digits_app by done.
    rewrite (proj2 (Nat.ltb_ge _ 1)), (proj2 (Nat.ltb_ge 6 _)) by lia. cbn [orb].
    rewrite bool_decide_eq_true_2 by done.
    rewrite !str_length_app. cbn [String.length]. rewrite str_length_app, Hp.
    rewrite (proj2 (Nat.leb_gt _ _)) by lia. done.
Qed.

Lemma offset_index_inv p rest idx : String.length p = 19%nat -> offset_index (p +:+ rest) = Some idx ->
  exists f z, rest = f +:+ z /\ fraction f /\ idx = String.length (p +:+ f).
Proof.
  intros Hp. unfold offset_index, char_at.
  pose proof (byte_at_app p rest 0) as E. rewrite Nat.add_0_r, Hp in E. rewrite E. clear E.
  case_bool_decide as Hdot.
  - destruct rest as [|c r]; [done|]. cbn in Hdot. subst c.
    pose proof (slice_from_app_l p (String "." r) 1) as E. rewrite Hp in E. change (19 + 1)%nat with 20%nat in E.
    rewrite E. change (slice_from 1 (String "." r)) with (String.substring 0 (String.length r - 0) r).
    rewrite Nat.sub_0_r, substring_full. destruct (count_digits_split r) as (ds & z & -> & -> & Hd & _).
    destruct (_ || _) eqn:Hl; [done|]. apply orb_false_iff in Hl as [H1 H6]. apply Nat.ltb_ge in H1, H6.
    intros H. exists (String "." ds), z. split; [done|]. split; [right; by exists ds|].
    destruct (_ <=? _)%nat; [done|]. injection H as <-. rewrite str_length_app, Hp. cbn [String.length]. lia.
  - intros H. exists "", rest. split; [done|]. split; [by left|]. destruct (_ <=? _)%nat; [done|].
    injection H as <-. by rewrite str_app_nil_r, Hp.
Qed.

Definition scan (s : string) : option string := idx ← offset_index s; check_offset s idx.

Lemma scan_spec p rest v' : String.length p = 19%nat ->
  scan (p +:+ rest) = Some v' <-> exists f z, rest = f +:+ z /\ fraction f
    /\ ((zone_ok z = true /\ v' = p +:+ rest) \/ (z = "z" /\ v' = p +:+ (f +:+ "Z"))).
Proof.
  intros Hp. unfold scan. split.
  - intros H. apply bind_Some in H as (idx & Hi & H). apply offset_index_inv in Hi as (f & z & -> & Hf & ->); [|done].
    rewrite <- str_app_assoc, check_offset_app, !str_app_assoc in H. exists f, z. split; [done|]. split; [done|].
    destruct (zone_ok z); [injection H as <-; by left|]. case_bool_decide; [|done]. injection H as <-. by right.
  - intros (f & z & -> & Hf & H). assert (stops z) as Hz.
    { destruct H as [[Hz _]|[-> _]]; [by apply zone_stops|]. by split_and!. }
    rewrite offset_index_frac by done. cbn [mbind option_bind].
    rewrite <- str_app_assoc, check_offset_app, !str_app_assoc.
    destruct H as [[-> ->]|[-> ->]]; done.
Qed.

(** The same of [parseMeasuredAt], which looks for the zone first. *)
Definition rest_ok (v : string) : bool :=
  fraction_ok v (zone_start v) && zone_ok (slice_from (zone_start v) v).

Lemma zone_char_not_digit c : is_zone_char c = true -> is_digit c = false.
Proof. unfold is_zone_char. intros H. gobool. by destruct H as [[->| ->]| ->]. Qed.

Lemma find_zone_app f z : str_forallb (fun c => negb (is_zone_char c)) f = true ->
  find_zone (f +:+ z) = Nat.add (String.length f) <$> find_zone z.
Proof.
  intros Hf. induction f as [|c f IH]; [rewrite str_app_nil_l; by destruct (find_zone z)|].
  cbn in Hf. apply andb_true_iff in Hf as [Hc Hf]. apply negb_true_iff in Hc.
  rewrite str_app_cons. cbn [find_zone]. rewrite Hc, IH by done. by destruct (find_zone z).
Qed.

Lemma fraction_no_zone f : fraction f -> str_forallb (fun c => negb (is_zone_char c)) f = true.
Proof.
  intros [->|(ds & -> & Hds & _)]; [done|]. cbn [str_forallb]. apply andb_true_iff. split; [done|].
  eapply str_forallb_impl; [|exact Hds]. intros c Hc. destruct (is_zone_char c) eqn:E; [|done].
  apply zone_char_not_digit in E. congruence.
Qed.

Lemma frac_slice p ds z : String.length p = 19%nat ->
  slice 20 (19 + String.length (String "." ds)) (p +:+ (String "." ds +:+ z)) = ds.
Proof.
  intros Hp. pose proof (slice_app_mid (p +:+ ".") ds z) as Es. rewrite str_length_app, Hp in Es.
  rewrite str_app_assoc in Es. cbn [String.length] in *.
  replace (19 + S (String.length ds))%nat with (19 + 1 + String.length ds)%nat by lia. exact Es.
Qed.

Lemma zone_start_app p rest : String.length p = 19%nat ->
  zone_start (p +:+ rest) = match find_zone rest with
  | Some k => (19 + k)%nat
  | None => (String.length (p +:+ rest) - 1)%nat
  end.
Proof.
  intros Hp. unfold zone_start. pose proof (slice_from_app_l p rest 0) as E.
  rewrite Nat.add_0_r, Hp in E. rewrite E. unfold slice_from. by rewrite Nat.sub_0_r, substring_full.
Qed.

Lemma rest_ok_inv p rest : String.length p = 19%nat -> rest_ok (p +:+ rest) = true ->
  exists f z, rest = f +:+ z /\ fraction f /\ zone_ok z = true.
Proof.
  intros Hp. unfold rest_ok. rewrite zone_start_app by done.
  intros H. apply andb_true_iff in H as [Hf Hz]. destruct (find_zone rest) as [k|] eqn:Ek.
  - apply find_zone_some in Ek as (f & c & r & -> & <- & Hc & _). exists f, (String c r). split; [done|].
    rewrite <- Hp, slice_from_app_l in Hz.
    pose proof (slice_from_app f (String c r)) as E. rewrite E in Hz. split; [|done].
    unfold fraction_ok in Hf. rewrite orb_true_iff, !andb_true_iff in Hf.
    destruct Hf as [Hf|(Hdot & (Hl & Hl6) & Hd)].
    { left. apply Nat.eqb_eq in Hf. by destruct f. }
    right. pose proof (byte_at_app p (f +:+ String c r) 0) as Eb. rewrite Nat.add_0_r, Hp in Eb.
    rewrite Eb in Hdot. apply bool_decide_eq_true in Hdot.
    destruct f as [|d ds]; [rewrite str_app_nil_l in Hdot; cbn in Hdot; unfold id in Hdot; by rewrite Hdot in Hc|]. rewrite str_app_cons in Hdot. cbn in Hdot. unfold id in Hdot. subst d.
    rewrite frac_slice in * by done. exists ds. split; [done|]. unfold allDigits, str_len in *.
    apply andb_true_iff in Hd as [_ Hd]. split; [done|]. apply negb_true_iff, Z.eqb_neq in Hl. apply Z.leb_le in Hl6. lia.
  - exfalso. destruct rest as [|c r].
    { rewrite str_app_nil_r, Hp in Hf.
      unfold fraction_ok in Hf. rewrite orb_true_iff, !andb_true_iff in Hf. destruct Hf as [|(Hdot & _)]; [done|].
      apply bool_decide_eq_true in Hdot. unfold byte_at in Hdot. rewrite <- Hp in Hdot.
      assert (String.get (String.length p) p = None) as En by (clear; induction p; done).
      by rewrite En in Hdot. }
    pose proof (zone_ok_no_zone c r Ek) as Hno. pose proof (slice_from_app_l p (String c r) (String.length r)) as E.
    rewrite str_length_app in Hz. cbn [String.length] in Hz.
    replace (String.length p + S (String.length r) - 1)%nat with (String.length p + String.length r)%nat in Hz by lia.
    rewrite E in Hz. congruence.
Qed.

Lemma rest_ok_intro p f z : String.length p = 19%nat -> fraction f -> zone_ok z = true ->
  rest_ok (p +:+ (f +:+ z)) = true.
Proof.
  intros Hp Hf Hz. unfold rest_ok. rewrite zone_start_app by done.
  pose proof (zone_ok_head z Hz) as [Hc _].
  rewrite find_zone_app by by apply fraction_no_zone.
  destruct z as [|c r]; [done|]. cbn [byte_at String.get default from_option] in Hc.
  cbn [find_zone fmap option_fmap option_map]. unfold id in Hc. rewrite Hc. cbn [fmap option_fmap option_map]. rewrite Nat.add_0_r.
  rewrite <- Hp at 2. rewrite slice_from_app_l. pose proof (slice_from_app f (String c r)) as E. rewrite E, Hz, andb_true_r.
  unfold fraction_ok. destruct Hf as [->|(ds & -> & Hd & Hl)]; [done|]. apply orb_true_iff. right.
  pose proof (byte_at_app p (String "." ds +:+ String c r) 0) as Eb. rewrite Nat.add_0_r, Hp in Eb. rewrite Eb.
  rewrite frac_slice by done. unfold allDigits, str_len. rewrite Hd. rewrite !andb_true_iff. split_and!; [done| | | |done].
  - apply negb_true_iff, Z.eqb_neq. lia.
  - apply Z.leb_le. lia.
  - apply negb_true_iff, bool_decide_eq_false. intros ->. cbn in Hl. lia.
Qed.

(** ** The lower-case zone *)

(** A final [z] made upper case. *)
Fixpoint upper_z (s : string) : string :=
  match s with
  | EmptyString => ""
  | String c EmptyString => if bool_decide (c = "z"%char) then "Z" else s
  | String c r => String c (upper_z r)
  end.

Lemma upper_z_app p r : r <> "" -> upper_z (p +:+ r) = p +:+ upper_z r.
Proof.
  intros Hr. induction p as [|c p IH]; [done|]. rewrite !str_app_cons.
  rewrite <- IH. by destruct p, r.
Qed.

Lemma upper_z_cases s : upper_z s = s \/ exists a, s = a +:+ "z" /\ upper_z s = a +:+ "Z".
Proof.
  induction s as [|c s IH]; [by left|]. destruct s as [|d s].
  - cbn. case_bool_decide as E; [|by left]. right. exists "". by subst.
  - change (upper_z (String c (String d s))) with (String c (upper_z (String d s))).
    destruct IH as [->|(a & -> & ->)]; [by left|]. right. by exists (String c a).
Qed.

Lemma snoc_inj a b x y : a +:+ String x "" = b +:+ String y "" -> a = b /\ x = y.
Proof.
  revert b. induction a as [|c a IH]; intros [|d b] H.
  - by injection H as ->.
  - injection H as _ H. by destruct b.
  - injection H as _ H. by destruct a.
  - injection H as -> H. apply IH in H as [-> ->]. done.
Qed.

Lemma zone_last z : zone_ok z = true -> z = "Z" \/ exists z' c, z = z' +:+ String c "" /\ is_digit c = true.
Proof.
  unfold zone_ok. rewrite orb_true_iff, !andb_true_iff.
  intros [H|(((((( Hl & _) & _) & _) & H) & _) & _)]; [left; by apply bool_decide_eq_true in H|right].
  apply Z.eqb_eq in Hl. unfold str_len in Hl.
  destruct z as [|a [|b [|c [|d [|e [|f [|]]]]]]]; cbn in Hl; try lia.
  exists (String a (String b (String c (String d (String e ""))))), f. split; [done|].
  change (slice 4 6 _) with (String e (String f "")) in H. unfold allDigits in H. cbn in H.
  rewrite !andb_true_iff in H. tauto.
Qed.

Lemma upper_z_zone z : zone_ok z = true -> upper_z z = z.
Proof.
  intros H. destruct (zone_last z H) as [->|(z' & c & -> & Hc)]; [done|].
  rewrite upper_z_app by done. cbn. by rewrite bool_decide_eq_false_2 by by intros ->.
Qed.

Lemma upper_z_inv rest f z : upper_z rest = f +:+ z -> zone_ok z = true ->
  rest = f +:+ z \/ (z = "Z" /\ rest = f +:+ "z").
Proof.
  intros H Hz. destruct (upper_z_cases rest) as [E|(a & -> & E)]; [left; congruence|]. rewrite E in H.
  destruct (zone_last z Hz) as [->|(z' & c & -> & Hc)].
  - apply snoc_inj in H as [-> _]. by right.
  - rewrite <- str_app_assoc in H. by apply snoc_inj in H as [_ <-].
Qed.

(** ** The date and the time *)

(** A text of at least twenty bytes, cut before its fraction. *)
Lemma cut_19 s : (20 <= String.length s)%nat -> exists p c r, s = p +:+ String c r /\ String.length p = 19%nat.
Proof.
  intros H. do 19 (destruct s as [|? s]; [cbn in H; lia|]). destruct s as [|c r]; [cbn in H; lia|].
  eexists (String _ (String _ (String _ (String _ (String _ (String _ (String _ (String _ (String _ (String _ (String _ (String _ (String _ (String _ (String _ (String _ (String _ (String _ (String _ ""))))))))))))))))))), c, r.
  by split.
Qed.

Lemma byte_at_app_l p r i : (i < String.length p)%nat -> byte_at (p +:+ r) i = byte_at p i.
Proof.
  revert i. induction p as [|c p IH]; intros [|i] H; cbn in H; try lia; [done|].
  rewrite str_app_cons. apply IH. lia.
Qed.

(** Both lexical checks only look at the first nineteen bytes. *)
Lemma date_time_digits_app d p c r c' r' : String.length p = 19%nat ->
  date_time_digits d (p +:+ String c r) = date_time_digits d (p +:+ String c' r').
Proof.
  intros Hp. unfold date_time_digits, digit_at, char_at. unfold str_len. rewrite !str_length_app, Hp.
  cbn [String.length forallb]. rewrite !byte_at_app_l by (rewrite Hp; lia).
  rewrite !(proj2 (Z.ltb_ge _ 20)) by lia. done.
Qed.

Definition is_T (c : ascii) : bool := bool_decide (c = "T"%char).
Definition is_Tt (c : ascii) : bool := bool_decide (c = "T"%char) || bool_decide (c = "t"%char).

Lemma date_time_digits_len d s : date_time_digits d s = true -> (20 <= String.length s)%nat.
Proof. unfold date_time_digits, str_len. destruct (Z.ltb_spec (Z.of_nat (String.length s)) 20); [done|lia]. Qed.

Lemma date_time_digits_T s : date_time_digits is_T s
  = date_time_shape s && negb (Atoi (slice 0 4 s) =? 0).
Proof.
  unfold date_time_digits, date_time_shape. rewrite Z.leb_antisym.
  destruct (Z.ltb_spec (str_len s) 20) as [|Hl]; [done|]. cbn [negb andb].
  assert (20 <= String.length s)%nat as Hl' by (unfold str_len in Hl; lia). clear Hl.
  do 20 (destruct s as [|? s]; [cbn in Hl'; lia|]). clear Hl'.
  unfold digit_at, char_at, is_T, allDigits, byte_at, Atoi. cbn -[digit_val is_digit]. unfold id.
  destruct (is_digit a) eqn:E0, (is_digit a0) eqn:E1, (is_digit a1) eqn:E2, (is_digit a2) eqn:E3; cbn [andb negb]; try done.
  rewrite !(bool_decide_eq_false_2 (String _ _ = "")) by done.
  match goal with |- context [?y <? 1] => match goal with |- context [?x =? 0] =>
    assert ((y <? 1) = (x =? 0)) as -> end end.
  { apply eq_true_iff_eq. rewrite Z.ltb_lt, Z.eqb_eq. unfold is_digit, in_range, digit_val in *. gobool. cbn [from_option]. lia. }
  btauto.
Qed.

(** ** Both parsers *)

(** [time.Parse] needs an upper-case [T], and refuses hours, minutes and
    seconds out of range itself. *)
Lemma Parse_lower_t s : (20 <= String.length s)%nat -> byte_at s 10 = "t"%char -> Parse s = None.
Proof.
  intros Hl Ht. do 20 (destruct s as [|? s]; [cbn in Hl; lia|]). clear Hl.
  cbn in Ht. unfold id in Ht. subst. unfold Parse. cbn -[is_digit digit_val Atoi].
  repeat (case_match; cbn -[is_digit digit_val Atoi]; try done).
Qed.

Lemma Parse_clock v : date_time_shape v = true ->
  (23 <? Atoi (slice 11 13 v)) || (59 <? Atoi (slice 14 16 v)) || (59 <? Atoi (slice 17 19 v)) = true ->
  Parse v = None.
Proof.
  intros Hs H. apply date_time_shape_inv in Hs as (y0&y1&y2&y3&m0&m1&d0&d1&h0&h1&n0&n1&s0&s1&c&r&->&Hd).
  rewrite !list.Forall_cons in Hd. destruct_and! Hd.
  change (slice 11 13 _) with (String h0 (String h1 "")) in H. change (slice 14 16 _) with (String n0 (String n1 "")) in H.
  change (slice 17 19 _) with (String s0 (String s1 "")) in H. rewrite !two_digits in H by done.
  unfold Parse. unfold parse_year. replace (is_digit y0 && is_digit y1 && is_digit y2 && is_digit y3) with true
    by (symmetry; by rewrite !andb_true_iff).
  repeat (cbn [mbind option_bind]; first [rewrite expect_cons | rewrite getnum_digits by done]).
  cbn [mbind option_bind]. destruct (parse_frac (String c r)) as [ns z].
  destruct (parse_zone z) as [[off z']|]; cbn [mbind option_bind]; [|done].
  destruct (negb _); [done|]. destruct (_ || (60 <=? _)) eqn:E; [done|]. exfalso.
  rewrite !orb_false_iff, !Z.leb_gt in E. rewrite !orb_true_iff, !Z.ltb_lt in H. lia.
Qed.

Lemma parse_utc_micro_exact v t : parse_utc_micro v = Some t -> exists p, Parse v = Some p
  /\ t = mkTime (unix_ns p / 1000 * 1000) 0 /\ 1 <= Year (UTC p) <= 9999.
Proof.
  unfold parse_utc_micro. destruct (Parse v) as [p|]; [|done]. destruct (_ || _) eqn:E; [done|].
  apply orb_false_iff in E as [E1 E2]. apply Z.ltb_ge in E1, E2. intros H. injection H as <-.
  exists p. rewrite Truncate_micro. split_and!; [done|done|lia|lia].
Qed.

Lemma measured_core v : parseMeasuredAt v
  = if date_time_digits is_T v && rest_ok v then parse_utc_micro v else None.
Proof.
  rewrite date_time_digits_T. unfold rest_ok. destruct (parseMeasuredAt v) as [t|] eqn:E.
  - pose proof (parseMeasuredAt_ok v t E) as ((p & Hp & ->) & Hy & _ & Hu). unfold parseMeasuredAt in E.
    destruct (date_time_shape v); [|done]. destruct (_ =? 0); [done|]. cbn [negb andb] in *.
    destruct (fraction_ok _ _); [|done]. destruct (zone_ok _); [|done]. cbn [andb].
    unfold parse_utc_micro. rewrite Hp. rewrite !(proj2 (Z.ltb_ge _ _)) by lia. cbn [orb]. rewrite Truncate_micro.
    f_equal. unfold UTC in *. cbn [unix_ns] in Hu. f_equal. pose proof (Z.div_mod (unix_ns p) 1000). lia.
  - unfold parseMeasuredAt in E. destruct (date_time_shape v) eqn:Hs; [|done]. destruct (_ =? 0); [done|].
    cbn [negb andb] in *. destruct (fraction_ok _ _); [|done]. destruct (zone_ok _); [|done]. cbn [negb andb] in *.
    unfold parse_utc_micro. destruct (_ || (59 <? Atoi (slice 17 19 v))) eqn:Hc; [by rewrite Parse_clock|].
    destruct (Parse v) as [p|]; [|done]. cbn [mbind option_bind] in E.
    unfold validCalendarYear in E. destruct (_ && _) eqn:Hy; [done|].
    rewrite andb_false_iff, !Z.leb_gt in Hy.
    destruct (Z.ltb_spec (Year (UTC p)) 1), (Z.ltb_spec 9999 (Year (UTC p))); try done. lia.
Qed.

Lemma date_time_digits_delim d s :
  date_time_digits d s = date_time_digits (fun _ => true) s && d (byte_at s 10).
Proof.
  unfold date_time_digits. destruct (d (byte_at s 10)); cbn [negb].
  - by rewrite andb_true_r.
  - rewrite andb_false_r. by repeat case_match.
Qed.

Lemma digits_T_Tt s : date_time_digits is_T s = true -> date_time_digits is_Tt s = true.
Proof.
  rewrite (date_time_digits_delim is_T), (date_time_digits_delim is_Tt), !andb_true_iff.
  unfold is_T, is_Tt. intros [-> ->]. done.
Qed.

Lemma digits_Tt_t s : date_time_digits is_Tt s = true -> date_time_digits is_T s = false -> byte_at s 10 = "t"%char.
Proof.
  rewrite (date_time_digits_delim is_T), (date_time_digits_delim is_Tt), andb_true_iff.
  unfold is_T, is_Tt. intros [-> H] H'. cbn [andb] in H'. rewrite H' in H. by apply bool_decide_eq_true in H.
Qed.

(** The query parser and the telemetry validator read the same timestamps: the
    parser accepts a text exactly when the validator accepts it with a final
    [z] made upper case, and gives the same instant. *)
Lemma query_time_core s : parseRFC3339Micro s = parseMeasuredAt (upper_z s).
Proof.
  rewrite measured_core. unfold parseRFC3339Micro. 
  change (negb (date_time_digits _ s)) with (negb (date_time_digits is_Tt s)).
  destruct (decide (20 <= String.length s)%nat) as [Hl|Hl].
  2:{ assert (String.length (upper_z s) = String.length s) as El.
      { destruct (upper_z_cases s) as [->|(a & -> & ->)]; [done|]. by rewrite !str_length_app. }
      destruct (date_time_digits is_Tt s) eqn:E1; [by apply date_time_digits_len in E1|].
      destruct (date_time_digits is_T (upper_z s)) eqn:E2; [apply date_time_digits_len in E2; lia|done]. }
  destruct (cut_19 s Hl) as (p & c & r & -> & Hp).
  change (idx ← offset_index (p +:+ String c r); s' ← check_offset (p +:+ String c r) idx; parse_utc_micro s')
    with (idx ← offset_index (p +:+ String c r); (check_offset (p +:+ String c r) idx ≫= parse_utc_micro)).
  assert ((idx ← offset_index (p +:+ String c r); (check_offset (p +:+ String c r) idx ≫= parse_utc_micro))
    = (scan (p +:+ String c r) ≫= parse_utc_micro)) as -> by (unfold scan; by destruct (offset_index _)).
  rewrite upper_z_app by done.
  assert (exists c' r', upper_z (String c r) = String c' r') as (c' & r' & Eu).
  { destruct (upper_z_cases (String c r)) as [->|([|c' a] & _ & ->)]; eauto. }
  assert (date_time_digits is_T (p +:+ upper_z (String c r)) = date_time_digits is_T (p +:+ String c r)) as ->
    by (rewrite Eu; by apply date_time_digits_app).
  destruct (scan (p +:+ String c r)) as [v|] eqn:Es.
  - apply scan_spec in Es as (f & z & E & Hf & Hv); [|done].
    assert (v = p +:+ upper_z (String c r) /\ rest_ok v = true) as [-> Hrest].
    { rewrite E. assert (z <> "") as Hz by (destruct Hv as [[Hz _]|[-> _]]; [by apply zone_stops|done]).
      rewrite upper_z_app by done. destruct Hv as [[Hok ->]|[-> ->]].
      - rewrite upper_z_zone, E by done. split; [done|]. by apply rest_ok_intro.
      - split; [done|]. by apply rest_ok_intro. }
    rewrite Hrest, andb_true_r. cbn [mbind option_bind].
    destruct (date_time_digits is_T (p +:+ String c r)) eqn:ET; [by rewrite digits_T_Tt|].
    destruct (date_time_digits is_Tt (p +:+ String c r)) eqn:EU; [|done]. cbn [negb].
    pose proof (digits_Tt_t _ EU ET) as Ht. rewrite byte_at_app_l in Ht by lia.
    unfold parse_utc_micro. rewrite Parse_lower_t; [done| |by rewrite byte_at_app_l by lia].
    rewrite str_length_app, Hp, Eu. cbn [String.length]. lia.
  - cbn [mbind option_bind]. destruct (negb _); symmetry; destruct (_ && rest_ok _) eqn:Hr; try done; exfalso.
    all: apply andb_true_iff in Hr as [_ Hr]; apply rest_ok_inv in Hr as (f & z & E & Hf & Hz); [|done].
    all: assert (exists v, scan (p +:+ String c r) = Some v) as [v Hv]; [|congruence].
    all: destruct (upper_z_inv _ _ _ E Hz) as [E'|[-> E']]; eexists; apply scan_spec; [done| |done|].
    all: exists f; first [exists z; by eauto | exists "z"; by eauto].
Qed.

Lemma char_at_idx h z c : char_at (h +:+ z) (String.length h) c = bool_decide (byte_at z 0 = c).
Proof. unfold char_at. pose proof (byte_at_app h z 0) as E. rewrite Nat.add_0_r in E. by rewrite E. Qed.

Lemma utcz_core s t : parseRFC3339MicroUTCZ s = Some t <->
  parseRFC3339Micro s = Some t /\ exists a, s = a +:+ "Z".
Proof.
  destruct (decide (20 <= String.length s)%nat) as [Hl|Hl].
  2:{ unfold parseRFC3339Micro, parseRFC3339MicroUTCZ.
      split; [intros H|intros [H _]]; destruct (date_time_digits _ s) eqn:E; try done;
        by apply date_time_digits_len in E. }
  destruct (cut_19 s Hl) as (p & c & r & -> & Hp). generalize (String c r). clear c r Hl. intros rest.
  unfold parseRFC3339MicroUTCZ, parseRFC3339Micro.
  change (negb (date_time_digits _ ?s)) with (negb (date_time_digits is_T s)) at 1.
  change (negb (date_time_digits (fun _ => _ || _) ?s)) with (negb (date_time_digits is_Tt s)).
  split.
  - destruct (date_time_digits is_T (p +:+ rest)) eqn:ET; [|done]. rewrite digits_T_Tt by done. cbn [negb].
    intros H. apply bind_Some in H as (idx & Hi & H). rewrite Hi. cbn [mbind option_bind].
    apply offset_index_inv in Hi as (f & z & -> & Hf & ->); [|done].
    rewrite <- str_app_assoc in *. rewrite char_at_idx in H. rewrite check_offset_app.
    destruct (bool_decide_reflect (byte_at z 0 = "Z"%char)) as [Hz|]; [|done]. cbn [negb] in H.
    destruct z as [|c z]; [done|]. cbn in Hz. unfold id in Hz. subst c.
    destruct z as [|c z].
    { rewrite (proj2 (Nat.eqb_eq _ _)) in H by (rewrite (str_length_app (p +:+ f)); cbn [String.length]; lia).
      split; [exact H|by eexists]. }
    rewrite (str_length_app (p +:+ f)) in H. cbn [String.length] in H.
    rewrite (proj2 (Nat.eqb_neq _ _)) in H by lia. done.
  - intros [H [a Ha]]. destruct (date_time_digits is_Tt (p +:+ rest)) eqn:ET; [|done]. cbn [negb] in H.
    apply bind_Some in H as (idx & Hi & H). rewrite Hi. cbn [mbind option_bind].
    apply bind_Some in H as (v & Hc & H).
    apply offset_index_inv in Hi as (f & z & -> & Hf & ->); [|done].
    rewrite <- str_app_assoc in *. rewrite check_offset_app in Hc. rewrite char_at_idx.
    assert (z = "Z" /\ v = (p +:+ f) +:+ z) as [-> ->].
    { destruct (zone_ok z) eqn:Hz.
      - split; [|by injection Hc as <-]. destruct (zone_last z Hz) as [|(z' & d & -> & Hd)]; [done|].
        rewrite <- str_app_assoc in Ha. by apply snoc_inj in Ha as [_ ->].
      - case_bool_decide; [|done]. subst z. by apply snoc_inj in Ha as [_ Ha]. }
    cbn [byte_at String.get default from_option]. rewrite bool_decide_eq_true_2 by done. cbn [negb].
    rewrite (proj2 (Nat.eqb_eq _ _)) by (rewrite (str_length_app (p +:+ f)); cbn [String.length]; lia). cbn [negb].
    destruct (date_time_digits is_T ((p +:+ f) +:+ "Z")) eqn:EU; [done|]. exfalso.
    pose proof (digits_Tt_t _ ET EU) as Ht. destruct (parse_utc_micro_exact _ _ H) as (q & Hq & _).
    rewrite Parse_lower_t in Hq; [done| |done]. rewrite !str_length_app, Hp. cbn [String.length]. lia.
Qed.

(** The query parser, the temporal parser and the telemetry validator agree on
    timestamps: [parseRFC3339Micro] reads a text as [parseMeasuredAt] reads it
    with a final [z] made upper case, the same instant or a refusal, and
    [parseRFC3339MicroUTCZ] reads exactly the texts among them that end in [Z]. *)
Theorem query_timestamps_agree :
  (forall s, parseRFC3339Micro s = parseMeasuredAt (upper_z s))
  /\ (forall s t, parseRFC3339MicroUTCZ s = Some t <-> parseMeasuredAt s = Some t /\ exists a, s = a +:+ "Z").
Proof.
  split; [exact query_time_core|]. intros s t. rewrite utcz_core, query_time_core.
  assert (forall a, upper_z (a +:+ "Z") = a +:+ "Z") as Hu by (intros; by rewrite upper_z_app).
  split; intros [H [a ->]]; rewrite Hu in *; eauto.
Qed.

(** A lower-case [t] passes the lexical check and is refused all the same. *)
Lemma lower_t_refused : date_time_digits is_Tt "2026-05-04t10:20:30Z" = true
  /\ parseRFC3339Micro "2026-05-04t10:20:30Z" = None
  /\ parseRFC3339Micro "2026-05-04T10:20:30z" = parseRFC3339Micro "2026-05-04T10:20:30Z".
Proof. by vm_compute. Qed.
