(* ===== verification/HistoryQuery.v ===== *)
(** * Telemetry history queries: resolutions, buckets and time ranges

    [telemetry/history_query.go]: the resolution tokens, microsecond
    arithmetic on int64, the number of buckets a range touches and the
    validation of a range; and the error values of the history read path. *)

From S2P Require Import Prelude GoStrings GoTime GoFloat Uuid Identity Urn.
#[local] Open Scope Z_scope.

(** ** Error values *)

(** The sentinels of [history_query.go]. *)
Inductive HistoryError :=
| ErrHistoryNilActor
| ErrHistoryInvalidInput
| ErrHistoryNotFound
| ErrHistoryRangeTooLarge
| ErrHistoryInvalidResolution
| ErrHistoryRawLimitExceeded
| ErrHistoryResolutionTooFine
| ErrHistoryDependency
| ErrHistoryUnexpected.

#[export] Instance HistoryError_eq_dec : EqDecision HistoryError.
Proof. solve_decision. Defined.

(** The sentinels of package [gateway]: [provisioning_model.go],
    [admin_inventory.go], [repository.go], [service.go] and the unavailability
    of each kind of provisioning. *)
Inductive GatewayError :=
| ErrInvalidProvisioningInput
| ErrProvisioningNotFound
| ErrProvisioningConflict
| ErrProvisioningForbidden
| ErrProvisioningInconsistent
| ErrProvisioningAdminLookup
| ErrGatewayProvisioningUnavailable
| ErrOwnerProvisioningUnavailable
| ErrAdminOrOwnerProvisioningUnavailable
| ErrAdminForbidden
| ErrAdminLookupFailed
| ErrInventoryUnavailable
| ErrInvalidInventoryQuery
| ErrInvalidUser
| ErrGatewayNotFound.

#[export] Instance GatewayError_eq_dec : EqDecision GatewayError.
Proof. solve_decision. Defined.

(** The sentinels of package [usermanagement]: [errors.go] and
    [postgres_repository.go].  [ErrUserInvalidInput] and
    [ErrUserGatewayNotFound] are its [ErrInvalidInput] and [ErrGatewayNotFound]. *)
Inductive UserError :=
| ErrMembershipUnavailable
| ErrUserInvalidInput
| ErrSelfDemotionForbidden
| ErrOwnerRoleNotAllowed
| ErrInvalidRole
| ErrUserNotFound
| ErrUserGatewayNotFound
| ErrUserAlreadyExists
| ErrOwnerTransferRequired
| ErrGatewayOwnerInconsistent
| ErrCapacityExceeded
| ErrAuthUnavailable
| ErrAuthInvalidResponse
| ErrProfileVerificationFailed
| ErrInconsistentProfile
| ErrActorNotAdmin.

#[export] Instance UserError_eq_dec : EqDecision UserError.
Proof. solve_decision. Defined.

(** What the driver and the context report, as far as the code tells it apart:
    a cancelled context, a passed deadline, [pgx.ErrNoRows], a server error
    with its SQLSTATE, [pgconn.ErrConnClosed], [puddle.ErrClosedPool], [io.EOF],
    [io.ErrUnexpectedEOF], a [*pgconn.ConnectError], a [net.Error], or any
    other error. *)
Inductive cause :=
| Canceled
| DeadlineExceeded
| ErrNoRows
| PgError (sqlstate : string)
| ConnClosed
| ClosedPool
| EOF
| UnexpectedEOF
| ConnectError
| NetError
| OtherCause (text : string).

#[export] Instance cause_eq_dec : EqDecision cause.
Proof. solve_decision. Defined.

(** An error: a sentinel of [telemetry], of [digitaltwin], of [gateway] or of
    [usermanagement], a refused identifier, a cause, a text around an error ([fmt.Errorf] with one
    [%w]), several errors ([errors.Join], and [fmt.Errorf] with more than one
    [%w]), a [*QueryError] of the HTTP layer with its code around an error, or a
    [pgx.ScanArgError]. *)
Inductive herror :=
| HErr (e : HistoryError)
| HTwin (e : TwinError)
| HGateway (e : GatewayError)
| HUser (e : UserError)
| HIdent (e : id_error)
| HCause (c : cause)
| HText (text : string) (wrapped : herror)
| HJoin (left right : herror)
| HQuery (code : string) (wrapped : herror)
| HScan (wrapped : herror).

(** [errors.Is(err, target)] for a sentinel and for a cause. *)
Fixpoint is_history (target : HistoryError) (err : herror) : bool :=
  match err with
  | HErr e => bool_decide (e = target)
  | HTwin _ | HGateway _ | HUser _ | HIdent _ | HCause _ => false
  | HText _ e | HQuery _ e | HScan e => is_history target e
  | HJoin e1 e2 => is_history target e1 || is_history target e2
  end.

Fixpoint is_twin (target : TwinError) (err : herror) : bool :=
  match err with
  | HTwin e => bool_decide (e = target)
  | HErr _ | HGateway _ | HUser _ | HIdent _ | HCause _ => false
  | HText _ e | HQuery _ e | HScan e => is_twin target e
  | HJoin e1 e2 => is_twin target e1 || is_twin target e2
  end.

Fixpoint is_gateway (target : GatewayError) (err : herror) : bool :=
  match err with
  | HGateway e => bool_decide (e = target)
  | HErr _ | HTwin _ | HUser _ | HIdent _ | HCause _ => false
  | HText _ e | HQuery _ e | HScan e => is_gateway target e
  | HJoin e1 e2 => is_gateway target e1 || is_gateway target e2
  end.

Fixpoint is_user (target : UserError) (err : herror) : bool :=
  match err with
  | HUser e => bool_decide (e = target)
  | HErr _ | HTwin _ | HGateway _ | HIdent _ | HCause _ => false
  | HText _ e | HQuery _ e | HScan e => is_user target e
  | HJoin e1 e2 => is_user target e1 || is_user target e2
  end.

Fixpoint is_ident (target : id_error) (err : herror) : bool :=
  match err with
  | HIdent e => bool_decide (e = target)
  | HErr _ | HTwin _ | HGateway _ | HUser _ | HCause _ => false
  | HText _ e | HQuery _ e | HScan e => is_ident target e
  | HJoin e1 e2 => is_ident target e1 || is_ident target e2
  end.

Fixpoint is_cause (target : cause) (err : herror) : bool :=
  match err with
  | HErr _ | HTwin _ | HGateway _ | HUser _ | HIdent _ => false
  | HCause c => bool_decide (c = target)
  | HText _ e | HQuery _ e | HScan e => is_cause target e
  | HJoin e1 e2 => is_cause target e1 || is_cause target e2
  end.

(** [errors.Is(err, target)] for a target that wraps nothing. *)
Definition errors_Is (target err : herror) : bool :=
  match target with
  | HErr e => is_history e err
  | HTwin e => is_twin e err
  | HGateway e => is_gateway e err
  | HUser e => is_user e err
  | HIdent e => is_ident e err
  | HCause c => is_cause c err
  | _ => false
  end.

(** [errors.As(err, &server)]: the first server error of the chain. *)
Fixpoint as_pg_error (err : herror) : option string :=
  match err with
  | HCause (PgError code) => Some code
  | HErr _ | HTwin _ | HGateway _ | HUser _ | HIdent _ | HCause _ => None
  | HText _ e | HQuery _ e | HScan e => as_pg_error e
  | HJoin e1 e2 => match as_pg_error e1 with Some c => Some c | None => as_pg_error e2 end
  end.

(** [errors.As(err, &qe)]: the code of the first [*QueryError]. *)
Fixpoint as_query_error (err : herror) : option string :=
  match err with
  | HQuery code _ => Some code
  | HErr _ | HTwin _ | HGateway _ | HUser _ | HIdent _ | HCause _ => None
  | HText _ e | HScan e => as_query_error e
  | HJoin e1 e2 => match as_query_error e1 with Some c => Some c | None => as_query_error e2 end
  end.

(** [errors.As(err, &scan)] for a [pgx.ScanArgError]. *)
Fixpoint is_scan (err : herror) : bool :=
  match err with
  | HScan _ => true
  | HErr _ | HTwin _ | HGateway _ | HUser _ | HIdent _ | HCause _ => false
  | HText _ e | HQuery _ e => is_scan e
  | HJoin e1 e2 => is_scan e1 || is_scan e2
  end.

(** ** Resolutions *)

(** [Resolution] is a string in Go; any other text is [ResolutionOther]. *)
Inductive Resolution :=
| ResolutionAuto
| ResolutionRaw
| Resolution100ms
| Resolution1s
| Resolution10s
| Resolution1m
| Resolution5m
| Resolution15m
| Resolution1h
| Resolution6h
| Resolution1d
| ResolutionOther (text : string).

#[export] Instance Resolution_eq_dec : EqDecision Resolution.
Proof. solve_decision. Defined.

Definition resolution_text (r : Resolution) : string :=
  match r with
  | ResolutionAuto => "auto"
  | ResolutionRaw => "raw"
  | Resolution100ms => "100ms"
  | Resolution1s => "1s"
  | Resolution10s => "10s"
  | Resolution1m => "1m"
  | Resolution5m => "5m"
  | Resolution15m => "15m"
  | Resolution1h => "1h"
  | Resolution6h => "6h"
  | Resolution1d => "1d"
  | ResolutionOther text => text
  end.

Definition Resolution_Valid (r : Resolution) : bool :=
  match r with ResolutionOther _ => false | _ => true end.

(** The zero duration and [false] are [None]. *)
Definition ResolutionDuration (r : Resolution) : option Z :=
  match r with
  | Resolution100ms => Some (100 * Millisecond)
  | Resolution1s => Some Second
  | Resolution10s => Some (10 * Second)
  | Resolution1m => Some Minute
  | Resolution5m => Some (5 * Minute)
  | Resolution15m => Some (15 * Minute)
  | Resolution1h => Some Hour
  | Resolution6h => Some (6 * Hour)
  | Resolution1d => Some (24 * Hour)
  | ResolutionAuto | ResolutionRaw | ResolutionOther _ => None
  end.

(** ** Microseconds and buckets *)

(** [d.Microseconds()]: integer division of the nanoseconds. *)
Definition Microseconds (d : Z) : Z := Z.quot d 1000.

Definition ToMicrosecondsSinceEpoch (t : Time) : Z :=
  let u := UTC t in
  int64_add (int64_mul (Unix u) 1000000) (Z.quot (Nanosec u) 1000).

(** Go's [/] and [%] round toward zero; the callers' divisor is positive. *)
Definition floorDiv (a b : Z) : Z :=
  let d := wrap64 (Z.quot a b) in
  let r := Z.rem a b in
  if negb (r =? 0) && xorb (r <? 0) (b <? 0) then int64_sub d 1 else d.

(** The three errors of the function carry a text only. *)
Definition IntersectingBucketCount (from to : Time) (width : Z) : res string Z :=
  if width <=? 0 then Err "bucket width must be positive"
  else if negb (Before from to) then Err "invalid time range: from must be before to"
  else
    let widthMicros := Microseconds width in
    if widthMicros <=? 0 then Err "bucket width in microseconds must be positive"
    else
      let fromMicros := ToMicrosecondsSinceEpoch from in
      let toMinusOneMicros := int64_sub (ToMicrosecondsSinceEpoch to) 1 in
      Ok (int64_add (int64_sub (floorDiv toMinusOneMicros widthMicros) (floorDiv fromMicros widthMicros)) 1).

(** ** Queries *)

Record TimeRange := mkTimeRange { rng_From : Time; rng_To : Time }.

Record TelemetryHistoryQuery := mkHistoryQuery {
  hq_GatewayID : string;
  hq_SensorID : string;
  hq_Range : TimeRange;
  hq_Resolution : Resolution;
  hq_MaxPoints : Z;
}.

Definition year_in_range (t : Time) : bool := negb ((Year t <? 1) || (9999 <? Year t)).

Definition ValidateHistoryTimeRange (tr : TimeRange) (res : Resolution) (maxRange rawWindow maxPoints : Z)
    : option HistoryError :=
  let fromUTC := UTC (rng_From tr) in
  let toUTC := UTC (rng_To tr) in
  let diffMicros := int64_sub (ToMicrosecondsSinceEpoch toUTC) (ToMicrosecondsSinceEpoch fromUTC) in
  if negb (year_in_range (rng_From tr)) || negb (year_in_range (rng_To tr)) then Some ErrHistoryInvalidInput
  else if negb (year_in_range fromUTC) || negb (year_in_range toUTC) then Some ErrHistoryInvalidInput
  else if negb (Z.rem (Nanosec fromUTC) 1000 =? 0) || negb (Z.rem (Nanosec toUTC) 1000 =? 0)
  then Some ErrHistoryInvalidInput
  else if negb (Before fromUTC toUTC) then Some ErrHistoryInvalidInput
  else if int64_add (Z.quot maxRange Second) 1 <? int64_sub (Unix toUTC) (Unix fromUTC)
  then Some ErrHistoryRangeTooLarge
  else if Microseconds maxRange <? diffMicros then Some ErrHistoryRangeTooLarge
  else if negb (Resolution_Valid res) then Some ErrHistoryInvalidResolution
  else if bool_decide (res = ResolutionRaw) then
    if Microseconds rawWindow <? diffMicros then Some ErrHistoryRawLimitExceeded else None
  else if negb (bool_decide (res = ResolutionAuto)) then
    match ResolutionDuration res with
    | None => Some ErrHistoryInvalidResolution
    | Some w =>
        match IntersectingBucketCount (rng_From tr) (rng_To tr) w with
        | Err _ => Some ErrHistoryInvalidInput
        | Ok count => if maxPoints <? count then Some ErrHistoryResolutionTooFine else None
        end
    end
  else None.

(** ** Results *)

Record RawSamplePoint (uuid : Type) := mkRawPoint {
  rp_MeasuredAt : Time;
  rp_Value : float64;
  rp_SequenceNum : Z;
  rp_BootID : option uuid;
  rp_MessageID : option uuid;
  rp_SampleIndex : option Z;
}.
Arguments mkRawPoint {uuid}.
Arguments rp_MeasuredAt {uuid}.
Arguments rp_Value {uuid}.
Arguments rp_SequenceNum {uuid}.
Arguments rp_BootID {uuid}.
Arguments rp_MessageID {uuid}.
Arguments rp_SampleIndex {uuid}.

Record BucketSamplePoint := mkBucketPoint {
  bp_BucketStart : Time;
  bp_Avg : float64;
  bp_Min : float64;
  bp_Max : float64;
  bp_Count : Z;
}.

Record TelemetryHistoryResult (uuid : Type) := mkHistoryResult {
  hr_GatewayID : string;
  hr_SensorID : string;
  hr_Unit : option string;
  hr_From : Time;
  hr_To : Time;
  hr_Mode : string;
  hr_Resolution : string;
  hr_PointCount : Z;
  hr_RawPoints : list (RawSamplePoint uuid);
  hr_BucketPoints : list BucketSamplePoint;
}.
Arguments mkHistoryResult {uuid}.
Arguments hr_GatewayID {uuid}.
Arguments hr_SensorID {uuid}.
Arguments hr_Unit {uuid}.
Arguments hr_From {uuid}.
Arguments hr_To {uuid}.
Arguments hr_Mode {uuid}.
Arguments hr_Resolution {uuid}.
Arguments hr_PointCount {uuid}.
Arguments hr_RawPoints {uuid}.
Arguments hr_BucketPoints {uuid}.

Record ResolvedSensor := mkResolvedSensor {
  rs_GatewayID : string;
  rs_SensorID : string;
  rs_Unit : option string;
}.

(** ** The instants of years 1 to 9999 *)

(** Year 1 starts and year 9999 ends here, in nanoseconds since the epoch. *)
Definition first_ns : Z := -62135596800 * Second.
Definition end_ns : Z := 253402300800 * Second.

Lemma year_in_range_spec t : loc_off t = 0 -> year_in_range t = true <-> first_ns <= unix_ns t < end_ns.
Proof.
  intros Hoff. unfold year_in_range. rewrite negb_true_iff, orb_false_iff, !Z.ltb_ge.
  assert (Y1 : Year (mkTime first_ns 0) = 1) by (vm_compute; reflexivity).
  assert (Y0 : Year (mkTime (first_ns - 1) 0) = 0) by (vm_compute; reflexivity).
  assert (Y9 : Year (mkTime (end_ns - 1) 0) = 9999) by (vm_compute; reflexivity).
  assert (YX : Year (mkTime end_ns 0) = 10000) by (vm_compute; reflexivity).
  split; intros H.
  - split.
    + destruct (Z.le_gt_cases first_ns (unix_ns t)) as [|Hlt]; [done|].
      assert (Year t <= Year (mkTime (first_ns - 1) 0)) by (apply Year_mono; [done..|cbn; lia]). lia.
    + destruct (Z.lt_ge_cases (unix_ns t) end_ns) as [|Hge]; [done|].
      assert (Year (mkTime end_ns 0) <= Year t) by (apply Year_mono; [done..|cbn; lia]). lia.
  - split.
    + etrans; [apply Z.eq_le_incl, eq_sym, Y1|]. apply Year_mono; [reflexivity|exact Hoff|cbn [unix_ns]; lia].
    + etrans; [|apply Z.eq_le_incl, Y9]. apply Year_mono; [exact Hoff|reflexivity|cbn [unix_ns]; lia].
Qed.

(** The arithmetic does not overflow on those instants. *)
Lemma ToMicroseconds_exact t : first_ns <= unix_ns t < end_ns ->
  ToMicrosecondsSinceEpoch t = unix_ns t / 1000.
Proof.
  intros H. unfold first_ns, end_ns, Second in H. unfold ToMicrosecondsSinceEpoch, int64_add, int64_mul.
  assert (-62135596800 <= Unix (UTC t) < 253402300800) by (unfold Unix, UTC, Second; cbn [unix_ns]; split; [apply Z.div_le_lower_bound|apply Z.div_lt_upper_bound]; lia).
  assert (0 <= Nanosec (UTC t) < Second) by (apply Z.mod_pos_bound; done).
  assert (unix_ns t = Unix (UTC t) * Second + Nanosec (UTC t)) as E
    by (unfold Unix, Nanosec, UTC; cbn; pose proof (Z.div_mod (unix_ns t) Second); unfold Second in *; lia).
  rewrite Z.quot_div_nonneg by lia. unfold Second in *.
  rewrite (wrap64_id (Unix (UTC t) * 1000000)) by (unfold in_int64, min_int64, max_int64; lia).
  assert (0 <= Nanosec (UTC t) / 1000 < 1000000) by (split; [apply Z.div_pos|apply Z.div_lt_upper_bound]; lia).
  rewrite wrap64_id by (unfold in_int64, min_int64, max_int64; lia).
  rewrite E. replace (Unix (UTC t) * 1000000000 + Nanosec (UTC t))
    with (Nanosec (UTC t) + (Unix (UTC t) * 1000000) * 1000) by lia.
  rewrite Z.div_add by done. lia.
Qed.

Lemma ToMicroseconds_UTC t : ToMicrosecondsSinceEpoch (UTC t) = ToMicrosecondsSinceEpoch t.
Proof. done. Qed.

Lemma div_bounds lo hi n b : 0 < b -> lo <= 0 <= hi -> lo <= n <= hi -> lo <= n / b <= hi.
Proof.
  intros Hb H0 Hn. split.
  - apply Z.div_le_lower_bound; nia.
  - apply Z.div_le_upper_bound; nia.
Qed.

Lemma floorDiv_spec a b : in_int64 a -> 0 < b -> floorDiv a b = a / b.
Proof.
  intros Ha Hb. unfold floorDiv, int64_sub.
  replace (b <? 0) with false by (symmetry; apply Z.ltb_ge; lia). rewrite xorb_false_r.
  assert (in_int64 (a / b)) by (apply div_bounds; [done|done|exact Ha]).
  destruct (Z.le_gt_cases 0 a) as [Hp|Hn].
  - rewrite Z.quot_div_nonneg, Z.rem_mod_nonneg by lia.
    rewrite (proj2 (Z.ltb_ge (a mod b) 0)) by (apply Z.mod_pos_bound; lia).
    rewrite andb_false_r. by apply wrap64_id.
  - remember (- a) as n eqn:En. assert (a = - n) as -> by lia. clear En.
    rewrite Z.quot_opp_l, Z.rem_opp_l, Z.quot_div_nonneg, Z.rem_mod_nonneg by lia.
    assert (in_int64 (- (n / b))) as Hq.
    { unfold in_int64, min_int64, max_int64 in *. pose proof (Z.div_pos n b).
      assert (n / b <= n) by (apply Z.div_le_upper_bound; nia). lia. }
    rewrite (wrap64_id _ Hq). destruct (Z.eqb_spec (- (n mod b)) 0) as [E|E]; cbn [negb andb].
    + rewrite Z.div_opp_l_z; lia.
    + pose proof (Z.mod_pos_bound n b). rewrite (proj2 (Z.ltb_lt _ _)) by lia.
      rewrite Z.div_opp_l_nz in * by lia. by apply wrap64_id.
Qed.

Lemma IntersectingBucketCount_value from to width : first_ns <= unix_ns from < end_ns ->
  first_ns <= unix_ns to < end_ns -> unix_ns from < unix_ns to -> 1000 <= width ->
  IntersectingBucketCount from to width
  = Ok ((unix_ns to / 1000 - 1) / (width / 1000) - unix_ns from / 1000 / (width / 1000) + 1).
Proof.
  intros Hf Ht Hlt Hw. unfold IntersectingBucketCount, Before, Microseconds.
  rewrite (proj2 (Z.leb_gt _ _)) by lia. rewrite (proj2 (Z.ltb_lt _ _)) by done. cbn [negb].
  rewrite Z.quot_div_nonneg by lia. assert (1 <= width / 1000) by dlia.
  rewrite (proj2 (Z.leb_gt _ _)) by lia. rewrite !ToMicroseconds_exact by done.
  unfold first_ns, end_ns, Second in *. unfold int64_sub, int64_add.
  assert (-62135596800000000 <= unix_ns from / 1000 < 253402300800000000) by dlia.
  assert (-62135596800000000 <= unix_ns to / 1000 < 253402300800000000) by dlia.
  rewrite (wrap64_id (unix_ns to / 1000 - 1)) by (unfold in_int64, min_int64, max_int64; lia).
  rewrite !floorDiv_spec by (unfold in_int64, min_int64, max_int64; lia).
  set (w := width / 1000) in *.
  assert (0 < w) by (unfold w; lia).
  assert (-62135596800000001 <= (unix_ns to / 1000 - 1) / w <= 253402300800000000)
    by (apply div_bounds; lia).
  assert (-62135596800000001 <= unix_ns from / 1000 / w <= 253402300800000000)
    by (apply div_bounds; lia).
  rewrite (wrap64_id (_ - _)) by (unfold in_int64, min_int64, max_int64; lia).
  by rewrite wrap64_id by (unfold in_int64, min_int64, max_int64; lia).
Qed.
