(* ===== verification/HistoryStore.v ===== *)
(** * The read side of the store: contexts, queries and error classes

    A read request runs in a world: the instant its context ends, the tables
    each query finds and the replies of the driver.  [telemetry/*] and
    [digitaltwin/postgres_resolver.go] observe the world through [ctx.Err],
    [Query], [rows.Next] and [rows.Scan]; every observation takes one tick, so
    tables, context and connection may change between any two of them.  The
    queries are the SQL text of the repository; what PostgreSQL and
    TimescaleDB compute in them is the interface [SqlFunctions]. *)

From stdpp Require Import sorting.
From S2P Require Import Prelude GoStrings GoTime GoFloat GoJson Uuid Telemetry.
From S2P Require Import Txn Store Persist HistoryQuery.
#[local] Open Scope Z_scope.

(** [ctx.Err()] once the context has ended. *)
Inductive ctx_err := CtxCanceled | CtxDeadline.

Definition ctx_cause (c : ctx_err) : cause :=
  match c with CtxCanceled => Canceled | CtxDeadline => DeadlineExceeded end.

(** The columns that the telemetry code does not touch: [name] and [updated_at]
    of an entity by [id], [name] and [description] of a Gateway, [name] of a
    Sensor and [created_at] of a relationship by its ends. *)
Record TwinColumns (uuid : Type) `{UuidLib uuid} := mkTwinColumns {
  entity_columns : gmap uuid (option string * Z);
  gateway_columns : gmap string (string * option string);
  sensor_names : gmap (string * string) string;
  relationship_created : gmap (uuid * uuid) Z;
}.
Arguments mkTwinColumns {uuid H}.
Arguments entity_columns {uuid H}.
Arguments gateway_columns {uuid H}.
Arguments sensor_names {uuid H}.
Arguments relationship_created {uuid H}.

(** The tables a read touches: the telemetry tables, the memberships and the
    descriptive columns. *)
Record HistoryDB (uuid : Type) `{UuidLib uuid} := mkHistoryDB {
  store : DB uuid;
  user_gateways : gset (uuid * string);
  columns : TwinColumns uuid;
}.
Arguments mkHistoryDB {uuid H}.
Arguments store {uuid H}.
Arguments user_gateways {uuid H}.
Arguments columns {uuid H}.

Record World (uuid : Type) `{UuidLib uuid} := mkWorld {
  ends_at : option (nat * ctx_err);
  store_at : nat -> HistoryDB uuid;
  reply_at : nat -> option herror;
}.
Arguments mkWorld {uuid H}.
Arguments ends_at {uuid H}.
Arguments store_at {uuid H}.
Arguments reply_at {uuid H}.

(** ** Reading from a world *)

Section reads.
Context {uuid : Type} `{U : UuidLib uuid}.

Definition HM (A : Type) : Type := World uuid -> nat -> res herror A * nat.

Definition hret {A} (a : A) : HM A := fun _ n => (Ok a, n).
Definition hfail {A} (e : herror) : HM A := fun _ n => (Err e, n).
Definition hbind {A B} (m : HM A) (k : A -> HM B) : HM B :=
  fun w n => match m w n with (Ok a, n') => k a w n' | (Err e, n') => (Err e, n') end.

(** The error of a call kept as a value. *)
Definition htry {A} (m : HM A) : HM (res herror A) :=
  fun w n => let '(r, n') := m w n in (Ok r, n').

Definition of_res {A} (r : res herror A) : HM A := fun _ n => (r, n).

(** [ctx.Err()].  A context that has ended stays ended with the same error, so
    the code's second call in the same statement returns what the first did. *)
Definition ctx_Err : HM (option ctx_err) := fun w n =>
  (Ok (match ends_at w with
       | Some (k, c) => if (k <=? n)%nat then Some c else None
       | None => None
       end), S n).

(** One call of the driver. *)
Definition db_call {A} (run : HistoryDB uuid -> res herror A) : HM (res herror A) := fun w n =>
  (Ok (match reply_at w n with Some e => Err e | None => run (store_at w n) end), S n).

End reads.
Arguments HM uuid {U} A.

Notation "'leth' x ':=' m 'in' k" := (hbind m (fun x => k))
  (at level 10, x pattern, m at level 100, k at level 200) : go_scope.

(** ** The context of a prepared operation *)

(** [if ctx.Err() != nil { return fmt.Errorf("%w: %w", dependency, ctx.Err()) }] *)
Definition ensure_ctx {uuid} `{U : UuidLib uuid} (dependency : herror) : HM uuid () :=
  leth c := ctx_Err in
  match c with
  | Some c => hfail (HJoin dependency (HCause (ctx_cause c)))
  | None => hret ()
  end.

(** [err := fn(...)] and the check of the context after it: an ended context
    decides, whatever [fn] returned. *)
Definition scoped {uuid} `{U : UuidLib uuid} {T} (dependency : herror) (fn : HM uuid T) : HM uuid (res herror T) :=
  leth r := htry fn in
  leth c := ctx_Err in
  match c with
  | Some c =>
      match r with
      | Err err =>
          if negb (is_cause (ctx_cause c) err)
          then hfail (HJoin dependency (HJoin (HCause (ctx_cause c)) err))
          else hfail (HJoin dependency (HCause (ctx_cause c)))
      | Ok _ => hfail (HJoin dependency (HCause (ctx_cause c)))
      end
  | None => hret r
  end.

(** ** Classes of driver errors *)

(** [gateway.ClassifyPostgresAvailabilityError] *)
Definition availability_codes : list string :=
  ["08000"; "08001"; "08003"; "08006"; "53300"; "57P01"; "57P02"; "57P03"].

Definition is_ctx_error (err : herror) : bool := is_cause Canceled err || is_cause DeadlineExceeded err.

Definition ClassifyPostgresAvailabilityError (err unavailable : herror) : herror :=
  if is_ctx_error err then err
  else match as_pg_error err with
       | Some code => if bool_decide (code ∈ availability_codes) then HJoin unavailable err else err
       | None =>
           if is_cause ConnClosed err || is_cause ClosedPool err || is_cause EOF err || is_cause UnexpectedEOF err
              || is_cause ConnectError err || is_cause NetError err
           then HJoin unavailable err else err
       end.

Definition classifyHistoryError (err : herror) : herror :=
  if is_ctx_error err then HJoin (HErr ErrHistoryDependency) err
  else
    let classified := ClassifyPostgresAvailabilityError err (HErr ErrHistoryDependency) in
    if is_history ErrHistoryDependency classified then classified
    else HJoin (HErr ErrHistoryUnexpected) err.

Definition classifyResolverError (err notFound dependency unexpected : herror) : herror :=
  if is_cause ErrNoRows err then notFound
  else if is_ctx_error err then HJoin dependency err
  else
    let classified := ClassifyPostgresAvailabilityError err dependency in
    if errors_Is dependency classified then classified
    else HJoin unexpected err.

(** ** What the database computes *)

(** [time_bucket] of TimescaleDB on microseconds, with the origin at the epoch,
    and the aggregates over [double precision]. *)
Class SqlFunctions := {
  time_bucket : Z -> Z -> Z;
  sql_avg : list float64 -> float64;
  sql_min : list float64 -> float64;
  sql_max : list float64 -> float64;
}.

(** The documented [time_bucket]: the start of the bucket that holds the
    instant; buckets are aligned to the origin. *)
Class SqlLaws `{SqlFunctions} := {
  time_bucket_aligned width t : 0 < width -> (width | time_bucket width t);
  time_bucket_holds width t : 0 < width -> time_bucket width t <= t < time_bucket width t + width;
}.

(** ** The queries *)

(** A row of each query: the Sensor's columns, and the joined columns, NULL
    when nothing joined. *)
Record RawRow (uuid : Type) := mkRawRow {
  raw_gateway : string;
  raw_sensor : string;
  raw_unit : option string;
  raw_measured_at : option Z;
  raw_value : option float64;
  raw_sequence : option Z;
  raw_boot : option uuid;
  raw_message : option uuid;
  raw_index : option Z;
}.
Arguments mkRawRow {uuid}.
Arguments raw_gateway {uuid}.
Arguments raw_sensor {uuid}.
Arguments raw_unit {uuid}.
Arguments raw_measured_at {uuid}.
Arguments raw_value {uuid}.
Arguments raw_sequence {uuid}.
Arguments raw_boot {uuid}.
Arguments raw_message {uuid}.
Arguments raw_index {uuid}.

Record BucketRow := mkBucketRow {
  bkt_gateway : string;
  bkt_sensor : string;
  bkt_unit : option string;
  bkt_start : option Z;
  bkt_avg : option float64;
  bkt_min : option float64;
  bkt_max : option float64;
  bkt_count : option Z;
}.

Section queries.
Context {uuid : Type} `{U : UuidLib uuid}.
Implicit Types (db : HistoryDB uuid) (r : TelemetryRow uuid).

(** [authorized_sensor]: the unit of the Sensor when it exists and the actor
    is a member of its Gateway.  Both tables have the joined columns as key. *)
Definition authorized_sensor (actor : uuid) (g s : string) db : option (option string) :=
  if bool_decide ((actor, g) ∈ user_gateways db) then sensors (store db) !! (g, s) else None.

(** The samples of one Sensor measured in [from, to). *)
Definition sample_in (g s : string) (from to : Z) r : Prop :=
  tr_gateway_id r = g /\ tr_sensor_id r = s /\ from <= tr_measured_at r < to.

#[export] Instance sample_in_dec g s from to r : Decision (sample_in g s from to r).
Proof. unfold sample_in. apply _. Defined.

Definition samples_in (g s : string) (from to : Z) db : list (TelemetryRow uuid) :=
  filter (sample_in g s from to) (telemetry (store db)).

(** [ORDER BY t.measured_at ASC, t.sample_id ASC] *)
Definition row_le (r1 r2 : TelemetryRow uuid) : Prop :=
  tr_measured_at r1 < tr_measured_at r2
  \/ (tr_measured_at r1 = tr_measured_at r2 /\ tr_sample_id r1 <= tr_sample_id r2).

#[export] Instance row_le_dec : RelDecision row_le.
Proof. unfold RelDecision, row_le. intros. apply _. Defined.

Definition history_rows (g s : string) (from to : Z) db : list (TelemetryRow uuid) :=
  merge_sort row_le (samples_in g s from to db).

Definition raw_row (g s : string) (unit : option string) r : RawRow uuid :=
  mkRawRow g s unit (Some (tr_measured_at r)) (Some (tr_value r)) (Some (tr_sequence_num r))
    (tr_boot_id r) (tr_message_id r) (tr_sample_index r).

Definition rawTelemetryHistoryQuery (actor : uuid) (g s : string) (from to limit : Z) db
    : list (RawRow uuid) :=
  match authorized_sensor actor g s db with
  | None => []
  | Some unit =>
      take (Z.to_nat limit)
        match history_rows g s from to db with
        | [] => [mkRawRow g s unit None None None None None None]
        | rows => raw_row g s unit <$> rows
        end
  end.

Context `{S : SqlFunctions}.

(** The [GROUP BY]: the bucket starts that occur, ascending. *)
Definition bucket_starts (width : Z) (rows : list (TelemetryRow uuid)) : list Z :=
  merge_sort Z.le (remove_dups (time_bucket width ∘ tr_measured_at <$> rows)).

Definition bucket_values (width start : Z) (rows : list (TelemetryRow uuid)) : list float64 :=
  tr_value <$> filter (fun r => time_bucket width (tr_measured_at r) = start) rows.

Definition bucket_row (g s : string) (unit : option string) (width : Z) (rows : list (TelemetryRow uuid))
    (start : Z) : BucketRow :=
  let values := bucket_values width start rows in
  mkBucketRow g s unit (Some start) (Some (sql_avg values)) (Some (sql_min values))
    (Some (sql_max values)) (Some (Z.of_nat (length values))).

Definition bucketTelemetryHistoryQuery (actor : uuid) (g s : string) (width from to limit : Z) db
    : list BucketRow :=
  match authorized_sensor actor g s db with
  | None => []
  | Some unit =>
      let rows := samples_in g s from to db in
      take (Z.to_nat limit)
        match bucket_starts width rows with
        | [] => [mkBucketRow g s unit None None None None None]
        | starts => bucket_row g s unit width rows <$> starts
        end
  end.

(** [resolveSensorQuery] of [digitaltwin/postgres_resolver.go]; [QueryRow]
    reports no row as [pgx.ErrNoRows]. *)
Definition resolveSensorQuery (actor : uuid) (g s : string) db : res herror (string * string * option string) :=
  match authorized_sensor actor g s db with
  | None => Err (HCause ErrNoRows)
  | Some unit => Ok (g, s, unit)
  end.

End queries.
