(* ===== verification/ReadWorld.v ===== *)
(** * Running a read in a world

    What a successful, a failed and an undisturbed step of [HistoryStore] says
    about the world: the proof rules of the read monad. *)

From S2P Require Import Prelude GoStrings GoTime GoFloat Uuid Telemetry.
From S2P Require Import Txn Store Persist HistoryQuery HistoryStore.
#[local] Open Scope Z_scope.

Create HintDb ticks.

Section world.
Context {uuid : Type} `{U : UuidLib uuid}.
Implicit Types (db : HistoryDB uuid) (w : World uuid).

(** The context has not ended before tick [n]. *)
Definition alive w (n : nat) : Prop := forall k c, ends_at w = Some (k, c) -> (n <= k)%nat.

(** Nothing fails and nothing changes. *)
Record quiet w db : Prop := {
  quiet_ctx : ends_at w = None;
  quiet_store k : store_at w k = db;
  quiet_reply k : reply_at w k = None;
}.

Lemma alive_mono w n n' : (n <= n')%nat -> alive w n' -> alive w n.
Proof. intros Hn Ha k c Hk. specialize (Ha k c Hk). lia. Qed.

(** ** Success *)

Lemma hbind_ok {A B} (m : HM uuid A) (f : A -> HM uuid B) w n b n' :
  hbind m f w n = (Ok b, n') -> exists a k, m w n = (Ok a, k) /\ f a w k = (Ok b, n').
Proof. unfold hbind. destruct (m w n) as [[a|e] k]; [eauto|done]. Qed.

Lemma htry_ok {A} (m : HM uuid A) w n r n' : htry m w n = (Ok r, n') -> m w n = (r, n').
Proof. unfold htry. destruct (m w n). naive_solver. Qed.

Lemma of_res_ok {A} (r : res herror A) w n a n' : of_res r w n = (Ok a, n') -> r = Ok a /\ n' = n.
Proof. unfold of_res. intros H. by injection H as -> ->. Qed.

Lemma db_call_ok {A} (run : HistoryDB uuid -> res herror A) w n r n' :
  db_call run w n = (Ok r, n') -> n' = S n
  /\ match reply_at w n with Some e => r = Err e | None => r = run (store_at w n) end.
Proof. unfold db_call. intros H. destruct (reply_at w n); injection H as <- <-; done. Qed.

Lemma ctx_Err_ok w n c n' : ctx_Err w n = (Ok c, n') -> n' = S n
  /\ match c with
     | None => alive w n'
     | Some c => exists k, ends_at w = Some (k, c) /\ (k <= n)%nat
     end.
Proof.
  unfold ctx_Err, alive. destruct (ends_at w) as [[k c']|]; intros H.
  - destruct (k <=? n)%nat eqn:E; injection H as <- <-; (split; [done|]).
    + apply Nat.leb_le in E. eauto.
    + apply Nat.leb_gt in E. intros k' c [= <- <-]. lia.
  - injection H as <- <-. done.
Qed.

Lemma ended w n k c : ends_at w = Some (k, c) -> (k < n)%nat -> ~ alive w n.
Proof. intros Hw Hk Ha. specialize (Ha k c Hw). lia. Qed.

Lemma ensure_ctx_ok dep w n u n' : ensure_ctx dep w n = (Ok u, n') -> n' = S n /\ alive w n'.
Proof.
  unfold ensure_ctx. intros H. apply hbind_ok in H as (c & k & Hc & H). apply ctx_Err_ok in Hc as [-> Hc].
  destruct c; [done|]. injection H as _ <-. done.
Qed.

Lemma scoped_ok {A} dep (fn : HM uuid A) w n r n' : scoped dep fn w n = (Ok r, n') ->
  exists k, fn w n = (r, k) /\ n' = S k /\ alive w n'.
Proof.
  unfold scoped. intros H. apply hbind_ok in H as (r' & k & Hr & H). apply htry_ok in Hr.
  apply hbind_ok in H as (c & k' & Hc & H). apply ctx_Err_ok in Hc as [-> Hc].
  destruct c; [by repeat case_match|]. injection H as -> <-. by exists k.
Qed.

(** ** Failure *)

Lemma hbind_err {A B} (m : HM uuid A) (f : A -> HM uuid B) w n e n' :
  hbind m f w n = (Err e, n') ->
  m w n = (Err e, n') \/ exists a k, m w n = (Ok a, k) /\ f a w k = (Err e, n').
Proof. unfold hbind. destruct (m w n) as [[a|e'] k]; [eauto|]. intros H. injection H as -> <-. by left. Qed.

Lemma htry_not_err {A} (m : HM uuid A) w n e n' : ~ htry m w n = (Err e, n').
Proof. unfold htry. by destruct (m w n). Qed.

Lemma of_res_err {A} (r : res herror A) w n e n' : of_res r w n = (Err e, n') -> r = Err e /\ n' = n.
Proof. unfold of_res. intros H. by injection H as -> ->. Qed.

Lemma ensure_ctx_err dep w n e n' : ensure_ctx dep w n = (Err e, n') ->
  n' = S n /\ ~ alive w n' /\ exists c, e = HJoin dep (HCause (ctx_cause c)).
Proof.
  unfold ensure_ctx. intros H. apply hbind_err in H as [H|(c & k & Hc & H)]; [done|].
  apply ctx_Err_ok in Hc as [-> Hc]. destruct c as [c|]; [|done]. injection H as <- <-.
  destruct Hc as (k & Hw & Hk). split; [done|]. split; [apply (ended w _ k c); [done|lia]|eauto].
Qed.

Lemma scoped_err {A} dep (fn : HM uuid A) w n e n' : scoped dep fn w n = (Err e, n') ->
  ~ alive w n' /\ exists r k e', fn w n = (r, k) /\ n' = S k /\ e = HJoin dep e'.
Proof.
  unfold scoped. intros H. apply hbind_err in H as [H|(r & k & Hr & H)]; [by apply htry_not_err in H|].
  apply htry_ok in Hr. apply hbind_err in H as [H|(c & k' & Hc & H)]; [done|].
  apply ctx_Err_ok in Hc as [-> Hc]. destruct c as [c|]; [|done]. destruct Hc as (k' & Hw & Hk).
  destruct r as [a|e']; [|destruct (negb _)]; injection H as <- <-;
    (split; [apply (ended w _ k' c); [done|lia]|eauto 10]).
Qed.

(** ** A quiet world *)

Lemma quiet_db_call {A} (run : HistoryDB uuid -> res herror A) w db n : quiet w db ->
  db_call run w n = (Ok (run db), S n).
Proof. intros [_ Hs Hr]. unfold db_call. by rewrite Hr, Hs. Qed.

Lemma quiet_ctx_Err w db n : quiet w db -> ctx_Err w n = (Ok None, S n).
Proof. intros [Hc _ _]. unfold ctx_Err. by rewrite Hc. Qed.

Lemma quiet_ensure_ctx dep w db n : quiet w db -> ensure_ctx dep w n = (Ok (), S n).
Proof. intros Hq. unfold ensure_ctx, hbind. by rewrite (quiet_ctx_Err w db). Qed.

Lemma quiet_scoped {A} dep (fn : HM uuid A) w db n : quiet w db ->
  scoped dep fn w n = (Ok (fn w n).1, S (fn w n).2).
Proof.
  intros Hq. unfold scoped, hbind, htry. destruct (fn w n) as [r k]. by rewrite (quiet_ctx_Err w db).
Qed.

Lemma quiet_alive w db n : quiet w db -> alive w n.
Proof. intros [Hc _ _] k c. by rewrite Hc. Qed.

(** ** Time never goes back *)

Definition ticks {A} (m : HM uuid A) : Prop := forall w n, (n <= (m w n).2)%nat.

Lemma ticks_ret {A} (a : A) : ticks (hret a).
Proof. intros w n. cbn. lia. Qed.

Lemma ticks_fail {A} e : ticks (@hfail uuid U A e).
Proof. intros w n. cbn. lia. Qed.

Lemma ticks_of_res {A} (r : res herror A) : ticks (of_res r).
Proof. intros w n. cbn. lia. Qed.

Lemma ticks_call {A} (run : HistoryDB uuid -> res herror A) : ticks (db_call run).
Proof. intros w n. cbn. lia. Qed.

Lemma ticks_ctx : ticks (@ctx_Err uuid U).
Proof. intros w n. cbn. lia. Qed.

Lemma ticks_bind {A B} (m : HM uuid A) (k : A -> HM uuid B) : ticks m -> (forall a, ticks (k a)) -> ticks (hbind m k).
Proof.
  intros Hm Hk w n. unfold hbind. pose proof (Hm w n) as Hn. destruct (m w n) as [[a|e] n']; cbn in *; [|done].
  pose proof (Hk a w n'). lia.
Qed.

Lemma ticks_try {A} (m : HM uuid A) : ticks m -> ticks (htry m).
Proof. intros Hm w n. unfold htry. pose proof (Hm w n) as Hn. by destruct (m w n). Qed.

Lemma ticks_le {A} (m : HM uuid A) w n r n' : ticks m -> m w n = (r, n') -> (n <= n')%nat.
Proof. intros Hm H. pose proof (Hm w n) as Hn. by rewrite H in Hn. Qed.

End world.

#[export] Hint Resolve ticks_ret ticks_fail ticks_of_res ticks_call ticks_ctx ticks_try : ticks.

Ltac tick := repeat first [progress intros | apply ticks_bind | progress auto with ticks | case_match].

Lemma ticks_ensure_ctx {uuid} `{U : UuidLib uuid} dep : ticks (@ensure_ctx uuid U dep).
Proof. unfold ensure_ctx. tick. Qed.

#[export] Hint Resolve ticks_ensure_ctx : ticks.

Lemma ticks_scoped {uuid} `{U : UuidLib uuid} {A} dep (fn : HM uuid A) : ticks fn -> ticks (scoped dep fn).
Proof. intros Hf. unfold scoped. tick. Qed.

#[export] Hint Resolve ticks_scoped : ticks.

(** ** Snapshot reads

    [snapshot m f]: where nothing fails [m] computes [f] of the tables; in any
    world an answer of [m] is the answer of [f] for the tables at one instant
    of the read. *)

Section snapshot.
Context {uuid : Type} `{U : UuidLib uuid}.
Implicit Types (db : HistoryDB uuid) (w : World uuid).

Record snapshot {A} (m : HM uuid A) (f : HistoryDB uuid -> res herror A) : Prop := {
  snap_quiet w db n : quiet w db -> (m w n).1 = f db;
  snap_sound w n a n' : m w n = (Ok a, n') -> exists k, (n <= k <= n')%nat /\ f (store_at w k) = Ok a;
  snap_ticks : ticks m;
}.

Lemma snapshot_of_res {A} (r : res herror A) : snapshot (of_res r) (fun _ => r).
Proof.
  split; [done| |auto with ticks]. intros w n a n' H. apply of_res_ok in H as [-> ->]. exists n. split; [lia|done].
Qed.

Lemma snapshot_ret {A} (a : A) : snapshot (hret a) (fun _ => Ok a).
Proof. apply (snapshot_of_res (Ok a)). Qed.

Lemma snapshot_fail {A} e : snapshot (hfail e) (fun _ => @Err herror A e).
Proof. apply (snapshot_of_res (Err e)). Qed.

Lemma snapshot_ext {A} (m : HM uuid A) f g : (forall db, f db = g db) -> snapshot m f -> snapshot m g.
Proof.
  intros E [Hq Hs Ht]. split; [|intros w n a n' H|done].
  - intros w db n Hw. rewrite <- E. by apply Hq.
  - apply Hs in H as (k & Hk & H). exists k. by rewrite <- E.
Qed.

(** Further processing of a read that looks at no table. *)
Lemma snapshot_bind {A B} (m : HM uuid A) f (k : A -> HM uuid B) g : snapshot m f ->
  (forall a, snapshot (k a) (fun _ => g a)) -> snapshot (hbind m k) (fun db => let! a := f db in g a).
Proof.
  intros [Hq Hs Ht] Hk. split.
  - intros w db n Hw. unfold hbind. specialize (Hq w db n Hw). destruct (m w n) as [[a|e] n']; cbn in Hq; rewrite <- Hq; [|done].
    by apply (snap_quiet _ _ (Hk a) w db).
  - intros w n b n' H. apply hbind_ok in H as (a & k1 & Ha & H). pose proof (ticks_le _ _ _ _ _ (snap_ticks _ _ (Hk a)) H).
    apply Hs in Ha as (k2 & Hk2 & Ha). exists k2. split; [lia|]. rewrite Ha.
    by apply (snap_sound _ _ (Hk a)) in H as (_ & _ & H).
  - apply ticks_bind; [done|]. intros a. apply Hk.
Qed.

(** A step that only looks at the context or the connection. *)
Lemma snapshot_after {A} (m0 : HM uuid ()) (m : HM uuid A) f : ticks m0 ->
  (forall w db n, quiet w db -> (m0 w n).1 = Ok ()) -> snapshot m f -> snapshot (leth _ := m0 in m) f.
Proof.
  intros Ht0 Hq0 [Hq Hs Ht]. split.
  - intros w db n Hw. unfold hbind. specialize (Hq0 w db n Hw). destruct (m0 w n) as [r n']; cbn in Hq0. subst r.
    by apply Hq.
  - intros w n a n' H. apply hbind_ok in H as (u & k & Hu & H). pose proof (ticks_le _ _ _ _ _ Ht0 Hu).
    apply Hs in H as (k' & Hk & H). exists k'. split; [lia|done].
  - by apply ticks_bind.
Qed.

Lemma snapshot_ensure_ctx {A} dep (m : HM uuid A) f : snapshot m f -> snapshot (leth _ := ensure_ctx dep in m) f.
Proof.
  apply snapshot_after; [auto with ticks|]. intros w db n Hw. by rewrite (quiet_ensure_ctx dep w db).
Qed.

(** One statement and the classification of its error. *)
Lemma snapshot_call {A B} (run : HistoryDB uuid -> res herror A) (k : res herror A -> HM uuid B) g :
  (forall r, snapshot (k r) (fun _ => g r)) -> (forall e b, g (Err e) <> Ok b) ->
  snapshot (hbind (db_call run) k) (fun db => g (run db)).
Proof.
  intros Hk Hg. split.
  - intros w db n Hw. unfold hbind. rewrite (quiet_db_call _ w db) by done. by apply (snap_quiet _ _ (Hk _) w db).
  - intros w n b n' H. apply hbind_ok in H as (r & k' & Hr & H). apply db_call_ok in Hr as [-> Hr].
    pose proof (ticks_le _ _ _ _ _ (snap_ticks _ _ (Hk r)) H). exists n. split; [lia|].
    apply (snap_sound _ _ (Hk r)) in H as (_ & _ & H). destruct (reply_at w n); subst r; [by apply Hg in H|done].
  - apply ticks_bind; [auto with ticks|]. intros r. apply Hk.
Qed.

End snapshot.
