(* ===== verification/History.v ===== *)
(** * Telemetry history: preparation and service

    [telemetry/history_preparation.go] and [telemetry/history_service.go]: the
    bounds of the configuration, validation before any access, resolution of
    the Sensor under the actor's membership, the choice of the effective
    resolution and the single time budget.  The two dependencies are the
    interfaces [SensorResolver] and [HistoryReader]; a nil dependency is [None]. *)

From S2P Require Import Prelude GoStrings GoTime GoFloat Identity Uuid Store HistoryQuery HistoryStore.
#[local] Open Scope Z_scope.

(** ** Configuration *)

Definition MaxHistoryQueryTimeout : Z := 5 * Second.
Definition MaxHistoryMaxRange : Z := 744 * Hour.
Definition MaxHistoryRawWindow : Z := 10 * Second.
Definition MinHistoryPointsLowerLimit : Z := 100.
Definition MaxHistoryPointsUpperLimit : Z := 2000.

Record HistoryPreparationConfig := mkHistoryConfig {
  hc_QueryTimeout : Z;
  hc_MaxRange : Z;
  hc_RawWindow : Z;
  hc_MinPoints : Z;
  hc_MaxPoints : Z;
}.

Definition DefaultHistoryPreparationConfig : HistoryPreparationConfig :=
  mkHistoryConfig (5 * Second) (744 * Hour) (10 * Second) 100 2000.

(** The error text, when the configuration is refused. *)
Definition ValidateHistoryPreparationConfig (cfg : HistoryPreparationConfig) : option string :=
  if hc_QueryTimeout cfg <=? 0 then Some "HISTORY_QUERY_TIMEOUT must be a positive duration"
  else if MaxHistoryQueryTimeout <? hc_QueryTimeout cfg
  then Some "HISTORY_QUERY_TIMEOUT cannot exceed contract hard cap of 5s"
  else if hc_MaxRange cfg <=? 0 then Some "HISTORY_MAX_RANGE must be a positive duration"
  else if MaxHistoryMaxRange <? hc_MaxRange cfg
  then Some "HISTORY_MAX_RANGE cannot exceed contract hard cap of 744h0m0s"
  else if hc_RawWindow cfg <=? 0 then Some "HISTORY_RAW_WINDOW must be a positive duration"
  else if MaxHistoryRawWindow <? hc_RawWindow cfg
  then Some "HISTORY_RAW_WINDOW cannot exceed contract hard cap of 10s"
  else if hc_MaxRange cfg <? hc_RawWindow cfg then Some "HISTORY_RAW_WINDOW cannot exceed HISTORY_MAX_RANGE"
  else if hc_MinPoints cfg <? MinHistoryPointsLowerLimit
  then Some "HISTORY_MIN_POINTS cannot be less than contract lower limit of 100"
  else if MaxHistoryPointsUpperLimit <? hc_MinPoints cfg
  then Some "HISTORY_MIN_POINTS cannot exceed contract hard cap of 2000"
  else if MaxHistoryPointsUpperLimit <? hc_MaxPoints cfg
  then Some "HISTORY_MAX_POINTS cannot exceed contract hard cap of 2000"
  else if hc_MaxPoints cfg <? hc_MinPoints cfg
  then Some "HISTORY_MIN_POINTS must be less than or equal to HISTORY_MAX_POINTS"
  else None.

Definition NewHistoryPreparationConfig (timeout maxRange rawWindow minPoints maxPoints : Z)
    : res string HistoryPreparationConfig :=
  let cfg := mkHistoryConfig timeout maxRange rawWindow minPoints maxPoints in
  match ValidateHistoryPreparationConfig cfg with
  | Some err => Err err
  | None => Ok cfg
  end.

(** ** Interfaces *)

(** A nil result pointer beside a nil error is [None]. *)
Class SensorResolver (uuid : Type) `{UuidLib uuid} (R : Type) :=
  ResolveSensor : R -> uuid -> string -> string -> HM uuid (option ResolvedSensor).

(** [ctx] tells whether the context argument is non-nil. *)
Class HistoryReader (uuid : Type) `{UuidLib uuid} (R : Type) :=
  ReadTelemetryHistory : R -> bool -> uuid -> TelemetryHistoryQuery ->
    HM uuid (option (TelemetryHistoryResult uuid)).

(** ** Automatic resolution *)

Definition AllowedBucketResolutions : list Resolution :=
  [Resolution100ms; Resolution1s; Resolution10s; Resolution1m; Resolution5m; Resolution15m;
   Resolution1h; Resolution6h; Resolution1d].

(** The [for] loop over the allowed resolutions. *)
Fixpoint select_resolution (from to : Time) (maxPoints : Z) (resolutions : list Resolution)
    : res HistoryError Resolution :=
  match resolutions with
  | [] => Err ErrHistoryResolutionTooFine
  | res :: rest =>
      match ResolutionDuration res with
      | None => select_resolution from to maxPoints rest
      | Some dur =>
          match IntersectingBucketCount from to dur with
          | Err _ => Err ErrHistoryInvalidInput
          | Ok count => if count <=? maxPoints then Ok res else select_resolution from to maxPoints rest
          end
      end
  end.

Definition SelectAutoBucketResolution (from to : Time) (maxPoints : Z) : res HistoryError Resolution :=
  if maxPoints <=? 0 then Err ErrHistoryInvalidInput
  else if negb (Before from to) then Err ErrHistoryInvalidInput
  else select_resolution from to maxPoints AllowedBucketResolutions.

(** ** Preparation *)

Section history.
Context {uuid : Type} `{U : UuidLib uuid} {R Rd : Type}.
Context `{!SensorResolver uuid R, !HistoryReader uuid Rd}.

(** [if ctx.Err() != nil { return fmt.Errorf("%w: %w", ErrHistoryDependency, ctx.Err()) }] *)
Definition check_ctx : HM uuid () := ensure_ctx (HErr ErrHistoryDependency).

Record HistoryPreparation := mkHistoryPreparation {
  hp_resolver : option R;
  hp_cfg : HistoryPreparationConfig;
}.

Definition NewHistoryPreparation (resolver : option R) (cfg : HistoryPreparationConfig)
    : res string HistoryPreparation :=
  match resolver with
  | None => Err "resolver is required"
  | Some _ =>
      match ValidateHistoryPreparationConfig cfg with
      | Some err => Err err
      | None => Ok (mkHistoryPreparation resolver cfg)
      end
  end.

(** The bounds both entry points check on the query. *)
Definition check_query (cfg : HistoryPreparationConfig) (q : TelemetryHistoryQuery) : option HistoryError :=
  if bool_decide (is_Some (ValidateGatewayID (hq_GatewayID q))) then Some ErrHistoryInvalidInput
  else if bool_decide (is_Some (ValidateSensorID (hq_SensorID q))) then Some ErrHistoryInvalidInput
  else if (hq_MaxPoints q <? hc_MinPoints cfg) || (hc_MaxPoints cfg <? hq_MaxPoints q)
  then Some ErrHistoryInvalidInput
  else ValidateHistoryTimeRange (hq_Range q) (hq_Resolution q) (hc_MaxRange cfg) (hc_RawWindow cfg)
         (hq_MaxPoints q).

(** [err = fn(...)] and the check of the context after it.  The callback's
    captured variables are its result; the caller reads them only when the
    error is nil. *)
Definition run_callback {T} (fn : HM uuid T) : HM uuid T :=
  leth r := scoped (HErr ErrHistoryDependency) fn in of_res r.

Definition PrepareTelemetryHistory {T} (p : HistoryPreparation) (actor : uuid) (q : TelemetryHistoryQuery)
    (fn : option (ResolvedSensor -> TelemetryHistoryQuery -> HM uuid T)) : HM uuid T :=
  match hp_resolver p with
  | None => hfail (HErr ErrHistoryDependency)
  | Some resolver =>
      if bool_decide (actor = uuid_Nil) then hfail (HErr ErrHistoryNilActor)
      else match fn with
      | None => hfail (HErr ErrHistoryInvalidInput)
      | Some fn =>
          match check_query (hp_cfg p) q with
          | Some e => hfail (HErr e)
          | None =>
              leth _ := check_ctx in
              leth r := htry (ResolveSensor resolver actor (hq_GatewayID q) (hq_SensorID q)) in
              match r with
              | Err err => leth _ := check_ctx in hfail err
              | Ok None => hfail (HErr ErrHistoryNotFound)
              | Ok (Some sensor) => leth _ := check_ctx in run_callback (fn sensor q)
              end
          end
      end
  end.

(** ** Service *)

Record TelemetryHistoryService := mkHistoryService {
  hs_prep : option HistoryPreparation;
  hs_reader : option Rd;
  hs_cfg : HistoryPreparationConfig;
}.

Definition NewTelemetryHistoryService (resolver : option R) (reader : option Rd)
    (cfg : HistoryPreparationConfig) : res string TelemetryHistoryService :=
  match resolver, reader with
  | None, _ => Err "resolver is required"
  | _, None => Err "reader is required"
  | _, _ =>
      match ValidateHistoryPreparationConfig cfg with
      | Some err => Err err
      | None =>
          let! prep := NewHistoryPreparation resolver cfg in
          Ok (mkHistoryService (Some prep) reader cfg)
      end
  end.

Definition NewTelemetryHistoryServiceFromPreparation (prep : option HistoryPreparation)
    (reader : option Rd) : res string TelemetryHistoryService :=
  match prep, reader with
  | None, _ => Err "preparation is required"
  | _, None => Err "reader is required"
  | Some p, _ => Ok (mkHistoryService prep reader (hp_cfg p))
  end.

Definition with_resolution (q : TelemetryHistoryQuery) (r : Resolution) : TelemetryHistoryQuery :=
  mkHistoryQuery (hq_GatewayID q) (hq_SensorID q) (hq_Range q) r (hq_MaxPoints q).

(** Reading buckets of the selected resolution. *)
Definition read_buckets (reader : Rd) (actor : uuid) (q : TelemetryHistoryQuery)
    : HM uuid (option (TelemetryHistoryResult uuid)) :=
  match SelectAutoBucketResolution (rng_From (hq_Range q)) (rng_To (hq_Range q)) (hq_MaxPoints q) with
  | Err e => hfail (HErr e)
  | Ok bucketRes => ReadTelemetryHistory reader true actor (with_resolution q bucketRes)
  end.

Definition executeEffectiveQuery (s : TelemetryHistoryService) (reader : Rd) (actor : uuid)
    (q : TelemetryHistoryQuery) : HM uuid (option (TelemetryHistoryResult uuid)) :=
  leth _ := check_ctx in
  match hq_Resolution q with
  | ResolutionAuto =>
      let diffMicros := int64_sub (ToMicrosecondsSinceEpoch (UTC (rng_To (hq_Range q))))
                          (ToMicrosecondsSinceEpoch (UTC (rng_From (hq_Range q)))) in
      if diffMicros <=? Microseconds (hc_RawWindow (hs_cfg s)) then
        leth r := htry (ReadTelemetryHistory reader true actor (with_resolution q ResolutionRaw)) in
        match r with
        | Ok rawResult => hret rawResult
        | Err err =>
            if negb (is_history ErrHistoryRawLimitExceeded err) then hfail err
            else leth _ := check_ctx in read_buckets reader actor q
        end
      else read_buckets reader actor q
  | _ => ReadTelemetryHistory reader true actor q
  end.

Definition GetTelemetryHistory (s : TelemetryHistoryService) (actor : uuid) (q : TelemetryHistoryQuery)
    : HM uuid (TelemetryHistoryResult uuid) :=
  match hs_reader s, hs_prep s with
  | None, _ | _, None => hfail (HErr ErrHistoryDependency)
  | Some reader, Some prep =>
      if bool_decide (actor = uuid_Nil) then hfail (HErr ErrHistoryNilActor)
      else
        leth capturedResult := PrepareTelemetryHistory prep actor q (Some (fun _ prepQuery =>
          leth r := executeEffectiveQuery s reader actor prepQuery in
          leth _ := check_ctx in
          hret r)) in
        match capturedResult with
        | None => hfail (HErr ErrHistoryUnexpected)
        | Some r => hret r
        end
  end.

(** The entry the Digital Twin history uses, inside a budget of its own;
    [ctx] tells whether the context is non-nil. *)
Definition ExecuteEffectiveHistoryQuery (s : TelemetryHistoryService) (ctx : bool) (actor : uuid)
    (q : TelemetryHistoryQuery) : HM uuid (option (TelemetryHistoryResult uuid)) :=
  if negb ctx then hfail (HErr ErrHistoryInvalidInput)
  else
    leth _ := check_ctx in
    match hs_reader s with
    | None => hfail (HErr ErrHistoryDependency)
    | Some reader =>
        if bool_decide (actor = uuid_Nil) then hfail (HErr ErrHistoryNilActor)
        else match check_query (hs_cfg s) q with
        | Some e => hfail (HErr e)
        | None =>
            leth res := executeEffectiveQuery s reader actor q in
            leth _ := check_ctx in
            hret res
        end
    end.

End history.
Arguments HistoryPreparation : clear implicits.
Arguments TelemetryHistoryService : clear implicits.
Arguments mkHistoryPreparation {R}.
Arguments mkHistoryService {R Rd}.
