(* ===== verification/HistoryRepo.v ===== *)
(** * The PostgreSQL side of the history: reader and Sensor resolver

    [telemetry/postgres_history_repository.go] and [ResolveSensor] of
    [digitaltwin/postgres_resolver.go], the implementations of the interfaces
    of [History]. *)

From S2P Require Import Prelude GoStrings GoTime GoFloat Identity Uuid Telemetry.
From S2P Require Import Txn Store Persist HistoryQuery HistoryStore History.
#[local] Open Scope Z_scope.

Section repo.
Context {uuid : Type} `{U : UuidLib uuid} `{SF : SqlFunctions}.

(** ** Sensor resolution *)

(** [NewPostgresResolver] refuses a nil database; the value keeps nothing else. *)
Record PostgresResolver := mkPostgresResolver {}.

Definition PostgresResolver_ResolveSensor (_ : PostgresResolver) (actor : uuid) (gatewayID sensorID : string)
    : HM uuid (option ResolvedSensor) :=
  if bool_decide (actor = uuid_Nil) then hfail (HErr ErrHistoryNilActor)
  else if bool_decide (is_Some (ValidateGatewayID gatewayID)) then hfail (HErr ErrHistoryInvalidInput)
  else if bool_decide (is_Some (ValidateSensorID sensorID)) then hfail (HErr ErrHistoryInvalidInput)
  else
    leth r := db_call (resolveSensorQuery actor gatewayID sensorID) in
    match r with
    | Err err =>
        hfail (classifyResolverError err (HErr ErrHistoryNotFound) (HErr ErrHistoryDependency) (HErr ErrHistoryUnexpected))
    | Ok (resolvedGW, resolvedSensor, unit) =>
        hret (Some (mkResolvedSensor resolvedGW resolvedSensor unit))
    end.

#[export] Instance PostgresResolver_SensorResolver : SensorResolver uuid PostgresResolver :=
  PostgresResolver_ResolveSensor.

(** ** Reading rows *)

(** [if err := ctx.Err(); err != nil { return nil, errors.Join(ErrHistoryDependency, err) }] *)
Definition join_ctx : HM uuid () := ensure_ctx (HErr ErrHistoryDependency).

(** The variables of the loop: [rowCount], the resolved Sensor and the points. *)
Record loop_vars (Pt : Type) := mkLoopVars {
  lv_rowCount : Z;
  lv_resolvedGW : string;
  lv_resolvedSens : string;
  lv_currentUnit : option string;
  lv_points : list Pt;
}.
Arguments mkLoopVars {Pt}.
Arguments lv_rowCount {Pt}.
Arguments lv_resolvedGW {Pt}.
Arguments lv_resolvedSens {Pt}.
Arguments lv_currentUnit {Pt}.
Arguments lv_points {Pt}.

Definition start_vars {Pt} : loop_vars Pt := mkLoopVars 0 "" "" None [].

(** One iteration after a successful [Scan]: [head] is the row's Sensor,
    [point] its sample, none for the sentinel row. *)
Definition add_row {Pt} (head : string * string * option string) (point : option Pt) (v : loop_vars Pt)
    : loop_vars Pt :=
  let '(gwID, sID, unit) := head in
  let points := match point with Some pt => lv_points v ++ [pt] | None => lv_points v end in
  if lv_rowCount v =? 0 then mkLoopVars (lv_rowCount v + 1) gwID sID unit points
  else mkLoopVars (lv_rowCount v + 1) (lv_resolvedGW v) (lv_resolvedSens v) (lv_currentUnit v) points.

(** [for rows.Next() { ... }] over the rows the query found.  A connection
    that breaks ends the loop early and shows in [rows.Err]; [Scan] may fail. *)
Fixpoint range_rows {Row Pt} (head : Row -> string * string * option string)
    (point : Row -> res herror (option Pt)) (rows : list Row) (v : loop_vars Pt)
    : HM uuid (loop_vars Pt * option herror) :=
  match rows with
  | [] =>
      leth next := db_call (fun _ => Ok ()) in
      match next with
      | Err err => hret (v, Some err)
      | Ok _ => hret (v, None)
      end
  | row :: rows' =>
      leth next := db_call (fun _ => Ok ()) in
      match next with
      | Err err => hret (v, Some err)
      | Ok _ =>
          leth _ := join_ctx in
          leth scan := db_call (fun _ => Ok ()) in
          match scan with
          | Err err => hfail (classifyHistoryError err)
          | Ok _ =>
              leth pt := of_res (point row) in
              range_rows head point rows' (add_row (head row) pt v)
          end
      end
  end.

(** The query, the loop and the checks after it, shared by both readers. *)
Definition read_rows {Row Pt} (query : HistoryDB uuid -> list Row)
    (head : Row -> string * string * option string) (point : Row -> res herror (option Pt))
    : HM uuid (loop_vars Pt) :=
  leth rows := db_call (fun db => Ok (query db)) in
  match rows with
  | Err err => hfail (classifyHistoryError err)
  | Ok rows =>
      leth _ := join_ctx in
      leth out := range_rows head point rows start_vars in
      let '(v, rowsErr) := out in
      match rowsErr with
      | Some err => hfail (classifyHistoryError err)
      | None =>
          leth _ := join_ctx in
          if lv_rowCount v =? 0 then hfail (HErr ErrHistoryNotFound) else hret v
      end
  end.

(** ** Raw samples *)

Definition raw_head (row : RawRow uuid) : string * string * option string :=
  (raw_gateway row, raw_sensor row, raw_unit row).

Definition raw_point (row : RawRow uuid) : res herror (option (RawSamplePoint uuid)) :=
  match raw_measured_at row with
  | None => Ok None
  | Some measuredAt =>
      match raw_value row, raw_sequence row with
      | Some value, Some sequenceNum =>
          Ok (Some (mkRawPoint (time_of_tz measuredAt) value sequenceNum (raw_boot row) (raw_message row)
                      (raw_index row)))
      | _, _ => Err (HJoin (HErr ErrHistoryUnexpected)
                       (HCause (OtherCause "incomplete sample values in telemetry row")))
      end
  end.

Definition readRawTelemetryHistory (actor : uuid) (q : TelemetryHistoryQuery)
    : HM uuid (option (TelemetryHistoryResult uuid)) :=
  let limit := int64_add (hq_MaxPoints q) 1 in
  leth v := read_rows (rawTelemetryHistoryQuery actor (hq_GatewayID q) (hq_SensorID q)
                         (timestamptz (UTC (rng_From (hq_Range q)))) (timestamptz (UTC (rng_To (hq_Range q)))) limit)
              raw_head raw_point in
  if hq_MaxPoints q <? Z.of_nat (length (lv_points v)) then hfail (HErr ErrHistoryRawLimitExceeded)
  else hret (Some (mkHistoryResult (lv_resolvedGW v) (lv_resolvedSens v) (lv_currentUnit v)
                     (UTC (rng_From (hq_Range q))) (UTC (rng_To (hq_Range q)))
                     (resolution_text ResolutionRaw) (resolution_text ResolutionRaw)
                     (Z.of_nat (length (lv_points v))) (lv_points v) [])).

(** ** Buckets *)

Definition bucket_head (row : BucketRow) : string * string * option string :=
  (bkt_gateway row, bkt_sensor row, bkt_unit row).

Definition bucket_point (row : BucketRow) : res herror (option BucketSamplePoint) :=
  match bkt_start row with
  | None => Ok None
  | Some bucketStart =>
      match bkt_avg row, bkt_min row, bkt_max row, bkt_count row with
      | Some avgValue, Some minValue, Some maxValue, Some sampleCount =>
          Ok (Some (mkBucketPoint (time_of_tz bucketStart) avgValue minValue maxValue sampleCount))
      | _, _, _, _ => Err (HJoin (HErr ErrHistoryUnexpected)
                             (HCause (OtherCause "incomplete aggregate values in bucket row")))
      end
  end.

(** [interval] counts microseconds. *)
Definition readBucketTelemetryHistory (actor : uuid) (q : TelemetryHistoryQuery) (bucketWidth : Z)
    : HM uuid (option (TelemetryHistoryResult uuid)) :=
  let interval := Microseconds bucketWidth in
  let limit := int64_add (hq_MaxPoints q) 1 in
  leth v := read_rows (bucketTelemetryHistoryQuery actor (hq_GatewayID q) (hq_SensorID q) interval
                         (timestamptz (UTC (rng_From (hq_Range q)))) (timestamptz (UTC (rng_To (hq_Range q)))) limit)
              bucket_head bucket_point in
  if hq_MaxPoints q <? Z.of_nat (length (lv_points v)) then hfail (HErr ErrHistoryResolutionTooFine)
  else hret (Some (mkHistoryResult (lv_resolvedGW v) (lv_resolvedSens v) (lv_currentUnit v)
                     (UTC (rng_From (hq_Range q))) (UTC (rng_To (hq_Range q)))
                     "bucket" (resolution_text (hq_Resolution q))
                     (Z.of_nat (length (lv_points v))) [] (lv_points v))).

(** ** The repository *)

Record PostgresHistoryRepository := mkHistoryRepository { repo_cfg : HistoryPreparationConfig }.

(** [database] tells whether the database argument is non-nil. *)
Definition NewPostgresHistoryRepository (database : bool) (cfg : HistoryPreparationConfig)
    : res string PostgresHistoryRepository :=
  if negb database then Err "database is required"
  else match ValidateHistoryPreparationConfig cfg with
       | Some err => Err err
       | None => Ok (mkHistoryRepository cfg)
       end.

(** The error that quotes the resolution ([%q] of a known token). *)
Definition unsupported (r : Resolution) (text : string) : herror :=
  HText ("invalid resolution: resolution " +:+ String (chr 34) (resolution_text r +:+ String (chr 34) text))
    (HErr ErrHistoryInvalidResolution).

Definition PostgresHistoryRepository_ReadTelemetryHistory (r : PostgresHistoryRepository) (ctx : bool)
    (actor : uuid) (q : TelemetryHistoryQuery) : HM uuid (option (TelemetryHistoryResult uuid)) :=
  let cfg := repo_cfg r in
  if negb ctx then hfail (HErr ErrHistoryInvalidInput)
  else
    leth _ := join_ctx in
    if bool_decide (actor = uuid_Nil) then hfail (HErr ErrHistoryNilActor)
    else if bool_decide (is_Some (ValidateGatewayID (hq_GatewayID q))) then hfail (HErr ErrHistoryInvalidInput)
    else if bool_decide (is_Some (ValidateSensorID (hq_SensorID q))) then hfail (HErr ErrHistoryInvalidInput)
    else if (hq_MaxPoints q <? hc_MinPoints cfg) || (hc_MaxPoints cfg <? hq_MaxPoints q)
    then hfail (HErr ErrHistoryInvalidInput)
    else if bool_decide (hq_Resolution q = ResolutionAuto)
    then hfail (unsupported (hq_Resolution q) " is not supported by bucket reader (use HistoryService for auto)")
    else match ValidateHistoryTimeRange (hq_Range q) (hq_Resolution q) (hc_MaxRange cfg) (hc_RawWindow cfg)
                 (hq_MaxPoints q) with
    | Some e => hfail (HErr e)
    | None =>
        leth _ := join_ctx in
        if bool_decide (hq_Resolution q = ResolutionRaw) then readRawTelemetryHistory actor q
        else match ResolutionDuration (hq_Resolution q) with
             | None => hfail (unsupported (hq_Resolution q) " is not supported by bucket reader")
             | Some dur => readBucketTelemetryHistory actor q dur
             end
    end.

#[export] Instance PostgresHistoryRepository_HistoryReader : HistoryReader uuid PostgresHistoryRepository :=
  PostgresHistoryRepository_ReadTelemetryHistory.

End repo.
Arguments mkLoopVars {Pt}.
Arguments lv_rowCount {Pt}.
Arguments lv_resolvedGW {Pt}.
Arguments lv_resolvedSens {Pt}.
Arguments lv_currentUnit {Pt}.
Arguments lv_points {Pt}.
