(* ===== verification/HistorySpec.v ===== *)
(** * What a history query promises

    Accepted ranges, the number of buckets of a range, the automatic choice of
    a resolution, and the reference answer of a query on one state of the
    tables. *)

From S2P Require Import Prelude GoStrings GoTime GoFloat Uuid Identity Telemetry Txn Store Persist HistoryQuery.
From S2P Require Import HistoryStore ReadWorld History HistoryRepo.
From stdpp Require Import sorting.
#[local] Open Scope Z_scope.

(** ** Accepted ranges *)

(** Microseconds since the epoch. *)
Definition micros (t : Time) : Z := unix_ns t / 1000.

Record history_range (tr : TimeRange) (maxRange : Z) : Prop := {
  ro_from : first_ns <= unix_ns (rng_From tr) < end_ns;
  ro_to : first_ns <= unix_ns (rng_To tr) < end_ns;
  ro_from_us : unix_ns (rng_From tr) mod 1000 = 0;
  ro_to_us : unix_ns (rng_To tr) mod 1000 = 0;
  ro_before : unix_ns (rng_From tr) < unix_ns (rng_To tr);
  ro_span : micros (rng_To tr) - micros (rng_From tr) <= maxRange / 1000;
}.

Definition resolution_ok (tr : TimeRange) (r : Resolution) (rawWindow maxPoints : Z) : Prop :=
  match r with
  | ResolutionAuto => True
  | ResolutionRaw => micros (rng_To tr) - micros (rng_From tr) <= rawWindow / 1000
  | _ => exists dur n, ResolutionDuration r = Some dur
         /\ IntersectingBucketCount (rng_From tr) (rng_To tr) dur = Ok n /\ n <= maxPoints
  end.

Lemma micros_before tr maxRange : history_range tr maxRange -> micros (rng_From tr) < micros (rng_To tr).
Proof. intros [_ _ Hf Ht Hlt _]. unfold micros. dlia. Qed.

Lemma micros_bounds t : first_ns <= unix_ns t < end_ns -> -62135596800000000 <= micros t < 253402300800000000.
Proof. unfold first_ns, end_ns, Second, micros. intros. dlia. Qed.

Lemma ToMicroseconds_micros t : first_ns <= unix_ns t < end_ns -> ToMicrosecondsSinceEpoch (UTC t) = micros t.
Proof. intros H. rewrite ToMicroseconds_UTC. by apply ToMicroseconds_exact. Qed.

Lemma nanosec_aligned t : (Z.rem (Nanosec (UTC t)) 1000 =? 0) = true <-> unix_ns t mod 1000 = 0.
Proof.
  rewrite Z.eqb_eq. unfold Nanosec, UTC, Second. cbn [unix_ns].
  rewrite Z.rem_mod_nonneg by (try lia; apply Z.mod_pos_bound; done).
  assert ((unix_ns t mod 1000000000) mod 1000 = unix_ns t mod 1000) as ->; [|done].
  dlia.
Qed.

Lemma diff_micros tr : first_ns <= unix_ns (rng_From tr) < end_ns -> first_ns <= unix_ns (rng_To tr) < end_ns ->
  int64_sub (ToMicrosecondsSinceEpoch (UTC (rng_To tr))) (ToMicrosecondsSinceEpoch (UTC (rng_From tr)))
  = micros (rng_To tr) - micros (rng_From tr).
Proof.
  intros Hf Ht. rewrite !ToMicroseconds_micros by done. apply micros_bounds in Hf, Ht.
  unfold int64_sub. rewrite wrap64_id; [done|]. unfold in_int64, min_int64, max_int64. lia.
Qed.

(** The comparison of whole seconds never refuses a range that the comparison
    of microseconds accepts. *)
Lemma seconds_check tr maxRange : 0 <= maxRange <= max_int64 ->
  first_ns <= unix_ns (rng_From tr) < end_ns -> first_ns <= unix_ns (rng_To tr) < end_ns ->
  micros (rng_To tr) - micros (rng_From tr) <= maxRange / 1000 ->
  (int64_add (Z.quot maxRange Second) 1 <? int64_sub (Unix (UTC (rng_To tr))) (Unix (UTC (rng_From tr)))) = false.
Proof.
  intros Hm Hf Ht Hspan. apply Z.ltb_ge. unfold int64_add, int64_sub, max_int64 in *.
  rewrite Z.quot_div_nonneg by (unfold Second; lia).
  unfold micros, first_ns, end_ns, Unix, UTC, Second in *. cbn [unix_ns].
  rewrite !wrap64_id by (unfold in_int64, min_int64, max_int64; dlia). dlia.
Qed.

Lemma bucket_check tr r rawWindow maxPoints : r <> ResolutionAuto -> r <> ResolutionRaw ->
  Resolution_Valid r = true -> history_range tr max_int64 ->
  match ResolutionDuration r with
  | None => Some ErrHistoryInvalidResolution
  | Some w =>
      match IntersectingBucketCount (rng_From tr) (rng_To tr) w with
      | Err _ => Some ErrHistoryInvalidInput
      | Ok count => if maxPoints <? count then Some ErrHistoryResolutionTooFine else None
      end
  end = None <-> resolution_ok tr r rawWindow maxPoints.
Proof.
  intros Ha Hr Hv Hro. destruct (ResolutionDuration r) as [w|] eqn:Ew; [|by destruct r].
  assert (resolution_ok tr r rawWindow maxPoints <-> exists n,
    IntersectingBucketCount (rng_From tr) (rng_To tr) w = Ok n /\ n <= maxPoints) as ->.
  { unfold resolution_ok. destruct r; try done; injection Ew as <-; naive_solver. }
  destruct (IntersectingBucketCount _ _ _) as [n|]; [|naive_solver].
  destruct (Z.ltb_spec maxPoints n); split; intros H'; try done.
  - destruct H' as (n' & E & Hle). injection E as <-. lia.
  - eauto.
Qed.

Lemma history_range_weaken tr m m' : m / 1000 <= m' / 1000 -> history_range tr m -> history_range tr m'.
Proof. intros Hm [? ? ? ? ? ?]. split; try done. lia. Qed.

Lemma Before_UTC t u : Before (UTC t) (UTC u) = (unix_ns t <? unix_ns u).
Proof. done. Qed.

Lemma validate_range_spec tr r maxRange rawWindow maxPoints :
  0 <= maxRange <= max_int64 -> 0 <= rawWindow <= max_int64 ->
  ValidateHistoryTimeRange tr r maxRange rawWindow maxPoints = None
  <-> year_in_range (rng_From tr) = true /\ year_in_range (rng_To tr) = true
      /\ history_range tr maxRange /\ resolution_ok tr r rawWindow maxPoints.
Proof.
  intros Hm Hw. unfold ValidateHistoryTimeRange. rewrite Before_UTC.
  destruct (year_in_range (rng_From tr)); cbn [negb orb]; [|naive_solver].
  destruct (year_in_range (rng_To tr)); cbn [negb orb]; [|naive_solver].
  destruct (year_in_range (UTC (rng_From tr))) eqn:Yf; cbn [negb orb].
  2:{ split; [done|]. intros (_ & _ & Hro & _). apply ro_from, (year_in_range_spec (UTC (rng_From tr))) in Hro; [congruence|done]. }
  destruct (year_in_range (UTC (rng_To tr))) eqn:Yt; cbn [negb orb].
  2:{ split; [done|]. intros (_ & _ & Hro & _). apply ro_to, (year_in_range_spec (UTC (rng_To tr))) in Hro; [congruence|done]. }
  apply year_in_range_spec in Yf, Yt; [|done..]. cbn [UTC unix_ns] in Yf, Yt.
  destruct (Z.rem (Nanosec (UTC (rng_From tr))) 1000 =? 0) eqn:Nf; cbn [negb orb].
  2:{ split; [done|]. intros (_ & _ & Hro & _). apply ro_from_us, nanosec_aligned in Hro. congruence. }
  destruct (Z.rem (Nanosec (UTC (rng_To tr))) 1000 =? 0) eqn:Nt; cbn [negb orb].
  2:{ split; [done|]. intros (_ & _ & Hro & _). apply ro_to_us, nanosec_aligned in Hro. congruence. }
  apply nanosec_aligned in Nf, Nt.
  destruct (Z.ltb_spec (unix_ns (rng_From tr)) (unix_ns (rng_To tr))) as [Hlt|Hge]; cbn [negb].
  2:{ split; [done|]. intros (_ & _ & [] & _). lia. }
  rewrite diff_micros by done. unfold Microseconds.
  rewrite (Z.quot_div_nonneg maxRange 1000), (Z.quot_div_nonneg rawWindow 1000) by lia.
  destruct (Z.le_gt_cases (micros (rng_To tr) - micros (rng_From tr)) (maxRange / 1000)) as [Hs|Hs].
  2:{ split; [|intros (_ & _ & [] & _); lia]. rewrite (proj2 (Z.ltb_lt (maxRange / 1000) _)) by lia. by destruct (_ <? _). }
  rewrite seconds_check by done. rewrite (proj2 (Z.ltb_ge _ _)) by lia.
  assert (history_range tr maxRange) as Hro by by split.
  assert (history_range tr max_int64) as Hro' by (apply (history_range_weaken _ maxRange); [apply Z.div_le_mono; lia|done]).
  destruct (Resolution_Valid r) eqn:Hv; cbn [negb].
  2:{ split; [done|]. intros (_ & _ & _ & Hr). destruct r; try done. by destruct Hr as (? & ? & ? & _). }
  destruct (decide (r = ResolutionRaw)) as [->|Hr]; bdec done.
  { cbn. destruct (Z.ltb_spec (rawWindow / 1000) (micros (rng_To tr) - micros (rng_From tr))); naive_solver lia. }
  destruct (decide (r = ResolutionAuto)) as [->|Ha]; bdec done; cbn [negb]; [naive_solver|].
  rewrite (bucket_check tr r rawWindow maxPoints) by done. naive_solver.
Qed.

(** ValidateHistoryTimeRange accepts exactly the ranges whose ends lie in
    years 1 to 9999 (as given and in UTC), count whole microseconds, are in
    order and at most [maxRange] apart, when the resolution fits: a raw range
    within the raw window, a bucket resolution with at most [maxPoints]
    buckets. *)
Theorem ValidateHistoryTimeRange_spec tr r maxRange rawWindow maxPoints :
  0 <= maxRange <= max_int64 -> 0 <= rawWindow <= max_int64 ->
  ValidateHistoryTimeRange tr r maxRange rawWindow maxPoints = None
  <-> year_in_range (rng_From tr) = true /\ year_in_range (rng_To tr) = true
      /\ history_range tr maxRange /\ resolution_ok tr r rawWindow maxPoints.
Proof. exact (validate_range_spec tr r maxRange rawWindow maxPoints). Qed.

(** ** Buckets of a range *)

(** The microseconds of [from, to) that a bucket index holds. *)
Definition touches (from to width k : Z) : Prop := exists us, from <= us < to /\ us / width = k.

Definition touched (from to width : Z) : list Z :=
  seqZ (from / width) ((to - 1) / width - from / width + 1).

Lemma elem_of_touched from to width k : 0 < width -> from < to ->
  k ∈ touched from to width <-> touches from to width k.
Proof.
  intros Hw Hft. unfold touched, touches. rewrite elem_of_seqZ. split.
  - intros Hk. exists (Z.max from (k * width)).
    pose proof (Z.mul_div_le (to - 1) width). pose proof (Z.mul_succ_div_gt from width).
    destruct (Z.max_spec from (k * width)) as [[Hle ->]|[Hle ->]].
    + split; [nia|]. by rewrite Z.div_mul by lia.
    + split; [lia|]. assert (from / width = k) as ->; [|done].
      assert (k <= from / width) by (apply Z.div_le_lower_bound; lia). lia.
  - intros (us & Hus & <-). assert (from / width <= us / width) by (apply Z.div_le_mono; lia).
    assert (us / width <= (to - 1) / width) by (apply Z.div_le_mono; lia). lia.
Qed.

Lemma length_touched from to width : 0 < width -> from < to ->
  Z.of_nat (length (touched from to width)) = (to - 1) / width - from / width + 1.
Proof.
  intros Hw Hft. unfold touched. rewrite length_seqZ.
  assert (from / width <= (to - 1) / width) by (apply Z.div_le_mono; lia). lia.
Qed.

(** IntersectingBucketCount is the number of epoch-aligned buckets of the
    width that hold an instant of the half-open range, and never overflows in
    years 1 to 9999. *)
Theorem IntersectingBucketCount_counts from to width :
  first_ns <= unix_ns from < end_ns -> first_ns <= unix_ns to < end_ns ->
  micros from < micros to -> 1000 <= width ->
  exists buckets, NoDup buckets
    /\ IntersectingBucketCount from to width = Ok (Z.of_nat (length buckets))
    /\ forall k, k ∈ buckets <-> touches (micros from) (micros to) (width / 1000) k.
Proof.
  intros Hf Ht Hlt Hw. assert (0 < width / 1000) by (apply Z.div_str_pos; lia).
  exists (touched (micros from) (micros to) (width / 1000)). split; [apply NoDup_seqZ|]. split.
  - rewrite length_touched by done. apply IntersectingBucketCount_value; [done..| |done].
    unfold micros in Hlt. dlia.
  - intros k. by apply elem_of_touched.
Qed.

(** ** The automatic resolution *)

Definition fits (from to : Time) (maxPoints : Z) (r : Resolution) : Prop :=
  exists dur n, ResolutionDuration r = Some dur /\ IntersectingBucketCount from to dur = Ok n /\ n <= maxPoints.

Definition too_fine (from to : Time) (maxPoints : Z) (r : Resolution) : Prop :=
  exists dur n, ResolutionDuration r = Some dur /\ IntersectingBucketCount from to dur = Ok n /\ maxPoints < n.

(** Every bucket width is a whole number of microseconds, so it has a count. *)
Lemma duration_bounds r dur : ResolutionDuration r = Some dur -> 1000 <= dur <= 24 * Hour.
Proof. intros H. destruct r; try done; injection H as <-; vm_compute; split; discriminate. Qed.

Lemma count_ok from to r dur : first_ns <= unix_ns from < end_ns -> first_ns <= unix_ns to < end_ns ->
  unix_ns from < unix_ns to -> ResolutionDuration r = Some dur ->
  exists n, IntersectingBucketCount from to dur = Ok n.
Proof.
  intros Hf Ht Hlt Hd. apply duration_bounds in Hd.
  eexists. apply IntersectingBucketCount_value; [done..|lia].
Qed.

Lemma select_resolution_spec from to maxPoints rs : first_ns <= unix_ns from < end_ns ->
  first_ns <= unix_ns to < end_ns -> unix_ns from < unix_ns to ->
  Forall (fun r => is_Some (ResolutionDuration r)) rs ->
  match select_resolution from to maxPoints rs with
  | Ok r => exists before after, rs = before ++ r :: after /\ fits from to maxPoints r
            /\ Forall (too_fine from to maxPoints) before
  | Err e => e = ErrHistoryResolutionTooFine /\ Forall (too_fine from to maxPoints) rs
  end.
Proof.
  intros Hf Ht Hlt. induction 1 as [|r rs [dur Hd] _ IH]; cbn [select_resolution]; [done|].
  rewrite Hd. destruct (count_ok from to r dur Hf Ht Hlt Hd) as [n Hn]. rewrite Hn.
  destruct (Z.leb_spec n maxPoints).
  - exists [], rs. split; [done|]. split; [by exists dur, n|constructor].
  - destruct (select_resolution from to maxPoints rs) as [r'|e].
    + destruct IH as (before & after & -> & Hfit & Hfine). exists (r :: before), after.
      split; [done|]. split; [done|]. constructor; [by exists dur, n|done].
    + destruct IH as [-> Hfine]. split; [done|]. constructor; [by exists dur, n|done].
Qed.

Lemma allowed_durations : Forall (fun r => is_Some (ResolutionDuration r)) AllowedBucketResolutions.
Proof. repeat constructor; eexists; reflexivity. Qed.

Lemma allowed_ascending before r after r' : AllowedBucketResolutions = before ++ r :: after ->
  forall d d', ResolutionDuration r = Some d -> ResolutionDuration r' = Some d' -> d' < d -> r' ∈ before.
Proof.
  intros E d d' Hd Hd' Hlt. assert (r' ∈ AllowedBucketResolutions) as Hin by (destruct r'; try done; set_solver).
  rewrite E in Hin. apply elem_of_app in Hin as [|Hin]; [done|].
  assert (StronglySorted (fun a b => default 0 (ResolutionDuration a) <= default 0 (ResolutionDuration b))
            AllowedBucketResolutions) as Hs by (repeat constructor; vm_compute; discriminate).
  rewrite E in Hs. apply sorting.StronglySorted_app in Hs as (_ & _ & Hs).
  apply StronglySorted_inv in Hs as [_ Hs].
  apply elem_of_cons in Hin as [->|Hin]; [rewrite Hd in Hd'; injection Hd' as <-; lia|].
  rewrite list.Forall_forall in Hs. specialize (Hs _ Hin). rewrite Hd, Hd' in Hs. cbn in Hs. lia.
Qed.

Lemma select_smallest from to maxPoints :
  first_ns <= unix_ns from < end_ns -> first_ns <= unix_ns to < end_ns -> unix_ns from < unix_ns to ->
  0 < maxPoints ->
  match SelectAutoBucketResolution from to maxPoints with
  | Ok r => fits from to maxPoints r
      /\ forall r' d d', ResolutionDuration r = Some d -> ResolutionDuration r' = Some d' -> d' < d ->
           too_fine from to maxPoints r'
  | Err e => e = ErrHistoryResolutionTooFine
      /\ forall r' d', ResolutionDuration r' = Some d' -> too_fine from to maxPoints r'
  end.
Proof.
  intros Hf Ht Hlt Hp. unfold SelectAutoBucketResolution, Before.
  rewrite (proj2 (Z.leb_gt _ _)) by lia. rewrite (proj2 (Z.ltb_lt _ _)) by done. cbn [negb].
  pose proof (select_resolution_spec from to maxPoints AllowedBucketResolutions Hf Ht Hlt
    allowed_durations) as Hs.
  destruct (select_resolution _ _ _ _) as [r|e].
  - destruct Hs as (before & after & E & Hfit & Hfine). split; [done|]. intros r' d d' Hd Hd' Hlt'.
    rewrite list.Forall_forall in Hfine. apply Hfine. by apply (allowed_ascending _ _ _ _ E d d').
  - destruct Hs as [-> Hfine]. split; [done|]. intros r' d' Hd'.
    rewrite list.Forall_forall in Hfine. apply Hfine. destruct r'; try done; set_solver.
Qed.

(** SelectAutoBucketResolution returns the smallest bucket width whose buckets
    over the range are at most [maxPoints]: every smaller one has too many;
    when even the largest has too many it reports so. *)
Theorem SelectAutoBucketResolution_smallest from to maxPoints :
  first_ns <= unix_ns from < end_ns -> first_ns <= unix_ns to < end_ns -> unix_ns from < unix_ns to ->
  0 < maxPoints ->
  match SelectAutoBucketResolution from to maxPoints with
  | Ok r => fits from to maxPoints r
      /\ forall r' d d', ResolutionDuration r = Some d -> ResolutionDuration r' = Some d' -> d' < d ->
           too_fine from to maxPoints r'
  | Err e => e = ErrHistoryResolutionTooFine
      /\ forall r' d', ResolutionDuration r' = Some d' -> too_fine from to maxPoints r'
  end.
Proof. exact (select_smallest from to maxPoints). Qed.

(** ** Accepted queries *)

Record config_ok (cfg : HistoryPreparationConfig) : Prop := {
  co_timeout : 0 < hc_QueryTimeout cfg <= MaxHistoryQueryTimeout;
  co_range : 0 < hc_MaxRange cfg <= MaxHistoryMaxRange;
  co_raw : 0 < hc_RawWindow cfg <= MaxHistoryRawWindow;
  co_raw_range : hc_RawWindow cfg <= hc_MaxRange cfg;
  co_points : 100 <= hc_MinPoints cfg /\ hc_MinPoints cfg <= hc_MaxPoints cfg <= 2000;
}.

Lemma config_ok_spec cfg : ValidateHistoryPreparationConfig cfg = None <-> config_ok cfg.
Proof.
  unfold ValidateHistoryPreparationConfig, MinHistoryPointsLowerLimit, MaxHistoryPointsUpperLimit. split.
  - intros H. inv_ok H. gobool. split; lia.
  - intros [? ? ? ? [? ?]]. rewrite !(proj2 (Z.leb_gt _ _)), !(proj2 (Z.ltb_ge _ _)) by lia. done.
Qed.

Lemma config_int64 cfg : config_ok cfg ->
  0 <= hc_MaxRange cfg <= max_int64 /\ 0 <= hc_RawWindow cfg <= max_int64.
Proof.
  intros [_ Hr Hw _ _]. unfold MaxHistoryMaxRange, MaxHistoryRawWindow, Hour, Minute, Second, max_int64 in *. lia.
Qed.

(** The part of an accepted query that does not depend on the resolution. *)
Record query_ok (cfg : HistoryPreparationConfig) (q : TelemetryHistoryQuery) : Prop := {
  qo_gateway : ValidateGatewayID (hq_GatewayID q) = None;
  qo_sensor : ValidateSensorID (hq_SensorID q) = None;
  qo_points : hc_MinPoints cfg <= hq_MaxPoints q <= hc_MaxPoints cfg;
  qo_from_year : year_in_range (rng_From (hq_Range q)) = true;
  qo_to_year : year_in_range (rng_To (hq_Range q)) = true;
  qo_range : history_range (hq_Range q) (hc_MaxRange cfg);
}.

Lemma check_query_spec cfg q : config_ok cfg ->
  check_query cfg q = None <-> query_ok cfg q
    /\ resolution_ok (hq_Range q) (hq_Resolution q) (hc_RawWindow cfg) (hq_MaxPoints q).
Proof.
  intros Hc. destruct (config_int64 cfg Hc) as [Hm Hw]. unfold check_query. split.
  - intros H. inv_ok H. gobool.
    apply validate_range_spec in H as (? & ? & ? & ?); [|done..].
    repeat match goal with E : ~ is_Some _ |- _ => apply eq_None_not_Some in E end.
    by split.
  - intros [[Hg Hs Hp Hf Ht Hr] Hres]. rewrite Hg, Hs.
    rewrite !(bool_decide_false (is_Some None)) by (by intros []).
    rewrite !(proj2 (Z.ltb_ge _ _)) by lia. cbn [orb].
    by apply validate_range_spec.
Qed.

Lemma query_ok_resolution cfg q r : query_ok cfg q -> query_ok cfg (with_resolution q r).
Proof. by intros [? ? ? ? ? ?]. Qed.

(** The range of an accepted query touches at most 32 days. *)
Lemma day_buckets cfg q : config_ok cfg -> query_ok cfg q ->
  exists n, IntersectingBucketCount (rng_From (hq_Range q)) (rng_To (hq_Range q)) (24 * Hour) = Ok n /\ n <= 100.
Proof.
  intros Hc Hq. destruct (qo_range _ _ Hq) as [Hf Ht _ _ Hlt Hspan].
  eexists. split; [apply IntersectingBucketCount_value; [done..|vm_compute; discriminate]|].
  pose proof (co_range _ Hc) as Hr. unfold MaxHistoryMaxRange in Hr. unfold micros in Hspan.
  assert (hc_MaxRange cfg / 1000 <= 744 * 3600000000) by (unfold Hour, Minute, Second in *; dlia).
  unfold Hour, Minute, Second. set (a := unix_ns (rng_From _) / 1000) in *.
  set (b := unix_ns (rng_To _) / 1000) in *. clearbody a b. clear Hf Ht Hlt Hr Hc Hq. change (24 * (60 * (60 * 1000000000)) / 1000) with 86400000000. dlia.
Qed.

Lemma auto_resolution_exists cfg q : config_ok cfg -> check_query cfg q = None ->
  exists r, SelectAutoBucketResolution (rng_From (hq_Range q)) (rng_To (hq_Range q)) (hq_MaxPoints q) = Ok r
    /\ check_query cfg (with_resolution q r) = None.
Proof.
  intros Hc Hq. apply check_query_spec in Hq as [Hq _]; [|done].
  destruct (qo_range _ _ Hq) as [Hf Ht _ _ Hlt _].
  pose proof (qo_points _ _ Hq) as Hp. pose proof (co_points _ Hc) as Hcp.
  pose proof (select_smallest _ _ (hq_MaxPoints q) Hf Ht Hlt) as Hs.
  destruct (SelectAutoBucketResolution _ _ _) as [r|e].
  - destruct Hs as [Hfit _]; [lia|]. exists r. split; [done|]. apply check_query_spec; [done|].
    split; [by apply query_ok_resolution|]. destruct Hfit as (d & n & Hd & Hn & Hle).
    unfold resolution_ok. cbn. destruct r; try done; by exists d, n.
  - destruct Hs as [_ Hfine]; [lia|]. destruct (day_buckets cfg q Hc Hq) as (n & Hn & Hle).
    destruct (Hfine Resolution1d (24 * Hour) eq_refl) as (d & n' & Hd & Hn' & Hlt').
    injection Hd as <-. rewrite Hn in Hn'. injection Hn' as <-. lia.
Qed.

(** Every accepted query with the automatic resolution has a bucket width that
    fits, and the query rewritten to it is accepted by the reader: the service
    never refuses an automatic query as too fine. *)
Theorem auto_resolution_found cfg q : config_ok cfg -> check_query cfg q = None ->
  exists r, SelectAutoBucketResolution (rng_From (hq_Range q)) (rng_To (hq_Range q)) (hq_MaxPoints q) = Ok r
    /\ check_query cfg (with_resolution q r) = None.
Proof. exact (auto_resolution_exists cfg q). Qed.

(** * The reference answer of a history query and the reader that computes it

    [reader_spec] is the answer of a query on one state of the tables, as a
    pure function.  The lemmas relate the row loops of [HistoryRepo] to it, in
    any world and in a world where nothing fails. *)

Section answer.
Context {uuid : Type} `{U : UuidLib uuid} `{SF : SqlFunctions}.
Implicit Types (q : TelemetryHistoryQuery) (db : HistoryDB uuid) (w : World uuid).

(** ** Reference answers *)

Definition from_us q : Z := micros (rng_From (hq_Range q)).
Definition to_us q : Z := micros (rng_To (hq_Range q)).

(** The samples the query asks for, in the order of time. *)
Definition query_rows q db : list (TelemetryRow uuid) :=
  history_rows (hq_GatewayID q) (hq_SensorID q) (from_us q) (to_us q) db.

Definition query_samples q db : list (TelemetryRow uuid) :=
  samples_in (hq_GatewayID q) (hq_SensorID q) (from_us q) (to_us q) db.

Definition raw_sample (r : TelemetryRow uuid) : RawSamplePoint uuid :=
  mkRawPoint (time_of_tz (tr_measured_at r)) (tr_value r) (tr_sequence_num r)
    (tr_boot_id r) (tr_message_id r) (tr_sample_index r).

Definition raw_answer q (unit : option string) db : TelemetryHistoryResult uuid :=
  let points := raw_sample <$> query_rows q db in
  mkHistoryResult (hq_GatewayID q) (hq_SensorID q) unit (UTC (rng_From (hq_Range q))) (UTC (rng_To (hq_Range q)))
    "raw" "raw" (Z.of_nat (length points)) points [].

Definition bucket_sample (width : Z) (rows : list (TelemetryRow uuid)) (start : Z) : BucketSamplePoint :=
  let values := bucket_values width start rows in
  mkBucketPoint (time_of_tz start) (sql_avg values) (sql_min values) (sql_max values)
    (Z.of_nat (length values)).

Definition bucket_answer q (dur : Z) (unit : option string) db : TelemetryHistoryResult uuid :=
  let rows := query_samples q db in
  let points := bucket_sample (dur / 1000) rows <$> bucket_starts (dur / 1000) rows in
  mkHistoryResult (hq_GatewayID q) (hq_SensorID q) unit (UTC (rng_From (hq_Range q))) (UTC (rng_To (hq_Range q)))
    "bucket" (resolution_text (hq_Resolution q)) (Z.of_nat (length points)) [] points.

Definition query_unit (actor : uuid) q db : option (option string) :=
  authorized_sensor actor (hq_GatewayID q) (hq_SensorID q) db.

Definition reader_spec (actor : uuid) q db : res HistoryError (TelemetryHistoryResult uuid) :=
  match query_unit actor q db with
  | None => Err ErrHistoryNotFound
  | Some unit =>
      match hq_Resolution q with
      | ResolutionRaw =>
          if hq_MaxPoints q <? Z.of_nat (length (query_samples q db)) then Err ErrHistoryRawLimitExceeded
          else Ok (raw_answer q unit db)
      | r => match ResolutionDuration r with
             | Some dur => Ok (bucket_answer q dur unit db)
             | None => Err ErrHistoryInvalidResolution
             end
      end
  end.

(** ** The context checks *)

Lemma join_ctx_ok w n u n' : join_ctx w n = (Ok u, n') -> n' = S n /\ alive w n'.
Proof. apply ensure_ctx_ok. Qed.

Lemma check_ctx_join w n : check_ctx w n = join_ctx w n.
Proof. done. Qed.

Lemma quiet_join_ctx w db n : quiet w db -> join_ctx w n = (Ok (), S n).
Proof. apply quiet_ensure_ctx. Qed.

(** ** The loop over the rows *)

Fixpoint scan_all {Row Pt} (head : Row -> string * string * option string)
    (point : Row -> res herror (option Pt)) (rows : list Row) (v : loop_vars Pt) : res herror (loop_vars Pt) :=
  match rows with
  | [] => Ok v
  | row :: rows' => let! pt := point row in scan_all head point rows' (add_row (head row) pt v)
  end.

Lemma range_rows_ok {Row Pt} head (point : Row -> res herror (option Pt)) rows : forall v w n v' n',
  range_rows (uuid := uuid) head point rows v w n = (Ok (v', None), n') ->
  (n < n')%nat /\ scan_all head point rows v = Ok v'.
Proof.
  induction rows as [|row rows IH]; intros v w n v' n' H; cbn [range_rows] in H.
  - apply hbind_ok in H as (a & k & Ha & H). apply db_call_ok in Ha as [-> Ha].
    destruct (reply_at w n); subst a; cbn in H; [done|]. injection H as <- <-. split; [lia|done].
  - apply hbind_ok in H as (a & k & Ha & H). apply db_call_ok in Ha as [-> Ha].
    destruct (reply_at w n); subst a; cbn [hret] in H; [done|].
    apply hbind_ok in H as (u & k & Hu & H). apply join_ctx_ok in Hu as [-> _].
    apply hbind_ok in H as (a & k & Ha & H). apply db_call_ok in Ha as [-> Ha].
    destruct (reply_at w (S (S n))); subst a; cbn [hfail] in H; [done|].
    apply hbind_ok in H as (pt & k & Hp & H). unfold of_res in Hp. injection Hp as Hp <-.
    apply IH in H as [Hn H]. split; [lia|]. cbn [scan_all]. by rewrite Hp.
Qed.

Lemma range_rows_quiet {Row Pt} head (point : Row -> res herror (option Pt)) rows w db : quiet w db ->
  forall v n, exists n', range_rows head point rows v w n
    = (match scan_all head point rows v with Ok v' => Ok (v', None) | Err e => Err e end, n').
Proof.
  intros Hq. induction rows as [|row rows IH]; intros v n; cbn [range_rows scan_all]; unfold hbind.
  - rewrite (quiet_db_call _ _ _ _ Hq). cbn. eauto.
  - rewrite (quiet_db_call _ _ _ _ Hq). rewrite (quiet_join_ctx _ _ _ Hq).
    rewrite (quiet_db_call _ _ _ _ Hq). unfold of_res. destruct (point row) as [pt|e]; cbn; [apply IH|eauto].
Qed.

(** A successful read saw one state of the tables, and the context had not
    ended when it finished. *)
Lemma read_rows_ok {Row Pt} query head (point : Row -> res herror (option Pt)) w n v n' :
  read_rows query head point w n = (Ok v, n') ->
  (n < n')%nat /\ alive w n' /\ scan_all head point (query (store_at w n)) start_vars = Ok v
  /\ lv_rowCount v <> 0.
Proof.
  unfold read_rows. intros H.
  apply hbind_ok in H as (a & k & Ha & H). apply db_call_ok in Ha as [-> Ha].
  destruct (reply_at w n); subst a; [done|].
  apply hbind_ok in H as (u & k & Hu & H). apply join_ctx_ok in Hu as [-> _].
  apply hbind_ok in H as ([v1 o] & k & Hs & H). destruct o; [done|].
  apply range_rows_ok in Hs as [Hn Hs].
  apply hbind_ok in H as (u' & k' & Hu & H). apply join_ctx_ok in Hu as [-> Hal].
  destruct (lv_rowCount v1 =? 0) eqn:E; [done|]. injection H as <- <-.
  split; [lia|]. split; [done|]. split; [done|]. by apply Z.eqb_neq.
Qed.

Lemma read_rows_quiet {Row Pt} query head (point : Row -> res herror (option Pt)) w db n : quiet w db ->
  exists n', read_rows query head point w n
    = (match scan_all head point (query db) start_vars with
       | Ok v => if lv_rowCount v =? 0 then Err (HErr ErrHistoryNotFound) else Ok v
       | Err e => Err e
       end, n').
Proof.
  intros Hq. unfold read_rows, hbind. rewrite (quiet_db_call _ _ _ _ Hq), (quiet_join_ctx _ _ _ Hq).
  destruct (range_rows_quiet head point (query db) w db Hq start_vars (S (S n))) as [n' ->].
  destruct (scan_all _ _ _ _) as [v|e]; [|eauto].
  rewrite (quiet_join_ctx _ _ _ Hq). destruct (lv_rowCount v =? 0); eauto.
Qed.

(** ** What the loop keeps of the rows of a query *)

Section points.
Context {T Row Pt : Type} (row : T -> Row) (f : T -> Pt).
Context (head : Row -> string * string * option string) (point : Row -> res herror (option Pt)).
Context (g s : string) (unit : option string).
Hypothesis head_row : forall t, head (row t) = (g, s, unit).
Hypothesis point_row : forall t, point (row t) = Ok (Some (f t)).

Lemma scan_all_more ts : forall v, 0 < lv_rowCount v ->
  scan_all head point (row <$> ts) v
  = Ok (mkLoopVars (lv_rowCount v + Z.of_nat (length ts)) (lv_resolvedGW v) (lv_resolvedSens v)
          (lv_currentUnit v) (lv_points v ++ (f <$> ts))).
Proof.
  induction ts as [|t ts IH]; intros v Hv; cbn [scan_all fmap list_fmap].
  - rewrite app_nil_r, Z.add_0_r. by destruct v.
  - rewrite point_row. cbn. rewrite IH; unfold add_row; rewrite head_row;
      rewrite (proj2 (Z.eqb_neq _ _)) by lia; cbn; [|lia].
    rewrite <- app_assoc. do 2 f_equal. lia.
Qed.

Lemma scan_all_points t ts :
  scan_all head point (row <$> (t :: ts)) start_vars
  = Ok (mkLoopVars (Z.of_nat (length (t :: ts))) g s unit (f <$> (t :: ts))).
Proof.
  cbn [scan_all fmap list_fmap]. rewrite point_row. cbn.
  rewrite scan_all_more; unfold add_row; rewrite head_row; cbn; [|lia]. do 2 f_equal. lia.
Qed.

End points.

(** The limited rows of a query as the loop keeps them: all of them, or more
    than [limit - 1] when there are too many. *)
Definition scanned {T Pt} (f : T -> Pt) (g s : string) (unit : option string) (limit : Z) (ts : list T)
    : loop_vars Pt :=
  match take (Z.to_nat limit) ts with
  | [] => mkLoopVars 1 g s unit []
  | us => mkLoopVars (Z.of_nat (length us)) g s unit (f <$> us)
  end.

Lemma scan_all_scanned {T Row Pt} (row : T -> Row) (f : T -> Pt) head point g s unit empty limit ts :
  (forall t, head (row t) = (g, s, unit)) -> (forall t, point (row t) = Ok (Some (f t))) ->
  head empty = (g, s, unit) -> point empty = Ok None -> 0 < limit ->
  scan_all head point (take (Z.to_nat limit) (match ts with [] => [empty] | t :: us => row <$> (t :: us) end)) start_vars
  = Ok (scanned f g s unit limit ts).
Proof.
  intros Hh Hp Hhe Hpe Hl. unfold scanned. assert (Z.to_nat limit = S (Z.to_nat (limit - 1))) as -> by lia.
  destruct ts as [|t ts]; cbn [take].
  - rewrite take_nil. cbn [scan_all]. rewrite Hpe. cbn. unfold add_row. by rewrite Hhe.
  - cbn [fmap list_fmap take]. rewrite <- fmap_take.
    by rewrite <- (scan_all_points row f head point g s unit Hh Hp).
Qed.

Lemma scanned_count {T Pt} (f : T -> Pt) g s unit limit ts : lv_rowCount (scanned f g s unit limit ts) =? 0 = false.
Proof. unfold scanned. apply Z.eqb_neq. destruct (take _ _); cbn; lia. Qed.

Lemma scanned_head {T Pt} (f : T -> Pt) g s unit limit ts :
  let v := scanned f g s unit limit ts in
  lv_resolvedGW v = g /\ lv_resolvedSens v = s /\ lv_currentUnit v = unit.
Proof. unfold scanned. by destruct (take _ _). Qed.

Lemma scanned_points {T Pt} (f : T -> Pt) g s unit limit ts :
  lv_points (scanned f g s unit limit ts) = f <$> take (Z.to_nat limit) ts.
Proof. unfold scanned. by destruct (take _ _). Qed.

Lemma scanned_too_many {T Pt} (f : T -> Pt) g s unit maxPoints ts : 0 <= maxPoints ->
  (maxPoints <? Z.of_nat (length (lv_points (scanned f g s unit (maxPoints + 1) ts))))
  = (maxPoints <? Z.of_nat (length ts)).
Proof.
  intros Hm. rewrite scanned_points, length_fmap, length_take.
  destruct (Z.ltb_spec maxPoints (Z.of_nat (length ts))); [apply Z.ltb_lt|apply Z.ltb_ge]; lia.
Qed.

Lemma scanned_all {T Pt} (f : T -> Pt) g s unit maxPoints ts : Z.of_nat (length ts) <= maxPoints ->
  lv_points (scanned f g s unit (maxPoints + 1) ts) = f <$> ts.
Proof. intros Hm. rewrite scanned_points. by rewrite take_ge by lia. Qed.

End answer.
