(* ===== verification/HistoryReaderSpec.v ===== *)
(** * The PostgreSQL reader and resolver answer as the reference says

    In any world a successful read is the reference answer for the tables its
    query found; in a world where nothing fails the reader computes exactly the
    reference answer, refusals included.  The buckets of an accepted query
    never exceed the requested number of points. *)

From stdpp Require Import sorting.
From S2P Require Import Prelude GoStrings GoTime GoFloat Identity Uuid Telemetry.
From S2P Require Import Txn Store Persist HistoryQuery HistoryStore ReadWorld History HistoryRepo HistorySpec.
#[local] Open Scope Z_scope.

Section buckets.
Context {uuid : Type} `{U : UuidLib uuid} `{SF : SqlFunctions} `{SL : !SqlLaws}.
Implicit Types (rows : list (TelemetryRow uuid)).

(** ** Buckets *)

Lemma time_bucket_value width t : 0 < width -> time_bucket width t = t / width * width.
Proof.
  intros Hw. destruct (time_bucket_aligned width t Hw) as [k Hk].
  pose proof (time_bucket_holds width t Hw) as Hh. rewrite Hk in *.
  f_equal. apply (Z.div_unique_pos _ _ _ (t - k * width)); lia.
Qed.

Lemma bucket_starts_perm width rows :
  bucket_starts width rows ≡ₚ remove_dups (time_bucket width ∘ tr_measured_at <$> rows).
Proof. apply merge_sort_Permutation. Qed.

Lemma bucket_starts_NoDup width rows : NoDup (bucket_starts width rows).
Proof. rewrite bucket_starts_perm. apply NoDup_remove_dups. Qed.

Lemma elem_of_bucket_starts width rows b :
  b ∈ bucket_starts width rows <-> exists r, r ∈ rows /\ b = time_bucket width (tr_measured_at r).
Proof.
  rewrite bucket_starts_perm, elem_of_remove_dups, list_elem_of_fmap. naive_solver.
Qed.

Lemma bucket_starts_length width from to rows : 0 < width -> from < to ->
  (forall r, r ∈ rows -> from <= tr_measured_at r < to) ->
  Z.of_nat (length (bucket_starts width rows)) <= (to - 1) / width - from / width + 1.
Proof.
  intros Hw Hft Hr. rewrite <- length_touched by done. apply inj_le.
  rewrite <- (length_fmap (fun k => k * width) (touched from to width)).
  apply submseteq_length, NoDup_submseteq; [apply bucket_starts_NoDup|].
  intros b Hb. apply elem_of_bucket_starts in Hb as (r & Hin & ->).
  rewrite time_bucket_value by done. apply list_elem_of_fmap.
  exists (tr_measured_at r / width). split; [done|]. apply elem_of_touched; [done..|].
  exists (tr_measured_at r). split; [by apply Hr|done].
Qed.

End buckets.

Section reader.
Context {uuid : Type} `{U : UuidLib uuid} `{SF : SqlFunctions} `{SL : !SqlLaws}.
Context (repo : PostgresHistoryRepository) (cfg_valid : config_ok (repo_cfg repo)).
Implicit Types (q : TelemetryHistoryQuery) (db : HistoryDB uuid) (w : World uuid).

Lemma query_samples_in q db r : r ∈ query_samples q db -> from_us q <= tr_measured_at r < to_us q.
Proof. unfold query_samples, samples_in. rewrite list_elem_of_filter. intros [(_ & _ & Hin) _]. done. Qed.

Lemma query_rows_length q db : length (query_rows q db) = length (query_samples q db).
Proof. unfold query_rows, history_rows. by rewrite merge_sort_Permutation. Qed.

(** The buckets of an accepted query fit. *)
Lemma query_buckets_fit q dur db : query_ok (repo_cfg repo) q ->
  resolution_ok (hq_Range q) (hq_Resolution q) (hc_RawWindow (repo_cfg repo)) (hq_MaxPoints q) ->
  ResolutionDuration (hq_Resolution q) = Some dur ->
  Z.of_nat (length (bucket_starts (dur / 1000) (query_samples q db))) <= hq_MaxPoints q.
Proof.
  intros Hq Hres Hd. pose proof (qo_range _ _ Hq) as Hro.
  assert (exists n, IntersectingBucketCount (rng_From (hq_Range q)) (rng_To (hq_Range q)) dur = Ok n
            /\ n <= hq_MaxPoints q) as (n & Hn & Hle).
  { unfold resolution_ok in Hres. rewrite Hd in Hres. destruct (hq_Resolution q); try done; naive_solver. }
  apply duration_bounds in Hd. rewrite IntersectingBucketCount_value in Hn;
    [|apply Hro..|lia]. injection Hn as <-. etrans; [|exact Hle].
  apply bucket_starts_length; [apply Z.div_str_pos; lia|by apply micros_before in Hro|].
  intros r Hr. by apply query_samples_in in Hr.
Qed.

Lemma limit_exact q : query_ok (repo_cfg repo) q -> int64_add (hq_MaxPoints q) 1 = hq_MaxPoints q + 1
  /\ 100 <= hq_MaxPoints q.
Proof.
  intros Hq. pose proof (qo_points _ _ Hq). pose proof (co_points _ cfg_valid).
  split; [|lia]. unfold int64_add. apply wrap64_id. unfold in_int64, min_int64, max_int64. lia.
Qed.

(** What both readers do with the variables the loop leaves. *)
Definition raw_vars (actor : uuid) q db : res herror (loop_vars (RawSamplePoint uuid)) :=
  scan_all raw_head raw_point
    (rawTelemetryHistoryQuery actor (hq_GatewayID q) (hq_SensorID q) (from_us q) (to_us q)
       (int64_add (hq_MaxPoints q) 1) db) start_vars.

Definition bucket_vars (actor : uuid) q (dur : Z) db : res herror (loop_vars BucketSamplePoint) :=
  scan_all bucket_head bucket_point
    (bucketTelemetryHistoryQuery actor (hq_GatewayID q) (hq_SensorID q) (Microseconds dur) (from_us q) (to_us q)
       (int64_add (hq_MaxPoints q) 1) db) start_vars.

Lemma raw_vars_spec actor q db : query_ok (repo_cfg repo) q -> raw_vars actor q db
  = Ok (match query_unit actor q db with
        | None => start_vars
        | Some unit => scanned raw_sample (hq_GatewayID q) (hq_SensorID q) unit (hq_MaxPoints q + 1) (query_rows q db)
        end).
Proof.
  intros Hq. destruct (limit_exact q Hq) as [Hl Hp]. unfold raw_vars, rawTelemetryHistoryQuery, query_unit.
  rewrite Hl. destruct (authorized_sensor _ _ _ _) as [unit|]; [|done].
  by apply (scan_all_scanned (raw_row (hq_GatewayID q) (hq_SensorID q) unit) raw_sample raw_head raw_point
    _ _ _ _ _ (query_rows q db)); [..|lia].
Qed.

Lemma bucket_vars_spec actor q dur db : query_ok (repo_cfg repo) q -> 0 <= dur -> bucket_vars actor q dur db
  = Ok (match query_unit actor q db with
        | None => start_vars
        | Some unit => scanned (bucket_sample (dur / 1000) (query_samples q db)) (hq_GatewayID q) (hq_SensorID q)
                         unit (hq_MaxPoints q + 1) (bucket_starts (dur / 1000) (query_samples q db))
        end).
Proof.
  intros Hq Hd. destruct (limit_exact q Hq) as [Hl Hp]. unfold bucket_vars, bucketTelemetryHistoryQuery, query_unit.
  rewrite Hl. unfold Microseconds. rewrite Z.quot_div_nonneg by lia.
  destruct (authorized_sensor _ _ _ _) as [unit|]; [|done].
  by apply (scan_all_scanned (bucket_row (hq_GatewayID q) (hq_SensorID q) unit (dur / 1000) (query_samples q db))
    (bucket_sample (dur / 1000) (query_samples q db)) bucket_head bucket_point
    _ _ _ _ _ (bucket_starts (dur / 1000) (query_samples q db))); [..|lia].
Qed.

(** The whole read on one state of the tables. *)
Definition finish_raw q (v : loop_vars (RawSamplePoint uuid)) : res HistoryError (TelemetryHistoryResult uuid) :=
  if hq_MaxPoints q <? Z.of_nat (length (lv_points v)) then Err ErrHistoryRawLimitExceeded
  else Ok (mkHistoryResult (lv_resolvedGW v) (lv_resolvedSens v) (lv_currentUnit v)
             (UTC (rng_From (hq_Range q))) (UTC (rng_To (hq_Range q))) "raw" "raw"
             (Z.of_nat (length (lv_points v))) (lv_points v) []).

Definition finish_bucket q (v : loop_vars BucketSamplePoint) : res HistoryError (TelemetryHistoryResult uuid) :=
  if hq_MaxPoints q <? Z.of_nat (length (lv_points v)) then Err ErrHistoryResolutionTooFine
  else Ok (mkHistoryResult (lv_resolvedGW v) (lv_resolvedSens v) (lv_currentUnit v)
             (UTC (rng_From (hq_Range q))) (UTC (rng_To (hq_Range q))) "bucket"
             (resolution_text (hq_Resolution q)) (Z.of_nat (length (lv_points v))) [] (lv_points v)).

Lemma finish_raw_spec actor q db unit : query_ok (repo_cfg repo) q -> hq_Resolution q = ResolutionRaw ->
  query_unit actor q db = Some unit ->
  finish_raw q (scanned raw_sample (hq_GatewayID q) (hq_SensorID q) unit (hq_MaxPoints q + 1) (query_rows q db))
  = reader_spec actor q db.
Proof.
  intros Hq Hr Hu. destruct (limit_exact q Hq) as [_ Hp]. unfold finish_raw, reader_spec. rewrite Hu, Hr.
  rewrite scanned_too_many by lia. rewrite query_rows_length.
  destruct (Z.ltb_spec (hq_MaxPoints q) (Z.of_nat (length (query_samples q db)))); [done|].
  rewrite scanned_all by (rewrite query_rows_length; lia).
  destruct (scanned_head raw_sample (hq_GatewayID q) (hq_SensorID q) unit (hq_MaxPoints q + 1) (query_rows q db))
    as (-> & -> & ->). done.
Qed.

Lemma finish_bucket_spec actor q dur db unit : query_ok (repo_cfg repo) q ->
  resolution_ok (hq_Range q) (hq_Resolution q) (hc_RawWindow (repo_cfg repo)) (hq_MaxPoints q) ->
  ResolutionDuration (hq_Resolution q) = Some dur -> query_unit actor q db = Some unit ->
  finish_bucket q (scanned (bucket_sample (dur / 1000) (query_samples q db)) (hq_GatewayID q) (hq_SensorID q)
                     unit (hq_MaxPoints q + 1) (bucket_starts (dur / 1000) (query_samples q db)))
  = reader_spec actor q db.
Proof.
  intros Hq Hres Hd Hu. pose proof (query_buckets_fit q dur db Hq Hres Hd) as Hfit.
  destruct (limit_exact q Hq) as [_ Hp]. unfold finish_bucket, reader_spec. rewrite Hu.
  rewrite scanned_too_many by lia. rewrite (proj2 (Z.ltb_ge _ _)) by done.
  rewrite scanned_all by done.
  destruct (scanned_head (bucket_sample (dur / 1000) (query_samples q db)) (hq_GatewayID q) (hq_SensorID q) unit
    (hq_MaxPoints q + 1) (bucket_starts (dur / 1000) (query_samples q db))) as (-> & -> & ->).
  destruct (hq_Resolution q) eqn:E; try done; injection Hd as <-; unfold bucket_answer; by rewrite E.
Qed.

(** ** Reads in any world *)

Lemma read_raw_ok actor q w n o n' : query_ok (repo_cfg repo) q -> hq_Resolution q = ResolutionRaw ->
  readRawTelemetryHistory actor q w n = (Ok o, n') ->
  (n < n')%nat /\ alive w n' /\ exists r, o = Some r /\ reader_spec actor q (store_at w n) = Ok r.
Proof.
  intros Hq Hr H. unfold readRawTelemetryHistory in H.
  apply hbind_ok in H as (v & k & Hv & H). apply read_rows_ok in Hv as (Hn & Hal & Hs & Hc).
  assert (raw_vars actor q (store_at w n) = Ok v) as Hv by exact Hs.
  rewrite raw_vars_spec in Hv by done. destruct (query_unit actor q (store_at w n)) as [unit|] eqn:Hu.
  2:{ injection Hv as <-. done. }
  pose proof (finish_raw_spec actor q (store_at w n) unit Hq Hr Hu) as Hf. injection Hv as Hv. rewrite Hv in Hf.
  unfold finish_raw in Hf. destruct (hq_MaxPoints q <? _); [done|]. injection H as <- <-.
  split; [done|]. split; [done|]. by eexists.
Qed.

Lemma read_bucket_ok actor q dur w n o n' : query_ok (repo_cfg repo) q ->
  resolution_ok (hq_Range q) (hq_Resolution q) (hc_RawWindow (repo_cfg repo)) (hq_MaxPoints q) ->
  ResolutionDuration (hq_Resolution q) = Some dur ->
  readBucketTelemetryHistory actor q dur w n = (Ok o, n') ->
  (n < n')%nat /\ alive w n' /\ exists r, o = Some r /\ reader_spec actor q (store_at w n) = Ok r.
Proof.
  intros Hq Hres Hd H. unfold readBucketTelemetryHistory in H.
  apply hbind_ok in H as (v & k & Hv & H). apply read_rows_ok in Hv as (Hn & Hal & Hs & Hc).
  assert (bucket_vars actor q dur (store_at w n) = Ok v) as Hv by exact Hs.
  rewrite bucket_vars_spec in Hv; [|done|apply duration_bounds in Hd; lia].
  destruct (query_unit actor q (store_at w n)) as [unit|] eqn:Hu.
  2:{ injection Hv as <-. done. }
  pose proof (finish_bucket_spec actor q dur (store_at w n) unit Hq Hres Hd Hu) as Hf.
  injection Hv as Hv. rewrite Hv in Hf.
  unfold finish_bucket in Hf. destruct (hq_MaxPoints q <? _); [done|]. injection H as <- <-.
  split; [done|]. split; [done|]. by eexists.
Qed.

Definition repo_read := PostgresHistoryRepository_ReadTelemetryHistory (uuid := uuid) repo true.

(** The checks in front of the queries are the ones of [check_query]. *)
Definition read_checked (actor : uuid) q : HM uuid (option (TelemetryHistoryResult uuid)) :=
  leth _ := join_ctx in
  if bool_decide (hq_Resolution q = ResolutionRaw) then readRawTelemetryHistory actor q
  else match ResolutionDuration (hq_Resolution q) with
       | None => hfail (unsupported (hq_Resolution q) " is not supported by bucket reader")
       | Some dur => readBucketTelemetryHistory actor q dur
       end.

Lemma repo_read_checked actor q w n : actor <> uuid_Nil -> hq_Resolution q <> ResolutionAuto ->
  repo_read actor q w n
  = hbind join_ctx (fun _ => match check_query (repo_cfg repo) q with
                             | Some e => hfail (HErr e)
                             | None => read_checked actor q
                             end) w n.
Proof.
  intros Hact Hauto. unfold repo_read, PostgresHistoryRepository_ReadTelemetryHistory, check_query, hbind.
  cbn [negb]. destruct (join_ctx w n) as [[[]|e] k]; [|done]. rewrite (bool_decide_false (actor = _)) by done.
  rewrite (bool_decide_false (hq_Resolution q = _)) by done.
  destruct (bool_decide (is_Some (ValidateGatewayID _))); [done|].
  destruct (bool_decide (is_Some (ValidateSensorID _))); [done|].
  destruct (_ || _); [done|]. by destruct (ValidateHistoryTimeRange _ _ _ _ _).
Qed.

(** A read that succeeds answered as the reference does on the tables its
    query found, for an accepted query, before the context ended. *)
Lemma repo_read_ok actor q w n o n' : actor <> uuid_Nil -> hq_Resolution q <> ResolutionAuto ->
  repo_read actor q w n = (Ok o, n') ->
  check_query (repo_cfg repo) q = None /\ alive w n'
  /\ exists k r, (n <= k < n')%nat /\ o = Some r /\ reader_spec actor q (store_at w k) = Ok r.
Proof.
  intros Hact Hauto H. rewrite repo_read_checked in H by done.
  apply hbind_ok in H as (u & k & Hu & H). apply join_ctx_ok in Hu as [-> _].
  destruct (check_query (repo_cfg repo) q) eqn:Hc; [done|]. split; [done|].
  apply check_query_spec in Hc as [Hq Hres]; [|done]. unfold read_checked in H.
  apply hbind_ok in H as (u' & k & Hu & H). apply join_ctx_ok in Hu as [-> _].
  destruct (decide (hq_Resolution q = ResolutionRaw)) as [Hr|Hr].
  - rewrite bool_decide_true in H by done.
    apply read_raw_ok in H as (Hn & Hal & r & -> & Hspec); [|done..].
    split; [done|]. exists (S (S n)), r. split; [lia|done].
  - rewrite bool_decide_false in H by done. destruct (ResolutionDuration _) as [dur|] eqn:Hd; [|done].
    apply (read_bucket_ok _ _ dur) in H as (Hn & Hal & r & -> & Hspec); [|done..].
    split; [done|]. exists (S (S n)), r. split; [lia|done].
Qed.

(** ** Reads where nothing fails *)

Definition as_reply (r : res HistoryError (TelemetryHistoryResult uuid)) : res herror (option (TelemetryHistoryResult uuid)) :=
  match r with Ok a => Ok (Some a) | Err e => Err (HErr e) end.

Lemma read_raw_quiet actor q w db n : quiet w db -> query_ok (repo_cfg repo) q -> hq_Resolution q = ResolutionRaw ->
  exists n', readRawTelemetryHistory actor q w n = (as_reply (reader_spec actor q db), n').
Proof.
  intros Hw Hq Hr. unfold readRawTelemetryHistory, hbind.
  destruct (read_rows_quiet (rawTelemetryHistoryQuery actor (hq_GatewayID q) (hq_SensorID q)
    (timestamptz (UTC (rng_From (hq_Range q)))) (timestamptz (UTC (rng_To (hq_Range q)))) (int64_add (hq_MaxPoints q) 1))
    raw_head raw_point w db n Hw) as [n' ->]. exists n'.
  match goal with |- context [scan_all ?h ?p ?r ?v] => change (scan_all h p r v) with (raw_vars actor q db) end.
  rewrite raw_vars_spec by done. destruct (query_unit actor q db) as [unit|] eqn:Hu.
  2:{ cbn. unfold reader_spec. by rewrite Hu. }
  rewrite scanned_count. rewrite <- (finish_raw_spec actor q db unit Hq Hr Hu). unfold finish_raw.
  by destruct (hq_MaxPoints q <? _).
Qed.

Lemma read_bucket_quiet actor q dur w db n : quiet w db -> query_ok (repo_cfg repo) q ->
  resolution_ok (hq_Range q) (hq_Resolution q) (hc_RawWindow (repo_cfg repo)) (hq_MaxPoints q) ->
  ResolutionDuration (hq_Resolution q) = Some dur ->
  exists n', readBucketTelemetryHistory actor q dur w n = (as_reply (reader_spec actor q db), n').
Proof.
  intros Hw Hq Hres Hd. unfold readBucketTelemetryHistory, hbind.
  destruct (read_rows_quiet (bucketTelemetryHistoryQuery actor (hq_GatewayID q) (hq_SensorID q) (Microseconds dur)
    (timestamptz (UTC (rng_From (hq_Range q)))) (timestamptz (UTC (rng_To (hq_Range q)))) (int64_add (hq_MaxPoints q) 1))
    bucket_head bucket_point w db n Hw) as [n' ->]. exists n'.
  match goal with |- context [scan_all ?h ?p ?r ?v] => change (scan_all h p r v) with (bucket_vars actor q dur db) end.
  rewrite bucket_vars_spec; [|done|apply duration_bounds in Hd; lia].
  destruct (query_unit actor q db) as [unit|] eqn:Hu.
  2:{ cbn. unfold reader_spec. by rewrite Hu. }
  rewrite scanned_count. rewrite <- (finish_bucket_spec actor q dur db unit Hq Hres Hd Hu). unfold finish_bucket.
  by destruct (hq_MaxPoints q <? _).
Qed.

Lemma repo_read_quiet actor q w db n : quiet w db -> actor <> uuid_Nil -> hq_Resolution q <> ResolutionAuto ->
  check_query (repo_cfg repo) q = None ->
  exists n', repo_read actor q w n = (as_reply (reader_spec actor q db), n').
Proof.
  intros Hw Hact Hauto Hc. rewrite repo_read_checked by done. unfold hbind.
  rewrite (quiet_join_ctx w db) by done. rewrite Hc. unfold read_checked, hbind.
  rewrite (quiet_join_ctx w db) by done. apply check_query_spec in Hc as [Hq Hres]; [|done].
  destruct (decide (hq_Resolution q = ResolutionRaw)) as [Hr|Hr].
  - rewrite bool_decide_true by done. by apply read_raw_quiet.
  - rewrite bool_decide_false by done. destruct (ResolutionDuration (hq_Resolution q)) as [dur|] eqn:Hd.
    + by apply read_bucket_quiet.
    + exfalso. unfold resolution_ok in Hres. destruct (hq_Resolution q); try done; naive_solver.
Qed.

End reader.
