(* ===== verification/HistoryServiceSpec.v ===== *)
(** * The history service answers as specified

    The service deployed by [cmd/server] over the PostgreSQL reader and
    resolver: in a world where nothing fails it computes [history_spec]; in any
    world an answer is the reference answer for tables in which the actor was
    a member, finished before the deadline. *)

From S2P Require Import Prelude GoStrings GoTime GoFloat Uuid Identity Telemetry Txn Store Persist HistoryQuery.
From S2P Require Import HistoryStore ReadWorld History HistoryRepo HistorySpec HistoryReaderSpec.
#[local] Open Scope Z_scope.

Section service.
Context {uuid : Type} `{U : UuidLib uuid} `{SF : SqlFunctions}.
Implicit Types (q : TelemetryHistoryQuery) (db : HistoryDB uuid) (w : World uuid) (cfg : HistoryPreparationConfig).

(** [cmd/server/stage4.go]: one configuration for the reader and the service. *)
Definition Service : Type := TelemetryHistoryService PostgresResolver PostgresHistoryRepository.

Definition history_service cfg : res string Service :=
  let! historyRepo := NewPostgresHistoryRepository true cfg in
  NewTelemetryHistoryService (Some (mkPostgresResolver)) (Some historyRepo) cfg.

Definition deployed cfg : Service :=
  mkHistoryService (Some (mkHistoryPreparation (Some mkPostgresResolver) cfg)) (Some (mkHistoryRepository cfg)) cfg.

Lemma history_service_ok cfg s : history_service cfg = Ok s -> config_ok cfg /\ s = deployed cfg.
Proof.
  unfold history_service, NewPostgresHistoryRepository, NewTelemetryHistoryService, NewHistoryPreparation.
  cbn [negb]. destruct (ValidateHistoryPreparationConfig cfg) eqn:Hc; cbn; [done|].
  intros H. injection H as <-. split; [by apply config_ok_spec|done].
Qed.

(** ** The reference answer of the service *)

Definition short_window cfg q : bool := to_us q - from_us q <=? Microseconds (hc_RawWindow cfg).

Definition bucket_spec (actor : uuid) q db : res HistoryError (TelemetryHistoryResult uuid) :=
  let! r := SelectAutoBucketResolution (rng_From (hq_Range q)) (rng_To (hq_Range q)) (hq_MaxPoints q) in
  reader_spec actor (with_resolution q r) db.

Definition effective_spec cfg (actor : uuid) q db : res HistoryError (TelemetryHistoryResult uuid) :=
  match hq_Resolution q with
  | ResolutionAuto =>
      if short_window cfg q then
        match reader_spec actor (with_resolution q ResolutionRaw) db with
        | Err ErrHistoryRawLimitExceeded => bucket_spec actor q db
        | answer => answer
        end
      else bucket_spec actor q db
  | _ => reader_spec actor q db
  end.

Definition history_spec cfg (actor : uuid) q db : res HistoryError (TelemetryHistoryResult uuid) :=
  if bool_decide (actor = uuid_Nil) then Err ErrHistoryNilActor
  else match check_query cfg q with
  | Some e => Err e
  | None => match query_unit actor q db with
            | None => Err ErrHistoryNotFound
            | Some _ => effective_spec cfg actor q db
            end
  end.

(** The resolutions a query may be answered at. *)
Definition effective cfg q (r : Resolution) : Prop :=
  match hq_Resolution q with
  | ResolutionAuto =>
      (short_window cfg q = true /\ r = ResolutionRaw)
      \/ SelectAutoBucketResolution (rng_From (hq_Range q)) (rng_To (hq_Range q)) (hq_MaxPoints q) = Ok r
  | r' => r = r'
  end.

Lemma select_not_auto from to maxPoints r : SelectAutoBucketResolution from to maxPoints = Ok r ->
  r <> ResolutionAuto.
Proof.
  unfold SelectAutoBucketResolution. intros H. inv_ok H. cbn in H. inv_ok H; subst; done.
Qed.

Lemma short_window_diff cfg q : query_ok cfg q ->
  (int64_sub (ToMicrosecondsSinceEpoch (UTC (rng_To (hq_Range q))))
     (ToMicrosecondsSinceEpoch (UTC (rng_From (hq_Range q)))) <=? Microseconds (hc_RawWindow cfg))
  = short_window cfg q.
Proof. intros Hq. destruct (qo_range _ _ Hq). unfold short_window, to_us, from_us. by rewrite diff_micros. Qed.

Lemma with_resolution_id q : with_resolution q (hq_Resolution q) = q.
Proof. by destruct q. Qed.

Lemma short_raw_accepted cfg q : config_ok cfg -> query_ok cfg q -> short_window cfg q = true ->
  check_query cfg (with_resolution q ResolutionRaw) = None.
Proof.
  intros Hc Hq Hs. apply check_query_spec; [done|]. split; [by apply query_ok_resolution|]. cbn.
  unfold short_window, Microseconds in Hs. apply Z.leb_le in Hs.
  rewrite Z.quot_div_nonneg in Hs by (try lia; apply config_int64, Hc). exact Hs.
Qed.

(** ** Nothing fails *)

Context `{SL : !SqlLaws}.

Lemma read_eq cfg : ReadTelemetryHistory (uuid := uuid) (mkHistoryRepository cfg) true
  = repo_read (mkHistoryRepository cfg).
Proof. done. Qed.

Lemma buckets_quiet cfg actor q w db n : config_ok cfg -> quiet w db -> actor <> uuid_Nil ->
  check_query cfg q = None ->
  exists n', read_buckets (mkHistoryRepository cfg) actor q w n = (as_reply (bucket_spec actor q db), n').
Proof.
  intros Hc Hw Ha Hq. unfold read_buckets, bucket_spec.
  destruct (auto_resolution_exists cfg q Hc Hq) as (r & Hr & Hq'). rewrite Hr. cbn [mbind res_bind].
  rewrite read_eq. apply repo_read_quiet; [done..|by apply select_not_auto in Hr|done].
Qed.

Lemma execute_quiet cfg actor q w db n : config_ok cfg -> quiet w db -> actor <> uuid_Nil ->
  check_query cfg q = None ->
  exists n', executeEffectiveQuery (deployed cfg) (mkHistoryRepository cfg) actor q w n
    = (as_reply (effective_spec cfg actor q db), n').
Proof.
  intros Hc Hw Ha Hq. unfold executeEffectiveQuery, effective_spec, hbind at 1.
  rewrite check_ctx_join, (quiet_join_ctx w db) by done. cbn [hs_cfg deployed].
  destruct (decide (hq_Resolution q = ResolutionAuto)) as [Hr|Hr].
  2:{ rewrite read_eq. destruct (repo_read_quiet (mkHistoryRepository cfg) Hc actor q w db (S n) Hw Ha Hr Hq) as [n' Hn].
      exists n'. destruct (hq_Resolution q); solve [exact Hn|done]. }
  rewrite Hr. pose proof Hq as Hq0. apply check_query_spec in Hq0 as [Hqo _]; [|done].
  rewrite short_window_diff by done. destruct (short_window cfg q) eqn:Hs.
  2:{ by apply buckets_quiet. }
  unfold hbind at 1, htry. rewrite read_eq.
  destruct (repo_read_quiet (mkHistoryRepository cfg) Hc actor (with_resolution q ResolutionRaw) w db (S n))
    as [n' ->]; [done..|by apply short_raw_accepted|].
  destruct (reader_spec _ _ db) as [a|e]; cbn [as_reply]; [by exists n'|].
  cbn [is_history]. destruct (decide (e = ErrHistoryRawLimitExceeded)) as [->|He].
  - rewrite bool_decide_true by done. cbn [negb]. unfold hbind.
    rewrite check_ctx_join, (quiet_join_ctx w db) by done. by apply buckets_quiet.
  - rewrite bool_decide_false by done. cbn [negb]. exists n'. by destruct e.
Qed.

Definition resolved (actor : uuid) q db : res herror (option ResolvedSensor) :=
  match query_unit actor q db with
  | None => Err (HErr ErrHistoryNotFound)
  | Some unit => Ok (Some (mkResolvedSensor (hq_GatewayID q) (hq_SensorID q) unit))
  end.

Lemma resolve_quiet cfg actor q w db n : quiet w db -> actor <> uuid_Nil -> query_ok cfg q ->
  ResolveSensor mkPostgresResolver actor (hq_GatewayID q) (hq_SensorID q) w n = (resolved actor q db, S n).
Proof.
  intros Hw Ha Hq. unfold ResolveSensor, PostgresResolver_SensorResolver, PostgresResolver_ResolveSensor.
  rewrite (bool_decide_false (actor = _)) by done. rewrite (qo_gateway _ _ Hq), (qo_sensor _ _ Hq).
  rewrite !(bool_decide_false (is_Some None)) by (by intros []).
  unfold hbind. rewrite (quiet_db_call _ w db) by done. unfold resolved, resolveSensorQuery, query_unit.
  by destruct (authorized_sensor _ _ _ _).
Qed.

(** C29 Where nothing fails, the deployed service computes exactly the reference
    answer [history_spec]: refusals before any access, not found without
    membership, raw samples, buckets, or for an automatic short window raw
    samples when they fit and buckets otherwise. *)
Theorem GetTelemetryHistory_refines cfg s actor q w db n : history_service cfg = Ok s -> quiet w db ->
  (GetTelemetryHistory s actor q w n).1
  = match history_spec cfg actor q db with Ok r => Ok r | Err e => Err (HErr e) end.
Proof.
  intros Hs Hw. apply history_service_ok in Hs as [Hc ->].
  unfold GetTelemetryHistory, history_spec, PrepareTelemetryHistory. cbn [deployed hs_reader hs_prep hp_resolver hp_cfg].
  destruct (decide (actor = uuid_Nil)) as [Ha|Ha]; [by rewrite bool_decide_true|]. rewrite bool_decide_false by done.
  destruct (check_query cfg q) as [e|] eqn:Hq; [done|]. unfold hbind at 1 2.
  rewrite check_ctx_join, (quiet_join_ctx w db) by done. unfold hbind at 1, htry.
  pose proof Hq as Hq0. apply check_query_spec in Hq0 as [Hqo _]; [|done].
  rewrite (resolve_quiet cfg _ _ _ db) by done. unfold resolved.
  destruct (query_unit actor q db) as [unit|].
  2:{ unfold hbind. by rewrite check_ctx_join, (quiet_join_ctx w db). }
  unfold hbind at 1. rewrite check_ctx_join, (quiet_join_ctx w db) by done.
  unfold run_callback, hbind at 1. rewrite (quiet_scoped _ _ w db) by done.
  destruct (execute_quiet cfg actor q w db (S (S (S n))) Hc Hw Ha Hq) as [n' Hx].
  change (mkHistoryService _ _ cfg) with (deployed cfg). unfold hbind. rewrite Hx.
  destruct (effective_spec cfg actor q db) as [r|e]; cbn [as_reply];
    by rewrite ?check_ctx_join, ?(quiet_join_ctx w db).
Qed.

End service.

(** * History requests in any world

    Whatever fails and whenever the tables change or the context ends: an
    answer is the reference answer for tables in which the actor was a member,
    given before the deadline; and every error is explained by what happened. *)

Section run.
Context {uuid : Type} `{U : UuidLib uuid} `{SF : SqlFunctions} `{SL : !SqlLaws}.
Implicit Types (q : TelemetryHistoryQuery) (db : HistoryDB uuid) (w : World uuid) (cfg : HistoryPreparationConfig).

(** ** Time never goes back *)

Lemma ticks_join : ticks (@join_ctx uuid U).
Proof. unfold join_ctx. tick. Qed.
#[local] Hint Resolve ticks_join : ticks.

Lemma ticks_scan {Row Pt} head (point : Row -> res herror (option Pt)) rows : forall v,
  ticks (range_rows (uuid := uuid) head point rows v).
Proof. induction rows as [|row rows IH]; intros v; cbn [range_rows]; tick. Qed.
#[local] Hint Resolve ticks_scan : ticks.

Lemma ticks_read_rows {Row Pt} query head (point : Row -> res herror (option Pt)) :
  ticks (read_rows (uuid := uuid) query head point).
Proof. unfold read_rows. tick. Qed.
#[local] Hint Resolve ticks_read_rows : ticks.

Lemma ticks_repo_read cfg actor q : ticks (repo_read (uuid := uuid) (mkHistoryRepository cfg) actor q).
Proof.
  unfold repo_read, PostgresHistoryRepository_ReadTelemetryHistory, readRawTelemetryHistory,
    readBucketTelemetryHistory. tick.
Qed.

Lemma ticks_execute cfg actor q :
  ticks (executeEffectiveQuery (deployed cfg) (mkHistoryRepository cfg) actor q).
Proof.
  assert (forall q', ticks (ReadTelemetryHistory (uuid := uuid) (mkHistoryRepository cfg) true actor q')) as Hr
    by (intros q'; rewrite read_eq; apply ticks_repo_read).
  unfold executeEffectiveQuery, read_buckets, check_ctx. tick.
Qed.

(** ** Answers *)

Lemma run_callback_ok {A} (fn : HM uuid A) w n a n' : run_callback fn w n = (Ok a, n') ->
  exists k, fn w n = (Ok a, k) /\ n' = S k /\ alive w n'.
Proof.
  unfold run_callback. intros H. apply hbind_ok in H as (r & k & Hr & H). apply scoped_ok in Hr as (k' & Hf & -> & Ha).
  apply of_res_ok in H as [-> ->]. eauto.
Qed.

Lemma sensor_resolved actor q w n o n' :
  ResolveSensor mkPostgresResolver actor (hq_GatewayID q) (hq_SensorID q) w n = (Ok o, n') ->
  n' = S n /\ is_Some (query_unit actor q (store_at w n)).
Proof.
  unfold ResolveSensor, PostgresResolver_SensorResolver, PostgresResolver_ResolveSensor. intros H.
  do 3 (case_match; [done|]). apply hbind_ok in H as (r & k & Hr & H).
  apply db_call_ok in Hr as [-> Hr]. destruct (reply_at w n); subst r; [done|].
  unfold resolveSensorQuery in H. unfold query_unit.
  destruct (authorized_sensor _ _ _ _); [|done]. injection H as _ <-. done.
Qed.

Lemma buckets_ok cfg actor q w n o n' : config_ok cfg -> actor <> uuid_Nil ->
  read_buckets (mkHistoryRepository cfg) actor q w n = (Ok o, n') ->
  exists r k a, SelectAutoBucketResolution (rng_From (hq_Range q)) (rng_To (hq_Range q)) (hq_MaxPoints q) = Ok r
    /\ (n <= k < n')%nat /\ o = Some a /\ reader_spec actor (with_resolution q r) (store_at w k) = Ok a.
Proof.
  intros Hc Ha H. unfold read_buckets in H. destruct (SelectAutoBucketResolution _ _ _) as [r|e] eqn:Hr; [|done].
  rewrite read_eq in H. apply repo_read_ok in H as (_ & _ & k & a & Hk & -> & Hspec);
    [|done..|by apply select_not_auto in Hr]. eauto 10.
Qed.

Lemma execute_ok cfg actor q w n o n' : config_ok cfg -> actor <> uuid_Nil -> query_ok cfg q ->
  executeEffectiveQuery (deployed cfg) (mkHistoryRepository cfg) actor q w n = (Ok o, n') ->
  exists r k a, effective cfg q r /\ (n < k < n')%nat /\ o = Some a
    /\ reader_spec actor (with_resolution q r) (store_at w k) = Ok a.
Proof.
  intros Hc Ha Hq H. unfold executeEffectiveQuery in H. unfold effective.
  apply hbind_ok in H as (u & k & Hu & H). apply join_ctx_ok in Hu as [-> _].
  destruct (decide (hq_Resolution q = ResolutionAuto)) as [Hr|Hr].
  2:{ assert (repo_read (mkHistoryRepository cfg) actor q w (S n) = (Ok o, n')) as H'
        by (rewrite read_eq in H; destruct (hq_Resolution q); solve [exact H|done]).
      apply repo_read_ok in H' as (_ & _ & k & a & Hk & -> & Hspec); [|done..].
      exists (hq_Resolution q), k, a. rewrite with_resolution_id.
      split; [by destruct (hq_Resolution q)|]. split; [lia|done]. }
  rewrite Hr in *. cbn [deployed hs_cfg] in H. rewrite short_window_diff in H by done.
  destruct (short_window cfg q) eqn:Hs.
  2:{ apply buckets_ok in H as (r & k & a & Hsel & Hk & -> & Hspec); [|done..].
      exists r, k, a. split; [by right|]. split; [lia|done]. }
  apply hbind_ok in H as (r & k & Hraw & H). apply htry_ok in Hraw. rewrite read_eq in Hraw.
  destruct r as [a|e].
  - injection H as <- <-. apply repo_read_ok in Hraw as (_ & _ & k' & a' & Hk & -> & Hspec); [|done..].
    exists ResolutionRaw, k', a'. split; [by left|]. split; [lia|done].
  - destruct (negb _); [done|]. pose proof (ticks_repo_read cfg actor (with_resolution q ResolutionRaw) w (S n)) as Ht.
    rewrite Hraw in Ht. cbn in Ht.
    apply hbind_ok in H as (u' & k' & Hu & H). apply join_ctx_ok in Hu as [-> _].
    apply buckets_ok in H as (r & k' & a & Hsel & Hk & -> & Hspec); [|done..].
    exists r, k', a. split; [by right|]. split; [lia|done].
Qed.

Lemma service_sound cfg s actor q w n a n' : history_service cfg = Ok s ->
  GetTelemetryHistory s actor q w n = (Ok a, n') ->
  actor <> uuid_Nil /\ check_query cfg q = None /\ alive w n'
  /\ exists k1 k2 r, (n <= k1 < k2)%nat /\ (k2 < n')%nat /\ effective cfg q r
       /\ is_Some (query_unit actor q (store_at w k1))
       /\ (actor, hq_GatewayID q) ∈ user_gateways (store_at w k2)
       /\ reader_spec actor (with_resolution q r) (store_at w k2) = Ok a.
Proof.
  intros Hs H. apply history_service_ok in Hs as [Hc ->]. unfold GetTelemetryHistory in H.
  cbn [deployed hs_reader hs_prep] in H. case_bool_decide as Ha; [done|]. split; [done|].
  apply hbind_ok in H as (o & k & Hp & H). destruct o as [a'|]; [|done]. injection H as <- <-.
  unfold PrepareTelemetryHistory in Hp. cbn [hp_resolver hp_cfg] in Hp.
  rewrite bool_decide_false in Hp by done. destruct (check_query cfg q) eqn:Hq; [done|]. split; [done|].
  pose proof Hq as Hq0. apply check_query_spec in Hq0 as [Hqo _]; [|done].
  apply hbind_ok in Hp as (u & k0 & Hu & Hp). apply join_ctx_ok in Hu as [-> _].
  apply hbind_ok in Hp as (r & k1 & Hr & Hp). apply htry_ok in Hr.
  destruct r as [[sensor|]|e]; [|done|].
  2:{ apply hbind_ok in Hp as (? & ? & _ & Hp). done. }
  apply sensor_resolved in Hr as [-> Hu]. apply hbind_ok in Hp as (u' & k1 & Hu' & Hp).
  apply join_ctx_ok in Hu' as [-> _]. apply run_callback_ok in Hp as (k2 & Hf & -> & Hal). split; [done|].
  apply hbind_ok in Hf as (o & k3 & Hx & Hf). apply (execute_ok cfg) in Hx as (r & k4 & b & Heff & Hk & -> & Hspec);
    [|done..]. apply hbind_ok in Hf as (? & k5 & Hc' & Hf). apply join_ctx_ok in Hc' as [-> _].
  injection Hf as <- <-. exists (S n), k4, r. split; [lia|]. split; [lia|]. split; [done|]. split; [done|].
  split; [|done]. unfold reader_spec, query_unit, authorized_sensor in Hspec. cbn in Hspec.
  case_bool_decide; done.
Qed.

(** A request that is answered was an accepted query of a real actor; the
    actor was a member of the Gateway and the Sensor existed when the request
    was authorised and again in the tables the data was read from; the answer
    is the reference answer for those tables at a resolution the query allows,
    and the context had not ended when it was given. *)
Theorem GetTelemetryHistory_sound cfg s actor q w n a n' : history_service cfg = Ok s ->
  GetTelemetryHistory s actor q w n = (Ok a, n') ->
  actor <> uuid_Nil /\ check_query cfg q = None /\ alive w n'
  /\ exists k1 k2 r, (n <= k1 < k2)%nat /\ (k2 < n')%nat /\ effective cfg q r
       /\ is_Some (query_unit actor q (store_at w k1))
       /\ (actor, hq_GatewayID q) ∈ user_gateways (store_at w k2)
       /\ reader_spec actor (with_resolution q r) (store_at w k2) = Ok a.
Proof. exact (service_sound cfg s actor q w n a n'). Qed.

End run.
