(* ===== verification/HistoryErrors.v ===== *)
(** * Every refused history request has a reason

    The error of a request and the HTTP status [httpserver/read_error.go] makes
    of it, explained by what the world did during the request. *)

From S2P Require Import Prelude GoStrings GoTime GoFloat Identity Urn Uuid Telemetry.
From S2P Require Import Txn Store Persist HistoryQuery HistoryStore ReadWorld History HistoryRepo HistorySpec.
From S2P Require Import HistoryReaderSpec HistoryServiceSpec.
#[local] Open Scope Z_scope.

(** [writeReadError]: status and error code.  [ErrMetadataPatchUnavailable]
    wraps [ErrDependencyUnavailable], so its own test adds nothing. *)
Definition writeReadError (err : herror) : Z * string :=
  if is_cause DeadlineExceeded err || is_cause Canceled err || is_twin ErrDependencyUnavailable err
     || is_history ErrHistoryDependency err || is_gateway ErrGatewayProvisioningUnavailable err
     || is_gateway ErrAdminOrOwnerProvisioningUnavailable err || is_gateway ErrAdminLookupFailed err
     || is_gateway ErrInventoryUnavailable err
  then (503, "service_unavailable")
  else match as_query_error err with
  | Some code => (400, code)
  | None =>
    if is_twin ErrNotFound err || is_history ErrHistoryNotFound err || is_gateway ErrGatewayNotFound err
    then (404, "not_found")
    else if is_gateway ErrProvisioningForbidden err then (403, "forbidden")
    else if is_twin ErrInvalidCursor err then (400, "invalid_cursor")
    else if is_twin ErrInvalidProperty err then (400, "invalid_property")
    else if is_twin ErrInconsistentUnit err then (400, "inconsistent_unit")
    else if is_history ErrHistoryRangeTooLarge err then (400, "range_too_large")
    else if is_history ErrHistoryInvalidResolution err then (400, "invalid_resolution")
    else if is_history ErrHistoryRawLimitExceeded err then (400, "raw_limit_exceeded")
    else if is_history ErrHistoryResolutionTooFine err then (400, "resolution_too_fine")
    else if is_twin ErrInvalidInput err || is_history ErrHistoryInvalidInput err then (400, "invalid_request")
    else (500, "internal_error")
  end.

Section errors.
Context {uuid : Type} `{U : UuidLib uuid} `{SF : SqlFunctions} `{SL : !SqlLaws}.
Implicit Types (q : TelemetryHistoryQuery) (db : HistoryDB uuid) (w : World uuid) (cfg : HistoryPreparationConfig).

(** The driver reports none of the program's own errors, and [ErrNoRows] only
    for a query without rows. *)
Definition foreign (e : herror) : Prop :=
  (forall h, is_history h e = false) /\ (forall t, is_twin t e = false) /\ (forall g, is_gateway g e = false)
  /\ as_query_error e = None.

Definition driver_ok w : Prop := forall k e, reply_at w k = Some e ->
  foreign e /\ is_cause ErrNoRows e = false.

(** The context ended, or the driver reported an error: unavailable, or
    unexpected with the driver's error. *)
Inductive excuse w (lo hi : nat) (e : herror) : Prop :=
| excuse_ctx : is_history ErrHistoryDependency e = true -> ~ alive w hi -> excuse w lo hi e
| excuse_driver k err : (lo <= k < hi)%nat -> reply_at w k = Some err ->
    is_history ErrHistoryDependency e = true
    \/ (e = HJoin (HErr ErrHistoryUnexpected) err /\ is_ctx_error err = false) -> excuse w lo hi e.

(** Or the Sensor was not visible to the actor, or it had too many samples. *)
Inductive explained w (actor : uuid) q (lo hi : nat) (e : herror) : Prop :=
| explained_excuse : excuse w lo hi e -> explained w actor q lo hi e
| explained_hidden k : e = HErr ErrHistoryNotFound -> (lo <= k < hi)%nat ->
    query_unit actor q (store_at w k) = None -> explained w actor q lo hi e
| explained_too_many k : e = HErr ErrHistoryRawLimitExceeded -> (lo <= k < hi)%nat ->
    hq_Resolution q = ResolutionRaw ->
    hq_MaxPoints q < Z.of_nat (length (query_samples q (store_at w k))) -> explained w actor q lo hi e.

Lemma excuse_mono w lo hi lo' hi' e : (lo' <= lo)%nat -> (hi <= hi')%nat -> excuse w lo hi e -> excuse w lo' hi' e.
Proof.
  intros Hl Hh [He Ha|k err Hk Hr He].
  - apply excuse_ctx; [done|]. intros Ha'. by apply Ha, (alive_mono _ _ hi').
  - apply (excuse_driver _ _ _ _ k err); [lia|done..].
Qed.

Lemma explained_mono w actor q lo hi lo' hi' e : (lo' <= lo)%nat -> (hi <= hi')%nat ->
  explained w actor q lo hi e -> explained w actor q lo' hi' e.
Proof.
  intros Hl Hh [He|k He Hk Hu|k He Hk Hr Hm].
  - by apply explained_excuse, (excuse_mono _ lo hi).
  - apply (explained_hidden _ _ _ _ _ _ k); [done|lia|done].
  - apply (explained_too_many _ _ _ _ _ _ k); [done|lia|done..].
Qed.

(** ** Errors of the steps *)

Lemma join_ctx_err w lo n e n' : (lo <= n)%nat -> join_ctx w n = (Err e, n') -> n' = S n /\ excuse w lo n' e.
Proof.
  intros Hlo H. apply ensure_ctx_err in H as (-> & Ha & c & ->). split; [done|]. by apply excuse_ctx.
Qed.

Lemma classifyHistoryError_spec err : is_history ErrHistoryDependency (classifyHistoryError err) = true
  \/ (classifyHistoryError err = HJoin (HErr ErrHistoryUnexpected) err /\ is_ctx_error err = false).
Proof.
  unfold classifyHistoryError. destruct (is_ctx_error err) eqn:E; [by left|].
  destruct (is_history _ (ClassifyPostgresAvailabilityError _ _)) eqn:Hc; [by left|by right].
Qed.

Lemma classified_excuse w lo hi k err : (lo <= k < hi)%nat -> reply_at w k = Some err ->
  excuse w lo hi (classifyHistoryError err).
Proof. intros Hk Hr. apply (excuse_driver _ _ _ _ k err); [done..|]. apply classifyHistoryError_spec. Qed.

Lemma range_rows_fails {Row Pt} head (point : Row -> res herror (option Pt)) rows : forall v w n r n' v1,
  range_rows (uuid := uuid) head point rows v w n = (r, n') -> scan_all head point rows v = Ok v1 ->
  (n < n')%nat /\
  match r with
  | Ok (_, Some err) => exists k, (n <= k < n')%nat /\ reply_at w k = Some err
  | Ok (v', None) => v' = v1
  | Err e => excuse w n n' e
  end.
Proof.
  induction rows as [|row rows IH]; intros v w n r n' v1 H Hs; cbn [range_rows scan_all] in *.
  - unfold hbind, db_call in H. destruct (reply_at w n) as [err|] eqn:Hr; cbn in H; injection H as <- <-.
    + split; [lia|]. exists n. split; [lia|done].
    + split; [lia|]. by injection Hs.
  - unfold hbind at 1, db_call at 1 in H. destruct (reply_at w n) as [err|] eqn:Hr.
    { cbn in H. injection H as <- <-. split; [lia|]. exists n. split; [lia|done]. }
    unfold hbind at 1 in H. destruct (join_ctx w (S n)) as [[u|e] k] eqn:Hj.
    2:{ injection H as <- <-. apply (join_ctx_err _ n) in Hj as [-> Hx]; [|lia]. split; [lia|done]. }
    apply join_ctx_ok in Hj as [-> _]. unfold hbind at 1, db_call at 1 in H.
    destruct (reply_at w (S (S n))) as [err|] eqn:Hr'.
    { cbn in H. injection H as <- <-. split; [lia|]. apply (classified_excuse _ _ _ (S (S n))); [lia|done]. }
    unfold hbind, of_res in H. destruct (point row) as [pt|e]; [|done]. cbn in Hs.
    apply (IH _ _ _ _ _ v1) in H as [Hn H]; [|done]. split; [lia|].
    destruct r as [[v' [err|]]|e]; [|done|].
    + destruct H as (k & Hk & H). exists k. split; [lia|done].
    + by apply (excuse_mono _ (S (S (S n))) n'); [lia..|].
Qed.

Lemma read_rows_err {Row Pt} query head (point : Row -> res herror (option Pt)) w n e n' v :
  read_rows query head point w n = (Err e, n') ->
  scan_all head point (query (store_at w n)) start_vars = Ok v ->
  (n < n')%nat /\ (excuse w n n' e \/ (e = HErr ErrHistoryNotFound /\ lv_rowCount v = 0)).
Proof.
  intros H Hs. unfold read_rows in H. unfold hbind at 1, db_call at 1 in H.
  destruct (reply_at w n) as [err|] eqn:Hr.
  { injection H as <- <-. split; [lia|]. left. apply (classified_excuse _ _ _ n); [lia|done]. }
  apply hbind_err in H as [H|(u & k & Hu & H)].
  { apply (join_ctx_err _ n) in H as [-> H]; [|lia]. split; [lia|by left]. }
  apply join_ctx_ok in Hu as [-> _].
  apply hbind_err in H as [H|([v1 o] & k & Hv & H)].
  { eapply range_rows_fails in H as [Hn H]; [|exact Hs]. split; [lia|]. left. by apply (excuse_mono _ (S (S n)) n'); [lia..|]. }
  eapply range_rows_fails in Hv as [Hn Hv]; [|exact Hs]. destruct o as [err|].
  { injection H as <- <-. destruct Hv as (k' & Hk & Hr'). split; [lia|]. left.
    apply (classified_excuse _ _ _ k'); [lia|done]. }
  subst v1. apply hbind_err in H as [H|(u' & k' & Hu & H)].
  { apply (join_ctx_err _ n) in H as [-> H]; [|lia]. split; [lia|by left]. }
  apply join_ctx_ok in Hu as [-> _]. destruct (lv_rowCount v =? 0) eqn:E; [|done].
  injection H as <- <-. split; [lia|]. right. split; [done|by apply Z.eqb_eq].
Qed.

(** ** Errors of the reader and the resolver *)

Lemma read_raw_err cfg actor q w n e n' : config_ok cfg -> query_ok cfg q -> hq_Resolution q = ResolutionRaw ->
  readRawTelemetryHistory actor q w n = (Err e, n') -> (n < n')%nat /\ explained w actor q n n' e.
Proof.
  intros Hc Hq Hr H. unfold readRawTelemetryHistory in H.
  pose proof (raw_vars_spec (mkHistoryRepository cfg) Hc actor q (store_at w n) Hq) as Hv.
  apply hbind_err in H as [H|(v & k & Hv' & H)].
  - eapply read_rows_err in H as [Hn H]; [|exact Hv]. split; [done|].
    destruct H as [H|[-> H]]; [by apply explained_excuse|].
    apply (explained_hidden _ _ _ _ _ _ n); [done|lia|].
    destruct (query_unit actor q (store_at w n)); [|done]. apply Z.eqb_eq in H. by rewrite scanned_count in H.
  - apply read_rows_ok in Hv' as (Hn & _ & Hs & Hc'). split.
    { destruct (hq_MaxPoints q <? _); [|done]. by injection H as _ <-. }
    change (raw_vars actor q (store_at w n) = Ok v) in Hs. rewrite Hv in Hs. injection Hs as Hs.
    destruct (query_unit actor q (store_at w n)) as [unit|]; [|by subst v].
    destruct (limit_exact (mkHistoryRepository cfg) Hc q Hq) as [_ Hp].
    destruct (hq_MaxPoints q <? Z.of_nat (length (lv_points v))) eqn:E; [|done]. injection H as <- <-.
    apply (explained_too_many _ _ _ _ _ _ n); [done|lia|done|].
    subst v. rewrite scanned_too_many in E by lia. rewrite query_rows_length in E. by apply Z.ltb_lt.
Qed.

Lemma read_bucket_err cfg actor q dur w n e n' : config_ok cfg -> query_ok cfg q ->
  resolution_ok (hq_Range q) (hq_Resolution q) (hc_RawWindow cfg) (hq_MaxPoints q) ->
  ResolutionDuration (hq_Resolution q) = Some dur ->
  readBucketTelemetryHistory actor q dur w n = (Err e, n') -> (n < n')%nat /\ explained w actor q n n' e.
Proof.
  intros Hc Hq Hres Hd H. unfold readBucketTelemetryHistory in H.
  assert (0 <= dur) as Hd0 by (apply duration_bounds in Hd; lia).
  pose proof (bucket_vars_spec (mkHistoryRepository cfg) Hc actor q dur (store_at w n) Hq Hd0) as Hv.
  apply hbind_err in H as [H|(v & k & Hv' & H)].
  - eapply read_rows_err in H as [Hn H]; [|exact Hv]. split; [done|].
    destruct H as [H|[-> H]]; [by apply explained_excuse|].
    apply (explained_hidden _ _ _ _ _ _ n); [done|lia|].
    destruct (query_unit actor q (store_at w n)); [|done]. apply Z.eqb_eq in H. by rewrite scanned_count in H.
  - apply read_rows_ok in Hv' as (Hn & _ & Hs & Hc').
    change (bucket_vars actor q dur (store_at w n) = Ok v) in Hs. rewrite Hv in Hs. injection Hs as Hs.
    destruct (query_unit actor q (store_at w n)) as [unit|]; [|by subst v].
    destruct (limit_exact (mkHistoryRepository cfg) Hc q Hq) as [_ Hp].
    pose proof (query_buckets_fit (mkHistoryRepository cfg) q dur (store_at w n) Hq Hres Hd) as Hfit.
    exfalso. subst v. rewrite scanned_too_many in H by lia. by rewrite (proj2 (Z.ltb_ge _ _)) in H.
Qed.

Lemma repo_read_err cfg actor q w n e n' : config_ok cfg -> actor <> uuid_Nil ->
  hq_Resolution q <> ResolutionAuto -> check_query cfg q = None ->
  repo_read (mkHistoryRepository cfg) actor q w n = (Err e, n') -> explained w actor q n n' e.
Proof.
  intros Hc Ha Hauto Hq H. rewrite repo_read_checked in H by done.
  apply hbind_err in H as [H|(u & k & Hu & H)].
  { apply (join_ctx_err _ n) in H as [-> H]; [|lia]. by apply explained_excuse. }
  apply join_ctx_ok in Hu as [-> _]. cbn [repo_cfg] in H. rewrite Hq in H. unfold read_checked in H.
  apply hbind_err in H as [H|(u' & k & Hu & H)].
  { apply (join_ctx_err _ n) in H as [-> H]; [|lia]. by apply explained_excuse. }
  apply join_ctx_ok in Hu as [-> _]. apply check_query_spec in Hq as [Hqo Hres]; [|done].
  destruct (decide (hq_Resolution q = ResolutionRaw)) as [Hr|Hr].
  - rewrite bool_decide_true in H by done. apply (read_raw_err cfg) in H as [Hn H]; [|done..].
    by apply (explained_mono _ _ _ (S (S n)) n'); [lia..|].
  - rewrite bool_decide_false in H by done. destruct (ResolutionDuration (hq_Resolution q)) as [dur|] eqn:Hd.
    + apply (read_bucket_err cfg _ _ dur) in H as [Hn H]; [|done..].
      by apply (explained_mono _ _ _ (S (S n)) n'); [lia..|].
    + exfalso. unfold resolution_ok in Hres. destruct (hq_Resolution q); try done; naive_solver.
Qed.

Lemma classifyResolverError_driver err : is_cause ErrNoRows err = false ->
  let e := classifyResolverError err (HErr ErrHistoryNotFound) (HErr ErrHistoryDependency) (HErr ErrHistoryUnexpected) in
  is_history ErrHistoryDependency e = true
  \/ (e = HJoin (HErr ErrHistoryUnexpected) err /\ is_ctx_error err = false).
Proof.
  intros Hn. unfold classifyResolverError. rewrite Hn. destruct (is_ctx_error err) eqn:E; [by left|].
  cbn [errors_Is]. destruct (is_history _ (ClassifyPostgresAvailabilityError _ _)) eqn:Hc; [by left|by right].
Qed.

Lemma sensor_unresolved cfg actor q w n r n' : driver_ok w -> actor <> uuid_Nil -> query_ok cfg q ->
  ResolveSensor mkPostgresResolver actor (hq_GatewayID q) (hq_SensorID q) w n = (r, n') ->
  n' = S n /\ match r with
               | Ok o => is_Some o
               | Err e => explained w actor q n n' e
               end.
Proof.
  intros Hw Ha Hq. unfold ResolveSensor, PostgresResolver_SensorResolver, PostgresResolver_ResolveSensor.
  rewrite (bool_decide_false (actor = _)) by done. rewrite (qo_gateway _ _ Hq), (qo_sensor _ _ Hq).
  rewrite !(bool_decide_false (is_Some None)) by (by intros []).
  unfold hbind, db_call. destruct (reply_at w n) as [err|] eqn:Hr.
  - intros H. injection H as <- <-. split; [done|]. apply explained_excuse.
    apply (excuse_driver _ _ _ _ n err); [lia|done|]. apply classifyResolverError_driver. by apply (Hw n).
  - unfold resolveSensorQuery. destruct (authorized_sensor _ _ _ _) as [unit|] eqn:Hu; cbn; intros H;
      injection H as <- <-; [done|]. split; [done|].
    apply (explained_hidden _ _ _ _ _ _ n); [done|lia|exact Hu].
Qed.

(** ** Errors of the service *)

Lemma select_bucket from to maxPoints r : SelectAutoBucketResolution from to maxPoints = Ok r ->
  r <> ResolutionAuto /\ r <> ResolutionRaw.
Proof. unfold SelectAutoBucketResolution. intros H. inv_ok H. cbn in H. inv_ok H; subst; done. Qed.

(** An explanation that is not about the number of samples does not depend on
    the resolution. *)
Lemma explained_any w actor q r lo hi e : r <> ResolutionRaw \/ is_history ErrHistoryRawLimitExceeded e = false ->
  explained w actor (with_resolution q r) lo hi e -> explained w actor q lo hi e.
Proof.
  intros Hr [He|k He Hk Hu|k -> Hk Hraw Hm].
  - by apply explained_excuse.
  - by apply (explained_hidden _ _ _ _ _ _ k).
  - destruct Hr as [Hr|Hr]; [by cbn in Hraw|done].
Qed.

Lemma buckets_err cfg actor q w n e n' : config_ok cfg -> actor <> uuid_Nil -> check_query cfg q = None ->
  read_buckets (mkHistoryRepository cfg) actor q w n = (Err e, n') -> explained w actor q n n' e.
Proof.
  intros Hc Ha Hq H. unfold read_buckets in H.
  destruct (auto_resolution_exists cfg q Hc Hq) as (r & Hr & Hq'). rewrite Hr, read_eq in H.
  apply select_bucket in Hr as [Hr Hraw]. apply (explained_any _ _ _ r); [by left|].
  by apply (repo_read_err cfg).
Qed.

Lemma execute_err cfg actor q w n e n' : config_ok cfg -> actor <> uuid_Nil -> check_query cfg q = None ->
  executeEffectiveQuery (deployed cfg) (mkHistoryRepository cfg) actor q w n = (Err e, n') ->
  explained w actor q n n' e.
Proof.
  intros Hc Ha Hq H. unfold executeEffectiveQuery in H.
  apply hbind_err in H as [H|(u & k & Hu & H)].
  { rewrite check_ctx_join in H. apply (join_ctx_err _ n) in H as [-> H]; [|lia]. by apply explained_excuse. }
  rewrite check_ctx_join in Hu. apply join_ctx_ok in Hu as [-> _].
  apply (explained_mono _ _ _ (S n) n'); [lia..|].
  destruct (decide (hq_Resolution q = ResolutionAuto)) as [Hr|Hr].
  2:{ assert (repo_read (mkHistoryRepository cfg) actor q w (S n) = (Err e, n')) as H'
        by (rewrite read_eq in H; destruct (hq_Resolution q); solve [exact H|done]).
      by apply (repo_read_err cfg) in H'. }
  rewrite Hr in H. cbn [deployed hs_cfg] in H. pose proof Hq as Hq0.
  apply check_query_spec in Hq0 as [Hqo _]; [|done]. rewrite short_window_diff in H by done.
  destruct (short_window cfg q) eqn:Hs; [|by apply buckets_err in H].
  apply hbind_err in H as [H|(r & k & Hraw & H)]; [by apply htry_not_err in H|].
  apply htry_ok in Hraw. rewrite read_eq in Hraw. destruct r as [a|e']; [done|].
  pose proof (ticks_repo_read cfg actor (with_resolution q ResolutionRaw) w (S n)) as Ht.
  rewrite Hraw in Ht. cbn in Ht.
  apply (repo_read_err cfg) in Hraw; [|done..|by apply short_raw_accepted].
  destruct (is_history ErrHistoryRawLimitExceeded e') eqn:He; cbn [negb] in H.
  - apply hbind_err in H as [H|(u' & k' & Hu & H)].
    { rewrite check_ctx_join in H. apply (join_ctx_err _ (S n)) in H as [-> H]; [|lia]. by apply explained_excuse. }
    rewrite check_ctx_join in Hu. apply join_ctx_ok in Hu as [-> _]. apply buckets_err in H; [|done..].
    by apply (explained_mono _ _ _ (S k) n'); [lia..|].
  - injection H as -> <-. by apply (explained_any _ _ _ ResolutionRaw); [right|].
Qed.

Lemma run_callback_err {A} (fn : HM uuid A) w n e n' : run_callback fn w n = (Err e, n') ->
  exists r k, fn w n = (r, k) /\ n' = S k
    /\ ((r = Err e /\ alive w n') \/ (is_history ErrHistoryDependency e = true /\ ~ alive w n')).
Proof.
  unfold run_callback. intros H. apply hbind_err in H as [H|(r & k & Hr & H)].
  - apply scoped_err in H as (Ha & r & k & e' & Hf & -> & ->). exists r, k. split; [done|]. split; [done|by right].
  - apply scoped_ok in Hr as (k' & Hf & -> & Ha). apply of_res_err in H as [-> ->]. eauto 10.
Qed.

(** The error of the context checks of the service. *)
Lemma check_ctx_err w lo n e n' : (lo <= n)%nat -> check_ctx w n = (Err e, n') ->
  n' = S n /\ excuse w lo n' e /\ is_history ErrHistoryDependency e = true.
Proof.
  intros Hlo H. apply ensure_ctx_err in H as (-> & Ha & c & ->). split; [done|]. split; [by apply excuse_ctx|done].
Qed.

(** The request after the checks of the actor and the query. *)
Lemma GetTelemetryHistory_err cfg actor q w n e n' : config_ok cfg -> driver_ok w -> actor <> uuid_Nil ->
  check_query cfg q = None -> GetTelemetryHistory (deployed cfg) actor q w n = (Err e, n') ->
  explained w actor q n n' e /\ (alive w n' \/ is_history ErrHistoryDependency e = true).
Proof.
  intros Hc Hw Ha Hq H. unfold GetTelemetryHistory in H. cbn [deployed hs_reader hs_prep] in H.
  rewrite bool_decide_false in H by done. pose proof Hq as Hq0. apply check_query_spec in Hq0 as [Hqo _]; [|done].
  apply hbind_err in H as [H|(o & k & Hp & H)].
  2:{ exfalso. unfold PrepareTelemetryHistory in Hp. cbn [hp_resolver hp_cfg] in Hp.
      rewrite bool_decide_false, Hq in Hp by done. apply hbind_ok in Hp as (? & ? & _ & Hp).
      apply hbind_ok in Hp as (r & k1 & _ & Hp). destruct r as [[sensor|]|e']; [|done|].
      2:{ by apply hbind_ok in Hp as (? & ? & _ & Hp). }
      apply hbind_ok in Hp as (? & ? & _ & Hp). apply run_callback_ok in Hp as (k2 & Hf & _).
      apply hbind_ok in Hf as (o' & k3 & Hx & Hf). apply (execute_ok cfg) in Hx as (? & ? & ? & _ & _ & -> & _); [|done..].
      apply hbind_ok in Hf as (? & ? & _ & Hf). injection Hf as <- _. done. }
  unfold PrepareTelemetryHistory in H. cbn [hp_resolver hp_cfg] in H. rewrite bool_decide_false, Hq in H by done.
  apply hbind_err in H as [H|(u & k & Hu & H)].
  { apply (check_ctx_err _ n) in H as (-> & H & Hd); [|lia]. split; [by apply explained_excuse|by right]. }
  rewrite check_ctx_join in Hu. apply join_ctx_ok in Hu as [-> _].
  apply hbind_err in H as [H|(r & k & Hr & H)]; [by apply htry_not_err in H|]. apply htry_ok in Hr.
  apply (sensor_unresolved cfg) in Hr as [-> Hr]; [|done..]. destruct r as [[sensor|]|e'].
  - apply hbind_err in H as [H|(u' & k & Hu & H)].
    { apply (check_ctx_err _ n) in H as (-> & H & Hd); [|lia]. split; [by apply explained_excuse|by right]. }
    rewrite check_ctx_join in Hu. apply join_ctx_ok in Hu as [-> _].
    apply run_callback_err in H as (r & k & Hf & -> & [[-> Hal]|[Hd Hal]]).
    2:{ split; [by apply explained_excuse, excuse_ctx|by right]. }
    split; [|by left]. apply hbind_err in Hf as [Hf|(o & k' & Hx & Hf)].
    + apply (execute_err cfg) in Hf; [|done..]. by apply (explained_mono _ _ _ (S (S (S n))) k); [lia..|].
    + pose proof (ticks_execute cfg actor q w (S (S (S n)))) as Ht. rewrite Hx in Ht. cbn in Ht.
      apply hbind_err in Hf as [Hf|(u1 & k'' & _ & Hf)]; [|done].
      apply (check_ctx_err _ n) in Hf as (-> & Hf & _); [|lia].
      by apply explained_excuse, (excuse_mono _ n (S k')); [lia..|].
  - by destruct Hr.
  - apply hbind_err in H as [H|(u' & k & Hu & H)].
    { apply (check_ctx_err _ n) in H as (-> & H & Hd); [|lia]. split; [by apply explained_excuse|by right]. }
    rewrite check_ctx_join in Hu. apply join_ctx_ok in Hu as [-> Hal]. injection H as -> <-.
    split; [|by left]. by apply (explained_mono _ _ _ (S n) (S (S n))); [lia..|].
Qed.

Lemma explained_status w actor q lo hi e : driver_ok w -> explained w actor q lo hi e ->
  match (writeReadError e).1 with
  | 503 => ~ alive w hi \/ exists k err, (lo <= k < hi)%nat /\ reply_at w k = Some err
  | 404 => exists k, (lo <= k < hi)%nat /\ query_unit actor q (store_at w k) = None
  | 400 => hq_Resolution q = ResolutionRaw /\ exists k, (lo <= k < hi)%nat
           /\ hq_MaxPoints q < Z.of_nat (length (query_samples q (store_at w k)))
  | 500 => exists k err, (lo <= k < hi)%nat /\ reply_at w k = Some err
  | _ => False
  end.
Proof.
  intros Hw [[Hd Ha|k err Hk Hr [Hd|[-> Hc]]]|k -> Hk Hu|k -> Hk Hraw Hm]; unfold writeReadError.
  - rewrite Hd, !orb_true_r. by left.
  - rewrite Hd, !orb_true_r. right. by exists k, err.
  - destruct (Hw k err Hr) as [(Hs & Ht & Hg & Hq) _]. unfold is_ctx_error in Hc. apply orb_false_iff in Hc as [Hc1 Hc2].
    cbn. rewrite Hc1, Hc2, !Hs, !Ht, !Hg, Hq. cbn. by exists k, err.
  - cbn. by exists k.
  - cbn. split; [done|]. by exists k.
Qed.

Lemma check_query_status cfg q e : check_query cfg q = Some e -> (writeReadError (HErr e)).1 = 400.
Proof.
  unfold check_query, ValidateHistoryTimeRange. intros H.
  repeat (case_match; try (injection H as <-; reflexivity); try discriminate H).
Qed.

(** C33 The HTTP status of a refused request tells the truth: 503 only when the
    context ended or the driver failed, and always when an accepted query ran
    out of time; 404 only when the tables showed no Sensor the actor may read;
    400 only for a query outside its bounds or a raw range with more samples
    than asked for; 500 only for a driver error or a nil actor. *)
Theorem history_status cfg s actor q w n e n' : history_service cfg = Ok s -> driver_ok w ->
  GetTelemetryHistory s actor q w n = (Err e, n') ->
  (actor <> uuid_Nil -> check_query cfg q = None -> ~ alive w n' -> (writeReadError e).1 = 503) /\
  match (writeReadError e).1 with
  | 503 => ~ alive w n' \/ exists k err, (n <= k < n')%nat /\ reply_at w k = Some err
  | 404 => exists k, (n <= k < n')%nat /\ query_unit actor q (store_at w k) = None
  | 400 => is_Some (check_query cfg q) \/ hq_Resolution q = ResolutionRaw /\ exists k, (n <= k < n')%nat
           /\ hq_MaxPoints q < Z.of_nat (length (query_samples q (store_at w k)))
  | 500 => actor = uuid_Nil \/ exists k err, (n <= k < n')%nat /\ reply_at w k = Some err
  | _ => False
  end.
Proof.
  intros Hs Hw H. apply history_service_ok in Hs as [Hc ->].
  destruct (decide (actor = uuid_Nil)) as [Ha|Ha].
  { unfold GetTelemetryHistory in H. cbn [deployed hs_reader hs_prep] in H. rewrite bool_decide_true in H by done.
    injection H as <- <-. cbn. split; [done|by left]. }
  destruct (check_query cfg q) as [h|] eqn:Hq.
  { unfold GetTelemetryHistory, PrepareTelemetryHistory in H.
    cbn [deployed hs_reader hs_prep hp_resolver hp_cfg] in H. rewrite !bool_decide_false in H by done.
    rewrite Hq in H. injection H as <- <-. rewrite (check_query_status cfg q) by done. split; [done|by left]. }
  apply GetTelemetryHistory_err in H as [Hx Hal]; [|done..]. split.
  { intros _ _ Hn. destruct Hal as [Hal|Hd]; [done|]. unfold writeReadError. by rewrite Hd, !orb_true_r. }
  apply explained_status in Hx; [|done].
  repeat (case_match; try done); try (by right); naive_solver.
Qed.

End errors.
