(* ===== verification/HistoryData.v ===== *)
(** * What an answer contains

    A raw answer lists every sample of the range once, in order of time; a
    bucket answer accounts for every sample of the range in exactly one
    bucket; a persisted sample shows up in every later answer whose range
    holds it. *)

From stdpp Require Import sorting.
From S2P Require Import Prelude GoStrings GoTime GoFloat Identity Uuid Telemetry.
From S2P Require Import Validation Message Txn Store Persist PersistSpec.
From S2P Require Import HistoryQuery HistoryStore ReadWorld History HistoryRepo HistorySpec.
From S2P Require Import HistoryReaderSpec HistoryServiceSpec.
#[local] Open Scope Z_scope.

(** ** Grouping *)

(** The sizes of the groups of a list by a key add up to its length. *)
Lemma list_sum_groups {A} (f : A -> Z) (ks : list Z) (l : list A) : NoDup ks ->
  (forall x, x ∈ l -> f x ∈ ks) ->
  list_sum (fun k => Z.of_nat (length (filter (fun x => f x = k) l))) ks = Z.of_nat (length l).
Proof.
  intros Hnd. induction l as [|x l IH]; intros Hin.
  - induction ks as [|k ks IHk]; [done|]. apply list.NoDup_cons in Hnd as [_ Hnd].
    rewrite list_sum_cons, IHk; [done|done|]. intros y Hy. by apply not_elem_of_nil in Hy.
  - assert (list_sum (fun k => Z.of_nat (length (filter (fun x => f x = k) (x :: l)))) ks
      = list_sum (fun k => Z.of_nat (length (filter (fun x => f x = k) l))) ks
        + list_sum (fun k => if decide (f x = k) then 1 else 0) ks) as ->.
    { clear. induction ks as [|k ks IHk]; [done|]. rewrite !list_sum_cons, IHk, filter_cons.
      destruct (decide (f x = k)); cbn [length]; lia. }
    rewrite IH by (intros y Hy; apply Hin; by right).
    assert (list_sum (fun k => if decide (f x = k) then 1 else 0) ks = 1) as ->; [|cbn [length]; lia].
    assert (f x ∈ ks) as Hx by (apply Hin; by left). clear IH Hin.
    induction ks as [|k ks IHk]; [by apply not_elem_of_nil in Hx|].
    apply list.NoDup_cons in Hnd as [Hk Hnd]. rewrite list_sum_cons. apply elem_of_cons in Hx as [->|Hx].
    + rewrite decide_True by done.
      assert (forall ks', k ∉ ks' -> list_sum (fun k0 => if decide (k = k0) then 1 else 0) ks' = 0) as Hz.
      { clear. induction ks' as [|k' ks' IH]; [done|]. rewrite not_elem_of_cons. intros [Hne Hk].
        rewrite list_sum_cons, decide_False by done. by rewrite IH. }
      by rewrite Hz.
    + rewrite decide_False by (intros E; by rewrite E in Hx). by rewrite IHk.
Qed.

Section data.
Context {uuid : Type} `{U : UuidLib uuid} `{SF : SqlFunctions} `{SL : !SqlLaws}.
Implicit Types (q : TelemetryHistoryQuery) (db : HistoryDB uuid) (w : World uuid) (cfg : HistoryPreparationConfig).

#[local] Instance row_le_total : Total (row_le (uuid := uuid)).
Proof. intros r1 r2. unfold row_le. lia. Qed.

#[local] Instance row_le_trans : Transitive (row_le (uuid := uuid)).
Proof. intros r1 r2 r3. unfold row_le. lia. Qed.

Lemma raw_answer_shape actor q db : hq_Resolution q = ResolutionRaw ->
  match reader_spec actor q db with
  | Ok a => exists rows, rows ≡ₚ query_samples q db /\ StronglySorted row_le rows
      /\ hr_RawPoints a = raw_sample <$> rows /\ hr_PointCount a = Z.of_nat (length rows)
      /\ hr_PointCount a <= hq_MaxPoints q /\ hr_BucketPoints a = []
  | Err ErrHistoryRawLimitExceeded => hq_MaxPoints q < Z.of_nat (length (query_samples q db))
  | Err e => e = ErrHistoryNotFound /\ query_unit actor q db = None
  end.
Proof.
  intros Hr. unfold reader_spec. destruct (query_unit actor q db) as [unit|]; [|done]. rewrite Hr.
  destruct (Z.ltb_spec (hq_MaxPoints q) (Z.of_nat (length (query_samples q db)))) as [|Hle]; [done|].
  exists (query_rows q db). split; [apply merge_sort_Permutation|].
  split; [apply StronglySorted_merge_sort; apply _|]. split; [done|].
  cbn [hr_PointCount hr_BucketPoints raw_answer]. rewrite length_fmap, query_rows_length. done.
Qed.

(** A raw answer is exactly the samples of the Sensor measured in the range,
    each once, ordered by time and then by sample identifier, at most as many
    as asked for; when there are more the reader refuses instead of
    truncating. *)
Theorem raw_answer_complete actor q db : hq_Resolution q = ResolutionRaw ->
  match reader_spec actor q db with
  | Ok a => exists rows, rows ≡ₚ query_samples q db /\ StronglySorted row_le rows
      /\ hr_RawPoints a = raw_sample <$> rows /\ hr_PointCount a = Z.of_nat (length rows)
      /\ hr_PointCount a <= hq_MaxPoints q /\ hr_BucketPoints a = []
  | Err ErrHistoryRawLimitExceeded => hq_MaxPoints q < Z.of_nat (length (query_samples q db))
  | Err e => e = ErrHistoryNotFound /\ query_unit actor q db = None
  end.
Proof. exact (raw_answer_shape actor q db). Qed.

(** ** Buckets *)

(** The bucket of width [width] that starts at [bp_BucketStart] holds the instant. *)
Definition holds (width us : Z) (b : BucketSamplePoint) : Prop :=
  micros (bp_BucketStart b) <= us < micros (bp_BucketStart b) + width.

Lemma micros_of_tz us : micros (time_of_tz us) = us.
Proof. unfold micros, time_of_tz. cbn. by rewrite Z.div_mul. Qed.

Lemma bucket_starts_sorted width (rows : list (TelemetryRow uuid)) : StronglySorted Z.lt (bucket_starts width rows).
Proof.
  assert (StronglySorted Z.le (bucket_starts width rows)) as Hs by (apply StronglySorted_merge_sort; apply _).
  pose proof (bucket_starts_NoDup width rows) as Hnd.
  induction Hs as [|x l _ IH Hx]; [constructor|]. apply list.NoDup_cons in Hnd as [Hn Hnd].
  constructor; [by apply IH|]. apply list.Forall_forall. intros y Hy.
  rewrite list.Forall_forall in Hx. specialize (Hx y Hy). assert (x <> y) by (by intros ->). lia.
Qed.

Lemma bucket_holds_eq width (rows : list (TelemetryRow uuid)) start us : 0 < width ->
  start ∈ bucket_starts width rows ->
  start <= us < start + width <-> time_bucket width us = start.
Proof.
  intros Hw Hs. apply elem_of_bucket_starts in Hs as (r & _ & ->). rewrite !time_bucket_value by done. split.
  - intros H. f_equal. symmetry. apply (Z.div_unique_pos _ _ _ (us - tr_measured_at r / width * width)); lia.
  - intros <-. pose proof (Z.mul_div_le us width). pose proof (Z.mul_succ_div_gt us width). nia.
Qed.

Lemma bucket_answer_shape cfg actor q db dur a : config_ok cfg -> check_query cfg q = None ->
  ResolutionDuration (hq_Resolution q) = Some dur -> reader_spec actor q db = Ok a ->
  let width := dur / 1000 in
  StronglySorted (fun b1 b2 => micros (bp_BucketStart b1) + width <= micros (bp_BucketStart b2)) (hr_BucketPoints a)
  /\ Forall (fun b => (width | micros (bp_BucketStart b)) /\ 0 < bp_Count b) (hr_BucketPoints a)
  /\ list_sum bp_Count (hr_BucketPoints a) = Z.of_nat (length (query_samples q db))
  /\ (forall r, r ∈ query_samples q db -> exists b, b ∈ hr_BucketPoints a /\ holds width (tr_measured_at r) b)
  /\ hr_PointCount a <= hq_MaxPoints q /\ hr_RawPoints a = [].
Proof.
  intros Hc Hq Hd Ha width. apply check_query_spec in Hq as [Hqo Hres]; [|done].
  assert (0 < width) as Hw by (apply duration_bounds in Hd; apply Z.div_str_pos; lia).
  assert (exists unit, a = bucket_answer q dur unit db) as [unit ->].
  { unfold reader_spec in Ha. destruct (query_unit actor q db) as [unit|]; [|done]. exists unit.
    destruct (hq_Resolution q); try done; injection Hd as <-; injection Ha as <-; done. }
  cbn [bucket_answer hr_BucketPoints hr_PointCount hr_RawPoints]. fold width. set (rows := query_samples q db).
  split.
  { pose proof (bucket_starts_sorted width rows) as Hs. pose proof (elem_of_bucket_starts width rows) as He.
    assert (forall b, b ∈ bucket_starts width rows -> (width | b)) as Hal.
    { intros b Hb. apply He in Hb as (r & _ & ->). by apply time_bucket_aligned. }
    clear He. induction Hs as [|x l _ IH Hx]; [constructor|]. cbn. constructor.
    { apply IH. intros b Hb. apply Hal. by right. }
    apply list.Forall_fmap, list.Forall_forall. intros y Hy. cbn. rewrite !micros_of_tz.
    rewrite list.Forall_forall in Hx. specialize (Hx y Hy).
    destruct (Hal x) as [i ->]; [by left|]. destruct (Hal y) as [j ->]; [by right|]. clearbody width. assert (i < j) by nia. nia. }
  split.
  { apply list.Forall_fmap, list.Forall_forall. intros b Hb. cbn. rewrite micros_of_tz.
    apply elem_of_bucket_starts in Hb as (r & Hr & ->). split; [by apply time_bucket_aligned|].
    unfold bucket_values. rewrite length_fmap.
    assert (r ∈ filter (fun r' => time_bucket width (tr_measured_at r') = time_bucket width (tr_measured_at r)) rows)
      as Hin by (by apply list_elem_of_filter).
    destruct (filter _ rows); [by apply not_elem_of_nil in Hin|cbn; lia]. }
  split.
  { rewrite <- (list_sum_groups (fun r => time_bucket width (tr_measured_at r)) (bucket_starts width rows) rows
      (bucket_starts_NoDup width rows)) by (intros r Hr; apply elem_of_bucket_starts; eauto).
    rewrite list_sum_fmap. apply list_sum_ext. intros k. cbn. unfold bucket_values. by rewrite length_fmap. }
  split.
  { intros r Hr. exists (bucket_sample width rows (time_bucket width (tr_measured_at r))). split.
    - apply list_elem_of_fmap. eexists. split; [done|]. apply elem_of_bucket_starts. eauto.
    - unfold holds. cbn. rewrite micros_of_tz. by apply time_bucket_holds. }
  split; [|done]. rewrite length_fmap.
  by apply (query_buckets_fit (mkHistoryRepository cfg)).
Qed.

(** A bucket answer partitions the samples of the range: the buckets are in
    order and aligned to the width, no two share an instant, their counts add
    up to the number of samples, every sample lies in exactly one of them, and
    there are at most as many as asked for. *)
Theorem bucket_answer_complete cfg actor q db dur a : config_ok cfg -> check_query cfg q = None ->
  ResolutionDuration (hq_Resolution q) = Some dur -> reader_spec actor q db = Ok a ->
  let width := dur / 1000 in
  StronglySorted (fun b1 b2 => micros (bp_BucketStart b1) + width <= micros (bp_BucketStart b2)) (hr_BucketPoints a)
  /\ Forall (fun b => (width | micros (bp_BucketStart b)) /\ 0 < bp_Count b) (hr_BucketPoints a)
  /\ list_sum bp_Count (hr_BucketPoints a) = Z.of_nat (length (query_samples q db))
  /\ (forall r, r ∈ query_samples q db -> exists b, b ∈ hr_BucketPoints a /\ holds width (tr_measured_at r) b)
  /\ hr_PointCount a <= hq_MaxPoints q /\ hr_RawPoints a = [].
Proof. exact (bucket_answer_shape cfg actor q db dur a). Qed.

(** ** From ingestion to reading *)

Lemma effective_accepted cfg q r : config_ok cfg -> check_query cfg q = None -> effective cfg q r ->
  check_query cfg (with_resolution q r) = None.
Proof.
  intros Hc Hq He. unfold effective in He. destruct (decide (hq_Resolution q = ResolutionAuto)) as [Ha|Ha].
  - rewrite Ha in He. destruct He as [[Hs ->]|Hs].
    + apply short_raw_accepted; [done| |done]. by apply check_query_spec in Hq as [Hq _].
    + destruct (auto_resolution_exists cfg q Hc Hq) as (r' & Hr' & Hq'). rewrite Hs in Hr'. by injection Hr' as <-.
  - assert (r = hq_Resolution q) as -> by by destruct (hq_Resolution q). by rewrite with_resolution_id.
Qed.

(** What an answer shows of a sample: its raw point, or a bucket of the
    answer's resolution that holds its instant. *)
Definition shown (smp : SampleCandidate uuid) (a : TelemetryHistoryResult uuid) : Prop :=
  (hr_Mode a = "raw" /\
   mkRawPoint (time_of_tz (micros (s_MeasuredAt smp))) (s_Value smp) (s_SequenceNum smp) (Some (s_BootID smp))
     (Some (s_MessageID smp)) (Some (s_SampleIndex smp)) ∈ hr_RawPoints a)
  \/ (hr_Mode a = "bucket" /\ exists r dur b, hr_Resolution a = resolution_text r
        /\ ResolutionDuration r = Some dur /\ b ∈ hr_BucketPoints a /\ 0 < bp_Count b
        /\ holds (dur / 1000) (micros (s_MeasuredAt smp)) b).

Lemma new_rows_elem (db : DB uuid) (ss : list (SampleCandidate uuid)) smp : smp ∈ ss ->
  exists id, telemetry_row id smp ∈ new_rows db ss.
Proof.
  intros [i Hi]%list_elem_of_lookup_1. exists (sample_id_seq db + Z.of_nat i). unfold new_rows.
  apply (list_elem_of_lookup_2 _ i). by rewrite list_lookup_imap, Hi.
Qed.

Lemma reader_shows cfg actor q db a id smp : config_ok cfg -> check_query cfg q = None ->
  reader_spec actor q db = Ok a -> telemetry_row id smp ∈ query_samples q db -> shown smp a.
Proof.
  intros Hc Hq Ha Hin. destruct (decide (hq_Resolution q = ResolutionRaw)) as [Hr|Hr].
  - left. pose proof (raw_answer_shape actor q db Hr) as Hs. rewrite Ha in Hs.
    destruct Hs as (rows & Hp & _ & Hpts & _). split.
    + unfold reader_spec in Ha. rewrite Hr in Ha. destruct (query_unit _ _ _); [|done].
      destruct (hq_MaxPoints q <? _); [done|]. by injection Ha as <-.
    + rewrite Hpts. apply list_elem_of_fmap. exists (telemetry_row id smp). split; [done|]. by rewrite Hp.
  - destruct (ResolutionDuration (hq_Resolution q)) as [dur|] eqn:Hd.
    2:{ exfalso. unfold reader_spec in Ha. destruct (query_unit _ _ _); [|done]. destruct (hq_Resolution q); done. }
    right. destruct (bucket_answer_shape cfg actor q db dur a Hc Hq Hd Ha) as (_ & Hpos & _ & Hcov & _).
    destruct (Hcov _ Hin) as (b & Hb & Hh). rewrite list.Forall_forall in Hpos. destruct (Hpos b Hb) as [_ Hb0].
    unfold reader_spec in Ha. destruct (query_unit _ _ _) as [unit|]; [|done].
    assert (a = bucket_answer q dur unit db) as -> by
      (destruct (hq_Resolution q); try done; injection Hd as <-; injection Ha as <-; done).
    split; [done|]. exists (hq_Resolution q), dur, b. done.
Qed.

(** C20 Ingestion and reading compose: once a message is reported as committed,
    every later answer of the history service for its Sensor, on tables that
    keep the stored samples, shows each of its samples whose time the range
    holds: as its raw point with value, sequence number and provenance, or
    counted in the bucket of its instant. *)
Theorem persisted_samples_readable wx (m : Message uuid) (db db' : DB uuid) r cfg s actor q w n a n' smp :
  Persist wx true (Some m) db = (Ok r, db') -> Outcome r = CommitOutcomeCommitted ->
  history_service cfg = Ok s -> GetTelemetryHistory s actor q w n = (Ok a, n') ->
  (forall k row, row ∈ telemetry db' -> row ∈ telemetry (store (store_at w k))) ->
  smp ∈ samples m -> s_GatewayID smp = hq_GatewayID q -> s_SensorID smp = hq_SensorID q ->
  from_us q <= micros (s_MeasuredAt smp) < to_us q -> shown smp a.
Proof.
  intros Hp Ho Hs Hg Hkeep Hin Hgw Hsn Hus.
  apply (service_sound cfg) in Hg as (_ & Hq & _ & k1 & k & e & _ & _ & He & _ & _ & Ha); [|done].
  apply history_service_ok in Hs as [Hc _]. apply persist_outcome in Hp as (md & _ & Hcase).
  destruct Hcase as [(Hdup & _)|(_ & _ & resource & Heff)]; [congruence|].
  destruct (new_rows_elem db (samples m) smp Hin) as [id Hid].
  apply (reader_shows cfg actor (with_resolution q e) (store_at w k) a id); [done| |done|].
  - by apply effective_accepted.
  - apply list_elem_of_filter. split; [by split; [|split]|]. apply Hkeep. rewrite (eff_rows _ _ _ _ _ _ Heff).
    apply elem_of_app. by right.
Qed.

End data.
