(* ===== verification/HistoryDemo.v ===== *)
(** * The history theorems at work

    The tables after the demonstration message was committed, a member and a
    stranger, and a world whose context ends in the middle of a request. *)

From S2P Require Import Prelude GoStrings GoTime GoFloat Identity Uuid Telemetry.
From S2P Require Import Validation Message Txn Store Persist PersistSpec IngressDemo.
From S2P Require Import HistoryQuery HistoryStore ReadWorld History HistoryRepo HistorySpec.
From S2P Require Import HistoryReaderSpec HistoryServiceSpec HistoryErrors HistoryData.
Import Canonical Demo.
#[local] Open Scope Z_scope.

(** Functions with the documented behaviour of the database. *)
#[local] Instance demo_sql : SqlFunctions := {
  time_bucket width t := t / width * width;
  sql_avg values := f64_div (foldr f64_add (f64_of_int 0) values) (f64_of_int (Z.of_nat (length values)));
  sql_min values := foldr (fun a b => if SFltb a b then a else b) (S754_infinity false) values;
  sql_max values := foldr (fun a b => if SFltb a b then b else a) (S754_infinity true) values;
}.

#[local] Instance demo_sql_laws : SqlLaws.
Proof.
  split; intros width t Hw; cbn.
  - exists (t / width). reflexivity.
  - pose proof (Z.mul_div_le t width Hw). pose proof (Z.mul_succ_div_gt t width Hw). lia.
Qed.

Definition member : cuuid := mk "33333333-3333-4333-8333-333333333333" eq_refl.
Definition stranger : cuuid := mk "44444444-4444-4444-8444-444444444444" eq_refl.

Definition demo_columns : TwinColumns cuuid := mkTwinColumns ∅ ∅ ∅ ∅.
Definition demo_history : HistoryDB cuuid := mkHistoryDB demo_run.2 {[(member, "gw-1")]} demo_columns.
Definition still_world : World cuuid := mkWorld None (fun _ => demo_history) (fun _ => None).

(** The context ends while the rows are read. *)
Definition late_world : World cuuid := mkWorld (Some (6%nat, CtxDeadline)) (fun _ => demo_history) (fun _ => None).

Definition demo_config : HistoryPreparationConfig := DefaultHistoryPreparationConfig.
Definition demo_service : Service := deployed demo_config.

(** Five seconds around the two samples. *)
Definition demo_span : TimeRange :=
  mkTimeRange (mkTime 1777890028000000000 0) (mkTime 1777890033000000000 0).
Definition demo_query (r : Resolution) : TelemetryHistoryQuery := mkHistoryQuery "gw-1" "s_1" demo_span r 100.

Definition ask (w : World cuuid) (actor : cuuid) (r : Resolution) : res herror (TelemetryHistoryResult cuuid) * nat :=
  GetTelemetryHistory demo_service actor (demo_query r) w 0%nat.

Lemma demo_history_service : history_service demo_config = Ok demo_service.
Proof. vm_compute. reflexivity. Qed.

Lemma demo_config_ok : config_ok demo_config.
Proof. apply config_ok_spec. vm_compute. reflexivity. Qed.

Lemma demo_day_accepted : check_query demo_config (demo_query Resolution1d) = None.
Proof. vm_compute. reflexivity. Qed.

Lemma demo_auto_accepted : check_query demo_config (demo_query ResolutionAuto) = None.
Proof. vm_compute. reflexivity. Qed.

Lemma still : quiet still_world demo_history.
Proof. by split. Qed.

Lemma late_ok : driver_ok late_world.
Proof. intros k e H. discriminate H. Qed.

Definition summary (r : res herror (TelemetryHistoryResult cuuid)) : res herror (string * string * Z * list Z) :=
  match r with
  | Ok a => Ok (hr_Mode a, hr_Resolution a, hr_PointCount a, bp_Count <$> hr_BucketPoints a)
  | Err e => Err e
  end.

Example ask_raw : summary (ask still_world member ResolutionRaw).1 = Ok ("raw", "raw", 2, []).
Proof. vm_compute. reflexivity. Qed.

Example ask_auto : summary (ask still_world member ResolutionAuto).1 = Ok ("raw", "raw", 2, []).
Proof. vm_compute. reflexivity. Qed.

Example ask_day : summary (ask still_world member Resolution1d).1 = Ok ("bucket", "1d", 1, [2]).
Proof. vm_compute. reflexivity. Qed.

Example ask_stranger : summary (ask still_world stranger ResolutionRaw).1 = Err (HErr ErrHistoryNotFound).
Proof. vm_compute. reflexivity. Qed.

Example ask_late : summary (ask late_world member ResolutionRaw).1
  = Err (HJoin (HErr ErrHistoryDependency) (HCause DeadlineExceeded)).
Proof. vm_compute. reflexivity. Qed.

Lemma ask_raw_ok : is_ok (ask still_world member ResolutionRaw).1 = true.
Proof. vm_compute. reflexivity. Qed.

Lemma ask_late_err : ask late_world member ResolutionRaw
  = (Err (HJoin (HErr ErrHistoryDependency) (HCause DeadlineExceeded)), (ask late_world member ResolutionRaw).2).
Proof. vm_compute. reflexivity. Qed.

(** ** The theorems on these inputs *)

Lemma GetTelemetryHistory_refines_witness :
  (ask still_world member ResolutionAuto).1
  = match history_spec demo_config member (demo_query ResolutionAuto) demo_history with
    | Ok r => Ok r | Err e => Err (HErr e) end.
Proof. exact (GetTelemetryHistory_refines _ _ member _ still_world _ 0%nat demo_history_service still). Defined.

Lemma GetTelemetryHistory_sound_witness : exists a n', ask still_world member ResolutionRaw = (Ok a, n')
  /\ check_query demo_config (demo_query ResolutionRaw) = None
  /\ exists k r, effective demo_config (demo_query ResolutionRaw) r
       /\ reader_spec member (with_resolution (demo_query ResolutionRaw) r) (store_at still_world k) = Ok a.
Proof.
  pose proof ask_raw_ok as H. destruct (ask still_world member ResolutionRaw) as [[a|e] n'] eqn:E; [|discriminate H].
  exists a, n'. split; [reflexivity|]. unfold ask in E.
  destruct (GetTelemetryHistory_sound demo_config demo_service member (demo_query ResolutionRaw) still_world 0%nat
    a n' demo_history_service E) as (_ & Hq & _ & k1 & k2 & r & _ & _ & He & _ & _ & Ha).
  split; [exact Hq|]. exists k2, r. split; [exact He|exact Ha].
Defined.

Lemma history_status_witness : exists e n', ask late_world member ResolutionRaw = (Err e, n')
  /\ (writeReadError e).1 = 503 /\ ~ alive late_world n'.
Proof.
  pose proof ask_late_err as E. unfold ask at 1 in E.
  exists (HJoin (HErr ErrHistoryDependency) (HCause DeadlineExceeded)), (ask late_world member ResolutionRaw).2.
  split; [exact E|].
  destruct (history_status demo_config demo_service member (demo_query ResolutionRaw) late_world 0%nat _ _
    demo_history_service late_ok E) as [_ [Ha|(k & err & _ & H)]].
  - split; [reflexivity|exact Ha].
  - discriminate H.
Defined.

Lemma raw_answer_complete_witness : exists a rows, reader_spec member (demo_query ResolutionRaw) demo_history = Ok a
  /\ rows ≡ₚ query_samples (demo_query ResolutionRaw) demo_history /\ hr_PointCount a = Z.of_nat (length rows).
Proof.
  pose proof (raw_answer_complete member (demo_query ResolutionRaw) demo_history eq_refl) as H.
  assert (Hok : is_ok (reader_spec member (demo_query ResolutionRaw) demo_history) = true) by (vm_compute; reflexivity).
  destruct (reader_spec member (demo_query ResolutionRaw) demo_history) as [a|e]; [|discriminate Hok].
  destruct H as (rows & Hp & _ & _ & Hn & _). exists a, rows. split; [reflexivity|]. split; [exact Hp|exact Hn].
Defined.

Definition day_answer : res HistoryError (TelemetryHistoryResult cuuid) :=
  reader_spec member (demo_query Resolution1d) demo_history.

Lemma day_answer_ok : is_ok day_answer = true.
Proof. vm_compute. reflexivity. Qed.

Lemma bucket_answer_complete_witness : exists a, day_answer = Ok a
  /\ list_sum bp_Count (hr_BucketPoints a) = Z.of_nat (length (query_samples (demo_query Resolution1d) demo_history)).
Proof.
  pose proof day_answer_ok as Hok. destruct day_answer as [a|e] eqn:E; [|discriminate Hok]. exists a.
  split; [reflexivity|]. unfold day_answer in E.
  destruct (bucket_answer_complete demo_config member (demo_query Resolution1d) demo_history (24 * Hour) a
    demo_config_ok demo_day_accepted eq_refl E) as (_ & _ & H & _). exact H.
Defined.

Lemma SelectAutoBucketResolution_smallest_witness :
  SelectAutoBucketResolution (rng_From demo_span) (rng_To demo_span) 10 = Ok Resolution1s
  /\ too_fine (rng_From demo_span) (rng_To demo_span) 10 Resolution100ms.
Proof.
  pose proof (SelectAutoBucketResolution_smallest (rng_From demo_span) (rng_To demo_span) 10) as H.
  assert (E : SelectAutoBucketResolution (rng_From demo_span) (rng_To demo_span) 10 = Ok Resolution1s)
    by (vm_compute; reflexivity).
  rewrite E in H. split; [exact E|].
  destruct H as [_ H]; [split; vm_compute; congruence|split; vm_compute; congruence|vm_compute; reflexivity|lia|].
  apply (H Resolution100ms Second (100 * Millisecond)); vm_compute; reflexivity.
Defined.

Lemma auto_resolution_found_witness : exists r,
  SelectAutoBucketResolution (rng_From demo_span) (rng_To demo_span) 100 = Ok r
  /\ check_query demo_config (with_resolution (demo_query ResolutionAuto) r) = None.
Proof.
  exact (auto_resolution_found demo_config (demo_query ResolutionAuto) demo_config_ok
    demo_auto_accepted).
Defined.

Lemma IntersectingBucketCount_counts_witness : exists buckets : list Z,
  IntersectingBucketCount (rng_From demo_span) (rng_To demo_span) Second = Ok (Z.of_nat (length buckets)).
Proof.
  destruct (IntersectingBucketCount_counts (rng_From demo_span) (rng_To demo_span) Second)
    as (buckets & _ & H & _); [split; vm_compute; congruence|split; vm_compute; congruence|vm_compute; reflexivity
      |vm_compute; congruence|].
  exists buckets. exact H.
Defined.

Lemma ValidateHistoryTimeRange_spec_witness : history_range demo_span (744 * Hour).
Proof.
  destruct (proj1 (ValidateHistoryTimeRange_spec demo_span ResolutionRaw (744 * Hour) (10 * Second) 100
    ltac:(vm_compute; split; congruence) ltac:(vm_compute; split; congruence)) ltac:(vm_compute; reflexivity))
    as (_ & _ & H & _). exact H.
Defined.

(** ** From ingestion to reading *)

Lemma demo_run_result : exists r, demo_run = (Ok r, demo_run.2) /\ Outcome r = CommitOutcomeCommitted.
Proof.
  pose proof (proj1 demo_run_committed) as H. destruct demo_run as [[r|e] db]; cbn in H; [|discriminate H].
  exists r. split; [reflexivity|]. injection H as H _. exact H.
Qed.

Lemma persisted_samples_readable_witness : exists a, (ask still_world member ResolutionRaw).1 = Ok a
  /\ shown demo_sample1 a.
Proof.
  pose proof ask_raw_ok as H. destruct (ask still_world member ResolutionRaw) as [[a|e] n'] eqn:E; [|discriminate H].
  exists a. split; [reflexivity|]. unfold ask in E.
  destruct demo_run_result as (r & Hr & Ho). unfold demo_run at 1 in Hr.
  apply (persisted_samples_readable demo_sky demo_message demo_db demo_run.2 r demo_config demo_service member
    (demo_query ResolutionRaw) still_world 0%nat a n' demo_sample1 Hr Ho demo_history_service E).
  - intros k row Hrow. exact Hrow.
  - apply (list_elem_of_lookup_2 _ 1). reflexivity.
  - reflexivity.
  - reflexivity.
  - vm_compute. split; congruence.
Defined.
