(* ===== verification/TwinModel.v ===== *)
(** * Digital Twin reads: constants, queries and results

    [digitaltwin/protocol.go] and [digitaltwin/read_model.go]. *)

From S2P Require Import Prelude GoStrings GoTime GoFloat Uuid Identity Urn Store HistoryQuery HistoryStore History.
#[local] Open Scope Z_scope.

(** ** Caps of the protocol *)

Definition MaxRawQueryBytes : Z := 1024.
Definition MaxEncodedCursorLength : Z := 768.
Definition MaxDecodedCursorBytes : Z := 512.
Definition CursorVersionPrefix : string := "v1.".

Definition ContractDefaultQueryTimeout : Z := 5 * Second.
Definition ContractMaxQueryTimeout : Z := 5 * Second.
Definition ContractMaxHistoryRange : Z := 744 * Hour.
Definition ContractMaxRawWindow : Z := 10 * Second.
Definition ContractDefaultMaxPoints : Z := 1000.
Definition ContractMaxPointsUpperLimit : Z := 2000.
Definition ContractMinPointsLowerLimit : Z := 100.
Definition ContractDefaultLimit : Z := 50.
Definition ContractMaxLimit : Z := 200.

(** ** Queries *)

(** [HistorySelector] is a string in Go; any other text is [SelectorOther]. *)
Inductive HistorySelector :=
| SelectorValue
| SelectorSampleIntervalUS
| SelectorOther (text : string).

#[export] Instance HistorySelector_eq_dec : EqDecision HistorySelector.
Proof. solve_decision. Defined.

Definition selector_text (s : HistorySelector) : string :=
  match s with
  | SelectorValue => "value"
  | SelectorSampleIntervalUS => "sample_interval_us"
  | SelectorOther text => text
  end.

(** The conversion [HistorySelector(s)]. *)
Definition HistorySelector_of (s : string) : HistorySelector :=
  if bool_decide (s = "value") then SelectorValue
  else if bool_decide (s = "sample_interval_us") then SelectorSampleIntervalUS
  else SelectorOther s.

Definition HistorySelector_Valid (s : HistorySelector) : bool :=
  match s with SelectorOther _ => false | _ => true end.

Record TwinListQuery := mkListQuery {
  lq_GatewayID : option string;
  lq_EntityType : option EntityType;
  lq_Limit : Z;
  lq_After : option string;
}.

Record TwinDetailQuery := mkDetailQuery {
  dq_EntityID : string;
  dq_RelationshipLimit : Z;
  dq_RelationshipAfter : option string;
}.

Record TwinStateQuery := mkStateQuery { sq_EntityID : string }.

Record TwinHistoryQuery := mkTwinHistoryQuery {
  tq_EntityID : string;
  tq_Property : HistorySelector;
  tq_Range : TimeRange;
  tq_Resolution : Resolution;
  tq_MaxPoints : Z;
  tq_EffectiveRawWindow : Z;
}.

(** ** Results *)

Record TwinSummary := mkSummary {
  ts_ID : string;
  ts_Type : EntityType;
  ts_Name : option string;
  ts_GatewayID : string;
  ts_UpdatedAt : Time;
}.

Record TwinListResult := mkListResult {
  lr_Items : list TwinSummary;
  lr_NextCursor : option string;
}.

Record RelationshipItem := mkRelationshipItem {
  ri_Type : string;
  ri_RelationshipType : string;
  ri_TargetURN : string;
  ri_CreatedAt : Time;
}.

Record RelationshipPage := mkRelationshipPage {
  rp_RelationshipType : string;
  rp_Limit : Z;
  rp_Count : Z;
  rp_Partial : bool;
  rp_NextCursor : option string;
}.

Record TwinDetailResult := mkDetailResult {
  dr_ID : string;
  dr_Type : EntityType;
  dr_Name : string;
  dr_Description : option string;
  dr_Unit : option string;
  dr_GatewayID : string;
  dr_UpdatedAt : Time;
  dr_Relationships : list RelationshipItem;
  dr_RelationshipPage : option RelationshipPage;
}.

(** A JSON document is its text. *)
Record TwinStateResult := mkStateResult {
  sr_ID : string;
  sr_Type : EntityType;
  sr_GatewayID : string;
  sr_ReportedState : string;
  sr_DesiredState : string;
  sr_ReportedVersion : Z;
  sr_DesiredVersion : Z;
  sr_LastReportedAt : option Time;
  sr_LastDesiredAt : option Time;
  sr_UpdatedAt : Time;
}.

Record TemporalSamplePoint (uuid : Type) := mkTemporalPoint {
  tsp_ObservedAt : Time;
  tsp_ValueType : string;
  tsp_ValueNumber : option float64;
  tsp_ValueText : option string;
  tsp_ValueBoolean : option bool;
  tsp_Metadata : string;
  tsp_MessageID : option uuid;
}.
Arguments mkTemporalPoint {uuid}.
Arguments tsp_ObservedAt {uuid}.
Arguments tsp_ValueType {uuid}.
Arguments tsp_ValueNumber {uuid}.
Arguments tsp_ValueText {uuid}.
Arguments tsp_ValueBoolean {uuid}.
Arguments tsp_Metadata {uuid}.
Arguments tsp_MessageID {uuid}.

(** [TemporalBucketPoint] is [telemetry.BucketSamplePoint]. *)
Record TwinHistoryResult (uuid : Type) := mkTwinHistoryResult {
  thr_EntityID : string;
  thr_Property : HistorySelector;
  thr_Unit : option string;
  thr_From : Time;
  thr_To : Time;
  thr_Mode : string;
  thr_Resolution : string;
  thr_PointCount : Z;
  thr_TelemetryResult : option (TelemetryHistoryResult uuid);
  thr_TemporalPoints : list (TemporalSamplePoint uuid);
  thr_TemporalBuckets : list BucketSamplePoint;
}.
Arguments mkTwinHistoryResult {uuid}.
Arguments thr_EntityID {uuid}.
Arguments thr_Property {uuid}.
Arguments thr_Unit {uuid}.
Arguments thr_From {uuid}.
Arguments thr_To {uuid}.
Arguments thr_Mode {uuid}.
Arguments thr_Resolution {uuid}.
Arguments thr_PointCount {uuid}.
Arguments thr_TelemetryResult {uuid}.
Arguments thr_TemporalPoints {uuid}.
Arguments thr_TemporalBuckets {uuid}.

(** ** Resolved resources *)

(** An internal representation of an entity the actor may read. *)
Record ResolvedEntity (uuid : Type) := mkResolvedEntity {
  re_InternalID : uuid;
  re_PublicURN : string;
  re_Type : EntityType;
  re_GatewayID : string;
  re_SensorID : string;
}.
Arguments mkResolvedEntity {uuid}.
Arguments re_InternalID {uuid}.
Arguments re_PublicURN {uuid}.
Arguments re_Type {uuid}.
Arguments re_GatewayID {uuid}.
Arguments re_SensorID {uuid}.

Record ResolvedGateway (uuid : Type) := mkResolvedGateway { rg_InternalID : uuid; rg_GatewayID : string }.
Arguments mkResolvedGateway {uuid}.
Arguments rg_InternalID {uuid}.
Arguments rg_GatewayID {uuid}.

(** * Configured bounds of the read endpoints

    [config/read_bounds.go]: validation of the bounds and the configurations
    the services are built with. *)

Record HistoryConfig := mkHistoryBounds {
  hb_QueryTimeout : Z;
  hb_MaxRange : Z;
  hb_RawWindow : Z;
  hb_DefaultPoints : Z;
  hb_MaxPoints : Z;
  hb_MinPoints : Z;
}.

Record TwinConfig := mkTwinBounds {
  tb_ListDefaultLimit : Z;
  tb_ListMaxLimit : Z;
  tb_RelationshipDefaultLimit : Z;
  tb_RelationshipMaxLimit : Z;
}.

Definition DefaultHistoryConfig : HistoryConfig :=
  mkHistoryBounds ContractDefaultQueryTimeout ContractMaxHistoryRange ContractMaxRawWindow
    ContractDefaultMaxPoints ContractMaxPointsUpperLimit ContractMinPointsLowerLimit.

Definition DefaultTwinConfig : TwinConfig :=
  mkTwinBounds ContractDefaultLimit ContractMaxLimit ContractDefaultLimit ContractMaxLimit.

(** The error text, when the configuration is refused. *)
Definition ValidateHistoryConfig (cfg : HistoryConfig) : option string :=
  if hb_QueryTimeout cfg <=? 0 then Some "HISTORY_QUERY_TIMEOUT must be a positive duration"
  else if ContractMaxQueryTimeout <? hb_QueryTimeout cfg
  then Some "HISTORY_QUERY_TIMEOUT cannot exceed contract hard cap of 5s"
  else if hb_MaxRange cfg <=? 0 then Some "HISTORY_MAX_RANGE must be a positive duration"
  else if ContractMaxHistoryRange <? hb_MaxRange cfg
  then Some "HISTORY_MAX_RANGE cannot exceed contract hard cap of 744h0m0s"
  else if hb_RawWindow cfg <=? 0 then Some "HISTORY_RAW_WINDOW must be a positive duration"
  else if ContractMaxRawWindow <? hb_RawWindow cfg
  then Some "HISTORY_RAW_WINDOW cannot exceed contract hard cap of 10s"
  else if hb_MaxRange cfg <? hb_RawWindow cfg then Some "HISTORY_RAW_WINDOW cannot exceed HISTORY_MAX_RANGE"
  else if hb_MinPoints cfg <? ContractMinPointsLowerLimit
  then Some "HISTORY_MIN_POINTS cannot be less than contract lower limit of 100"
  else if ContractMaxPointsUpperLimit <? hb_MinPoints cfg
  then Some "HISTORY_MIN_POINTS cannot exceed contract hard cap of 2000"
  else if hb_DefaultPoints cfg <? hb_MinPoints cfg
  then Some "HISTORY_DEFAULT_POINTS must be greater than or equal to HISTORY_MIN_POINTS"
  else if ContractMaxPointsUpperLimit <? hb_MaxPoints cfg
  then Some "HISTORY_MAX_POINTS cannot exceed contract hard cap of 2000"
  else if hb_MaxPoints cfg <? hb_DefaultPoints cfg
  then Some "HISTORY_DEFAULT_POINTS must be less than or equal to HISTORY_MAX_POINTS"
  else None.

Definition ValidateTwinConfig (cfg : TwinConfig) : option string :=
  if tb_ListDefaultLimit cfg <? 1 then Some "TWIN_LIST_DEFAULT_LIMIT must be at least 1"
  else if ContractMaxLimit <? tb_ListMaxLimit cfg
  then Some "TWIN_LIST_MAX_LIMIT cannot exceed contract hard cap of 200"
  else if tb_ListMaxLimit cfg <? tb_ListDefaultLimit cfg
  then Some "TWIN_LIST_DEFAULT_LIMIT must be less than or equal to TWIN_LIST_MAX_LIMIT"
  else if tb_RelationshipDefaultLimit cfg <? 1 then Some "TWIN_RELATIONSHIP_DEFAULT_LIMIT must be at least 1"
  else if ContractMaxLimit <? tb_RelationshipMaxLimit cfg
  then Some "TWIN_RELATIONSHIP_MAX_LIMIT cannot exceed contract hard cap of 200"
  else if tb_RelationshipMaxLimit cfg <? tb_RelationshipDefaultLimit cfg
  then Some "TWIN_RELATIONSHIP_DEFAULT_LIMIT must be less than or equal to TWIN_RELATIONSHIP_MAX_LIMIT"
  else None.

Definition ToTelemetryPreparationConfig (c : HistoryConfig) : HistoryPreparationConfig :=
  mkHistoryConfig (hb_QueryTimeout c) (hb_MaxRange c) (hb_RawWindow c) (hb_MinPoints c) (hb_MaxPoints c).

(** ** Accepted bounds *)

Record history_bounds (cfg : HistoryConfig) : Prop := {
  hbo_timeout : 0 < hb_QueryTimeout cfg <= ContractMaxQueryTimeout;
  hbo_range : 0 < hb_MaxRange cfg <= ContractMaxHistoryRange;
  hbo_raw : 0 < hb_RawWindow cfg <= ContractMaxRawWindow;
  hbo_raw_range : hb_RawWindow cfg <= hb_MaxRange cfg;
  hbo_points : 100 <= hb_MinPoints cfg /\ hb_MinPoints cfg <= hb_DefaultPoints cfg
    /\ hb_DefaultPoints cfg <= hb_MaxPoints cfg <= 2000;
}.

Lemma history_bounds_spec cfg : ValidateHistoryConfig cfg = None <-> history_bounds cfg.
Proof.
  unfold ValidateHistoryConfig, ContractMinPointsLowerLimit, ContractMaxPointsUpperLimit. split.
  - intros H. inv_ok H. gobool. split; lia.
  - intros [? ? ? ? (? & ? & ?)]. rewrite !(proj2 (Z.leb_gt _ _)), !(proj2 (Z.ltb_ge _ _)) by lia. done.
Qed.

Lemma bounds_prepared cfg : ValidateHistoryConfig cfg = None ->
  ValidateHistoryPreparationConfig (ToTelemetryPreparationConfig cfg) = None.
Proof.
  intros H. apply history_bounds_spec in H as [? ? ? ? (? & ? & ?)].
  unfold ValidateHistoryPreparationConfig, ToTelemetryPreparationConfig, MinHistoryPointsLowerLimit,
    MaxHistoryPointsUpperLimit, MaxHistoryQueryTimeout, MaxHistoryMaxRange, MaxHistoryRawWindow.
  unfold ContractMaxQueryTimeout, ContractMaxHistoryRange, ContractMaxRawWindow in *.
  cbn [hc_QueryTimeout hc_MaxRange hc_RawWindow hc_MinPoints hc_MaxPoints].
  rewrite !(proj2 (Z.leb_gt _ _)), !(proj2 (Z.ltb_ge _ _)) by lia. done.
Qed.
