(* ===== verification/QueryParser.v ===== *)
(** * Package [net/url] as the program uses it

    [url.ParseQuery] and [url.QueryUnescape].  The parsed parameters of a key
    are a list, in the order they appear; the order of the keys is not kept. *)

From S2P Require Import Prelude GoStrings GoTime GoFloat GoJson Uuid Identity Urn QueryTime HistoryQuery.
From S2P Require Import HistoryStore History TwinModel.
#[local] Open Scope Z_scope.

(** [QueryUnescape]: [%] needs two hexadecimal digits, [+] is a space. *)
Fixpoint QueryUnescape (s : string) : option string :=
  match s with
  | EmptyString => Some ""
  | String c r =>
      if bool_decide (c = "%"%char) then
        match r with
        | String a (String b r') =>
            match hex_val a, hex_val b with
            | Some x, Some y => String (chr (16 * x + y)) <$> QueryUnescape r'
            | _, _ => None
            end
        | _ => None
        end
      else if bool_decide (c = "+"%char) then String " " <$> QueryUnescape r
      else String c <$> QueryUnescape r
  end.

(** [strings.Cut(s, sep)]; without the separator the second part is empty. *)
Fixpoint Cut (s : string) (sep : ascii) : string * string :=
  match s with
  | EmptyString => ("", "")
  | String c r =>
      if bool_decide (c = sep) then ("", r)
      else let '(before, after) := Cut r sep in (String c before, after)
  end.

Definition parse_pair (segment : string) : option (string * string) :=
  let '(key, value) := Cut segment "=" in
  k ← QueryUnescape key;
  v ← QueryUnescape value;
  Some (k, v).

Notation Values := (gmap string (list string)).

(** The loop over the text between the ampersands.  An error is remembered and
    reported at the end, so its caller never sees the parameters. *)
Fixpoint parse_segments (segments : list string) (m : Values) : option Values :=
  match segments with
  | [] => Some m
  | segment :: rest =>
      if contains_char ";" segment then None
      else if bool_decide (segment = "") then parse_segments rest m
      else match parse_pair segment with
      | None => None
      | Some (key, value) => parse_segments rest (<[key := default [] (m !! key) ++ [value]]> m)
      end
  end.

(** [ParseQuery(query)], [None] for a non-nil error.  Go also refuses more than
    10000 parameters, more than the 1024 bytes the program allows can hold. *)
Definition ParseQuery (query : string) : option Values := parse_segments (Split query "&") ∅.

Example ParseQuery_ex :
  map (fun q => map_to_list <$> ParseQuery q)
    ["from=a&to=b+c%2Bd"; "a=1&a=2"; "a"; "&&"; "a=%4"; "a=%zz"; "a;b=1"; "a=b=c"]
  = [Some [("from", ["a"]); ("to", ["b c+d"])]; Some [("a", ["1"; "2"])]; Some [("a", [""])]; Some [];
     None; None; None; Some [("a", ["b=c"])]].
Proof. vm_compute. reflexivity. Qed.

(** ** Plain text is read as it is *)

Definition plain_char (c : ascii) : bool :=
  negb (bool_decide (c = "%"%char) || bool_decide (c = "+"%char) || bool_decide (c = "&"%char)
        || bool_decide (c = "="%char) || bool_decide (c = ";"%char)).

Definition plain : string -> bool := str_forallb plain_char.

Lemma plain_char_spec c : plain_char c = true <->
  c <> "%"%char /\ c <> "+"%char /\ c <> "&"%char /\ c <> "="%char /\ c <> ";"%char.
Proof. unfold plain_char. rewrite negb_true_iff, !orb_false_iff, !bool_decide_eq_false. tauto. Qed.

Lemma QueryUnescape_plain s : plain s = true -> QueryUnescape s = Some s.
Proof.
  induction s as [|c s IH]; [done|]. unfold plain. cbn. intros H.
  apply andb_true_iff in H as [Hc Hs]. apply plain_char_spec in Hc as (? & ? & _).
  by rewrite !bool_decide_eq_false_2, IH.
Qed.

Lemma plain_no_char s c : plain_char c = false -> plain s = true -> no_char c s = true.
Proof.
  intros Hc. apply str_forallb_impl. intros d Hd. rewrite bool_decide_eq_false_2; [done|congruence].
Qed.

Lemma no_char_pair c k v : plain_char c = false -> c <> "="%char -> plain k = true -> plain v = true ->
  no_char c (k +:+ String "=" v) = true.
Proof.
  intros Hc Hne Hk Hv. apply (plain_no_char _ c) in Hk, Hv; [|done..]. unfold no_char in *.
  rewrite str_forallb_app, Hk. cbn [str_forallb]. rewrite Hv, bool_decide_eq_false_2; [done|congruence].
Qed.

Lemma Cut_plain k v : plain k = true -> Cut (k +:+ String "=" v) "=" = (k, v).
Proof.
  intros Hk. apply (plain_no_char _ "="%char) in Hk; [|done]. induction k as [|c k IH]; [done|].
  unfold no_char in Hk. cbn in Hk. apply andb_true_iff in Hk as [Hc Hk].
  rewrite str_app_cons. cbn. apply negb_true_iff, bool_decide_eq_false in Hc.
  rewrite bool_decide_eq_false_2 by done. by rewrite IH.
Qed.

(** A query string of the given parameters. *)
Definition query_pair (kv : string * string) : string := kv.1 +:+ String "=" kv.2.
Definition query_string (kvs : list (string * string)) : string := Join (map query_pair kvs) "&".

Lemma Split_Join ws sep : ws <> [] -> Forall (fun w => no_char sep w = true) ws -> Split (Join ws sep) sep = ws.
Proof.
  intros Hne Hws. induction Hws as [|w ws Hw Hws IH]; [done|]. destruct ws as [|w' ws].
  - by apply Split_no_sep.
  - change (Join (w :: w' :: ws) sep) with (w +:+ String sep (Join (w' :: ws) sep)).
    rewrite Split_cons_sep by done. by rewrite IH.
Qed.

Lemma parse_segments_plain kvs : forall m, NoDup (map fst kvs) ->
  Forall (fun kv => plain kv.1 = true /\ plain kv.2 = true /\ m !! kv.1 = None) kvs ->
  parse_segments (map query_pair kvs) m
  = Some (list_to_map (map (fun kv => (kv.1, [kv.2])) kvs) ∪ m).
Proof.
  induction kvs as [|[k v] kvs IH]; intros m Hnd Hp.
  { cbn. by rewrite (left_id_L ∅ union). }
  cbn in Hnd. apply list.NoDup_cons in Hnd as [Hk Hnd].
  apply list.Forall_cons in Hp as [(Pk & Pv & Hm) Hp]. cbn in Pk, Pv, Hm.
  cbn [map parse_segments]. change (query_pair (k, v)) with (k +:+ String "=" v).
  unfold contains_char. rewrite no_char_pair by done. cbn [negb]. rewrite bool_decide_eq_false_2 by by destruct k.
  unfold parse_pair. rewrite Cut_plain by done. rewrite !QueryUnescape_plain by done. cbn [mbind option_bind].
  rewrite Hm. cbn [default app]. rewrite IH; [|done|].
  - f_equal. symmetry. cbn [map fst snd]. rewrite list_to_map_cons, <- insert_union_l, insert_union_r; [done|]. apply not_elem_of_list_to_map_1. intros H. apply Hk.
    apply list_elem_of_fmap in H as ([k1 v1] & -> & H). apply list_elem_of_fmap in H as ([k2 v2] & E & H).
    injection E as -> ->. apply list_elem_of_fmap. by exists (k2, v2).
  - rewrite list.Forall_forall in *. intros [k' v'] Hin. destruct (Hp _ Hin) as (? & ? & ?). split_and!; [done..|].
    rewrite lookup_insert_ne; [done|]. cbn. intros ->. apply Hk. apply list_elem_of_fmap. by exists (k', v').
Qed.

(** Plain parameters with distinct names are read back. *)
Lemma ParseQuery_query_string kvs : kvs <> [] -> NoDup (map fst kvs) ->
  Forall (fun kv => plain kv.1 = true /\ plain kv.2 = true) kvs ->
  ParseQuery (query_string kvs) = Some (list_to_map (map (fun kv => (kv.1, [kv.2])) kvs)).
Proof.
  intros Hne Hnd Hp. unfold ParseQuery, query_string. rewrite Split_Join.
  - rewrite parse_segments_plain; [by rewrite (right_id_L ∅ union)|done|].
    eapply list.Forall_impl; [exact Hp|]. intros kv [? ?]. split_and!; [done..|apply lookup_empty].
  - by destruct kvs.
  - apply Forall_map. eapply list.Forall_impl; [exact Hp|]. intros [k v] [Hk Hv]. cbn in *.
    by apply no_char_pair.
Qed.

(** * Query strings of the history and state endpoints

    [httpserver/history_query_parser.go].  A [*QueryError] is [HQuery] with its
    code around the sentinel it wraps.  Its message is not modelled: it is read
    by [Error] only, and the handlers answer with a fixed text per code. *)

Definition invalid_request {A} : res herror A := Err (HQuery "invalid_request" (HErr ErrHistoryInvalidInput)).
Definition invalid_entity {A} : res herror A := Err (HQuery "invalid_request" (HTwin ErrInvalidInput)).
Definition invalid_property {A} : res herror A := Err (HQuery "invalid_property" (HTwin ErrInvalidProperty)).

(** ** The raw query *)

(** The range loop over the parsed parameters. *)
Fixpoint collect_params (allowedKeys : list string) (entries : list (string * list string))
    (result : gmap string string) : res herror (gmap string string) :=
  match entries with
  | [] => Ok result
  | (key, values) :: rest =>
      if negb (bool_decide (key ∈ allowedKeys)) then invalid_request
      else match values with
      | [] => collect_params allowedKeys rest result
      | [val] =>
          if bool_decide (val = "") then invalid_request
          else collect_params allowedKeys rest (<[key := val]> result)
      | _ => invalid_request
      end
  end.

(** Go ranges over a map in any order; [collect_params_order] shows that the
    order does not matter. *)
Definition parseRawQuery (rawQuery : string) (allowedKeys : list string) : res herror (gmap string string) :=
  if MaxRawQueryBytes <? str_len rawQuery then invalid_request
  else if contains_char ";" rawQuery then invalid_request
  else match ParseQuery rawQuery with
  | None => invalid_request
  | Some parsed => collect_params allowedKeys (map_to_list parsed) ∅
  end.

(** [val, ok := params[key]; !ok || val == ""] refused. *)
Definition required (params : gmap string string) (key : string) : option string :=
  match params !! key with
  | Some val => if bool_decide (val = "") then None else Some val
  | None => None
  end.

(** ** Resolutions *)

(** The conversion [Resolution(s)]. *)
Definition Resolution_of (s : string) : Resolution :=
  if bool_decide (s = "auto") then ResolutionAuto
  else if bool_decide (s = "raw") then ResolutionRaw
  else if bool_decide (s = "100ms") then Resolution100ms
  else if bool_decide (s = "1s") then Resolution1s
  else if bool_decide (s = "10s") then Resolution10s
  else if bool_decide (s = "1m") then Resolution1m
  else if bool_decide (s = "5m") then Resolution5m
  else if bool_decide (s = "15m") then Resolution15m
  else if bool_decide (s = "1h") then Resolution1h
  else if bool_decide (s = "6h") then Resolution6h
  else if bool_decide (s = "1d") then Resolution1d
  else ResolutionOther s.

Definition CanonicalDurationsToResolution : gmap string Resolution :=
  list_to_map
    [("PT0.1S", Resolution100ms); ("PT1S", Resolution1s); ("PT10S", Resolution10s);
     ("PT1M", Resolution1m); ("PT5M", Resolution5m); ("PT15M", Resolution15m);
     ("PT1H", Resolution1h); ("PT6H", Resolution6h); ("P1D", Resolution1d)].

(** ** The parser *)

Record HistoryQueryParser := mkHistoryQueryParser { qp_cfg : HistoryConfig }.

(** A nil configuration is [None]. *)
Definition NewHistoryQueryParser (cfg : option HistoryConfig) : res string HistoryQueryParser :=
  match cfg with
  | None => Err "history config must not be nil"
  | Some cfg =>
      match ValidateHistoryConfig cfg with
      | Some err => Err ("invalid history config: " +:+ err)
      | None => Ok (mkHistoryQueryParser cfg)
      end
  end.

(** [max_points], also of the temporal endpoint. *)
Definition parse_max_points (p : HistoryQueryParser) (params : gmap string string) : res herror Z :=
  match params !! "max_points" with
  | None => Ok (hb_DefaultPoints (qp_cfg p))
  | Some pointsVal =>
      match parseASCIIInteger pointsVal with
      | None => invalid_request
      | Some parsed =>
          if (parsed <? hb_MinPoints (qp_cfg p)) || (hb_MaxPoints (qp_cfg p) <? parsed)
          then invalid_request else Ok parsed
      end
  end.

(** The error of [ValidateHistoryTimeRange] as a [*QueryError]. *)
Definition range_error (err : HistoryError) : herror :=
  let e := HErr err in
  if is_history ErrHistoryRangeTooLarge e then HQuery "range_too_large" e
  else if is_history ErrHistoryRawLimitExceeded e then HQuery "raw_limit_exceeded" e
  else if is_history ErrHistoryResolutionTooFine e then HQuery "resolution_too_fine" e
  else if is_history ErrHistoryInvalidResolution e then HQuery "invalid_resolution" e
  else HQuery "invalid_request" e.

Definition parseCommonTimeAndResolution (p : HistoryQueryParser) (params : gmap string string)
    : res herror (TimeRange * Resolution * Z) :=
  match required params "from" with
  | None => invalid_request
  | Some fromVal =>
      match required params "to" with
      | None => invalid_request
      | Some toVal =>
          match parseRFC3339Micro fromVal with
          | None => invalid_request
          | Some fromTime =>
              match parseRFC3339Micro toVal with
              | None => invalid_request
              | Some toTime =>
                  let res := match params !! "resolution" with
                             | Some resVal => Resolution_of resVal
                             | None => ResolutionAuto
                             end in
                  if negb (Resolution_Valid res)
                  then Err (HQuery "invalid_resolution" (HErr ErrHistoryInvalidResolution))
                  else
                    let! maxPoints := parse_max_points p params in
                    let tr := mkTimeRange fromTime toTime in
                    match ValidateHistoryTimeRange tr res (hb_MaxRange (qp_cfg p)) (hb_RawWindow (qp_cfg p))
                            maxPoints with
                    | Some err => Err (range_error err)
                    | None => Ok (tr, res, maxPoints)
                    end
              end
          end
      end
  end.

Definition ParseTelemetryHistoryQuery (p : HistoryQueryParser) (rawQuery : string)
    : res herror TelemetryHistoryQuery :=
  let! params := parseRawQuery rawQuery ["gateway_id"; "sensor_id"; "from"; "to"; "resolution"; "max_points"] in
  match required params "gateway_id" with
  | None => invalid_request
  | Some gatewayIDVal =>
      if bool_decide (is_Some (ValidateGatewayID gatewayIDVal)) then invalid_request
      else match required params "sensor_id" with
      | None => invalid_request
      | Some sensorIDVal =>
          if bool_decide (is_Some (ValidateSensorID sensorIDVal)) then invalid_request
          else
            let! out := parseCommonTimeAndResolution p params in
            let '(tr, res, maxPoints) := out in
            Ok (mkHistoryQuery gatewayIDVal sensorIDVal tr res maxPoints)
      end
  end.

Definition ParseTwinHistoryQuery (p : HistoryQueryParser) (rawQuery entityID : string)
    : res herror TwinHistoryQuery :=
  match ParseEntityURN entityID with
  | Err _ => invalid_entity
  | Ok parsedEntity =>
      let! params := parseRawQuery rawQuery ["property"; "from"; "to"; "resolution"; "max_points"] in
      match required params "property" with
      | None => invalid_request
      | Some propertyVal =>
          if bool_decide (pi_Type parsedEntity = EntityTypeGateway) then invalid_property
          else if negb (bool_decide (propertyVal = selector_text SelectorValue))
                  && negb (bool_decide (propertyVal = selector_text SelectorSampleIntervalUS))
          then invalid_property
          else
            let! out := parseCommonTimeAndResolution p params in
            let '(tr, res, maxPoints) := out in
            Ok (mkTwinHistoryQuery entityID (HistorySelector_of propertyVal) tr res maxPoints 0)
      end
  end.

Definition ParseTwinStateQuery (rawQuery entityID : string) : res herror TwinStateQuery :=
  if negb (bool_decide (rawQuery = "")) then invalid_request
  else match ParseEntityURN entityID with
  | Err _ => invalid_entity
  | Ok _ => Ok (mkStateQuery entityID)
  end.

(** ** The temporal endpoint *)

Record TemporalPresentationOptions := mkPresentation {
  po_Format : string;
  po_AggrMethods : list string;
  po_PublicAttr : string;
}.

(** The loop over the comma-separated methods. *)
Fixpoint aggr_methods (tokens seen : list string) : option (list string) :=
  match tokens with
  | [] => Some seen
  | t :: rest =>
      let t := TrimSpace t in
      if bool_decide (t = "") then None
      else if bool_decide (t ∈ seen) then None
      else if bool_decide (t ∈ ["avg"; "min"; "max"; "totalCount"]) then aggr_methods rest (seen ++ [t])
      else None
  end.

Definition parse_attrs (params : gmap string string) : res herror (HistorySelector * string) :=
  match required params "attrs" with
  | None => invalid_request
  | Some attrsVal =>
      if contains_char "," attrsVal then invalid_request
      else if bool_decide (attrsVal = "measurement") then Ok (SelectorValue, "measurement")
      else if bool_decide (attrsVal = "value") then Ok (SelectorValue, "measurement")
      else if bool_decide (attrsVal = "sample_interval_us") then Ok (SelectorSampleIntervalUS, "sample_interval_us")
      else invalid_property
  end.

Definition parse_time_window (params : gmap string string) : res herror (Time * Time) :=
  match required params "timerel" with
  | None => invalid_request
  | Some timerelVal =>
      if negb (bool_decide (timerelVal = "between")) then invalid_request
      else match required params "timeAt" with
      | None => invalid_request
      | Some timeAtVal =>
          match parseRFC3339MicroUTCZ timeAtVal with
          | None => invalid_request
          | Some timeAt =>
              match required params "endTimeAt" with
              | None => invalid_request
              | Some endTimeAtVal =>
                  match parseRFC3339MicroUTCZ endTimeAtVal with
                  | None => invalid_request
                  | Some endTimeAt =>
                      if negb (Before timeAt endTimeAt) then invalid_request else Ok (timeAt, endTimeAt)
                  end
              end
          end
      end
  end.

(** The resolution, and whether it is a bucket. *)
Definition parse_aggr_period (params : gmap string string) : res herror (Resolution * bool) :=
  match required params "aggrPeriodDuration" with
  | Some durVal =>
      match CanonicalDurationsToResolution !! durVal with
      | None => Err (HQuery "invalid_resolution" (HErr ErrHistoryInvalidResolution))
      | Some mappedRes => Ok (mappedRes, true)
      end
  | None => Ok (ResolutionRaw, false)
  end.

Definition parse_aggr_methods (params : gmap string string) (isBucket : bool) : res herror (list string) :=
  if negb isBucket then
    match params !! "aggrMethods" with Some _ => invalid_request | None => Ok [] end
  else
    match required params "aggrMethods" with
    | None => Ok ["avg"; "min"; "max"; "totalCount"]
    | Some methodsVal =>
        match aggr_methods (Split methodsVal ",") [] with
        | None => invalid_request
        | Some methods => Ok methods
        end
    end.

Definition parse_format (params : gmap string string) (isBucket : bool) : res herror string :=
  match required params "format" with
  | None => Ok (if isBucket then "aggregatedValues" else "temporalValues")
  | Some formatVal =>
      if bool_decide (formatVal = "temporalValues") then
        if isBucket then invalid_request else Ok "temporalValues"
      else if bool_decide (formatVal = "aggregatedValues") then
        if negb isBucket then invalid_request else Ok "aggregatedValues"
      else invalid_request
  end.

Definition ParseTemporalHistoryQuery (p : HistoryQueryParser) (rawQuery entityID : string)
    : res herror (TwinHistoryQuery * TemporalPresentationOptions) :=
  match ParseEntityURN entityID with
  | Err _ => invalid_entity
  | Ok parsedEntity =>
      if bool_decide (pi_Type parsedEntity = EntityTypeGateway) then invalid_property
      else
        let! params := parseRawQuery rawQuery
          ["attrs"; "timerel"; "timeAt"; "endTimeAt"; "timeproperty"; "aggrPeriodDuration"; "aggrMethods";
           "format"; "max_points"] in
        let! attrs := parse_attrs params in
        let '(domainProp, publicAttr) := attrs in
        let! window := parse_time_window params in
        let '(timeAt, endTimeAt) := window in
        if negb (bool_decide (default "observedAt" (params !! "timeproperty") = "observedAt")) then invalid_request
        else
          let! period := parse_aggr_period params in
          let '(res, isBucket) := period in
          let! selectedMethods := parse_aggr_methods params isBucket in
          let! format := parse_format params isBucket in
          let! maxPoints := parse_max_points p params in
          let tr := mkTimeRange timeAt endTimeAt in
          match ValidateHistoryTimeRange tr res (hb_MaxRange (qp_cfg p)) (hb_RawWindow (qp_cfg p)) maxPoints with
          | Some err => Err (range_error err)
          | None =>
              Ok (mkTwinHistoryQuery entityID domainProp tr res maxPoints 0,
                  mkPresentation format selectedMethods publicAttr)
          end
  end.
