(* ===== verification/QueryParserSpec.v ===== *)
(** * What the query parsers promise

    A parsed query is one the services accept, every accepted query has a text
    that is parsed back to it, and a refused text is answered with 400 and a
    code of the contract. *)

From S2P Require Import Prelude GoStrings GoTime GoFloat Identity Urn Uuid Telemetry Validation Batch.
From S2P Require Import QueryParser QueryTime HistoryQuery HistoryStore History HistorySpec HistoryErrors.
From S2P Require Import TwinModel.
#[local] Open Scope Z_scope.

(** ** The parameters *)

Definition entry_ok (allowedKeys : list string) (entry : string * list string) : bool :=
  bool_decide (entry.1 ∈ allowedKeys)
  && match entry.2 with
     | [] => true
     | [val] => negb (bool_decide (val = ""))
     | _ => false
     end.

Definition entry_value (entry : string * list string) : option (string * string) :=
  match entry.2 with [val] => Some (entry.1, val) | _ => None end.

Lemma collect_params_value allowed entries : forall result, NoDup entries.*1 ->
  Forall (fun e => result !! e.1 = None) entries ->
  collect_params allowed entries result
  = if forallb (entry_ok allowed) entries then Ok (list_to_map (omap entry_value entries) ∪ result)
    else invalid_request.
Proof.
  induction entries as [|[key values] rest IH]; intros result Hnd Hr.
  { cbn. by rewrite (left_id_L ∅ union). }
  cbn in Hnd. apply list.NoDup_cons in Hnd as [Hk Hnd]. apply list.Forall_cons in Hr as [Hr Hrest]. cbn in Hr.
  cbn [collect_params forallb]. unfold entry_ok at 1. cbn [fst snd].
  destruct (bool_decide (key ∈ allowed)); cbn [negb andb]; [|done].
  destruct values as [|val [|]]; cbn [andb]; [by apply IH| |done].
  case_bool_decide as Hv; cbn [negb andb]; [done|]. rewrite IH; [|done|].
  - destruct (forallb _ rest); [|done]. f_equal. cbn [omap list_omap entry_value snd fst].
    symmetry. rewrite list_to_map_cons, <- insert_union_l, insert_union_r; [done|].
    apply not_elem_of_list_to_map_1. intros H. apply Hk.
    apply list_elem_of_fmap in H as ([k1 v1] & -> & H). apply list_elem_of_omap in H as ([k2 vs] & H & E).
    apply list_elem_of_fmap. exists (k2, vs). split; [|done]. unfold entry_value in E. cbn in *.
    by destruct vs as [|? [|]]; inversion E.
  - rewrite list.Forall_forall in *. intros e He. rewrite lookup_insert_ne; [by apply Hrest|].
    intros ->. apply Hk. apply list_elem_of_fmap. by exists e.
Qed.

(** The order in which the range loop visits the parameters is irrelevant. *)
Lemma collect_params_order allowed entries entries' : NoDup entries.*1 -> entries ≡ₚ entries' ->
  collect_params allowed entries ∅ = collect_params allowed entries' ∅.
Proof.
  intros Hnd Hp. assert (NoDup entries'.*1) as Hnd' by by rewrite <- Hp.
  assert (forall l : list (string * list string), Forall (fun e => (∅ : gmap string string) !! e.1 = None) l) as He.
  { intros l. apply list.Forall_forall. intros e _. apply lookup_empty. }
  rewrite !collect_params_value by done. assert (forallb (entry_ok allowed) entries = forallb (entry_ok allowed) entries') as ->.
  { clear Hnd Hnd' He. induction Hp; cbn; [done|by rewrite IHHp|by rewrite !andb_assoc, (andb_comm (entry_ok _ _))|congruence]. }
  destruct (forallb _ _); [|done]. f_equal. f_equal. apply list_to_map_proper; [|by rewrite Hp].
  clear Hp Hnd' He. induction entries as [|[k vs] entries IH]; cbn; [constructor|].
  cbn in Hnd. apply list.NoDup_cons in Hnd as [Hk Hnd]. specialize (IH Hnd).
  unfold entry_value at 1. cbn [snd fst]. destruct vs as [|v [|]]; try done. cbn. apply list.NoDup_cons. split; [|done].
  intros H. apply Hk. apply list_elem_of_fmap in H as ([k1 v1] & -> & H). apply list_elem_of_omap in H as ([k2 vs] & H & E).
  apply list_elem_of_fmap. exists (k2, vs). split; [|done]. unfold entry_value in E. cbn in *.
  by destruct vs as [|? [|]]; inversion E.
Qed.

(** Plain, distinct, non-empty parameters are read as they are written. *)
Lemma parseRawQuery_plain allowed kvs : kvs <> [] -> NoDup (map fst kvs) ->
  Forall (fun kv => kv.1 ∈ allowed /\ plain kv.1 = true /\ plain kv.2 = true /\ kv.2 <> "") kvs ->
  str_len (query_string kvs) <= MaxRawQueryBytes ->
  parseRawQuery (query_string kvs) allowed = Ok (list_to_map kvs).
Proof.
  intros Hne Hnd Hp Hl. unfold parseRawQuery. rewrite (proj2 (Z.ltb_ge _ _)) by done.
  assert (no_char ";" (query_string kvs) = true) as Hs.
  { unfold query_string. clear Hne Hnd Hl. induction Hp as [|[k v] kvs (_ & Pk & Pv & _) _ IH]; [done|].
    cbn in Pk, Pv. assert (no_char ";" (query_pair (k, v)) = true) as Hkv by by apply no_char_pair.
    destruct kvs as [|kv kvs]; [done|]. cbn [map Join] in *. unfold no_char in *.
    rewrite str_forallb_app, Hkv. cbn [str_forallb andb]. by rewrite IH. }
  unfold contains_char. rewrite Hs. cbn [negb]. rewrite ParseQuery_query_string; [|done..|].
  2:{ eapply list.Forall_impl; [exact Hp|]. intros kv (_ & ? & ? & _); by split. }
  set (es := map (fun kv : string * string => (kv.1, [kv.2])) kvs).
  assert (NoDup es.*1) as Hes.
  { unfold es. rewrite <- list_fmap_compose. exact Hnd. }
  rewrite (collect_params_order _ _ es); [|by apply NoDup_fst_map_to_list|by apply map_to_list_to_map].
  rewrite collect_params_value; [|done|].
  2:{ apply list.Forall_forall. intros e _. apply lookup_empty. }
  assert (forallb (entry_ok allowed) es = true) as ->.
  { apply forallb_forall. intros e He. unfold es in He. apply in_map_iff in He as ([k v] & <- & He).
    rewrite list.Forall_forall in Hp. destruct (Hp (k, v)) as (Ha & _ & _ & Hv); [by apply list_elem_of_In|].
    unfold entry_ok. cbn in *. rewrite bool_decide_eq_true_2, bool_decide_eq_false_2 by done. done. }
  rewrite (right_id_L ∅ union). do 2 f_equal. unfold es. clear.
  induction kvs as [|[k v] kvs IH]; [done|]. cbn. by rewrite IH.
Qed.

Lemma required_some params key v : params !! key = Some v -> v <> "" -> required params key = Some v.
Proof. intros H Hv. unfold required. by rewrite H, bool_decide_eq_false_2. Qed.

(** ** A parsed query is accepted *)

Lemma parser_cfg cfg p : NewHistoryQueryParser (Some cfg) = Ok p ->
  p = mkHistoryQueryParser cfg /\ ValidateHistoryConfig cfg = None.
Proof. unfold NewHistoryQueryParser. destruct (ValidateHistoryConfig cfg); [done|]. intros H. by injection H as <-. Qed.

Lemma res_bind_ok {E A B} (m : res E A) (f : A -> res E B) b :
  (let! x := m in f x) = Ok b -> exists a, m = Ok a /\ f a = Ok b.
Proof. destruct m as [a|e]; [|done]. intros H. by exists a. Qed.

Lemma max_points_ok p params n : hb_MinPoints (qp_cfg p) <= hb_DefaultPoints (qp_cfg p) <= hb_MaxPoints (qp_cfg p) ->
  parse_max_points p params = Ok n -> hb_MinPoints (qp_cfg p) <= n <= hb_MaxPoints (qp_cfg p).
Proof.
  intros Hd H. unfold parse_max_points in H. repeat case_match; try done; try (injection H as <-); [|done].
  rewrite orb_false_iff, !Z.ltb_ge in *. lia.
Qed.

Lemma query_time_utc s t : parseRFC3339Micro s = Some t -> loc_off t = 0.
Proof. rewrite query_time_core. intros H. by apply parseMeasuredAt_ok in H as (_ & _ & ? & _). Qed.

Lemma parse_common_ok p params tr r n : history_bounds (qp_cfg p) ->
  parseCommonTimeAndResolution p params = Ok (tr, r, n) ->
  hb_MinPoints (qp_cfg p) <= n <= hb_MaxPoints (qp_cfg p)
  /\ ValidateHistoryTimeRange tr r (hb_MaxRange (qp_cfg p)) (hb_RawWindow (qp_cfg p)) n = None
  /\ loc_off (rng_From tr) = 0 /\ loc_off (rng_To tr) = 0.
Proof.
  intros Hb H. unfold parseCommonTimeAndResolution in H.
  destruct (required params "from"); [|done]. destruct (required params "to"); [|done].
  destruct (parseRFC3339Micro _) as [from|] eqn:Ef; [|done].
  destruct (parseRFC3339Micro s0) as [to|] eqn:Et; [|done]. destruct (negb _); [done|].
  apply res_bind_ok in H as (m & Hm & H). destruct (ValidateHistoryTimeRange _ _ _ _ _) eqn:Hv; [done|].
  injection H as <- <- <-. apply max_points_ok in Hm; [|by destruct Hb as [_ _ _ _ (? & ? & ?)]; lia].
  split_and!; [lia|lia|done| |]; by eapply query_time_utc.
Qed.

Lemma parsed_accepted cfg p raw q : NewHistoryQueryParser (Some cfg) = Ok p ->
  ParseTelemetryHistoryQuery p raw = Ok q ->
  check_query (ToTelemetryPreparationConfig cfg) q = None
  /\ loc_off (rng_From (hq_Range q)) = 0 /\ loc_off (rng_To (hq_Range q)) = 0.
Proof.
  intros Hp H. apply parser_cfg in Hp as [-> Hv]. apply history_bounds_spec in Hv.
  unfold ParseTelemetryHistoryQuery in H. apply res_bind_ok in H as (params & _ & H).
  destruct (required params "gateway_id") as [g|]; [|done]. case_bool_decide as Hg; [done|].
  destruct (required params "sensor_id") as [s|]; [|done]. case_bool_decide as Hs; [done|].
  apply res_bind_ok in H as ([[tr r] n] & Hc & H). injection H as <-.
  apply parse_common_ok in Hc as (Hn & Hr & Hf & Ht); [|done]. cbn [qp_cfg] in *. split; [|done].
  unfold check_query. cbn [hq_GatewayID hq_SensorID hq_MaxPoints hq_Range hq_Resolution ToTelemetryPreparationConfig
    hc_MinPoints hc_MaxPoints hc_MaxRange hc_RawWindow].
  rewrite !bool_decide_eq_false_2 by done. rewrite !(proj2 (Z.ltb_ge _ _)) by lia. exact Hr.
Qed.

(** A parsed telemetry history query is one the history service accepts under the
    same configuration: the service never refuses what the parser let through,
    and both ends of the range are UTC instants. *)
Theorem parsed_query_accepted cfg p raw q : NewHistoryQueryParser (Some cfg) = Ok p ->
  ParseTelemetryHistoryQuery p raw = Ok q ->
  check_query (ToTelemetryPreparationConfig cfg) q = None
  /\ loc_off (rng_From (hq_Range q)) = 0 /\ loc_off (rng_To (hq_Range q)) = 0.
Proof. exact (parsed_accepted cfg p raw q). Qed.

(** ** Every accepted query can be asked *)

(** The text of a query, as a client writes it. *)
Definition query_text (q : TelemetryHistoryQuery) : string :=
  query_string
    [("gateway_id", hq_GatewayID q); ("sensor_id", hq_SensorID q);
     ("from", FormatMicros (rng_From (hq_Range q))); ("to", FormatMicros (rng_To (hq_Range q)));
     ("resolution", resolution_text (hq_Resolution q)); ("max_points", FormatInt (hq_MaxPoints q))].

Lemma id_query_plain id : gatewayIDPattern id = true -> plain id = true.
Proof.
  intros H. apply pattern_chars in H. eapply str_forallb_impl; [|exact H]. intros c Hc.
  apply plain_char_spec. split_and!; intros ->; discriminate Hc.
Qed.

Lemma digit_plain c : is_digit c = true -> plain_char c = true.
Proof. intros H. apply plain_char_spec. split_and!; intros ->; discriminate H. Qed.

Lemma fixed_digits_plain_query w n s : plain s = true -> plain (fixed_digits w n s) = true.
Proof.
  revert n s. induction w as [|w IH]; intros n s Hs; [done|]. cbn [fixed_digits]. apply IH.
  unfold plain. cbn [str_forallb]. rewrite digit_plain by (apply chr_digit; dlia). exact Hs.
Qed.

Lemma FormatMicros_plain_query t : plain (FormatMicros t) = true.
Proof.
  unfold FormatMicros, format_seconds. destruct (civil_from_days _) as [[y m] d].
  repeat (apply fixed_digits_plain_query; unfold plain; cbn [str_forallb]; apply andb_true_iff; split; [done|]).
  done.
Qed.

Lemma FormatInt_plain n : plain (FormatInt n) = true.
Proof. unfold FormatInt. destruct (n <? 0); [unfold plain; cbn [str_forallb]; apply andb_true_iff; split; [done|]|]; by apply fixed_digits_plain_query. Qed.

Lemma Resolution_of_text r : Resolution_Valid r = true -> Resolution_of (resolution_text r) = r.
Proof. by destruct r. Qed.

Lemma resolution_plain r : Resolution_Valid r = true ->
  plain (resolution_text r) = true /\ resolution_text r <> "" /\ str_len (resolution_text r) <= 5.
Proof. intros H. destruct r; try done; vm_compute; (split; [done|split; [done|discriminate]]). Qed.

Lemma parseASCIIInteger_FormatInt n : 0 <= n <= max_int64 -> parseASCIIInteger (FormatInt n) = Some n.
Proof.
  intros Hn. unfold parseASCIIInteger.
  assert (str_forallb is_digit (FormatInt n) = true /\ FormatInt n <> "") as [Hd Hne].
  { unfold FormatInt. rewrite (proj2 (Z.ltb_ge _ _)) by lia. split; [by apply fixed_digits_forallb|].
    intros E. apply (f_equal String.length) in E. rewrite fixed_digits_length in E. cbn [String.length] in E.
    pose proof (num_digits_pos 20 n). lia. }
  rewrite bool_decide_eq_false_2, Hd by done. cbn [negb]. apply ParseInt10_FormatInt.
  unfold in_int64, min_int64. lia.
Qed.

Lemma query_time_text t : loc_off t = 0 -> 1 <= Year t <= 9999 -> unix_ns t mod 1000 = 0 ->
  parseRFC3339Micro (FormatMicros t) = Some t /\ parseRFC3339MicroUTCZ (FormatMicros t) = Some t.
Proof.
  intros Ho Hy Hu. assert (exists a, FormatMicros t = a +:+ "Z") as [a Ha].
  { unfold FormatMicros, format_seconds. destruct (civil_from_days _) as [[y m] d].
    assert (forall w n a, exists b, fixed_digits w n (a +:+ "Z") = b +:+ "Z") as Hf.
    { induction w as [|w IH]; intros n a; [by exists a|]. cbn [fixed_digits]. apply (IH _ (String _ a)). }
    destruct (Hf 6%nat (Nanosec t / 1000) "") as [b1 E1]. rewrite str_app_nil_l in E1. rewrite E1.
    repeat match goal with |- context [fixed_digits ?w ?n (String ?c (?b +:+ "Z"))] =>
      let b' := fresh "b" in let E := fresh "E" in
      destruct (Hf w n (String c b)) as [b' E]; rewrite str_app_cons in E; rewrite E; clear E end.
    by eexists. }
  assert (parseRFC3339Micro (FormatMicros t) = Some t) as E.
  { rewrite query_time_core, Ha, upper_z_app by done. change (upper_z "Z") with "Z". rewrite <- Ha.
    rewrite parseMeasuredAt_FormatMicros by done. f_equal. destruct t as [n o]. cbn in *. subst o. f_equal.
    pose proof (Z.div_mod n 1000). lia. }
  split; [done|]. apply utcz_core. by eauto.
Qed.

Lemma year_bounds t : year_in_range t = true -> 1 <= Year t <= 9999.
Proof. unfold year_in_range. rewrite negb_true_iff, orb_false_iff, !Z.ltb_ge. lia. Qed.

(** The parameters of [query_text]. *)
Definition query_params (q : TelemetryHistoryQuery) : gmap string string := list_to_map
  [("gateway_id", hq_GatewayID q); ("sensor_id", hq_SensorID q);
   ("from", FormatMicros (rng_From (hq_Range q))); ("to", FormatMicros (rng_To (hq_Range q)));
   ("resolution", resolution_text (hq_Resolution q)); ("max_points", FormatInt (hq_MaxPoints q))].

Lemma FormatMicros_len t : str_len (FormatMicros t) = 27.
Proof. apply str_len_FormatMicros. Qed.

Lemma FormatInt_points n : 0 <= n <= 9999 -> str_len (FormatInt n) <= 4.
Proof.
  intros Hn. unfold FormatInt. rewrite (proj2 (Z.ltb_ge _ _)) by lia. unfold str_len.
  rewrite fixed_digits_length. cbn [String.length]. cbn [num_digits].
  destruct (Z.ltb_spec n 10); [lia|]. destruct (Z.ltb_spec (n / 10) 10); [lia|].
  destruct (Z.ltb_spec (n / 10 / 10) 10); [lia|]. destruct (Z.ltb_spec (n / 10 / 10 / 10) 10); [lia|]. dlia.
Qed.

Lemma string_nonempty s n : str_len s = n -> 0 < n -> s <> "".
Proof. intros E H ->. change (str_len "") with 0 in E. lia. Qed.

Ltac known_key := apply (bool_decide_unpack _); vm_compute; exact I.

Lemma query_text_params cfg q : config_ok cfg -> query_ok cfg q -> Resolution_Valid (hq_Resolution q) = true ->
  parseRawQuery (query_text q) ["gateway_id"; "sensor_id"; "from"; "to"; "resolution"; "max_points"]
  = Ok (query_params q).
Proof.
  intros Hc [Hg Hs Hp _ _ _] Hr. pose proof (co_points _ Hc) as [Hm Hx].
  apply valid_gateway_pattern in Hg. apply valid_sensor_pattern in Hs.
  destruct (resolution_plain _ Hr) as (Rp & Rn & Rl).
  apply parseRawQuery_plain; [done| | |].
  - apply (bool_decide_unpack _). by vm_compute.
  - repeat (apply list.Forall_cons; split; [|]); [..|by constructor]; cbn [fst snd].
    1: split_and!; [known_key|done|by apply id_query_plain|by apply pattern_nonempty].
    1: split_and!; [known_key|done|by apply id_query_plain|by apply pattern_nonempty].
    1: split_and!; [known_key|done|apply FormatMicros_plain_query|by apply (string_nonempty _ 27), eq_refl; apply FormatMicros_len].
    1: split_and!; [known_key|done|apply FormatMicros_plain_query|by apply (string_nonempty _ 27), eq_refl; apply FormatMicros_len].
    1: split_and!; [known_key|done..].
    split_and!; [known_key|done|apply FormatInt_plain|]. intros E.
    assert (parseASCIIInteger (FormatInt (hq_MaxPoints q)) = Some (hq_MaxPoints q)) as Hi
      by (apply parseASCIIInteger_FormatInt; unfold max_int64; lia). by rewrite E in Hi.
  - apply pattern_length in Hg, Hs. pose proof (FormatInt_points (hq_MaxPoints q) ltac:(lia)) as Hi.
    pose proof (FormatMicros_len (rng_From (hq_Range q))) as Hf. pose proof (FormatMicros_len (rng_To (hq_Range q))) as Ht.
    unfold query_string, query_pair, MaxRawQueryBytes, str_len in *. cbn [map Join fst snd].
    repeat (rewrite str_length_app; cbn [String.length]). lia.
Qed.

Lemma utc_time t : loc_off t = 0 -> UTC t = t.
Proof. destruct t as [n o]. cbn. by intros ->. Qed.

Lemma accepted_parses cfg p q : NewHistoryQueryParser (Some cfg) = Ok p ->
  check_query (ToTelemetryPreparationConfig cfg) q = None ->
  loc_off (rng_From (hq_Range q)) = 0 -> loc_off (rng_To (hq_Range q)) = 0 ->
  ParseTelemetryHistoryQuery p (query_text q) = Ok q.
Proof.
  intros Hp Hq Hof Hot. apply parser_cfg in Hp as [-> Hv].
  assert (config_ok (ToTelemetryPreparationConfig cfg)) as Hc by by apply config_ok_spec, bounds_prepared.
  pose proof Hq as Hq'. apply check_query_spec in Hq' as [Hqo Hres]; [|done].
  assert (Resolution_Valid (hq_Resolution q) = true) as Hr.
  { destruct (hq_Resolution q); try done. by destruct Hres as (? & ? & ? & _). }
  unfold ParseTelemetryHistoryQuery. rewrite (query_text_params _ q Hc Hqo Hr). cbn [mbind res_bind].
  pose proof (qo_range _ _ Hqo) as Hrange. destruct Hqo as [Hg Hs Hp Hyf Hyt [Hf Ht Huf Hut _ _]].
  assert (forall v key, query_params q !! key = Some v -> v <> "" -> required (query_params q) key = Some v) as Hget
    by (intros; by apply required_some).
  rewrite (Hget (hq_GatewayID q) "gateway_id") by (done || by apply pattern_nonempty, valid_gateway_pattern).
  rewrite Hg, bool_decide_eq_false_2 by (by intros []).
  rewrite (Hget (hq_SensorID q) "sensor_id") by (done || by apply pattern_nonempty, valid_sensor_pattern).
  rewrite Hs, bool_decide_eq_false_2 by (by intros []).
  unfold parseCommonTimeAndResolution.
  rewrite (Hget (FormatMicros (rng_From (hq_Range q))) "from") by (done || by apply (string_nonempty _ 27), eq_refl; apply FormatMicros_len).
  rewrite (Hget (FormatMicros (rng_To (hq_Range q))) "to") by (done || by apply (string_nonempty _ 27), eq_refl; apply FormatMicros_len).
  destruct (query_time_text (rng_From (hq_Range q))) as [-> _]; [done|by apply year_bounds|done|].
  destruct (query_time_text (rng_To (hq_Range q))) as [-> _]; [done|by apply year_bounds|done|].
  change (query_params q !! "resolution") with (Some (resolution_text (hq_Resolution q))). cbv iota beta.
  rewrite Resolution_of_text, Hr by done. cbn [negb].
  unfold parse_max_points. change (query_params q !! "max_points") with (Some (FormatInt (hq_MaxPoints q))).
  cbv iota beta. pose proof (co_points _ Hc) as [Hm Hx].
  rewrite parseASCIIInteger_FormatInt by (unfold max_int64; lia). cbn [qp_cfg].
  cbn [ToTelemetryPreparationConfig hc_MinPoints hc_MaxPoints] in Hp. rewrite !(proj2 (Z.ltb_ge _ _)) by lia. cbn [orb mbind res_bind].
  destruct q as [g s [from to] r n]. cbn [rng_From rng_To hq_Range hq_Resolution hq_MaxPoints hq_GatewayID hq_SensorID] in *.
  assert (ValidateHistoryTimeRange (mkTimeRange from to) r (hb_MaxRange cfg) (hb_RawWindow cfg) n = None) as ->; [|done].
  destruct (config_int64 _ Hc) as [Hmr Hrw]. by apply validate_range_spec.
Qed.

(** C31 Every query the history service accepts, with UTC ends, can be asked: its text
    is parsed back to the very same query. *)
Theorem accepted_query_parsed cfg p q : NewHistoryQueryParser (Some cfg) = Ok p ->
  check_query (ToTelemetryPreparationConfig cfg) q = None ->
  loc_off (rng_From (hq_Range q)) = 0 -> loc_off (rng_To (hq_Range q)) = 0 ->
  ParseTelemetryHistoryQuery p (query_text q) = Ok q.
Proof. exact (accepted_parses cfg p q). Qed.

(** ** Refused texts *)

(** A [*QueryError] whose code is the one the error mapping gives to the
    sentinel it wraps, answered with 400. *)
Definition refusal (e : herror) : Prop := exists code inner, e = HQuery code inner
  /\ writeReadError e = (400, code) /\ writeReadError inner = (400, code).

Definition refuses {A} (m : res herror A) : Prop := forall e, m = Err e -> refusal e.

Create HintDb refusal.

Lemma refuses_ok {A} (a : A) : refuses (Ok a).
Proof. done. Qed.

Lemma refuses_request {A} : refuses (@invalid_request A).
Proof. intros e H. injection H as <-. by eexists _, _. Qed.

Lemma refuses_entity {A} : refuses (@invalid_entity A).
Proof. intros e H. injection H as <-. by eexists _, _. Qed.

Lemma refuses_property {A} : refuses (@invalid_property A).
Proof. intros e H. injection H as <-. by eexists _, _. Qed.

Lemma refuses_resolution {A} : refuses (@Err _ A (HQuery "invalid_resolution" (HErr ErrHistoryInvalidResolution))).
Proof. intros e H. injection H as <-. by eexists _, _. Qed.

Lemma refuses_bind {A B} (m : res herror A) (f : A -> res herror B) : refuses m ->
  (forall a, refuses (f a)) -> refuses (let! x := m in f x).
Proof. intros Hm Hf e. destruct m as [a|e']; cbn; [apply Hf|]. intros H. injection H as <-. by apply Hm. Qed.

Lemma validate_range_errors tr r maxRange rawWindow n err :
  ValidateHistoryTimeRange tr r maxRange rawWindow n = Some err -> refusal (range_error err).
Proof.
  unfold ValidateHistoryTimeRange. intros H.
  repeat (case_match; try done); injection H as <-; by eexists _, _.
Qed.

#[export] Hint Resolve refuses_ok refuses_request refuses_entity refuses_property refuses_resolution : refusal.

(** Walks a parser: every branch is a value or one of the refusals. *)
Ltac walk_parser := repeat first
  [ solve [eauto with refusal]
  | apply refuses_bind; [|intros]
  | match goal with |- refuses (match ?m with _ => _ end) => destruct m eqn:? end ].

Lemma collect_params_refuses allowed entries : forall result, refuses (collect_params allowed entries result).
Proof. induction entries as [|[key values] rest IH]; intros result; cbn [collect_params]; walk_parser; apply IH. Qed.

Lemma parseRawQuery_refuses raw allowed : refuses (parseRawQuery raw allowed).
Proof. unfold parseRawQuery. walk_parser. apply collect_params_refuses. Qed.

Lemma parse_max_points_refuses p params : refuses (parse_max_points p params).
Proof. unfold parse_max_points. walk_parser. Qed.

#[export] Hint Resolve parseRawQuery_refuses parse_max_points_refuses : refusal.

Lemma refuses_range {A} tr r maxRange rawWindow n (v : A) :
  refuses (match ValidateHistoryTimeRange tr r maxRange rawWindow n with
           | Some err => Err (range_error err)
           | None => Ok v
           end).
Proof.
  destruct (ValidateHistoryTimeRange _ _ _ _ _) as [err|] eqn:E; [|done].
  intros e H. injection H as <-. by eapply validate_range_errors.
Qed.

#[export] Hint Resolve refuses_range : refusal.

Lemma parseCommon_refuses p params : refuses (parseCommonTimeAndResolution p params).
Proof. unfold parseCommonTimeAndResolution. walk_parser. Qed.

Lemma parse_parts_refuse params b : refuses (parse_attrs params) /\ refuses (parse_time_window params)
  /\ refuses (parse_aggr_period params) /\ refuses (parse_aggr_methods params b) /\ refuses (parse_format params b).
Proof.
  unfold parse_attrs, parse_time_window, parse_aggr_period, parse_aggr_methods, parse_format.
  split_and!; walk_parser.
Qed.

Lemma parse_temporal_refuses p raw urn : refuses (ParseTemporalHistoryQuery p raw urn).
Proof.
  unfold ParseTemporalHistoryQuery. walk_parser; try (by apply parse_parts_refuse);
    apply (parse_parts_refuse _ true).
Qed.

(** Every text a parser of the history, temporal and state endpoints refuses is
    answered with status 400 and a code; the code is the one the error mapping
    gives to the sentinel the parser wrapped. *)
Theorem refused_text_is_bad_request p raw urn :
  refuses (ParseTelemetryHistoryQuery p raw) /\ refuses (ParseTwinHistoryQuery p raw urn)
  /\ refuses (ParseTwinStateQuery raw urn) /\ refuses (ParseTemporalHistoryQuery p raw urn).
Proof.
  split_and!; [| | |apply parse_temporal_refuses].
  - unfold ParseTelemetryHistoryQuery. walk_parser. apply parseCommon_refuses.
  - unfold ParseTwinHistoryQuery. walk_parser. apply parseCommon_refuses.
  - unfold ParseTwinStateQuery. walk_parser.
Qed.
