(* ===== verification/Cursor.v ===== *)
(** * Package [encoding/base64]: [RawURLEncoding]

    The URL alphabet without padding.  Decoding is not strict: line breaks are
    skipped and the unused low bits of the last character are not checked. *)

From S2P Require Import Prelude GoStrings GoTime GoFloat GoJson Uuid Identity Urn Telemetry Decode Batch.
From S2P Require Import HistoryQuery TwinModel.
#[local] Open Scope Z_scope.

Definition alphabet_char (n : Z) : ascii :=
  if n <? 26 then chr (65 + n)
  else if n <? 52 then chr (97 + (n - 26))
  else if n <? 62 then chr (48 + (n - 52))
  else if n =? 62 then "-"%char else "_"%char.

Definition sextet (c : ascii) : option Z :=
  if is_upper c then Some (byte_of c - 65)
  else if is_lower c then Some (byte_of c - 71)
  else if is_digit c then Some (byte_of c + 4)
  else if bool_decide (c = "-"%char) then Some 62
  else if bool_decide (c = "_"%char) then Some 63
  else None.

(** [EncodeToString]: three bytes become four characters. *)
Fixpoint EncodeToString (src : string) : string :=
  match src with
  | String a (String b (String c rest)) =>
      let v := byte_of a * 65536 + byte_of b * 256 + byte_of c in
      String (alphabet_char (v / 262144)) (String (alphabet_char (v / 4096 mod 64))
        (String (alphabet_char (v / 64 mod 64)) (String (alphabet_char (v mod 64)) (EncodeToString rest))))
  | String a (String b EmptyString) =>
      let v := byte_of a * 65536 + byte_of b * 256 in
      String (alphabet_char (v / 262144)) (String (alphabet_char (v / 4096 mod 64))
        (String (alphabet_char (v / 64 mod 64)) ""))
  | String a EmptyString =>
      let v := byte_of a * 65536 in
      String (alphabet_char (v / 262144)) (String (alphabet_char (v / 4096 mod 64)) "")
  | EmptyString => ""
  end.

Fixpoint strip_newlines (s : string) : string :=
  match s with
  | EmptyString => ""
  | String c r =>
      if (byte_of c =? 10) || (byte_of c =? 13) then strip_newlines r else String c (strip_newlines r)
  end.

(** The quanta of a text without line breaks; one character alone is an error. *)
Fixpoint decode_quanta (s : string) : option string :=
  match s with
  | EmptyString => Some ""
  | String a EmptyString => None
  | String a (String b EmptyString) =>
      x ← sextet a; y ← sextet b;
      let v := x * 262144 + y * 4096 in
      Some (String (chr (v / 65536)) "")
  | String a (String b (String c EmptyString)) =>
      x ← sextet a; y ← sextet b; z ← sextet c;
      let v := x * 262144 + y * 4096 + z * 64 in
      Some (String (chr (v / 65536)) (String (chr (v / 256 mod 256)) ""))
  | String a (String b (String c (String d rest))) =>
      x ← sextet a; y ← sextet b; z ← sextet c; w ← sextet d;
      let v := x * 262144 + y * 4096 + z * 64 + w in
      r ← decode_quanta rest;
      Some (String (chr (v / 65536)) (String (chr (v / 256 mod 256)) (String (chr (v mod 256)) r)))
  end.

(** [DecodeString], [None] for a [CorruptInputError]. *)
Definition DecodeString (s : string) : option string := decode_quanta (strip_newlines s).

Example base64_ex : map EncodeToString [""; "f"; "fo"; "foo"; "foob"] = [""; "Zg"; "Zm8"; "Zm9v"; "Zm9vYg"]
  /\ map DecodeString ["Zg"; "Zh"; "Zm9v"; "Z"; "Zm9vYg=="; "_-8"]
     = [Some "f"; Some "f"; Some "foo"; None; None; Some (String (chr 255) (String (chr 239) ""))].
Proof. by vm_compute. Qed.

(** ** Round trip *)

Definition sextet_ok (n : Z) : bool :=
  bool_decide (sextet (alphabet_char n) = Some n)
  && negb ((byte_of (alphabet_char n) =? 10) || (byte_of (alphabet_char n) =? 13))
  && negb (bool_decide (alphabet_char n = "="%char)).

Lemma sextet_all n : 0 <= n < 64 -> sextet_ok n = true.
Proof.
  intros H. assert (all_below 64 0 sextet_ok = true) as Hall by (vm_compute; reflexivity).
  apply (all_below_spec _ _ _ _ Hall). lia.
Qed.

Lemma sextet_alphabet n : 0 <= n < 64 -> sextet (alphabet_char n) = Some n.
Proof. intros H. apply sextet_all in H. unfold sextet_ok in H. rewrite !andb_true_iff in H. destruct H as [[H _] _]. by apply bool_decide_eq_true in H. Qed.

Lemma byte_range c : 0 <= byte_of c < 256.
Proof. unfold byte_of. pose proof (N_ascii_bounded c). lia. Qed.

Lemma chr_byte c : chr (byte_of c) = c.
Proof. unfold chr, byte_of. by rewrite N2Z.id, ascii_N_embedding. Qed.

Definition plain64 (c : ascii) : bool :=
  negb ((byte_of c =? 10) || (byte_of c =? 13)) && negb (bool_decide (c = "="%char)).

Lemma alphabet_plain n : 0 <= n < 64 -> plain64 (alphabet_char n) = true.
Proof. intros H. apply sextet_all in H. unfold sextet_ok, plain64 in *. rewrite !andb_true_iff in *. tauto. Qed.

(** Induction on the three-byte groups of a text. *)
Lemma groups_ind (P : string -> Prop) :
  P "" -> (forall a, P (String a "")) -> (forall a b, P (String a (String b ""))) ->
  (forall a b c r, P r -> P (String a (String b (String c r)))) -> forall s, P s.
Proof.
  intros H0 H1 H2 H3. fix IH 1. intros [|a [|b [|c r]]]; [done|apply H1|apply H2|apply H3, IH].
Qed.

Lemma encode_plain s : str_forallb plain64 (EncodeToString s) = true.
Proof.
  induction s as [|a|a b|a b c r IH] using groups_ind; [done|..]; pose proof (byte_range a);
    try pose proof (byte_range b); try pose proof (byte_range c); cbn [EncodeToString str_forallb];
    rewrite !alphabet_plain by dlia; [done..|exact IH].
Qed.

Lemma strip_plain s : str_forallb plain64 s = true -> strip_newlines s = s.
Proof.
  induction s as [|c s IH]; [done|]. cbn. intros H. apply andb_true_iff in H as [Hc Hs].
  unfold plain64 in Hc. apply andb_true_iff in Hc as [Hc _]. apply negb_true_iff in Hc. by rewrite Hc, IH.
Qed.

Lemma decode_encode s : decode_quanta (EncodeToString s) = Some s.
Proof.
  induction s as [|a|a b|a b c r IH] using groups_ind; [done|..]; pose proof (byte_range a);
    try pose proof (byte_range b); try pose proof (byte_range c); cbn [EncodeToString decode_quanta];
    rewrite !sextet_alphabet by dlia; cbn [mbind option_bind].
  - do 2 f_equal. etransitivity; [|apply chr_byte]. f_equal. dlia.
  - do 2 f_equal; [|f_equal]; (etransitivity; [|apply chr_byte]); f_equal; dlia.
  - rewrite IH. cbn [mbind option_bind]. do 2 f_equal; [|f_equal; [|f_equal]];
      (etransitivity; [|apply chr_byte]); f_equal; dlia.
Qed.

Lemma DecodeString_EncodeToString s : DecodeString (EncodeToString s) = Some s.
Proof. unfold DecodeString. rewrite strip_plain by apply encode_plain. apply decode_encode. Qed.

Lemma encode_no_pad s : no_char "=" (EncodeToString s) = true.
Proof.
  eapply str_forallb_impl; [|apply encode_plain]. intros c Hc. unfold plain64 in Hc. by apply andb_true_iff in Hc as [_ Hc].
Qed.

Lemma encode_length s : str_len (EncodeToString s) * 3 <= str_len s * 4 + 4.
Proof.
  unfold str_len. induction s as [|a|a b|a b c r IH] using groups_ind; [cbn; lia..|].
  cbn [EncodeToString String.length]. lia.
Qed.

Lemma encode_nonempty s : s <> "" -> EncodeToString s <> "".
Proof. destruct s as [|a [|b [|c r]]]; done. Qed.

(** * Pagination cursors

    [digitaltwin/cursor.go]: a versioned base64url text around a small JSON
    object.  Every error is [ErrInvalidCursor].  The decoder reads the object
    token by token; the same texts are accepted as by parsing it whole, since a
    nested value is refused and only white space may follow. *)

Record ListCursor := mkListCursor {
  lc_EntityID : string;
  lc_GatewayID : option string;
  lc_EntityType : option EntityType;
}.

Record RelationshipCursor := mkRelCursor {
  rc_SourceURN : string;
  rc_RelType : string;
  rc_TargetURN : string;
}.

(** ** The outer text *)

(** [utf8.Valid]; [skip] counts the bytes left of the current sequence. *)
Fixpoint utf8_Valid (skip : nat) (s : string) : bool :=
  match s with
  | EmptyString => true
  | String _ r =>
      match skip with
      | S k => utf8_Valid k r
      | O => match utf8_size s with Some n => utf8_Valid (n - 1) r | None => false end
      end
  end.

Definition surrogate_digit (c : ascii) : bool := in_range 56 57 c || in_range 97 102 c || in_range 65 70 c.

(** The loop runs while six bytes are left. *)
Fixpoint hasForbiddenJSONEscapes (b : string) : bool :=
  match b with
  | String c0 (String c1 (String h0 (String h1 (String h2 (String h3 _)))) as rest) =>
      (bool_decide (c0 = backslash) && (bool_decide (c1 = "u"%char) || bool_decide (c1 = "U"%char))
       && (bool_decide (String h0 (String h1 (String h2 (String h3 ""))) = "0000")
           || ((bool_decide (h0 = "d"%char) || bool_decide (h0 = "D"%char)) && surrogate_digit h1)))
      || hasForbiddenJSONEscapes rest
  | String _ rest => hasForbiddenJSONEscapes rest
  | EmptyString => false
  end.

Definition decodeCursorBytes (cursorStr : string) : res TwinError string :=
  if MaxEncodedCursorLength <? str_len cursorStr then Err ErrInvalidCursor
  else if negb (HasPrefix cursorStr CursorVersionPrefix) then Err ErrInvalidCursor
  else
    let encoded := TrimPrefix cursorStr CursorVersionPrefix in
    if bool_decide (encoded = "") || contains_char "=" encoded then Err ErrInvalidCursor
    else match DecodeString encoded with
    | None => Err ErrInvalidCursor
    | Some decoded =>
        if MaxDecodedCursorBytes <? str_len decoded then Err ErrInvalidCursor
        else if negb (utf8_Valid 0 decoded) then Err ErrInvalidCursor
        else if contains_char Ascii.zero decoded then Err ErrInvalidCursor
        else if hasForbiddenJSONEscapes decoded then Err ErrInvalidCursor
        else Ok decoded
    end.

(** The checks of size and the outer text, shared by both encoders. *)
Definition encode_cursor_bytes (jsonBytes : string) : res TwinError string :=
  if MaxDecodedCursorBytes <? str_len jsonBytes then Err ErrInvalidCursor
  else
    let encoded := CursorVersionPrefix +:+ EncodeToString jsonBytes in
    if MaxEncodedCursorLength <? str_len encoded then Err ErrInvalidCursor else Ok encoded.

(** ** List cursors *)

Definition json_null_or_string (o : option string) : string :=
  match o with None => "null" | Some s => json_quote s end.

Definition EncodeListCursor (k : string) (filterGatewayID : option string) (filterEntityType : option EntityType)
    : res TwinError string :=
  match ParseEntityURN k with
  | Err _ => Err ErrInvalidCursor
  | Ok parsedK =>
      if bool_decide (is_Some filterGatewayID) && negb (bool_decide (filterGatewayID = Some (pi_GatewayID parsedK)))
      then Err ErrInvalidCursor
      else if bool_decide (is_Some filterEntityType) && negb (bool_decide (filterEntityType = Some (pi_Type parsedK)))
      then Err ErrInvalidCursor
      else
        encode_cursor_bytes (json_object
          [json_field "k" (json_quote k); json_field "g" (json_null_or_string filterGatewayID);
           json_field "t" (json_null_or_string (entity_type_text <$> filterEntityType))])
  end.

(** The value of a member: a string without NUL or null. *)
Definition cursor_value (v : json) : option (option string) :=
  match v with
  | JStr s => if contains_char Ascii.zero s then None else Some (Some s)
  | JNull => Some None
  | _ => None
  end.

Definition list_cursor_keys : gset string := list_to_set ["k"; "g"; "t"].

Definition DecodeListCursor (cursorStr : string) : res TwinError ListCursor :=
  let! decoded := decodeCursorBytes cursorStr in
  match decode_object list_cursor_keys decoded with
  | None => Err ErrInvalidCursor
  | Some rawMap =>
      match cursor_value (field rawMap "k"), cursor_value (field rawMap "g"), cursor_value (field rawMap "t") with
      | Some (Some kVal), Some gatewayID, Some tVal =>
          match ParseEntityURN kVal with
          | Err _ => Err ErrInvalidCursor
          | Ok parsedK =>
              match tVal with
              | None => Ok (mkListCursor (pi_URN parsedK) gatewayID None)
              | Some t =>
                  let et := EntityType_of t in
                  if negb (EntityType_Valid et) then Err ErrInvalidCursor
                  else Ok (mkListCursor (pi_URN parsedK) gatewayID (Some et))
              end
          end
      | _, _, _ => Err ErrInvalidCursor
      end
  end.

(** A nil cursor is [None]; [None] as result is a nil error. *)
Definition ValidateListCursor (c : option ListCursor) (filterGatewayID : option string)
    (filterEntityType : option EntityType) : option TwinError :=
  match c with
  | None => Some ErrInvalidCursor
  | Some c =>
      match ParseEntityURN (lc_EntityID c) with
      | Err _ => Some ErrInvalidCursor
      | Ok parsedK =>
          let gateway_ok :=
            match filterGatewayID with
            | Some g => bool_decide (lc_GatewayID c = Some g) && bool_decide (pi_GatewayID parsedK = g)
            | None => bool_decide (lc_GatewayID c = None)
            end in
          let type_ok :=
            match filterEntityType with
            | Some t => bool_decide (lc_EntityType c = Some t) && bool_decide (pi_Type parsedK = t)
            | None => bool_decide (lc_EntityType c = None)
            end in
          if negb gateway_ok then Some ErrInvalidCursor
          else if negb type_ok then Some ErrInvalidCursor else None
      end
  end.

Definition ParseListCursor (cursorStr : string) (filterGatewayID : option string)
    (filterEntityType : option EntityType) : res TwinError ListCursor :=
  let! c := DecodeListCursor cursorStr in
  match ValidateListCursor (Some c) filterGatewayID filterEntityType with
  | Some err => Err err
  | None => Ok c
  end.

(** ** Relationship cursors *)

Definition EncodeRelationshipCursor (sourceURN relType targetURN : string) : res TwinError string :=
  if negb (bool_decide (relType = "hasSensor")) then Err ErrInvalidCursor
  else match ParseEntityURN sourceURN, ParseEntityURN targetURN with
  | Ok parsedS, Ok parsedT =>
      if negb (bool_decide (pi_Type parsedS = EntityTypeGateway)) then Err ErrInvalidCursor
      else if negb (bool_decide (pi_Type parsedT = EntityTypeSensor)) then Err ErrInvalidCursor
      else if negb (bool_decide (pi_GatewayID parsedT = pi_GatewayID parsedS)) then Err ErrInvalidCursor
      else
        encode_cursor_bytes (json_object
          [json_field "s" (json_quote sourceURN); json_field "r" (json_quote relType);
           json_field "k" (json_quote targetURN)])
  | _, _ => Err ErrInvalidCursor
  end.

Definition rel_cursor_keys : gset string := list_to_set ["s"; "r"; "k"].

Definition DecodeRelationshipCursor (cursorStr : string) : res TwinError RelationshipCursor :=
  let! decoded := decodeCursorBytes cursorStr in
  match decode_object rel_cursor_keys decoded with
  | None => Err ErrInvalidCursor
  | Some rawMap =>
      match cursor_value (field rawMap "s"), cursor_value (field rawMap "r"), cursor_value (field rawMap "k") with
      | Some (Some sVal), Some (Some rVal), Some (Some kVal) =>
          match ParseEntityURN sVal with
          | Err _ => Err ErrInvalidCursor
          | Ok parsedS =>
              if negb (bool_decide (pi_Type parsedS = EntityTypeGateway)) then Err ErrInvalidCursor
              else if negb (bool_decide (rVal = "hasSensor")) then Err ErrInvalidCursor
              else match ParseEntityURN kVal with
              | Err _ => Err ErrInvalidCursor
              | Ok parsedK =>
                  if negb (bool_decide (pi_Type parsedK = EntityTypeSensor)) then Err ErrInvalidCursor
                  else if negb (bool_decide (pi_GatewayID parsedK = pi_GatewayID parsedS)) then Err ErrInvalidCursor
                  else Ok (mkRelCursor (pi_URN parsedS) rVal (pi_URN parsedK))
              end
          end
      | _, _, _ => Err ErrInvalidCursor
      end
  end.

Definition ValidateRelationshipCursor (c : option RelationshipCursor) (expectedSourceURN : string)
    : option TwinError :=
  match c with
  | None => Some ErrInvalidCursor
  | Some c =>
      if negb (bool_decide (rc_SourceURN c = expectedSourceURN)) then Some ErrInvalidCursor else None
  end.

Definition ParseRelationshipCursor (cursorStr expectedSourceURN : string) : res TwinError RelationshipCursor :=
  let! c := DecodeRelationshipCursor cursorStr in
  match ValidateRelationshipCursor (Some c) expectedSourceURN with
  | Some err => Err err
  | None => Ok c
  end.

(** * Cursors are read back, and only under the filters they were made for *)

(** ** Plain JSON text *)

(** Printable ASCII without the backslash. *)
Definition cursor_char (c : ascii) : bool :=
  (32 <=? byte_of c) && (byte_of c <? 128) && negb (bool_decide (c = backslash)).

Lemma cursor_utf8 s : str_forallb cursor_char s = true -> utf8_Valid 0 s = true.
Proof.
  induction s as [|c s IH]; [done|]. cbn [str_forallb utf8_Valid]. intros H.
  apply andb_true_iff in H as [Hc Hs]. unfold cursor_char in Hc. rewrite !andb_true_iff in Hc.
  destruct Hc as [[_ Hc] _]. unfold utf8_size. rewrite Hc. by apply IH.
Qed.

Lemma cursor_no_nul s : str_forallb cursor_char s = true -> contains_char Ascii.zero s = false.
Proof.
  intros H. unfold contains_char. apply negb_false_iff. eapply str_forallb_impl; [|exact H].
  intros c Hc. apply negb_true_iff, bool_decide_eq_false. intros ->. discriminate Hc.
Qed.

Lemma cursor_no_escape s : str_forallb cursor_char s = true -> hasForbiddenJSONEscapes s = false.
Proof.
  induction s as [|c s IH]; [done|]. cbn [str_forallb]. intros H. apply andb_true_iff in H as [Hc Hs].
  specialize (IH Hs). assert (bool_decide (c = backslash) = false) as Hb.
  { unfold cursor_char in Hc. rewrite !andb_true_iff in Hc. destruct Hc as [_ Hc]. by apply negb_true_iff in Hc. }
  cbn [hasForbiddenJSONEscapes]. rewrite Hb. cbn [andb orb]. repeat case_match; done.
Qed.

Lemma decode_cursor j : str_forallb cursor_char j = true -> j <> "" -> str_len j <= MaxDecodedCursorBytes ->
  exists c, encode_cursor_bytes j = Ok c /\ decodeCursorBytes c = Ok j /\ str_len c <= MaxEncodedCursorLength.
Proof.
  intros Hc Hne Hl. exists (CursorVersionPrefix +:+ EncodeToString j).
  pose proof (encode_length j) as He.
  assert (str_len (CursorVersionPrefix +:+ EncodeToString j) = 3 + str_len (EncodeToString j)) as Hs
    by (unfold str_len; rewrite str_length_app; cbn [String.length CursorVersionPrefix]; lia).
  unfold MaxDecodedCursorBytes, MaxEncodedCursorLength in *.
  unfold encode_cursor_bytes, decodeCursorBytes, MaxDecodedCursorBytes, MaxEncodedCursorLength.
  rewrite !Hs. rewrite !(proj2 (Z.ltb_ge _ _)) by lia. rewrite HasPrefix_app, TrimPrefix_app. cbn [negb].
  rewrite bool_decide_eq_false_2 by by apply encode_nonempty.
  unfold contains_char at 1. rewrite encode_no_pad, DecodeString_EncodeToString. cbn [negb orb].
  rewrite (proj2 (Z.ltb_ge _ _)) by lia.
  rewrite cursor_utf8, cursor_no_nul, cursor_no_escape by done. split_and!; [done|done|lia].
Qed.

Lemma html_safe_cursor c : html_safe c = true -> cursor_char c = true.
Proof. destruct c as [[] [] [] [] [] [] [] []]; intros H; first [discriminate H|reflexivity]. Qed.

Lemma cursor_char_quote s : str_forallb html_safe s = true -> str_forallb cursor_char (json_quote s) = true.
Proof.
  intros H. unfold json_quote. cbn [str_forallb]. rewrite json_escape_plain by done.
  rewrite str_forallb_app. rewrite (str_forallb_impl _ _ _ html_safe_cursor H). done.
Qed.

Lemma encodes_null : encodes 0 JNull "null".
Proof.
  exists [TLit "null"]. split.
  - intros r rest Hd Hr. cbn [String.append]. cbn [lex is_space].
    change (lex MTop ("null" +:+ r)) with
      (match lex (MLit "ull") ("ull" +:+ r) with Some (raw, ts) => Some ("", TLit (String "n" raw) :: ts) | None => None end).
    assert (lex (MLit "") r = Some ("", rest)) as E.
    { destruct r as [|c r]; [|exact Hr]. cbn in Hr. injection Hr as <-. done. }
    change (lex (MLit "ull") ("ull" +:+ r)) with (add_text "u" (add_text "l" (add_text "l" (lex (MLit "") r)))).
    by rewrite E.
  - by intros depth st stack rest [-> | ->] _.
Qed.

(** What a member of a cursor decodes to. *)
Definition opt_json (o : option string) : json := match o with None => JNull | Some s => JStr s end.

Definition plain_opt (o : option string) : Prop :=
  match o with None => True | Some s => str_forallb html_safe s = true end.

Lemma encodes_opt o : plain_opt o -> encodes 0 (opt_json o) (json_null_or_string o).
Proof. destruct o; cbn; [apply encodes_string|intros _; apply encodes_null]. Qed.

Lemma cursor_char_opt o : plain_opt o -> str_forallb cursor_char (json_null_or_string o) = true.
Proof. destruct o; cbn [plain_opt json_null_or_string]; [apply cursor_char_quote|done]. Qed.

Lemma cursor_value_opt o : plain_opt o -> cursor_value (opt_json o) = Some o.
Proof.
  destruct o as [s|]; [|done]. cbn [plain_opt opt_json cursor_value]. intros H.
  rewrite cursor_no_nul; [done|]. by apply (str_forallb_impl _ _ _ html_safe_cursor).
Qed.

(** An object of three plain members, as both encoders write it. *)
Definition cursor_json (k1 k2 k3 : string) (v1 v2 v3 : option string) : string :=
  json_object [json_field k1 (json_null_or_string v1); json_field k2 (json_null_or_string v2);
               json_field k3 (json_null_or_string v3)].

Lemma cursor_json_chars k1 k2 k3 v1 v2 v3 : str_forallb html_safe k1 = true -> str_forallb html_safe k2 = true ->
  str_forallb html_safe k3 = true -> plain_opt v1 -> plain_opt v2 -> plain_opt v3 ->
  str_forallb cursor_char (cursor_json k1 k2 k3 v1 v2 v3) = true.
Proof.
  intros H1 H2 H3 P1 P2 P3. unfold cursor_json, json_object, json_field. cbn [Join].
  repeat (rewrite str_forallb_app || cbn [str_forallb]).
  rewrite !cursor_char_quote, !cursor_char_opt by done. done.
Qed.

Lemma cursor_json_parse k1 k2 k3 v1 v2 v3 : str_forallb html_safe k1 = true -> str_forallb html_safe k2 = true ->
  str_forallb html_safe k3 = true -> plain_opt v1 -> plain_opt v2 -> plain_opt v3 -> NoDup [k1; k2; k3] ->
  decode_object (list_to_set [k1; k2; k3]) (cursor_json k1 k2 k3 v1 v2 v3)
  = Some (list_to_map [(k1, opt_json v1); (k2, opt_json v2); (k3, opt_json v3)]).
Proof.
  intros H1 H2 H3 P1 P2 P3 Hnd. apply decode_object_complete.
  - apply (json_parse_encodes 1); [pose proof max_nesting_ge; lia|]. apply encodes_object; [|done].
    repeat (apply Forall2_cons; [|]); [..|apply Forall2_nil]; [..|idtac]; try done.
    all: by apply encodes_member_intro; [|apply encodes_opt].
  - done.
  - by rewrite dom_list_to_map_L.
Qed.

Lemma opt_len o n : plain_opt o -> (forall s, o = Some s -> str_len s <= n) -> 2 <= n ->
  str_len (json_null_or_string o) <= n + 2.
Proof.
  intros Hp Hn H2. destruct o as [s|]; cbn [json_null_or_string plain_opt] in *;
    [|change (str_len "null") with 4; lia].
  rewrite str_len_quote by done. specialize (Hn s eq_refl). lia.
Qed.

Lemma cursor_json_len k1 k2 k3 v1 v2 v3 : str_len k1 = 1 -> str_len k2 = 1 -> str_len k3 = 1 ->
  str_forallb html_safe k1 = true -> str_forallb html_safe k2 = true -> str_forallb html_safe k3 = true ->
  str_len (cursor_json k1 k2 k3 v1 v2 v3) = 16 + str_len (json_null_or_string v1)
    + str_len (json_null_or_string v2) + str_len (json_null_or_string v3).
Proof.
  intros L1 L2 L3 H1 H2 H3. unfold cursor_json, json_object, json_field. cbn [Join].
  pose proof (str_len_quote k1 H1) as Q1. pose proof (str_len_quote k2 H2) as Q2. pose proof (str_len_quote k3 H3) as Q3.
  unfold str_len in *. repeat (rewrite str_length_app || cbn [String.length]). lia.
Qed.

(** ** Names in cursors *)

Lemma id_html id : gatewayIDPattern id = true -> str_forallb html_safe id = true.
Proof.
  intros H. apply pattern_chars in H. eapply str_forallb_impl; [|exact H]. intros c.
  destruct c as [[] [] [] [] [] [] [] []]; intros Hc; first [discriminate Hc|reflexivity].
Qed.

Lemma urn_html raw p : ParseEntityURN raw = Ok p ->
  str_forallb html_safe raw = true /\ str_len raw <= 148 /\ EntityType_Valid (pi_Type p) = true
  /\ str_forallb html_safe (pi_GatewayID p) = true /\ str_len (pi_GatewayID p) <= 64.
Proof.
  intros H. apply parse_urn_names in H. destruct H as [g Hg|g s Hg Hs]; cbn [pi_Type pi_GatewayID].
  - apply valid_gateway_pattern in Hg. pose proof (gateway_urn_length g Hg). pose proof (pattern_length g Hg).
    pose proof (id_html g Hg) as Hh. split_and!; [|lia|done|done|lia].
    unfold GatewayEntityID. by rewrite str_forallb_app, Hh.
  - apply valid_gateway_pattern in Hg. apply valid_sensor_pattern in Hs.
    pose proof (sensor_urn_length g s Hg Hs). pose proof (pattern_length g Hg).
    pose proof (id_html g Hg) as Hh. pose proof (id_html s Hs) as Hh'. split_and!; [|lia|done|done|lia].
    unfold SensorEntityID. by rewrite !str_forallb_app, Hh, Hh'.
Qed.

(** ** List cursors *)

(** The entity is one the filters select. *)
Definition selected_by (p : ParsedIdentity) (g : option string) (t : option EntityType) : Prop :=
  (forall x, g = Some x -> x = pi_GatewayID p) /\ (forall x, t = Some x -> x = pi_Type p).

Lemma list_cursor_parts k p g t : ParseEntityURN k = Ok p -> selected_by p g t ->
  plain_opt (Some k) /\ plain_opt g /\ plain_opt (entity_type_text <$> t)
  /\ str_len (cursor_json "k" "g" "t" (Some k) g (entity_type_text <$> t)) <= MaxDecodedCursorBytes.
Proof.
  intros Hk [Hg Ht]. destruct (urn_html k p Hk) as (Hh & Hl & Hv & Hgh & Hgl).
  assert (plain_opt g) as Pg by (destruct g as [x|]; [|done]; cbn; by rewrite (Hg x)).
  assert (plain_opt (entity_type_text <$> t) /\ str_len (json_null_or_string (entity_type_text <$> t)) <= 10) as [Pt Lt].
  { destruct t as [x|]; [|done]. rewrite (Ht x) by done. destruct (pi_Type p); try done; by vm_compute. }
  split_and!; [done..|]. rewrite cursor_json_len by done. unfold MaxDecodedCursorBytes.
  pose proof (opt_len (Some k) 148 Hh ltac:(intros s [= <-]; lia) ltac:(lia)).
  pose proof (opt_len g 64 Pg ltac:(intros s ->; by rewrite (Hg s)) ltac:(lia)). lia.
Qed.

Lemma encode_list_cursor k g t c : EncodeListCursor k g t = Ok c ->
  exists p, ParseEntityURN k = Ok p /\ selected_by p g t
  /\ encode_cursor_bytes (cursor_json "k" "g" "t" (Some k) g (entity_type_text <$> t)) = Ok c.
Proof.
  unfold EncodeListCursor. destruct (ParseEntityURN k) as [p|]; [|done]. intros H.
  destruct (bool_decide (is_Some g) && _) eqn:Eg; [done|]. destruct (bool_decide (is_Some t) && _) eqn:Et; [done|].
  exists p. split; [done|]. split; [|exact H]. split.
  - intros x ->. rewrite bool_decide_eq_true_2 in Eg by by eexists. cbn in Eg.
    apply negb_false_iff, bool_decide_eq_true in Eg. congruence.
  - intros x ->. rewrite bool_decide_eq_true_2 in Et by by eexists. cbn in Et.
    apply negb_false_iff, bool_decide_eq_true in Et. congruence.
Qed.

Lemma selected_encodes k p g t : ParseEntityURN k = Ok p -> selected_by p g t ->
  exists c, EncodeListCursor k g t = Ok c.
Proof.
  intros Hk Hs. destruct (list_cursor_parts k p g t Hk Hs) as (Pk & Pg & Pt & Hl).
  destruct (decode_cursor (cursor_json "k" "g" "t" (Some k) g (entity_type_text <$> t))) as (c & Hc & _ & _);
    [by apply cursor_json_chars|done|done|].
  exists c. unfold EncodeListCursor. rewrite Hk. destruct Hs as [Hg Ht].
  destruct (bool_decide (is_Some g) && _) eqn:Eg.
  { exfalso. destruct g as [x|]; [|by rewrite bool_decide_eq_false_2 in Eg by (by intros [])].
    rewrite (Hg x) in Eg by done. rewrite !bool_decide_eq_true_2 in Eg by (done || by eexists). done. }
  destruct (bool_decide (is_Some t) && _) eqn:Et; [|exact Hc].
  exfalso. destruct t as [x|]; [|by rewrite bool_decide_eq_false_2 in Et by (by intros [])].
  rewrite (Ht x) in Et by done. rewrite !bool_decide_eq_true_2 in Et by (done || by eexists). done.
Qed.

Lemma decode_list_cursor k g t c : EncodeListCursor k g t = Ok c -> DecodeListCursor c = Ok (mkListCursor k g t).
Proof.
  intros H. apply encode_list_cursor in H as (p & Hk & Hs & Hc).
  destruct (list_cursor_parts k p g t Hk Hs) as (Pk & Pg & Pt & Hl).
  destruct (decode_cursor (cursor_json "k" "g" "t" (Some k) g (entity_type_text <$> t))) as (c' & Hc' & Hd & _);
    [by apply cursor_json_chars|done|done|].
  rewrite Hc in Hc'. injection Hc' as <-. unfold DecodeListCursor. rewrite Hd. cbn [mbind res_bind].
  unfold list_cursor_keys. rewrite cursor_json_parse; [|done..|by apply (bool_decide_unpack _); vm_compute].
  change (field _ "k") with (opt_json (Some k)). change (field _ "g") with (opt_json g).
  change (field _ "t") with (opt_json (entity_type_text <$> t)). rewrite !cursor_value_opt by done.
  rewrite Hk, (parsed_urn k p Hk). destruct t as [x|]; cbn [fmap option_fmap option_map]; [|done].
  destruct (urn_html k p Hk) as (_ & _ & Hv & _). destruct Hs as [_ Ht]. rewrite (Ht x) by done.
  rewrite EntityType_of_text, Hv by done. done.
Qed.

Lemma validate_list_cursor cur g t : ValidateListCursor (Some cur) g t = None <->
  exists p, ParseEntityURN (lc_EntityID cur) = Ok p /\ selected_by p g t
  /\ lc_GatewayID cur = g /\ lc_EntityType cur = t.
Proof.
  unfold ValidateListCursor. destruct (ParseEntityURN (lc_EntityID cur)) as [p|].
  2:{ split; [done|]. intros (p & H & _). done. }
  split.
  - intros H. exists p. split; [done|].
    destruct (match g with Some _ => _ | None => _ end) eqn:Eg; [|done]. cbn [negb] in H.
    destruct (match t with Some _ => _ | None => _ end) eqn:Et; [|done]. clear H.
    assert ((forall x, g = Some x -> x = pi_GatewayID p) /\ lc_GatewayID cur = g) as [Hg1 Hg2].
    { destruct g as [x|]; [|by apply bool_decide_eq_true in Eg].
      apply andb_true_iff in Eg as [E1 E2]. apply bool_decide_eq_true in E1, E2. split; [|done]. intros y. congruence. }
    assert ((forall x, t = Some x -> x = pi_Type p) /\ lc_EntityType cur = t) as [Ht1 Ht2].
    { destruct t as [x|]; [|by apply bool_decide_eq_true in Et].
      apply andb_true_iff in Et as [E1 E2]. apply bool_decide_eq_true in E1, E2. split; [|done]. intros y. congruence. }
    by split_and!.
  - intros (p' & H & [Hg Ht] & Eg & Et). injection H as <-.
    assert ((match g with Some g => bool_decide (lc_GatewayID cur = Some g) && bool_decide (pi_GatewayID p = g)
             | None => bool_decide (lc_GatewayID cur = None) end) = true) as ->.
    { destruct g as [x|]; [rewrite (Hg x) in * by done|]; rewrite ?bool_decide_eq_true_2; done. }
    assert ((match t with Some t => bool_decide (lc_EntityType cur = Some t) && bool_decide (pi_Type p = t)
             | None => bool_decide (lc_EntityType cur = None) end) = true) as ->; [|done].
    destruct t as [x|]; [rewrite (Ht x) in * by done|]; rewrite ?bool_decide_eq_true_2; done.
Qed.

Lemma validate_list_cursor_err cur g t e : ValidateListCursor cur g t = Some e -> e = ErrInvalidCursor.
Proof. unfold ValidateListCursor. intros H. repeat case_match; by inversion H. Qed.

(** The result of parsing an encoded cursor under any filters. *)
Lemma list_cursor_core k g t c g' t' : EncodeListCursor k g t = Ok c ->
  ParseListCursor c g' t' = if decide (g' = g /\ t' = t) then Ok (mkListCursor k g t) else Err ErrInvalidCursor.
Proof.
  intros H. unfold ParseListCursor. rewrite (decode_list_cursor k g t c H). cbn [mbind res_bind].
  destruct (ValidateListCursor _ _ _) as [e|] eqn:Ev.
  - pose proof (validate_list_cursor_err _ _ _ _ Ev) as ->. rewrite decide_False; [done|]. intros [-> ->].
    apply encode_list_cursor in H as (p & Hk & Hs & _).
    assert (ValidateListCursor (Some (mkListCursor k g t)) g t = None) as Hn by (apply validate_list_cursor; by exists p).
    congruence.
  - apply validate_list_cursor in Ev as (p & _ & _ & Hg & Ht). cbn in Hg, Ht. by rewrite decide_True.
Qed.

(** What any accepted cursor text means, forged or not. *)
Lemma parse_list_cursor_sound c g t cur : ParseListCursor c g t = Ok cur ->
  exists p, ParseEntityURN (lc_EntityID cur) = Ok p /\ selected_by p g t /\ cur = mkListCursor (lc_EntityID cur) g t.
Proof.
  unfold ParseListCursor. destruct (DecodeListCursor c) as [cur'|]; [|done]. cbn [mbind res_bind].
  destruct (ValidateListCursor _ _ _) eqn:Ev; [done|]. intros H. injection H as ->.
  apply validate_list_cursor in Ev as (p & Hp & Hs & Hg & Ht). exists p. split_and!; [done..|].
  destruct cur. cbn in *. by subst.
Qed.

(** C32 A list cursor can be encoded exactly when it names an entity that the filters
    select; the text is read back under the same filters as that entity and
    those filters, and refused under any others.  Any text the parser accepts,
    forged or not, names an entity the filters select. *)
Theorem list_cursor_roundtrip k g t :
  (is_ok (EncodeListCursor k g t) = true <-> exists p, ParseEntityURN k = Ok p /\ selected_by p g t)
  /\ (forall c g' t', EncodeListCursor k g t = Ok c ->
        ParseListCursor c g' t' = if decide (g' = g /\ t' = t) then Ok (mkListCursor k g t) else Err ErrInvalidCursor)
  /\ (forall c cur, ParseListCursor c g t = Ok cur ->
        exists p, ParseEntityURN (lc_EntityID cur) = Ok p /\ selected_by p g t
        /\ cur = mkListCursor (lc_EntityID cur) g t).
Proof.
  split_and!.
  - split.
    + destruct (EncodeListCursor k g t) as [c|] eqn:E; [|done]. intros _.
      apply encode_list_cursor in E as (p & Hk & Hs & _). by exists p.
    + intros (p & Hk & Hs). destruct (selected_encodes k p g t Hk Hs) as [c ->]. done.
  - intros c g' t'. apply list_cursor_core.
  - intros c cur. apply parse_list_cursor_sound.
Qed.

(** ** Relationship cursors *)

(** [k] names a Sensor of the Gateway that [s] names. *)
Definition sensor_of (s k : string) : Prop := exists g id, ValidateGatewayID g = None /\ ValidateSensorID id = None
  /\ s = GatewayEntityID g /\ k = SensorEntityID g id.

Lemma sensor_of_parse s k : sensor_of s k <-> exists ps pk, ParseEntityURN s = Ok ps /\ ParseEntityURN k = Ok pk
  /\ pi_Type ps = EntityTypeGateway /\ pi_Type pk = EntityTypeSensor /\ pi_GatewayID pk = pi_GatewayID ps.
Proof.
  split.
  - intros (g & id & Hg & Hid & -> & ->). eexists _, _. by rewrite parse_gateway_urn, parse_sensor_urn.
  - intros (ps & pk & Hs & Hk & Ts & Tk & Hgw). apply parse_urn_names in Hs, Hk.
    destruct Hs as [g Hg|]; [|done]. destruct Hk as [|g' id Hg' Hid]; [done|]. cbn in Hgw. subst g'. by exists g, id.
Qed.

Lemma rel_cursor_len s k : sensor_of s k ->
  plain_opt (Some s) /\ plain_opt (Some k)
  /\ str_len (cursor_json "s" "r" "k" (Some s) (Some "hasSensor") (Some k)) <= MaxDecodedCursorBytes.
Proof.
  intros H. apply sensor_of_parse in H as (ps & pk & Hs & Hk & _).
  destruct (urn_html s ps Hs) as (Ps & Ls & _). destruct (urn_html k pk Hk) as (Pk & Lk & _).
  split_and!; [done..|]. rewrite cursor_json_len by done. unfold MaxDecodedCursorBytes.
  pose proof (opt_len (Some s) 148 Ps ltac:(intros x [= <-]; lia) ltac:(lia)).
  pose proof (opt_len (Some k) 148 Pk ltac:(intros x [= <-]; lia) ltac:(lia)).
  change (str_len (json_null_or_string (Some "hasSensor"))) with 11. lia.
Qed.

Lemma encode_rel_cursor s r k c : EncodeRelationshipCursor s r k = Ok c ->
  r = "hasSensor" /\ sensor_of s k
  /\ encode_cursor_bytes (cursor_json "s" "r" "k" (Some s) (Some "hasSensor") (Some k)) = Ok c.
Proof.
  unfold EncodeRelationshipCursor. case_bool_decide as Hr; [|done]. subst r. cbn [negb].
  destruct (ParseEntityURN s) as [ps|] eqn:Es; [|done]. destruct (ParseEntityURN k) as [pk|] eqn:Ek; [|done].
  repeat (case_bool_decide; [|done]; cbn [negb]). intros Hc. split_and!; [done| |exact Hc].
  apply sensor_of_parse. by exists ps, pk.
Qed.

Lemma rel_cursor_encodes s k : sensor_of s k -> exists c, EncodeRelationshipCursor s "hasSensor" k = Ok c.
Proof.
  intros H. destruct (rel_cursor_len s k H) as (Ps & Pk & Hl).
  destruct (decode_cursor (cursor_json "s" "r" "k" (Some s) (Some "hasSensor") (Some k))) as (c & Hc & _ & _);
    [by apply cursor_json_chars|done|done|].
  exists c. apply sensor_of_parse in H as (ps & pk & Es & Ek & Ts & Tk & Hgw).
  unfold EncodeRelationshipCursor. rewrite Es, Ek. rewrite !bool_decide_eq_true_2 by done. exact Hc.
Qed.

Lemma decode_rel_cursor s r k c : EncodeRelationshipCursor s r k = Ok c ->
  DecodeRelationshipCursor c = Ok (mkRelCursor s "hasSensor" k).
Proof.
  intros H. apply encode_rel_cursor in H as (-> & Hs & Hc). destruct (rel_cursor_len s k Hs) as (Ps & Pk & Hl).
  destruct (decode_cursor (cursor_json "s" "r" "k" (Some s) (Some "hasSensor") (Some k))) as (c' & Hc' & Hd & _);
    [by apply cursor_json_chars|done|done|].
  rewrite Hc in Hc'. injection Hc' as <-. unfold DecodeRelationshipCursor. rewrite Hd. cbn [mbind res_bind].
  unfold rel_cursor_keys. rewrite cursor_json_parse; [|done..|by apply (bool_decide_unpack _); vm_compute].
  change (field _ "s") with (opt_json (Some s)). change (field _ "r") with (opt_json (Some "hasSensor")).
  change (field _ "k") with (opt_json (Some k)). rewrite !cursor_value_opt by done.
  apply sensor_of_parse in Hs as (ps & pk & Es & Ek & Ts & Tk & Hgw).
  rewrite Es, Ek, Ts, Tk, Hgw, (parsed_urn s ps Es), (parsed_urn k pk Ek).
  by rewrite !bool_decide_eq_true_2 by done.
Qed.

Lemma decode_rel_cursor_sound c cur : DecodeRelationshipCursor c = Ok cur ->
  rc_RelType cur = "hasSensor" /\ sensor_of (rc_SourceURN cur) (rc_TargetURN cur).
Proof.
  unfold DecodeRelationshipCursor. destruct (decodeCursorBytes c) as [j|]; [|done]. cbn [mbind res_bind].
  destruct (decode_object _ j) as [m|]; [|done]. intros H.
  repeat (case_match; try done). injection H as <-. cbn [rc_RelType rc_SourceURN rc_TargetURN].
  repeat match goal with E : negb (bool_decide _) = false |- _ => apply negb_false_iff, bool_decide_eq_true in E end.
  split; [done|]. apply sensor_of_parse.
  repeat match goal with E : ParseEntityURN ?x = Ok ?p |- _ => rewrite (parsed_urn x p E); revert E end.
  intros. eexists _, _. split_and!; try eassumption.
Qed.

(** C<n> A relationship cursor can be encoded exactly for a Sensor of the Gateway it
    starts from; the text is read back for that Gateway and refused for any
    other.  Any accepted text, forged or not, names a Sensor of the Gateway it
    is used for. *)
Theorem rel_cursor_roundtrip s k :
  (is_ok (EncodeRelationshipCursor s "hasSensor" k) = true <-> sensor_of s k)
  /\ (forall c s', EncodeRelationshipCursor s "hasSensor" k = Ok c ->
        ParseRelationshipCursor c s'
        = if decide (s' = s) then Ok (mkRelCursor s "hasSensor" k) else Err ErrInvalidCursor)
  /\ (forall c cur, ParseRelationshipCursor c s = Ok cur ->
        cur = mkRelCursor s "hasSensor" (rc_TargetURN cur) /\ sensor_of s (rc_TargetURN cur)).
Proof.
  split_and!.
  - split.
    + destruct (EncodeRelationshipCursor s "hasSensor" k) as [c|] eqn:E; [|done]. intros _.
      by apply encode_rel_cursor in E as (_ & Hs & _).
    + intros H. destruct (rel_cursor_encodes s k H) as [c ->]. done.
  - intros c s' H. unfold ParseRelationshipCursor. rewrite (decode_rel_cursor _ _ _ _ H). cbn [mbind res_bind].
    unfold ValidateRelationshipCursor. cbn [rc_SourceURN].
    destruct (decide (s' = s)) as [->|Hne]; [by rewrite bool_decide_eq_true_2|by rewrite bool_decide_eq_false_2].
  - intros c cur. unfold ParseRelationshipCursor. destruct (DecodeRelationshipCursor c) as [cur'|] eqn:E; [|done].
    cbn [mbind res_bind]. unfold ValidateRelationshipCursor. case_bool_decide as Hs; [|done]. cbn [negb]. intros H.
    injection H as ->. apply decode_rel_cursor_sound in E as [Hr Ho]. subst s. split; [|done]. destruct cur. cbn in *. by subst.
Qed.
