(* ===== verification/TwinValidation.v ===== *)
(** * Validation of Digital Twin queries, at the service and at the HTTP layer

    [digitaltwin/validation.go] and [httpserver/twin_query_parser.go]. *)

From S2P Require Import Prelude GoStrings GoTime GoFloat Identity Urn Uuid QueryParser QueryTime HistoryQuery HistoryStore.
From S2P Require Import History TwinModel Cursor.
#[local] Open Scope Z_scope.

(** ** [validation.go] *)

Definition effective_limit (maxLimit : Z) : Z := if maxLimit <=? 0 then ContractMaxLimit else maxLimit.

Definition ValidateTwinListQuery (q : TwinListQuery) (maxLimit : Z) : option TwinError :=
  let maxLimit := effective_limit maxLimit in
  if (lq_Limit q <? 1) || (maxLimit <? lq_Limit q) then Some ErrInvalidInput
  else if bool_decide (is_Some (lq_GatewayID q ≫= ValidateGatewayID)) then Some ErrInvalidInput
  else if negb (default true (EntityType_Valid <$> lq_EntityType q)) then Some ErrInvalidInput
  else match lq_After q with
  | None => None
  | Some after =>
      match ParseListCursor after (lq_GatewayID q) (lq_EntityType q) with
      | Err _ => Some ErrInvalidCursor
      | Ok _ => None
      end
  end.

Definition ValidateTwinDetailQuery (q : TwinDetailQuery) (maxLimit : Z) : option TwinError :=
  let maxLimit := effective_limit maxLimit in
  if negb (is_ok (ParseEntityURN (dq_EntityID q))) then Some ErrInvalidInput
  else if (dq_RelationshipLimit q <? 1) || (maxLimit <? dq_RelationshipLimit q) then Some ErrInvalidInput
  else match dq_RelationshipAfter q with
  | None => None
  | Some after =>
      match ParseRelationshipCursor after (dq_EntityID q) with
      | Err _ => Some ErrInvalidCursor
      | Ok _ => None
      end
  end.

Definition ValidateTwinStateQuery (q : TwinStateQuery) : option TwinError :=
  match ParseEntityURN (sq_EntityID q) with
  | Err _ => Some ErrInvalidInput
  | Ok _ => None
  end.

Definition ValidateTwinHistoryQuery (q : TwinHistoryQuery) : option TwinError :=
  match ParseEntityURN (tq_EntityID q) with
  | Err _ => Some ErrInvalidInput
  | Ok parsed =>
      if negb (bool_decide (pi_Type parsed = EntityTypeSensor)) then Some ErrInvalidProperty
      else if negb (HistorySelector_Valid (tq_Property q)) then Some ErrInvalidProperty
      else None
  end.

(** ** [twin_query_parser.go] *)

Record TwinQueryParser := mkTwinQueryParser {
  tp_cfg : TwinConfig;
  tp_queryTimeout : Z;
}.

(** [queryTimeout] is the variadic argument. *)
Definition NewTwinQueryParser (cfg : option TwinConfig) (queryTimeout : list Z) : res string TwinQueryParser :=
  match cfg with
  | None => Err "twin config must not be nil"
  | Some cfg =>
      match ValidateTwinConfig cfg with
      | Some err => Err ("invalid twin config: " +:+ err)
      | None =>
          let timeout := match queryTimeout with
                         | t :: _ => if 0 <? t then t else ContractDefaultQueryTimeout
                         | [] => ContractDefaultQueryTimeout
                         end in
          Ok (mkTwinQueryParser cfg timeout)
      end
  end.

Definition TwinQueryParser_QueryTimeout (p : TwinQueryParser) : Z :=
  if 0 <? tp_queryTimeout p then tp_queryTimeout p else ContractDefaultQueryTimeout.

Definition invalid_cursor {A} : res herror A := Err (HQuery "invalid_cursor" (HTwin ErrInvalidCursor)).

(** The value of an optional integer parameter within [1, max]. *)
Definition parse_limit (params : gmap string string) (key : string) (fallback max : Z) : res herror Z :=
  match params !! key with
  | None => Ok fallback
  | Some val =>
      match parseASCIIInteger val with
      | None => invalid_entity
      | Some parsed => if (parsed <? 1) || (max <? parsed) then invalid_entity else Ok parsed
      end
  end.

(** The query and the presentation format. *)
Definition ParseTwinListQuery (p : TwinQueryParser) (rawQuery : string) : res herror (TwinListQuery * string) :=
  let! params := parseRawQuery rawQuery ["gateway_id"; "type"; "limit"; "cursor"; "format"] in
  if negb (bool_decide (default "simplified" (params !! "format") = "simplified")) then invalid_entity
  else
    let format := match params !! "format" with Some _ => "simplified" | None => "" end in
    let gatewayID := params !! "gateway_id" in
    if bool_decide (is_Some (gatewayID ≫= ValidateGatewayID)) then invalid_entity
    else
      let entityType := EntityType_of <$> params !! "type" in
      if negb (default true (EntityType_Valid <$> entityType)) then invalid_entity
      else
        let! limit := parse_limit params "limit" (tb_ListDefaultLimit (tp_cfg p)) (tb_ListMaxLimit (tp_cfg p)) in
        match params !! "cursor" with
        | None => Ok (mkListQuery gatewayID entityType limit None, format)
        | Some val =>
            match ParseListCursor val gatewayID entityType with
            | Err _ => invalid_cursor
            | Ok _ => Ok (mkListQuery gatewayID entityType limit (Some val), format)
            end
        end.

Definition ParseTwinDetailQuery (p : TwinQueryParser) (rawQuery entityID : string) : res herror TwinDetailQuery :=
  match ParseEntityURN entityID with
  | Err _ => invalid_entity
  | Ok _ =>
      let! params := parseRawQuery rawQuery ["relationship_limit"; "relationship_after"; "format"] in
      match params !! "format" with
      | Some val =>
          if negb (bool_decide (val = "simplified")) then invalid_entity
          else if (1 <? size params)%nat then invalid_entity
          else Ok (mkDetailQuery entityID (tb_RelationshipDefaultLimit (tp_cfg p)) None)
      | None =>
          let! relLimit := parse_limit params "relationship_limit" (tb_RelationshipDefaultLimit (tp_cfg p))
                             (tb_RelationshipMaxLimit (tp_cfg p)) in
          match params !! "relationship_after" with
          | None => Ok (mkDetailQuery entityID relLimit None)
          | Some val =>
              match ParseRelationshipCursor val entityID with
              | Err _ => invalid_cursor
              | Ok _ => Ok (mkDetailQuery entityID relLimit (Some val))
              end
          end
      end
  end.

Definition ParseDetailFormat (rawQuery : string) : res herror string :=
  if bool_decide (rawQuery = "") then Ok ""
  else
    let! params := parseRawQuery rawQuery ["relationship_limit"; "relationship_after"; "format"] in
    match params !! "format" with
    | None => Ok ""
    | Some formatVal =>
        if negb (bool_decide (formatVal = "simplified")) then invalid_entity
        else if (1 <? size params)%nat then invalid_entity
        else Ok "simplified"
    end.
