(* ===== verification/TwinStore.v ===== *)
(** * The queries of the Digital Twin reads

    The SQL text of [digitaltwin/postgres_twin_reader.go] and of [ResolveGateway]
    and [ResolveEntity] of [postgres_resolver.go], on the tables of [Store] and
    [HistoryStore].  A join follows the keys of the schema: entities by [id],
    Sensors by Gateway and name, memberships by user and Gateway. *)

From stdpp Require Import sorting.
From S2P Require Import Prelude GoStrings GoTime GoFloat GoJson Identity Urn Uuid Telemetry.
From S2P Require Import Txn Store Persist HistoryQuery HistoryStore TwinModel.
#[local] Open Scope Z_scope.

(** ** [COLLATE "C"]: texts by their bytes *)

Fixpoint c_lt (s t : string) : bool :=
  match s, t with
  | _, EmptyString => false
  | EmptyString, String _ _ => true
  | String a s', String b t' => (byte_of a <? byte_of b) || ((byte_of a =? byte_of b) && c_lt s' t')
  end.

Lemma c_lt_irrefl s : c_lt s s = false.
Proof. induction s as [|c s IH]; [done|]. cbn. by rewrite Z.ltb_irrefl, IH, andb_false_r. Qed.

Lemma c_lt_trans s t u : c_lt s t = true -> c_lt t u = true -> c_lt s u = true.
Proof.
  revert t u. induction s as [|a s IH]; intros [|b t] [|c u]; cbn; try done.
  rewrite !orb_true_iff, !andb_true_iff, !Z.ltb_lt, !Z.eqb_eq.
  intros [H1|[H1 H1']] [H2|[H2 H2']]; [left; lia..|right]. split; [lia|by apply (IH t)].
Qed.

Lemma byte_of_inj a b : byte_of a = byte_of b -> a = b.
Proof. unfold byte_of. intros H. apply N2Z.inj in H. by rewrite <- (ascii_N_embedding a), H, ascii_N_embedding. Qed.

Lemma c_lt_total s t : c_lt s t = true \/ s = t \/ c_lt t s = true.
Proof.
  revert t. induction s as [|a s IH]; intros [|b t]; cbn; [tauto..|].
  rewrite !orb_true_iff, !andb_true_iff, !Z.ltb_lt, !Z.eqb_eq.
  destruct (Z.lt_trichotomy (byte_of a) (byte_of b)) as [H|[H|H]]; [tauto| |tauto].
  apply byte_of_inj in H as ->. destruct (IH t) as [|[->|]]; [left; by right|by right; left|right; right; by right].
Qed.

Definition c_le (s t : string) : Prop := c_lt t s = false.

#[export] Instance c_le_dec : RelDecision c_le.
Proof. intros s t. unfold c_le. apply _. Defined.

#[export] Instance c_le_trans : Transitive c_le.
Proof.
  intros s t u. unfold c_le. intros H1 H2. destruct (c_lt u s) eqn:E; [|done]. exfalso.
  destruct (c_lt_total s t) as [H|[->|H]]; [|congruence..]. rewrite (c_lt_trans _ _ _ E H) in H2. done.
Qed.

#[export] Instance c_le_total : Total c_le.
Proof.
  intros s t. unfold c_le. destruct (c_lt t s) eqn:E; [right|by left].
  destruct (c_lt s t) eqn:E'; [|done]. pose proof (c_lt_trans _ _ _ E E') as H. by rewrite c_lt_irrefl in H.
Qed.

(** ** Rows *)

Record ListRow := mkListRow {
  li_entity_id : string;
  li_entity_type : string;
  li_name : option string;
  li_gateway_id : string;
  li_updated_at : Z;
}.

(** The relationship's columns are NULL when nothing joined. *)
Record GatewayDetailRow := mkGatewayRow {
  gd_name : string;
  gd_description : option string;
  gd_gateway_id : string;
  gd_updated_at : Z;
  gd_relationship : option (string * string * Z);
}.

Record SensorDetailRow := mkSensorRow {
  sd_name : string;
  sd_unit : option string;
  sd_gateway_id : string;
  sd_updated_at : Z;
}.

(** The first row of a query read with [QueryRow]. *)
Definition first_row {A} (rows : list A) : res herror A :=
  match rows with [] => Err (HCause ErrNoRows) | r :: _ => Ok r end.

Section queries.
Context {uuid : Type} `{U : UuidLib uuid}.
Implicit Types (db : HistoryDB uuid) (e : TwinEntity uuid).

(** ** Joined columns *)

Definition entity_name db e : option string := (default (None, 0) (entity_columns (columns db) !! e_id e)).1.
Definition entity_updated_at db e : Z := (default (None, 0) (entity_columns (columns db) !! e_id e)).2.
Definition gateway_name db (g : string) : string := (default ("", None) (gateway_columns (columns db) !! g)).1.
Definition gateway_description db (g : string) : option string :=
  (default ("", None) (gateway_columns (columns db) !! g)).2.
Definition sensor_name db (g s : string) : string := default "" (sensor_names (columns db) !! (g, s)).

(** [JOIN user_gateways AS ug ON ug.gateway_id = e.gateway_id AND ug.user_id = $actor] *)
Definition member_of (actor : uuid) db e : Prop :=
  match e_gateway_id e with Some g => (actor, g) ∈ user_gateways db | None => False end.

#[export] Instance member_of_dec actor db e : Decision (member_of actor db e).
Proof. unfold member_of. destruct (e_gateway_id e); apply _. Defined.

(** [JOIN gateways AS g ON g.gateway_id = e.gateway_id] *)
Definition has_gateway db e : Prop :=
  match e_gateway_id e with Some g => g ∈ gateways (store db) | None => False end.

#[export] Instance has_gateway_dec db e : Decision (has_gateway db e).
Proof. unfold has_gateway. destruct (e_gateway_id e); apply _. Defined.

(** ** The list of entities *)

(** The conditions of the list query. *)
Definition listed (actor : uuid) (g : option string) (t : option EntityType) (after : option string) db e : Prop :=
  member_of actor db e /\ (e_entity_type e = "Gateway" \/ e_entity_type e = "Sensor")
  /\ (forall x, g = Some x -> e_gateway_id e = Some x)
  /\ (forall x, t = Some x -> e_entity_type e = entity_type_text x)
  /\ (forall x, after = Some x -> c_lt x (e_entity_id e) = true).

#[export] Instance forall_some_dec {A} (o : option A) (P : A -> Prop) `{!forall x, Decision (P x)} :
  Decision (forall x, o = Some x -> P x).
Proof.
  destruct o as [x|]; [|by left]. destruct (decide (P x)) as [Hx|Hx]; [left; by intros y [= <-]|].
  right. intros Hall. by apply Hx, Hall.
Defined.

#[export] Instance listed_dec actor g t after db e : Decision (listed actor g t after db e).
Proof. unfold listed. apply _. Defined.

Definition urn_le (e1 e2 : TwinEntity uuid) : Prop := c_le (e_entity_id e1) (e_entity_id e2).

#[export] Instance urn_le_dec : RelDecision urn_le.
Proof. intros e1 e2. unfold urn_le. apply _. Defined.

Definition list_row db e : ListRow :=
  mkListRow (e_entity_id e) (e_entity_type e) (entity_name db e) (default "" (e_gateway_id e)) (entity_updated_at db e).

(** The entities the query selects, in its order, before [LIMIT]. *)
Definition listed_entities (actor : uuid) g t after db : list (TwinEntity uuid) :=
  merge_sort urn_le (filter (listed actor g t after db) (twin_entities (store db))).

Definition listEntitiesQuery (actor : uuid) g t after (limit : Z) db : list ListRow :=
  take (Z.to_nat limit) (list_row db <$> listed_entities actor g t after db).

(** ** Resolution *)

Definition resolveGatewayQuery (actor : uuid) (urn gatewayID : string) db : res herror (ResolvedGateway uuid) :=
  first_row (
    e ← filter (fun e => e_entity_type e = "Gateway" /\ e_entity_id e = urn /\ e_gateway_id e = Some gatewayID
                         /\ has_gateway db e /\ member_of actor db e) (twin_entities (store db));
    [mkResolvedGateway (e_id e) gatewayID]).

Definition resolveGatewayEntityQuery (actor : uuid) (urn gatewayID : string) db
    : res herror (uuid * string * string * string) :=
  first_row (
    e ← filter (fun e => e_entity_id e = urn /\ e_entity_type e = "Gateway" /\ e_gateway_id e = Some gatewayID
                         /\ has_gateway db e /\ member_of actor db e) (twin_entities (store db));
    [(e_id e, e_entity_id e, e_entity_type e, gatewayID)]).

(** [hasSensor] from a Gateway entity of that name to [e]. *)
Definition provisioned_under (parentURN : string) db e : Prop :=
  Exists (fun p => e_entity_id p = parentURN /\ e_entity_type p = "Gateway" /\ e_gateway_id p = e_gateway_id e
    /\ Exists (fun r => rel_source r = e_id p /\ rel_type r = "hasSensor" /\ rel_target r = e_id e)
         (twin_relationships (store db))) (twin_entities (store db)).

#[export] Instance provisioned_under_dec urn db e : Decision (provisioned_under urn db e).
Proof. unfold provisioned_under. apply _. Defined.

Definition resolveSensorEntityQuery (sensorID parentURN : string) (actor : uuid) (urn gatewayID : string) db
    : res herror (uuid * string * string * string * string) :=
  first_row (
    e ← filter (fun e => e_entity_id e = urn /\ e_entity_type e = "Sensor" /\ e_gateway_id e = Some gatewayID
                         /\ is_Some (sensors (store db) !! (gatewayID, sensorID))
                         /\ provisioned_under parentURN db e /\ has_gateway db e /\ member_of actor db e)
          (twin_entities (store db));
    [(e_id e, e_entity_id e, e_entity_type e, gatewayID, sensorID)]).

(** ** The detail of an entity *)

(** The row of [entity] itself, for its readers. *)
Definition is_entity (entity : ResolvedEntity uuid) (actor : uuid) db e : Prop :=
  e_id e = re_InternalID entity /\ e_entity_id e = re_PublicURN entity
  /\ e_entity_type e = entity_type_text (re_Type entity) /\ e_gateway_id e = Some (re_GatewayID entity)
  /\ has_gateway db e /\ member_of actor db e.

#[export] Instance is_entity_dec entity actor db e : Decision (is_entity entity actor db e).
Proof. unfold is_entity. apply _. Defined.

(** A Sensor entity whose name is that of a stored Sensor of its Gateway. *)
Definition names_sensor db (gatewayID : string) (e : TwinEntity uuid) : Prop :=
  map_Exists (fun k _ => k.1 = gatewayID /\ e_entity_id e = SensorEntityID k.1 k.2) (sensors (store db)).

#[export] Instance names_sensor_dec db g e : Decision (names_sensor db g e).
Proof. unfold names_sensor. apply _. Defined.

(** The targets of [hasSensor] from a source entity, in their order: the
    lateral subquery before [LIMIT]. *)
Definition target_of (src : TwinEntity uuid) (gatewayID : string) (after : option string) db (e : TwinEntity uuid) : Prop :=
  e_entity_type e = "Sensor" /\ e_gateway_id e = Some gatewayID /\ names_sensor db gatewayID e
  /\ Exists (fun r => rel_source r = e_id src /\ rel_type r = "hasSensor" /\ rel_target r = e_id e)
       (twin_relationships (store db))
  /\ (forall x, after = Some x -> c_lt x (e_entity_id e) = true).

#[export] Instance target_of_dec src g after db e : Decision (target_of src g after db e).
Proof. unfold target_of. apply _. Defined.

Definition targets (src : TwinEntity uuid) (gatewayID : string) after db : list (TwinEntity uuid) :=
  merge_sort urn_le (filter (target_of src gatewayID after db) (twin_entities (store db))).

Definition created_at db (src tgt : TwinEntity uuid) : Z :=
  default 0 (relationship_created (columns db) !! (e_id src, e_id tgt)).

Definition gatewayDetailQuery (actor : uuid) (entity : ResolvedEntity uuid) after (limit : Z) db
    : list GatewayDetailRow :=
  src ← filter (is_entity entity actor db) (twin_entities (store db));
  let row rel := mkGatewayRow (gateway_name db (re_GatewayID entity)) (gateway_description db (re_GatewayID entity))
                   (re_GatewayID entity) (entity_updated_at db src) rel in
  match take (Z.to_nat limit) (targets src (re_GatewayID entity) after db) with
  | [] => [row None]
  | tgts => (fun tgt => row (Some ("hasSensor", e_entity_id tgt, created_at db src tgt))) <$> tgts
  end.

(** [hasSensor] from any Gateway entity of the same Gateway. *)
Definition has_parent db e : Prop :=
  Exists (fun p => e_entity_type p = "Gateway" /\ e_gateway_id p = e_gateway_id e
    /\ Exists (fun r => rel_source r = e_id p /\ rel_type r = "hasSensor" /\ rel_target r = e_id e)
         (twin_relationships (store db))) (twin_entities (store db)).

#[export] Instance has_parent_dec db e : Decision (has_parent db e).
Proof. unfold has_parent. apply _. Defined.

Definition sensorDetailQuery (actor : uuid) (entity : ResolvedEntity uuid) db : res herror SensorDetailRow :=
  first_row (
    e ← filter (fun e => e_id e = re_InternalID entity /\ e_entity_id e = re_PublicURN entity
                         /\ e_entity_type e = "Sensor" /\ has_parent db e /\ has_gateway db e
                         /\ member_of actor db e) (twin_entities (store db));
    match e_gateway_id e with
    | Some g =>
        match sensors (store db) !! (g, re_SensorID entity) with
        | Some unit => [mkSensorRow (sensor_name db g (re_SensorID entity)) unit g (entity_updated_at db e)]
        | None => []
        end
    | None => []
    end).

(** ** The state of an entity: [LEFT JOIN twin_states], NULL without a row *)

Definition gatewayStateQuery (actor : uuid) (entity : ResolvedEntity uuid) db : list (option TwinState) :=
  e ← filter (is_entity entity actor db) (twin_entities (store db));
  [twin_states (store db) !! e_id e].

Definition sensorStateQuery (actor : uuid) (entity : ResolvedEntity uuid) db : list (option TwinState) :=
  e ← filter (fun e => is_entity entity actor db e /\ has_parent db e
                       /\ is_Some (sensors (store db) !! (re_GatewayID entity, re_SensorID entity)))
        (twin_entities (store db));
  [twin_states (store db) !! e_id e].
End queries.
