(* ===== verification/Registry.v ===== *)
(** * The registry: the tables that provisioning and metadata patches write

    The tables of [HistoryStore] with the columns that only writes need (roles,
    profiles, platform administrators, creation times), the statements of
    [gateway/postgres_*.go], [auth/postgres_admin.go] and
    [digitaltwin/postgres_*_patch.go] with the constraints of the migrations,
    and the transaction around them.  A transaction is one step here: the code
    locks the Gateway row (FOR UPDATE or FOR SHARE) and the row it writes, and
    unique keys order two creations of one row. *)

From S2P Require Import Prelude GoStrings GoTime GoFloat GoJson Identity Urn Uuid Telemetry.
From S2P Require Import Txn Store Persist HistoryQuery HistoryStore TwinModel TwinStore.
#[local] Open Scope Z_scope.

(** [created_at] is nullable for older rows: a row without a time has NULL. *)
Record RegistryDB (uuid : Type) `{UuidLib uuid} := mkRegistry {
  rg_store : DB uuid;
  rg_columns : TwinColumns uuid;
  rg_roles : gmap (uuid * string) string;
  rg_profiles : gset uuid;
  rg_admins : gset uuid;
  rg_gateway_created : gmap string Z;
  rg_sensor_created : gmap (string * string) Z;
}.
Arguments mkRegistry {uuid H}.
Arguments rg_store {uuid H}.
Arguments rg_columns {uuid H}.
Arguments rg_roles {uuid H}.
Arguments rg_profiles {uuid H}.
Arguments rg_admins {uuid H}.
Arguments rg_gateway_created {uuid H}.
Arguments rg_sensor_created {uuid H}.

(** The world of one write request: what [ctx.Err()] reports to the service and
    then to the repository ([None] for a nil context), the replies of the
    database, [now()], [statement_timestamp()] of the last update and the value
    of [gen_random_uuid()]. *)
Record WriteWorld (uuid : Type) := mkWriteWorld {
  ww_ctx : option (option ctx_err);
  ww_op_ctx : option ctx_err;
  ww_begin : Answer herror;
  ww_calls : list (Answer herror);
  ww_commit : CommitAnswer herror;
  ww_now : Z;
  ww_statement : Z;
  ww_new_id : uuid;
}.
Arguments mkWriteWorld {uuid}.
Arguments ww_ctx {uuid}.
Arguments ww_op_ctx {uuid}.
Arguments ww_begin {uuid}.
Arguments ww_calls {uuid}.
Arguments ww_commit {uuid}.
Arguments ww_now {uuid}.
Arguments ww_statement {uuid}.
Arguments ww_new_id {uuid}.

(** ** Constraint violations and NULLs *)

Definition unique_violation : herror := HCause (PgError "23505").
Definition foreign_key_violation : herror := HCause (PgError "23503").
Definition check_violation : herror := HCause (PgError "23514").

(** [Scan] of a NULL into a Go string. *)
Definition null_scanned : herror := HScan (HCause (OtherCause "cannot scan NULL into *string")).

Section registry.
Context {uuid : Type} `{U : UuidLib uuid}.
Implicit Types (d : RegistryDB uuid) (w : WriteWorld uuid).

(** What the read side sees. *)
Definition view d : HistoryDB uuid := mkHistoryDB (rg_store d) (dom (rg_roles d)) (rg_columns d).

(** ** The transaction *)

(** [BeginTx], the statements, [Commit], and [Rollback] on any earlier return. *)
Definition with_tx {DB A} (begin_err commit_err : herror -> herror) w (body : Transaction herror DB A) (d : DB)
    : res herror A * DB :=
  match ww_begin w with
  | Fails cause => (Err (begin_err cause), d)
  | Works =>
      match body d (ww_calls w) with
      | Err e => (Err e, d)
      | Ok (result, working, _) =>
          match ww_commit w with
          | CommitOk => (Ok result, working)
          | CommitError cause durable => (Err (commit_err cause), if durable then working else d)
          end
      end
  end.

Definition RTx (A : Type) : Type := Transaction herror (RegistryDB uuid) A.

(** [QueryRow(...).Scan(...)]: an error is wrapped and ends the transaction. *)
Definition read_row {DB A} (wrap : herror -> herror) (q : DB -> res herror A) : Transaction herror DB A :=
  call_checked wrap (fun db => let! a := q db in Ok (a, db)).

(** [if err != nil { return f(err) }] around several statements. *)
Definition on_error {A} (f : herror -> herror) (m : RTx A) : RTx A :=
  fun d rs => match m d rs with Err e => Err (f e) | Ok r => Ok r end.

(** [if errors.Is(err, pgx.ErrNoRows) { return missing }] before the wrap. *)
Definition no_rows (missing : herror) (wrap : herror -> herror) (err : herror) : herror :=
  if is_cause ErrNoRows err then missing else wrap err.

(** ** Setters *)

Definition set_store d (s : DB uuid) : RegistryDB uuid :=
  mkRegistry s (rg_columns d) (rg_roles d) (rg_profiles d) (rg_admins d) (rg_gateway_created d) (rg_sensor_created d).
Definition set_columns d (c : TwinColumns uuid) : RegistryDB uuid :=
  mkRegistry (rg_store d) c (rg_roles d) (rg_profiles d) (rg_admins d) (rg_gateway_created d) (rg_sensor_created d).

Definition with_graph (s : DB uuid) gws sns ents rels states : DB uuid :=
  mkDB gws sns (processed_messages s) (telemetry s) (sample_id_seq s) ents rels states (twin_temporal_values s).

(** ** Rows *)

(** [SELECT EXISTS (SELECT 1 FROM platform_admins WHERE user_id = $1)] *)
Definition is_admin_query (actor : uuid) d : bool := bool_decide (actor ∈ rg_admins d).

Definition profile_query (owner : uuid) d : res herror uuid :=
  if bool_decide (owner ∈ rg_profiles d) then Ok owner else Err (HCause ErrNoRows).

(** [name], [description] and [created_at] of a Gateway. *)
Definition gateway_row (g : string) d : option (string * option string * option Z) :=
  if bool_decide (g ∈ gateways (rg_store d))
  then let '(name, description) := default ("", None) (gateway_columns (rg_columns d) !! g) in
       Some (name, description, rg_gateway_created d !! g)
  else None.

Definition gateway_query (g : string) d : res herror (string * option string * option Z) :=
  or_err (HCause ErrNoRows) (gateway_row g d).

(** [name], [unit] and [created_at] of a Sensor. *)
Definition sensor_row (g s : string) d : option (string * option string * option Z) :=
  match sensors (rg_store d) !! (g, s) with
  | Some unit => Some (default "" (sensor_names (rg_columns d) !! (g, s)), unit, rg_sensor_created d !! (g, s))
  | None => None
  end.

Definition sensor_query (g s : string) d : res herror (string * option string * option Z) :=
  or_err (HCause ErrNoRows) (sensor_row g s d).

Definition role_query (user : uuid) (g : string) d : res herror string :=
  or_err (HCause ErrNoRows) (rg_roles d !! (user, g)).

(** [count] and [count FILTER (WHERE user_id = $2)] of the owners. *)
Definition owners_of (g : string) d : list uuid :=
  (fun kv => kv.1.1) <$> filter (fun kv => kv.1.2 = g /\ kv.2 = "owner") (map_to_list (rg_roles d)).

Definition owners_query (g : string) (owner : uuid) d : Z * Z :=
  (Z.of_nat (length (owners_of g d)), Z.of_nat (length (filter (fun u => u = owner) (owners_of g d)))).

(** Entities of a name, a type and a Gateway. *)
Definition entities_named (urn type g : string) d : list (TwinEntity uuid) :=
  filter (fun e => e_entity_id e = urn /\ e_entity_type e = type /\ e_gateway_id e = Some g)
    (twin_entities (rg_store d)).

Definition has_state d (e : TwinEntity uuid) : bool := bool_decide (is_Some (twin_states (rg_store d) !! e_id e)).

(** [SELECT count FROM twin_entities WHERE gateway_id = $1 AND entity_type = 'Gateway'] *)
Definition gateway_twins (g : string) d : Z :=
  Z.of_nat (length (filter (fun e => e_gateway_id e = Some g /\ e_entity_type e = "Gateway")
                      (twin_entities (rg_store d)))).

(** [e.name = $3]; NULL is not equal to any text. *)
Definition named_as (name : string) d (e : TwinEntity uuid) : bool :=
  bool_decide (entity_name (view d) e = Some name).

Definition has_relationship (src : uuid) d (e : TwinEntity uuid) : bool :=
  existsb (fun r => bool_decide (rel_source r = src) && bool_decide (rel_type r = "hasSensor")
                    && bool_decide (rel_target r = e_id e)) (twin_relationships (rg_store d)).

(** The Gateway's only twin, with a state and the Gateway's name. *)
Definition gateway_graph_rows (urn g name : string) d : list uuid :=
  e_id <$> filter (fun e => has_state d e && named_as name d e && (gateway_twins g d =? 1) = true)
             (entities_named urn "Gateway" g d).

Definition parent_twin_query (urn g name : string) d : res herror uuid := first_row (gateway_graph_rows urn g name d).

Definition gateway_graph_valid (urn g name : string) d : bool :=
  existsb (fun e => has_state d e && named_as name d e) (entities_named urn "Gateway" g d)
  && (gateway_twins g d =? 1).

Definition sensor_graph_valid (urn g name : string) (parent : uuid) d : bool :=
  existsb (fun e => has_state d e && has_relationship parent d e && named_as name d e)
    (entities_named urn "Sensor" g d).

(** ** Inserts *)

(** The checks [chk_gateways_identifier] and [chk_sensors_identifier]. *)
Definition gateway_id_checked (g : string) : bool := gatewayIDPattern g && negb (bool_decide (g = "backend_service")).

(** [INSERT INTO gateways ... ON CONFLICT (gateway_id) DO NOTHING RETURNING created_at] *)
Definition insert_gateway (now : Z) (g name : string) (description : option string) d
    : res herror (option Z * RegistryDB uuid) :=
  if negb (gateway_id_checked g) then Err check_violation
  else if bool_decide (g ∈ gateways (rg_store d)) then Err (HCause ErrNoRows)
  else
    let s := rg_store d in let c := rg_columns d in
    Ok (Some now,
        mkRegistry (with_graph s ({[g]} ∪ gateways s) (sensors s) (twin_entities s) (twin_relationships s) (twin_states s))
          (mkTwinColumns (entity_columns c) (<[g := (name, description)]> (gateway_columns c)) (sensor_names c)
             (relationship_created c))
          (rg_roles d) (rg_profiles d) (rg_admins d) (<[g := now]> (rg_gateway_created d)) (rg_sensor_created d)).

(** [INSERT INTO user_gateways(user_id,gateway_id,role)]: the role check, the
    primary key and both foreign keys. *)
Definition insert_member (user : uuid) (g role : string) d : res herror (Z * RegistryDB uuid) :=
  if negb (bool_decide (role ∈ ["owner"; "operator"; "viewer"])) then Err check_violation
  else if bool_decide (is_Some (rg_roles d !! (user, g))) then Err unique_violation
  else if negb (bool_decide (user ∈ rg_profiles d)) || negb (bool_decide (g ∈ gateways (rg_store d)))
  then Err foreign_key_violation
  else Ok (1, mkRegistry (rg_store d) (rg_columns d) (<[(user, g) := role]> (rg_roles d)) (rg_profiles d) (rg_admins d)
             (rg_gateway_created d) (rg_sensor_created d)).

Definition entity_conflict (id : uuid) (urn : string) d : bool :=
  existsb (fun e => bool_decide (e_id e = id) || bool_decide (e_entity_id e = urn)) (twin_entities (rg_store d)).

(** [INSERT INTO twin_entities(entity_id,entity_type,name,gateway_id) ... RETURNING id];
    [conflict] is what a taken [id] or [entity_id] makes of it. *)
Definition insert_entity (conflict : herror) (now : Z) (id : uuid) (urn type name g : string) d
    : res herror (uuid * RegistryDB uuid) :=
  if entity_conflict id urn d then Err conflict
  else if negb (bool_decide (g ∈ gateways (rg_store d))) then Err foreign_key_violation
  else
    let s := rg_store d in let c := rg_columns d in
    Ok (id, set_columns (set_store d
              (with_graph s (gateways s) (sensors s) (twin_entities s ++ [mkTwinEntity id urn type (Some g)])
                 (twin_relationships s) (twin_states s)))
              (mkTwinColumns (<[id := (Some name, now)]> (entity_columns c)) (gateway_columns c) (sensor_names c)
                 (relationship_created c))).

Definition has_entity (id : uuid) d : bool :=
  existsb (fun e => bool_decide (e_id e = id)) (twin_entities (rg_store d)).

(** The defaults of [twin_states]. *)
Definition new_state (now : Z) : TwinState := mkTwinState (JsonbObject ∅) (JsonbObject ∅) 0 0 None None now.

(** [INSERT INTO twin_states(entity_id) VALUES ($1)] *)
Definition insert_state (now : Z) (id : uuid) d : res herror (Z * RegistryDB uuid) :=
  let s := rg_store d in
  if bool_decide (is_Some (twin_states s !! id)) then Err unique_violation
  else if negb (has_entity id d) then Err foreign_key_violation
  else Ok (1, set_store d (with_graph s (gateways s) (sensors s) (twin_entities s) (twin_relationships s)
                             (<[id := new_state now]> (twin_states s)))).

Definition hasSensor_rel (src tgt : uuid) : TwinRelationship uuid := mkTwinRelationship src "hasSensor" tgt.

(** [INSERT INTO twin_relationships ... VALUES ($1,'hasSensor',$2)] *)
Definition insert_hasSensor (now : Z) (src tgt : uuid) d : res herror (Z * RegistryDB uuid) :=
  let s := rg_store d in let c := rg_columns d in
  if existsb (fun r => bool_decide (rel_source r = src) && bool_decide (rel_type r = "hasSensor")
                       && bool_decide (rel_target r = tgt)) (twin_relationships s) then Err unique_violation
  else if negb (has_entity src d) || negb (has_entity tgt d) then Err foreign_key_violation
  else Ok (1, set_columns (set_store d (with_graph s (gateways s) (sensors s) (twin_entities s)
                                          (twin_relationships s ++ [hasSensor_rel src tgt]) (twin_states s)))
                (mkTwinColumns (entity_columns c) (gateway_columns c) (sensor_names c)
                   (<[(src, tgt) := now]> (relationship_created c)))).

(** [INSERT INTO sensors ... ON CONFLICT (gateway_id,sensor_id) DO NOTHING RETURNING created_at] *)
Definition insert_sensor (now : Z) (g sensor name : string) (unit : option string) d
    : res herror (option Z * RegistryDB uuid) :=
  let s := rg_store d in let c := rg_columns d in
  if negb (gatewayIDPattern sensor) then Err check_violation
  else if bool_decide (is_Some (sensors s !! (g, sensor))) then Err (HCause ErrNoRows)
  else if negb (bool_decide (g ∈ gateways s)) then Err foreign_key_violation
  else Ok (Some now,
           mkRegistry (with_graph s (gateways s) (<[(g, sensor) := unit]> (sensors s)) (twin_entities s)
                         (twin_relationships s) (twin_states s))
             (mkTwinColumns (entity_columns c) (gateway_columns c) (<[(g, sensor) := name]> (sensor_names c))
                (relationship_created c))
             (rg_roles d) (rg_profiles d) (rg_admins d) (rg_gateway_created d)
             (<[(g, sensor) := now]> (rg_sensor_created d))).

(** ** Updates *)

(** [UPDATE gateways SET ... WHERE gateway_id = $n]: the columns named, on the
    row when there is one. *)
Definition update_gateway (g : string) (name : option string) (description : option (option string)) d
    : Z * RegistryDB uuid :=
  match gateway_row g d with
  | None => (0, d)
  | Some (name0, description0, _) =>
      let c := rg_columns d in
      (1, set_columns d (mkTwinColumns (entity_columns c)
            (<[g := (default name0 name, default description0 description)]> (gateway_columns c))
            (sensor_names c) (relationship_created c)))
  end.

(** [UPDATE sensors SET name = $1 WHERE gateway_id = $2 AND sensor_id = $3] *)
Definition update_sensor (g sensor name : string) d : Z * RegistryDB uuid :=
  match sensor_row g sensor d with
  | None => (0, d)
  | Some _ =>
      let c := rg_columns d in
      (1, set_columns d (mkTwinColumns (entity_columns c) (gateway_columns c)
            (<[(g, sensor) := name]> (sensor_names c)) (relationship_created c)))
  end.

(** [UPDATE twin_entities SET ..., updated_at = statement_timestamp() WHERE id = $n
    RETURNING updated_at] *)
Definition update_entity (statement : Z) (id : uuid) (name : option string) d : res herror (Z * RegistryDB uuid) :=
  if negb (has_entity id d) then Err (HCause ErrNoRows)
  else
    let c := rg_columns d in
    let name0 := (default (None, 0) (entity_columns c !! id)).1 in
    Ok (statement, set_columns d (mkTwinColumns
          (<[id := (match name with Some n => Some n | None => name0 end, statement)]> (entity_columns c))
          (gateway_columns c) (sensor_names c) (relationship_created c))).

End registry.
Arguments RTx uuid {U} A.

(** ** Platform administrators: [auth/postgres_admin.go] *)

Definition IsPlatformAdmin {uuid} `{U : UuidLib uuid} (actor : uuid) : RTx uuid bool :=
  read_row (HText "lookup platform admin membership") (fun d => Ok (is_admin_query actor d)).

(** ** Statements that succeeded *)

Lemma read_row_ok {DB A} wrap (q : DB -> res herror A) d rs a d' rs' :
  read_row wrap q d rs = Ok (a, d', rs') -> q d = Ok a /\ d' = d.
Proof.
  unfold read_row. intros H. apply call_checked_ok in H. destruct (q d) as [a0|e]; [|done].
  injection H as -> <-. done.
Qed.

(** [step_ok H] splits the first statement off a transaction that succeeded. *)
Ltac step_ok H :=
  let a := fresh "a" in let d0 := fresh "d" in let rs0 := fresh "rs" in let E := fresh "E" in
  apply tx_bind_ok in H as (a & d0 & rs0 & E & H).

(** [step_row H] does so for a statement that reads one row. *)
Ltac step_row H :=
  let a := fresh "a" in let d0 := fresh "d" in let rs0 := fresh "rs" in let E := fresh "E" in
  apply tx_bind_ok in H as (a & d0 & rs0 & E & H); apply read_row_ok in E as [E ->].
