(* ===== verification/Provision.v ===== *)
(** * Provisioning of Gateways and Sensors

    [gateway/provisioning_model.go], [provisioning_service.go],
    [owner_sensor_provisioning.go], [admin_or_owner_sensor_provisioning.go],
    [postgres_gateway_provisioning.go] and [postgres_sensor_provisioning.go]
    with their error classes, and [digitaltwin/create_model.go] and
    [create_service.go]. *)

From S2P Require Import Prelude GoStrings GoTime GoFloat GoJson Identity Urn Uuid Telemetry.
From S2P Require Import Txn Store Persist HistoryQuery HistoryStore TwinModel Cursor TwinStore Registry.
#[local] Open Scope Z_scope.

(** ** Inputs, results and their checks *)

Record ProvisionGatewayInput (uuid : Type) := mkGatewayInput {
  pg_GatewayID : string;
  pg_Name : string;
  pg_Description : option string;
  pg_OwnerUserID : uuid;
}.
Arguments mkGatewayInput {uuid}.
Arguments pg_GatewayID {uuid}.
Arguments pg_Name {uuid}.
Arguments pg_Description {uuid}.
Arguments pg_OwnerUserID {uuid}.

Record ProvisionSensorInput := mkSensorInput {
  ps_GatewayID : string;
  ps_SensorID : string;
  ps_Name : string;
  ps_Unit : option string;
}.

Record ProvisionGatewayResult (uuid : Type) := mkGatewayResult {
  gr_Created : bool;
  gr_GatewayID : string;
  gr_Name : string;
  gr_Description : option string;
  gr_OwnerUserID : uuid;
  gr_EntityID : string;
  gr_CreatedAt : option Z;
}.
Arguments mkGatewayResult {uuid}.
Arguments gr_Created {uuid}.
Arguments gr_GatewayID {uuid}.
Arguments gr_Name {uuid}.
Arguments gr_Description {uuid}.
Arguments gr_OwnerUserID {uuid}.
Arguments gr_EntityID {uuid}.
Arguments gr_CreatedAt {uuid}.

Record ProvisionSensorResult := mkSensorResult {
  sr_Created : bool;
  sr_GatewayID : string;
  sr_SensorID : string;
  sr_Name : string;
  sr_Unit : option string;
  sr_EntityID : string;
  sr_CreatedAt : option Z;
}.

(** [len(value) <= maxBytes], valid UTF-8, no NUL. *)
Definition ValidMetadata (value : string) (maxBytes : Z) : bool :=
  (str_len value <=? maxBytes) && utf8_Valid 0 value && negb (contains_char Ascii.zero value).

Definition ValidNullableMetadata (value : option string) (maxBytes : Z) : bool :=
  match value with None => true | Some value => ValidMetadata value maxBytes end.

Definition ValidProvisioningName (value : string) : bool :=
  ValidMetadata value 256 && negb (bool_decide (TrimSpace value = "")).

(** ** Error classes *)

(** [classifyGatewayProvisioningError], [classifyOwnerProvisioningError] and
    [classifyAdminOrOwnerProvisioningError]: a value that could not be decoded is
    not an outage. *)
Definition classifyGatewayProvisioningError (err : herror) : herror :=
  if is_scan err then err
  else ClassifyPostgresAvailabilityError err (HGateway ErrGatewayProvisioningUnavailable).

Definition classifyOwnerProvisioningError (err : herror) : herror :=
  if is_scan err then err
  else ClassifyPostgresAvailabilityError err (HGateway ErrOwnerProvisioningUnavailable).

Definition classifyAdminOrOwnerProvisioningError (err : herror) : herror :=
  if is_scan err then err
  else ClassifyPostgresAvailabilityError err (HGateway ErrAdminOrOwnerProvisioningUnavailable).

Definition sameNullableString (a b : option string) : bool :=
  match a, b with
  | None, None => true
  | Some a, Some b => bool_decide (a = b)
  | _, _ => false
  end.

Lemma sameNullableString_spec a b : sameNullableString a b = bool_decide (a = b).
Proof. destruct a, b; cbn; try done; apply bool_decide_ext; split; congruence. Qed.

Section provisioning.
Context {uuid : Type} `{U : UuidLib uuid}.
Implicit Types (d : RegistryDB uuid) (w : WriteWorld uuid) (actor : uuid).

Definition ValidateProvisionGatewayInput actor (input : ProvisionGatewayInput uuid) : option herror :=
  if bool_decide (actor = uuid_Nil) || bool_decide (pg_OwnerUserID input = uuid_Nil)
  then Some (HGateway ErrInvalidProvisioningInput)
  else match ValidateGatewayID (pg_GatewayID input) with
  | Some err => Some (HIdent err)
  | None =>
      if negb (ValidProvisioningName (pg_Name input)) || negb (ValidNullableMetadata (pg_Description input) 4096)
      then Some (HGateway ErrInvalidProvisioningInput) else None
  end.

Definition ValidateProvisionSensorInput actor (input : ProvisionSensorInput) : option herror :=
  if bool_decide (actor = uuid_Nil) then Some (HGateway ErrInvalidProvisioningInput)
  else match ValidateGatewayID (ps_GatewayID input) with
  | Some err => Some (HIdent err)
  | None =>
      match ValidateSensorID (ps_SensorID input) with
      | Some err => Some (HIdent err)
      | None =>
          if negb (ValidProvisioningName (ps_Name input)) || negb (ValidNullableMetadata (ps_Unit input) 64)
          then Some (HGateway ErrInvalidProvisioningInput) else None
      end
  end.

(** ** Gateways *)

(** The matching retry of an existing Gateway: its [created_at]. *)
Definition verifyGatewayRetry (input : ProvisionGatewayInput uuid) (entityID : string) : RTx uuid (option Z) :=
  let classify text err := HText text (classifyGatewayProvisioningError err) in
  let> (name, description, created_at) :=
    read_row (no_rows (HGateway ErrProvisioningInconsistent) (classify "read existing Gateway"))
      (gateway_query (pg_GatewayID input)) in
  if negb (bool_decide (name = pg_Name input)) || negb (sameNullableString description (pg_Description input))
  then tx_fail (HGateway ErrProvisioningConflict)
  else
    let> (owners, matchingOwners) :=
      read_row (classify "verify Gateway owner")
        (fun d => Ok (owners_query (pg_GatewayID input) (pg_OwnerUserID input) d)) in
    if (owners =? 0) || (1 <? owners) then tx_fail (HGateway ErrProvisioningInconsistent)
    else if negb (matchingOwners =? 1) then tx_fail (HGateway ErrProvisioningConflict)
    else
      let> valid := read_row (classify "verify Gateway twin graph")
                      (fun d => Ok (gateway_graph_valid entityID (pg_GatewayID input) (pg_Name input) d)) in
      if negb valid then tx_fail (HGateway ErrProvisioningInconsistent) else tx_ret created_at.

Definition provision_gateway_body w actor (input : ProvisionGatewayInput uuid)
    : RTx uuid (ProvisionGatewayResult uuid) :=
  let classify text err := HText text (classifyGatewayProvisioningError err) in
  let entityID := GatewayEntityID (pg_GatewayID input) in
  let result created created_at :=
    mkGatewayResult created (pg_GatewayID input) (pg_Name input) (pg_Description input) (pg_OwnerUserID input)
      entityID created_at in
  let> admin := on_error (fun err => HJoin (HGateway ErrProvisioningAdminLookup) (classifyGatewayProvisioningError err))
                  (IsPlatformAdmin actor) in
  if negb admin then tx_fail (HGateway ErrProvisioningForbidden)
  else
    let> owner := read_row (no_rows (HGateway ErrProvisioningNotFound) (classify "resolve provisioning owner"))
                    (profile_query (pg_OwnerUserID input)) in
    let> inserted := attempt (insert_gateway (ww_now w) (pg_GatewayID input) (pg_Name input) (pg_Description input)) in
    match inserted with
    | Ok created_at =>
        let> _ := call_checked (classify "insert provisioning owner")
                    (insert_member owner (pg_GatewayID input) "owner") in
        let> entity := call_checked (classify "insert Gateway twin")
                         (insert_entity unique_violation (ww_now w) (ww_new_id w) entityID "Gateway" (pg_Name input)
                            (pg_GatewayID input)) in
        let> _ := call_checked (classify "insert Gateway state") (insert_state (ww_now w) entity) in
        tx_ret (result true created_at)
    | Err err =>
        if is_cause ErrNoRows err then
          let> created_at := verifyGatewayRetry input entityID in
          tx_ret (result false created_at)
        else tx_fail (classify "insert Gateway" err)
    end.

Definition ProvisionGateway w actor (input : ProvisionGatewayInput uuid) d
    : res herror (ProvisionGatewayResult uuid) * RegistryDB uuid :=
  match ValidateProvisionGatewayInput actor input with
  | Some err => (Err err, d)
  | None =>
      with_tx (fun err => HText "begin provisioning" (classifyGatewayProvisioningError err))
        (fun err => HText "commit Gateway provisioning" (classifyGatewayProvisioningError err))
        w (provision_gateway_body w actor input) d
  end.

(** ** Sensors *)

Definition verifySensorRetry (parent : uuid) (input : ProvisionSensorInput) (entityID : string)
    : RTx uuid (option Z) :=
  let> (name, unit, created_at) :=
    read_row (no_rows (HGateway ErrProvisioningInconsistent) (HText "read existing Sensor"))
      (sensor_query (ps_GatewayID input) (ps_SensorID input)) in
  if negb (bool_decide (name = ps_Name input)) || negb (sameNullableString unit (ps_Unit input))
  then tx_fail (HGateway ErrProvisioningConflict)
  else
    let> valid := read_row (HText "verify Sensor twin graph")
                    (fun d => Ok (sensor_graph_valid entityID (ps_GatewayID input) (ps_Name input) parent d)) in
    if negb valid then tx_fail (HGateway ErrProvisioningInconsistent) else tx_ret created_at.

Definition executeSensorGraphProvisioning w (input : ProvisionSensorInput) (parentName : string)
    : RTx uuid ProvisionSensorResult :=
  let entityID := SensorEntityID (ps_GatewayID input) (ps_SensorID input) in
  let result created created_at :=
    mkSensorResult created (ps_GatewayID input) (ps_SensorID input) (ps_Name input) (ps_Unit input) entityID created_at in
  let> parent := read_row (no_rows (HGateway ErrProvisioningInconsistent) (HText "resolve Sensor parent twin"))
                   (parent_twin_query (GatewayEntityID (ps_GatewayID input)) (ps_GatewayID input) parentName) in
  let> inserted := attempt (insert_sensor (ww_now w) (ps_GatewayID input) (ps_SensorID input) (ps_Name input)
                              (ps_Unit input)) in
  match inserted with
  | Ok created_at =>
      let> entity := call_checked (no_rows (HGateway ErrProvisioningInconsistent) (HText "insert Sensor twin"))
                       (insert_entity (HCause ErrNoRows) (ww_now w) (ww_new_id w) entityID "Sensor" (ps_Name input)
                          (ps_GatewayID input)) in
      let> _ := call_checked (HText "insert Sensor state") (insert_state (ww_now w) entity) in
      let> _ := call_checked (HText "insert hasSensor") (insert_hasSensor (ww_now w) parent entity) in
      tx_ret (result true created_at)
  | Err err =>
      if is_cause ErrNoRows err then
        let> created_at := verifySensorRetry parent input entityID in
        tx_ret (result false created_at)
      else tx_fail (HText "insert Sensor" err)
  end.

(** [SELECT name FROM gateways WHERE gateway_id = $1 FOR UPDATE] or [FOR SHARE]. *)
Definition lock_parent (wrap : herror -> herror) (g : string) : RTx uuid string :=
  let> (name, _, _) := read_row (no_rows (HGateway ErrProvisioningNotFound) wrap) (gateway_query g) in
  tx_ret name.

(** The membership of the actor must be [owner]. *)
Definition require_owner (wrap : herror -> herror) actor (g : string) : RTx uuid () :=
  let> role := read_row (no_rows (HGateway ErrProvisioningNotFound) wrap) (role_query actor g) in
  if negb (bool_decide (role = "owner")) then tx_fail (HGateway ErrProvisioningForbidden) else tx_ret tt.

Definition provision_sensor_body w actor (input : ProvisionSensorInput) : RTx uuid ProvisionSensorResult :=
  let> admin := on_error (HJoin (HGateway ErrProvisioningAdminLookup)) (IsPlatformAdmin actor) in
  if negb admin then tx_fail (HGateway ErrProvisioningForbidden)
  else
    let> parentName := lock_parent (HText "lock Sensor parent") (ps_GatewayID input) in
    executeSensorGraphProvisioning w input parentName.

Definition ProvisionSensor w actor (input : ProvisionSensorInput) d
    : res herror ProvisionSensorResult * RegistryDB uuid :=
  match ValidateProvisionSensorInput actor input with
  | Some err => (Err err, d)
  | None => with_tx (HText "begin Sensor provisioning") (HText "commit Sensor provisioning")
              w (provision_sensor_body w actor input) d
  end.

Definition provision_sensor_for_owner_body w actor (input : ProvisionSensorInput) : RTx uuid ProvisionSensorResult :=
  let classify text err := HText text (classifyOwnerProvisioningError err) in
  let> parentName := lock_parent (classify "lock Sensor parent") (ps_GatewayID input) in
  let> _ := require_owner (classify "lookup owner membership") actor (ps_GatewayID input) in
  on_error classifyOwnerProvisioningError (executeSensorGraphProvisioning w input parentName).

Definition ProvisionSensorForOwner w actor (input : ProvisionSensorInput) d
    : res herror ProvisionSensorResult * RegistryDB uuid :=
  match ValidateProvisionSensorInput actor input with
  | Some err => (Err err, d)
  | None =>
      with_tx (fun err => HText "begin owner Sensor provisioning" (classifyOwnerProvisioningError err))
        (fun err => HText "commit owner Sensor provisioning" (classifyOwnerProvisioningError err))
        w (provision_sensor_for_owner_body w actor input) d
  end.

Definition provision_sensor_for_admin_or_owner_body w actor (input : ProvisionSensorInput)
    : RTx uuid ProvisionSensorResult :=
  let classify text err := HText text (classifyAdminOrOwnerProvisioningError err) in
  let> admin := on_error (HJoin (HGateway ErrProvisioningAdminLookup)) (IsPlatformAdmin actor) in
  let> parentName := lock_parent (classify "lock Sensor parent") (ps_GatewayID input) in
  let> _ := if negb admin then require_owner (classify "lookup membership") actor (ps_GatewayID input)
            else tx_ret tt in
  on_error classifyAdminOrOwnerProvisioningError (executeSensorGraphProvisioning w input parentName).

Definition ProvisionSensorForAdminOrOwner w actor (input : ProvisionSensorInput) d
    : res herror ProvisionSensorResult * RegistryDB uuid :=
  match ValidateProvisionSensorInput actor input with
  | Some err => (Err err, d)
  | None =>
      with_tx (fun err => HText "begin admin or owner Sensor provisioning" (classifyAdminOrOwnerProvisioningError err))
        (fun err => HText "commit admin or owner Sensor provisioning" (classifyAdminOrOwnerProvisioningError err))
        w (provision_sensor_for_admin_or_owner_body w actor input) d
  end.

(** ** Services *)

(** A provisioning operation of a repository, on the tables in its world. *)
Definition Operation (Input Result : Type) : Type :=
  WriteWorld uuid -> uuid -> Input -> RegistryDB uuid -> res herror Result * RegistryDB uuid.

Record ProvisioningRepository := mkProvisioningRepository {
  repo_ProvisionGateway : Operation (ProvisionGatewayInput uuid) (ProvisionGatewayResult uuid);
  repo_ProvisionSensor : Operation ProvisionSensorInput ProvisionSensorResult;
}.

Record ProvisioningService := mkProvisioningService {
  prov_repository : ProvisioningRepository;
  prov_timeout : Z;
}.

(** A service for one kind of Sensor provisioning: that of the owner, or that of
    an administrator or owner. *)
Record SensorProvisioningService := mkSensorProvisioningService {
  sensor_repository : Operation ProvisionSensorInput ProvisionSensorResult;
  sensor_timeout : Z;
}.

Definition NewProvisioningService (repository : option ProvisioningRepository) (timeout : Z)
    : res string ProvisioningService :=
  match repository with
  | None => Err "provisioning repository is required"
  | Some repository =>
      if timeout <=? 0 then Err "provisioning timeout must be positive"
      else Ok (mkProvisioningService repository timeout)
  end.

Definition NewOwnerSensorProvisioningService (repo : option (Operation ProvisionSensorInput ProvisionSensorResult))
    (timeout : Z) : res string SensorProvisioningService :=
  match repo with
  | None => Err "owner sensor provisioning repository is required"
  | Some repo =>
      if timeout <=? 0 then Err "owner sensor provisioning timeout must be positive"
      else Ok (mkSensorProvisioningService repo timeout)
  end.

Definition NewAdminOrOwnerSensorProvisioningService
    (repo : option (Operation ProvisionSensorInput ProvisionSensorResult)) (timeout : Z)
    : res string SensorProvisioningService :=
  match repo with
  | None => Err "admin or owner sensor provisioning repository is required"
  | Some repo =>
      if timeout <=? 0 then Err "admin or owner sensor provisioning timeout must be positive"
      else Ok (mkSensorProvisioningService repo timeout)
  end.

Definition service_ProvisionGateway (s : ProvisioningService)
    : Operation (ProvisionGatewayInput uuid) (ProvisionGatewayResult uuid) :=
  fun w actor input d =>
    match ValidateProvisionGatewayInput actor input with
    | Some err => (Err err, d)
    | None => repo_ProvisionGateway (prov_repository s) w actor input d
    end.

Definition service_ProvisionSensor (s : ProvisioningService) : Operation ProvisionSensorInput ProvisionSensorResult :=
  fun w actor input d =>
    match ValidateProvisionSensorInput actor input with
    | Some err => (Err err, d)
    | None => repo_ProvisionSensor (prov_repository s) w actor input d
    end.

(** [ProvisionSensorForOwner] and [ProvisionSensorForAdminOrOwner] of the services. *)
Definition service_ProvisionSensorFor (s : SensorProvisioningService)
    : Operation ProvisionSensorInput ProvisionSensorResult :=
  fun w actor input d =>
    match ValidateProvisionSensorInput actor input with
    | Some err => (Err err, d)
    | None => sensor_repository s w actor input d
    end.

(** ** Creation of a Digital Twin entity *)

Record CreateEntityInput := mkCreateEntityInput {
  ce_Type : EntityType;
  ce_Gateway : option (ProvisionGatewayInput uuid);
  ce_Sensor : option ProvisionSensorInput;
}.

Record CreateEntityResult := mkCreateEntityResult {
  cr_Created : bool;
  cr_Type : EntityType;
  cr_EntityID : string;
  cr_Gateway : option (ProvisionGatewayResult uuid);
  cr_Sensor : option ProvisionSensorResult;
}.

Definition ValidateCreateEntityInput actor (input : CreateEntityInput) : option herror :=
  if bool_decide (actor = uuid_Nil) then Some (HTwin ErrNilActor)
  else match ce_Type input with
  | EntityTypeGateway =>
      match ce_Gateway input, ce_Sensor input with
      | Some gateway, None => HJoin (HTwin ErrInvalidInput) <$> ValidateProvisionGatewayInput actor gateway
      | _, _ => Some (HTwin ErrInvalidInput)
      end
  | EntityTypeSensor =>
      match ce_Sensor input, ce_Gateway input with
      | Some sensor, None => HJoin (HTwin ErrInvalidInput) <$> ValidateProvisionSensorInput actor sensor
      | _, _ => Some (HTwin ErrInvalidInput)
      end
  | _ => Some (HTwin ErrInvalidInput)
  end.

Record createService := mkCreateService {
  gatewayProvisioner : Operation (ProvisionGatewayInput uuid) (ProvisionGatewayResult uuid);
  sensorProvisioner : Operation ProvisionSensorInput ProvisionSensorResult;
}.

Definition NewCreateService (gw : option (Operation (ProvisionGatewayInput uuid) (ProvisionGatewayResult uuid)))
    (sensor : option (Operation ProvisionSensorInput ProvisionSensorResult)) : res string createService :=
  match gw, sensor with
  | None, _ => Err "gateway provisioner is required"
  | Some _, None => Err "sensor provisioner is required"
  | Some gw, Some sensor => Ok (mkCreateService gw sensor)
  end.

(** The validated input has the part its type asks for. *)
Definition CreateEntity (s : createService) w actor (input : CreateEntityInput) d
    : res herror CreateEntityResult * RegistryDB uuid :=
  match ww_ctx w with
  | None => (Err (HTwin ErrInvalidInput), d)
  | Some (Some c) => (Err (HCause (ctx_cause c)), d)
  | Some None =>
      match ValidateCreateEntityInput actor input with
      | Some err => (Err err, d)
      | None =>
          match ce_Type input, ce_Gateway input, ce_Sensor input with
          | EntityTypeGateway, Some gateway, _ =>
              match gatewayProvisioner s w actor gateway d with
              | (Err err, d') => (Err err, d')
              | (Ok r, d') => (Ok (mkCreateEntityResult (gr_Created r) EntityTypeGateway (gr_EntityID r) (Some r) None), d')
              end
          | EntityTypeSensor, _, Some sensor =>
              match sensorProvisioner s w actor sensor d with
              | (Err err, d') => (Err err, d')
              | (Ok r, d') => (Ok (mkCreateEntityResult (sr_Created r) EntityTypeSensor (sr_EntityID r) None (Some r)), d')
              end
          | _, _, _ => (Err (HTwin ErrInvalidInput), d)
          end
      end
  end.

End provisioning.
