(* ===== verification/Patch.v ===== *)
(** * Metadata patches of Gateways and Sensors

    [digitaltwin/metadata_model.go], [patch_service.go],
    [postgres_gateway_patch.go] and [postgres_sensor_patch.go], and the HTTP
    class of a mutation's error ([httpserver/mutation_dto.go]). *)

From S2P Require Import Prelude GoStrings GoTime GoFloat GoJson Identity Urn Uuid Telemetry.
From S2P Require Import Txn Store Persist HistoryQuery HistoryStore TwinModel TwinStore Registry Provision.
#[local] Open Scope Z_scope.

(** ** Inputs and results *)

Record PatchGatewayInput := mkPatchGateway {
  pgi_Name : option string;
  pgi_DescriptionSet : bool;
  pgi_Description : option string;
}.

Record PatchSensorInput := mkPatchSensor { psi_Name : option string }.

Record PatchEntityInput := mkPatchEntity {
  pei_Target : ParsedIdentity;
  pei_Gateway : option PatchGatewayInput;
  pei_Sensor : option PatchSensorInput;
}.

Record PatchGatewayResult := mkPatchGatewayResult {
  pgr_ID : string;
  pgr_Type : EntityType;
  pgr_GatewayID : string;
  pgr_Name : string;
  pgr_Description : option string;
  pgr_UpdatedAt : Z;
}.

Record PatchSensorResult := mkPatchSensorResult {
  psr_ID : string;
  psr_Type : EntityType;
  psr_GatewayID : string;
  psr_SensorID : string;
  psr_Name : string;
  psr_Unit : option string;
  psr_UpdatedAt : Z;
}.

Definition invalid : herror := HTwin ErrInvalidInput.

Definition ValidatePatchGatewayInput (input : PatchGatewayInput) : option herror :=
  if bool_decide (pgi_Name input = None) && negb (pgi_DescriptionSet input) then Some invalid
  else if negb (pgi_DescriptionSet input) && bool_decide (is_Some (pgi_Description input)) then Some invalid
  else
    let name_refused := match pgi_Name input with Some name => negb (ValidProvisioningName name) | None => false end in
    let description_refused :=
      match pgi_Description input with
      | Some description => pgi_DescriptionSet input && negb (ValidMetadata description 4096)
      | None => false
      end in
    if name_refused then Some invalid else if description_refused then Some invalid else None.

Definition ValidatePatchSensorInput (input : PatchSensorInput) : option herror :=
  match psi_Name input with
  | None => Some invalid
  | Some name => if negb (ValidProvisioningName name) then Some invalid else None
  end.

Definition ValidatePatchEntityInput (input : PatchEntityInput) : option herror :=
  let target := pei_Target input in
  match pi_Type target with
  | EntityTypeGateway =>
      match pei_Gateway input, pei_Sensor input with
      | Some gateway, None =>
          if bool_decide (is_Some (ValidateGatewayID (pi_GatewayID target))) then Some invalid
          else if negb (bool_decide (pi_SensorID target = "")) then Some invalid
          else ValidatePatchGatewayInput gateway
      | _, _ => Some invalid
      end
  | EntityTypeSensor =>
      match pei_Sensor input, pei_Gateway input with
      | Some sensor, None =>
          if bool_decide (is_Some (ValidateGatewayID (pi_GatewayID target))) then Some invalid
          else if bool_decide (is_Some (ValidateSensorID (pi_SensorID target))) then Some invalid
          else ValidatePatchSensorInput sensor
      | _, _ => Some invalid
      end
  | _ => Some invalid
  end.

(** ** Error classes *)

Definition classifyAvailabilityError (err : herror) : herror :=
  if is_cause Canceled err || is_cause DeadlineExceeded err then HJoin (HTwin ErrDependencyUnavailable) err
  else
    let classified := ClassifyPostgresAvailabilityError err (HTwin ErrDependencyUnavailable) in
    if is_twin ErrDependencyUnavailable classified then classified
    else HJoin (HTwin ErrUnexpected) err.

Definition ErrMetadataPatchUnavailable : herror := HText "metadata patch unavailable" (HTwin ErrDependencyUnavailable).

Definition classifyCommitError (err : herror) : herror := HJoin ErrMetadataPatchUnavailable err.

(** [ClassifyMutationError]: status and code.  [ErrMetadataPatchUnavailable]
    wraps [ErrDependencyUnavailable], so its own test adds nothing; the errors
    named for the last two cases have one outcome. *)
Definition ClassifyMutationError (err : option herror) : Z * string :=
  match err with
  | None => (200, "")
  | Some err =>
      if is_cause Canceled err || is_cause DeadlineExceeded err || is_twin ErrDependencyUnavailable err
         || is_gateway ErrGatewayProvisioningUnavailable err || is_gateway ErrAdminOrOwnerProvisioningUnavailable err
         || is_gateway ErrOwnerProvisioningUnavailable err || is_gateway ErrProvisioningAdminLookup err
         || is_gateway ErrAdminLookupFailed err || is_gateway ErrInventoryUnavailable err
      then (503, "service_unavailable")
      else if is_twin ErrInvalidInput err || is_twin ErrNilActor err || is_twin ErrInvalidCursor err
              || is_twin ErrInvalidProperty err || is_gateway ErrInvalidProvisioningInput err
              || is_ident ErrInvalidGatewayID err || is_ident ErrInvalidSensorID err
              || is_gateway ErrInvalidUser err || is_gateway ErrInvalidInventoryQuery err
      then (400, "invalid_request")
      else if is_gateway ErrProvisioningForbidden err || is_gateway ErrAdminForbidden err
      then (403, "forbidden")
      else if is_twin ErrNotFound err || is_gateway ErrProvisioningNotFound err || is_gateway ErrGatewayNotFound err
      then (404, "not_found")
      else if is_gateway ErrProvisioningConflict err then (409, "conflict")
      else (500, "internal_error")
  end.

Section patch.
Context {uuid : Type} `{U : UuidLib uuid}.
Implicit Types (d : RegistryDB uuid) (w : WriteWorld uuid) (actor : uuid).

Definition Forbidden : herror := HGateway ErrProvisioningForbidden.
Definition InconsistentGraph : herror := HGateway ErrProvisioningInconsistent.

(** [classifyAvailabilityError(fmt.Errorf(text, err))] *)
Definition unavailable (text : string) (err : herror) : herror := classifyAvailabilityError (HText text err).

(** The name of an entity, which a patch reads into a Go string. *)
Definition scan_name (name : option string) : res herror string := or_err null_scanned name.

(** ** Gateways *)

(** The Gateway's twin locked by the patch: [id], [name], [updated_at], whether
    it has a state, and the number of Gateway twins. *)
Definition gateway_twin_query (urn g : string) d : res herror (uuid * string * Z * bool * Z) :=
  let! e := first_row (entities_named urn "Gateway" g d) in
  let! name := scan_name (entity_name (view d) e) in
  Ok (e_id e, name, entity_updated_at (view d) e, has_state d e, gateway_twins g d).

Definition patch_gateway_body w actor (gatewayID : string) (input : PatchGatewayInput) : RTx uuid PatchGatewayResult :=
  let entityID := GatewayEntityID gatewayID in
  let result name description updated_at :=
    mkPatchGatewayResult entityID EntityTypeGateway gatewayID name description updated_at in
  let> isAdmin := on_error (unavailable "admin check") (IsPlatformAdmin actor) in
  if negb isAdmin then tx_fail Forbidden
  else
    let> (currentName, currentDescription, _) :=
      read_row (no_rows (HTwin ErrNotFound) (unavailable "lock gateway row")) (gateway_query gatewayID) in
    let> (twinID, twinName, twinUpdatedAt, hasState, gwEntityCount) :=
      read_row (no_rows InconsistentGraph (unavailable "lock twin entity")) (gateway_twin_query entityID gatewayID) in
    if negb (gwEntityCount =? 1) || negb hasState || negb (bool_decide (twinName = currentName))
    then tx_fail InconsistentGraph
    else
      let targetName := default currentName (pgi_Name input) in
      let nameChanged := negb (bool_decide (targetName = currentName)) in
      let targetDescription := if pgi_DescriptionSet input then pgi_Description input else currentDescription in
      let descChanged :=
        pgi_DescriptionSet input && negb (sameNullableString targetDescription currentDescription) in
      if negb (nameChanged || descChanged) then tx_ret (result currentName currentDescription twinUpdatedAt)
      else
        let> _ :=
          if nameChanged && descChanged
          then call (unavailable "update gateway name and desc")
                 (update_gateway gatewayID (Some targetName) (Some targetDescription))
          else if nameChanged
          then call (unavailable "update gateway name") (update_gateway gatewayID (Some targetName) None)
          else call (unavailable "update gateway desc") (update_gateway gatewayID None (Some targetDescription)) in
        let> newUpdatedAt :=
          call_checked (unavailable "update twin entity")
            (update_entity (ww_statement w) twinID (if nameChanged then Some targetName else None)) in
        tx_ret (result targetName targetDescription newUpdatedAt).

Definition PatchGatewayMetadata w actor (gatewayID : string) (input : PatchGatewayInput) d
    : res herror PatchGatewayResult * RegistryDB uuid :=
  match ww_op_ctx w with
  | Some c => (Err (classifyAvailabilityError (HCause (ctx_cause c))), d)
  | None =>
      if bool_decide (actor = uuid_Nil) then (Err (HTwin ErrNilActor), d)
      else if bool_decide (is_Some (ValidateGatewayID gatewayID)) then (Err invalid, d)
      else match ValidatePatchGatewayInput input with
      | Some err => (Err err, d)
      | None => with_tx (unavailable "begin gateway patch tx") classifyCommitError
                  w (patch_gateway_body w actor gatewayID input) d
      end
  end.

(** ** Sensors *)

(** The Sensor's twin locked by the patch: [id], [name], [updated_at], whether
    it has a state, and whether [parent] has it. *)
Definition sensor_twin_query (urn g : string) (parent : uuid) d : res herror (uuid * string * Z * bool * bool) :=
  let! e := first_row (entities_named urn "Sensor" g d) in
  let! name := scan_name (entity_name (view d) e) in
  Ok (e_id e, name, entity_updated_at (view d) e, has_state d e, has_relationship parent d e).

Definition patch_sensor_body w actor (gatewayID sensorID targetName : string) : RTx uuid PatchSensorResult :=
  let entityID := SensorEntityID gatewayID sensorID in
  let result name unit updated_at :=
    mkPatchSensorResult entityID EntityTypeSensor gatewayID sensorID name unit updated_at in
  let> isAdmin := on_error (unavailable "admin check") (IsPlatformAdmin actor) in
  let> (parentName, _, _) :=
    read_row (no_rows (HTwin ErrNotFound) (unavailable "lock gateway parent")) (gateway_query gatewayID) in
  let> _ :=
    if negb isAdmin then
      let> role := read_row (no_rows (HTwin ErrNotFound) (unavailable "lookup membership")) (role_query actor gatewayID) in
      if negb (bool_decide (role = "owner")) then tx_fail Forbidden else tx_ret tt
    else tx_ret tt in
  let> (currentName, currentUnit, _) :=
    read_row (no_rows (HTwin ErrNotFound) (unavailable "lock sensor row")) (sensor_query gatewayID sensorID) in
  let> parent := read_row (no_rows InconsistentGraph (unavailable "resolve parent twin"))
                   (parent_twin_query (GatewayEntityID gatewayID) gatewayID parentName) in
  let> (twinID, twinName, twinUpdatedAt, hasState, hasRelationship) :=
    read_row (no_rows InconsistentGraph (unavailable "lock sensor twin")) (sensor_twin_query entityID gatewayID parent) in
  if negb hasState || negb hasRelationship || negb (bool_decide (twinName = currentName))
  then tx_fail InconsistentGraph
  else if bool_decide (targetName = currentName) then tx_ret (result currentName currentUnit twinUpdatedAt)
  else
    let> _ := call (unavailable "update sensor name") (update_sensor gatewayID sensorID targetName) in
    let> newUpdatedAt := call_checked (unavailable "update sensor twin entity")
                           (update_entity (ww_statement w) twinID (Some targetName)) in
    tx_ret (result targetName currentUnit newUpdatedAt).

(** The validated input has a name. *)
Definition PatchSensorMetadata w actor (gatewayID sensorID : string) (input : PatchSensorInput) d
    : res herror PatchSensorResult * RegistryDB uuid :=
  match ww_op_ctx w with
  | Some c => (Err (classifyAvailabilityError (HCause (ctx_cause c))), d)
  | None =>
      if bool_decide (actor = uuid_Nil) then (Err (HTwin ErrNilActor), d)
      else if bool_decide (is_Some (ValidateGatewayID gatewayID)) then (Err invalid, d)
      else if bool_decide (is_Some (ValidateSensorID sensorID)) then (Err invalid, d)
      else match ValidatePatchSensorInput input with
      | Some err => (Err err, d)
      | None => with_tx (unavailable "begin sensor patch tx") classifyCommitError
                  w (patch_sensor_body w actor gatewayID sensorID (default "" (psi_Name input))) d
      end
  end.

(** ** Services *)

Definition GatewayPatcher : Type :=
  WriteWorld uuid -> uuid -> string -> PatchGatewayInput -> RegistryDB uuid ->
  res herror PatchGatewayResult * RegistryDB uuid.
Definition SensorPatcher : Type :=
  WriteWorld uuid -> uuid -> string -> string -> PatchSensorInput -> RegistryDB uuid ->
  res herror PatchSensorResult * RegistryDB uuid.

Record gatewayPatchService := mkGatewayPatchService { gps_patcher : GatewayPatcher; gps_timeout : Z }.
Record sensorPatchService := mkSensorPatchService { sps_patcher : SensorPatcher; sps_timeout : Z }.

Definition NewGatewayPatchService (patcher : option GatewayPatcher) (timeout : Z) : res string gatewayPatchService :=
  match patcher with
  | None => Err "gateway metadata patcher is required"
  | Some patcher =>
      if timeout <=? 0 then Err "operation timeout must be positive" else Ok (mkGatewayPatchService patcher timeout)
  end.

Definition NewSensorPatchService (patcher : option SensorPatcher) (timeout : Z) : res string sensorPatchService :=
  match patcher with
  | None => Err "sensor metadata patcher is required"
  | Some patcher =>
      if timeout <=? 0 then Err "operation timeout must be positive" else Ok (mkSensorPatchService patcher timeout)
  end.

Definition PatchGateway (s : gatewayPatchService) : GatewayPatcher := fun w actor gatewayID input d =>
  match ww_ctx w with
  | None => (Err invalid, d)
  | Some (Some c) => (Err (HCause (ctx_cause c)), d)
  | Some None =>
      if bool_decide (actor = uuid_Nil) then (Err (HTwin ErrNilActor), d)
      else if bool_decide (is_Some (ValidateGatewayID gatewayID)) then (Err invalid, d)
      else match ValidatePatchGatewayInput input with
      | Some err => (Err err, d)
      | None => gps_patcher s w actor gatewayID input d
      end
  end.

Definition PatchSensor (s : sensorPatchService) : SensorPatcher := fun w actor gatewayID sensorID input d =>
  match ww_ctx w with
  | None => (Err invalid, d)
  | Some (Some c) => (Err (HCause (ctx_cause c)), d)
  | Some None =>
      if bool_decide (actor = uuid_Nil) then (Err (HTwin ErrNilActor), d)
      else if bool_decide (is_Some (ValidateGatewayID gatewayID)) then (Err invalid, d)
      else if bool_decide (is_Some (ValidateSensorID sensorID)) then (Err invalid, d)
      else match ValidatePatchSensorInput input with
      | Some err => (Err err, d)
      | None => sps_patcher s w actor gatewayID sensorID input d
      end
  end.

End patch.
