(* ===== verification/Mutation.v ===== *)
(** * The bodies of creation and patch requests

    [httpserver/provisioning_request.go], [post_entity_request.go] and
    [patch_entity_request.go]: a strict JSON object, its members by name, and
    the domain input it stands for.  A handler sees the request as the query
    flag, the outcome of [mime.ParseMediaType] and the bytes of the body. *)

From S2P Require Import Prelude GoStrings GoTime GoFloat GoJson Uuid Identity Urn Telemetry Txn Store Persist.
From S2P Require Import HistoryQuery HistoryStore TwinModel Cursor TwinStore Registry Provision Patch.
#[local] Open Scope Z_scope.

Record Request := mkRequest {
  rq_query : bool;
  rq_media : option (string * list (string * string));
  rq_body : string;
  rq_body_err : bool;
}.

(** ** Strings of the body *)

(** [strconv.ParseUint(s, 16, 16)] of four characters. *)
Definition parse_hex4 (a b c d : ascii) : option Z :=
  a ← hex_val a; b ← hex_val b; c ← hex_val c; d ← hex_val d; Some (((a * 16 + b) * 16 + c) * 16 + d).

(** Inside a string literal, up to its closing quote; an open literal ends with
    the data. *)
Fixpoint valid_literal (fuel : nat) (s : string) : option string :=
  match fuel with
  | O => None
  | S fuel =>
      match s with
      | EmptyString => Some ""
      | String c r =>
          if bool_decide (c = quote) then Some r
          else if bool_decide (c = Ascii.zero) then None
          else if negb (bool_decide (c = backslash)) then valid_literal fuel r
          else match r with
          | EmptyString => None
          | String e r1 =>
              if negb (bool_decide (e = "u"%char)) then valid_literal fuel r1
              else match r1 with
              | String h1 (String h2 (String h3 (String h4 r2))) =>
                  match parse_hex4 h1 h2 h3 h4 with
                  | None => None
                  | Some n =>
                      if n =? 0 then None
                      else if (56320 <=? n) && (n <=? 57343) then None
                      else if (55296 <=? n) && (n <=? 56319) then
                        match r2 with
                        | String b (String u (String k1 (String k2 (String k3 (String k4 r3))))) =>
                            if negb (bool_decide (b = backslash)) || negb (bool_decide (u = "u"%char)) then None
                            else match parse_hex4 k1 k2 k3 k4 with
                            | Some low => if (low <? 56320) || (57343 <? low) then None else valid_literal fuel r3
                            | None => None
                            end
                        | _ => None
                        end
                      else valid_literal fuel r2
                  end
              | _ => None
              end
          end
      end
  end.

Fixpoint valid_outside (fuel : nat) (s : string) : bool :=
  match fuel with
  | O => false
  | S fuel =>
      match s with
      | EmptyString => true
      | String c r =>
          if bool_decide (c = quote)
          then match valid_literal fuel r with Some r' => valid_outside fuel r' | None => false end
          else valid_outside fuel r
      end
  end.

(** Every step consumes a byte, so the length is fuel enough. *)
Definition validJSONUnicode (data : string) : bool :=
  utf8_Valid 0 data && valid_outside (S (String.length data)) data.

(** [strings.EqualFold(value, t)] for a lower-case ASCII text without the letters
    that fold outside ASCII. *)
Definition fold_char (c : ascii) : ascii := if is_upper c then chr (byte_of c + 32) else c.
Fixpoint EqualFold_ascii (value t : string) : bool :=
  match value, t with
  | EmptyString, EmptyString => true
  | String a v, String b t => bool_decide (fold_char a = b) && EqualFold_ascii v t
  | _, _ => false
  end.

Definition charset_only (params : list (string * string)) : bool :=
  forallb (fun kv => bool_decide (kv.1 = "charset") && EqualFold_ascii kv.2 "utf-8") params.

(** ** The object *)

(** The members of one object with distinct names, and nothing after it. *)
Definition strict_object (data : string) : option (gmap string json) :=
  match json_parse (S max_nesting) data with
  | Some (JObj members) => if decide (NoDup members.*1) then Some (list_to_map members) else None
  | _ => None
  end.

(** [io.ReadAll(io.LimitReader(r.Body, limit+1))] and the checks on the data. *)
Definition read_object (r : Request) (limit : Z) : res Z (gmap string json) :=
  if limit <? str_len (rq_body r) then Err 413
  else if rq_body_err r || negb (validJSONUnicode (rq_body r)) then Err 400
  else or_err 400 (strict_object (rq_body r)).

Definition readStrictJSONObject (r : Request) (limit : Z) : res Z (gmap string json) :=
  if rq_query r then Err 400
  else match rq_media r with
  | None => Err 415
  | Some (media, params) =>
      if negb (bool_decide (media = "application/json")) then Err 415
      else if negb (charset_only params) then Err 415
      else read_object r limit
  end.

Definition readStrictAttrsJSONObject (r : Request) (limit : Z) : res Z (gmap string json * string) :=
  if rq_query r then Err 400
  else match rq_media r with
  | None => Err 415
  | Some (media, params) =>
      if negb (bool_decide (media = "application/json")) && negb (bool_decide (media = "application/ld+json"))
      then Err 415
      else if negb (charset_only params) then Err 415
      else let! entries := read_object r limit in Ok (entries, media)
  end.

(** The names of an object are among [allowed]. *)
Definition only_members (allowed : list string) (entries : gmap string json) : bool :=
  bool_decide (dom entries ⊆ (list_to_set allowed : gset string)).

(** A required member that is a JSON text. *)
Definition required_text (entries : gmap string json) (name : string) : res Z string :=
  match entries !! name with Some (JStr value) => Ok value | _ => Err 400 end.

(** An optional member: absent or [null], or a JSON text. *)
Definition optional_text (entries : gmap string json) (name : string) : res Z (option string) :=
  match entries !! name with
  | None | Some JNull => Ok None
  | Some (JStr value) => Ok (Some value)
  | Some _ => Err 400
  end.

(** [if refused { return 400 }] *)
Definition bad (refused : bool) : res Z () := if refused then Err 400 else Ok tt.

Section parser.
Context {uuid : Type} `{U : UuidLib uuid}.

(** ** Creation: [POST /v1/digital-twins] *)

Definition parsePostGatewayFields (entries : gmap string json) : res Z (ProvisionGatewayInput uuid) :=
  let! _ := bad (negb (only_members ["entity_type"; "gateway_id"; "name"; "description"; "owner_user_id"] entries)) in
  let! gatewayID := required_text entries "gateway_id" in
  let! _ := bad (bool_decide (is_Some (ValidateGatewayID gatewayID))) in
  let! name := required_text entries "name" in
  let! _ := bad (negb (ValidProvisioningName name)) in
  let! ownerStr := required_text entries "owner_user_id" in
  let! owner := or_err 400 (uuid_Parse ownerStr) in
  let! _ := bad (bool_decide (owner = uuid_Nil)) in
  let! description := optional_text entries "description" in
  let! _ := bad (negb (ValidNullableMetadata description 4096)) in
  Ok (mkGatewayInput gatewayID name description owner).

Definition parsePostSensorFields (entries : gmap string json) : res Z ProvisionSensorInput :=
  let! _ := bad (negb (only_members ["entity_type"; "gateway_id"; "sensor_id"; "name"; "unit"] entries)) in
  let! gatewayID := required_text entries "gateway_id" in
  let! _ := bad (bool_decide (is_Some (ValidateGatewayID gatewayID))) in
  let! sensorID := required_text entries "sensor_id" in
  let! _ := bad (bool_decide (is_Some (ValidateSensorID sensorID))) in
  let! name := required_text entries "name" in
  let! _ := bad (negb (ValidProvisioningName name)) in
  let! unit := optional_text entries "unit" in
  let! _ := bad (negb (ValidNullableMetadata unit 64)) in
  Ok (mkSensorInput gatewayID sensorID name unit).

(** The parsed request tagged with its kind. *)
Inductive PostEntityRequest :=
| PostGateway (input : ProvisionGatewayInput uuid)
| PostSensor (input : ProvisionSensorInput).

Definition ToDomain (r : PostEntityRequest) : CreateEntityInput (uuid := uuid) :=
  match r with
  | PostGateway input => mkCreateEntityInput EntityTypeGateway (Some input) None
  | PostSensor input => mkCreateEntityInput EntityTypeSensor None (Some input)
  end.

Definition parsePostEntityRequest (r : Request) (limit : Z) : res Z PostEntityRequest :=
  let! entries := readStrictJSONObject r limit in
  let! entityType := required_text entries "entity_type" in
  if bool_decide (entityType = "Gateway") then
    let! input := parsePostGatewayFields entries in Ok (PostGateway input)
  else if bool_decide (entityType = "Sensor") then
    let! input := parsePostSensorFields entries in Ok (PostSensor input)
  else Err 400.

(** ** The older provisioning endpoints *)

(** The identifiers come from the path; the services check the values. *)
Definition parseGatewayProvisioning (r : Request) (limit : Z) : res Z (ProvisionGatewayInput uuid) :=
  let! entries := readStrictJSONObject r limit in
  let! _ := bad (negb (only_members ["name"; "description"; "owner_user_id"] entries)) in
  let! name := required_text entries "name" in
  let! ownerStr := required_text entries "owner_user_id" in
  let! description := optional_text entries "description" in
  let! owner := or_err 400 (uuid_Parse ownerStr) in
  Ok (mkGatewayInput "" name description owner).

Definition parseSensorProvisioning (r : Request) (limit : Z) : res Z ProvisionSensorInput :=
  let! entries := readStrictJSONObject r limit in
  let! _ := bad (negb (only_members ["name"; "unit"] entries)) in
  let! name := required_text entries "name" in
  let! unit := optional_text entries "unit" in
  Ok (mkSensorInput "" "" name unit).

End parser.
Arguments PostEntityRequest : clear implicits.

(** ** Patches: [PATCH /v1/digital-twins/{entity_id}/attrs] *)

Definition NGSILDNullSentinel : string := "urn:ngsi-ld:null".
Definition CoreContextV19 : string := "https://uri.etsi.org/ngsi-ld/v1/ngsi-ld-core-context-v1.9.jsonld".
Definition ProjectNamespace : string := "https://example.org/ngsi-ld/iot/v1#".

Definition allowedAttrsCustomTerms : gmap string string := list_to_map [
  ("Gateway", ProjectNamespace +:+ "Gateway"); ("Sensor", ProjectNamespace +:+ "Sensor");
  ("gateway_id", ProjectNamespace +:+ "gatewayId"); ("measurement", ProjectNamespace +:+ "measurement");
  ("sample_interval_us", ProjectNamespace +:+ "sampleIntervalUs"); ("hasSensor", ProjectNamespace +:+ "hasSensor");
  ("isHostedBy", ProjectNamespace +:+ "isHostedBy"); ("measurementUnit", ProjectNamespace +:+ "measurementUnit")].

Definition allowed_term (kv : string * json) : bool :=
  match allowedAttrsCustomTerms !! kv.1, kv.2 with
  | Some iri, JStr value => bool_decide (value = iri)
  | _, _ => false
  end.

(** The core context, alone or after the project's terms. *)
Definition validateAttrsContext (raw : json) : bool :=
  match raw with
  | JStr v => bool_decide (v = CoreContextV19)
  | JArr [JStr v] => bool_decide (v = CoreContextV19)
  | JArr [JObj terms; JStr v] =>
      bool_decide (NoDup terms.*1) && forallb allowed_term terms && negb (bool_decide (terms = []))
      && bool_decide (v = CoreContextV19)
  | _ => false
  end.

(** [{"type": "Property", "value": <text>}] with these two members: the value. *)
Definition parsePropertyFragment (raw : json) : res Z string :=
  match raw with
  | JObj members =>
      if negb (bool_decide (NoDup members.*1)) then Err 400
      else
        let entries : gmap string json := list_to_map members in
        let! _ := bad (negb (only_members ["type"; "value"] entries)) in
        let! type := required_text entries "type" in
        let! _ := bad (negb (bool_decide (type = "Property"))) in
        required_text entries "value"
  | _ => Err 400
  end.

(** An attribute of the patch, when it is there. *)
Definition fragment (entries : gmap string json) (name : string) : res Z (option string) :=
  match entries !! name with
  | None => Ok None
  | Some raw => let! value := parsePropertyFragment raw in Ok (Some value)
  end.

Definition parse_patch_name (entries : gmap string json) : res Z (option string) :=
  let! name := fragment entries "name" in
  match name with
  | None => Ok None
  | Some value =>
      if bool_decide (value = NGSILDNullSentinel) || negb (ValidProvisioningName value) then Err 400
      else Ok (Some value)
  end.

Definition refused_400 {A} (err : option herror) (a : A) : res Z A :=
  match err with Some _ => Err 400 | None => Ok a end.

Definition parsePatchGatewayFields (entries : gmap string json) : res Z PatchGatewayInput :=
  let! _ := bad (negb (only_members ["@context"; "name"; "description"] entries)) in
  let! name := parse_patch_name entries in
  let! description := fragment entries "description" in
  let! input :=
    match description with
    | None => Ok (mkPatchGateway name false None)
    | Some value =>
        if bool_decide (value = NGSILDNullSentinel) then Ok (mkPatchGateway name true None)
        else if negb (ValidMetadata value 4096) || (512 <? str_len value) then Err 400
        else Ok (mkPatchGateway name true (Some value))
    end in
  refused_400 (ValidatePatchGatewayInput input) input.

Definition parsePatchSensorFields (entries : gmap string json) : res Z PatchSensorInput :=
  let! _ := bad (negb (only_members ["@context"; "name"] entries)) in
  let! name := parse_patch_name entries in
  refused_400 (ValidatePatchSensorInput (mkPatchSensor name)) (mkPatchSensor name).

Definition parsePatchEntityRequest (r : Request) (decodedEntityID : string) (limit : Z) : res Z PatchEntityInput :=
  match ParseEntityURN decodedEntityID with
  | Err _ => Err 400
  | Ok parsed =>
      let! (entries, media) := readStrictAttrsJSONObject r limit in
      let! _ := bad (negb (match entries !! "@context" with
                           | Some raw => bool_decide (media = "application/ld+json") && validateAttrsContext raw
                           | None => negb (bool_decide (media = "application/ld+json"))
                           end)) in
      match pi_Type parsed with
      | EntityTypeGateway =>
          let! input := parsePatchGatewayFields entries in Ok (mkPatchEntity parsed (Some input) None)
      | EntityTypeSensor =>
          let! input := parsePatchSensorFields entries in Ok (mkPatchEntity parsed None (Some input))
      | _ => Err 400
      end
  end.

(** * Answers to creation and patch requests

    [httpserver/mutation_dto.go] and [mutation_handlers.go]: the projection of a
    result onto its wire representation, and the two handlers. *)

(** ** Wire representations *)

Record PostGatewayResponseDTO (uuid : Type) := mkPostGatewayDTO {
  pgd_GatewayID : string;
  pgd_Name : string;
  pgd_Description : option string;
  pgd_OwnerUserID : uuid;
  pgd_EntityID : string;
  pgd_CreatedAt : option string;
}.
Arguments mkPostGatewayDTO {uuid}.
Arguments pgd_GatewayID {uuid}.
Arguments pgd_Name {uuid}.
Arguments pgd_Description {uuid}.
Arguments pgd_OwnerUserID {uuid}.
Arguments pgd_EntityID {uuid}.
Arguments pgd_CreatedAt {uuid}.

Record PostSensorResponseDTO := mkPostSensorDTO {
  psd_GatewayID : string;
  psd_SensorID : string;
  psd_Name : string;
  psd_Unit : option string;
  psd_EntityID : string;
  psd_CreatedAt : option string;
}.

Record PatchGatewayResponseDTO := mkPatchGatewayDTO {
  gwd_ID : string;
  gwd_Type : string;
  gwd_GatewayID : string;
  gwd_Name : string;
  gwd_Description : option string;
  gwd_UpdatedAt : string;
}.

Record PatchSensorResponseDTO := mkPatchSensorDTO {
  snd_ID : string;
  snd_Type : string;
  snd_GatewayID : string;
  snd_SensorID : string;
  snd_Name : string;
  snd_Unit : option string;
  snd_UpdatedAt : string;
}.

(** [mapper.FormatRFC3339Micro] *)
Definition FormatRFC3339Micro (t : Time) : option string :=
  let utc := UTC t in
  if (Year utc <? 1) || (9999 <? Year utc) then None else Some (FormatMicros utc).

(** A nullable timestamp of the database. *)
Definition format_created (created_at : option Z) : option (option string) :=
  match created_at with
  | None => Some None
  | Some micros => text ← FormatRFC3339Micro (time_of_tz micros); Some (Some text)
  end.

(** [parsed, err := ParseEntityURN(id)] and the checks of its type and parts. *)
Definition urn_matches (id : string) (type : EntityType) (gatewayID : string) (sensorID : option string) : bool :=
  match ParseEntityURN id with
  | Err _ => false
  | Ok parsed =>
      bool_decide (pi_Type parsed = type) && bool_decide (pi_GatewayID parsed = gatewayID)
      && match sensorID with None => true | Some s => bool_decide (pi_SensorID parsed = s) end
  end.

Definition guard_opt (b : bool) : option () := if b then Some tt else None.

(** A body of an answer. *)
Inductive Body (uuid : Type) :=
| BodyPostGateway (dto : PostGatewayResponseDTO uuid)
| BodyPostSensor (dto : PostSensorResponseDTO)
| BodyPatchGateway (dto : PatchGatewayResponseDTO)
| BodyPatchSensor (dto : PatchSensorResponseDTO)
| BodyError (code message : string).
Arguments BodyPostGateway {uuid}.
Arguments BodyPostSensor {uuid}.
Arguments BodyPatchGateway {uuid}.
Arguments BodyPatchSensor {uuid}.
Arguments BodyError {uuid}.

(** An answer: status, the [Location] header and the body. *)
Record Response (uuid : Type) := mkResponse {
  resp_status : Z;
  resp_location : option string;
  resp_body : Body uuid;
}.
Arguments mkResponse {uuid}.
Arguments resp_status {uuid}.
Arguments resp_location {uuid}.
Arguments resp_body {uuid}.

Definition PostEntityStatus (created : bool) : Z := if created then 201 else 200.

(** [url.PathEscape]: the bytes a path segment may hold, and [%] with two
    upper-case hexadecimal digits for any other. *)
Definition segment_char (c : ascii) : bool :=
  id_char c || contains_char c ".~$&+:=@".

Definition hex_up (n : Z) : ascii := if n <? 10 then chr (48 + n) else chr (55 + n).

Fixpoint PathEscape (s : string) : string :=
  match s with
  | EmptyString => ""
  | String c r =>
      if segment_char c then String c (PathEscape r)
      else String "%" (String (hex_up (byte_of c / 16)) (String (hex_up (byte_of c mod 16)) (PathEscape r)))
  end.

Section mutation.
Context {uuid : Type} `{U : UuidLib uuid}.
Implicit Types (d : RegistryDB uuid) (w : WriteWorld uuid).

(** The projections fail with a text, which no caller reads. *)
Definition NewPostGatewayResponseDTO (r : ProvisionGatewayResult uuid) : option (PostGatewayResponseDTO uuid) :=
  _ ← guard_opt (negb (bool_decide (is_Some (ValidateGatewayID (gr_GatewayID r)))));
  _ ← guard_opt (negb (bool_decide (gr_Name r = "")));
  _ ← guard_opt (negb (bool_decide (gr_OwnerUserID r = uuid_Nil)));
  _ ← guard_opt (urn_matches (gr_EntityID r) EntityTypeGateway (gr_GatewayID r) None);
  created_at ← format_created (gr_CreatedAt r);
  Some (mkPostGatewayDTO (gr_GatewayID r) (gr_Name r) (gr_Description r) (gr_OwnerUserID r) (gr_EntityID r) created_at).

Definition NewPostSensorResponseDTO (r : ProvisionSensorResult) : option PostSensorResponseDTO :=
  _ ← guard_opt (negb (bool_decide (is_Some (ValidateGatewayID (sr_GatewayID r)))));
  _ ← guard_opt (negb (bool_decide (is_Some (ValidateSensorID (sr_SensorID r)))));
  _ ← guard_opt (negb (bool_decide (sr_Name r = "")));
  _ ← guard_opt (urn_matches (sr_EntityID r) EntityTypeSensor (sr_GatewayID r) (Some (sr_SensorID r)));
  created_at ← format_created (sr_CreatedAt r);
  Some (mkPostSensorDTO (sr_GatewayID r) (sr_SensorID r) (sr_Name r) (sr_Unit r) (sr_EntityID r) created_at).

(** [res.EntityID != "" && inner.EntityID != "" && res.EntityID != inner.EntityID] *)
Definition entity_mismatch (outer inner : string) : bool :=
  negb (bool_decide (outer = "")) && negb (bool_decide (inner = "")) && negb (bool_decide (outer = inner)).

Definition NewCreateEntityResponseDTO (r : CreateEntityResult (uuid := uuid)) : option (Z * Body uuid) :=
  let status := PostEntityStatus (cr_Created r) in
  match cr_Type r with
  | EntityTypeGateway =>
      match cr_Gateway r, cr_Sensor r with
      | Some gateway, None =>
          _ ← guard_opt (Bool.eqb (cr_Created r) (gr_Created gateway));
          _ ← guard_opt (negb (entity_mismatch (cr_EntityID r) (gr_EntityID gateway)));
          dto ← NewPostGatewayResponseDTO gateway; Some (status, BodyPostGateway dto)
      | _, _ => None
      end
  | EntityTypeSensor =>
      match cr_Sensor r, cr_Gateway r with
      | Some sensor, None =>
          _ ← guard_opt (Bool.eqb (cr_Created r) (sr_Created sensor));
          _ ← guard_opt (negb (entity_mismatch (cr_EntityID r) (sr_EntityID sensor)));
          dto ← NewPostSensorResponseDTO sensor; Some (status, BodyPostSensor dto)
      | _, _ => None
      end
  | _ => None
  end.

Definition NewPatchGatewayResponseDTO (r : PatchGatewayResult) : option PatchGatewayResponseDTO :=
  _ ← guard_opt (bool_decide (pgr_Type r = EntityTypeGateway));
  _ ← guard_opt (negb (bool_decide (is_Some (ValidateGatewayID (pgr_GatewayID r)))));
  _ ← guard_opt (negb (bool_decide (pgr_Name r = "")));
  _ ← guard_opt (urn_matches (pgr_ID r) EntityTypeGateway (pgr_GatewayID r) None);
  updated_at ← FormatRFC3339Micro (time_of_tz (pgr_UpdatedAt r));
  Some (mkPatchGatewayDTO (pgr_ID r) (entity_type_text (pgr_Type r)) (pgr_GatewayID r) (pgr_Name r) (pgr_Description r)
          updated_at).

Definition NewPatchSensorResponseDTO (r : PatchSensorResult) : option PatchSensorResponseDTO :=
  _ ← guard_opt (bool_decide (psr_Type r = EntityTypeSensor));
  _ ← guard_opt (negb (bool_decide (is_Some (ValidateGatewayID (psr_GatewayID r)))));
  _ ← guard_opt (negb (bool_decide (is_Some (ValidateSensorID (psr_SensorID r)))));
  _ ← guard_opt (negb (bool_decide (psr_Name r = "")));
  _ ← guard_opt (urn_matches (psr_ID r) EntityTypeSensor (psr_GatewayID r) (Some (psr_SensorID r)));
  updated_at ← FormatRFC3339Micro (time_of_tz (psr_UpdatedAt r));
  Some (mkPatchSensorDTO (psr_ID r) (entity_type_text (psr_Type r)) (psr_GatewayID r) (psr_SensorID r) (psr_Name r)
          (psr_Unit r) updated_at).

Definition NewPatchEntityResponseDTO (type : EntityType) (gwRes : option PatchGatewayResult)
    (sensorRes : option PatchSensorResult) : option (Body uuid) :=
  match type with
  | EntityTypeGateway =>
      match gwRes, sensorRes with
      | Some r, None => BodyPatchGateway <$> NewPatchGatewayResponseDTO r
      | _, _ => None
      end
  | EntityTypeSensor =>
      match sensorRes, gwRes with
      | Some r, None => BodyPatchSensor <$> NewPatchSensorResponseDTO r
      | _, _ => None
      end
  | _ => None
  end.

(** ** Handlers *)

Definition mutation_message (status : Z) : string :=
  if status =? 503 then "service unavailable" else if status =? 400 then "invalid request"
  else if status =? 403 then "access denied" else if status =? 404 then "resource not found"
  else if status =? 409 then "resource conflict" else "internal server error".

(** [writeMutationError] *)
Definition write_error (err : herror) : Response uuid :=
  let '(status, code) := ClassifyMutationError (Some err) in
  mkResponse status None (BodyError code (mutation_message status)).

(** [ClassifyMutationParserStatus], which the handlers spell out. *)
Definition parser_error (status : Z) : Response uuid :=
  if status =? 413 then mkResponse status None (BodyError "payload_too_large" "payload too large")
  else if status =? 415 then mkResponse status None (BodyError "unsupported_media_type" "unsupported media type")
  else mkResponse status None (BodyError "invalid_request" "invalid request").

Definition unauthorized : Response uuid :=
  mkResponse 401 None (BodyError "unauthorized" "authentication required").
Definition not_acceptable : Response uuid :=
  mkResponse 406 None (BodyError "not_acceptable" "acceptable media type not available").

Definition location_of (urn : string) : string := "/v1/digital-twins/" +:+ PathEscape urn.

(** The principal of the request: its user, when the token was accepted. *)
Definition authenticated (principal : option uuid) : option uuid :=
  match principal with Some u => if bool_decide (u = uuid_Nil) then None else Some u | None => None end.

(** The answer to the outcome of [CreateEntity]. *)
Definition answer_created (outcome : res herror (CreateEntityResult (uuid := uuid)) * RegistryDB uuid)
    : Response uuid * RegistryDB uuid :=
  match outcome with
  | (Err err, d') => (write_error err, d')
  | (Ok r, d') =>
      match NewCreateEntityResponseDTO r with
      | None => (write_error (HTwin ErrUnexpected), d')
      | Some (status, body) =>
          if status =? 201 then
            match ParseEntityURN (cr_EntityID r) with
            | Ok parsed =>
                if bool_decide (pi_URN parsed = "") then (write_error (HTwin ErrUnexpected), d')
                else (mkResponse status (Some (location_of (pi_URN parsed))) body, d')
            | Err _ => (write_error (HTwin ErrUnexpected), d')
            end
          else (mkResponse status None body, d')
      end
  end.

(** [accepted] is the outcome of [negotiateAccept]. *)
Definition postDigitalTwin (creator : option (createService (uuid := uuid))) (limit : Z) (principal : option uuid)
    (accepted : bool) (request : Request) w d : Response uuid * RegistryDB uuid :=
  match authenticated principal with
  | None => (unauthorized, d)
  | Some actor =>
      if negb accepted then (not_acceptable, d)
      else match creator with
      | None => (write_error (HTwin ErrDependencyUnavailable), d)
      | Some creator =>
          match parsePostEntityRequest request limit with
          | Err status => (parser_error status, d)
          | Ok req =>
              answer_created (CreateEntity creator w actor (ToDomain req) d)
          end
      end
  end.

Definition patchDigitalTwin (gwPatcher : option (gatewayPatchService (uuid := uuid)))
    (sensorPatcher : option (sensorPatchService (uuid := uuid))) (limit : Z) (principal : option uuid)
    (accepted : bool) (entityID : string) (request : Request) w d : Response uuid * RegistryDB uuid :=
  let project type gw sensor d' :=
    match NewPatchEntityResponseDTO type gw sensor with
    | Some body => (mkResponse 200 None body, d')
    | None => (write_error (HTwin ErrUnexpected), d')
    end in
  match authenticated principal with
  | None => (unauthorized, d)
  | Some actor =>
      if negb accepted then (not_acceptable, d)
      else match gwPatcher, sensorPatcher with
      | Some gwPatcher, Some sensorPatcher =>
          match parsePatchEntityRequest request entityID limit with
          | Err status => (parser_error status, d)
          | Ok req =>
              let target := pei_Target req in
              match pi_Type target, pei_Gateway req, pei_Sensor req with
              | EntityTypeGateway, Some input, _ =>
                  match PatchGateway gwPatcher w actor (pi_GatewayID target) input d with
                  | (Err err, d') => (write_error err, d')
                  | (Ok r, d') => project EntityTypeGateway (Some r) None d'
                  end
              | EntityTypeSensor, _, Some input =>
                  match PatchSensor sensorPatcher w actor (pi_GatewayID target) (pi_SensorID target) input d with
                  | (Err err, d') => (write_error err, d')
                  | (Ok r, d') => project EntityTypeSensor None (Some r) d'
                  end
              | _, _, _ => (write_error (HTwin ErrInvalidInput), d)
              end
          end
      | _, _ => (write_error (HTwin ErrDependencyUnavailable), d)
      end
  end.

(** ** Composition: [cmd/server/main.go] and [stage4.go] *)

Definition composeMutations (timeout : Z)
    : res string (createService (uuid := uuid) * gatewayPatchService (uuid := uuid) * sensorPatchService (uuid := uuid)) :=
  let! provisioningService :=
    NewProvisioningService (Some (mkProvisioningRepository ProvisionGateway ProvisionSensor)) timeout in
  let! adminOrOwnerSensorService :=
    NewAdminOrOwnerSensorProvisioningService (Some ProvisionSensorForAdminOrOwner) timeout in
  let! entityCreateService := NewCreateService (Some (service_ProvisionGateway provisioningService))
                                (Some (service_ProvisionSensorFor adminOrOwnerSensorService)) in
  let! gatewayPatchService := NewGatewayPatchService (Some PatchGatewayMetadata) timeout in
  let! sensorPatchService := NewSensorPatchService (Some PatchSensorMetadata) timeout in
  Ok (entityCreateService, gatewayPatchService, sensorPatchService).

End mutation.
