(* ===== verification/Users.v ===== *)
(** * User management: accounts, platform roles and memberships

    Package [usermanagement]: [models.go], [validation.go], [errors.go],
    [service.go] and [postgres_repository.go], with the function
    [list_admin_users_projection] of migration 21.  A write is one transaction
    over the tables of [Registry]: it holds the row lock of the Gateway or of the
    profile.  A read is a sequence of statements between which the tables may
    change.  The identity provider behind [AuthAdminClient] is an argument. *)

From stdpp Require Import sorting.
From S2P Require Import Prelude GoStrings GoTime GoFloat GoJson Uuid Identity Telemetry Txn Store Persist.
From S2P Require Import HistoryQuery HistoryStore TwinModel Cursor TwinStore Registry.
#[local] Open Scope Z_scope.

(** ** Inputs and their checks: [validation.go] *)

Record CreateUserInput := mkCreateUserInput {
  cu_FullName : string;
  cu_Email : string;
  cu_Password : string;
}.

Record UpdateUserInput := mkUpdateUserInput {
  uu_FullName : option string;
  uu_PlatformRole : option string;
}.

Definition user_invalid (text : string) : herror := HText text (HUser ErrUserInvalidInput).

(** The characters of the call to [strings.ContainsAny]. *)
Definition email_specials : string :=
  String (chr 9) (String (chr 10) (String (chr 13) (String quote " <>()[],;:"))).

(** [isAtext(r, true)] of net/mail for an ASCII character. *)
Definition is_atext (c : ascii) : bool :=
  in_range 33 126 c && negb (contains_char c (String quote "()<>[]:;@\,")).

(** [consumeAtom(true, false)]: the longest run of such characters and of runes
    outside ASCII, without a leading, trailing or doubled dot; bytes that are not
    UTF-8 are an error. *)
Fixpoint atom_run (skip : nat) (s : string) : option (string * string) :=
  match s with
  | EmptyString => Some ("", "")
  | String c r =>
      let next k := '(atom, rest) ← atom_run k r; Some (String c atom, rest) in
      match skip with
      | S k => next k
      | O =>
          if byte_of c <? 128 then if is_atext c then next 0%nat else Some ("", s)
          else n ← utf8_size s; next (n - 1)%nat
      end
  end.

Definition consumeAtom (s : string) : option (string * string) :=
  '(atom, rest) ← atom_run 0 s;
  if bool_decide (atom = "") || HasPrefix atom "." || Contains atom ".." || has_suffix_char atom "."%char then None
  else Some (atom, rest).

(** [mail.ParseAddress] of a text without the characters of [email_specials]: no
    quoted local part, display name, comment, group or domain literal can occur,
    so it is an addr-spec and nothing else. *)
Definition mail_ParseAddress (s : string) : option string :=
  '(local, rest) ← consumeAtom s;
  match rest with
  | String at_sign rest =>
      if bool_decide (at_sign = "@"%char) then
        '(domain, rest) ← consumeAtom rest;
        if bool_decide (rest = "") then Some (local +:+ "@" +:+ domain) else None
      else None
  | EmptyString => None
  end.

Definition validateAndNormalizeEmail (raw : string) : res herror string :=
  let trimmed := TrimSpace raw in
  if bool_decide (trimmed = "") then Err (user_invalid "email cannot be blank")
  else if 254 <? str_len trimmed then Err (user_invalid "email exceeds maximum length")
  else if contains_byte (fun c => contains_char c email_specials) trimmed
  then Err (user_invalid "email contains invalid characters, whitespace, or display name")
  else match Split trimmed "@"%char with
  | [localPart; domain] =>
      if bool_decide (localPart = "") || (64 <? str_len localPart) then Err (user_invalid "invalid local part")
      else if bool_decide (domain = "") || HasPrefix domain "." || has_suffix_char domain "."%char
              || Contains domain ".." || negb (Contains domain ".")
      then Err (user_invalid "invalid domain part")
      else if negb (bool_decide (mail_ParseAddress trimmed = Some trimmed))
      then Err (user_invalid "invalid email address format")
      else Ok trimmed
  | _ => Err (user_invalid "email must contain exactly one @ symbol")
  end.

(** [utf8.RuneCountInString]: a byte that starts no sequence counts as one. *)
Fixpoint RuneCount (skip : nat) (s : string) : Z :=
  match s with
  | EmptyString => 0
  | String _ r =>
      match skip with
      | S k => RuneCount k r
      | O => 1 + RuneCount (match utf8_size s with Some n => n - 1 | None => 0 end)%nat r
      end
  end.

(** The checks of a full name, which both validators spell out. *)
Definition check_full_name (name : string) : option herror :=
  if bool_decide (TrimSpace name = "") then Some (user_invalid "full_name cannot be blank")
  else if (256 <? str_len name) || negb (utf8_Valid 0 name)
  then Some (user_invalid "full_name must be valid UTF-8 up to 256 bytes")
  else None.

(** The input with its normalised email: the Go code writes it through the pointer. *)
Definition ValidateCreateUserInput (input : CreateUserInput) : res herror CreateUserInput :=
  match check_full_name (cu_FullName input) with
  | Some err => Err err
  | None =>
      let! email := validateAndNormalizeEmail (cu_Email input) in
      let password := cu_Password input in
      if bool_decide (password = "") then Err (user_invalid "password cannot be blank")
      else if RuneCount 0 password <? 6 then Err (user_invalid "password must be at least 6 characters")
      else if 72 <? str_len password then Err (user_invalid "password cannot exceed 72 bytes")
      else if negb (utf8_Valid 0 password) then Err (user_invalid "password must be valid UTF-8")
      else Ok (mkCreateUserInput (cu_FullName input) email password)
  end.

Definition ValidateUpdateUserInput (input : UpdateUserInput) : option herror :=
  if bool_decide (uu_FullName input = None) && bool_decide (uu_PlatformRole input = None)
  then Some (user_invalid "at least one field must be provided")
  else match match uu_FullName input with Some name => check_full_name name | None => None end with
  | Some err => Some err
  | None =>
      match uu_PlatformRole input with
      | Some role =>
          if negb (bool_decide (role = "platform_admin")) && negb (bool_decide (role = "user"))
          then Some (user_invalid "platform_role must be 'platform_admin' or 'user'") else None
      | None => None
      end
  end.

Definition ValidateGatewayRole (role : string) : option herror :=
  if bool_decide (role = "owner") then Some (HUser ErrOwnerRoleNotAllowed)
  else if bool_decide (role = "operator") || bool_decide (role = "viewer") then None
  else Some (HUser ErrInvalidRole).

(** ** Results: [models.go] *)

Record CreatedUser (uuid : Type) := mkCreatedUser {
  nu_ID : uuid;
  nu_Email : string;
  nu_FullName : string;
  nu_PlatformRole : string;
  nu_CreatedAt : Time;
}.
Arguments mkCreatedUser {uuid}.
Arguments nu_ID {uuid}.
Arguments nu_Email {uuid}.
Arguments nu_FullName {uuid}.
Arguments nu_PlatformRole {uuid}.
Arguments nu_CreatedAt {uuid}.

Record UpdatedUser (uuid : Type) := mkUpdatedUser {
  ud_ID : uuid;
  ud_FullName : option string;
  ud_PlatformRole : string;
}.
Arguments mkUpdatedUser {uuid}.
Arguments ud_ID {uuid}.
Arguments ud_FullName {uuid}.
Arguments ud_PlatformRole {uuid}.

Record UserGatewayRole := mkGatewayRole {
  ugr_GatewayID : string;
  ugr_Role : string;
}.

Record UserSummary (uuid : Type) := mkUserSummary {
  us_ID : uuid;
  us_Email : string;
  us_FullName : option string;
  us_PlatformRole : string;
  us_CreatedAt : Time;
  us_GatewayRoles : list UserGatewayRole;
}.
Arguments mkUserSummary {uuid}.
Arguments us_ID {uuid}.
Arguments us_Email {uuid}.
Arguments us_FullName {uuid}.
Arguments us_PlatformRole {uuid}.
Arguments us_CreatedAt {uuid}.
Arguments us_GatewayRoles {uuid}.

Record UserListConfig := mkUserListConfig {
  MaxUsers : Z;
  MaxMemberships : Z;
  MaxResponseBytes : Z;
}.

Definition DefaultUserListConfig : UserListConfig := mkUserListConfig 1000 10000 (2 * 1024 * 1024).

Record AuthAdminUser (uuid : Type) := mkAuthUser {
  au_ID : uuid;
  au_Email : string;
  au_CreatedAt : Time;
}.
Arguments mkAuthUser {uuid}.
Arguments au_ID {uuid}.
Arguments au_Email {uuid}.
Arguments au_CreatedAt {uuid}.

(** A row of the projection; NULLs of [auth.users] fail the scan. *)
Record UserProjectionRow (uuid : Type) := mkProjectionRow {
  upr_UserID : uuid;
  upr_Email : option string;
  upr_FullName : option string;
  upr_PlatformRole : string;
  upr_CreatedAt : option Z;
  upr_ProfileExists : bool;
}.
Arguments mkProjectionRow {uuid}.
Arguments upr_UserID {uuid}.
Arguments upr_Email {uuid}.
Arguments upr_FullName {uuid}.
Arguments upr_PlatformRole {uuid}.
Arguments upr_CreatedAt {uuid}.
Arguments upr_ProfileExists {uuid}.

Record UserGatewayRoleRow (uuid : Type) := mkRoleRow {
  urr_UserID : uuid;
  urr_GatewayID : string;
  urr_Role : string;
}.
Arguments mkRoleRow {uuid}.
Arguments urr_UserID {uuid}.
Arguments urr_GatewayID {uuid}.
Arguments urr_Role {uuid}.

(** ** The tables *)

(** [auth.users] (email and creation time, both nullable) and the column
    [full_name] of [profiles], beside the tables of the registry. *)
Record UserDB (uuid : Type) `{UuidLib uuid} := mkUserDB {
  ub_registry : RegistryDB uuid;
  ub_accounts : gmap uuid (option string * option Z);
  ub_names : gmap uuid string;
}.
Arguments mkUserDB {uuid H}.
Arguments ub_registry {uuid H}.
Arguments ub_accounts {uuid H}.
Arguments ub_names {uuid H}.

Section users.
Context {uuid : Type} `{U : UuidLib uuid}.
Implicit Types (d : RegistryDB uuid) (b : UserDB uuid) (w : WriteWorld uuid) (actor target : uuid).

Definition set_roles d (m : gmap (uuid * string) string) : RegistryDB uuid :=
  mkRegistry (rg_store d) (rg_columns d) m (rg_profiles d) (rg_admins d) (rg_gateway_created d) (rg_sensor_created d).
Definition set_admins d (admins : gset uuid) : RegistryDB uuid :=
  mkRegistry (rg_store d) (rg_columns d) (rg_roles d) (rg_profiles d) admins (rg_gateway_created d) (rg_sensor_created d).

Definition CheckSelfDemotion actor target (input : UpdateUserInput) : option herror :=
  if bool_decide (actor = target) && bool_decide (uu_PlatformRole input = Some "user")
  then Some (HUser ErrSelfDemotionForbidden) else None.

(** ** Statements *)

(** [UPDATE user_gateways SET role = $1 WHERE gateway_id = $2 AND user_id = $3] *)
Definition update_member target (g role : string) d : res herror (Z * RegistryDB uuid) :=
  match rg_roles d !! (target, g) with
  | None => Ok (0, d)
  | Some _ =>
      if negb (bool_decide (role ∈ ["owner"; "operator"; "viewer"])) then Err check_violation
      else Ok (1, set_roles d (<[(target, g) := role]> (rg_roles d)))
  end.

(** [DELETE FROM user_gateways WHERE ... AND role IN ('operator', 'viewer')] *)
Definition delete_member target (g : string) d : Z * RegistryDB uuid :=
  match rg_roles d !! (target, g) with
  | Some role =>
      if bool_decide (role ∈ ["operator"; "viewer"]) then (1, set_roles d (delete (target, g) (rg_roles d))) else (0, d)
  | None => (0, d)
  end.

(** [SELECT full_name FROM profiles WHERE id = $1] *)
Definition name_query target b : res herror (option string) :=
  if bool_decide (target ∈ rg_profiles (ub_registry b)) then Ok (ub_names b !! target) else Err (HCause ErrNoRows).

(** [UPDATE profiles SET full_name = $1 WHERE id = $2] *)
Definition update_name target (name : string) b : Z * UserDB uuid :=
  if bool_decide (target ∈ rg_profiles (ub_registry b))
  then (1, mkUserDB (ub_registry b) (ub_accounts b) (<[target := name]> (ub_names b))) else (0, b).

Definition with_admins b (admins : gset uuid) : UserDB uuid :=
  mkUserDB (set_admins (ub_registry b) admins) (ub_accounts b) (ub_names b).

(** [INSERT INTO platform_admins (user_id, granted_by) VALUES ($1, $2)
    ON CONFLICT (user_id) DO NOTHING]: both columns refer to [profiles]. *)
Definition insert_admin target actor b : res herror (Z * UserDB uuid) :=
  let d := ub_registry b in
  if bool_decide (target ∈ rg_admins d) then Ok (0, b)
  else if negb (bool_decide (target ∈ rg_profiles d)) || negb (bool_decide (actor ∈ rg_profiles d))
  then Err foreign_key_violation
  else Ok (1, with_admins b ({[target]} ∪ rg_admins d)).

(** [DELETE FROM platform_admins WHERE user_id = $1] *)
Definition delete_admin target b : Z * UserDB uuid :=
  let d := ub_registry b in
  if bool_decide (target ∈ rg_admins d) then (1, with_admins b (rg_admins d ∖ {[target]})) else (0, b).

(** ** Writes: [postgres_repository.go] *)

(** The recheck of the actor that every transaction starts with. *)
Definition recheck_actor {DB} (admins : DB -> gset uuid) (wrap : herror -> herror) actor : Transaction herror DB () :=
  let> admin := read_row wrap (fun db => Ok (bool_decide (actor ∈ admins db))) in
  if negb admin then tx_fail (HUser ErrActorNotAdmin) else tx_ret tt.

(** The transaction after the recheck: at READ COMMITTED each statement sees what
    is committed by then. *)
Definition update_user_rest actor target (fullName platformRole : option string)
    : Transaction herror (UserDB uuid) (UpdatedUser uuid) :=
  let> currentName := read_row (no_rows (HUser ErrUserNotFound) (HText "lock target profile")) (name_query target) in
  if bool_decide (actor = target) && bool_decide (platformRole = Some "user")
  then tx_fail (HUser ErrSelfDemotionForbidden)
  else
    let> currentName :=
      match fullName with
      | Some name =>
          let> _ := call (HText "update profile full_name") (update_name target name) in tx_ret (Some name)
      | None => tx_ret currentName
      end in
    let> _ :=
      match platformRole with
      | Some role =>
          if bool_decide (role = "platform_admin") then
            let> _ := call_checked (HText "grant platform admin") (insert_admin target actor) in tx_ret tt
          else if bool_decide (role = "user") then
            let> _ := call (HText "revoke platform admin") (delete_admin target) in tx_ret tt
          else tx_ret tt
      | None => tx_ret tt
      end in
    let> isTargetAdmin := read_row (HText "inspect target platform admin")
                            (fun b => Ok (bool_decide (target ∈ rg_admins (ub_registry b)))) in
    tx_ret (mkUpdatedUser target currentName (if isTargetAdmin : bool then "platform_admin" else "user")).

Definition update_user_body actor target (fullName platformRole : option string)
    : Transaction herror (UserDB uuid) (UpdatedUser uuid) :=
  let> _ := recheck_actor (fun b => rg_admins (ub_registry b)) (HText "recheck actor platform admin") actor in
  update_user_rest actor target fullName platformRole.

Definition UpdateUserProfileAndRole w actor target (fullName platformRole : option string) b
    : res herror (UpdatedUser uuid) * UserDB uuid :=
  with_tx (HText "begin transaction") (HText "commit profile and role update") w
    (update_user_body actor target fullName platformRole) b.

(** [SELECT name FROM gateways WHERE gateway_id = $1 FOR UPDATE] *)
Definition lock_gateway (text g : string) : RTx uuid () :=
  let> _ := read_row (no_rows (HUser ErrUserGatewayNotFound) (HText text)) (gateway_query g) in tx_ret tt.

Definition require_profile target : RTx uuid () :=
  let> exists_ := read_row (HText "check target profile") (fun d => Ok (bool_decide (target ∈ rg_profiles d))) in
  if negb exists_ then tx_fail (HUser ErrUserNotFound) else tx_ret tt.

(** The membership of the target, locked; none when the query finds no row. *)
Definition lock_membership (text : string) target (g : string) : RTx uuid (option string) :=
  let> found := attempt (fun d => let! role := role_query target g d in Ok (role, d)) in
  match found with
  | Ok role => tx_ret (Some role)
  | Err err => if is_cause ErrNoRows err then tx_ret None else tx_fail (HText text err)
  end.

(** A role the target holds already is committed without a write. *)
Definition assign_body actor (g : string) target (role : string) : RTx uuid () :=
  let> _ := recheck_actor rg_admins (HText "recheck actor platform admin") actor in
  let> _ := lock_gateway "lock gateway row" g in
  let> _ := require_profile target in
  let> current := lock_membership "check current membership" target g in
  match current with
  | Some currentRole =>
      if bool_decide (currentRole = "owner") then tx_fail (HUser ErrOwnerTransferRequired)
      else if bool_decide (currentRole = role) then tx_ret tt
      else let> _ := call_checked (HText "update user_gateways role") (update_member target g role) in tx_ret tt
  | None =>
      let> _ := call_checked (HText "insert user_gateways role") (insert_member target g role) in tx_ret tt
  end.

(** The two commits of the Go code differ in the text of their error. *)
Definition AssignGatewayUser w actor (g : string) target (role : string) d : res herror () * RegistryDB uuid :=
  with_tx (HText "begin transaction") (HText "commit gateway user assignment") w (assign_body actor g target role) d.

(** The deferred classification: [net.Error] (a passed deadline is one), [io.EOF]
    and the server errors of a lost connection mean that the service is
    unavailable. *)
Definition classifyRemoval (err : herror) : herror :=
  let unreachable :=
    is_cause NetError err || is_cause DeadlineExceeded err || is_cause EOF err
    || match as_pg_error err with
       | Some code => HasPrefix code "08" || bool_decide (code ∈ ["57P01"; "57P02"; "57P03"; "53300"])
       | None => false
       end in
  if unreachable then HJoin (HUser ErrMembershipUnavailable) err else err.

Definition remove_body actor (g : string) target : RTx uuid () :=
  let> _ := recheck_actor rg_admins (HJoin (HUser ErrMembershipUnavailable)) actor in
  let> _ := lock_gateway "lock removal gateway" g in
  let> current := lock_membership "lock removal membership" target g in
  match current with
  | None => tx_ret tt
  | Some role =>
      if bool_decide (role = "owner") then tx_fail (HUser ErrOwnerTransferRequired)
      else if bool_decide (role = "operator") || bool_decide (role = "viewer") then
        let> affected := call (HText "delete membership") (delete_member target g) in
        if negb (affected =? 1) then tx_fail (HCause (OtherCause "unexpected membership removal row count"))
        else tx_ret tt
      else tx_fail (HCause (OtherCause "unexpected membership role"))
  end.

Definition RemoveGatewayUser w actor (g : string) target d : res herror () * RegistryDB uuid :=
  match with_tx (fun err => HText "begin membership removal" (HJoin (HUser ErrMembershipUnavailable) err))
          (HText "commit membership removal") w (remove_body actor g target) d with
  | (Err err, d') => (Err (classifyRemoval err), d')
  | ok => ok
  end.

(** The owners are read in one go: an error of the query, of a scan or of the
    iteration ends the call. *)
Definition transfer_body actor (g : string) target : RTx uuid () :=
  let> _ := recheck_actor rg_admins (HText "recheck actor platform admin") actor in
  let> _ := lock_gateway "lock gateway row" g in
  let> _ := require_profile target in
  let> currentOwnerIDs := read_row (HText "query current owners") (fun d => Ok (owners_of g d)) in
  match currentOwnerIDs with
  | [currentOwnerID] =>
      if bool_decide (currentOwnerID = target) then tx_ret tt
      else
        let> _ := call_checked (HText "demote old owner to viewer") (update_member currentOwnerID g "viewer") in
        let> current := lock_membership "check target membership" target g in
        let> _ :=
          match current with
          | Some _ => call_checked (HText "update target membership to owner") (update_member target g "owner")
          | None => call_checked (HText "insert target membership as owner") (insert_member target g "owner")
          end in
        let> finalOwnerCount := read_row (HText "verify final owner count")
                                  (fun d => Ok (Z.of_nat (length (owners_of g d)))) in
        if negb (finalOwnerCount =? 1) then tx_fail (HUser ErrGatewayOwnerInconsistent) else tx_ret tt
  | _ => tx_fail (HUser ErrGatewayOwnerInconsistent)
  end.

Definition TransferGatewayOwner w actor (g : string) target d : res herror () * RegistryDB uuid :=
  with_tx (HText "begin transaction") (HText "commit gateway owner transfer") w (transfer_body actor g target) d.

(** ** Reads *)

(** The world of a read: [ctx.Err()] after the deadline is set, and for each
    observation of the driver the tables it sees, or its error. *)
Record UserWorld := mkUserWorld {
  uw_ctx : option ctx_err;
  uw_tables : nat -> UserDB uuid;
  uw_reply : nat -> option herror;
}.

Definition UM (A : Type) : Type := UserWorld -> nat -> res herror A * nat.

Definition u_ret {A} (a : A) : UM A := fun _ n => (Ok a, n).
Definition u_fail {A} (e : herror) : UM A := fun _ n => (Err e, n).
Definition u_bind {A B} (m : UM A) (k : A -> UM B) : UM B :=
  fun W n => match m W n with (Ok a, n') => k a W n' | (Err e, n') => (Err e, n') end.

(** One observation; its error is a value. *)
Definition u_call {A} (run : UserDB uuid -> res herror A) : UM (res herror A) :=
  fun W n => (Ok (match uw_reply W n with Some e => Err e | None => run (uw_tables W n) end), S n).

#[local] Notation "'letu' x ':=' m 'in' k" := (u_bind m (fun x => k))
  (at level 10, x pattern, m at level 100, k at level 200).

(** [if errors.Is(err, context.Canceled) || ... { return err }] and the wrap. *)
Definition wrap_unless_ctx (text : string) (err : herror) : herror :=
  if is_ctx_error err then err else HText text err.

Definition VerifyActorIsAdmin actor : UM () :=
  if bool_decide (actor = uuid_Nil) then u_fail (HUser ErrActorNotAdmin)
  else
    letu isAdmin := u_call (fun b => Ok (is_admin_query actor (ub_registry b))) in
    match isAdmin with
    | Err err => u_fail (wrap_unless_ctx "verify actor platform admin" err)
    | Ok isAdmin => if negb isAdmin then u_fail (HUser ErrActorNotAdmin) else u_ret tt
    end.

(** [full_name], [has_admin] and [has_memberships] of a profile. *)
Definition profile_state_query target b : res herror (option string * bool * bool) :=
  let! fullName := name_query target b in
  Ok (fullName, is_admin_query target (ub_registry b),
      existsb (fun kv => bool_decide (kv.1.1 = target)) (map_to_list (rg_roles (ub_registry b)))).

Definition VerifyCreatedUserProfile target (expectedFullName : string) : UM () :=
  if bool_decide (target = uuid_Nil) then u_fail (user_invalid "target_id cannot be nil")
  else
    letu row := u_call (profile_state_query target) in
    match row with
    | Err err =>
        u_fail (if is_cause ErrNoRows err then HUser ErrInconsistentProfile
                else wrap_unless_ctx "query profile verification" err)
    | Ok (fullName, hasAdmin, hasMemberships) =>
        if negb (bool_decide (fullName = Some expectedFullName))
        then u_fail (HText "full_name mismatch" (HUser ErrInconsistentProfile))
        else if (hasAdmin : bool)
        then u_fail (HText "new user unexpectedly has platform_admin role" (HUser ErrInconsistentProfile))
        else if (hasMemberships : bool)
        then u_fail (HText "new user unexpectedly has gateway memberships" (HUser ErrInconsistentProfile))
        else u_ret tt
    end.

(** A server error whose message matters is its message around the error, as here
    for [RAISE EXCEPTION]. *)
Definition raised_not_admin : herror :=
  HText "access denied: actor is not a platform admin" (HCause (PgError "P0001")).

(** [errors.As(err, &pgErr)] and [strings.Contains] on the message. *)
Fixpoint isActorNotAdminError (err : herror) : bool :=
  match err with
  | HText text (HCause (PgError _)) => Contains text "actor is not a platform admin"
  | HText _ e | HQuery _ e | HScan e => isActorNotAdminError e
  | HJoin e1 e2 => match as_pg_error e1 with Some _ => isActorNotAdminError e1 | None => isActorNotAdminError e2 end
  | HErr _ | HTwin _ | HGateway _ | HUser _ | HIdent _ | HCause _ => false
  end.

(** [ORDER BY u.created_at ASC, u.id ASC]: NULL comes last, and the order of
    identifiers is that of their text. *)
Definition account_le (x y : uuid * (option string * option Z)) : Prop :=
  match x.2.2, y.2.2 with
  | Some s, Some t => s < t \/ s = t /\ c_le (uuid_String x.1) (uuid_String y.1)
  | Some _, None => True
  | None, Some _ => False
  | None, None => c_le (uuid_String x.1) (uuid_String y.1)
  end.

#[export] Instance account_le_dec : RelDecision account_le.
Proof. intros [u [e [s|]]] [v [f [t|]]]; unfold account_le; cbn; apply _. Defined.

Definition projection_row b (account : uuid * (option string * option Z)) : UserProjectionRow uuid :=
  let '(u, (email, created)) := account in
  let profile := bool_decide (u ∈ rg_profiles (ub_registry b)) in
  mkProjectionRow u email (if profile then ub_names b !! u else None)
    (if bool_decide (u ∈ rg_admins (ub_registry b)) then "platform_admin" else "user") created profile.

(** [list_admin_users_projection(actor, limit)] *)
Definition users_projection actor (limit : Z) b : res herror (list (UserProjectionRow uuid)) :=
  if negb (is_admin_query actor (ub_registry b)) then Err raised_not_admin
  else Ok (take (Z.to_nat limit) (projection_row b <$> merge_sort account_le (map_to_list (ub_accounts b)))).

(** [if isActorNotAdminError(err) { return ErrActorNotAdmin }] and the wrap. *)
Definition refuse_actor (text : string) (err : herror) : herror :=
  if isActorNotAdminError err then HUser ErrActorNotAdmin else HText text err.

Definition scan_fail (text : string) : herror := HText text null_scanned.

(** [for rows.Next() { rows.Scan; ... }] and [rows.Err()] *)
Fixpoint scan_projection (rows : list (UserProjectionRow uuid)) : UM (list (UserProjectionRow uuid)) :=
  letu next := u_call (fun _ => Ok tt) in
  match next with
  | Err err => u_fail (refuse_actor "iterate user projection rows" err)
  | Ok _ =>
      match rows with
      | [] => u_ret []
      | row :: rows =>
          letu scanned := u_call (fun _ => Ok tt) in
          match scanned with
          | Err err => u_fail (HText "scan user projection row" err)
          | Ok _ =>
              if bool_decide (upr_Email row = None) || bool_decide (upr_CreatedAt row = None)
              then u_fail (scan_fail "scan user projection row")
              else if negb (upr_ProfileExists row) then u_fail (HUser ErrInconsistentProfile)
              else letu rest := scan_projection rows in u_ret (row :: rest)
          end
      end
  end.

Definition ListUsersProjection actor (limit : Z) : UM (list (UserProjectionRow uuid)) :=
  letu rows := u_call (users_projection actor limit) in
  match rows with
  | Err err => u_fail (refuse_actor "query list_admin_users_projection" err)
  | Ok rows => scan_projection rows
  end.

(** [SELECT ... FROM user_gateways WHERE user_id = ANY($1) ORDER BY user_id,
    gateway_id LIMIT $2]; text is compared as its bytes are. *)
Definition role_row_le (x y : UserGatewayRoleRow uuid) : Prop :=
  c_lt (uuid_String (urr_UserID x)) (uuid_String (urr_UserID y))
  \/ urr_UserID x = urr_UserID y /\ c_le (urr_GatewayID x) (urr_GatewayID y).

#[export] Instance role_row_le_dec : RelDecision role_row_le.
Proof. intros x y. unfold role_row_le. apply _. Defined.

Definition roles_query (userIDs : list uuid) (limit : Z) b : list (UserGatewayRoleRow uuid) :=
  take (Z.to_nat limit)
    (merge_sort role_row_le
       ((fun kv => mkRoleRow kv.1.1 kv.1.2 kv.2)
          <$> filter (fun kv => kv.1.1 ∈ userIDs) (map_to_list (rg_roles (ub_registry b))))).

Fixpoint scan_roles (rows : list (UserGatewayRoleRow uuid)) : UM (list (UserGatewayRoleRow uuid)) :=
  letu next := u_call (fun _ => Ok tt) in
  match next with
  | Err err => u_fail (HText "iterate user gateway role rows" err)
  | Ok _ =>
      match rows with
      | [] => u_ret []
      | row :: rows =>
          letu scanned := u_call (fun _ => Ok tt) in
          match scanned with
          | Err err => u_fail (HText "scan user gateway role row" err)
          | Ok _ => letu rest := scan_roles rows in u_ret (row :: rest)
          end
      end
  end.

Definition ListUserGatewayRoles (userIDs : list uuid) (limit : Z) : UM (list (UserGatewayRoleRow uuid)) :=
  if bool_decide (userIDs = []) then u_ret []
  else
    letu rows := u_call (fun b => Ok (roles_query userIDs limit b)) in
    match rows with
    | Err err => u_fail (HText "query user_gateways" err)
    | Ok rows => scan_roles rows
    end.

(** ** The service: [service.go] *)

(** The identity provider, and the one without a service key of
    [cmd/server/usermanagement.go]. *)
Definition AuthAdminClient : Type := CreateUserInput -> UM (AuthAdminUser uuid).
Definition unavailableAuthAdminClient : AuthAdminClient := fun _ => u_fail (HUser ErrAuthUnavailable).

(** What the service needs of its repository: [repository.go]. *)
Record UserRepository := mkUserRepository {
  ur_VerifyActorIsAdmin : uuid -> UM ();
  ur_VerifyCreatedUserProfile : uuid -> string -> UM ();
  ur_ListUsersProjection : uuid -> Z -> UM (list (UserProjectionRow uuid));
  ur_ListUserGatewayRoles : list uuid -> Z -> UM (list (UserGatewayRoleRow uuid));
  ur_UpdateUserProfileAndRole : WriteWorld uuid -> uuid -> uuid -> option string -> option string
    -> UserDB uuid -> res herror (UpdatedUser uuid) * UserDB uuid;
  ur_AssignGatewayUser : WriteWorld uuid -> uuid -> string -> uuid -> string
    -> RegistryDB uuid -> res herror () * RegistryDB uuid;
  ur_RemoveGatewayUser : WriteWorld uuid -> uuid -> string -> uuid -> RegistryDB uuid -> res herror () * RegistryDB uuid;
  ur_TransferGatewayOwner : WriteWorld uuid -> uuid -> string -> uuid
    -> RegistryDB uuid -> res herror () * RegistryDB uuid;
}.

Definition PostgresUserRepository : UserRepository :=
  mkUserRepository VerifyActorIsAdmin VerifyCreatedUserProfile ListUsersProjection ListUserGatewayRoles
    UpdateUserProfileAndRole AssignGatewayUser RemoveGatewayUser TransferGatewayOwner.

Record UserService := mkUserService {
  sv_authClient : AuthAdminClient;
  sv_repo : UserRepository;
  sv_timeout : Z;
  sv_listConfig : UserListConfig;
}.

Definition NewUserService (authClient : option AuthAdminClient) (repo : option UserRepository) (timeout : Z)
    : res string UserService :=
  match authClient, repo with
  | None, _ => Err "auth client cannot be nil"
  | Some _, None => Err "repository cannot be nil"
  | Some authClient, Some repo => Ok (mkUserService authClient repo timeout DefaultUserListConfig)
  end.

Definition WithUserListConfig (s : UserService) (cfg : UserListConfig) : UserService :=
  mkUserService (sv_authClient s) (sv_repo s) (sv_timeout s) cfg.

(** [json.Marshal] of the answer, whose size is bounded. *)
Definition marshal_role (r : UserGatewayRole) : string :=
  json_object [json_field "gateway_id" (json_quote (ugr_GatewayID r)); json_field "role" (json_quote (ugr_Role r))].

Definition marshal_summary (s : UserSummary uuid) : option string :=
  let created := us_CreatedAt s in
  if (Year created <? 0) || (9999 <? Year created) then None
  else Some (json_object [
    json_field "id" (json_quote (uuid_String (us_ID s)));
    json_field "email" (json_quote (us_Email s));
    json_field "full_name" (match us_FullName s with Some name => json_quote name | None => "null" end);
    json_field "platform_role" (json_quote (us_PlatformRole s));
    json_field "created_at" (json_quote (FormatRFC3339Nano created));
    json_field "gateway_roles" ("[" +:+ Join (marshal_role <$> us_GatewayRoles s) "," +:+ "]")]).

Definition marshal_items (summaries : list (UserSummary uuid)) : option string :=
  items ← mapM marshal_summary summaries;
  Some (json_object [json_field "items" ("[" +:+ Join items "," +:+ "]")]).

Definition role_le (x y : UserGatewayRole) : Prop := c_le (ugr_GatewayID x) (ugr_GatewayID y).

#[export] Instance role_le_dec : RelDecision role_le.
Proof. intros x y. unfold role_le. apply _. Defined.

(** The roles of one user, sorted by Gateway; a user has one role per Gateway. *)
Definition roles_of (u : uuid) (roleRows : list (UserGatewayRoleRow uuid)) : list UserGatewayRole :=
  merge_sort role_le ((fun r => mkGatewayRole (urr_GatewayID r) (urr_Role r)) <$> filter (fun r => urr_UserID r = u) roleRows).

(** The repository has refused rows whose columns are NULL. *)
Definition summary_of (roleRows : list (UserGatewayRoleRow uuid)) (r : UserProjectionRow uuid) : UserSummary uuid :=
  mkUserSummary (upr_UserID r) (default "" (upr_Email r)) (upr_FullName r) (upr_PlatformRole r)
    (default zero_time (time_of_tz <$> upr_CreatedAt r)) (roles_of (upr_UserID r) roleRows).

Definition BuildUserSummaryList (userRows : list (UserProjectionRow uuid)) (roleRows : list (UserGatewayRoleRow uuid))
    (maxResponseBytes : Z) : res herror (list (UserSummary uuid)) :=
  if negb (forallb upr_ProfileExists userRows) then Err (HUser ErrInconsistentProfile)
  else
    let summaries := summary_of roleRows <$> userRows in
    if bool_decide (userRows = []) then Ok []
    else if 0 <? maxResponseBytes then
      match marshal_items summaries with
      | None => Err (HCause (OtherCause "serialize user list response"))
      | Some data => if maxResponseBytes <? str_len data then Err (HUser ErrCapacityExceeded) else Ok summaries
      end
    else Ok summaries.

(** [if cfg.X <= 0 { cfg.X = ... }] *)
Definition effective_list_config (cfg : UserListConfig) : UserListConfig :=
  let pick v fallback := if v <=? 0 then fallback else v in
  mkUserListConfig (pick (MaxUsers cfg) 1000) (pick (MaxMemberships cfg) 10000)
    (pick (MaxResponseBytes cfg) (2 * 1024 * 1024)).

Definition u_of_res {A} (r : res herror A) : UM A := fun _ n => (r, n).

(** [if err := ctx.Err(); err != nil { return err }] *)
Definition u_ctx : UM () := fun W n =>
  match uw_ctx W with Some c => (Err (HCause (ctx_cause c)), n) | None => (Ok tt, n) end.

Definition ListUsers (s : UserService) actor : UM (list (UserSummary uuid)) :=
  let repo := sv_repo s in
  letu _ := u_ctx in
  letu _ := ur_VerifyActorIsAdmin repo actor in
  let cfg := effective_list_config (sv_listConfig s) in
  letu userRows := ur_ListUsersProjection repo actor (MaxUsers cfg + 1) in
  if MaxUsers cfg <? Z.of_nat (length userRows) then u_fail (HUser ErrCapacityExceeded)
  else if bool_decide (userRows = []) then u_ret []
  else
    letu roleRows := ur_ListUserGatewayRoles repo (upr_UserID <$> userRows) (MaxMemberships cfg + 1) in
    if MaxMemberships cfg <? Z.of_nat (length roleRows) then u_fail (HUser ErrCapacityExceeded)
    else u_of_res (BuildUserSummaryList userRows roleRows (MaxResponseBytes cfg)).

(** A [ProfileVerificationError] is its class beside its cause; the identifier it
    carries is only logged. *)
Definition CreateUser (s : UserService) actor (input : CreateUserInput) : UM (CreatedUser uuid) :=
  let repo := sv_repo s in
  letu input := u_of_res (ValidateCreateUserInput input) in
  letu _ := u_ctx in
  letu _ := ur_VerifyActorIsAdmin repo actor in
  letu authUser := sv_authClient s input in
  fun W n =>
    match ur_VerifyCreatedUserProfile repo (au_ID authUser) (cu_FullName input) W n with
    | (Err err, n') => (Err (HJoin (HUser ErrProfileVerificationFailed) err), n')
    | (Ok _, n') =>
        (Ok (mkCreatedUser (au_ID authUser) (au_Email authUser) (cu_FullName input) "user" (au_CreatedAt authUser)), n')
    end.

(** [ctx.Err()] of a write, before the repository is called. *)
Definition unless_ended {A DB} w (d : DB) (k : res herror A * DB) : res herror A * DB :=
  match ww_op_ctx w with Some c => (Err (HCause (ctx_cause c)), d) | None => k end.

Definition UpdateUser (s : UserService) w actor target (input : UpdateUserInput) b
    : res herror (UpdatedUser uuid) * UserDB uuid :=
  match ValidateUpdateUserInput input with
  | Some err => (Err err, b)
  | None =>
      match CheckSelfDemotion actor target input with
      | Some err => (Err err, b)
      | None => unless_ended w b
                  (ur_UpdateUserProfileAndRole (sv_repo s) w actor target (uu_FullName input) (uu_PlatformRole input) b)
      end
  end.

(** The checks of the identifiers, common to assignment and transfer. *)
Definition check_ids actor (gatewayID : string) target : option herror :=
  if bool_decide (actor = uuid_Nil) then Some (user_invalid "actor_id cannot be nil")
  else if bool_decide (target = uuid_Nil) then Some (user_invalid "target_id cannot be nil")
  else if bool_decide (TrimSpace gatewayID = "") then Some (user_invalid "gateway_id cannot be blank")
  else None.

Definition service_AssignGatewayUser (s : UserService) w actor (gatewayID : string) target (role : string) d
    : res herror () * RegistryDB uuid :=
  match ValidateGatewayRole role with
  | Some err => (Err err, d)
  | None =>
      match check_ids actor gatewayID target with
      | Some err => (Err err, d)
      | None => unless_ended w d (ur_AssignGatewayUser (sv_repo s) w actor gatewayID target role d)
      end
  end.

Definition service_RemoveGatewayUser (s : UserService) w actor (gatewayID : string) target d
    : res herror () * RegistryDB uuid :=
  if bool_decide (actor = uuid_Nil) || bool_decide (target = uuid_Nil)
     || bool_decide (is_Some (ValidateGatewayID gatewayID)) || bool_decide (gatewayID = "backend_service")
  then (Err (HUser ErrUserInvalidInput), d)
  else unless_ended w d (ur_RemoveGatewayUser (sv_repo s) w actor gatewayID target d).

Definition service_TransferGatewayOwner (s : UserService) w actor (gatewayID : string) target d
    : res herror () * RegistryDB uuid :=
  match check_ids actor gatewayID target with
  | Some err => (Err err, d)
  | None => unless_ended w d (ur_TransferGatewayOwner (sv_repo s) w actor gatewayID target d)
  end.

End users.
Arguments UserWorld uuid {U}.
Arguments UM uuid {U} A.
Arguments UserRepository uuid {U}.
Arguments UserService uuid {U}.
Arguments AuthAdminClient uuid {U}.

Notation "'letu' x ':=' m 'in' k" := (u_bind m (fun x => k))
  (at level 10, x pattern, m at level 100, k at level 200) : go_scope.

Example email_ex :
  (validateAndNormalizeEmail " Ann.Lee+x@Mail.example.org ", is_ok (validateAndNormalizeEmail "a..b@c.org"),
   is_ok (validateAndNormalizeEmail "a@b@c.org"), is_ok (validateAndNormalizeEmail "a@localhost"),
   is_ok (validateAndNormalizeEmail "a\b@c.org"))
  = (Ok "Ann.Lee+x@Mail.example.org", false, false, false, false).
Proof. vm_compute. reflexivity. Qed.
