(* ===== verification/UserHandlers.v ===== *)
(** * The administrators' endpoints for users and memberships

    [httpserver/admin_user_handlers.go] and the composition of
    [cmd/server/usermanagement.go]: the bodies, the six handlers and their
    answers.  A handler sees the principal, the request and the path; its answer
    is the status, the [Location] header and the value given to the encoder. *)

From S2P Require Import Prelude GoStrings GoTime GoFloat GoJson Uuid Identity Telemetry Txn Store Persist.
From S2P Require Import HistoryQuery HistoryStore TwinModel Cursor TwinStore Registry Provision Patch Mutation Users.
#[local] Open Scope Z_scope.

Inductive UserBody (uuid : Type) :=
| BodyCreatedUser (user : CreatedUser uuid)
| BodyUpdatedUser (user : UpdatedUser uuid)
| BodyUserItems (items : list (UserSummary uuid))
| BodyMembership (gateway_id : string) (user_id : uuid) (role : string)
| BodyOwner (gateway_id : string) (owner_user_id : uuid)
| BodyEmpty
| BodyUserError (code message : string).
Arguments BodyCreatedUser {uuid}.
Arguments BodyUpdatedUser {uuid}.
Arguments BodyUserItems {uuid}.
Arguments BodyMembership {uuid}.
Arguments BodyOwner {uuid}.
Arguments BodyEmpty {uuid}.
Arguments BodyUserError {uuid}.

Record UserResponse (uuid : Type) := mkUserResponse {
  ua_status : Z;
  ua_location : option string;
  ua_body : UserBody uuid;
}.
Arguments mkUserResponse {uuid}.
Arguments ua_status {uuid}.
Arguments ua_location {uuid}.
Arguments ua_body {uuid}.

(** ** Bodies *)

Definition parseCreateUserRequest (r : Request) (limit : Z) : res Z CreateUserInput :=
  let! entries := readStrictJSONObject r limit in
  let! _ := bad (negb (only_members ["full_name"; "email"; "password"] entries)) in
  let! fullName := required_text entries "full_name" in
  let! email := required_text entries "email" in
  let! password := required_text entries "password" in
  match ValidateCreateUserInput (mkCreateUserInput fullName email password) with
  | Ok input => Ok input
  | Err _ => Err 400
  end.

(** A member that is absent or a JSON text; [null] is refused. *)
Definition present_text (entries : gmap string json) (name : string) : res Z (option string) :=
  match entries !! name with
  | None => Ok None
  | Some (JStr value) => Ok (Some value)
  | Some _ => Err 400
  end.

Definition parseUpdateUserRequest (r : Request) (limit : Z) : res Z UpdateUserInput :=
  let! entries := readStrictJSONObject r limit in
  let! _ := bad (negb (only_members ["full_name"; "platform_role"] entries)) in
  let! fullName := present_text entries "full_name" in
  let! role := present_text entries "platform_role" in
  refused_400 (ValidateUpdateUserInput (mkUpdateUserInput fullName role)) (mkUpdateUserInput fullName role).

Definition parseAssignGatewayUserRequest (r : Request) (limit : Z) : res Z string :=
  let! entries := readStrictJSONObject r limit in
  let! _ := bad (negb (only_members ["role"] entries)) in
  required_text entries "role".

Section handlers.
Context {uuid : Type} `{U : UuidLib uuid}.
Implicit Types (d : RegistryDB uuid) (b : UserDB uuid) (w : WriteWorld uuid).

(** [uuid.Parse] of a path segment or a member; the nil identifier is refused. *)
Definition parse_user (text : string) : option uuid :=
  u ← uuid_Parse text; if bool_decide (u = uuid_Nil) then None else Some u.

Definition parseTransferGatewayOwnerRequest (r : Request) (limit : Z) : res Z uuid :=
  let! entries := readStrictJSONObject r limit in
  let! _ := bad (negb (only_members ["user_id"] entries)) in
  let! rawUser := required_text entries "user_id" in
  or_err 400 (parse_user rawUser).

(** ** Answers *)

Definition user_error (status : Z) (code message : string) : UserResponse uuid :=
  mkUserResponse status None (BodyUserError code message).

Definition invalid_request : UserResponse uuid := user_error 400 "invalid_request" "invalid request".
Definition service_unavailable : UserResponse uuid := user_error 503 "service_unavailable" "service unavailable".
Definition user_unauthorized : UserResponse uuid := user_error 401 "unauthorized" "authentication required".
Definition access_denied : UserResponse uuid := user_error 403 "forbidden" "access denied".
Definition user_not_found : UserResponse uuid := user_error 404 "not_found" "resource not found".
Definition internal_error : UserResponse uuid := user_error 500 "internal_error" "internal server error".
Definition owner_transfer_required : UserResponse uuid :=
  user_error 409 "owner_transfer_required" "owner transfer required".
Definition owner_role_refused : UserResponse uuid :=
  user_error 400 "invalid_role" "owner role requires owner transfer endpoint".
Definition self_demotion : UserResponse uuid :=
  user_error 409 "self_admin_demotion_forbidden" "self admin demotion forbidden".

(** The answer to a status of the body parsers. *)
Definition body_refused (status : Z) : UserResponse uuid :=
  if status =? 413 then user_error status "payload_too_large" "payload too large"
  else if status =? 415 then user_error status "unsupported_media_type" "unsupported media type"
  else user_error status "invalid_request" "invalid request".

(** The [switch] on the error of each handler. *)
Definition create_user_error (err : herror) : UserResponse uuid :=
  if is_user ErrUserAlreadyExists err then user_error 409 "user_already_exists" "user already exists"
  else if is_user ErrUserInvalidInput err then invalid_request
  else if is_user ErrActorNotAdmin err then access_denied
  else if is_user ErrAuthUnavailable err || is_user ErrProfileVerificationFailed err || is_ctx_error err
  then service_unavailable
  else internal_error.

Definition list_users_error (err : herror) : UserResponse uuid :=
  if is_user ErrCapacityExceeded err then user_error 409 "user_list_capacity_exceeded" "user list capacity exceeded"
  else if is_user ErrActorNotAdmin err then access_denied
  else if is_ctx_error err then service_unavailable
  else internal_error.

Definition update_user_error (err : herror) : UserResponse uuid :=
  if is_user ErrSelfDemotionForbidden err then self_demotion
  else if is_user ErrUserNotFound err then user_not_found
  else if is_user ErrUserInvalidInput err then invalid_request
  else if is_user ErrActorNotAdmin err then access_denied
  else if is_ctx_error err then service_unavailable
  else internal_error.

Definition assign_error (err : herror) : UserResponse uuid :=
  if is_user ErrOwnerRoleNotAllowed err then owner_role_refused
  else if is_user ErrOwnerTransferRequired err then owner_transfer_required
  else if is_user ErrUserNotFound err || is_user ErrUserGatewayNotFound err then user_not_found
  else if is_user ErrInvalidRole err || is_user ErrUserInvalidInput err then invalid_request
  else if is_user ErrActorNotAdmin err then access_denied
  else if is_ctx_error err then service_unavailable
  else internal_error.

Definition remove_error (err : herror) : UserResponse uuid :=
  if is_ctx_error err || is_user ErrMembershipUnavailable err then service_unavailable
  else if is_user ErrActorNotAdmin err then access_denied
  else if is_user ErrOwnerTransferRequired err then owner_transfer_required
  else if is_user ErrUserGatewayNotFound err then user_not_found
  else if is_user ErrUserInvalidInput err then invalid_request
  else internal_error.

Definition transfer_error (err : herror) : UserResponse uuid :=
  if is_user ErrActorNotAdmin err then access_denied
  else if is_user ErrGatewayOwnerInconsistent err then user_error 409 "gateway_owner_inconsistent" "gateway owner inconsistent"
  else if is_user ErrUserNotFound err || is_user ErrUserGatewayNotFound err then user_not_found
  else if is_user ErrUserInvalidInput err then invalid_request
  else if is_ctx_error err then service_unavailable
  else internal_error.

(** ** Handlers *)

(** The principal and the dependency, checked first by every handler. *)
Definition admin_call {A} (svc : option (UserService uuid)) (principal : option uuid) (refuse : UserResponse uuid -> A)
    (run : UserService uuid -> uuid -> A) : A :=
  match authenticated principal with
  | None => refuse user_unauthorized
  | Some actor =>
      match svc with
      | None => refuse service_unavailable
      | Some svc => run svc actor
      end
  end.

(** The Gateway of the path. *)
Definition gateway_refused (gatewayID : string) : bool :=
  bool_decide (is_Some (ValidateGatewayID gatewayID)) || bool_decide (gatewayID = "backend_service").

(** No query and no body. *)
Definition nothing_sent (r : Request) : bool :=
  negb (rq_query r) && bool_decide (rq_body r = "") && negb (rq_body_err r).

(** [POST /v1/admin/users] *)
Definition createUserHandler (creator : option (UserService uuid)) (limit : Z) (principal : option uuid)
    (request : Request) (W : UserWorld uuid) : UserResponse uuid :=
  admin_call creator principal id (fun creator actor =>
    match parseCreateUserRequest request limit with
    | Err status => body_refused status
    | Ok input =>
        match CreateUser creator actor input W 0%nat with
        | (Err err, _) => create_user_error err
        | (Ok result, _) =>
            mkUserResponse 201 (Some ("/v1/admin/users/" +:+ uuid_String (nu_ID result))) (BodyCreatedUser result)
        end
    end).

(** [GET /v1/admin/users] *)
Definition listUsersHandler (lister : option (UserService uuid)) (principal : option uuid) (request : Request)
    (W : UserWorld uuid) : UserResponse uuid :=
  admin_call lister principal id (fun lister actor =>
    if negb (nothing_sent request) then invalid_request
    else match ListUsers lister actor W 0%nat with
    | (Err err, _) => list_users_error err
    | (Ok items, _) => mkUserResponse 200 None (BodyUserItems items)
    end).

(** [PATCH /v1/admin/users/:user_id] *)
Definition updateUserHandler (updater : option (UserService uuid)) (limit : Z) (principal : option uuid)
    (user_id : string) (request : Request) w b : UserResponse uuid * UserDB uuid :=
  admin_call updater principal (fun r => (r, b)) (fun updater actor =>
    match parse_user user_id with
    | None => (invalid_request, b)
    | Some targetID =>
        match parseUpdateUserRequest request limit with
        | Err status => (body_refused status, b)
        | Ok input =>
            if bool_decide (is_Some (CheckSelfDemotion actor targetID input)) then (self_demotion, b)
            else match UpdateUser updater w actor targetID input b with
            | (Err err, b') => (update_user_error err, b')
            | (Ok result, b') => (mkUserResponse 200 None (BodyUpdatedUser result), b')
            end
        end
    end).

(** [PUT /v1/admin/gateways/:gateway_id/users/:user_id] *)
Definition assignGatewayUserHandler (assigner : option (UserService uuid)) (limit : Z) (principal : option uuid)
    (gateway_id user_id : string) (request : Request) w d : UserResponse uuid * RegistryDB uuid :=
  admin_call assigner principal (fun r => (r, d)) (fun assigner actor =>
    if gateway_refused gateway_id then (invalid_request, d)
    else match parse_user user_id with
    | None => (invalid_request, d)
    | Some targetID =>
        match parseAssignGatewayUserRequest request limit with
        | Err status => (body_refused status, d)
        | Ok role =>
            match ValidateGatewayRole role with
            | Some err => (if is_user ErrOwnerRoleNotAllowed err then owner_role_refused else invalid_request, d)
            | None =>
                match service_AssignGatewayUser assigner w actor gateway_id targetID role d with
                | (Err err, d') => (assign_error err, d')
                | (Ok _, d') => (mkUserResponse 200 None (BodyMembership gateway_id targetID role), d')
                end
            end
        end
    end).

(** [DELETE /v1/admin/gateways/:gateway_id/users/:user_id] *)
Definition removeGatewayUserHandler (remover : option (UserService uuid)) (principal : option uuid)
    (gateway_id user_id : string) (request : Request) w d : UserResponse uuid * RegistryDB uuid :=
  admin_call remover principal (fun r => (r, d)) (fun remover actor =>
    match parse_user user_id with
    | None => (invalid_request, d)
    | Some targetID =>
        if gateway_refused gateway_id || negb (nothing_sent request) then (invalid_request, d)
        else match service_RemoveGatewayUser remover w actor gateway_id targetID d with
        | (Err err, d') => (remove_error err, d')
        | (Ok _, d') => (mkUserResponse 204 None BodyEmpty, d')
        end
    end).

(** [PUT /v1/admin/gateways/:gateway_id/owner] *)
Definition transferGatewayOwnerHandler (ownerTransferer : option (UserService uuid)) (limit : Z)
    (principal : option uuid) (gateway_id : string) (request : Request) w d : UserResponse uuid * RegistryDB uuid :=
  admin_call ownerTransferer principal (fun r => (r, d)) (fun ownerTransferer actor =>
    if gateway_refused gateway_id then (invalid_request, d)
    else match parseTransferGatewayOwnerRequest request limit with
    | Err status => (body_refused status, d)
    | Ok targetUserID =>
        match service_TransferGatewayOwner ownerTransferer w actor gateway_id targetUserID d with
        | (Err err, d') => (transfer_error err, d')
        | (Ok _, d') => (mkUserResponse 200 None (BodyOwner gateway_id targetUserID), d')
        end
    end).

(** ** Composition: [cmd/server/usermanagement.go] *)

(** Without a service key the identity provider is never called. *)
Definition composeUserManagement (adapter : option (AuthAdminClient uuid)) (timeout : Z) (list : UserListConfig)
    : res string (UserService uuid) :=
  let authClient := match adapter with Some client => client | None => unavailableAuthAdminClient end in
  let! svc := NewUserService (Some authClient) (Some PostgresUserRepository) timeout in
  Ok (WithUserListConfig svc list).

End handlers.
