(* ===== verification/RegistryInv.v ===== *)
(** * Well-formed registries

    The graph that provisioning promises: every Gateway and every Sensor has
    exactly one twin, under its own URN, with its name and a state; a Sensor's
    twin hangs below its Gateway's; and a Gateway has exactly one owner.  The
    two insertions keep it. *)

From S2P Require Import Prelude GoStrings GoTime GoFloat GoJson Identity Urn Uuid Telemetry.
From S2P Require Import Txn Store Persist HistoryQuery HistoryStore TwinModel TwinStore Registry Provision.
#[local] Open Scope Z_scope.

(** ** Names *)

Lemma gateway_urn_inj g g' : GatewayEntityID g = GatewayEntityID g' -> g = g'.
Proof. intros H. by injection H. Qed.

Lemma gateway_sensor_urn g g' s : GatewayEntityID g <> SensorEntityID g' s.
Proof. discriminate. Qed.

Lemma sensor_urn_inj g s g' s' : ValidateGatewayID g = None -> ValidateGatewayID g' = None ->
  SensorEntityID g s = SensorEntityID g' s' -> g = g' /\ s = s'.
Proof.
  intros Hg Hg' H. apply valid_gateway_pattern in Hg, Hg'. apply (append_sep_inj ":").
  1,2: by apply colon_free. unfold SensorEntityID in H.
  change ("urn:ngsi-ld:Sensor:" +:+ (g +:+ String ":" s) = "urn:ngsi-ld:Sensor:" +:+ (g' +:+ String ":" s')) in H.
  apply (f_equal (fun t => TrimPrefix t "urn:ngsi-ld:Sensor:")) in H. by rewrite !TrimPrefix_app in H.
Qed.

#[export] Instance TwinEntity_eq_dec {uuid} `{EqDecision uuid} : EqDecision (TwinEntity uuid).
Proof. solve_decision. Defined.

Section invariant.
Context {uuid : Type} `{U : UuidLib uuid}.
Implicit Types (d : RegistryDB uuid) (e p : TwinEntity uuid).

Definition entities d : list (TwinEntity uuid) := twin_entities (rg_store d).
Definition relationships d : list (TwinRelationship uuid) := twin_relationships (rg_store d).
Definition states d : gmap uuid TwinState := twin_states (rg_store d).

Definition gateway_twin (g : string) e : Prop :=
  e_entity_id e = GatewayEntityID g /\ e_entity_type e = "Gateway" /\ e_gateway_id e = Some g.
Definition sensor_twin (g s : string) e : Prop :=
  e_entity_id e = SensorEntityID g s /\ e_entity_type e = "Sensor" /\ e_gateway_id e = Some g.

(** The names in the tables of the Gateway and of the Sensor. *)
Definition stored_gateway_name d (g : string) : string := gateway_name (view d) g.
Definition stored_sensor_name d (g s : string) : string := sensor_name (view d) g s.

(** Keys, foreign keys, and the graph. *)
Record registry_ok d : Prop := {
  ro_ids : NoDup (e_id <$> entities d);
  ro_urns : NoDup (e_entity_id <$> entities d);
  ro_not_nil e : e ∈ entities d -> e_id e <> uuid_Nil;
  ro_states e : e ∈ entities d -> is_Some (states d !! e_id e);
  ro_versions id st : states d !! id = Some st -> 0 <= st_reported_version st;
  ro_state_of id : is_Some (states d !! id) -> id ∈ e_id <$> entities d;
  ro_targets r : r ∈ relationships d -> rel_target r ∈ e_id <$> entities d;
  ro_entities e : e ∈ entities d ->
    (exists g, g ∈ gateways (rg_store d) /\ gateway_twin g e /\ entity_name (view d) e = Some (stored_gateway_name d g))
    \/ (exists g s, is_Some (sensors (rg_store d) !! (g, s)) /\ sensor_twin g s e
                    /\ entity_name (view d) e = Some (stored_sensor_name d g s));
  ro_gateways g : g ∈ gateways (rg_store d) -> ValidateGatewayID g = None
    /\ ValidProvisioningName (stored_gateway_name d g) = true /\ exists e, e ∈ entities d /\ gateway_twin g e;
  ro_sensors g s : is_Some (sensors (rg_store d) !! (g, s)) -> g ∈ gateways (rg_store d) /\ ValidateSensorID s = None
    /\ ValidProvisioningName (stored_sensor_name d g s) = true
    /\ exists p e, p ∈ entities d /\ e ∈ entities d /\ gateway_twin g p /\ sensor_twin g s e
         /\ hasSensor_rel (e_id p) (e_id e) ∈ relationships d;
  ro_roles u g r : rg_roles d !! (u, g) = Some r -> g ∈ gateways (rg_store d);
  ro_owner g : g ∈ gateways (rg_store d) -> exists u, rg_roles d !! (u, g) = Some "owner"
    /\ forall u', rg_roles d !! (u', g) = Some "owner" -> u' = u;
}.

(** ** A new Gateway and a new Sensor *)

Definition gateway_entity (id : uuid) (g : string) : TwinEntity uuid :=
  mkTwinEntity id (GatewayEntityID g) "Gateway" (Some g).
Definition sensor_entity (id : uuid) (g s : string) : TwinEntity uuid :=
  mkTwinEntity id (SensorEntityID g s) "Sensor" (Some g).

Definition gateway_added (now : Z) (id : uuid) (input : ProvisionGatewayInput uuid) d : RegistryDB uuid :=
  let s := rg_store d in let c := rg_columns d in let g := pg_GatewayID input in
  mkRegistry (with_graph s ({[g]} ∪ gateways s) (sensors s) (twin_entities s ++ [gateway_entity id g])
                (twin_relationships s) (<[id := new_state now]> (twin_states s)))
    (mkTwinColumns (<[id := (Some (pg_Name input), now)]> (entity_columns c))
       (<[g := (pg_Name input, pg_Description input)]> (gateway_columns c)) (sensor_names c) (relationship_created c))
    (<[(pg_OwnerUserID input, g) := "owner"]> (rg_roles d)) (rg_profiles d) (rg_admins d)
    (<[g := now]> (rg_gateway_created d)) (rg_sensor_created d).

Definition sensor_added (now : Z) (id parent : uuid) (input : ProvisionSensorInput) d : RegistryDB uuid :=
  let s := rg_store d in let c := rg_columns d in let k := (ps_GatewayID input, ps_SensorID input) in
  mkRegistry (with_graph s (gateways s) (<[k := ps_Unit input]> (sensors s))
                (twin_entities s ++ [sensor_entity id (ps_GatewayID input) (ps_SensorID input)])
                (twin_relationships s ++ [hasSensor_rel parent id]) (<[id := new_state now]> (twin_states s)))
    (mkTwinColumns (<[id := (Some (ps_Name input), now)]> (entity_columns c)) (gateway_columns c)
       (<[k := ps_Name input]> (sensor_names c)) (<[(parent, id) := now]> (relationship_created c)))
    (rg_roles d) (rg_profiles d) (rg_admins d) (rg_gateway_created d) (<[k := now]> (rg_sensor_created d)).

Definition fresh_entity d (id : uuid) (urn : string) : Prop :=
  id <> uuid_Nil /\ id ∉ e_id <$> entities d /\ urn ∉ e_entity_id <$> entities d.

Lemma entity_conflict_fresh id urn d : entity_conflict id urn d = false <->
  id ∉ e_id <$> entities d /\ urn ∉ e_entity_id <$> entities d.
Proof.
  unfold entity_conflict, entities. induction (twin_entities (rg_store d)) as [|e es IH].
  - split; [|done]. intros _. split; apply not_elem_of_nil.
  - cbn [existsb fmap list_fmap]. rewrite !orb_false_iff, !bool_decide_eq_false, IH, !not_elem_of_cons. naive_solver.
Qed.

Lemma has_entity_spec id d : has_entity id d = true <-> id ∈ e_id <$> entities d.
Proof.
  unfold has_entity, entities. induction (twin_entities (rg_store d)) as [|e es IH].
  - split; [done|]. by intros ?%elem_of_nil.
  - cbn [existsb fmap list_fmap]. rewrite orb_true_iff, bool_decide_eq_true, IH, elem_of_cons. naive_solver.
Qed.

Lemma in_ids e d : e ∈ entities d -> e_id e ∈ e_id <$> entities d.
Proof. apply list_elem_of_fmap_2. Qed.

Lemma in_urns e d : e ∈ entities d -> e_entity_id e ∈ e_entity_id <$> entities d.
Proof. apply list_elem_of_fmap_2. Qed.

(** Two entities of one [id], or of one URN, are the same. *)
Lemma same_key {B} (key : TwinEntity uuid -> B) d e1 e2 : NoDup (key <$> entities d) ->
  e1 ∈ entities d -> e2 ∈ entities d -> key e1 = key e2 -> e1 = e2.
Proof.
  intros Hnd (i & Hi)%list_elem_of_lookup (j & Hj)%list_elem_of_lookup Hk.
  assert (i = j) as ->.
  { apply (NoDup_lookup (key <$> entities d) i j (key e1)); [done|..].
    - by rewrite list_lookup_fmap, Hi.
    - by rewrite list_lookup_fmap, Hj, Hk. }
  congruence.
Qed.

Lemma NoDup_snoc {A} (l : list A) x : NoDup l -> x ∉ l -> NoDup (l ++ [x]).
Proof.
  intros Hl Hx. apply list.NoDup_app. split; [done|]. split; [|apply NoDup_singleton].
  intros y Hy ->%list_elem_of_singleton. done.
Qed.

(** A fresh gateway has no twin under its URN. *)
Lemma fresh_gateway_urn d g : registry_ok d -> g ∉ gateways (rg_store d) ->
  GatewayEntityID g ∉ e_entity_id <$> entities d.
Proof.
  intros Hok Hg (e & Hu & He)%list_elem_of_fmap.
  destruct (ro_entities d Hok e He) as [(g' & Hg' & (Hu' & _) & _)|(g' & s' & _ & (Hu' & _) & _)].
  - rewrite Hu' in Hu. apply gateway_urn_inj in Hu as ->. done.
  - rewrite Hu' in Hu. by apply gateway_sensor_urn in Hu.
Qed.

Lemma fresh_sensor_urn d g s : registry_ok d -> g ∈ gateways (rg_store d) -> sensors (rg_store d) !! (g, s) = None ->
  SensorEntityID g s ∉ e_entity_id <$> entities d.
Proof.
  intros Hok Hg Hs (e & Hu & He)%list_elem_of_fmap.
  destruct (ro_entities d Hok e He) as [(g' & Hg' & (Hu' & _) & _)|(g' & s' & Hs' & (Hu' & _) & _)].
  - rewrite Hu' in Hu. symmetry in Hu. by apply gateway_sensor_urn in Hu.
  - rewrite Hu' in Hu. apply (sensor_urn_inj g s g' s') in Hu as [-> ->].
    + rewrite Hs in Hs'. by destruct Hs'.
    + by apply (ro_gateways d Hok).
    + apply (ro_gateways d Hok). by apply (ro_sensors d Hok) in Hs' as [? _].
Qed.

(** ** Columns after an insertion *)

Lemma name_fresh {V} (m : gmap uuid V) (v : V) id d e : id ∉ e_id <$> entities d -> e ∈ entities d ->
  <[id := v]> m !! e_id e = m !! e_id e.
Proof. intros Hid He. apply lookup_insert_ne. intros ->. by apply Hid, in_ids. Qed.

Lemma elem_of_snoc {A} (l : list A) x y : y ∈ l ++ [x] <-> y ∈ l \/ y = x.
Proof. rewrite elem_of_app. split; intros [H|H]; [by left|right|by left|right]; by apply list_elem_of_singleton. Qed.

Lemma fmap_snoc_elem {A B} (f : A -> B) (l : list A) x y : y ∈ f <$> l ++ [x] <-> y ∈ f <$> l \/ y = f x.
Proof. rewrite fmap_app. apply elem_of_snoc. Qed.

Lemma gateway_added_ok now id (input : ProvisionGatewayInput uuid) d : registry_ok d ->
  pg_GatewayID input ∉ gateways (rg_store d) -> ValidateGatewayID (pg_GatewayID input) = None ->
  ValidProvisioningName (pg_Name input) = true -> fresh_entity d id (GatewayEntityID (pg_GatewayID input)) ->
  registry_ok (gateway_added now id input d).
Proof.
  set (g := pg_GatewayID input). intros Hok Hg Hv Hn (Hnil & Hid & Hurn).
  assert (Hnew : forall e, e ∈ entities (gateway_added now id input d) <-> e ∈ entities d \/ e = gateway_entity id g)
    by (intros e; apply elem_of_snoc).
  assert (Hgs : forall g', g' ∈ gateways (rg_store (gateway_added now id input d)) <-> g' = g \/ g' ∈ gateways (rg_store d))
    by (intros g'; cbn; set_solver).
  assert (Hname : forall e, e ∈ entities d -> entity_name (view (gateway_added now id input d)) e = entity_name (view d) e).
  { intros e He. unfold entity_name. cbn. by rewrite (name_fresh _ _ _ d). }
  assert (Hgw : forall g', g' ∈ gateways (rg_store d) ->
    stored_gateway_name (gateway_added now id input d) g' = stored_gateway_name d g').
  { intros g' Hg'. unfold stored_gateway_name, gateway_name. cbn. rewrite lookup_insert_ne; [done|]. by intros <-. }
  assert (Hrole : forall u g', g' ∈ gateways (rg_store d) ->
    rg_roles (gateway_added now id input d) !! (u, g') = rg_roles d !! (u, g')).
  { intros u g' Hg'. cbn. rewrite lookup_insert_ne; [done|]. by intros [= _ <-]. }
  split.
  - cbn. rewrite fmap_app. by apply NoDup_snoc; [apply ro_ids|].
  - cbn. rewrite fmap_app. by apply NoDup_snoc; [apply ro_urns|].
  - intros e [He| ->]%Hnew; [by apply (ro_not_nil d)|done].
  - intros e [He| ->]%Hnew; cbn; [|by rewrite lookup_insert_eq]. rewrite (name_fresh _ _ _ d) by done.
    by apply (ro_states d).
  - intros i st Hi. cbn in Hi. apply lookup_insert_Some in Hi as [[_ <-]|[_ Hi]]; [done|]. by apply (ro_versions d Hok i).
  - intros i Hi. apply fmap_snoc_elem. cbn in Hi. destruct (decide (i = id)) as [->|Hne]; [by right|left].
    rewrite lookup_insert_ne in Hi by done. by apply (ro_state_of d).
  - intros r Hr. apply fmap_snoc_elem. left. by apply (ro_targets d).
  - intros e [He| ->]%Hnew.
    + rewrite Hname by done. destruct (ro_entities d Hok e He) as [(g' & Hg' & Ht & Hm)|(g' & s' & Hs' & Ht & Hm)].
      * left. exists g'. rewrite Hgw by done. split; [apply Hgs; by right|done].
      * right. by exists g', s'.
    + left. exists g. split; [apply Hgs; by left|]. split; [done|].
      unfold entity_name, stored_gateway_name, gateway_name. cbn. by rewrite !lookup_insert_eq.
  - intros g' [->|Hg']%Hgs.
    + split; [done|]. split; [|exists (gateway_entity id g); split; [apply Hnew; by right|done]].
      unfold stored_gateway_name, gateway_name. cbn. by rewrite lookup_insert_eq.
    + rewrite Hgw by done. destruct (ro_gateways d Hok g' Hg') as (? & ? & e & He & Ht). split; [done|]. split; [done|].
      exists e. split; [apply Hnew; by left|done].
  - intros g' s' Hs'. destruct (ro_sensors d Hok g' s' Hs') as (Hg' & ? & ? & p & e & Hp & He & ? & ? & ?).
    split; [apply Hgs; by right|]. split; [done|]. split; [done|]. exists p, e.
    split; [apply Hnew; by left|]. split; [apply Hnew; by left|done].
  - intros u g' r Hr. apply Hgs. cbn in Hr. apply lookup_insert_Some in Hr as [[[= <- <-] _]|[_ Hr]]; [by left|].
    right. by apply (ro_roles d Hok) in Hr.
  - intros g' [->|Hg']%Hgs.
    + exists (pg_OwnerUserID input). split; [cbn; apply lookup_insert_eq|]. intros u' Hu'. cbn in Hu'.
      apply lookup_insert_Some in Hu' as [[[= ->] _]|[_ Hu']]; [done|]. by apply (ro_roles d Hok) in Hu'.
    + destruct (ro_owner d Hok g' Hg') as (u & Hu & Hall). exists u. rewrite Hrole by done. split; [done|].
      intros u'. rewrite Hrole by done. apply Hall.
Qed.

Lemma sensor_added_ok now id parent (input : ProvisionSensorInput) d p : registry_ok d ->
  ps_GatewayID input ∈ gateways (rg_store d) ->
  sensors (rg_store d) !! (ps_GatewayID input, ps_SensorID input) = None ->
  ValidateSensorID (ps_SensorID input) = None -> ValidProvisioningName (ps_Name input) = true ->
  fresh_entity d id (SensorEntityID (ps_GatewayID input) (ps_SensorID input)) ->
  p ∈ entities d -> gateway_twin (ps_GatewayID input) p -> e_id p = parent ->
  registry_ok (sensor_added now id parent input d).
Proof.
  set (g := ps_GatewayID input). set (s := ps_SensorID input).
  intros Hok Hg Hs Hv Hn (Hnil & Hid & Hurn) Hp Hpt Hpid.
  assert (Hnew : forall e, e ∈ entities (sensor_added now id parent input d) <-> e ∈ entities d \/ e = sensor_entity id g s)
    by (intros e; apply elem_of_snoc).
  assert (Hrel : forall r, r ∈ relationships (sensor_added now id parent input d)
    <-> r ∈ relationships d \/ r = hasSensor_rel parent id) by (intros r; apply elem_of_snoc).
  assert (Hsome : forall k, is_Some (sensors (rg_store (sensor_added now id parent input d)) !! k)
    <-> k = (g, s) \/ is_Some (sensors (rg_store d) !! k)).
  { intros k. cbn. fold g s. destruct (decide (k = (g, s))) as [->|Hk].
    - rewrite lookup_insert_eq. naive_solver.
    - rewrite lookup_insert_ne by done. naive_solver. }
  assert (Hname : forall e, e ∈ entities d -> entity_name (view (sensor_added now id parent input d)) e = entity_name (view d) e).
  { intros e He. unfold entity_name. cbn. by rewrite (name_fresh _ _ _ d). }
  assert (Hsn : forall g' s', is_Some (sensors (rg_store d) !! (g', s')) ->
    stored_sensor_name (sensor_added now id parent input d) g' s' = stored_sensor_name d g' s').
  { intros g' s' Hs'. unfold stored_sensor_name, sensor_name. cbn. fold g s. rewrite lookup_insert_ne; [done|].
    intros [= <- <-]. rewrite Hs in Hs'. by destruct Hs'. }
  split.
  - cbn. rewrite fmap_app. by apply NoDup_snoc; [apply ro_ids|].
  - cbn. rewrite fmap_app. by apply NoDup_snoc; [apply ro_urns|].
  - intros e [He| ->]%Hnew; [by apply (ro_not_nil d)|done].
  - intros e [He| ->]%Hnew; cbn; [|by rewrite lookup_insert_eq]. rewrite (name_fresh _ _ _ d) by done.
    by apply (ro_states d).
  - intros i st Hi. cbn in Hi. apply lookup_insert_Some in Hi as [[_ <-]|[_ Hi]]; [done|]. by apply (ro_versions d Hok i).
  - intros i Hi. apply fmap_snoc_elem. cbn in Hi. destruct (decide (i = id)) as [->|Hne]; [by right|left].
    rewrite lookup_insert_ne in Hi by done. by apply (ro_state_of d).
  - intros r [Hr| ->]%Hrel; apply fmap_snoc_elem; [left|by right]. by apply (ro_targets d).
  - intros e [He| ->]%Hnew.
    + rewrite Hname by done. destruct (ro_entities d Hok e He) as [(g' & Hg' & Ht & Hm)|(g' & s' & Hs' & Ht & Hm)].
      * left. by exists g'.
      * right. exists g', s'. rewrite Hsn by done. split; [apply Hsome; by right|done].
    + right. exists g, s. split; [apply Hsome; by left|]. split; [done|].
      unfold entity_name, stored_sensor_name, sensor_name. cbn. by rewrite !lookup_insert_eq.
  - intros g' Hg'. destruct (ro_gateways d Hok g' Hg') as (? & ? & e & He & Ht). split; [done|]. split; [done|].
    exists e. split; [apply Hnew; by left|done].
  - intros g' s' [[= -> ->]|Hs']%Hsome.
    + split; [done|]. split; [done|]. split.
      { unfold stored_sensor_name, sensor_name. cbn. fold g s. by rewrite lookup_insert_eq. }
      exists p, (sensor_entity id g s). split; [apply Hnew; by left|]. split; [apply Hnew; by right|].
      split; [done|]. split; [done|]. apply Hrel. right. by rewrite Hpid.
    + rewrite Hsn by done. destruct (ro_sensors d Hok g' s' Hs') as (Hg' & ? & ? & q & e & Hq & He & ? & ? & ?).
      split; [done|]. split; [done|]. split; [done|]. exists q, e.
      split; [apply Hnew; by left|]. split; [apply Hnew; by left|]. split; [done|]. split; [done|]. apply Hrel. by left.
  - apply (ro_roles d Hok).
  - apply (ro_owner d Hok).
Qed.

(** ** Patched metadata *)

(** The new row of the Gateway and the new name and time of its twin. *)
Definition gateway_patched (time : Z) (id : uuid) (g name : string) (description : option string) d : RegistryDB uuid :=
  let c := rg_columns d in
  set_columns d (mkTwinColumns (<[id := (Some name, time)]> (entity_columns c))
    (<[g := (name, description)]> (gateway_columns c)) (sensor_names c) (relationship_created c)).

Definition sensor_patched (time : Z) (id : uuid) (g s name : string) d : RegistryDB uuid :=
  let c := rg_columns d in
  set_columns d (mkTwinColumns (<[id := (Some name, time)]> (entity_columns c)) (gateway_columns c)
    (<[(g, s) := name]> (sensor_names c)) (relationship_created c)).

Lemma gateway_patched_ok time e g name description d : registry_ok d -> e ∈ entities d -> gateway_twin g e ->
  g ∈ gateways (rg_store d) -> ValidProvisioningName name = true ->
  registry_ok (gateway_patched time (e_id e) g name description d).
Proof.
  intros Hok He Ht Hg Hn. destruct Hok as [Hids Hurns Hnil Hst Hver Hso Htg Hent Hgw Hsn Hro How].
  assert (Hname : forall e', e' ∈ entities d ->
    entity_name (view (gateway_patched time (e_id e) g name description d)) e'
    = if decide (e' = e) then Some name else entity_name (view d) e').
  { intros e' He'. unfold entity_name. cbn. destruct (decide (e' = e)) as [->|Hne]; [by rewrite lookup_insert_eq|].
    rewrite lookup_insert_ne; [done|]. intros Heq. apply Hne. by apply (same_key e_id d). }
  assert (Hgn : forall g', stored_gateway_name (gateway_patched time (e_id e) g name description d) g'
    = if decide (g' = g) then name else stored_gateway_name d g').
  { intros g'. unfold stored_gateway_name, gateway_name. cbn. destruct (decide (g' = g)) as [->|Hne].
    - by rewrite lookup_insert_eq.
    - by rewrite lookup_insert_ne. }
  split; try done.
  - intros e' He'. rewrite Hname by done. destruct (Hent e' He') as [(g' & Hg' & Ht' & Hm)|(g' & s' & Hs' & Ht' & Hm)].
    + left. exists g'. rewrite Hgn. split; [done|]. split; [done|]. destruct (decide (e' = e)) as [->|Hne].
      * destruct Ht as (_ & _ & Ht), Ht' as (_ & _ & Ht'). rewrite Ht' in Ht. injection Ht as ->. by rewrite decide_True.
      * rewrite decide_False; [done|]. intros ->. apply Hne. apply (same_key e_entity_id d); [done..|].
        destruct Ht as [-> _], Ht' as [-> _]. done.
    + right. exists g', s'. split; [done|]. split; [done|]. rewrite decide_False; [done|]. intros ->.
      destruct Ht as (_ & Ht & _), Ht' as (_ & Ht' & _). by rewrite Ht' in Ht.
  - intros g' Hg'. destruct (Hgw g' Hg') as (? & ? & ?). split; [done|]. rewrite Hgn. by destruct (decide _).
Qed.

Lemma sensor_patched_ok time e g s name d : registry_ok d -> e ∈ entities d -> sensor_twin g s e ->
  is_Some (sensors (rg_store d) !! (g, s)) -> ValidProvisioningName name = true ->
  registry_ok (sensor_patched time (e_id e) g s name d).
Proof.
  intros Hok He Ht Hs Hn. destruct Hok as [Hids Hurns Hnil Hst Hver Hso Htg Hent Hgw Hsn Hro How].
  assert (Hname : forall e', e' ∈ entities d -> entity_name (view (sensor_patched time (e_id e) g s name d)) e'
    = if decide (e' = e) then Some name else entity_name (view d) e').
  { intros e' He'. unfold entity_name. cbn. destruct (decide (e' = e)) as [->|Hne]; [by rewrite lookup_insert_eq|].
    rewrite lookup_insert_ne; [done|]. intros Heq. apply Hne. by apply (same_key e_id d). }
  assert (Hnn : forall g' s', stored_sensor_name (sensor_patched time (e_id e) g s name d) g' s'
    = if decide ((g', s') = (g, s)) then name else stored_sensor_name d g' s').
  { intros g' s'. unfold stored_sensor_name, sensor_name. cbn. destruct (decide _) as [->|Hne].
    - by rewrite lookup_insert_eq.
    - by rewrite lookup_insert_ne. }
  split; try done.
  - intros e' He'. rewrite Hname by done. destruct (Hent e' He') as [(g' & Hg' & Ht' & Hm)|(g' & s' & Hs' & Ht' & Hm)].
    + left. exists g'. split; [done|]. split; [done|]. rewrite decide_False; [done|]. intros ->.
      destruct Ht as (_ & Ht & _), Ht' as (_ & Ht' & _). by rewrite Ht' in Ht.
    + right. exists g', s'. rewrite Hnn. split; [done|]. split; [done|]. destruct (decide (e' = e)) as [->|Hne].
      * rewrite decide_True; [done|]. destruct Ht as (Hu & _), Ht' as (Hu' & _). rewrite Hu' in Hu.
        destruct (Hsn g s Hs) as (Hg & _), (Hsn g' s' Hs') as (Hg' & _).
        apply sensor_urn_inj in Hu as [-> ->]; [done|by apply Hgw..].
      * rewrite decide_False; [done|]. intros [= -> ->]. apply Hne. apply (same_key e_entity_id d); [done..|].
        destruct Ht as [-> _], Ht' as [-> _]. done.
  - intros g' s' Hs'. destruct (Hsn g' s' Hs') as (? & ? & ? & ?). split; [done|]. split; [done|].
    rewrite Hnn. by destruct (decide _).
Qed.

(** What telemetry writes leaves the graph alone. *)
Lemma store_changed_ok d (s : DB uuid) : gateways s = gateways (rg_store d) -> sensors s = sensors (rg_store d) ->
  twin_entities s = entities d -> twin_relationships s = relationships d ->
  (forall id, is_Some (twin_states s !! id) <-> is_Some (states d !! id)) ->
  (forall id st, twin_states s !! id = Some st -> 0 <= st_reported_version st) ->
  registry_ok d -> registry_ok (set_store d s).
Proof.
  intros Hg Hs He Hr Hst Hver' [Hids Hurns Hnil Hst0 Hver Hso Htg Hent Hgw Hsn Hro How].
  split; unfold entities, relationships, states in *; cbn; rewrite ?Hg, ?Hs, ?He, ?Hr; try done.
  - intros e He'. apply Hst. by apply Hst0.
  - intros id Hi. apply Hso. by apply Hst.
Qed.

End invariant.
