(* ===== verification/ProvisionSpec.v ===== *)
(** * What provisioning does

    Every way a provisioning call can end: a new graph, an exact replay that
    changes nothing, or an error that leaves the tables alone unless the commit
    itself was unconfirmed; and the outcome decided by the tables when the
    database answers. *)

From S2P Require Import Prelude GoStrings GoTime GoFloat GoJson Uuid Identity Urn Telemetry Txn Store Persist.
From S2P Require Import HistoryQuery HistoryStore TwinModel TwinStore Registry Provision Patch RegistryInv.
#[local] Open Scope Z_scope.

Section provisioning_spec.
Context {uuid : Type} `{U : UuidLib uuid}.
Implicit Types (d : RegistryDB uuid) (w : WriteWorld uuid) (actor : uuid).

(** ** Statements *)

Lemma on_error_ok {A} f (m : RTx uuid A) d rs r : on_error f m d rs = Ok r -> m d rs = Ok r.
Proof. unfold on_error. by destruct (m d rs). Qed.

Lemma is_admin_ok actor f d rs b d' rs' : on_error f (IsPlatformAdmin actor) d rs = Ok (b, d', rs') ->
  b = bool_decide (actor ∈ rg_admins d) /\ d' = d.
Proof.
  intros H. apply on_error_ok in H. unfold IsPlatformAdmin in H. apply read_row_ok in H as [H ->].
  by injection H as <-.
Qed.

(** The value of a body that ends by returning one, without unfolding it. *)
Lemma tx_ret_ok {DB A} (a a' : A) (d d' : DB) rs rs' : (tx_ret a : Transaction herror DB A) d rs = Ok (a', d', rs') -> a' = a /\ d' = d.
Proof. unfold tx_ret. intros H. by injection H as <- <- _. Qed.

(** What ends a transaction: its commit, its error, or an unconfirmed commit. *)
Definition unconfirmed w (e : herror) (commit_err : herror -> herror) : Prop :=
  exists cause, ww_commit w = CommitError cause true /\ e = commit_err cause.

Lemma with_tx_outcome {DB A} begin_err commit_err w (body : Transaction herror DB A) (d : DB) r (d' : DB) :
  with_tx begin_err commit_err w body d = (r, d') ->
  match r with
  | Ok a => exists rs, body d (ww_calls w) = Ok (a, d', rs)
  | Err e => d' = d \/ unconfirmed w e commit_err /\ exists a rs, body d (ww_calls w) = Ok (a, d', rs)
  end.
Proof.
  unfold with_tx, unconfirmed. destruct (ww_begin w); [|intros H; injection H as <- <-; by left].
  destruct (body d (ww_calls w)) as [[[a working] rs]|e] eqn:E; [|intros H; injection H as <- <-; by left].
  destruct (ww_commit w) as [|cause durable].
  - intros H. injection H as <- <-. by exists rs.
  - destruct durable; intros H; injection H as <- <-; [|by left]. right. split; [by exists cause|by exists a, rs].
Qed.

(** A database that answers, in a world whose new identifier is new. *)
Definition answering w : Prop := ww_begin w = Works /\ ww_calls w = [] /\ ww_commit w = CommitOk.

Lemma with_tx_answering {DB A} begin_err commit_err w (body : Transaction herror DB A) (d : DB) : answering w ->
  with_tx begin_err commit_err w body d =
    match body d [] with Ok (a, d', _) => (Ok a, d') | Err e => (Err e, d) end.
Proof. intros (Hb & Hc & Hco). unfold with_tx. rewrite Hb, Hc. destruct (body d []) as [[[a d'] rs]|]; by rewrite ?Hco. Qed.

(** ** Gateways *)

Definition gateway_result (created : bool) (input : ProvisionGatewayInput uuid) (created_at : option Z)
    : ProvisionGatewayResult uuid :=
  mkGatewayResult created (pg_GatewayID input) (pg_Name input) (pg_Description input) (pg_OwnerUserID input)
    (GatewayEntityID (pg_GatewayID input)) created_at.

(** A completed call: an administrator created the graph of a new Gateway for a
    known user, or the Gateway was there just so. *)
Inductive gateway_done w actor (input : ProvisionGatewayInput uuid) d
    : ProvisionGatewayResult uuid -> RegistryDB uuid -> Prop :=
| gateway_created : actor ∈ rg_admins d -> pg_OwnerUserID input ∈ rg_profiles d ->
    pg_GatewayID input ∉ gateways (rg_store d) ->
    ww_new_id w ∉ e_id <$> entities d -> GatewayEntityID (pg_GatewayID input) ∉ e_entity_id <$> entities d ->
    gateway_done w actor input d (gateway_result true input (Some (ww_now w)))
      (gateway_added (ww_now w) (ww_new_id w) input d)
| gateway_replayed created_at : actor ∈ rg_admins d -> pg_OwnerUserID input ∈ rg_profiles d ->
    gateway_row (pg_GatewayID input) d = Some (pg_Name input, pg_Description input, created_at) ->
    owners_query (pg_GatewayID input) (pg_OwnerUserID input) d = (1, 1) ->
    gateway_graph_valid (GatewayEntityID (pg_GatewayID input)) (pg_GatewayID input) (pg_Name input) d = true ->
    gateway_done w actor input d (gateway_result false input created_at) d.

Lemma verifyGatewayRetry_ok (input : ProvisionGatewayInput uuid) urn d rs created_at d' rs' :
  verifyGatewayRetry input urn d rs = Ok (created_at, d', rs') ->
  d' = d /\ gateway_row (pg_GatewayID input) d = Some (pg_Name input, pg_Description input, created_at)
  /\ owners_query (pg_GatewayID input) (pg_OwnerUserID input) d = (1, 1)
  /\ gateway_graph_valid urn (pg_GatewayID input) (pg_Name input) d = true.
Proof.
  unfold verifyGatewayRetry. intros H. step_row H. destruct a as [[name desc] cr]. unfold gateway_query in E.
  destruct (gateway_row _ d) as [row|] eqn:Hrow; [|done]. injection E as ->.
  rewrite sameNullableString_spec in H.
  destruct (_ || _) eqn:Hc; [done|]. rewrite orb_false_iff, !negb_false_iff, !bool_decide_eq_true in Hc.
  destruct Hc as [-> ->]. step_row H. destruct a as [o m].
  assert (owners_query (pg_GatewayID input) (pg_OwnerUserID input) d = (o, m)) as Hq by congruence. clear E.
  destruct ((o =? 0) || (1 <? o)) eqn:Ho; [done|]. destruct (negb (m =? 1)) eqn:Hm; [done|].
  step_row H. injection E as E. destruct a; [|done]. injection H as <- <- _. gobool.
  assert (0 <= o) by (unfold owners_query in Hq; injection Hq as <- _; lia).
  replace o with 1 in Hq by lia. by replace m with 1 in Hq by lia.
Qed.

Lemma insert_state_ok now id d n d' : insert_state now id d = Ok (n, d') ->
  let s := rg_store d in
  d' = set_store d (with_graph s (gateways s) (sensors s) (twin_entities s) (twin_relationships s)
                      (<[id := new_state now]> (twin_states s))).
Proof. unfold insert_state. cbn zeta. case_bool_decide; [done|]. destruct (negb _); [done|]. by injection 1. Qed.

Lemma insert_entity_ok conflict now id urn type name g d i d' : insert_entity conflict now id urn type name g d = Ok (i, d') ->
  i = id /\ id ∉ e_id <$> entities d /\ urn ∉ e_entity_id <$> entities d
  /\ let s := rg_store d in let c := rg_columns d in
     d' = set_columns (set_store d
            (with_graph s (gateways s) (sensors s) (twin_entities s ++ [mkTwinEntity id urn type (Some g)])
               (twin_relationships s) (twin_states s)))
            (mkTwinColumns (<[id := (Some name, now)]> (entity_columns c)) (gateway_columns c) (sensor_names c)
               (relationship_created c)).
Proof.
  unfold insert_entity. destruct (entity_conflict _ _ _) eqn:E; [done|]. apply entity_conflict_fresh in E as [? ?].
  destruct (negb _); [done|]. intros Hx. by injection Hx as <- <-.
Qed.

Lemma insert_member_ok user g role d n d' : insert_member user g role d = Ok (n, d') ->
  d' = mkRegistry (rg_store d) (rg_columns d) (<[(user, g) := role]> (rg_roles d)) (rg_profiles d) (rg_admins d)
         (rg_gateway_created d) (rg_sensor_created d).
Proof.
  unfold insert_member. destruct (negb _); [done|]. case_bool_decide; [done|]. destruct (_ || _); [done|]. by injection 1.
Qed.

Lemma insert_hasSensor_ok now src tgt d n d' : insert_hasSensor now src tgt d = Ok (n, d') ->
  let s := rg_store d in let c := rg_columns d in
  d' = set_columns (set_store d (with_graph s (gateways s) (sensors s) (twin_entities s)
                                   (twin_relationships s ++ [hasSensor_rel src tgt]) (twin_states s)))
         (mkTwinColumns (entity_columns c) (gateway_columns c) (sensor_names c)
            (<[(src, tgt) := now]> (relationship_created c))).
Proof. unfold insert_hasSensor. cbn zeta. destruct (existsb _ _); [done|]. destruct (_ || _); [done|]. by injection 1. Qed.

Lemma insert_gateway_ok now g name desc d r : insert_gateway now g name desc d = Ok r -> g ∉ gateways (rg_store d).
Proof. unfold insert_gateway. destruct (negb _); [done|]. by case_bool_decide. Qed.

Lemma provision_gateway_ok w actor (input : ProvisionGatewayInput uuid) d rs r d' rs' :
  provision_gateway_body w actor input d rs = Ok (r, d', rs') -> gateway_done w actor input d r d'.
Proof.
  unfold provision_gateway_body. intros H. step_ok H. apply is_admin_ok in E as [-> ->].
  case_bool_decide as Ha; [|done]. step_row H. unfold profile_query in E. case_bool_decide as Ho; [|done].
  injection E as <-. step_ok H. apply attempt_ok in E. destruct a as [created_at|e].
  2:{ subst d0. destruct (is_cause ErrNoRows e); [|done]. step_ok H. apply verifyGatewayRetry_ok in E as (-> & Hr & Hq & Hv).
      injection H as <- <- _. by apply gateway_replayed. }
  pose proof (insert_gateway_ok _ _ _ _ _ _ E) as Hg.
  step_ok H. apply call_checked_ok, insert_member_ok in E0. step_ok H.
  apply call_checked_ok, insert_entity_ok in E1 as (-> & Hid & Hurn & ->).
  step_ok H. apply call_checked_ok, insert_state_ok in E1. injection H as <- <- _.
  unfold insert_gateway in E. destruct (negb _); [done|]. destruct (bool_decide _); [done|]. injection E as <- <-.
  subst. by apply gateway_created.
Qed.

(** Whatever the database answers. *)
Lemma ProvisionGateway_outcome w actor (input : ProvisionGatewayInput uuid) d r d' :
  ProvisionGateway w actor input d = (r, d') ->
  match r with
  | Ok a => ValidateProvisionGatewayInput actor input = None /\ gateway_done w actor input d a d'
  | Err e => d' = d \/ ValidateProvisionGatewayInput actor input = None
      /\ unconfirmed w e (fun err => HText "commit Gateway provisioning" (classifyGatewayProvisioningError err))
      /\ exists a, gateway_done w actor input d a d'
  end.
Proof.
  unfold ProvisionGateway. destruct (ValidateProvisionGatewayInput actor input) as [err|] eqn:Hv.
  { intros H. injection H as <- <-. by left. }
  intros H%with_tx_outcome. destruct r as [a|e].
  - destruct H as (rs & H). split; [done|]. by apply provision_gateway_ok in H.
  - destruct H as [->|(Hu & a & rs & H)]; [by left|right]. split; [done|]. split; [done|]. exists a.
    by apply provision_gateway_ok in H.
Qed.

(** ** Sensors *)

Definition sensor_result (created : bool) (input : ProvisionSensorInput) (created_at : option Z) : ProvisionSensorResult :=
  mkSensorResult created (ps_GatewayID input) (ps_SensorID input) (ps_Name input) (ps_Unit input)
    (SensorEntityID (ps_GatewayID input) (ps_SensorID input)) created_at.

(** The twin of the Gateway as the transaction found it. *)
Definition parent_found (g : string) (parent : uuid) d : Prop :=
  exists name description created_at, gateway_row g d = Some (name, description, created_at)
    /\ parent_twin_query (GatewayEntityID g) g name d = Ok parent.

Inductive sensor_done w (input : ProvisionSensorInput) d : ProvisionSensorResult -> RegistryDB uuid -> Prop :=
| sensor_created parent : parent_found (ps_GatewayID input) parent d ->
    sensors (rg_store d) !! (ps_GatewayID input, ps_SensorID input) = None ->
    ww_new_id w ∉ e_id <$> entities d ->
    SensorEntityID (ps_GatewayID input) (ps_SensorID input) ∉ e_entity_id <$> entities d ->
    sensor_done w input d (sensor_result true input (Some (ww_now w)))
      (sensor_added (ww_now w) (ww_new_id w) parent input d)
| sensor_replayed parent created_at : parent_found (ps_GatewayID input) parent d ->
    sensor_row (ps_GatewayID input) (ps_SensorID input) d = Some (ps_Name input, ps_Unit input, created_at) ->
    sensor_graph_valid (SensorEntityID (ps_GatewayID input) (ps_SensorID input)) (ps_GatewayID input) (ps_Name input)
      parent d = true ->
    sensor_done w input d (sensor_result false input created_at) d.

Lemma verifySensorRetry_ok parent (input : ProvisionSensorInput) urn d rs created_at d' rs' :
  verifySensorRetry parent input urn d rs = Ok (created_at, d', rs') ->
  d' = d /\ sensor_row (ps_GatewayID input) (ps_SensorID input) d = Some (ps_Name input, ps_Unit input, created_at)
  /\ sensor_graph_valid urn (ps_GatewayID input) (ps_Name input) parent d = true.
Proof.
  unfold verifySensorRetry. intros H. step_row H. destruct a as [[name unit] cr]. unfold sensor_query in E.
  destruct (sensor_row _ _ d) as [row|] eqn:Hrow; [|done]. injection E as ->.
  rewrite sameNullableString_spec in H.
  destruct (_ || _) eqn:Hc; [done|]. rewrite orb_false_iff, !negb_false_iff, !bool_decide_eq_true in Hc.
  destruct Hc as [-> ->]. step_row H. injection E as E. destruct a; [|done]. by injection H as <- <- _.
Qed.

Lemma insert_sensor_ok now g s name unit d c d' : insert_sensor now g s name unit d = Ok (c, d') ->
  c = Some now /\ sensors (rg_store d) !! (g, s) = None
  /\ let t := rg_store d in let cs := rg_columns d in
     d' = mkRegistry (with_graph t (gateways t) (<[(g, s) := unit]> (sensors t)) (twin_entities t)
                        (twin_relationships t) (twin_states t))
            (mkTwinColumns (entity_columns cs) (gateway_columns cs) (<[(g, s) := name]> (sensor_names cs))
               (relationship_created cs))
            (rg_roles d) (rg_profiles d) (rg_admins d) (rg_gateway_created d)
            (<[(g, s) := now]> (rg_sensor_created d)).
Proof.
  unfold insert_sensor. cbn zeta. destruct (negb _); [done|]. case_bool_decide as Hs; [done|].
  destruct (negb _); [done|]. intros Hx. injection Hx as <- <-. split; [done|]. split; [|done]. by apply eq_None_not_Some.
Qed.

Lemma execute_graph_ok w (input : ProvisionSensorInput) name description created d rs r d' rs' :
  gateway_row (ps_GatewayID input) d = Some (name, description, created) ->
  executeSensorGraphProvisioning w input name d rs = Ok (r, d', rs') -> sensor_done w input d r d'.
Proof.
  intros Hrow H. unfold executeSensorGraphProvisioning in H. step_row H. rename a into parent, E into Hpq.
  assert (parent_found (ps_GatewayID input) parent d) as Hp by (exists name, description, created; done).
  step_ok H. apply attempt_ok in E. destruct a as [created_at|e].
  2:{ subst d0. destruct (is_cause ErrNoRows e); [|done]. step_ok H. apply verifySensorRetry_ok in E as (-> & Hr & Hv).
      injection H as <- <- _. by apply (sensor_replayed _ _ _ parent). }
  apply insert_sensor_ok in E as (-> & Hs & ->).
  step_ok H. apply call_checked_ok, insert_entity_ok in E as (-> & Hid & Hurn & ->).
  step_ok H. apply call_checked_ok, insert_state_ok in E. subst.
  step_ok H. apply call_checked_ok, insert_hasSensor_ok in E. subst. apply tx_ret_ok in H as [-> ->]. by apply (sensor_created w input d parent).
Qed.

Lemma lock_parent_ok wrap g d rs name d' rs' : lock_parent wrap g d rs = Ok (name, d', rs') ->
  d' = d /\ exists description created, gateway_row g d = Some (name, description, created).
Proof.
  unfold lock_parent. intros H. step_row H. destruct a as [[n desc] c]. unfold gateway_query in E.
  destruct (gateway_row g d) as [row|]; [|done]. injection E as ->. injection H as <- <- _. by split; [|exists desc, c].
Qed.

Lemma require_owner_ok wrap actor g d rs u d' rs' : require_owner wrap actor g d rs = Ok (u, d', rs') ->
  d' = d /\ rg_roles d !! (actor, g) = Some "owner".
Proof.
  unfold require_owner. intros H. step_row H. unfold role_query in E. destruct (rg_roles d !! _) as [role|]; [|done].
  injection E as ->. case_bool_decide as Hr; [|done]. injection H as _ <- _. by subst.
Qed.

(** Who a variant of Sensor provisioning lets through. *)
Definition is_platform_admin actor (g : string) d : Prop := actor ∈ rg_admins d.
Definition is_owner actor (g : string) d : Prop := rg_roles d !! (actor, g) = Some "owner".
Definition is_admin_or_owner actor (g : string) d : Prop := is_platform_admin actor g d \/ is_owner actor g d.

Lemma provision_sensor_ok w actor (input : ProvisionSensorInput) d rs r d' rs' :
  provision_sensor_body w actor input d rs = Ok (r, d', rs') ->
  is_platform_admin actor (ps_GatewayID input) d /\ sensor_done w input d r d'.
Proof.
  unfold provision_sensor_body. intros H. step_ok H. apply is_admin_ok in E as [-> ->].
  case_bool_decide as Ha; [|done]. step_ok H. apply lock_parent_ok in E as (-> & desc & c & Hrow).
  split; [done|]. by eapply execute_graph_ok.
Qed.

Lemma provision_owner_ok w actor (input : ProvisionSensorInput) d rs r d' rs' :
  provision_sensor_for_owner_body w actor input d rs = Ok (r, d', rs') ->
  is_owner actor (ps_GatewayID input) d /\ sensor_done w input d r d'.
Proof.
  unfold provision_sensor_for_owner_body. intros H. step_ok H. apply lock_parent_ok in E as (-> & desc & c & Hrow).
  step_ok H. apply require_owner_ok in E as [-> Ho]. apply on_error_ok in H. split; [done|]. by eapply execute_graph_ok.
Qed.

Lemma provision_admin_or_owner_ok w actor (input : ProvisionSensorInput) d rs r d' rs' :
  provision_sensor_for_admin_or_owner_body w actor input d rs = Ok (r, d', rs') ->
  is_admin_or_owner actor (ps_GatewayID input) d /\ sensor_done w input d r d'.
Proof.
  unfold provision_sensor_for_admin_or_owner_body. intros H. step_ok H. apply is_admin_ok in E as [-> ->].
  step_ok H. apply lock_parent_ok in E as (-> & desc & c & Hrow). step_ok H.
  assert (d0 = d /\ is_admin_or_owner actor (ps_GatewayID input) d) as [-> Hauth].
  { case_bool_decide as Ha; cbn [negb] in E.
    - injection E as _ <- _. split; [done|by left].
    - apply require_owner_ok in E as [-> Ho]. split; [done|by right]. }
  apply on_error_ok in H. split; [done|]. by eapply execute_graph_ok.
Qed.

(** A Sensor transaction whose body lets only [auth] through. *)
Lemma sensor_tx_outcome begin_err commit_err (body : RTx uuid ProvisionSensorResult) (auth : Prop) w
    (input : ProvisionSensorInput) d r d' :
  (forall a d1 rs, body d (ww_calls w) = Ok (a, d1, rs) -> auth /\ sensor_done w input d a d1) ->
  with_tx begin_err commit_err w body d = (r, d') ->
  match r with
  | Ok a => auth /\ sensor_done w input d a d'
  | Err e => d' = d \/ unconfirmed w e commit_err /\ auth /\ exists a, sensor_done w input d a d'
  end.
Proof.
  intros Hb H%with_tx_outcome. destruct r as [a|e].
  - destruct H as (rs & H). by apply Hb in H.
  - destruct H as [->|(Hu & a & rs & H)]; [by left|right]. apply Hb in H as [Ha H]. split; [done|]. split; [done|by exists a].
Qed.

End provisioning_spec.

(** * What a metadata patch does

    A patch of an authorised actor writes the new name to the row and to its
    twin in one transaction, or finds nothing to change; any error leaves the
    tables alone unless the commit itself was unconfirmed. *)

Section patch_spec.
Context {uuid : Type} `{U : UuidLib uuid}.
Implicit Types (d : RegistryDB uuid) (w : WriteWorld uuid) (actor : uuid) (e : TwinEntity uuid).

(** The row after the patch. *)
Definition patched_name (input : PatchGatewayInput) (name : string) : string := default name (pgi_Name input).
Definition patched_description (input : PatchGatewayInput) (description : option string) : option string :=
  if pgi_DescriptionSet input then pgi_Description input else description.

Definition patch_gateway_result (g name : string) (description : option string) (updated_at : Z) : PatchGatewayResult :=
  mkPatchGatewayResult (GatewayEntityID g) EntityTypeGateway g name description updated_at.
Definition patch_sensor_result (g s name : string) (unit : option string) (updated_at : Z) : PatchSensorResult :=
  mkPatchSensorResult (SensorEntityID g s) EntityTypeSensor g s name unit updated_at.

(** A completed patch of a Gateway whose twin [e] is sound. *)
Inductive gateway_patch_done w actor (g : string) (input : PatchGatewayInput) d
    : PatchGatewayResult -> RegistryDB uuid -> Prop :=
| gateway_patch_noop name description created e : is_platform_admin actor g d ->
    gateway_row g d = Some (name, description, created) -> e ∈ entities d -> gateway_twin g e ->
    entity_name (view d) e = Some name ->
    patched_name input name = name -> patched_description input description = description ->
    gateway_patch_done w actor g input d (patch_gateway_result g name description (entity_updated_at (view d) e)) d
| gateway_patch_changed name description created e : is_platform_admin actor g d ->
    gateway_row g d = Some (name, description, created) -> e ∈ entities d -> gateway_twin g e ->
    entity_name (view d) e = Some name ->
    (patched_name input name <> name \/ patched_description input description <> description) ->
    let name' := patched_name input name in let description' := patched_description input description in
    gateway_patch_done w actor g input d (patch_gateway_result g name' description' (ww_statement w))
      (gateway_patched (ww_statement w) (e_id e) g name' description' d).

Inductive sensor_patch_done w actor (g s name' : string) d : PatchSensorResult -> RegistryDB uuid -> Prop :=
| sensor_patch_noop unit created e : is_admin_or_owner actor g d ->
    sensor_row g s d = Some (name', unit, created) -> e ∈ entities d -> sensor_twin g s e ->
    entity_name (view d) e = Some name' ->
    sensor_patch_done w actor g s name' d (patch_sensor_result g s name' unit (entity_updated_at (view d) e)) d
| sensor_patch_changed name unit created e : is_admin_or_owner actor g d ->
    sensor_row g s d = Some (name, unit, created) -> e ∈ entities d -> sensor_twin g s e ->
    entity_name (view d) e = Some name -> name' <> name ->
    sensor_patch_done w actor g s name' d (patch_sensor_result g s name' unit (ww_statement w))
      (sensor_patched (ww_statement w) (e_id e) g s name' d).

Lemma first_row_elem {A} (rows : list A) r : first_row rows = Ok r -> r ∈ rows.
Proof. destruct rows as [|x rows]; [done|]. intros Hx. injection Hx as ->. by left. Qed.

Lemma entities_named_elem urn type g d e : e ∈ entities_named urn type g d <->
  e ∈ entities d /\ e_entity_id e = urn /\ e_entity_type e = type /\ e_gateway_id e = Some g.
Proof. unfold entities_named. rewrite list_elem_of_filter. naive_solver. Qed.

Lemma gateway_twin_query_ok g d id name time st n : gateway_twin_query (GatewayEntityID g) g d = Ok (id, name, time, st, n) ->
  exists e, e ∈ entities d /\ gateway_twin g e /\ id = e_id e /\ entity_name (view d) e = Some name
    /\ time = entity_updated_at (view d) e /\ st = has_state d e /\ n = gateway_twins g d.
Proof.
  unfold gateway_twin_query. destruct (first_row _) as [e|] eqn:E; [|done].
  apply first_row_elem, entities_named_elem in E as (He & Ht). cbn [mbind res_bind]. unfold scan_name.
  destruct (entity_name (view d) e) as [nm|] eqn:En; [|done]. intros Hx. injection Hx as <- <- <- <- <-. by exists e.
Qed.

Lemma sensor_twin_query_ok g s parent d id name time st r :
  sensor_twin_query (SensorEntityID g s) g parent d = Ok (id, name, time, st, r) ->
  exists e, e ∈ entities d /\ sensor_twin g s e /\ id = e_id e /\ entity_name (view d) e = Some name
    /\ time = entity_updated_at (view d) e /\ st = has_state d e /\ r = has_relationship parent d e.
Proof.
  unfold sensor_twin_query. destruct (first_row _) as [e|] eqn:E; [|done].
  apply first_row_elem, entities_named_elem in E as (He & Ht). cbn [mbind res_bind]. unfold scan_name.
  destruct (entity_name (view d) e) as [nm|] eqn:En; [|done]. intros Hx. injection Hx as <- <- <- <- <-. by exists e.
Qed.

Lemma update_gateway_ok g name description d name0 description0 created : 
  gateway_row g d = Some (name0, description0, created) ->
  let c := rg_columns d in
  (update_gateway g name description d).2 = set_columns d (mkTwinColumns (entity_columns c)
    (<[g := (default name0 name, default description0 description)]> (gateway_columns c)) (sensor_names c)
    (relationship_created c)).
Proof. intros Hrow. unfold update_gateway. by rewrite Hrow. Qed.

Lemma update_entity_ok time id name d t d' : update_entity time id name d = Ok (t, d') ->
  let c := rg_columns d in
  t = time /\ d' = set_columns d (mkTwinColumns
    (<[id := (match name with Some n => Some n | None => (default (None, 0) (entity_columns c !! id)).1 end, time)]>
       (entity_columns c)) (gateway_columns c) (sensor_names c) (relationship_created c)).
Proof. unfold update_entity. destruct (negb _); [done|]. intros Hx. by injection Hx as <- <-. Qed.

Lemma patch_gateway_ok w actor g input d rs r d' rs' : patch_gateway_body w actor g input d rs = Ok (r, d', rs') ->
  gateway_patch_done w actor g input d r d'.
Proof.
  unfold patch_gateway_body. intros H. step_ok H. apply is_admin_ok in E as [-> ->].
  case_bool_decide as Ha; [|done]. step_row H. destruct a as [[name desc] created]. unfold gateway_query in E.
  destruct (gateway_row g d) as [row|] eqn:Hrow; [|done]. injection E as ->.
  step_row H. destruct a as [[[[id tname] time] st] n].
  apply gateway_twin_query_ok in E as (e & He & Ht & -> & Hname & -> & _ & _).
  destruct (_ || _ || _) eqn:Hc; [done|]. rewrite !orb_false_iff, !negb_false_iff, bool_decide_eq_true in Hc.
  destruct Hc as [_ ->]. cbv zeta in H. rewrite sameNullableString_spec in H.
  change (default name (pgi_Name input)) with (patched_name input name) in H.
  change (if pgi_DescriptionSet input then pgi_Description input else desc) with (patched_description input desc) in H.
  assert (pgi_DescriptionSet input && negb (bool_decide (patched_description input desc = desc))
          = negb (bool_decide (patched_description input desc = desc))) as Hd.
  { unfold patched_description. destruct (pgi_DescriptionSet input); [done|]. by rewrite bool_decide_true. }
  rewrite Hd in H. destruct (bool_decide (patched_name input name = name)) eqn:Hn; gobool;
    destruct (bool_decide (patched_description input desc = desc)) eqn:Hdesc; gobool; cbn [negb orb andb] in H.
  - injection H as <- <- _. by eapply gateway_patch_noop.
  - step_ok H. apply call_ok in E. assert (d0 = (update_gateway g None (Some (patched_description input desc)) d).2)
      as -> by (by rewrite E). rewrite (update_gateway_ok _ _ _ _ _ _ _ Hrow) in H. clear E.
    step_ok H. apply call_checked_ok, update_entity_ok in E as [-> ->]. injection H as <- <- _.
    pose proof (gateway_patch_changed w actor g input d name desc created e Ha Hrow He Ht Hname (or_intror Hdesc)) as Hp.
    unfold entity_name in Hname. cbn in Hname, Hp |- *. rewrite Hname. rewrite !Hn in *. exact Hp.
  - step_ok H. apply call_ok in E. assert (d0 = (update_gateway g (Some (patched_name input name)) None d).2)
      as -> by (by rewrite E). rewrite (update_gateway_ok _ _ _ _ _ _ _ Hrow) in H. clear E.
    step_ok H. apply call_checked_ok, update_entity_ok in E as [-> ->]. injection H as <- <- _.
    pose proof (gateway_patch_changed w actor g input d name desc created e Ha Hrow He Ht Hname (or_introl Hn)) as Hp.
    cbn in Hp |- *. rewrite !Hdesc in *. exact Hp.
  - step_ok H. apply call_ok in E.
    assert (d0 = (update_gateway g (Some (patched_name input name)) (Some (patched_description input desc)) d).2)
      as -> by (by rewrite E). rewrite (update_gateway_ok _ _ _ _ _ _ _ Hrow) in H. clear E.
    step_ok H. apply call_checked_ok, update_entity_ok in E as [-> ->]. injection H as <- <- _.
    exact (gateway_patch_changed w actor g input d name desc created e Ha Hrow He Ht Hname (or_introl Hn)).
Qed.

Lemma patch_sensor_ok w actor g s name' d rs r d' rs' : patch_sensor_body w actor g s name' d rs = Ok (r, d', rs') ->
  sensor_patch_done w actor g s name' d r d'.
Proof.
  unfold patch_sensor_body. intros H. step_ok H. apply is_admin_ok in E as [-> ->].
  step_row H. destruct a as [[parentName desc] created0]. clear E.
  step_ok H. assert (d0 = d /\ is_admin_or_owner actor g d) as [-> Hauth].
  { case_bool_decide as Ha; cbn [negb] in E.
    - injection E as _ <- _. split; [done|by left].
    - step_row E. unfold role_query in E0. destruct (rg_roles d !! _) as [role|] eqn:Hr; [|done]. injection E0 as ->.
      case_bool_decide as Ho; [|done]. injection E as _ <- _. split; [done|]. right. unfold is_owner. by subst. }
  clear E. step_row H. destruct a0 as [[name unit] created]. unfold sensor_query in E.
  destruct (sensor_row g s d) as [row|] eqn:Hrow; [|done]. injection E as ->.
  step_row H. step_row H. destruct a1 as [[[[id tname] time] st] rel].
  apply sensor_twin_query_ok in E0 as (e & He & Ht & -> & Hname & -> & _ & _).
  destruct (_ || _ || _) eqn:Hc; [done|]. rewrite !orb_false_iff, !negb_false_iff, bool_decide_eq_true in Hc.
  destruct Hc as [_ ->]. case_bool_decide as Hn.
  - subst. injection H as <- <- _. by apply (sensor_patch_noop _ _ _ _ _ _ unit created).
  - step_ok H. apply call_ok in E0. unfold update_sensor in E0. rewrite Hrow in E0. injection E0 as _ <-.
    step_ok H. apply call_checked_ok, update_entity_ok in E0 as [-> ->]. injection H as <- <- _.
    exact (sensor_patch_changed w actor g s name' d name unit created e Hauth Hrow He Ht Hname Hn).
Qed.

(** Whatever the database answers. *)
Lemma PatchGatewayMetadata_outcome w actor g input d r d' : PatchGatewayMetadata w actor g input d = (r, d') ->
  match r with
  | Ok a => ValidatePatchGatewayInput input = None /\ gateway_patch_done w actor g input d a d'
  | Err e => d' = d \/ ValidatePatchGatewayInput input = None /\ unconfirmed w e classifyCommitError
      /\ exists a, gateway_patch_done w actor g input d a d'
  end.
Proof.
  unfold PatchGatewayMetadata. intros H.
  destruct (ww_op_ctx w); [injection H as <- <-; by left|].
  destruct (bool_decide (actor = _)); [injection H as <- <-; by left|].
  destruct (bool_decide _); [injection H as <- <-; by left|].
  destruct (ValidatePatchGatewayInput input) as [err|]; [injection H as <- <-; by left|].
  apply with_tx_outcome in H. destruct r as [a|e].
  - destruct H as (rs & H). split; [done|]. by apply patch_gateway_ok in H.
  - destruct H as [->|(Hu & a & rs & H)]; [by left|right]. split; [done|]. split; [done|]. exists a.
    by apply patch_gateway_ok in H.
Qed.

Lemma PatchSensorMetadata_outcome w actor g s input d r d' : PatchSensorMetadata w actor g s input d = (r, d') ->
  match r with
  | Ok a => exists name, psi_Name input = Some name /\ ValidProvisioningName name = true
      /\ sensor_patch_done w actor g s name d a d'
  | Err e => d' = d \/ unconfirmed w e classifyCommitError
      /\ exists a name, psi_Name input = Some name /\ ValidProvisioningName name = true
         /\ sensor_patch_done w actor g s name d a d'
  end.
Proof.
  unfold PatchSensorMetadata. intros H.
  destruct (ww_op_ctx w); [injection H as <- <-; by left|].
  destruct (bool_decide (actor = _)); [injection H as <- <-; by left|].
  destruct (bool_decide _); [injection H as <- <-; by left|].
  destruct (bool_decide _); [injection H as <- <-; by left|].
  destruct (ValidatePatchSensorInput input) as [err|] eqn:Hv; [injection H as <- <-; by left|].
  unfold ValidatePatchSensorInput in Hv. destruct (psi_Name input) as [name|]; [|done].
  destruct (ValidProvisioningName name) eqn:Hn; [|done].
  apply with_tx_outcome in H. destruct r as [a|e].
  - destruct H as (rs & H). exists name. split; [done|]. split; [done|]. by apply patch_sensor_ok in H.
  - destruct H as [->|(Hu & a & rs & H)]; [by left|right]. split; [done|]. exists a, name.
    split; [done|]. split; [done|]. by apply patch_sensor_ok in H.
Qed.

End patch_spec.
