(* ===== verification/ProvisionRun.v ===== *)
(** * Provisioning on a database that answers

    On consistent tables a call that is answered is decided by the tables
    alone: who the actor is, whether the owner or the parent exists, and
    whether the resource is new, just the same, or different. *)

From S2P Require Import Prelude GoStrings GoTime GoFloat GoJson Identity Urn Uuid Telemetry.
From S2P Require Import Txn Store Persist HistoryQuery HistoryStore TwinModel TwinStore Registry Provision Patch.
From S2P Require Import RegistryInv ProvisionSpec.
#[local] Open Scope Z_scope.

(** ** Lists with one element *)

Lemma NoDup_all_eq {A} (l : list A) x : NoDup l -> x ∈ l -> (forall y, y ∈ l -> y = x) -> l = [x].
Proof.
  intros Hnd Hx Hall. destruct l as [|y l]; [by apply elem_of_nil in Hx|].
  assert (y = x) as -> by (apply Hall; by left). f_equal. destruct l as [|z l]; [done|]. exfalso.
  assert (z = x) as -> by (apply Hall; right; by left). apply list.NoDup_cons in Hnd as [Hn _]. apply Hn. by left.
Qed.

Lemma filter_unique {A} (P : A -> Prop) `{!forall x, Decision (P x)} (l : list A) x : NoDup l -> x ∈ l -> P x ->
  (forall y, y ∈ l -> P y -> y = x) -> filter P l = [x].
Proof.
  intros Hnd Hx HP Hall. apply NoDup_all_eq; [by apply list.NoDup_filter|by apply list_elem_of_filter|].
  intros y [HPy Hy]%list_elem_of_filter. by apply Hall.
Qed.

Section provision_run.
Context {uuid : Type} `{U : UuidLib uuid}.
Implicit Types (d : RegistryDB uuid) (w : WriteWorld uuid) (actor : uuid) (e p : TwinEntity uuid).

(** ** Statements on a database that answers *)

Lemma call_checked_run {A} wrap (run : RegistryDB uuid -> res herror (A * RegistryDB uuid)) d :
  call_checked wrap run d [] = match run d with Ok (a, d') => Ok (a, d', []) | Err e => Err (wrap e) end.
Proof. done. Qed.

Lemma attempt_run {A} (run : RegistryDB uuid -> res herror (A * RegistryDB uuid)) d :
  attempt run d [] = match run d with Ok (a, d') => Ok (Ok a, d', []) | Err e => Ok (Err e, d, []) end.
Proof. done. Qed.

Lemma read_row_run {A} wrap (q : RegistryDB uuid -> res herror A) d :
  read_row wrap q d [] = match q d with Ok a => Ok (a, d, []) | Err e => Err (wrap e) end.
Proof. unfold read_row. rewrite call_checked_run. by destruct (q d). Qed.

Lemma is_admin_run f actor d :
  on_error f (IsPlatformAdmin actor) d [] = Ok (bool_decide (actor ∈ rg_admins d), d, []).
Proof. done. Qed.

(** ** The graph of consistent tables *)

Lemma NoDup_entities d : registry_ok d -> NoDup (entities d).
Proof. intros Hok. eapply NoDup_fmap_1. apply (ro_ids d Hok). Qed.

(** An entity of type Gateway below [g] is the twin of [g]. *)
Lemma gateway_entity_unique d g p e : registry_ok d -> p ∈ entities d -> gateway_twin g p -> e ∈ entities d ->
  e_gateway_id e = Some g -> e_entity_type e = "Gateway" -> e = p.
Proof.
  intros Hok Hp (Hpu & _) He Hg Ht. apply (same_key e_entity_id d); [apply (ro_urns d Hok)|done..|].
  destruct (ro_entities d Hok e He) as [(g' & _ & (Hu & _ & Hg') & _)|(g' & s' & _ & (_ & Ht' & _) & _)].
  - rewrite Hg in Hg'. injection Hg' as <-. by rewrite Hu.
  - by rewrite Ht in Ht'.
Qed.

Lemma gateway_twins_one d g p : registry_ok d -> p ∈ entities d -> gateway_twin g p -> gateway_twins g d = 1.
Proof.
  intros Hok Hp Ht. unfold gateway_twins. rewrite (filter_unique _ _ p); [done|by apply NoDup_entities|done| |].
  - by destruct Ht as (_ & ? & ?).
  - intros e He [Hg Hty]. by apply (gateway_entity_unique d g).
Qed.

Lemma named_gateway d g p : registry_ok d -> p ∈ entities d -> gateway_twin g p ->
  entities_named (GatewayEntityID g) "Gateway" g d = [p].
Proof.
  intros Hok Hp Ht. apply filter_unique; [by apply NoDup_entities|done|done|].
  intros e He (_ & Hty & Hg). by apply (gateway_entity_unique d g).
Qed.

Lemma named_sensor d g s e : registry_ok d -> e ∈ entities d -> sensor_twin g s e ->
  entities_named (SensorEntityID g s) "Sensor" g d = [e].
Proof.
  intros Hok He Ht. apply filter_unique; [by apply NoDup_entities|done|done|].
  intros e' He' (Hu & _ & _). apply (same_key e_entity_id d); [apply (ro_urns d Hok)|done..|].
  destruct Ht as [-> _]. done.
Qed.

Lemma gateway_row_some d g : registry_ok d -> g ∈ gateways (rg_store d) ->
  exists description created, gateway_row g d = Some (stored_gateway_name d g, description, created).
Proof.
  intros Hok Hg. unfold gateway_row, stored_gateway_name, gateway_name. rewrite bool_decide_true by done. cbn.
  destruct (default ("", None) (gateway_columns (rg_columns d) !! g)) as [n desc]. by exists desc, (rg_gateway_created d !! g).
Qed.

Lemma gateway_row_in d g row : gateway_row g d = Some row -> g ∈ gateways (rg_store d).
Proof. unfold gateway_row. by case_bool_decide. Qed.

Lemma gateway_row_name d g name description created : gateway_row g d = Some (name, description, created) ->
  name = stored_gateway_name d g.
Proof.
  unfold gateway_row, stored_gateway_name, gateway_name. case_bool_decide; [|done]. cbn.
  destruct (default ("", None) (gateway_columns (rg_columns d) !! g)). by intros [= -> _ _].
Qed.

Lemma sensor_row_in d g s row : sensor_row g s d = Some row -> is_Some (sensors (rg_store d) !! (g, s)).
Proof. unfold sensor_row. by destruct (sensors (rg_store d) !! (g, s)). Qed.

Lemma sensor_row_name d g s name unit created : sensor_row g s d = Some (name, unit, created) ->
  name = stored_sensor_name d g s.
Proof.
  unfold sensor_row, stored_sensor_name, sensor_name. destruct (sensors (rg_store d) !! (g, s)); [|done].
  by intros [= <- _ _].
Qed.

(** The twin of a stored Gateway, with all the code asks of it. *)
Lemma gateway_graph d g : registry_ok d -> g ∈ gateways (rg_store d) -> exists p, p ∈ entities d /\ gateway_twin g p
  /\ has_state d p = true /\ entity_name (view d) p = Some (stored_gateway_name d g).
Proof.
  intros Hok Hg. destruct (ro_gateways d Hok g Hg) as (_ & _ & p & Hp & Ht). exists p. split; [done|]. split; [done|].
  split; [unfold has_state; rewrite bool_decide_true; [done|by apply (ro_states d)]|].
  destruct (ro_entities d Hok p Hp) as [(g' & _ & (_ & _ & Hg') & Hn)|(g' & s' & _ & (_ & Hty & _) & _)].
  - destruct Ht as (_ & _ & Ht). rewrite Ht in Hg'. by injection Hg' as ->.
  - destruct Ht as (_ & Ht & _). by rewrite Ht in Hty.
Qed.

Lemma parent_twin_run d g p name : registry_ok d -> p ∈ entities d -> gateway_twin g p -> has_state d p = true ->
  entity_name (view d) p = Some name -> parent_twin_query (GatewayEntityID g) g name d = Ok (e_id p).
Proof.
  intros Hok Hp Ht Hst Hn. unfold parent_twin_query, gateway_graph_rows. rewrite (named_gateway d g p) by done.
  rewrite filter_cons_True; [done|]. rewrite Hst, (gateway_twins_one d g p) by done. unfold named_as.
  by rewrite bool_decide_true.
Qed.

Lemma gateway_valid_run d g p name : registry_ok d -> p ∈ entities d -> gateway_twin g p -> has_state d p = true ->
  entity_name (view d) p = Some name -> gateway_graph_valid (GatewayEntityID g) g name d = true.
Proof.
  intros Hok Hp Ht Hst Hn. unfold gateway_graph_valid. rewrite (named_gateway d g p) by done. cbn [existsb].
  rewrite Hst, (gateway_twins_one d g p) by done. unfold named_as. by rewrite bool_decide_true.
Qed.

(** A stored Sensor below its Gateway's twin [p]. *)
Lemma sensor_graph d g s p : registry_ok d -> is_Some (sensors (rg_store d) !! (g, s)) -> p ∈ entities d ->
  gateway_twin g p -> exists e, e ∈ entities d /\ sensor_twin g s e /\ has_state d e = true
    /\ has_relationship (e_id p) d e = true /\ entity_name (view d) e = Some (stored_sensor_name d g s).
Proof.
  intros Hok Hs Hp Ht. destruct (ro_sensors d Hok g s Hs) as (Hg & _ & _ & q & e & Hq & He & Hqt & Het & Hrel).
  assert (q = p) as -> by (destruct Hqt as (_ & ? & ?); by apply (gateway_entity_unique d g)).
  exists e. split; [done|]. split; [done|].
  split; [unfold has_state; rewrite bool_decide_true; [done|by apply (ro_states d)]|]. split.
  - unfold has_relationship. apply existsb_exists. exists (hasSensor_rel (e_id p) (e_id e)).
    split; [by apply list_elem_of_In|]. cbn. by rewrite !bool_decide_true.
  - destruct (ro_entities d Hok e He) as [(g' & _ & (_ & Hty & _) & _)|(g' & s' & Hs' & (Hu & _ & _) & Hn)].
    + destruct Het as (_ & Het & _). by rewrite Het in Hty.
    + destruct Het as (Het & _). rewrite Het in Hu. apply sensor_urn_inj in Hu as [-> ->]; [done| |].
      * by apply (ro_gateways d Hok).
      * apply (ro_gateways d Hok). by apply (ro_sensors d Hok) in Hs' as [? _].
Qed.

(** ** Owners *)

Lemma owners_of_elem g d u : u ∈ owners_of g d <-> rg_roles d !! (u, g) = Some "owner".
Proof.
  unfold owners_of. rewrite list_elem_of_fmap. split.
  - intros ([[u' g'] r] & -> & [Hf Hin]%list_elem_of_filter). cbn in Hf |- *. destruct Hf as [-> ->].
    by apply elem_of_map_to_list in Hin.
  - intros Hr. exists ((u, g), "owner"). split; [done|]. apply list_elem_of_filter. split; [done|].
    by apply elem_of_map_to_list.
Qed.

Lemma owners_of_NoDup g d : NoDup (owners_of g d).
Proof.
  unfold owners_of. apply NoDup_fmap_2_strong; [|apply list.NoDup_filter, NoDup_map_to_list].
  intros [[u1 g1] r1] [[u2 g2] r2] [[E1 E1'] _]%list_elem_of_filter [[E2 E2'] _]%list_elem_of_filter.
  cbn in *. by intros ->; subst.
Qed.

Lemma owners_query_run g owner d : registry_ok d -> g ∈ gateways (rg_store d) ->
  owners_query g owner d = (1, if decide (rg_roles d !! (owner, g) = Some "owner") then 1 else 0).
Proof.
  intros Hok Hg. destruct (ro_owner d Hok g Hg) as (u & Hu & Hall).
  assert (owners_of g d = [u]) as E.
  { apply NoDup_all_eq; [apply owners_of_NoDup|by apply owners_of_elem|]. intros y Hy. by apply Hall, owners_of_elem. }
  unfold owners_query. rewrite E. destruct (decide (rg_roles d !! (owner, g) = Some "owner")) as [Ho|Ho].
  - rewrite (Hall owner Ho). by rewrite filter_cons_True.
  - rewrite filter_cons_False; [done|]. by intros ->.
Qed.

(** ** Gateways *)

(** What the tables decide about a checked Gateway input. *)
Definition gateway_decision w actor (input : ProvisionGatewayInput uuid) d
    : res herror (ProvisionGatewayResult uuid) * RegistryDB uuid :=
  let g := pg_GatewayID input in
  if negb (bool_decide (actor ∈ rg_admins d)) then (Err (HGateway ErrProvisioningForbidden), d)
  else if negb (bool_decide (pg_OwnerUserID input ∈ rg_profiles d)) then (Err (HGateway ErrProvisioningNotFound), d)
  else match gateway_row g d with
  | None => (Ok (gateway_result true input (Some (ww_now w))), gateway_added (ww_now w) (ww_new_id w) input d)
  | Some (name, description, created_at) =>
      if decide (name = pg_Name input /\ description = pg_Description input
                 /\ rg_roles d !! (pg_OwnerUserID input, g) = Some "owner")
      then (Ok (gateway_result false input created_at), d)
      else (Err (HGateway ErrProvisioningConflict), d)
  end.

Lemma insert_state_run now id d : states d !! id = None -> id ∈ e_id <$> entities d ->
  insert_state now id d = Ok (1, set_store d
    (with_graph (rg_store d) (gateways (rg_store d)) (sensors (rg_store d)) (twin_entities (rg_store d))
       (twin_relationships (rg_store d)) (<[id := new_state now]> (twin_states (rg_store d))))).
Proof.
  intros Hs Hid. unfold insert_state, states in *. cbn zeta. rewrite Hs, bool_decide_false by (by intros []).
  apply has_entity_spec in Hid. by rewrite Hid.
Qed.

Lemma no_state d id : registry_ok d -> id ∉ e_id <$> entities d -> states d !! id = None.
Proof. intros Hok Hid. apply eq_None_not_Some. intros H. by apply Hid, (ro_state_of d). Qed.

Lemma create_gateway_run w actor (input : ProvisionGatewayInput uuid) d : registry_ok d ->
  ww_new_id w ∉ e_id <$> entities d -> ValidateGatewayID (pg_GatewayID input) = None ->
  actor ∈ rg_admins d -> pg_OwnerUserID input ∈ rg_profiles d -> pg_GatewayID input ∉ gateways (rg_store d) ->
  provision_gateway_body w actor input d []
  = Ok (gateway_result true input (Some (ww_now w)), gateway_added (ww_now w) (ww_new_id w) input d, []).
Proof.
  intros Hok Hid Hv Ha Ho Hg. pose proof (fresh_gateway_urn d _ Hok Hg) as Hurn.
  unfold provision_gateway_body, tx_bind. rewrite is_admin_run, bool_decide_true by done. cbn [negb].
  rewrite read_row_run. unfold profile_query. rewrite bool_decide_true by done.
  rewrite attempt_run. unfold insert_gateway.
  assert (gateway_id_checked (pg_GatewayID input) = true) as ->.
  { unfold gateway_id_checked. rewrite (valid_gateway_pattern _ Hv). unfold ValidateGatewayID in Hv.
    destruct (bool_decide (pg_GatewayID input = "backend_service")); [done|done]. }
  rewrite (bool_decide_false (pg_GatewayID input ∈ _)) by done. cbn [negb].
  rewrite call_checked_run. unfold insert_member. cbn [rg_roles rg_profiles rg_store gateways with_graph].
  rewrite (bool_decide_true ("owner" ∈ _)) by (by left). cbn [negb].
  rewrite (bool_decide_false (is_Some _)) by (intros [r Hr]; by apply (ro_roles d Hok) in Hr).
  rewrite !bool_decide_true by (try done; set_solver). cbn [negb orb].
  rewrite call_checked_run. unfold insert_entity.
  match goal with |- context [entity_conflict ?i ?u ?db] => rewrite (proj2 (entity_conflict_fresh i u db)) by done end.
  cbn [rg_store gateways with_graph]. rewrite bool_decide_true by set_solver. cbn [negb].
  rewrite call_checked_run, insert_state_run; [done| |].
  - by apply (no_state d).
  - apply fmap_snoc_elem. by right.
Qed.

Lemma retry_gateway_run w actor (input : ProvisionGatewayInput uuid) d name description created_at : registry_ok d ->
  ValidateGatewayID (pg_GatewayID input) = None ->
  actor ∈ rg_admins d -> pg_OwnerUserID input ∈ rg_profiles d ->
  gateway_row (pg_GatewayID input) d = Some (name, description, created_at) ->
  provision_gateway_body w actor input d []
  = if decide (name = pg_Name input /\ description = pg_Description input
               /\ rg_roles d !! (pg_OwnerUserID input, pg_GatewayID input) = Some "owner")
    then Ok (gateway_result false input created_at, d, []) else Err (HGateway ErrProvisioningConflict).
Proof.
  intros Hok Hv Ha Ho Hrow. pose proof (gateway_row_in d _ _ Hrow) as Hg.
  pose proof (gateway_row_name d _ _ _ _ Hrow) as Hname.
  unfold provision_gateway_body, tx_bind. rewrite is_admin_run, bool_decide_true by done. cbn [negb].
  rewrite read_row_run. unfold profile_query. rewrite bool_decide_true by done.
  rewrite attempt_run. unfold insert_gateway.
  assert (gateway_id_checked (pg_GatewayID input) = true) as ->.
  { unfold gateway_id_checked. rewrite (valid_gateway_pattern _ Hv). unfold ValidateGatewayID in Hv.
    destruct (bool_decide (pg_GatewayID input = "backend_service")); [done|done]. }
  rewrite (bool_decide_true (pg_GatewayID input ∈ _)) by done. cbn [negb is_cause]. rewrite bool_decide_true by done.
  unfold verifyGatewayRetry, tx_bind. rewrite read_row_run. unfold gateway_query. rewrite Hrow. cbn [or_err].
  rewrite sameNullableString_spec.
  destruct (decide (name = pg_Name input)) as [Hn|Hn];
    [rewrite (bool_decide_true (name = _)) by done|rewrite bool_decide_false by done; by rewrite decide_False by (by intros [? _])].
  destruct (decide (description = pg_Description input)) as [Hd|Hd];
    [rewrite (bool_decide_true (description = _)) by done
    |rewrite bool_decide_false by done; by rewrite decide_False by (by intros (_ & ? & _))].
  cbn [negb orb]. rewrite read_row_run, owners_query_run by done.
  destruct (decide (rg_roles d !! _ = Some "owner")) as [Hr|Hr]; cbn [Z.eqb Z.ltb Z.compare orb negb Pos.eqb Pos.compare Pos.compare_cont];
    [|by rewrite decide_False by (by intros (_ & _ & ?))].
  rewrite read_row_run. destruct (gateway_graph d _ Hok Hg) as (p & Hp & Ht & Hst & Hpn). rewrite <- Hname, Hn in Hpn.
  rewrite (gateway_valid_run d _ p) by done. cbn [negb]. by rewrite decide_True.
Qed.

Lemma ProvisionGateway_run w actor (input : ProvisionGatewayInput uuid) d : registry_ok d -> answering w ->
  ww_new_id w ∉ e_id <$> entities d -> ValidateProvisionGatewayInput actor input = None ->
  ProvisionGateway w actor input d = gateway_decision w actor input d.
Proof.
  intros Hok Hw Hid Hv. unfold ProvisionGateway. rewrite Hv, with_tx_answering by done. unfold gateway_decision.
  assert (ValidateGatewayID (pg_GatewayID input) = None) as Hg.
  { unfold ValidateProvisionGatewayInput in Hv. destruct (_ || _); [done|]. by destruct (ValidateGatewayID _). }
  destruct (decide (actor ∈ rg_admins d)) as [Ha|Ha].
  2:{ unfold provision_gateway_body, tx_bind. by rewrite is_admin_run, bool_decide_false. }
  rewrite (bool_decide_true (actor ∈ _)) by done. cbn [negb].
  destruct (decide (pg_OwnerUserID input ∈ rg_profiles d)) as [Ho|Ho].
  2:{ unfold provision_gateway_body, tx_bind. rewrite is_admin_run, bool_decide_true by done. cbn [negb].
      rewrite read_row_run. unfold profile_query. by rewrite bool_decide_false. }
  rewrite bool_decide_true by done. cbn [negb].
  destruct (gateway_row (pg_GatewayID input) d) as [[[name desc] created]|] eqn:Hrow.
  - rewrite (retry_gateway_run w actor input d name desc created) by done. by destruct (decide _).
  - rewrite create_gateway_run; [done..|]. intros Hin. unfold gateway_row in Hrow. rewrite bool_decide_true in Hrow by done.
    by destruct (default _ _).
Qed.

(** ** Sensors *)

Definition parent_id (g : string) d : uuid :=
  default uuid_Nil (head (e_id <$> entities_named (GatewayEntityID g) "Gateway" g d)).

(** What the tables decide about a checked Sensor input below a Gateway. *)
Definition graph_decision w (input : ProvisionSensorInput) d : res herror ProvisionSensorResult * RegistryDB uuid :=
  let g := ps_GatewayID input in let s := ps_SensorID input in
  match sensor_row g s d with
  | None => (Ok (sensor_result true input (Some (ww_now w))),
             sensor_added (ww_now w) (ww_new_id w) (parent_id g d) input d)
  | Some (name, unit, created_at) =>
      if decide (name = ps_Name input /\ unit = ps_Unit input) then (Ok (sensor_result false input created_at), d)
      else (Err (HGateway ErrProvisioningConflict), d)
  end.

Definition owner_decision w actor (input : ProvisionSensorInput) d
    : res herror ProvisionSensorResult * RegistryDB uuid :=
  match rg_roles d !! (actor, ps_GatewayID input) with
  | None => (Err (HGateway ErrProvisioningNotFound), d)
  | Some role =>
      if decide (role = "owner") then graph_decision w input d else (Err (HGateway ErrProvisioningForbidden), d)
  end.

(** What the three entry points decide. *)
Definition sensor_decision (admins owners : bool) w actor (input : ProvisionSensorInput) d
    : res herror ProvisionSensorResult * RegistryDB uuid :=
  let admin := admins && bool_decide (actor ∈ rg_admins d) in
  if negb owners && negb admin then (Err (HGateway ErrProvisioningForbidden), d)
  else if negb (bool_decide (ps_GatewayID input ∈ gateways (rg_store d)))
  then (Err (HGateway ErrProvisioningNotFound), d)
  else if admin then graph_decision w input d else owner_decision w actor input d.

Lemma create_sensor_run w (input : ProvisionSensorInput) d p name : registry_ok d ->
  ww_new_id w ∉ e_id <$> entities d -> ValidateSensorID (ps_SensorID input) = None ->
  ps_GatewayID input ∈ gateways (rg_store d) -> sensors (rg_store d) !! (ps_GatewayID input, ps_SensorID input) = None ->
  p ∈ entities d -> gateway_twin (ps_GatewayID input) p ->
  parent_twin_query (GatewayEntityID (ps_GatewayID input)) (ps_GatewayID input) name d = Ok (e_id p) ->
  executeSensorGraphProvisioning w input name d []
  = Ok (sensor_result true input (Some (ww_now w)), sensor_added (ww_now w) (ww_new_id w) (e_id p) input d, []).
Proof.
  intros Hok Hid Hv Hg Hs Hp Hpt Hpq. pose proof (fresh_sensor_urn d _ _ Hok Hg Hs) as Hurn.
  unfold executeSensorGraphProvisioning, tx_bind. rewrite read_row_run, Hpq, attempt_run.
  unfold insert_sensor. cbn zeta. rewrite (valid_sensor_pattern _ Hv). cbn [negb].
  rewrite Hs, (bool_decide_false (is_Some None)) by (by intros []). rewrite bool_decide_true by done. cbn [negb].
  rewrite call_checked_run. unfold insert_entity.
  match goal with |- context [entity_conflict ?i ?u ?db] => rewrite (proj2 (entity_conflict_fresh i u db)) by done end.
  cbn [rg_store gateways with_graph]. rewrite bool_decide_true by done. cbn [negb].
  rewrite call_checked_run, insert_state_run; [|by apply (no_state d)|apply fmap_snoc_elem; by right].
  rewrite call_checked_run. unfold insert_hasSensor. cbn zeta.
  match goal with |- context [existsb ?f ?l] => assert (existsb f l = false) as -> end.
  { apply existsb_false. intros r Hr. destruct (bool_decide (rel_target r = ww_new_id w)) eqn:E; [|by rewrite andb_false_r].
    apply bool_decide_eq_true in E. exfalso. apply Hid. rewrite <- E. by apply (ro_targets d). }
  match goal with |- context [has_entity (e_id p) ?db] =>
    rewrite (proj2 (has_entity_spec (e_id p) db)), (proj2 (has_entity_spec (ww_new_id w) db)) end; [done| |].
  - apply fmap_snoc_elem. by right.
  - apply fmap_snoc_elem. left. by apply in_ids.
Qed.

Lemma retry_sensor_run w (input : ProvisionSensorInput) d p pname name unit created_at : registry_ok d ->
  ValidateSensorID (ps_SensorID input) = None ->
  sensor_row (ps_GatewayID input) (ps_SensorID input) d = Some (name, unit, created_at) ->
  p ∈ entities d -> gateway_twin (ps_GatewayID input) p ->
  parent_twin_query (GatewayEntityID (ps_GatewayID input)) (ps_GatewayID input) pname d = Ok (e_id p) ->
  executeSensorGraphProvisioning w input pname d []
  = if decide (name = ps_Name input /\ unit = ps_Unit input)
    then Ok (sensor_result false input created_at, d, []) else Err (HGateway ErrProvisioningConflict).
Proof.
  intros Hok Hv Hrow Hp Hpt Hpq. pose proof (sensor_row_in d _ _ _ Hrow) as Hs.
  pose proof (sensor_row_name d _ _ _ _ _ Hrow) as Hname.
  unfold executeSensorGraphProvisioning, tx_bind. rewrite read_row_run, Hpq, attempt_run.
  unfold insert_sensor. cbn zeta. rewrite (valid_sensor_pattern _ Hv). cbn [negb].
  rewrite bool_decide_true by done. cbn [is_cause]. rewrite bool_decide_true by done.
  unfold verifySensorRetry, tx_bind. rewrite read_row_run. unfold sensor_query. rewrite Hrow. cbn [or_err].
  rewrite sameNullableString_spec.
  destruct (decide (name = ps_Name input)) as [Hn|Hn];
    [rewrite (bool_decide_true (name = _)) by done|rewrite bool_decide_false by done; by rewrite decide_False by (by intros [? _])].
  destruct (decide (unit = ps_Unit input)) as [Hd|Hd];
    [rewrite (bool_decide_true (unit = _)) by done
    |rewrite bool_decide_false by done; by rewrite decide_False by (by intros [_ ?])].
  cbn [negb orb]. rewrite read_row_run.
  destruct (sensor_graph d _ _ p Hok Hs Hp Hpt) as (e & He & Het & Hst & Hrel & Hen). rewrite <- Hname, Hn in Hen.
  unfold sensor_graph_valid. rewrite (named_sensor d _ _ e) by done. cbn [existsb]. rewrite Hst, Hrel. unfold named_as.
  rewrite bool_decide_true by done. cbn [negb orb andb]. by rewrite decide_True.
Qed.

(** The graph statements below a stored Gateway, however their errors are classed. *)
Lemma execute_graph_run classify w (input : ProvisionSensorInput) d name description created : registry_ok d ->
  ww_new_id w ∉ e_id <$> entities d -> ValidateSensorID (ps_SensorID input) = None ->
  gateway_row (ps_GatewayID input) d = Some (name, description, created) ->
  classify (HGateway ErrProvisioningConflict) = HGateway ErrProvisioningConflict ->
  match on_error classify (executeSensorGraphProvisioning w input name) d [] with
  | Ok (a, d', _) => (Ok a, d') | Err e => (Err e, d)
  end = graph_decision w input d.
Proof.
  intros Hok Hid Hv Hrow Hc. pose proof (gateway_row_in d _ _ Hrow) as Hg.
  destruct (gateway_graph d _ Hok Hg) as (p & Hp & Ht & Hst & Hpn).
  rewrite <- (gateway_row_name d _ _ _ _ Hrow) in Hpn.
  pose proof (parent_twin_run d _ p name Hok Hp Ht Hst Hpn) as Hpq.
  assert (parent_id (ps_GatewayID input) d = e_id p) as Hpid by (unfold parent_id; by rewrite (named_gateway d _ p)).
  unfold on_error, graph_decision. rewrite Hpid.
  destruct (sensor_row (ps_GatewayID input) (ps_SensorID input) d) as [[[sname unit] cr]|] eqn:Hs.
  - rewrite (retry_sensor_run w input d p name sname unit cr) by done. destruct (decide _); [done|by rewrite Hc].
  - rewrite (create_sensor_run w input d p) by (try done; unfold sensor_row in Hs; by destruct (sensors _ !! _)). done.
Qed.

Lemma lock_parent_run wrap g d : lock_parent wrap g d [] =
  match gateway_row g d with
  | Some (name, _, _) => Ok (name, d, [])
  | None => Err (HGateway ErrProvisioningNotFound)
  end.
Proof.
  unfold lock_parent, tx_bind. rewrite read_row_run. unfold gateway_query. by destruct (gateway_row g d) as [[[n de] c]|].
Qed.

Lemma require_owner_run wrap actor g d : require_owner wrap actor g d [] =
  match rg_roles d !! (actor, g) with
  | Some role => if decide (role = "owner") then Ok (tt, d, []) else Err (HGateway ErrProvisioningForbidden)
  | None => Err (HGateway ErrProvisioningNotFound)
  end.
Proof.
  unfold require_owner, tx_bind. rewrite read_row_run. unfold role_query.
  destruct (rg_roles d !! (actor, g)) as [role|]; [|done]. cbn [or_err].
  destruct (decide (role = "owner")) as [Hr|Hr]; [by rewrite bool_decide_true|by rewrite bool_decide_false].
Qed.

Lemma gateway_row_none d g : gateway_row g d = None <-> g ∉ gateways (rg_store d).
Proof.
  unfold gateway_row. case_bool_decide as Hg.
  - destruct (default _ _) as [n de]. split; [done|]. by intros [].
  - done.
Qed.

Lemma validated_ids actor (input : ProvisionSensorInput) : ValidateProvisionSensorInput actor input = None ->
  ValidateSensorID (ps_SensorID input) = None.
Proof.
  unfold ValidateProvisionSensorInput. destruct (bool_decide _); [done|]. destruct (ValidateGatewayID _); [done|].
  by destruct (ValidateSensorID _).
Qed.

Lemma ProvisionSensor_run w actor (input : ProvisionSensorInput) d : registry_ok d -> answering w ->
  ww_new_id w ∉ e_id <$> entities d -> ValidateProvisionSensorInput actor input = None ->
  ProvisionSensor w actor input d = sensor_decision true false w actor input d.
Proof.
  intros Hok Hw Hid Hv. pose proof (validated_ids _ _ Hv) as Hvs. unfold ProvisionSensor, sensor_decision.
  rewrite Hv, with_tx_answering by done. unfold provision_sensor_body, tx_bind. rewrite is_admin_run. cbn [andb negb].
  case_bool_decide as Ha; cbn [negb]; [|done]. rewrite lock_parent_run.
  destruct (gateway_row (ps_GatewayID input) d) as [[[name de] c]|] eqn:Hrow.
  - rewrite bool_decide_true by (by eapply gateway_row_in). cbn [negb].
    apply (execute_graph_run id w input d name de c) in Hrow; [|done..]. unfold on_error, id in Hrow.
    by destruct (executeSensorGraphProvisioning _ _ _ _ _) as [[[a d'] rs]|].
  - apply gateway_row_none in Hrow. by rewrite bool_decide_false.
Qed.

Lemma ProvisionSensorForOwner_run w actor (input : ProvisionSensorInput) d : registry_ok d -> answering w ->
  ww_new_id w ∉ e_id <$> entities d -> ValidateProvisionSensorInput actor input = None ->
  ProvisionSensorForOwner w actor input d = sensor_decision false true w actor input d.
Proof.
  intros Hok Hw Hid Hv. pose proof (validated_ids _ _ Hv) as Hvs. unfold ProvisionSensorForOwner, sensor_decision.
  rewrite Hv, with_tx_answering by done. unfold provision_sensor_for_owner_body, tx_bind. cbn [andb negb].
  rewrite lock_parent_run. destruct (gateway_row (ps_GatewayID input) d) as [[[name de] c]|] eqn:Hrow.
  - rewrite bool_decide_true by (by eapply gateway_row_in). cbn [negb]. rewrite require_owner_run. unfold owner_decision.
    destruct (rg_roles d !! _) as [role|]; [|done]. destruct (decide (role = "owner")); [|done].
    apply (execute_graph_run classifyOwnerProvisioningError w input d name de c) in Hrow; [|done..].
    by destruct (on_error _ _ _ _) as [[[a d'] rs]|].
  - apply gateway_row_none in Hrow. by rewrite bool_decide_false.
Qed.

Lemma ProvisionSensorForAdminOrOwner_run w actor (input : ProvisionSensorInput) d : registry_ok d -> answering w ->
  ww_new_id w ∉ e_id <$> entities d -> ValidateProvisionSensorInput actor input = None ->
  ProvisionSensorForAdminOrOwner w actor input d = sensor_decision true true w actor input d.
Proof.
  intros Hok Hw Hid Hv. pose proof (validated_ids _ _ Hv) as Hvs. unfold ProvisionSensorForAdminOrOwner, sensor_decision.
  rewrite Hv, with_tx_answering by done. unfold provision_sensor_for_admin_or_owner_body, tx_bind. cbn [andb negb].
  rewrite is_admin_run, lock_parent_run. destruct (gateway_row (ps_GatewayID input) d) as [[[name de] c]|] eqn:Hrow.
  - rewrite (bool_decide_true (_ ∈ gateways _)) by (by eapply gateway_row_in). cbn [negb].
    apply (execute_graph_run classifyAdminOrOwnerProvisioningError w input d name de c) in Hrow; [|done..].
    case_bool_decide as Ha; cbn [negb].
    + unfold tx_ret. by destruct (on_error _ _ _ _) as [[[a d'] rs]|].
    + rewrite require_owner_run. unfold owner_decision.
      destruct (rg_roles d !! _) as [role|]; [|done]. destruct (decide (role = "owner")); [|done].
      by destruct (on_error _ _ _ _) as [[[a d'] rs]|].
  - apply gateway_row_none in Hrow. by rewrite bool_decide_false.
Qed.

(** ** Patches *)

(** What the tables decide about a checked patch of a Gateway. *)
Definition gateway_patch_decision w actor (g : string) (input : PatchGatewayInput) d
    : res herror PatchGatewayResult * RegistryDB uuid :=
  if negb (bool_decide (actor ∈ rg_admins d)) then (Err Forbidden, d)
  else match gateway_row g d with
  | None => (Err (HTwin ErrNotFound), d)
  | Some (name, description, _) =>
      let name' := patched_name input name in let description' := patched_description input description in
      if decide (name' = name /\ description' = description)
      then (Ok (patch_gateway_result g name description
                 (default 0 (head (entity_updated_at (view d) <$> entities_named (GatewayEntityID g) "Gateway" g d)))), d)
      else (Ok (patch_gateway_result g name' description' (ww_statement w)),
            gateway_patched (ww_statement w) (parent_id g d) g name' description' d)
  end.

Lemma patch_gateway_body_run w actor g input d name description created p : registry_ok d ->
  actor ∈ rg_admins d -> gateway_row g d = Some (name, description, created) -> p ∈ entities d -> gateway_twin g p ->
  has_state d p = true -> entity_name (view d) p = Some name ->
  exists r d', patch_gateway_body w actor g input d [] = Ok (r, d', [])
    /\ (patched_name input name = name /\ patched_description input description = description -> d' = d).
Proof.
  intros Hok Ha Hrow Hp Ht Hst Hpn. unfold patch_gateway_body, tx_bind.
  rewrite is_admin_run, bool_decide_true by done. cbn [negb]. rewrite read_row_run. unfold gateway_query.
  rewrite Hrow. cbn [or_err]. rewrite read_row_run. unfold gateway_twin_query.
  rewrite (named_gateway d g p) by done. cbn [first_row mbind res_bind]. unfold scan_name. rewrite Hpn.
  cbn [or_err mbind res_bind]. rewrite Hst, (gateway_twins_one d g p), bool_decide_true by done. cbn [negb orb Z.eqb Pos.eqb].
  cbv zeta. rewrite sameNullableString_spec.
  change (default name (pgi_Name input)) with (patched_name input name).
  change (if pgi_DescriptionSet input then pgi_Description input else description) with (patched_description input description).
  assert (forall db, entities db = entities d -> has_entity (e_id p) db = true) as Hhas.
  { intros db Hdb. apply has_entity_spec. rewrite Hdb. by apply in_ids. }
  destruct (negb _) eqn:Hch.
  { eexists _, d. split; [reflexivity|done]. }
  match goal with |- context [match ?m d [] with _ => _ end] =>
    assert (exists d1, m d [] = Ok (1, d1, []) /\ entities d1 = entities d) as (d1 & E & Hd1) end.
  { destruct (negb (bool_decide (patched_name input name = name))); cbn [andb];
      [destruct (_ && _ : bool)|]; unfold call, update_gateway; rewrite Hrow; eauto. }
  rewrite E, call_checked_run. unfold update_entity. rewrite Hhas by done. eexists _, _. split; [reflexivity|].
  intros [Hn Hd]. exfalso. rewrite Hn, Hd, !bool_decide_true in Hch by done. by rewrite andb_false_r in Hch.
Qed.

Lemma PatchGatewayMetadata_run w actor g input d : registry_ok d -> answering w -> ww_op_ctx w = None ->
  actor <> uuid_Nil -> ValidateGatewayID g = None -> ValidatePatchGatewayInput input = None ->
  PatchGatewayMetadata w actor g input d = gateway_patch_decision w actor g input d.
Proof.
  intros Hok Hw Hc Hnil Hv Hi. unfold PatchGatewayMetadata, gateway_patch_decision.
  rewrite Hc, (bool_decide_false (actor = _)), Hv, (bool_decide_false (is_Some None)), Hi by (done || by intros []).
  rewrite with_tx_answering by done. destruct (decide (actor ∈ rg_admins d)) as [Ha|Ha].
  2:{ unfold patch_gateway_body, tx_bind. by rewrite is_admin_run, bool_decide_false. }
  rewrite bool_decide_true by done. cbn [negb].
  destruct (gateway_row g d) as [[[name de] created]|] eqn:Hrow.
  2:{ unfold patch_gateway_body, tx_bind. rewrite is_admin_run, bool_decide_true by done. cbn [negb].
      rewrite read_row_run. unfold gateway_query. by rewrite Hrow. }
  pose proof (gateway_row_in d _ _ Hrow) as Hg. destruct (gateway_graph d _ Hok Hg) as (p & Hp & Ht & Hst & Hpn).
  rewrite <- (gateway_row_name d _ _ _ _ Hrow) in Hpn.
  destruct (patch_gateway_body_run w actor g input d name de created p) as (r & d' & E & Hsame); [done..|].
  rewrite E. apply patch_gateway_ok in E. unfold parent_id. rewrite (named_gateway d g p) by done. cbn [fmap list_fmap head default].
  assert (forall p', p' ∈ entities d -> gateway_twin g p' -> p' = p) as Hone.
  { intros p' Hp' (_ & Hty & Hgi). by apply (gateway_entity_unique d g). }
  destruct E as [name0 de0 c0 p' _ Hrow' Hp' Ht' _ Hn Hd|name0 de0 c0 p' _ Hrow' Hp' Ht' _ Hch];
    rewrite Hrow in Hrow'; injection Hrow' as <- <- <-; rewrite (Hone _ Hp' Ht').
  - by rewrite decide_True.
  - rewrite decide_False; [done|]. naive_solver.
Qed.

Definition sensor_patch_decision w actor (g s name' : string) d : res herror PatchSensorResult * RegistryDB uuid :=
  let admin := bool_decide (actor ∈ rg_admins d) in
  if negb (bool_decide (g ∈ gateways (rg_store d))) then (Err (HTwin ErrNotFound), d)
  else if negb admin && negb (bool_decide (is_Some (rg_roles d !! (actor, g)))) then (Err (HTwin ErrNotFound), d)
  else if negb admin && negb (bool_decide (rg_roles d !! (actor, g) = Some "owner")) then (Err Forbidden, d)
  else match sensor_row g s d with
  | None => (Err (HTwin ErrNotFound), d)
  | Some (name, unit, _) =>
      let twins := entities_named (SensorEntityID g s) "Sensor" g d in
      if decide (name' = name)
      then (Ok (patch_sensor_result g s name unit (default 0 (head (entity_updated_at (view d) <$> twins)))), d)
      else (Ok (patch_sensor_result g s name' unit (ww_statement w)),
            sensor_patched (ww_statement w) (default uuid_Nil (head (e_id <$> twins))) g s name' d)
  end.

Lemma PatchSensorMetadata_run w actor g s name d : registry_ok d -> answering w -> ww_op_ctx w = None ->
  actor <> uuid_Nil -> ValidateGatewayID g = None -> ValidateSensorID s = None -> ValidProvisioningName name = true ->
  PatchSensorMetadata w actor g s (mkPatchSensor (Some name)) d = sensor_patch_decision w actor g s name d.
Proof.
  intros Hok Hw Hc Hnil Hvg Hvs Hn. unfold PatchSensorMetadata, ValidatePatchSensorInput, sensor_patch_decision.
  cbn [psi_Name default]. rewrite Hc, (bool_decide_false (actor = _)), Hvg, Hvs, !(bool_decide_false (is_Some None)), Hn
    by (done || by intros []). cbn [negb]. rewrite with_tx_answering by done.
  unfold patch_sensor_body, tx_bind. rewrite is_admin_run, read_row_run. unfold gateway_query.
  destruct (gateway_row g d) as [[[pname de] created]|] eqn:Hrow.
  2:{ apply gateway_row_none in Hrow. by rewrite (bool_decide_false (g ∈ _)). }
  pose proof (gateway_row_in d _ _ Hrow) as Hg. rewrite (bool_decide_true (g ∈ _)) by done. cbn [or_err negb].
  destruct (gateway_graph d _ Hok Hg) as (p & Hp & Ht & Hst & Hpn). rewrite <- (gateway_row_name d _ _ _ _ Hrow) in Hpn.
  set (auth := if negb _ then _ else _).
  assert (auth d [] = if negb (bool_decide (actor ∈ rg_admins d)) && negb (bool_decide (is_Some (rg_roles d !! (actor, g))))
    then Err (HTwin ErrNotFound)
    else if negb (bool_decide (actor ∈ rg_admins d)) && negb (bool_decide (rg_roles d !! (actor, g) = Some "owner"))
    then Err Forbidden else Ok (tt, d, [])) as ->.
  { unfold auth. destruct (bool_decide (actor ∈ rg_admins d)); [done|]. cbn [negb andb]. rewrite read_row_run. unfold role_query.
    destruct (rg_roles d !! (actor, g)) as [role|]; [|done]. cbn [or_err]. rewrite (bool_decide_true (is_Some _)) by done.
    cbn [negb]. destruct (decide (role = "owner")) as [->|Hr]; [by rewrite !bool_decide_true|].
    rewrite !bool_decide_false by (done || congruence). done. }
  destruct (_ && _ : bool); [done|]. destruct (_ && _ : bool); [done|].
  rewrite read_row_run. unfold sensor_query. destruct (sensor_row g s d) as [[[sname unit] cr]|] eqn:Hs; [|done].
  cbn [or_err]. rewrite read_row_run, (parent_twin_run d g p) by done. rewrite read_row_run.
  destruct (sensor_graph d g s p Hok (sensor_row_in d _ _ _ Hs) Hp Ht) as (e & He & Het & Hest & Hrel & Hen).
  rewrite <- (sensor_row_name d _ _ _ _ _ Hs) in Hen.
  unfold sensor_twin_query. rewrite (named_sensor d g s e) by done. cbn [first_row mbind res_bind]. unfold scan_name.
  rewrite Hen. cbn [or_err mbind res_bind]. rewrite Hest, Hrel, (bool_decide_true (sname = _)) by done. cbn [negb orb].
  destruct (decide (name = sname)) as [->|Hne]; [by rewrite bool_decide_true|]. rewrite bool_decide_false by done.
  unfold call, update_sensor. rewrite Hs, call_checked_run. unfold update_entity.
  match goal with |- context [has_entity (e_id e) ?db] => rewrite (proj2 (has_entity_spec (e_id e) db)) by by apply in_ids end.
  done.
Qed.

End provision_run.
