(* ===== verification/UserEffects.v ===== *)
(** * What the membership and role transactions do to the tables

    Each call of [Users], however the database answers it, is nothing, or its
    effect on the roles by an administrator; the effects keep the registry
    consistent, one owner per Gateway included. *)

From S2P Require Import Prelude GoStrings GoTime GoFloat GoJson Uuid Identity Urn Telemetry Txn Store Persist.
From S2P Require Import HistoryQuery HistoryStore TwinModel Cursor TwinStore Registry Provision Patch Mutation Users.
From S2P Require Import RegistryInv ProvisionSpec ProvisionRun.
#[local] Open Scope Z_scope.

Section effects.
Context {uuid : Type} `{U : UuidLib uuid}.
Implicit Types (d : RegistryDB uuid) (b : UserDB uuid) (w : WriteWorld uuid) (actor target : uuid) (g : string).

(** ** Effects *)

Inductive assign_done actor g target (role : string) d : RegistryDB uuid -> Prop :=
| assigned : actor ∈ rg_admins d -> g ∈ gateways (rg_store d) -> target ∈ rg_profiles d ->
    rg_roles d !! (target, g) <> Some "owner" ->
    assign_done actor g target role d (set_roles d (<[(target, g) := role]> (rg_roles d))).

Inductive remove_done actor g target d : RegistryDB uuid -> Prop :=
| removed : actor ∈ rg_admins d -> g ∈ gateways (rg_store d) -> rg_roles d !! (target, g) <> Some "owner" ->
    remove_done actor g target d (set_roles d (delete (target, g) (rg_roles d))).

Inductive transfer_done actor g target d : RegistryDB uuid -> Prop :=
| kept_owner : actor ∈ rg_admins d -> g ∈ gateways (rg_store d) -> target ∈ rg_profiles d ->
    owners_of g d = [target] -> transfer_done actor g target d d
| new_owner old : actor ∈ rg_admins d -> g ∈ gateways (rg_store d) -> target ∈ rg_profiles d ->
    owners_of g d = [old] -> old <> target ->
    transfer_done actor g target d
      (set_roles d (<[(target, g) := "owner"]> (<[(old, g) := "viewer"]> (rg_roles d)))).

Lemma set_roles_same d m : rg_roles d = m -> set_roles d m = d.
Proof. intros <-. by destruct d. Qed.

Lemma set_roles_twice d m m' : set_roles (set_roles d m) m' = set_roles d m'.
Proof. done. Qed.

(** ** Statements that succeeded *)

Lemma read_row_replies {DB A} wrap (q : DB -> res herror A) x rs a x' rs' :
  read_row wrap q x rs = Ok (a, x', rs') -> rs' ⊆ rs.
Proof.
  unfold read_row, call_checked. destruct rs as [|[|] rs]; destruct (q x); cbn; intros H; try done; injection H as _ _ <-; set_solver.
Qed.

Lemma recheck_ok {DB} (admins : DB -> gset uuid) wrap actor (x : DB) rs v x' rs' :
  recheck_actor admins wrap actor x rs = Ok (v, x', rs') -> actor ∈ admins x /\ x' = x /\ rs' ⊆ rs.
Proof.
  unfold recheck_actor. intros H. step_ok H. pose proof E as Hrs. apply read_row_ok in E as [E ->].
  apply read_row_replies in Hrs. injection E as <-. case_bool_decide; [|done]. injection H as _ <- <-. done.
Qed.

Lemma lock_gateway_ok text g d rs v d' rs' :
  lock_gateway text g d rs = Ok (v, d', rs') -> g ∈ gateways (rg_store d) /\ d' = d /\ rs' ⊆ rs.
Proof.
  unfold lock_gateway. intros H. step_ok H. pose proof E as Hrs. apply read_row_ok in E as [E ->].
  apply read_row_replies in Hrs. injection H as _ <- <-. split; [|done].
  unfold gateway_query in E. destruct (gateway_row g d) eqn:Hr; [|done]. by eapply (gateway_row_in d g).
Qed.

Lemma require_profile_ok target d rs v d' rs' :
  require_profile target d rs = Ok (v, d', rs') -> target ∈ rg_profiles d /\ d' = d.
Proof.
  unfold require_profile. intros H. step_row H. injection E as <-. case_bool_decide; [|done].
  by apply tx_ret_ok in H as [_ ->].
Qed.

(** A driver that reports a missing row only when there is none. *)
Definition honest w : Prop := forall err, Fails err ∈ ww_calls w -> is_cause ErrNoRows err = false.

Lemma lock_membership_ok text target g d rs current d' rs' :
  lock_membership text target g d rs = Ok (current, d', rs') ->
  d' = d /\ match current with
            | Some role => rg_roles d !! (target, g) = Some role
            | None => rg_roles d !! (target, g) = None \/ exists err, Fails err ∈ rs /\ is_cause ErrNoRows err = true
            end.
Proof.
  unfold lock_membership. intros H. step_ok H. unfold attempt, role_query in E.
  destruct rs as [|[|err] rs1]; cbn in E.
  - destruct (rg_roles d !! (target, g)) as [role|] eqn:Hr; cbn in E; injection E as <- <- <-; cbn in H; injection H as <- <- <-; auto.
  - destruct (rg_roles d !! (target, g)) as [role|] eqn:Hr; cbn in E; injection E as <- <- <-; cbn in H; injection H as <- <- <-; auto.
  - injection E as <- <- <-. destruct (is_cause ErrNoRows err) eqn:He; [|done]. cbn in H. injection H as <- <- <-.
    split; [done|]. right. exists err. split; [apply list_elem_of_here|done].
Qed.

Lemma update_member_ok target g role d n d' : update_member target g role d = Ok (n, d') ->
  is_Some (rg_roles d !! (target, g)) -> d' = set_roles d (<[(target, g) := role]> (rg_roles d)).
Proof.
  unfold update_member. intros H [role0 Hr]. rewrite Hr in H. destruct (negb _); [done|]. by injection H as _ <-.
Qed.

Lemma insert_member_fresh target g role d n d' : insert_member target g role d = Ok (n, d') ->
  rg_roles d !! (target, g) = None /\ d' = set_roles d (<[(target, g) := role]> (rg_roles d)).
Proof.
  intros H. split; [|by apply insert_member_ok in H]. unfold insert_member in H. destruct (negb _); [done|].
  case_bool_decide as Hr; [done|]. by apply eq_None_not_Some.
Qed.

Lemma assign_body_ok actor g target role d rs v d' rs' :
  assign_body actor g target role d rs = Ok (v, d', rs') -> assign_done actor g target role d d'.
Proof.
  unfold assign_body. intros H. step_ok H. apply recheck_ok in E as (Ha & -> & _).
  step_ok H. apply lock_gateway_ok in E as (Hg & -> & _). step_ok H. apply require_profile_ok in E as [Ht ->].
  step_ok H. apply lock_membership_ok in E as [-> Hc]. destruct a2 as [current|].
  - case_bool_decide as Ho; [done|]. case_bool_decide as Hr.
    + apply tx_ret_ok in H as [_ ->]. subst current. rewrite <- (set_roles_same d _ eq_refl) at 2.
      rewrite <- (insert_id _ _ _ Hc). apply assigned; [done..|]. congruence.
    + step_ok H. apply tx_ret_ok in H as [_ ->]. apply call_checked_ok, update_member_ok in E as ->; [|by eexists].
      apply assigned; [done..|]. congruence.
  - step_ok H. apply tx_ret_ok in H as [_ ->]. apply call_checked_ok, insert_member_fresh in E as [Hn ->].
    apply assigned; [done..|]. by rewrite Hn.
Qed.

Lemma remove_body_ok actor g target d rs v d' rs' : (forall err, Fails err ∈ rs -> is_cause ErrNoRows err = false) ->
  remove_body actor g target d rs = Ok (v, d', rs') -> remove_done actor g target d d'.
Proof.
  intros Hh. unfold remove_body. intros H. step_ok H. apply recheck_ok in E as (Ha & -> & Hs1).
  step_ok H. apply lock_gateway_ok in E as (Hg & -> & Hs2). step_ok H.
  apply lock_membership_ok in E as [-> Hc]. destruct a1 as [current|].
  - case_bool_decide as Ho; [done|]. destruct (_ || _) eqn:Hr; [|done]. step_ok H. apply call_ok in E.
    unfold delete_member in E. rewrite Hc in E. rewrite orb_true_iff, !bool_decide_eq_true in Hr.
    rewrite bool_decide_eq_true_2 in E by (destruct Hr as [-> | ->]; set_solver). injection E as <- <-. cbn in H.
    apply tx_ret_ok in H as [_ ->]. apply removed; [done..|]. congruence.
  - apply tx_ret_ok in H as [_ ->]. destruct Hc as [Hn|(err & Hin & Hno)].
    + rewrite <- (set_roles_same d _ eq_refl) at 2. rewrite <- (delete_id _ _ Hn). apply removed; [done..|]. by rewrite Hn.
    + exfalso. rewrite Hh in Hno; [done|]. by apply Hs1, Hs2.
Qed.

(** ** Owners *)

Lemma one_owner g d u : owners_of g d = [u] <->
  rg_roles d !! (u, g) = Some "owner" /\ forall u', rg_roles d !! (u', g) = Some "owner" -> u' = u.
Proof.
  split.
  - intros H. split; [apply owners_of_elem; rewrite H; by apply list_elem_of_singleton|].
    intros u' Hu'. apply owners_of_elem in Hu'. rewrite H in Hu'. by apply list_elem_of_singleton in Hu'.
  - intros [Hu Hall]. apply NoDup_all_eq; [apply owners_of_NoDup|by apply owners_of_elem|].
    intros u' Hu'. apply Hall. by apply owners_of_elem.
Qed.

Lemma transfer_body_ok actor g target d rs v d' rs' :
  transfer_body actor g target d rs = Ok (v, d', rs') -> transfer_done actor g target d d'.
Proof.
  unfold transfer_body. intros H. step_ok H. apply recheck_ok in E as (Ha & -> & _).
  step_ok H. apply lock_gateway_ok in E as (Hg & -> & _). step_ok H. apply require_profile_ok in E as [Ht ->].
  step_row H. injection E as E. destruct a2 as [|old [|]]; [done| |done].
  case_bool_decide as Ho.
  { apply tx_ret_ok in H as [_ ->]. subst old. by apply kept_owner. }
  pose proof E as Hold. apply one_owner in E as [Hro _].
  step_ok H. apply call_checked_ok, update_member_ok in E as ->; [|by eexists].
  step_ok H. apply lock_membership_ok in E as [-> Hc]. step_ok H. match type of E with _ = Ok (_, ?x, _) => rename x into dw end.
  assert (dw = set_roles d (<[(target, g) := "owner"]> (<[(old, g) := "viewer"]> (rg_roles d)))) as ->.
  { destruct a3 as [current|].
    - apply call_checked_ok, update_member_ok in E as ->; [done|by eexists].
    - by apply call_checked_ok, insert_member_fresh in E as [_ ->]. }
  step_row H. destruct (negb _); [done|]. apply tx_ret_ok in H as [_ ->]. by apply new_owner.
Qed.

(** ** Calls *)

(** A call had its effect, or did nothing, or its commit was unconfirmed and had it. *)
Definition settled_write {A DB} w (commit_err : herror -> herror) (done_ : DB -> Prop) (r : res herror A) (x x' : DB) : Prop :=
  match r with
  | Ok _ => done_ x'
  | Err e => x' = x \/ unconfirmed w e commit_err /\ done_ x'
  end.

Lemma AssignGatewayUser_outcome w actor g target role d r d' : AssignGatewayUser w actor g target role d = (r, d') ->
  settled_write w (HText "commit gateway user assignment") (assign_done actor g target role d) r d d'.
Proof.
  intros H%with_tx_outcome. destruct r as [a|e]; cbn.
  - destruct H as [rs H]. by eapply assign_body_ok.
  - destruct H as [->|(Hu & a & rs & H)]; [by left|right]. split; [done|]. by eapply assign_body_ok.
Qed.

Lemma TransferGatewayOwner_outcome w actor g target d r d' : TransferGatewayOwner w actor g target d = (r, d') ->
  settled_write w (HText "commit gateway owner transfer") (transfer_done actor g target d) r d d'.
Proof.
  intros H%with_tx_outcome. destruct r as [a|e]; cbn.
  - destruct H as [rs H]. by eapply transfer_body_ok.
  - destruct H as [->|(Hu & a & rs & H)]; [by left|right]. split; [done|]. by eapply transfer_body_ok.
Qed.

(** Whatever the driver reports, a removal removes or changes nothing. *)
Lemma remove_body_effect actor g target d rs v d' rs' :
  remove_body actor g target d rs = Ok (v, d', rs') -> d' = d \/ remove_done actor g target d d'.
Proof.
  unfold remove_body. intros H. step_ok H. apply recheck_ok in E as (Ha & -> & _).
  step_ok H. apply lock_gateway_ok in E as (Hg & -> & _). step_ok H.
  apply lock_membership_ok in E as [-> Hc]. destruct a1 as [current|]; [|apply tx_ret_ok in H as [_ ->]; by left].
  case_bool_decide as Ho; [done|]. destruct (_ || _); [|done]. step_ok H. apply call_ok in E.
  unfold delete_member in E. rewrite Hc in E. destruct (negb _); [done|]. apply tx_ret_ok in H as [_ ->].
  case_bool_decide; injection E as <- <-; [right|by left]. apply removed; [done..|]. congruence.
Qed.

Lemma RemoveGatewayUser_effect w actor g target d r d' : RemoveGatewayUser w actor g target d = (r, d') ->
  d' = d \/ remove_done actor g target d d'.
Proof.
  intros H. unfold RemoveGatewayUser in H. destruct (with_tx _ _ _ _ _) as [r0 d0] eqn:E.
  apply with_tx_outcome in E. destruct r0 as [a|e]; injection H as <- <-.
  - destruct E as [rs E]. by eapply remove_body_effect.
  - destruct E as [->|(_ & a & rs & E)]; [by left|]. by eapply remove_body_effect.
Qed.

Lemma RemoveGatewayUser_outcome w actor g target d r d' : honest w -> RemoveGatewayUser w actor g target d = (r, d') ->
  match r with
  | Ok _ => remove_done actor g target d d'
  | Err e => d' = d \/ (exists e0, unconfirmed w e0 (HText "commit membership removal") /\ e = classifyRemoval e0)
                       /\ remove_done actor g target d d'
  end.
Proof.
  intros Hh H. unfold RemoveGatewayUser in H. destruct (with_tx _ _ _ _ _) as [r0 d0] eqn:E.
  apply with_tx_outcome in E. destruct r0 as [a|e]; injection H as <- <-.
  - destruct E as [rs E]. by eapply remove_body_ok.
  - destruct E as [->|(Hu & a & rs & E)]; [by left|right]. split; [by eexists|]. by eapply remove_body_ok.
Qed.

(** The calls of the service on the PostgreSQL repository. *)
Lemma unless_ended_cases {A DB} w (x : DB) (k : res herror A * DB) r x' : unless_ended w x k = (r, x') ->
  (exists c, r = Err (HCause (ctx_cause c)) /\ x' = x) \/ k = (r, x').
Proof. unfold unless_ended. destruct (ww_op_ctx w) as [c|]; [|by right]. intros [= <- <-]. left. by exists c. Qed.

(** The roles an assignment can give. *)
Lemma assigned_role role : ValidateGatewayRole role = None -> role ∈ ["operator"; "viewer"].
Proof.
  unfold ValidateGatewayRole. case_bool_decide; [done|]. destruct (_ || _) eqn:E; [|done]. intros _.
  rewrite orb_true_iff, !bool_decide_eq_true in E. set_solver.
Qed.

Lemma service_assign_effect svc w actor g target role d r d' : sv_repo svc = PostgresUserRepository ->
  service_AssignGatewayUser svc w actor g target role d = (r, d') ->
  d' = d \/ role ∈ ["operator"; "viewer"] /\ assign_done actor g target role d d'.
Proof.
  intros Hs. unfold service_AssignGatewayUser. rewrite Hs. cbn. destruct (ValidateGatewayRole role) eqn:Hr; [intros [= _ <-]; by left|].
  destruct (check_ids _ _ _); [intros [= _ <-]; by left|].
  intros [(c & _ & ->)|H%AssignGatewayUser_outcome]%unless_ended_cases; [by left|].
  apply assigned_role in Hr.
  destruct r; [by right|]. destruct H as [->|[_ H]]; [by left|by right].
Qed.

Lemma service_remove_effect svc w actor g target d r d' : sv_repo svc = PostgresUserRepository ->
  service_RemoveGatewayUser svc w actor g target d = (r, d') -> d' = d \/ remove_done actor g target d d'.
Proof.
  intros Hs. unfold service_RemoveGatewayUser. rewrite Hs. cbn. destruct (_ || _); [intros [= _ <-]; by left|].
  intros [(c & _ & ->)|H%RemoveGatewayUser_effect]%unless_ended_cases; by auto.
Qed.

Lemma service_transfer_effect svc w actor g target d r d' : sv_repo svc = PostgresUserRepository ->
  service_TransferGatewayOwner svc w actor g target d = (r, d') -> d' = d \/ transfer_done actor g target d d'.
Proof.
  intros Hs. unfold service_TransferGatewayOwner. rewrite Hs. cbn. destruct (check_ids _ _ _); [intros [= _ <-]; by left|].
  intros [(c & _ & ->)|H%TransferGatewayOwner_outcome]%unless_ended_cases; [by left|].
  destruct r; [by right|]. destruct H as [->|[_ H]]; [by left|by right].
Qed.

(** ** The registry stays consistent *)

Lemma roles_changed_ok d m : registry_ok d ->
  (forall u g r, m !! (u, g) = Some r -> g ∈ gateways (rg_store d)) ->
  (forall g, g ∈ gateways (rg_store d) -> exists u, m !! (u, g) = Some "owner" /\ forall u', m !! (u', g) = Some "owner" -> u' = u) ->
  registry_ok (set_roles d m).
Proof. intros []. by split. Qed.

Lemma assign_done_ok actor g target role d d' : role ∈ ["operator"; "viewer"] -> assign_done actor g target role d d' ->
  registry_ok d -> registry_ok d'.
Proof.
  intros Hrole0 [_ Hg _ Ho] Hok. assert (role <> "owner") as Hrole by set_solver. apply roles_changed_ok; [done| |].
  - intros u g' r [[[= <- <-] _]|[_ H]]%lookup_insert_Some; [done|]. by apply (ro_roles d Hok) in H.
  - intros g' Hg'. destruct (ro_owner d Hok g' Hg') as (u & Hu & Hall). exists u. split.
    + rewrite lookup_insert_ne; [done|]. intros [= -> ->]. done.
    + intros u' [[_ H]|[_ H]]%lookup_insert_Some; [done|by apply Hall].
Qed.

Lemma remove_done_ok actor g target d d' : remove_done actor g target d d' -> registry_ok d -> registry_ok d'.
Proof.
  intros [_ Hg Ho] Hok. apply roles_changed_ok; [done| |].
  - intros u g' r [_ H]%lookup_delete_Some. by apply (ro_roles d Hok) in H.
  - intros g' Hg'. destruct (ro_owner d Hok g' Hg') as (u & Hu & Hall). exists u. split.
    + rewrite lookup_delete_ne; [done|]. intros [= -> ->]. done.
    + intros u' [_ H]%lookup_delete_Some. by apply Hall.
Qed.

Lemma transfer_done_owner actor g target d d' : transfer_done actor g target d d' -> owners_of g d' = [target].
Proof.
  intros [Ha Hg Ht Ho|old Ha Hg Ht Ho Hne]; [done|]. apply one_owner in Ho as [_ Hall]. apply one_owner. cbn.
  split; [apply lookup_insert_eq|]. intros u [[[= <-] _]|[Hu [[_ H]|[Hv H]]%lookup_insert_Some]]%lookup_insert_Some; try done.
  apply Hall in H as ->. done.
Qed.

Lemma transfer_done_ok actor g target d d' : transfer_done actor g target d d' -> registry_ok d -> registry_ok d'.
Proof.
  intros Hd Hok. pose proof (transfer_done_owner _ _ _ _ _ Hd) as Hone. destruct Hd as [|old Ha Hg Ht Ho Hne]; [done|].
  apply roles_changed_ok; [done| |].
  - intros u g' r [[[= <- <-] _]|[_ [[[= <- <-] _]|[_ H]]%lookup_insert_Some]]%lookup_insert_Some; [done..|].
    by apply (ro_roles d Hok) in H.
  - intros g' Hg'. destruct (decide (g' = g)) as [->|Hgg]; [exists target; by apply one_owner in Hone|].
    destruct (ro_owner d Hok g' Hg') as (u & Hu & Hall). exists u.
    assert (forall u', <[(target, g) := "owner"]> (<[(old, g) := "viewer"]> (rg_roles d)) !! (u', g') = rg_roles d !! (u', g'))
      as Hsame by (intros u'; rewrite !lookup_insert_ne by congruence; done).
    rewrite Hsame. split; [done|]. intros u'. rewrite Hsame. apply Hall.
Qed.

(** The check constraint on the column [role]. *)
Definition roles_named d : Prop := map_Forall (fun _ role => role ∈ ["owner"; "operator"; "viewer"]) (rg_roles d).

Lemma assign_done_named actor g target role d d' : role ∈ ["operator"; "viewer"] -> assign_done actor g target role d d' ->
  roles_named d -> roles_named d'.
Proof. intros Hrole [_ _ _ _] Hd. apply map_Forall_insert_2; [set_solver|done]. Qed.

Lemma remove_done_named actor g target d d' : remove_done actor g target d d' -> roles_named d -> roles_named d'.
Proof. intros [_ _ _] Hd. by apply map_Forall_delete. Qed.

Lemma transfer_done_named actor g target d d' : transfer_done actor g target d d' -> roles_named d -> roles_named d'.
Proof. intros [|] Hd; [done|]. apply map_Forall_insert_2; [set_solver|]. apply map_Forall_insert_2; [set_solver|done]. Qed.

Lemma gateway_done_named w actor (input : ProvisionGatewayInput uuid) d r d' : gateway_done w actor input d r d' ->
  roles_named d -> roles_named d'.
Proof. intros [|] Hd; [|done]. apply map_Forall_insert_2; [set_solver|done]. Qed.

(** ** Names and platform roles *)

Definition roles_after target (platformRole : option string) (admins : gset uuid) : gset uuid :=
  match platformRole with
  | Some role =>
      if bool_decide (role = "platform_admin") then {[target]} ∪ admins
      else if bool_decide (role = "user") then admins ∖ {[target]} else admins
  | None => admins
  end.

Definition names_after target (fullName : option string) (names : gmap uuid string) : gmap uuid string :=
  match fullName with Some name => <[target := name]> names | None => names end.

Definition user_after target (fullName platformRole : option string) b : UserDB uuid :=
  mkUserDB (set_admins (ub_registry b) (roles_after target platformRole (rg_admins (ub_registry b))))
    (ub_accounts b) (names_after target fullName (ub_names b)).

Definition updated_user target b : UpdatedUser uuid :=
  mkUpdatedUser target (ub_names b !! target)
    (if bool_decide (target ∈ rg_admins (ub_registry b)) then "platform_admin" else "user").

(** A completed update, whoever was the actor when it was checked. *)
Definition update_done actor target (fullName platformRole : option string) b (r : UpdatedUser uuid) (b' : UserDB uuid) : Prop :=
  target ∈ rg_profiles (ub_registry b) /\ (actor <> target \/ platformRole <> Some "user")
  /\ b' = user_after target fullName platformRole b /\ r = updated_user target b'.

Lemma set_admins_same b admins : rg_admins (ub_registry b) = admins -> with_admins b admins = b.
Proof. intros <-. unfold with_admins, set_admins. by destruct b as [[] ? ?]. Qed.

Lemma insert_admin_ok target actor b n b' : insert_admin target actor b = Ok (n, b') ->
  b' = with_admins b ({[target]} ∪ rg_admins (ub_registry b)).
Proof.
  unfold insert_admin. case_bool_decide as Ht.
  - intros [= _ <-]. symmetry. apply set_admins_same. set_solver.
  - destruct (_ || _); [done|]. by intros [= _ <-].
Qed.

Lemma delete_admin_after target b : (delete_admin target b).2 = with_admins b (rg_admins (ub_registry b) ∖ {[target]}).
Proof.
  unfold delete_admin. case_bool_decide as Ht; [done|]. cbn. symmetry. apply set_admins_same. set_solver.
Qed.

Lemma update_rest_ok actor target fullName platformRole b rs r b' rs' :
  update_user_rest actor target fullName platformRole b rs = Ok (r, b', rs') ->
  update_done actor target fullName platformRole b r b'.
Proof.
  unfold update_user_rest. intros H. step_row H. unfold name_query in E.
  destruct (decide (target ∈ rg_profiles (ub_registry b))) as [Ht|Ht]; [|by rewrite bool_decide_false in E].
  rewrite bool_decide_true in E by done. injection E as <-.
  destruct (bool_decide (actor = target) && _) eqn:Hself; [done|]. step_ok H.
  assert (a = names_after target fullName (ub_names b) !! target
    /\ d = mkUserDB (ub_registry b) (ub_accounts b) (names_after target fullName (ub_names b))) as [-> ->].
  { destruct fullName as [name|]; cbn.
    - step_ok E. apply tx_ret_ok in E as [-> ->]. apply call_ok in E0. unfold update_name in E0.
      rewrite bool_decide_true in E0 by done. injection E0 as _ <-. by rewrite lookup_insert_eq.
    - apply tx_ret_ok in E as [-> ->]. split; [done|]. by destruct b. }
  clear E. step_ok H.
  assert (d = user_after target fullName platformRole b) as ->.
  { unfold user_after, roles_after. destruct platformRole as [role|]; [|apply tx_ret_ok in E as [_ ->]; by destruct b as [[] ? ?]].
    case_bool_decide as H1; [|case_bool_decide as H2].
    - step_ok E. apply tx_ret_ok in E as [_ ->]. by apply call_checked_ok, insert_admin_ok in E0 as ->.
    - step_ok E. apply tx_ret_ok in E as [_ ->]. apply call_ok in E0.
      pose proof (delete_admin_after target (mkUserDB (ub_registry b) (ub_accounts b) (names_after target fullName (ub_names b)))) as Hd.
      rewrite E0 in Hd. exact Hd.
    - apply tx_ret_ok in E as [_ ->]. by destruct b as [[] ? ?]. }
  clear E. step_row H. injection E as <-. apply tx_ret_ok in H as [-> ->]. split_and!; [done| |done..].
  rewrite andb_false_iff, !bool_decide_eq_false in Hself. tauto.
Qed.

Lemma UpdateUserProfileAndRole_outcome w actor target fullName platformRole b r b' :
  UpdateUserProfileAndRole w actor target fullName platformRole b = (r, b') ->
  match r with
  | Ok u => actor ∈ rg_admins (ub_registry b) /\ update_done actor target fullName platformRole b u b'
  | Err e => b' = b \/ unconfirmed w e (HText "commit profile and role update")
               /\ actor ∈ rg_admins (ub_registry b) /\ exists u, update_done actor target fullName platformRole b u b'
  end.
Proof.
  assert (forall rs u b1 rs1, update_user_body actor target fullName platformRole b rs = Ok (u, b1, rs1) ->
    actor ∈ rg_admins (ub_registry b) /\ update_done actor target fullName platformRole b u b1) as Hbody.
  { intros rs u b1 rs1 H. unfold update_user_body in H. step_ok H. apply recheck_ok in E as (Ha & -> & _).
    split; [done|]. by eapply update_rest_ok. }
  intros H%with_tx_outcome. destruct r as [u|e].
  - destruct H as [rs H]. by eapply Hbody.
  - destruct H as [->|(Hu & u & rs & H)]; [by left|right]. apply Hbody in H as [Ha H]. eauto.
Qed.

End effects.
