(* ===== verification/MutationSpec.v ===== *)
(** * Creation and patch requests, from the body to the answer

    A parsed body is a valid domain input, and on consistent tables the
    composed handlers answer what the tables decide. *)

From S2P Require Import Prelude GoStrings GoTime GoFloat GoJson Identity Urn Uuid Telemetry.
From S2P Require Import Txn Store Persist HistoryQuery HistoryStore TwinModel Cursor TwinStore Registry Provision Patch.
From S2P Require Import Mutation RegistryInv ProvisionSpec ProvisionRun.
#[local] Open Scope Z_scope.

(** ** Names and escapes *)

Lemma PathEscape_id s : str_forallb segment_char s = true -> PathEscape s = s.
Proof.
  induction s as [|c s IH]; [done|]. cbn [str_forallb PathEscape]. intros [Hc Hs]%andb_true_iff. by rewrite Hc, IH.
Qed.

Lemma pattern_segment id : gatewayIDPattern id = true -> str_forallb segment_char id = true.
Proof.
  intros H%pattern_chars. eapply str_forallb_impl; [|exact H]. intros c Hc. unfold segment_char. by rewrite Hc.
Qed.

Lemma names_segment urn p : names urn p -> str_forallb segment_char urn = true /\ urn <> "".
Proof.
  intros [g Hg|g s Hg Hs]; split; try done.
  - unfold GatewayEntityID. rewrite str_forallb_app. by rewrite (pattern_segment g) by by apply valid_gateway_pattern.
  - unfold SensorEntityID. rewrite !str_forallb_app.
    rewrite (pattern_segment g) by by apply valid_gateway_pattern.
    by rewrite (pattern_segment s) by by apply valid_sensor_pattern.
Qed.

Lemma valid_name_nonempty name : ValidProvisioningName name = true -> name <> "".
Proof. intros H ->. by vm_compute in H. Qed.

Lemma guard_true b : b = true -> guard_opt b = Some tt.
Proof. by intros ->. Qed.

(** ** The fuel of the scan of string literals *)

Lemma valid_literal_shorter fuel s r : valid_literal fuel s = Some r -> (String.length r <= String.length s)%nat.
Proof.
  revert s. induction fuel as [|fuel IH]; [done|]. intros s. cbn [valid_literal].
  repeat case_match; intros Hr; try done; try (injection Hr as <-; subst; cbn; lia);
    apply IH in Hr; subst; cbn [String.length] in *; lia.
Qed.

Lemma valid_literal_fuel f f' s : (String.length s < f)%nat -> (String.length s < f')%nat ->
  valid_literal f s = valid_literal f' s.
Proof.
  revert f' s. induction f as [|f IH]; [lia|]. intros [|f'] s Hf Hf'; [lia|]. cbn [valid_literal].
  repeat case_match; subst; try done; apply IH; cbn [String.length] in *; lia.
Qed.

(** Any fuel above the length of the data gives the same answer. *)
Lemma valid_outside_fuel f f' s : (String.length s < f)%nat -> (String.length s < f')%nat ->
  valid_outside f s = valid_outside f' s.
Proof.
  revert f' s. induction f as [|f IH]; [lia|]. intros [|f'] s Hf Hf'; [lia|]. cbn [valid_outside].
  destruct s as [|c r]; [done|]. cbn [String.length] in *. destruct (bool_decide _); [|apply IH; lia].
  rewrite (valid_literal_fuel f f') by lia. destruct (valid_literal f' r) as [r'|] eqn:E; [|done].
  apply valid_literal_shorter in E. apply IH; lia.
Qed.

(** ** Parsed bodies *)

Lemma bad_ok b u : bad b = Ok u -> b = false.
Proof. by destruct b. Qed.

Ltac parse_step H :=
  match type of H with
  | mbind _ (bad ?b) = Ok _ => let E := fresh "E" in destruct (bad b) eqn:E; [apply bad_ok in E|done];
      cbn [mbind res_bind] in H
  | mbind _ ?m = Ok _ => let E := fresh "E" in destruct m eqn:E; [|done]; cbn [mbind res_bind] in H
  end.

Section parsed.
Context {uuid : Type} `{U : UuidLib uuid}.

Lemma parsed_gateway_fields (actor : uuid) entries input : actor <> uuid_Nil ->
  parsePostGatewayFields entries = Ok input -> ValidateProvisionGatewayInput actor input = None.
Proof.
  intros Ha H. unfold parsePostGatewayFields in H. repeat parse_step H. injection H as <-.
  unfold ValidateProvisionGatewayInput. cbn. rewrite bool_decide_false by done.
  repeat match goal with E : bool_decide _ = false |- _ => apply bool_decide_eq_false in E end.
  rewrite bool_decide_false by done. cbn [orb].
  match goal with E : ~ is_Some (ValidateGatewayID _) |- _ => apply not_some in E as -> end.
  by repeat match goal with E : negb ?b = false |- context [negb ?b] => rewrite E end.
Qed.

Lemma parsed_sensor_fields (actor : uuid) entries input : actor <> uuid_Nil ->
  parsePostSensorFields entries = Ok input -> ValidateProvisionSensorInput actor input = None.
Proof.
  intros Ha H. unfold parsePostSensorFields in H. repeat parse_step H. injection H as <-.
  unfold ValidateProvisionSensorInput. cbn. rewrite bool_decide_false by done.
  repeat match goal with E : bool_decide _ = false |- _ => apply bool_decide_eq_false in E end.
  repeat match goal with E : ~ is_Some _ |- _ => apply not_some in E as -> end.
  by repeat match goal with E : negb ?b = false |- context [negb ?b] => rewrite E end.
Qed.

Lemma parsed_post (actor : uuid) r limit req : actor <> uuid_Nil -> parsePostEntityRequest r limit = Ok req ->
  ValidateCreateEntityInput actor (ToDomain req) = None.
Proof.
  intros Ha H. unfold parsePostEntityRequest in H. do 2 parse_step H.
  destruct (bool_decide _); [|destruct (bool_decide _); [|done]]; parse_step H; injection H as <-;
    unfold ValidateCreateEntityInput; cbn; rewrite bool_decide_false by done.
  - by erewrite parsed_gateway_fields.
  - by erewrite parsed_sensor_fields.
Qed.

Lemma refused_400_ok {A} err (a b : A) : refused_400 err a = Ok b -> err = None /\ a = b.
Proof. destruct err; [done|]. by intros [= ->]. Qed.

Lemma parsed_patch r urn limit req : parsePatchEntityRequest r urn limit = Ok req ->
  ValidatePatchEntityInput req = None /\ names urn (pei_Target req)
  /\ match pi_Type (pei_Target req) with
     | EntityTypeGateway => exists input, pei_Gateway req = Some input /\ pei_Sensor req = None
         /\ ValidatePatchGatewayInput input = None
     | EntityTypeSensor => exists input, pei_Sensor req = Some input /\ pei_Gateway req = None
         /\ ValidatePatchSensorInput input = None
     | _ => False
     end.
Proof.
  unfold parsePatchEntityRequest. destruct (ParseEntityURN urn) as [p|] eqn:Hp; [|done]. intros H.
  apply parse_urn_names in Hp. parse_step H. destruct val as [entries media]. parse_step H.
  unfold ValidatePatchEntityInput. destruct Hp as [g Hg|g s Hg Hs]; cbn [pi_Type] in H; parse_step H; injection H as <-.
  - unfold parsePatchGatewayFields in E1. do 4 parse_step E1. apply refused_400_ok in E1 as [Hv ->].
    cbn. rewrite Hg, Hv. split; [done|]. split; [by constructor|by eauto].
  - unfold parsePatchSensorFields in E1. do 2 parse_step E1. apply refused_400_ok in E1 as [Hv <-].
    cbn. rewrite Hg, Hs, Hv. split; [done|]. split; [by constructor|by eauto].
Qed.

(** A well-formed property carries its value. *)
Lemma fragment_value value :
  parsePropertyFragment (JObj [("type", JStr "Property"); ("value", JStr value)]) = Ok value.
Proof.
  unfold parsePropertyFragment. cbn [fmap list_fmap fst].
  rewrite bool_decide_true by (repeat constructor; set_solver). cbn [negb]. cbv zeta. rewrite !list_to_map_cons.
  unfold only_members. rewrite bool_decide_true by set_solver. cbn [negb bad mbind res_bind].
  unfold required_text. rewrite lookup_insert_ne by done. rewrite !lookup_insert_eq. cbn [mbind res_bind].
  by rewrite bool_decide_true.
Qed.

(** The parser refuses descriptions that the domain and creation requests take. *)
Lemma patch_description_limit value : 512 < str_len value -> value <> NGSILDNullSentinel -> ValidMetadata value 4096 = true ->
  parsePatchGatewayFields {["description" := JObj [("type", JStr "Property"); ("value", JStr value)]]} = Err 400
  /\ ValidatePatchGatewayInput (mkPatchGateway None true (Some value)) = None.
Proof.
  intros Hl Hs Hv. split.
  - unfold parsePatchGatewayFields, parse_patch_name, fragment. rewrite lookup_singleton_eq, lookup_singleton_ne by done.
    unfold only_members. rewrite bool_decide_true by set_solver. cbn [negb bad mbind res_bind].
    rewrite fragment_value. cbn [mbind res_bind]. rewrite (bool_decide_false (value = _)) by done. rewrite Hv.
    by replace (512 <? str_len value) with true by (symmetry; apply Z.ltb_lt; lia).
  - unfold ValidatePatchGatewayInput. cbn [pgi_Name pgi_DescriptionSet pgi_Description]. by rewrite Hv.
Qed.

End parsed.

(** ** Projections of results *)

(** A time whose year the wire format can write. *)
Definition year_ok (micros : Z) : Prop := is_Some (FormatRFC3339Micro (time_of_tz micros)).

Section projections.
Context {uuid : Type} `{U : UuidLib uuid}.
Implicit Types (d : RegistryDB uuid) (w : WriteWorld uuid) (actor : uuid).

Record times_ok d : Prop := {
  to_gateways g t : rg_gateway_created d !! g = Some t -> year_ok t;
  to_sensors k t : rg_sensor_created d !! k = Some t -> year_ok t;
  to_entities e : e ∈ entities d -> year_ok (entity_updated_at (view d) e);
}.

Definition created_ok (created_at : option Z) : Prop := forall t, created_at = Some t -> year_ok t.

(** The wire form of a creation time: microseconds of UTC, or null. *)
Definition created_text (created_at : option Z) : option string :=
  (fun t => FormatMicros (UTC (time_of_tz t))) <$> created_at.

Lemma format_created_ok created_at : created_ok created_at -> format_created created_at = Some (created_text created_at).
Proof.
  intros H. destruct created_at as [t|]; [|done]. destruct (H t eq_refl) as [text Ht]. unfold format_created, created_text.
  unfold FormatRFC3339Micro in *. by destruct (_ || _).
Qed.

Lemma urn_matches_gateway g : ValidateGatewayID g = None ->
  urn_matches (GatewayEntityID g) EntityTypeGateway g None = true.
Proof. intros H. unfold urn_matches. rewrite parse_gateway_urn by done. cbn. by rewrite !bool_decide_true by done. Qed.

Lemma urn_matches_sensor g s : ValidateGatewayID g = None -> ValidateSensorID s = None ->
  urn_matches (SensorEntityID g s) EntityTypeSensor g (Some s) = true.
Proof. intros Hg Hs. unfold urn_matches. rewrite parse_sensor_urn by done. cbn. by rewrite !bool_decide_true. Qed.

(** The whole body of a successful creation, by the request and the creation time. *)
Definition gateway_body (input : ProvisionGatewayInput uuid) (created_at : option Z) : Body uuid :=
  BodyPostGateway (mkPostGatewayDTO (pg_GatewayID input) (pg_Name input) (pg_Description input) (pg_OwnerUserID input)
    ("urn:ngsi-ld:Gateway:" +:+ pg_GatewayID input) (created_text created_at)).

Definition sensor_body (input : ProvisionSensorInput) (created_at : option Z) : Body uuid :=
  BodyPostSensor (mkPostSensorDTO (ps_GatewayID input) (ps_SensorID input) (ps_Name input) (ps_Unit input)
    ("urn:ngsi-ld:Sensor:" +:+ ps_GatewayID input +:+ ":" +:+ ps_SensorID input) (created_text created_at)).

(** The entity a body names. *)
Definition body_entity (b : Body uuid) : option string :=
  match b with
  | BodyPostGateway dto => Some (pgd_EntityID dto)
  | BodyPostSensor dto => Some (psd_EntityID dto)
  | BodyPatchGateway dto => Some (gwd_ID dto)
  | BodyPatchSensor dto => Some (snd_ID dto)
  | BodyError _ _ => None
  end.

Definition body_name (b : Body uuid) : option string :=
  match b with
  | BodyPostGateway dto => Some (pgd_Name dto)
  | BodyPostSensor dto => Some (psd_Name dto)
  | BodyPatchGateway dto => Some (gwd_Name dto)
  | BodyPatchSensor dto => Some (snd_Name dto)
  | BodyError _ _ => None
  end.

Lemma entity_mismatch_refl urn : entity_mismatch urn urn = false.
Proof. unfold entity_mismatch. by rewrite (bool_decide_true (urn = urn)), andb_false_r. Qed.

Lemma created_gateway_projected actor (input : ProvisionGatewayInput uuid) created created_at :
  ValidateProvisionGatewayInput actor input = None -> created_ok created_at ->
  NewCreateEntityResponseDTO (mkCreateEntityResult created EntityTypeGateway
      (GatewayEntityID (pg_GatewayID input)) (Some (gateway_result created input created_at)) None)
    = Some (PostEntityStatus created, gateway_body input created_at).
Proof.
  intros Hv Hc. unfold ValidateProvisionGatewayInput in Hv. destruct (_ || _) eqn:E1; [done|].
  apply orb_false_iff in E1 as [_ Ho]. destruct (ValidateGatewayID _) eqn:Hg; [done|].
  destruct (ValidProvisioningName (pg_Name input)) eqn:Hn; [|done]. apply valid_name_nonempty in Hn.
  apply format_created_ok in Hc.
  unfold NewCreateEntityResponseDTO, NewPostGatewayResponseDTO, gateway_result. cbn -[entity_mismatch].
  rewrite Bool.eqb_reflx, entity_mismatch_refl. cbn.
  rewrite Hg, (bool_decide_false (is_Some None)) by (by intros []). cbn.
  rewrite (bool_decide_false (pg_Name _ = _)) by done. cbn. rewrite Ho. cbn.
  rewrite urn_matches_gateway by done. cbn. by rewrite Hc.
Qed.

Lemma created_sensor_projected actor (input : ProvisionSensorInput) created created_at :
  ValidateProvisionSensorInput actor input = None -> created_ok created_at ->
  NewCreateEntityResponseDTO (mkCreateEntityResult created EntityTypeSensor
      (SensorEntityID (ps_GatewayID input) (ps_SensorID input)) None (Some (sensor_result created input created_at)))
    = Some (PostEntityStatus created, sensor_body input created_at).
Proof.
  intros Hv Hc. unfold ValidateProvisionSensorInput in Hv. destruct (bool_decide _); [done|].
  destruct (ValidateGatewayID _) eqn:Hg; [done|]. destruct (ValidateSensorID _) eqn:Hs; [done|].
  destruct (ValidProvisioningName (ps_Name input)) eqn:Hn; [|done]. apply valid_name_nonempty in Hn.
  apply format_created_ok in Hc.
  unfold NewCreateEntityResponseDTO, NewPostSensorResponseDTO, sensor_result. cbn -[entity_mismatch].
  rewrite Bool.eqb_reflx, entity_mismatch_refl. cbn.
  rewrite Hg, Hs, !(bool_decide_false (is_Some None)) by (by intros []). cbn.
  rewrite (bool_decide_false (ps_Name _ = _)) by done. cbn.
  rewrite urn_matches_sensor by done. cbn. by rewrite Hc.
Qed.

(** ** The status the tables decide *)

Definition post_gateway_status actor (input : ProvisionGatewayInput uuid) d : Z :=
  if negb (bool_decide (actor ∈ rg_admins d)) then 403
  else if negb (bool_decide (pg_OwnerUserID input ∈ rg_profiles d)) then 404
  else match gateway_row (pg_GatewayID input) d with
  | None => 201
  | Some (name, description, _) =>
      if decide (name = pg_Name input /\ description = pg_Description input
                 /\ rg_roles d !! (pg_OwnerUserID input, pg_GatewayID input) = Some "owner") then 200 else 409
  end.

Definition post_sensor_status actor (input : ProvisionSensorInput) d : Z :=
  let admin := bool_decide (actor ∈ rg_admins d) in
  let role := rg_roles d !! (actor, ps_GatewayID input) in
  if negb (bool_decide (ps_GatewayID input ∈ gateways (rg_store d))) then 404
  else if negb admin && bool_decide (role = None) then 404
  else if negb admin && negb (bool_decide (role = Some "owner")) then 403
  else match sensor_row (ps_GatewayID input) (ps_SensorID input) d with
  | None => 201
  | Some (name, unit, _) => if decide (name = ps_Name input /\ unit = ps_Unit input) then 200 else 409
  end.

(** The body of a refusal. *)
Definition refusal_body (status : Z) : Body uuid :=
  if status =? 403 then BodyError "forbidden" "access denied"
  else if status =? 404 then BodyError "not_found" "resource not found"
  else BodyError "conflict" "resource conflict".

(** The whole answer and the tables it leaves. *)
Definition post_answer (status : Z) (urn : string) (body : Body uuid) (new d : RegistryDB uuid)
    (answer : Response uuid * RegistryDB uuid) : Prop :=
  answer = (mkResponse status
              (if status =? 201 then Some ("/v1/digital-twins/" +:+ urn) else None)
              (if (status =? 201) || (status =? 200) then body else refusal_body status),
            if status =? 201 then new else d).

Lemma gateway_row_created d g name description created : times_ok d ->
  gateway_row g d = Some (name, description, created) -> created_ok created.
Proof.
  intros Ht Hrow t ->. unfold gateway_row in Hrow. case_bool_decide; [|done]. destruct (default _ _).
  injection Hrow as _ _ Hc. by apply (to_gateways d Ht g).
Qed.

Lemma sensor_row_created d g s name unit created : times_ok d ->
  sensor_row g s d = Some (name, unit, created) -> created_ok created.
Proof.
  intros Ht Hrow t ->. unfold sensor_row in Hrow. destruct (sensors _ !! _); [|done].
  injection Hrow as _ _ Hc. by apply (to_sensors d Ht (g, s)).
Qed.

(** The location of a Gateway or Sensor needs no escape. *)
Lemma location_parsed urn p : names urn p -> exists parsed, ParseEntityURN urn = Ok parsed /\ pi_URN parsed = urn
  /\ bool_decide (pi_URN parsed = "") = false /\ location_of urn = "/v1/digital-twins/" +:+ urn.
Proof.
  intros Hn. exists p. apply names_segment in Hn as Hs. destruct Hs as [Hs Hne]. split; [by apply parse_urn_names|].
  rewrite (parsed_urn urn) by by apply parse_urn_names. split_and!; [done|by apply bool_decide_eq_false|].
  unfold location_of. by rewrite PathEscape_id.
Qed.

(** The creation time of the answer: the stored one, or that of the transaction. *)
Definition answered_time w (row : option (string * option string * option Z)) : option Z :=
  match row with Some (_, _, created_at) => created_at | None => Some (ww_now w) end.

Lemma post_gateway_run creator limit request w actor (input : ProvisionGatewayInput uuid) d :
  gatewayProvisioner creator = service_ProvisionGateway (mkProvisioningService
    (mkProvisioningRepository ProvisionGateway ProvisionSensor) limit) ->
  registry_ok d -> times_ok d -> year_ok (ww_now w) -> answering w -> ww_ctx w = Some None ->
  ww_new_id w ∉ e_id <$> entities d -> actor <> uuid_Nil -> ValidateProvisionGatewayInput actor input = None ->
  forall limit', parsePostEntityRequest request limit' = Ok (PostGateway input) ->
  post_answer (post_gateway_status actor input d) (GatewayEntityID (pg_GatewayID input))
    (gateway_body input (answered_time w (gateway_row (pg_GatewayID input) d)))
    (gateway_added (ww_now w) (ww_new_id w) input d) d
    (postDigitalTwin (Some creator) limit' (Some actor) true request w d).
Proof.
  intros Hcr Hok Ht Hnow Hw Hctx Hid Ha Hv limit' Hreq. unfold postDigitalTwin, authenticated.
  rewrite bool_decide_false by done. cbn [negb]. rewrite Hreq. unfold CreateEntity. rewrite Hctx.
  assert (ValidateCreateEntityInput actor (ToDomain (PostGateway input)) = None) as ->.
  { unfold ValidateCreateEntityInput. cbn. by rewrite bool_decide_false, Hv. }
  cbn [ToDomain ce_Type ce_Gateway ce_Sensor]. rewrite Hcr. unfold service_ProvisionGateway. rewrite Hv. cbn [prov_repository repo_ProvisionGateway].
  rewrite ProvisionGateway_run by done. unfold gateway_decision, post_gateway_status.
  destruct (negb (bool_decide (actor ∈ _))); [done|].
  destruct (negb (bool_decide (pg_OwnerUserID input ∈ _))); [done|].
  assert (ValidateGatewayID (pg_GatewayID input) = None) as Hg.
  { unfold ValidateProvisionGatewayInput in Hv. destruct (_ || _); [done|]. by destruct (ValidateGatewayID _). }
  destruct (location_parsed _ _ (names_gateway _ Hg)) as (parsed & Hp & Hpu & Hne & Hl).
  destruct (gateway_row _ d) as [[[name de] created]|] eqn:Hrow.
  - destruct (decide _); [|done].
    cbn [answer_created gateway_result gr_Created gr_EntityID].
    change (mkGatewayResult false _ _ _ _ _ created) with (gateway_result false input created).
    rewrite (created_gateway_projected actor) by (done || by eapply gateway_row_created). done.
  - cbn [answer_created gateway_result gr_Created gr_EntityID].
    change (mkGatewayResult true _ _ _ _ _ (Some (ww_now w))) with (gateway_result true input (Some (ww_now w))).
    rewrite (created_gateway_projected actor) by (done || by intros t [= <-]).
    cbn [PostEntityStatus Z.eqb Pos.eqb cr_EntityID]. rewrite Hp, Hne, Hpu, Hl. done.
Qed.

(** The part of the decision below an accepted parent, as [CreateEntity] returns it. *)
Definition as_created (outcome : res herror ProvisionSensorResult * RegistryDB uuid)
    : res herror (CreateEntityResult (uuid := uuid)) * RegistryDB uuid :=
  match outcome with
  | (Err err, d') => (Err err, d')
  | (Ok r, d') => (Ok (mkCreateEntityResult (sr_Created r) EntityTypeSensor (sr_EntityID r) None (Some r)), d')
  end.

Lemma graph_answer w actor (input : ProvisionSensorInput) d : times_ok d -> year_ok (ww_now w) ->
  ValidateProvisionSensorInput actor input = None ->
  post_answer (match sensor_row (ps_GatewayID input) (ps_SensorID input) d with
               | None => 201
               | Some (name, unit, _) => if decide (name = ps_Name input /\ unit = ps_Unit input) then 200 else 409
               end) (SensorEntityID (ps_GatewayID input) (ps_SensorID input))
    (sensor_body input (answered_time w (sensor_row (ps_GatewayID input) (ps_SensorID input) d)))
    (sensor_added (ww_now w) (ww_new_id w) (parent_id (ps_GatewayID input) d) input d) d
    (answer_created (as_created (graph_decision w input d))).
Proof.
  intros Ht Hnow Hv. assert (ValidateGatewayID (ps_GatewayID input) = None) as Hg.
  { unfold ValidateProvisionSensorInput in Hv. destruct (bool_decide _); [done|]. by destruct (ValidateGatewayID _). }
  destruct (location_parsed _ _ (Urn.names_sensor _ _ Hg (validated_ids _ _ Hv))) as (parsed & Hp & Hpu & Hne & Hl).
  unfold graph_decision. destruct (sensor_row _ _ d) as [[[name unit] created]|] eqn:Hrow.
  - destruct (decide _); [|done].
    cbn [as_created answer_created sensor_result sr_Created sr_EntityID].
    change (mkSensorResult false _ _ _ _ _ created) with (sensor_result false input created).
    rewrite (created_sensor_projected actor) by (done || by eapply sensor_row_created). done.
  - cbn [as_created answer_created sensor_result sr_Created sr_EntityID].
    change (mkSensorResult true _ _ _ _ _ (Some (ww_now w))) with (sensor_result true input (Some (ww_now w))).
    rewrite (created_sensor_projected actor) by (done || by intros t [= <-]).
    cbn [PostEntityStatus Z.eqb Pos.eqb cr_EntityID]. rewrite Hp, Hne, Hpu, Hl. done.
Qed.

Lemma post_sensor_run creator timeout request w actor (input : ProvisionSensorInput) d :
  sensorProvisioner creator = service_ProvisionSensorFor (mkSensorProvisioningService ProvisionSensorForAdminOrOwner timeout) ->
  registry_ok d -> times_ok d -> year_ok (ww_now w) -> answering w -> ww_ctx w = Some None ->
  ww_new_id w ∉ e_id <$> entities d -> actor <> uuid_Nil -> ValidateProvisionSensorInput actor input = None ->
  forall limit, parsePostEntityRequest request limit = Ok (PostSensor input) ->
  post_answer (post_sensor_status actor input d) (SensorEntityID (ps_GatewayID input) (ps_SensorID input))
    (sensor_body input (answered_time w (sensor_row (ps_GatewayID input) (ps_SensorID input) d)))
    (sensor_added (ww_now w) (ww_new_id w) (parent_id (ps_GatewayID input) d) input d) d
    (postDigitalTwin (Some creator) limit (Some actor) true request w d).
Proof.
  intros Hcr Hok Ht Hnow Hw Hctx Hid Ha Hv limit Hreq. unfold postDigitalTwin, authenticated.
  rewrite bool_decide_false by done. cbn [negb]. rewrite Hreq. unfold CreateEntity. rewrite Hctx.
  assert (ValidateCreateEntityInput actor (ToDomain (PostSensor input)) = None) as ->.
  { unfold ValidateCreateEntityInput. cbn. by rewrite bool_decide_false, Hv. }
  cbn [ToDomain ce_Type ce_Gateway ce_Sensor]. rewrite Hcr. unfold service_ProvisionSensorFor. rewrite Hv. cbn [sensor_repository].
  rewrite ProvisionSensorForAdminOrOwner_run by done. unfold sensor_decision, post_sensor_status. cbn [andb negb].
  destruct (bool_decide (ps_GatewayID input ∈ _)); cbn [negb]; [|done].
  pose proof (graph_answer w actor input d Ht Hnow Hv) as Hgraph. unfold as_created in Hgraph.
  destruct (bool_decide (actor ∈ rg_admins d)); cbn [negb andb]; [by destruct (graph_decision w input d) as [[] ?]|].
  unfold owner_decision. destruct (rg_roles d !! (actor, ps_GatewayID input)) as [role|].
  - rewrite (bool_decide_false (Some role = None)) by done. destruct (decide (role = "owner")) as [->|Hr].
    + rewrite bool_decide_true by done. cbn [negb]. by destruct (graph_decision w input d) as [[] ?].
    + by rewrite bool_decide_false by congruence.
  - by rewrite bool_decide_true by done.
Qed.

Definition post_status actor (req : PostEntityRequest uuid) d : Z :=
  match req with
  | PostGateway input => post_gateway_status actor input d
  | PostSensor input => post_sensor_status actor input d
  end.

Definition post_urn (req : PostEntityRequest uuid) : string :=
  match req with
  | PostGateway input => GatewayEntityID (pg_GatewayID input)
  | PostSensor input => SensorEntityID (ps_GatewayID input) (ps_SensorID input)
  end.

(** The body of a success: what was asked for, with the creation time. *)
Definition post_body w (req : PostEntityRequest uuid) d : Body uuid :=
  match req with
  | PostGateway input => gateway_body input (answered_time w (gateway_row (pg_GatewayID input) d))
  | PostSensor input => sensor_body input (answered_time w (sensor_row (ps_GatewayID input) (ps_SensorID input) d))
  end.

(** The tables with the new graph. *)
Definition post_added w (req : PostEntityRequest uuid) d : RegistryDB uuid :=
  match req with
  | PostGateway input => gateway_added (ww_now w) (ww_new_id w) input d
  | PostSensor input => sensor_added (ww_now w) (ww_new_id w) (parent_id (ps_GatewayID input) d) input d
  end.

Lemma composed timeout creator gp sp : composeMutations timeout = Ok (creator, gp, sp) ->
  gatewayProvisioner creator = service_ProvisionGateway (mkProvisioningService
    (mkProvisioningRepository ProvisionGateway ProvisionSensor) timeout)
  /\ sensorProvisioner creator = service_ProvisionSensorFor (mkSensorProvisioningService ProvisionSensorForAdminOrOwner timeout)
  /\ gps_patcher gp = PatchGatewayMetadata /\ sps_patcher sp = PatchSensorMetadata.
Proof.
  unfold composeMutations, NewProvisioningService, NewAdminOrOwnerSensorProvisioningService, NewGatewayPatchService,
    NewSensorPatchService. destruct (timeout <=? 0); [done|]. intros H. injection H as <- <- <-. done.
Qed.

(** C7 On consistent tables and a database that answers, the composed handler of
    creation requests answers exactly what the tables decide: 201 with the
    location and the new graph for a new Gateway or Sensor, 200 and no change for
    one that is just so, 409 for one that differs, 403 without authority, and 404
    without the owner, the parent or the membership; never a server error. The whole
    body is fixed as well: a success carries every field of the request, the entity
    and the creation time (the stored one when it was there already), and a refusal
    the code and text of its status. *)
Theorem post_answered timeout creator gp sp limit request w actor req d :
  composeMutations timeout = Ok (creator, gp, sp) -> registry_ok d -> times_ok d -> year_ok (ww_now w) ->
  answering w -> ww_ctx w = Some None -> ww_new_id w ∉ e_id <$> entities d -> actor <> uuid_Nil ->
  parsePostEntityRequest request limit = Ok req ->
  post_answer (post_status actor req d) (post_urn req) (post_body w req d) (post_added w req d) d
    (postDigitalTwin (Some creator) limit (Some actor) true request w d).
Proof.
  intros Hc Hok Ht Hnow Hw Hctx Hid Ha Hreq. apply composed in Hc as (Hg & Hs & _).
  pose proof (parsed_post actor request limit req Ha Hreq) as Hv. unfold ValidateCreateEntityInput in Hv.
  rewrite bool_decide_false in Hv by done. destruct req as [input|input]; cbn in Hv.
  - eapply post_gateway_run; try done. by destruct (ValidateProvisionGatewayInput actor input).
  - eapply post_sensor_run; try done. by destruct (ValidateProvisionSensorInput actor input).
Qed.

(** ** Patches *)

(** The name after the patch. *)
Definition patch_name (req : PatchEntityInput) d : string :=
  match pei_Gateway req, pei_Sensor req with
  | Some input, _ => patched_name input (stored_gateway_name d (pi_GatewayID (pei_Target req)))
  | None, Some input => default "" (psi_Name input)
  | None, None => ""
  end.

Definition patch_gateway_status actor (g : string) d : Z :=
  if negb (bool_decide (actor ∈ rg_admins d)) then 403
  else if bool_decide (g ∈ gateways (rg_store d)) then 200 else 404.

Definition patch_sensor_status actor (g s : string) d : Z :=
  let admin := bool_decide (actor ∈ rg_admins d) in
  if negb (bool_decide (g ∈ gateways (rg_store d))) then 404
  else if negb admin && negb (bool_decide (is_Some (rg_roles d !! (actor, g)))) then 404
  else if negb admin && negb (bool_decide (rg_roles d !! (actor, g) = Some "owner")) then 403
  else if bool_decide (is_Some (sensors (rg_store d) !! (g, s))) then 200 else 404.

Definition patch_status actor (req : PatchEntityInput) d : Z :=
  let p := pei_Target req in
  match pei_Gateway req with
  | Some _ => patch_gateway_status actor (pi_GatewayID p) d
  | None => patch_sensor_status actor (pi_GatewayID p) (pi_SensorID p) d
  end.

(** The tables after the patch: the renamed row and twin, or what was there. *)
Definition patch_tables w actor (req : PatchEntityInput) d : RegistryDB uuid :=
  let p := pei_Target req in
  match pei_Gateway req, pei_Sensor req with
  | Some input, _ => (gateway_patch_decision w actor (pi_GatewayID p) input d).2
  | None, Some input => (sensor_patch_decision w actor (pi_GatewayID p) (pi_SensorID p) (default "" (psi_Name input)) d).2
  | None, None => d
  end.

(** Status, tables, and for a success the entity named and its name. *)
Definition patch_answer (status : Z) (urn name : string) (new d : RegistryDB uuid)
    (answer : Response uuid * RegistryDB uuid) : Prop :=
  resp_status answer.1 = status /\ answer.2 = (if status =? 200 then new else d) /\ resp_location answer.1 = None
  /\ (status = 200 -> body_entity (resp_body answer.1) = Some urn /\ body_name (resp_body answer.1) = Some name).

Lemma patched_gateway_projected g name description time : ValidateGatewayID g = None -> name <> "" -> year_ok time ->
  exists body, NewPatchEntityResponseDTO (uuid := uuid) EntityTypeGateway
      (Some (patch_gateway_result g name description time)) None = Some body
  /\ body_entity body = Some (GatewayEntityID g) /\ body_name body = Some name.
Proof.
  intros Hg Hn [text Ht]. unfold NewPatchEntityResponseDTO, NewPatchGatewayResponseDTO, patch_gateway_result. cbn.
  rewrite Hg, (bool_decide_false (is_Some None)) by (by intros []). cbn. rewrite (bool_decide_false (name = "")) by done.
  cbn. rewrite urn_matches_gateway by done. cbn. rewrite Ht. cbn. eauto.
Qed.

Lemma patched_sensor_projected g s name unit time : ValidateGatewayID g = None -> ValidateSensorID s = None ->
  name <> "" -> year_ok time ->
  exists body, NewPatchEntityResponseDTO (uuid := uuid) EntityTypeSensor None
      (Some (patch_sensor_result g s name unit time)) = Some body
  /\ body_entity body = Some (SensorEntityID g s) /\ body_name body = Some name.
Proof.
  intros Hg Hs Hn [text Ht]. unfold NewPatchEntityResponseDTO, NewPatchSensorResponseDTO, patch_sensor_result. cbn.
  rewrite Hg, Hs, !(bool_decide_false (is_Some None)) by (by intros []). cbn.
  rewrite (bool_decide_false (name = "")) by done. cbn. rewrite urn_matches_sensor by done. cbn. rewrite Ht. cbn. eauto.
Qed.

Lemma project_answer (outcome : option (Body uuid)) new d urn name :
  (exists body, outcome = Some body /\ body_entity body = Some urn /\ body_name body = Some name) ->
  patch_answer 200 urn name new d
    match outcome with
    | Some body => (mkResponse 200 None body, new)
    | None => (write_error (HTwin ErrUnexpected), new)
    end.
Proof. intros (body & -> & He & Hn). by split_and!. Qed.

(** The time of a stored twin can be written. *)
Lemma twin_time_ok d e : times_ok d -> e ∈ entities d ->
  year_ok (default 0 (head (entity_updated_at (view d) <$> [e]))).
Proof. intros Ht He. by apply (to_entities d Ht). Qed.

Lemma stored_name_nonempty d g p : registry_ok d -> g ∈ gateways (rg_store d) -> p = stored_gateway_name d g -> p <> "".
Proof. intros Hok Hg ->. apply valid_name_nonempty. by apply (ro_gateways d Hok). Qed.

Lemma patched_name_nonempty (input : PatchGatewayInput) name : ValidatePatchGatewayInput input = None -> name <> "" ->
  patched_name input name <> "".
Proof.
  intros Hv Hn. unfold patched_name. destruct (pgi_Name input) as [n|] eqn:E; [|done]. cbn.
  unfold ValidatePatchGatewayInput in Hv. rewrite E in Hv. destruct (_ && _); [done|]. destruct (_ && _); [done|].
  apply valid_name_nonempty. by destruct (ValidProvisioningName n).
Qed.

Definition projected_gateway (outcome : res herror PatchGatewayResult * RegistryDB uuid) : Response uuid * RegistryDB uuid :=
  match outcome with
  | (Err err, d') => (write_error err, d')
  | (Ok r, d') => match NewPatchEntityResponseDTO EntityTypeGateway (Some r) None with
                  | Some body => (mkResponse 200 None body, d')
                  | None => (write_error (HTwin ErrUnexpected), d')
                  end
  end.

Definition projected_sensor (outcome : res herror PatchSensorResult * RegistryDB uuid) : Response uuid * RegistryDB uuid :=
  match outcome with
  | (Err err, d') => (write_error err, d')
  | (Ok r, d') => match NewPatchEntityResponseDTO EntityTypeSensor None (Some r) with
                  | Some body => (mkResponse 200 None body, d')
                  | None => (write_error (HTwin ErrUnexpected), d')
                  end
  end.

Lemma gateway_patch_answer w actor g input d : registry_ok d -> times_ok d -> year_ok (ww_statement w) ->
  ValidateGatewayID g = None -> ValidatePatchGatewayInput input = None ->
  patch_answer (patch_gateway_status actor g d) (GatewayEntityID g) (patched_name input (stored_gateway_name d g))
    (gateway_patch_decision w actor g input d).2 d (projected_gateway (gateway_patch_decision w actor g input d)).
Proof.
  intros Hok Ht Hst Hvg Hv. unfold gateway_patch_decision, patch_gateway_status.
  destruct (bool_decide (actor ∈ rg_admins d)); cbn [negb]; [|by split_and!].
  destruct (gateway_row g d) as [[[name de] cr]|] eqn:Hrow.
  2:{ apply gateway_row_none in Hrow. rewrite bool_decide_false by done. by split_and!. }
  pose proof (gateway_row_in d _ _ Hrow) as Hg. rewrite bool_decide_true by done.
  destruct (gateway_graph d g Hok Hg) as (p & Hp & Hpt & _ & _). rewrite (named_gateway d g p) by done.
  pose proof (gateway_row_name d _ _ _ _ Hrow) as Hn. pose proof (stored_name_nonempty d g name Hok Hg Hn) as Hne.
  rewrite <- Hn. destruct (decide _) as [[Hpn _]|Hch]; [rewrite Hpn|]; apply project_answer, patched_gateway_projected; try done.
  - by apply twin_time_ok.
  - by apply patched_name_nonempty.
Qed.

Lemma sensor_patch_answer w actor g s name d : registry_ok d -> times_ok d -> year_ok (ww_statement w) ->
  ValidateGatewayID g = None -> ValidateSensorID s = None -> ValidProvisioningName name = true ->
  patch_answer (patch_sensor_status actor g s d) (SensorEntityID g s) name
    (sensor_patch_decision w actor g s name d).2 d (projected_sensor (sensor_patch_decision w actor g s name d)).
Proof.
  intros Hok Ht Hst Hvg Hvs Hv. unfold sensor_patch_decision, patch_sensor_status.
  destruct (bool_decide (g ∈ gateways (rg_store d))) eqn:Hg; cbn [negb]; [|by split_and!]. apply bool_decide_eq_true in Hg.
  destruct (negb (bool_decide (actor ∈ _)) && negb (bool_decide (is_Some _))); [by split_and!|].
  destruct (negb (bool_decide (actor ∈ _)) && negb (bool_decide (_ = Some "owner"))); [by split_and!|].
  destruct (sensor_row g s d) as [[[sname unit] cr]|] eqn:Hrow.
  2:{ unfold sensor_row in Hrow. destruct (sensors (rg_store d) !! (g, s)); [done|].
      rewrite bool_decide_false by by intros []. by split_and!. }
  pose proof (sensor_row_in d _ _ _ Hrow) as Hs. rewrite bool_decide_true by done.
  destruct (gateway_graph d g Hok Hg) as (p & Hp & Hpt & _ & _).
  destruct (sensor_graph d g s p Hok Hs Hp Hpt) as (e & He & Het & _). rewrite (named_sensor d g s e) by done.
  apply valid_name_nonempty in Hv as Hne.
  destruct (decide (name = sname)) as [<-|Hn]; apply project_answer, patched_sensor_projected; try done.
  by apply twin_time_ok.
Qed.

(** C8 On consistent tables and a database that answers, the composed handler of
    patches answers exactly what the tables decide: 200 with the entity and its new
    name, the row and its twin renamed together when anything differs, 403 without
    authority, 404 for an entity or a membership that does not exist, and never a
    server error. *)
Theorem patch_answered timeout creator gp sp limit request urn w actor req d :
  composeMutations timeout = Ok (creator, gp, sp) -> registry_ok d -> times_ok d -> year_ok (ww_statement w) ->
  answering w -> ww_ctx w = Some None -> ww_op_ctx w = None -> actor <> uuid_Nil ->
  parsePatchEntityRequest request urn limit = Ok req ->
  patch_answer (patch_status actor req d) urn (patch_name req d) (patch_tables w actor req d) d
    (patchDigitalTwin (Some gp) (Some sp) limit (Some actor) true urn request w d).
Proof.
  intros Hc Hok Ht Hst Hw Hctx Hop Ha Hreq. apply composed in Hc as (_ & _ & Hgp & Hsp).
  unfold patchDigitalTwin, authenticated. rewrite bool_decide_false by done. cbn [negb]. rewrite Hreq.
  apply parsed_patch in Hreq as (_ & Hn & Hreq). unfold patch_status, patch_name, patch_tables.
  destruct req as [p gateway sensor]. cbn [pei_Target pei_Gateway pei_Sensor] in *.
  destruct Hn as [g Hg|g s Hg Hs]; cbn [pi_Type pi_GatewayID pi_SensorID] in *.
  - destruct Hreq as (input & -> & -> & Hv). unfold PatchGateway.
    rewrite Hctx, (bool_decide_false (actor = _)), Hg, (bool_decide_false (is_Some None)), Hv, Hgp by (done || by intros []).
    rewrite PatchGatewayMetadata_run by done. by apply gateway_patch_answer.
  - destruct Hreq as (input & -> & -> & Hv). destruct input as [[name|]]; [|done].
    assert (ValidProvisioningName name = true) as Hname.
    { unfold ValidatePatchSensorInput in Hv. cbn in Hv. by destruct (ValidProvisioningName name). }
    unfold PatchSensor.
    rewrite Hctx, (bool_decide_false (actor = _)), Hg, Hs, !(bool_decide_false (is_Some None)), Hv, Hsp by (done || by intros []).
    rewrite PatchSensorMetadata_run by done. by apply sensor_patch_answer.
Qed.

(** A body the parsers accept is a valid domain input: a creation request passes
    the checks of the create service for any user, and a patch names the entity of
    the path with the one kind of change that entity has. *)
Theorem parsed_requests_valid actor r urn limit :
  (forall req, actor <> uuid_Nil -> parsePostEntityRequest (uuid := uuid) r limit = Ok req ->
     ValidateCreateEntityInput actor (ToDomain req) = None)
  /\ (forall req, parsePatchEntityRequest r urn limit = Ok req ->
     ValidatePatchEntityInput req = None /\ names urn (pei_Target req)).
Proof.
  split; [intros req Ha; by apply parsed_post|]. intros req H. by apply parsed_patch in H as (? & ? & _).
Qed.

End projections.
