(* ===== verification/TwinReader.v ===== *)
(** * The PostgreSQL side of the Digital Twin: resolver and reader

    [ResolveGateway] and [ResolveEntity] of [digitaltwin/postgres_resolver.go],
    and [digitaltwin/postgres_twin_reader.go]: lists, details and states. *)

From S2P Require Import Prelude GoStrings GoTime GoFloat GoJson Identity Urn Uuid Telemetry.
From S2P Require Import Txn Store Persist HistoryQuery HistoryStore HistoryRepo TwinModel Cursor TwinStore.
#[local] Open Scope Z_scope.

(** The text PostgreSQL sends for a [jsonb] value. *)
Class JsonbText := jsonb_text : jsonb -> string.

(** ** Driver errors *)

Definition unavailable_prefix (code : string) : bool :=
  HasPrefix code "08" || HasPrefix code "53" || HasPrefix code "57".

Definition classifyReaderError (err : herror) : herror :=
  if is_ctx_error err then HJoin (HTwin ErrDependencyUnavailable) err
  else if is_cause ClosedPool err
  then HText "dependency unavailable: connection pool closed" (HTwin ErrDependencyUnavailable)
  else if is_cause NetError err then HJoin (HTwin ErrDependencyUnavailable) err
  else match as_pg_error err with
  | Some code =>
      if unavailable_prefix code
      then HText ("dependency unavailable: database unavailable (code " +:+ code +:+ ")") (HTwin ErrDependencyUnavailable)
      else HJoin (HTwin ErrUnexpected) err
  | None => HJoin (HTwin ErrUnexpected) err
  end.

Section reader.
Context {uuid : Type} `{U : UuidLib uuid} `{JT : JsonbText}.

(** [if ctx.Err() != nil { return nil, classifyReaderError(ctx.Err()) }] *)
Definition reader_ctx : HM uuid () :=
  leth c := ctx_Err in
  match c with
  | Some c => hfail (classifyReaderError (HCause (ctx_cause c)))
  | None => hret ()
  end.

(** A row read with [QueryRow] and [Scan]. *)
Definition query_row {A} (classify : herror -> herror) (query : HistoryDB uuid -> res herror A) : HM uuid A :=
  leth r := db_call query in
  match r with
  | Err err => hfail (classify err)
  | Ok a => hret a
  end.

(** [for rows.Next() { rows.Scan ... }] and [rows.Err()] over the rows found. *)
Fixpoint scan_rows {Row} (rows : list Row) : HM uuid (list Row) :=
  leth next := db_call (fun _ => Ok ()) in
  match next with
  | Err err => hfail (classifyReaderError err)
  | Ok _ =>
      match rows with
      | [] => hret []
      | row :: rows' =>
          leth scan := db_call (fun _ => Ok ()) in
          match scan with
          | Err err => hfail (classifyReaderError err)
          | Ok _ => leth rest := scan_rows rows' in hret (row :: rest)
          end
      end
  end.

Definition query_rows {Row} (query : HistoryDB uuid -> list Row) : HM uuid (list Row) :=
  leth rows := query_row classifyReaderError (fun db => Ok (query db)) in
  scan_rows rows.

(** ** Resolver *)

Definition classify_entity (err : herror) : herror :=
  classifyResolverError err (HTwin ErrNotFound) (HTwin ErrDependencyUnavailable) (HTwin ErrUnexpected).

Definition ResolveGateway (_ : PostgresResolver) (actor : uuid) (gatewayID : string)
    : HM uuid (option (ResolvedGateway uuid)) :=
  if bool_decide (actor = uuid_Nil) then hfail (HTwin ErrNilActor)
  else if bool_decide (is_Some (ValidateGatewayID gatewayID)) then hfail (HTwin ErrInvalidInput)
  else
    let gatewayURN := GatewayURNPrefix +:+ gatewayID in
    leth g := query_row classify_entity (resolveGatewayQuery actor gatewayURN gatewayID) in
    hret (Some g).

Definition ResolveEntity (_ : PostgresResolver) (actor : uuid) (parsed : ParsedIdentity)
    : HM uuid (option (ResolvedEntity uuid)) :=
  if bool_decide (actor = uuid_Nil) then hfail (HTwin ErrNilActor)
  else if negb (EntityType_Valid (pi_Type parsed)) then hfail (HTwin ErrInvalidInput)
  else if bool_decide (is_Some (ValidateGatewayID (pi_GatewayID parsed))) then hfail (HTwin ErrInvalidInput)
  else match pi_Type parsed with
  | EntityTypeGateway =>
      if negb (bool_decide (pi_SensorID parsed = "")) then hfail (HTwin ErrInvalidInput)
      else if negb (bool_decide (pi_URN parsed = GatewayURNPrefix +:+ pi_GatewayID parsed))
      then hfail (HTwin ErrInvalidInput)
      else
        leth row := query_row classify_entity (resolveGatewayEntityQuery actor (pi_URN parsed) (pi_GatewayID parsed)) in
        let '(id, entityID, entityType, gatewayID) := row in
        hret (Some (mkResolvedEntity id entityID (EntityType_of entityType) gatewayID ""))
  | EntityTypeSensor =>
      if bool_decide (is_Some (ValidateSensorID (pi_SensorID parsed))) then hfail (HTwin ErrInvalidInput)
      else if negb (bool_decide (pi_URN parsed = SensorURNPrefix +:+ pi_GatewayID parsed +:+ ":" +:+ pi_SensorID parsed))
      then hfail (HTwin ErrInvalidInput)
      else
        let parentURN := GatewayURNPrefix +:+ pi_GatewayID parsed in
        leth row := query_row classify_entity
                      (resolveSensorEntityQuery (pi_SensorID parsed) parentURN actor (pi_URN parsed) (pi_GatewayID parsed)) in
        let '(id, entityID, entityType, gatewayID, sensorID) := row in
        hret (Some (mkResolvedEntity id entityID (EntityType_of entityType) gatewayID sensorID))
  | EntityTypeOther _ => hfail (HTwin ErrInvalidInput)
  end.

(** ** Reader *)

(** [NewPostgresTwinReader] refuses a nil database; the value keeps nothing else. *)
Record PostgresTwinReader := mkPostgresTwinReader {}.

(** The limit a query asks for, or the error for one above the cap. *)
Definition reader_limit (limit : Z) : res herror Z :=
  if limit <=? 0 then Ok ContractDefaultLimit
  else if ContractMaxLimit <? limit then Err (HTwin ErrInvalidInput) else Ok limit.

(** An absent or empty cursor is no cursor. *)
Definition nonempty_cursor (after : option string) : option string :=
  match after with Some c => if bool_decide (c = "") then None else Some c | None => None end.

(** [afterCursor]: the entity after which the page starts. *)
Definition after_cursor (q : TwinListQuery) : res herror (option string) :=
  match nonempty_cursor (lq_After q) with
  | None => Ok None
  | Some text =>
      match ParseListCursor text (lq_GatewayID q) (lq_EntityType q) with
      | Err _ => Err (HTwin ErrInvalidCursor)
      | Ok c =>
          match ValidateListCursor (Some c) (lq_GatewayID q) (lq_EntityType q) with
          | Some _ => Err (HTwin ErrInvalidCursor)
          | None => Ok (Some (lc_EntityID c))
          end
      end
  end.

Definition summary_of (row : ListRow) : TwinSummary :=
  mkSummary (li_entity_id row) (EntityType_of (li_entity_type row)) (li_name row) (li_gateway_id row)
    (time_of_tz (li_updated_at row)).

(** The page: one row more than [limit] was asked for, to know whether there is
    a next page.  [items[limit-1]] exists whenever it is read. *)
Definition list_page (q : TwinListQuery) (limit : Z) (items : list TwinSummary) : res herror TwinListResult :=
  if limit <? Z.of_nat (length items) then
    match items !! Z.to_nat (limit - 1) with
    | None => Ok (mkListResult items None)
    | Some lastItem =>
        match EncodeListCursor (ts_ID lastItem) (lq_GatewayID q) (lq_EntityType q) with
        | Err err => Err (HJoin (HTwin ErrUnexpected) (HTwin err))
        | Ok c => Ok (mkListResult (take (Z.to_nat limit) items) (Some c))
        end
    end
  else Ok (mkListResult items None).

Definition PostgresTwinReader_ListEntities (_ : PostgresTwinReader) (actor : uuid) (q : TwinListQuery)
    : HM uuid (option TwinListResult) :=
  if bool_decide (actor = uuid_Nil) then hfail (HTwin ErrInvalidInput)
  else
    leth _ := reader_ctx in
    leth limit := of_res (reader_limit (lq_Limit q)) in
    if bool_decide (is_Some (lq_GatewayID q ≫= ValidateGatewayID)) then hfail (HTwin ErrInvalidInput)
    else if negb (default true (EntityType_Valid <$> lq_EntityType q)) then hfail (HTwin ErrInvalidInput)
    else
      leth after := of_res (after_cursor q) in
      leth rows := query_rows (listEntitiesQuery actor (lq_GatewayID q) (lq_EntityType q) after (int64_add limit 1)) in
      leth page := of_res (list_page q limit (summary_of <$> rows)) in
      hret (Some page).

(** ** Details *)

(** The resolved entity a detail or a state is read for. *)
Definition check_entity (entity : ResolvedEntity uuid) : option herror :=
  if bool_decide (re_PublicURN entity = "") || bool_decide (re_GatewayID entity = "")
     || negb (EntityType_Valid (re_Type entity)) || bool_decide (re_InternalID entity = uuid_Nil)
  then Some (HTwin ErrInvalidInput)
  else if bool_decide (re_Type entity = EntityTypeSensor) && bool_decide (re_SensorID entity = "")
  then Some (HTwin ErrInvalidInput) else None.

Definition after_relationship (entity : ResolvedEntity uuid) (q : TwinDetailQuery) : res herror (option string) :=
  match nonempty_cursor (dq_RelationshipAfter q) with
  | None => Ok None
  | Some text =>
      match ParseRelationshipCursor text (re_PublicURN entity) with
      | Err _ => Err (HTwin ErrInvalidCursor)
      | Ok c =>
          match ValidateRelationshipCursor (Some c) (re_PublicURN entity) with
          | Some _ => Err (HTwin ErrInvalidCursor)
          | None =>
              if negb (bool_decide (rc_RelType c = "hasSensor")) || negb (bool_decide (rc_SourceURN c = re_PublicURN entity))
              then Err (HTwin ErrInvalidCursor) else Ok (Some (rc_TargetURN c))
          end
      end
  end.

(** [rawItems]: the rows with a relationship. *)
Definition relationship_items (rows : list GatewayDetailRow) : list RelationshipItem :=
  omap (fun row =>
    '(relType, targetURN, relCreated) ← gd_relationship row;
    Some (mkRelationshipItem "Relationship" relType targetURN (time_of_tz relCreated))) rows.

(** [items], [partial] and [nextCursor]. *)
Definition relationship_page (entity : ResolvedEntity uuid) (relLimit : Z) (rawItems : list RelationshipItem)
    : res herror (list RelationshipItem * bool * option string) :=
  if relLimit <? Z.of_nat (length rawItems) then
    match rawItems !! Z.to_nat (relLimit - 1) with
    | None => Ok (rawItems, false, None)
    | Some lastItem =>
        match EncodeRelationshipCursor (re_PublicURN entity) "hasSensor" (ri_TargetURN lastItem) with
        | Err err => Err (HJoin (HTwin ErrUnexpected) (HTwin err))
        | Ok c => Ok (take (Z.to_nat relLimit) rawItems, true, Some c)
        end
    end
  else Ok (rawItems, false, None).

Definition getGatewayDetail (actor : uuid) (entity : ResolvedEntity uuid) (relLimit : Z) (after : option string)
    : HM uuid (option TwinDetailResult) :=
  leth rows := query_rows (gatewayDetailQuery actor entity after (int64_add relLimit 1)) in
  match rows with
  | [] => hfail (HTwin ErrNotFound)
  | source :: _ =>
      leth page := of_res (relationship_page entity relLimit (relationship_items rows)) in
      let '(items, partial, nextCursor) := page in
      hret (Some (mkDetailResult (re_PublicURN entity) EntityTypeGateway (gd_name source) (gd_description source) None
                    (gd_gateway_id source) (time_of_tz (gd_updated_at source)) items
                    (Some (mkRelationshipPage "hasSensor" relLimit (Z.of_nat (length items)) partial nextCursor))))
  end.

Definition getSensorDetail (actor : uuid) (entity : ResolvedEntity uuid) : HM uuid (option TwinDetailResult) :=
  leth row := query_row (fun err => if is_cause ErrNoRows err then HTwin ErrNotFound else classifyReaderError err)
                (sensorDetailQuery actor entity) in
  hret (Some (mkDetailResult (re_PublicURN entity) EntityTypeSensor (sd_name row) None (sd_unit row)
                (sd_gateway_id row) (time_of_tz (sd_updated_at row)) [] None)).

Definition PostgresTwinReader_GetDetail (_ : PostgresTwinReader) (actor : uuid) (entity : ResolvedEntity uuid)
    (q : TwinDetailQuery) : HM uuid (option TwinDetailResult) :=
  if bool_decide (actor = uuid_Nil) then hfail (HTwin ErrInvalidInput)
  else
    leth _ := reader_ctx in
    match check_entity entity with
    | Some err => hfail err
    | None =>
        if negb (bool_decide (dq_EntityID q = "")) && negb (bool_decide (dq_EntityID q = re_PublicURN entity))
        then hfail (HTwin ErrInvalidInput)
        else
          leth relLimit := of_res (reader_limit (dq_RelationshipLimit q)) in
          leth after := of_res (after_relationship entity q) in
          match re_Type entity with
          | EntityTypeGateway => getGatewayDetail actor entity relLimit after
          | EntityTypeSensor => getSensorDetail actor entity
          | EntityTypeOther _ => hfail (HTwin ErrInvalidInput)
          end
    end.

(** ** States *)

(** [reported_version] and the other columns are NULL only without a row. *)
Definition scanStateRow (entity : ResolvedEntity uuid) (rows : list (option TwinState))
    : HM uuid (option TwinStateResult) :=
  leth next := db_call (fun _ => Ok ()) in
  match next with
  | Err err => hfail (classifyReaderError err)
  | Ok _ =>
      match rows with
      | [] => hfail (HTwin ErrNotFound)
      | row :: _ =>
          leth scan := db_call (fun _ => Ok ()) in
          match scan with
          | Err err => hfail (classifyReaderError err)
          | Ok _ =>
              leth rowsErr := db_call (fun _ => Ok ()) in
              match rowsErr with
              | Err err => hfail (classifyReaderError err)
              | Ok _ =>
                  match row with
                  | None =>
                      hfail (HText ("unexpected digital twin error: missing twin_states row for entity "
                                      +:+ re_PublicURN entity) (HTwin ErrUnexpected))
                  | Some st =>
                      hret (Some (mkStateResult (re_PublicURN entity) (re_Type entity) (re_GatewayID entity)
                                    (jsonb_text (st_reported_state st)) (jsonb_text (st_desired_state st))
                                    (st_reported_version st) (st_desired_version st)
                                    (time_of_tz <$> st_last_reported_at st) (time_of_tz <$> st_last_desired_at st)
                                    (time_of_tz (st_updated_at st))))
                  end
              end
          end
      end
  end.

(** The query of [getGatewayState] or [getSensorState], and its row. *)
Definition get_state (query : HistoryDB uuid -> list (option TwinState)) (entity : ResolvedEntity uuid)
    : HM uuid (option TwinStateResult) :=
  leth rows := query_row classifyReaderError (fun db => Ok (query db)) in
  scanStateRow entity rows.

Definition PostgresTwinReader_GetState (_ : PostgresTwinReader) (actor : uuid) (entity : ResolvedEntity uuid)
    : HM uuid (option TwinStateResult) :=
  if bool_decide (actor = uuid_Nil) then hfail (HTwin ErrInvalidInput)
  else
    leth _ := reader_ctx in
    match check_entity entity with
    | Some err => hfail err
    | None =>
        match re_Type entity with
        | EntityTypeGateway => get_state (gatewayStateQuery actor entity) entity
        | EntityTypeSensor => get_state (sensorStateQuery actor entity) entity
        | EntityTypeOther _ => hfail (HTwin ErrInvalidInput)
        end
    end.

End reader.
