(* ===== verification/TwinService.v ===== *)
(** * Digital Twin reads: preparation and service

    [digitaltwin/read_preparation.go] and [digitaltwin/read_service.go] over the
    interfaces of [digitaltwin/interfaces.go]: validation before any access,
    resolution of the entity under the actor's membership, one time budget,
    and delegation of value histories to the telemetry service.  A nil
    dependency is [None]. *)

From S2P Require Import Prelude GoStrings GoTime GoFloat Identity Urn Uuid Store HistoryQuery HistoryStore.
From S2P Require Import History TwinModel Cursor TwinValidation.
#[local] Open Scope Z_scope.

(** ** Configuration *)

Record ReadPreparationConfig := mkReadConfig {
  rpc_QueryTimeout : Z;
  rpc_ListMaxLimit : Z;
  rpc_RelationshipMaxLimit : Z;
  rpc_HistoryMaxRange : Z;
  rpc_HistoryRawWindow : Z;
  rpc_HistoryMinPoints : Z;
  rpc_HistoryMaxPoints : Z;
}.

Definition DefaultReadPreparationConfig : ReadPreparationConfig :=
  mkReadConfig ContractDefaultQueryTimeout ContractMaxLimit ContractMaxLimit ContractMaxHistoryRange
    ContractMaxRawWindow ContractMinPointsLowerLimit ContractMaxPointsUpperLimit.

(** The error text, when the configuration is refused. *)
Definition ValidateReadPreparationConfig (cfg : ReadPreparationConfig) : option string :=
  if rpc_QueryTimeout cfg <=? 0 then Some "READ_QUERY_TIMEOUT must be a positive duration"
  else if ContractMaxQueryTimeout <? rpc_QueryTimeout cfg
  then Some "READ_QUERY_TIMEOUT cannot exceed contract hard cap of 5s"
  else if (rpc_ListMaxLimit cfg <=? 0) || (ContractMaxLimit <? rpc_ListMaxLimit cfg)
  then Some "TWIN_LIST_MAX_LIMIT cannot exceed contract hard cap of 200"
  else if (rpc_RelationshipMaxLimit cfg <=? 0) || (ContractMaxLimit <? rpc_RelationshipMaxLimit cfg)
  then Some "TWIN_RELATIONSHIP_MAX_LIMIT cannot exceed contract hard cap of 200"
  else if rpc_HistoryMaxRange cfg <=? 0 then Some "HISTORY_MAX_RANGE must be a positive duration"
  else if ContractMaxHistoryRange <? rpc_HistoryMaxRange cfg
  then Some "HISTORY_MAX_RANGE cannot exceed contract hard cap of 744h0m0s"
  else if rpc_HistoryRawWindow cfg <=? 0 then Some "HISTORY_RAW_WINDOW must be a positive duration"
  else if ContractMaxRawWindow <? rpc_HistoryRawWindow cfg
  then Some "HISTORY_RAW_WINDOW cannot exceed contract hard cap of 10s"
  else if rpc_HistoryMaxRange cfg <? rpc_HistoryRawWindow cfg
  then Some "HISTORY_RAW_WINDOW cannot exceed HISTORY_MAX_RANGE"
  else if rpc_HistoryMinPoints cfg <? ContractMinPointsLowerLimit
  then Some "HISTORY_MIN_POINTS cannot be less than contract lower limit of 100"
  else if ContractMaxPointsUpperLimit <? rpc_HistoryMinPoints cfg
  then Some "HISTORY_MIN_POINTS cannot exceed contract hard cap of 2000"
  else if ContractMaxPointsUpperLimit <? rpc_HistoryMaxPoints cfg
  then Some "HISTORY_MAX_POINTS cannot exceed contract hard cap of 2000"
  else if rpc_HistoryMaxPoints cfg <? rpc_HistoryMinPoints cfg
  then Some "HISTORY_MIN_POINTS must be less than or equal to HISTORY_MAX_POINTS"
  else None.

Definition NewReadPreparationConfig (timeout listMaxLimit relMaxLimit historyMaxRange historyRawWindow
    historyMinPoints historyMaxPoints : Z) : res string ReadPreparationConfig :=
  let cfg := mkReadConfig timeout listMaxLimit relMaxLimit historyMaxRange historyRawWindow historyMinPoints
               historyMaxPoints in
  match ValidateReadPreparationConfig cfg with
  | Some err => Err err
  | None => Ok cfg
  end.

(** [TwinConfig.ToReadPreparationConfig] of [config/read_bounds.go]. *)
Definition ToReadPreparationConfig (c : TwinConfig) (hist : HistoryConfig) : ReadPreparationConfig :=
  mkReadConfig (hb_QueryTimeout hist) (tb_ListMaxLimit c) (tb_RelationshipMaxLimit c) (hb_MaxRange hist)
    (hb_RawWindow hist) (hb_MinPoints hist) (hb_MaxPoints hist).

(** ** Interfaces *)

(** A nil result pointer beside a nil error is [None]. *)
Class EntityResolver (uuid : Type) `{UuidLib uuid} (R : Type) :=
  resolve_entity : R -> uuid -> ParsedIdentity -> HM uuid (option (ResolvedEntity uuid)).

Class TwinReader (uuid : Type) `{UuidLib uuid} (R : Type) := {
  ListEntities : R -> uuid -> TwinListQuery -> HM uuid (option TwinListResult);
  GetDetail : R -> uuid -> ResolvedEntity uuid -> TwinDetailQuery -> HM uuid (option TwinDetailResult);
  GetState : R -> uuid -> ResolvedEntity uuid -> HM uuid (option TwinStateResult);
  ReadTemporalHistory : R -> uuid -> ResolvedEntity uuid -> TwinHistoryQuery -> HM uuid (option (TwinHistoryResult uuid));
}.

Class TelemetryHistoryDelegator (uuid : Type) `{UuidLib uuid} (D : Type) :=
  delegate_history : D -> uuid -> TelemetryHistoryQuery -> HM uuid (option (TelemetryHistoryResult uuid)).

(** ** Preparation *)

Definition dependency : herror := HTwin ErrDependencyUnavailable.

Definition mapTelemetryHistoryError (err : HistoryError) : herror :=
  if bool_decide (err = ErrHistoryInvalidInput) then HTwin ErrInvalidInput else HErr err.

Section twins.
Context {uuid : Type} `{U : UuidLib uuid} {R Rd D : Type}.
Context `{!EntityResolver uuid R, !TwinReader uuid Rd, !TelemetryHistoryDelegator uuid D}.

Record ReadPreparation := mkReadPreparation {
  rp_resolver : option R;
  rp_cfg : ReadPreparationConfig;
}.

Definition NewReadPreparation (resolver : option R) (cfg : ReadPreparationConfig) : res string ReadPreparation :=
  match resolver with
  | None => Err "resolver is required"
  | Some _ =>
      match ValidateReadPreparationConfig cfg with
      | Some err => Err err
      | None => Ok (mkReadPreparation resolver cfg)
      end
  end.

(** [err = fn(...)] and the checks after it. *)
Definition run_scoped {T} (fn : HM uuid T) : HM uuid T :=
  leth r := scoped dependency fn in of_res r.

(** The checks of the resolver, the actor, the callback and the query, in the
    order all four operations make them. *)
Definition prepared {A T} (p : ReadPreparation) (actor : uuid) (fn : option A) (refusal : option herror)
    (k : R -> A -> HM uuid T) : HM uuid T :=
  match rp_resolver p with
  | None => hfail dependency
  | Some resolver =>
      if bool_decide (actor = uuid_Nil) then hfail (HTwin ErrNilActor)
      else match fn with
      | None => hfail (HTwin ErrInvalidInput)
      | Some fn => match refusal with Some err => hfail err | None => k resolver fn end
      end
  end.

Definition PrepareList {T} (p : ReadPreparation) (actor : uuid) (q : TwinListQuery)
    (fn : option (TwinListQuery -> HM uuid T)) : HM uuid T :=
  prepared p actor fn (HTwin <$> ValidateTwinListQuery q (rpc_ListMaxLimit (rp_cfg p))) (fun _ fn =>
    leth _ := ensure_ctx dependency in
    run_scoped (fn q)).

(** From the parsed name to the callback: the scope of [PrepareDetail],
    [PrepareState] and [PrepareHistory]. *)
Definition with_entity {T} (resolver : R) (actor : uuid) (parsed : ParsedIdentity)
    (fn : ResolvedEntity uuid -> HM uuid T) : HM uuid T :=
  leth _ := ensure_ctx dependency in
  leth r := htry (resolve_entity resolver actor parsed) in
  match r with
  | Err err => leth _ := ensure_ctx dependency in hfail err
  | Ok None => hfail (HTwin ErrNotFound)
  | Ok (Some entity) =>
      leth _ := ensure_ctx dependency in
      run_scoped (fn entity)
  end.

Definition PrepareDetail {T} (p : ReadPreparation) (actor : uuid) (q : TwinDetailQuery)
    (fn : option (ResolvedEntity uuid -> TwinDetailQuery -> HM uuid T)) : HM uuid T :=
  prepared p actor fn (HTwin <$> ValidateTwinDetailQuery q (rpc_RelationshipMaxLimit (rp_cfg p))) (fun resolver fn =>
    match ParseEntityURN (dq_EntityID q) with
    | Err _ => hfail (HTwin ErrInvalidInput)
    | Ok parsed => with_entity resolver actor parsed (fun entity => fn entity q)
    end).

Definition PrepareState {T} (p : ReadPreparation) (actor : uuid) (q : TwinStateQuery)
    (fn : option (ResolvedEntity uuid -> TwinStateQuery -> HM uuid T)) : HM uuid T :=
  prepared p actor fn (HTwin <$> ValidateTwinStateQuery q) (fun resolver fn =>
    match ParseEntityURN (sq_EntityID q) with
    | Err _ => hfail (HTwin ErrInvalidInput)
    | Ok parsed => with_entity resolver actor parsed (fun entity => fn entity q)
    end).

Definition effective_window (window : Z) : Z :=
  if (window <=? 0) || (ContractMaxRawWindow <? window) then ContractMaxRawWindow else window.

Definition with_window (q : TwinHistoryQuery) (window : Z) : TwinHistoryQuery :=
  mkTwinHistoryQuery (tq_EntityID q) (tq_Property q) (tq_Range q) (tq_Resolution q) (tq_MaxPoints q) window.

Definition PrepareHistory {T} (p : ReadPreparation) (actor : uuid) (q : TwinHistoryQuery)
    (fn : option (ResolvedEntity uuid -> TwinHistoryQuery -> HM uuid T)) : HM uuid T :=
  let cfg := rp_cfg p in
  prepared p actor fn (HTwin <$> ValidateTwinHistoryQuery q) (fun resolver fn =>
    match ParseEntityURN (tq_EntityID q) with
    | Err _ => hfail (HTwin ErrInvalidInput)
    | Ok parsed =>
        if negb (bool_decide (pi_Type parsed = EntityTypeSensor)) then hfail (HTwin ErrInvalidProperty)
        else if (tq_MaxPoints q <? rpc_HistoryMinPoints cfg) || (rpc_HistoryMaxPoints cfg <? tq_MaxPoints q)
        then hfail (HTwin ErrInvalidInput)
        else
          let effectiveRawWindow := effective_window (rpc_HistoryRawWindow cfg) in
          match ValidateHistoryTimeRange (tq_Range q) (tq_Resolution q) (rpc_HistoryMaxRange cfg) effectiveRawWindow
                  (tq_MaxPoints q) with
          | Some err => hfail (mapTelemetryHistoryError err)
          | None => with_entity resolver actor parsed (fun entity => fn entity (with_window q effectiveRawWindow))
          end
    end).

(** ** Service *)

Record readService := mkReadService {
  preparation : option ReadPreparation;
  reader : option Rd;
  telemetryHistory : option D;
}.

Definition NewReadService (prep : option ReadPreparation) (rd : option Rd) (history : option D)
    : res string readService :=
  match prep, rd, history with
  | None, _, _ => Err "preparation is required"
  | _, None, _ => Err "reader is required"
  | _, _, None => Err "telemetryHistory is required"
  | _, _, _ => Ok (mkReadService prep rd history)
  end.

(** A reader must not return a nil result with a nil error. *)
Definition non_nil {T} (what : string) (m : HM uuid (option T)) : HM uuid T :=
  leth r := m in
  match r with
  | None => hfail (HText ("unexpected digital twin error: " +:+ what +:+ " returned nil result without error")
                     (HTwin ErrUnexpected))
  | Some r => hret r
  end.

(** The dependencies every operation needs. *)
Definition with_reader {T} (s : readService) (k : ReadPreparation -> Rd -> HM uuid T) : HM uuid T :=
  match preparation s, reader s with
  | Some prep, Some rd => k prep rd
  | _, _ => hfail dependency
  end.

Definition ListTwins (s : readService) (actor : uuid) (q : TwinListQuery) : HM uuid TwinListResult :=
  with_reader s (fun prep rd =>
    PrepareList prep actor q (Some (fun validatedQ => non_nil "reader" (ListEntities rd actor validatedQ)))).

Definition GetTwinDetail (s : readService) (actor : uuid) (q : TwinDetailQuery) : HM uuid TwinDetailResult :=
  with_reader s (fun prep rd =>
    PrepareDetail prep actor q (Some (fun entity validatedQ => non_nil "reader" (GetDetail rd actor entity validatedQ)))).

Definition GetTwinState (s : readService) (actor : uuid) (q : TwinStateQuery) : HM uuid TwinStateResult :=
  with_reader s (fun prep rd =>
    PrepareState prep actor q (Some (fun entity _ => non_nil "reader" (GetState rd actor entity)))).

(** The sentinels of [telemetry] that [digitaltwin] re-exports. *)
Definition is_borrowed (err : herror) : bool :=
  is_history ErrHistoryRangeTooLarge err || is_history ErrHistoryInvalidResolution err
  || is_history ErrHistoryRawLimitExceeded err || is_history ErrHistoryResolutionTooFine err.

(** [err] itself when it already carries the sentinel. *)
Definition as_twin (e : TwinError) (err : herror) : herror := if is_twin e err then err else HJoin (HTwin e) err.

Definition mapTelemetryDelegationError (err : herror) : herror :=
  if is_borrowed err then err
  else if is_twin ErrNotFound err || is_history ErrHistoryNotFound err then as_twin ErrNotFound err
  else if is_twin ErrDependencyUnavailable err || is_history ErrHistoryDependency err || is_cause Canceled err
          || is_cause DeadlineExceeded err then as_twin ErrDependencyUnavailable err
  else if is_twin ErrInvalidInput err || is_history ErrHistoryInvalidInput err then as_twin ErrInvalidInput err
  else if is_twin ErrNilActor err || is_history ErrHistoryNilActor err then as_twin ErrNilActor err
  else as_twin ErrUnexpected err.

Definition delegateTelemetryHistory (s : readService) (actor : uuid) (entity : ResolvedEntity uuid) (q : TwinHistoryQuery)
    : HM uuid (option (TwinHistoryResult uuid)) :=
  match telemetryHistory s with
  | None => hfail dependency
  | Some history =>
      leth _ := ensure_ctx dependency in
      let telemQ := mkHistoryQuery (re_GatewayID entity) (re_SensorID entity) (tq_Range q) (tq_Resolution q)
                      (tq_MaxPoints q) in
      leth r := scoped dependency (delegate_history history actor telemQ) in
      match r with
      | Err err => hfail (mapTelemetryDelegationError err)
      | Ok None => hfail (HText "unexpected digital twin error: telemetry delegator returned nil result without error"
                            (HTwin ErrUnexpected))
      | Ok (Some telemRes) =>
          hret (Some (mkTwinHistoryResult (re_PublicURN entity) SelectorValue (hr_Unit telemRes) (hr_From telemRes)
                        (hr_To telemRes) (hr_Mode telemRes) (hr_Resolution telemRes) (hr_PointCount telemRes)
                        (Some telemRes) [] []))
      end
  end.

Definition GetTwinHistory (s : readService) (actor : uuid) (q : TwinHistoryQuery) : HM uuid (TwinHistoryResult uuid) :=
  with_reader s (fun prep rd =>
    PrepareHistory prep actor q (Some (fun entity validatedQ =>
      match tq_Property validatedQ with
      | SelectorSampleIntervalUS => non_nil "reader" (ReadTemporalHistory rd actor entity validatedQ)
      | SelectorValue => non_nil "telemetry delegator" (delegateTelemetryHistory s actor entity validatedQ)
      | SelectorOther _ => hfail (HTwin ErrInvalidProperty)
      end))).

End twins.
Arguments ReadPreparation : clear implicits.
Arguments readService : clear implicits.
Arguments mkReadPreparation {R}.
Arguments mkReadService {R Rd D}.
