(* ===== verification/TwinTemporal.v ===== *)
(** * Temporal histories of Digital Twin properties

    [digitaltwin/postgres_temporal_reader.go]: one statement reads the bounded
    observations, or their buckets, together with a summary of the whole
    window; the summary decides whether the window is of one type and one unit.
    The error texts, which nothing reads, are kept without their arguments. *)

From stdpp Require Import sorting.
From S2P Require Import Prelude GoStrings GoTime GoFloat GoJson Decode Identity Urn Uuid Telemetry.
From S2P Require Import Txn Store Persist HistoryQuery HistoryStore History HistoryRepo TwinModel TwinStore TwinReader TwinService.
#[local] Open Scope Z_scope.

(** [MIN] of a text column in the collation of the database. *)
Class TextMin := sql_min_text : list string -> option string.

(** The documented [MIN]: NULL without a row, else one of the values. *)
Class TextMinLaw `{TextMin} :=
  sql_min_text_spec l : match sql_min_text l with None => l = [] | Some m => m ∈ l end.

(** [x IS NOT NULL] *)
Definition present {A} (o : option A) : bool := match o with Some _ => true | None => false end.

(** ** Observations *)

Definition maxExactInterval : Z := 2 ^ 53.

Definition isInvalidSampleInterval (val : float64) : bool :=
  IsNaN val || IsInf val || SFleb val (f64_of_int 0) || SFltb (f64_of_int maxExactInterval) val
  || negb (SFeqb val (Trunc val)).

(** The same condition in the statement; PostgreSQL sorts NaN above every number
    and lets it equal itself. *)
Definition invalid_interval (val : float64) : bool :=
  SFleb val (f64_of_int 0) || (IsNaN val || SFltb (f64_of_int maxExactInterval) val)
  || negb (IsNaN val || SFeqb val (Trunc val)).

Record TemporalWindowSummary := mkWindowSummary {
  TotalCount : Z;
  NumberCount : Z;
  TextCount : Z;
  BooleanCount : Z;
  InvalidTypeCount : Z;
  InvalidIntervalCount : Z;
  UnknownUnitCount : Z;
  MalformedUnitCount : Z;
  DistinctUnitCount : Z;
  MinUnit : option string;
}.

Record TemporalClassification := mkClassification {
  tc_ValueType : string;
  tc_Unit : option string;
  tc_IsHomogeneous : bool;
  tc_TotalCount : Z;
}.

Definition unexpected (text : string) : herror := HText ("unexpected digital twin error: " +:+ text) (HTwin ErrUnexpected).

(** [classifyTemporalWindow]; a nil summary is [None]. *)
Definition classifyTemporalWindow (summary : option TemporalWindowSummary) (propertyName : string)
    : res herror TemporalClassification :=
  match summary with
  | None => Ok (mkClassification "" None true 0)
  | Some s =>
    if TotalCount s =? 0 then Ok (mkClassification "" None true 0)
    else if 0 <? InvalidTypeCount s
    then Err (unexpected "invalid temporal observation: expected exactly 1 non-null value column")
    else if 0 <? MalformedUnitCount s then Err (unexpected "temporal metadata has malformed non-string unit")
    else
      let! valType :=
        if NumberCount s =? TotalCount s then Ok "number"
        else if TextCount s =? TotalCount s then Ok "text"
        else if BooleanCount s =? TotalCount s then Ok "boolean"
        else Err (unexpected "mixed stored types in temporal window") in
      let interval := bool_decide (propertyName = "sample_interval_us") in
      if interval && negb (bool_decide (valType = "number"))
      then Err (unexpected "sample_interval_us observation has non-numeric type")
      else if interval && (0 <? InvalidIntervalCount s)
      then Err (unexpected "sample_interval_us observation has invalid interval value")
      else if UnknownUnitCount s =? TotalCount s then Ok (mkClassification valType None true (TotalCount s))
      else if (UnknownUnitCount s =? 0) && (DistinctUnitCount s =? 1)
      then Ok (mkClassification valType (MinUnit s) true (TotalCount s))
      else if bool_decide (valType = "number") then Err (HTwin ErrInconsistentUnit)
      else Ok (mkClassification valType None false (TotalCount s))
  end.

(** [inspectMetadataUnit]: the unit and whether it is malformed.  Go keeps the
    last of two members with one key. *)
Definition inspectMetadataUnit (metadata : string) : option string * bool :=
  if str_len metadata =? 0 then (None, false)
  else match json_parse (S max_nesting) metadata with
  | None => (None, true)
  | Some JNull => (None, false)
  | Some (JObj members) =>
      match list_to_map (M := gmap string json) (rev members) !! "unit" with
      | None | Some JNull => (None, false)
      | Some (JStr s) => (Some s, false)
      | Some _ => (None, true)
      end
  | Some _ => (None, true)
  end.

Section temporal.
Context {uuid : Type} `{U : UuidLib uuid} `{SF : SqlFunctions} `{JT : JsonbText} `{TM : TextMin}.
Implicit Types (db : HistoryDB uuid) (r : TemporalRow uuid).

(** ** The statement *)

(** [authorized_sensor]: the entity, its Sensor, its Gateway entity and the
    relationship between them, for a member of the Gateway. *)
Definition temporal_source (actor : uuid) (entity : ResolvedEntity uuid) db (e : TwinEntity uuid) : Prop :=
  e_id e = re_InternalID entity /\ e_entity_id e = re_PublicURN entity /\ e_entity_type e = "Sensor"
  /\ e_gateway_id e = Some (re_GatewayID entity)
  /\ is_Some (sensors (store db) !! (re_GatewayID entity, re_SensorID entity))
  /\ e_entity_id e = SensorEntityID (re_GatewayID entity) (re_SensorID entity)
  /\ provisioned_under (GatewayEntityID (re_GatewayID entity)) db e
  /\ has_gateway db e /\ member_of actor db e.

#[export] Instance temporal_source_dec actor entity db e : Decision (temporal_source actor entity db e).
Proof. unfold temporal_source. apply _. Defined.

(** The observations of one property of an entity in [from, to). *)
Definition observed_in (id : uuid) (property : string) (from to : Z) r : Prop :=
  tv_entity_id r = id /\ tv_property_name r = property /\ from <= tv_observed_at r < to.

#[export] Instance observed_in_dec id property from to r : Decision (observed_in id property from to r).
Proof. unfold observed_in. apply _. Defined.

Definition observations (id : uuid) (property : string) (from to : Z) db : list (TemporalRow uuid) :=
  filter (observed_in id property from to) (twin_temporal_values (store db)).

(** [ORDER BY observed_at ASC, message_id ASC NULLS LAST]; PostgreSQL orders
    identifiers by their bytes, as their texts are ordered. *)
Definition message_le (m1 m2 : option uuid) : Prop :=
  match m1, m2 with
  | _, None => True
  | None, Some _ => False
  | Some u1, Some u2 => c_le (uuid_String u1) (uuid_String u2)
  end.

#[export] Instance message_le_dec : RelDecision message_le.
Proof. intros m1 m2. unfold message_le. destruct m1, m2; apply _. Defined.

Definition observation_le r1 r2 : Prop :=
  tv_observed_at r1 < tv_observed_at r2
  \/ (tv_observed_at r1 = tv_observed_at r2 /\ message_le (tv_message_id r1) (tv_message_id r2)).

#[export] Instance observation_le_dec : RelDecision observation_le.
Proof. intros r1 r2. unfold observation_le. apply _. Defined.

(** The columns that are not NULL. *)
Definition value_columns r : Z :=
  Z.b2z (present (tv_value_number r)) + Z.b2z (present (tv_value_text r)) + Z.b2z (present (tv_value_boolean r)).

(** [metadata->'unit']: missing or JSON null, a text, or anything else. *)
Inductive unit_class := UnitUnknown | UnitText (unit : string) | UnitMalformed.

Definition unit_of r : unit_class :=
  match tv_metadata r !! "unit" with
  | None | Some JNull => UnitUnknown
  | Some (JStr unit) => UnitText unit
  | Some _ => UnitMalformed
  end.

Definition is_unknown r : bool := match unit_of r with UnitUnknown => true | _ => false end.
Definition is_malformed r : bool := match unit_of r with UnitMalformed => true | _ => false end.
Definition unit_text r : option string := match unit_of r with UnitText unit => Some unit | _ => None end.

Definition count_if (f : TemporalRow uuid -> bool) (rows : list (TemporalRow uuid)) : Z :=
  Z.of_nat (length (List.filter f rows)).

(** [window_summary] *)
Definition window_summary (rows : list (TemporalRow uuid)) : TemporalWindowSummary :=
  let units := omap unit_text rows in
  mkWindowSummary (Z.of_nat (length rows))
    (count_if (present ∘ tv_value_number) rows)
    (count_if (present ∘ tv_value_text) rows)
    (count_if (present ∘ tv_value_boolean) rows)
    (count_if (fun r => negb (value_columns r =? 1)) rows)
    (count_if (fun r => match tv_value_number r with Some v => invalid_interval v | None => false end) rows)
    (count_if is_unknown rows) (count_if is_malformed rows)
    (Z.of_nat (length (remove_dups units))) (sql_min_text units).

(** Each row carries the summary; the observation is NULL when there is none. *)
Definition rawTemporalHistoryQuery (actor : uuid) (entity : ResolvedEntity uuid) (property : string)
    (from to limit : Z) db : list (option (TemporalRow uuid) * TemporalWindowSummary) :=
  src ← filter (temporal_source actor entity db) (twin_entities (store db));
  let rows := observations (e_id src) property from to db in
  match take (Z.to_nat limit) (merge_sort observation_le rows) with
  | [] => [(None, window_summary rows)]
  | bounded => (fun r => (Some r, window_summary rows)) <$> bounded
  end.

Record TemporalBucketRow := mkTemporalBucketRow {
  tb_start : Z;
  tb_avg : option float64;
  tb_min : option float64;
  tb_max : option float64;
  tb_count : Z;
}.

Definition temporal_starts (width : Z) (rows : list (TemporalRow uuid)) : list Z :=
  merge_sort Z.le (remove_dups (time_bucket width ∘ tv_observed_at <$> rows)).

Definition temporal_bucket (width : Z) (rows : list (TemporalRow uuid)) (start : Z) : TemporalBucketRow :=
  let group := filter (fun r => time_bucket width (tv_observed_at r) = start) rows in
  let values := omap tv_value_number group in
  let aggregate f := match values with [] => None | _ => Some (f values) end in
  mkTemporalBucketRow start (aggregate sql_avg) (aggregate sql_min) (aggregate sql_max) (Z.of_nat (length group)).

Definition bucketTemporalHistoryQuery (actor : uuid) (entity : ResolvedEntity uuid) (property : string)
    (from to width limit : Z) db : list (option TemporalBucketRow * TemporalWindowSummary) :=
  src ← filter (temporal_source actor entity db) (twin_entities (store db));
  let rows := observations (e_id src) property from to db in
  match take (Z.to_nat limit) (temporal_starts width rows) with
  | [] => [(None, window_summary rows)]
  | starts => (fun start => (Some (temporal_bucket width rows start), window_summary rows)) <$> starts
  end.

(** ** Scanning *)

(** The value type of an observation and its number of values. *)
Definition value_type r : string :=
  if present (tv_value_boolean r) then "boolean" else if present (tv_value_text r) then "text" else if present (tv_value_number r) then "number" else "".

Definition metadata_text r : string :=
  let raw := jsonb_text (JsonbObject (tv_metadata r)) in if 0 <? str_len raw then raw else "{}".

Definition temporal_point (_ : TemporalWindowSummary) r : res herror (option (TemporalSamplePoint uuid)) :=
  if negb (value_columns r =? 1)
  then Err (unexpected "invalid temporal observation: expected exactly 1 non-null value column")
  else Ok (Some (mkTemporalPoint (time_of_tz (tv_observed_at r)) (value_type r) (tv_value_number r) (tv_value_text r)
                   (tv_value_boolean r) (metadata_text r) (tv_message_id r))).

Definition temporal_bucket_point (summary : TemporalWindowSummary) (row : TemporalBucketRow)
    : res herror (option BucketSamplePoint) :=
  match tb_avg row, tb_min row, tb_max row with
  | Some avg, Some min, Some max => Ok (Some (mkBucketPoint (time_of_tz (tb_start row)) avg min max (tb_count row)))
  | _, _, _ =>
      if NumberCount summary =? TotalCount summary
      then Err (unexpected "incomplete aggregate values in bucket row") else Ok None
  end.

(** [for rows.Next()]: the summary of the first row is kept; no row leaves it nil. *)
Fixpoint temporal_rows {Row Pt} (point : TemporalWindowSummary -> Row -> res herror (option Pt))
    (rows : list (option Row * TemporalWindowSummary)) (points : list Pt) (summary : option TemporalWindowSummary)
    : HM uuid (list Pt * option TemporalWindowSummary) :=
  leth next := db_call (fun _ => Ok ()) in
  match next with
  | Err err => hfail (classifyReaderError err)
  | Ok _ =>
      match rows with
      | [] => leth _ := reader_ctx in hret (points, summary)
      | (row, rowSummary) :: rows' =>
          leth _ := reader_ctx in
          leth scan := db_call (fun _ => Ok ()) in
          match scan with
          | Err err => hfail (classifyReaderError err)
          | Ok _ =>
              let first := default rowSummary summary in
              match row with
              | None => temporal_rows point rows' points (Some first)
              | Some row =>
                  leth pt := of_res (point first row) in
                  temporal_rows point rows' (points ++ option_list pt) (Some first)
              end
          end
      end
  end.

(** The units counted from points, and the least of them by its bytes. *)
Definition points_units (points : list (TemporalSamplePoint uuid)) : list string :=
  omap (fun p => (inspectMetadataUnit (tsp_Metadata p)).1) points.

Definition text_min (units : list string) : option string :=
  foldl (fun acc u => match acc with Some m => if c_lt u m then Some u else Some m | None => Some u end) None units.

(** [populateSummaryFromPoints], called for rows that carry no counts. *)
Definition populateSummaryFromPoints (s : TemporalWindowSummary) (points : list (TemporalSamplePoint uuid))
    : TemporalWindowSummary :=
  let count f := Z.of_nat (length (List.filter f points)) in
  let has_type t p := bool_decide (tsp_ValueType p = t) in
  let number p := has_type "number" p in
  let units := points_units points in
  mkWindowSummary (Z.of_nat (length points))
    (NumberCount s + count number) (TextCount s + count (has_type "text")) (BooleanCount s + count (has_type "boolean"))
    (InvalidTypeCount s
       + count (fun p => (number p && negb (bool_decide (is_Some (tsp_ValueNumber p))))
                         || negb (number p || has_type "text" p || has_type "boolean" p)))
    (InvalidIntervalCount s
       + count (fun p => number p && match tsp_ValueNumber p with Some v => isInvalidSampleInterval v | None => false end))
    (UnknownUnitCount s
       + count (fun p => bool_decide (inspectMetadataUnit (tsp_Metadata p) = (None, false))))
    (MalformedUnitCount s + count (fun p => (inspectMetadataUnit (tsp_Metadata p)).2))
    (Z.of_nat (length (remove_dups units)))
    (match MinUnit s with Some m => text_min (m :: units) | None => text_min units end).

Definition populateSummaryFromBuckets (s : TemporalWindowSummary) (buckets : list BucketSamplePoint)
    : TemporalWindowSummary :=
  let n := list_sum bp_Count buckets in
  mkWindowSummary (TotalCount s + n) (NumberCount s + n) (TextCount s) (BooleanCount s) (InvalidTypeCount s)
    (InvalidIntervalCount s) (UnknownUnitCount s) (MalformedUnitCount s) (DistinctUnitCount s) (MinUnit s).

(** What follows the loop in both scanners. *)
Definition finish_scan {Pt} (populate : TemporalWindowSummary -> list Pt -> TemporalWindowSummary)
    (out : list Pt * option TemporalWindowSummary) : res herror (list Pt * TemporalWindowSummary) :=
  match out with
  | (_, None) => Err (HTwin ErrNotFound)
  | (points, Some s) =>
      Ok (points, if (TotalCount s =? 0) && negb (bool_decide (points = [])) then populate s points else s)
  end.

Definition scanTemporalRows (rows : list (option (TemporalRow uuid) * TemporalWindowSummary))
    : HM uuid (list (TemporalSamplePoint uuid) * TemporalWindowSummary) :=
  leth out := temporal_rows temporal_point rows [] None in of_res (finish_scan populateSummaryFromPoints out).

Definition scanTemporalBucketRows (rows : list (option TemporalBucketRow * TemporalWindowSummary))
    : HM uuid (list BucketSamplePoint * TemporalWindowSummary) :=
  leth out := temporal_rows temporal_bucket_point rows [] None in of_res (finish_scan populateSummaryFromBuckets out).

(** The checks before either statement. *)
Definition check_read (actor : uuid) (entity : ResolvedEntity uuid) (maxPoints : Z) : HM uuid () :=
  if bool_decide (actor = uuid_Nil) then hfail (HTwin ErrNilActor)
  else
    leth _ := reader_ctx in
    if negb (bool_decide (re_Type entity = EntityTypeSensor)) then hfail (HTwin ErrInvalidProperty)
    else if maxPoints <=? 0 then hfail (HTwin ErrInvalidInput) else hret ().

Definition readTemporalDataInternal (actor : uuid) (entity : ResolvedEntity uuid) (propertyName : string)
    (from to : Time) (maxPoints : Z) : HM uuid (list (TemporalSamplePoint uuid) * TemporalWindowSummary) :=
  leth _ := check_read actor entity maxPoints in
  let limit := int64_add maxPoints 1 in
  leth rows := query_row classifyReaderError (fun db =>
                 Ok (rawTemporalHistoryQuery actor entity propertyName (timestamptz (UTC from)) (timestamptz (UTC to)) limit db)) in
  scanTemporalRows rows.

Definition readTemporalObservationsInternal (actor : uuid) (entity : ResolvedEntity uuid) (propertyName : string)
    (from to : Time) (maxPoints : Z) : HM uuid (list (TemporalSamplePoint uuid)) :=
  leth out := readTemporalDataInternal actor entity propertyName from to maxPoints in hret out.1.

Definition readTemporalBucketInternal (actor : uuid) (entity : ResolvedEntity uuid) (propertyName : string)
    (from to : Time) (bucketWidth maxPoints : Z) : HM uuid (list BucketSamplePoint * TemporalWindowSummary) :=
  leth _ := check_read actor entity maxPoints in
  let interval := Microseconds bucketWidth in
  let limit := int64_add maxPoints 1 in
  leth rows := query_row classifyReaderError (fun db =>
                 Ok (bucketTemporalHistoryQuery actor entity propertyName (timestamptz (UTC from)) (timestamptz (UTC to))
                       interval limit db)) in
  scanTemporalBucketRows rows.

(** ** Histories *)

(** The loop over the points of [sample_interval_us]. *)
Fixpoint check_intervals (points : list (TemporalSamplePoint uuid)) : option herror :=
  match points with
  | [] => None
  | pt :: rest =>
      match tsp_ValueNumber pt with
      | None => Some (unexpected "sample_interval_us observation has non-numeric type")
      | Some val =>
          if negb (bool_decide (tsp_ValueType pt = "number"))
          then Some (unexpected "sample_interval_us observation has non-numeric type")
          else if isInvalidSampleInterval val
          then Some (unexpected "sample_interval_us observation has invalid interval value")
          else check_intervals rest
      end
  end.

Definition check_property (propertyName : string) (points : list (TemporalSamplePoint uuid)) : option herror :=
  if bool_decide (propertyName = "sample_interval_us") then check_intervals points else None.

Definition raw_fits (maxPoints : Z) (points : list (TemporalSamplePoint uuid)) (summary : TemporalWindowSummary) : bool :=
  negb ((maxPoints <? Z.of_nat (length points)) || (maxPoints <? TotalCount summary)).

Definition raw_history (entity : ResolvedEntity uuid) (propertyName : string) (c : TemporalClassification)
    (from to : Time) (points : list (TemporalSamplePoint uuid)) : res herror (option (TwinHistoryResult uuid)) :=
  match check_property propertyName points with
  | Some err => Err err
  | None =>
      Ok (Some (mkTwinHistoryResult (re_PublicURN entity) (HistorySelector_of propertyName) (tc_Unit c) from to
                  "raw" "raw" (Z.of_nat (length points)) None points []))
  end.

(** Reading buckets; [nonNumeric] is the error for a window that cannot be
    aggregated. *)
Definition bucket_history (actor : uuid) (entity : ResolvedEntity uuid) (propertyName : string) (q : TwinHistoryQuery)
    (from to : Time) (res : Resolution) (dur : Z) (nonNumeric : HistoryError)
    : HM uuid (option (TwinHistoryResult uuid)) :=
  leth out := readTemporalBucketInternal actor entity propertyName from to dur (tq_MaxPoints q) in
  let '(buckets, summary) := out in
  leth c := of_res (classifyTemporalWindow (Some summary) propertyName) in
  if (0 <? tc_TotalCount c) && negb (bool_decide (tc_ValueType c = "number")) then hfail (HErr nonNumeric)
  else if tq_MaxPoints q <? Z.of_nat (length buckets) then hfail (HErr ErrHistoryResolutionTooFine)
  else hret (Some (mkTwinHistoryResult (re_PublicURN entity) (HistorySelector_of propertyName) (tc_Unit c) from to
                     "bucket" (resolution_text res) (Z.of_nat (length buckets)) None [] buckets)).

(** The bucket width of an automatic read. *)
Definition auto_history (actor : uuid) (entity : ResolvedEntity uuid) (propertyName : string) (q : TwinHistoryQuery)
    (from to : Time) : HM uuid (option (TwinHistoryResult uuid)) :=
  match SelectAutoBucketResolution from to (tq_MaxPoints q) with
  | Err _ => hfail (HErr ErrHistoryResolutionTooFine)
  | Ok chosenRes =>
      match ResolutionDuration chosenRes with
      | None => hfail (HErr ErrHistoryResolutionTooFine)
      | Some dur => bucket_history actor entity propertyName q from to chosenRes dur ErrHistoryRawLimitExceeded
      end
  end.

(** The bounded raw read and its classification. *)
Definition raw_probe (actor : uuid) (entity : ResolvedEntity uuid) (propertyName : string) (q : TwinHistoryQuery)
    (from to : Time) : HM uuid (list (TemporalSamplePoint uuid) * TemporalWindowSummary * TemporalClassification) :=
  leth out := readTemporalDataInternal actor entity propertyName from to (tq_MaxPoints q) in
  leth c := of_res (classifyTemporalWindow (Some out.2) propertyName) in
  hret (out, c).

Definition unsupported_resolution : herror :=
  HText "invalid resolution: resolution is not supported" (HErr ErrHistoryInvalidResolution).

Definition readTemporalHistoryInternal (actor : uuid) (entity : ResolvedEntity uuid) (propertyName : string)
    (q : TwinHistoryQuery) : HM uuid (option (TwinHistoryResult uuid)) :=
  leth _ := check_read actor entity (tq_MaxPoints q) in
  let fromUTC := UTC (rng_From (tq_Range q)) in
  let toUTC := UTC (rng_To (tq_Range q)) in
  if negb (Before fromUTC toUTC) then hfail (HTwin ErrInvalidInput)
  else if negb (Resolution_Valid (tq_Resolution q)) then hfail unsupported_resolution
  else
    let effectiveRawWindow := effective_window (tq_EffectiveRawWindow q) in
    let diffMicros := Microseconds (Sub toUTC fromUTC) in
    match tq_Resolution q with
    | ResolutionRaw =>
        if Microseconds effectiveRawWindow <? diffMicros then hfail (HErr ErrHistoryRawLimitExceeded)
        else
          leth out := raw_probe actor entity propertyName q fromUTC toUTC in
          let '(points, summary, c) := out in
          if negb (raw_fits (tq_MaxPoints q) points summary) then hfail (HErr ErrHistoryRawLimitExceeded)
          else of_res (raw_history entity propertyName c fromUTC toUTC points)
    | ResolutionAuto =>
        if diffMicros <=? Microseconds effectiveRawWindow then
          leth out := raw_probe actor entity propertyName q fromUTC toUTC in
          let '(points, summary, c) := out in
          if raw_fits (tq_MaxPoints q) points summary
          then of_res (raw_history entity propertyName c fromUTC toUTC points)
          else if negb (bool_decide (tc_ValueType c = "number")) then hfail (HErr ErrHistoryRawLimitExceeded)
          else auto_history actor entity propertyName q fromUTC toUTC
        else auto_history actor entity propertyName q fromUTC toUTC
    | res =>
        match ResolutionDuration res with
        | None => hfail unsupported_resolution
        | Some dur =>
            match IntersectingBucketCount fromUTC toUTC dur with
            | Err _ => hfail (HTwin ErrInvalidInput)
            | Ok intersectingCount =>
                if tq_MaxPoints q <? intersectingCount then hfail (HErr ErrHistoryResolutionTooFine)
                else bucket_history actor entity propertyName q fromUTC toUTC res dur ErrHistoryInvalidResolution
            end
        end
    end.

Definition PostgresTwinReader_ReadTemporalHistory (_ : PostgresTwinReader) (actor : uuid) (entity : ResolvedEntity uuid)
    (q : TwinHistoryQuery) : HM uuid (option (TwinHistoryResult uuid)) :=
  if bool_decide (actor = uuid_Nil) then hfail (HTwin ErrNilActor)
  else
    leth _ := reader_ctx in
    if negb (bool_decide (re_Type entity = EntityTypeSensor)) then hfail (HTwin ErrInvalidProperty)
    else if negb (bool_decide (tq_Property q = SelectorSampleIntervalUS)) then hfail (HTwin ErrInvalidProperty)
    else readTemporalHistoryInternal actor entity (selector_text (tq_Property q)) q.

(** ** The implementations of the interfaces *)

#[export] Instance PostgresResolver_EntityResolver : EntityResolver uuid PostgresResolver := ResolveEntity.

#[export] Instance PostgresTwinReader_TwinReader : TwinReader uuid PostgresTwinReader := {
  ListEntities := PostgresTwinReader_ListEntities;
  GetDetail := PostgresTwinReader_GetDetail;
  GetState := PostgresTwinReader_GetState;
  ReadTemporalHistory := PostgresTwinReader_ReadTemporalHistory;
}.

#[export] Instance HistoryService_Delegator {R Rd} `{!HistoryReader uuid Rd} :
  TelemetryHistoryDelegator uuid (TelemetryHistoryService R Rd) :=
  fun s => ExecuteEffectiveHistoryQuery s true.

End temporal.
