(* ===== verification/TwinServiceSpec.v ===== *)
(** * What the Digital Twin reader and resolver answer on one state of the tables

    The reference answers [resolve_spec], [list_answer], [detail_answer] and
    [state_answer] are functions of the tables; the resolver and the reader
    are snapshot reads of them. *)

From S2P Require Import Prelude GoStrings GoTime GoFloat GoJson Uuid Identity Urn Telemetry Txn Store Persist.
From S2P Require Import HistoryQuery HistoryStore ReadWorld History HistoryRepo HistorySpec.
From S2P Require Import HistoryReaderSpec HistoryServiceSpec TwinModel QueryParser Cursor.
From S2P Require Import TwinValidation TwinStore TwinReader TwinService TwinTemporal.
#[local] Open Scope Z_scope.

Section answer.
Context {uuid : Type} `{U : UuidLib uuid} `{SF : SqlFunctions} `{JT : JsonbText} `{TM : TextMin}.
Implicit Types (db : HistoryDB uuid) (w : World uuid) (e : TwinEntity uuid) (entity : ResolvedEntity uuid).

(** ** The loops *)

Lemma snapshot_reader_ctx {A} (m : HM uuid A) f : snapshot m f -> snapshot (leth _ := reader_ctx in m) f.
Proof.
  apply snapshot_after; [unfold reader_ctx; tick|].
  intros w db n Hw. unfold reader_ctx, hbind. by rewrite (quiet_ctx_Err w db).
Qed.

Definition classified {A} (classify : herror -> herror) (r : res herror A) : res herror A :=
  match r with Err err => Err (classify err) | Ok a => Ok a end.

Lemma snapshot_query_row {A} classify (query : HistoryDB uuid -> res herror A) :
  snapshot (query_row classify query) (fun db => classified classify (query db)).
Proof.
  apply (snapshot_call query _ (classified classify)); [|done].
  intros [a|err]; [apply snapshot_ret|apply snapshot_fail].
Qed.

Lemma snapshot_reply {A B} (a : A) (k : HM uuid B) (g : res herror B) : snapshot k (fun _ => g) ->
  snapshot (leth r := db_call (fun _ => Ok a) in
            match r with Err err => hfail (classifyReaderError err) | Ok _ => k end) (fun _ => g).
Proof.
  intros Hk. apply (snapshot_call (fun _ => Ok a) _ (fun r => match r with Err err => Err (classifyReaderError err) | Ok _ => g end));
    [|done]. intros [b|err]; [done|apply snapshot_fail].
Qed.

Lemma snapshot_scan_rows {Row} (rows : list Row) : snapshot (scan_rows (uuid := uuid) rows) (fun _ => Ok rows).
Proof.
  induction rows as [|row rows IH]; cbn [scan_rows]; apply snapshot_reply; [apply snapshot_ret|].
  apply snapshot_reply. eapply snapshot_ext; [|apply snapshot_bind; [exact IH|intros rest; apply snapshot_ret]]. done.
Qed.

Lemma snapshot_query_rows {Row} (query : HistoryDB uuid -> list Row) :
  snapshot (query_rows query) (fun db => Ok (query db)).
Proof.
  eapply snapshot_ext; [|apply snapshot_bind; [apply snapshot_query_row|intros rows; apply snapshot_scan_rows]]. done.
Qed.

Lemma snapshot_query_then {Row B} (query : HistoryDB uuid -> list Row) (k : list Row -> HM uuid B) g :
  (forall rows, snapshot (k rows) (fun _ => g rows)) ->
  snapshot (hbind (query_rows query) k) (fun db => g (query db)).
Proof. intros Hk. exact (snapshot_bind _ _ _ _ (snapshot_query_rows query) Hk). Qed.

(** The results of the pure part of an operation. *)
Definition some_answer {A} (r : res herror A) : res herror (option A) := let! a := r in Ok (Some a).

Lemma snapshot_some {A} (r : res herror A) :
  snapshot (leth a := of_res r in hret (Some a)) (fun _ : HistoryDB uuid => some_answer r).
Proof.
  eapply snapshot_ext; [|apply snapshot_bind; [apply snapshot_of_res|intros a; apply snapshot_ret]]. done.
Qed.

(** ** Resolution *)

(** The entity of that name that the actor may read, with the resources and
    relationships a Sensor needs. *)
Definition readable (actor : uuid) (p : ParsedIdentity) db e : Prop :=
  e_entity_id e = pi_URN p /\ e_entity_type e = entity_type_text (pi_Type p) /\ e_gateway_id e = Some (pi_GatewayID p)
  /\ has_gateway db e /\ member_of actor db e
  /\ (pi_Type p = EntityTypeSensor -> is_Some (sensors (store db) !! (pi_GatewayID p, pi_SensorID p))
        /\ provisioned_under (GatewayEntityID (pi_GatewayID p)) db e).

#[export] Instance readable_dec actor p db e : Decision (readable actor p db e).
Proof. unfold readable. apply _. Defined.

Definition resolve_spec (actor : uuid) (p : ParsedIdentity) db : option (ResolvedEntity uuid) :=
  e ← head (filter (readable actor p db) (twin_entities (store db)));
  Some (mkResolvedEntity (e_id e) (e_entity_id e) (pi_Type p) (pi_GatewayID p) (pi_SensorID p)).

Definition found {A} (o : option A) : res herror (option A) :=
  match o with None => Err (HTwin ErrNotFound) | Some a => Ok (Some a) end.

Lemma first_row_err {A} (rows : list A) err : first_row rows = Err err -> err = HCause ErrNoRows.
Proof. destruct rows; [|done]. by intros [= <-]. Qed.

Lemma first_row_filter {A B} (P Q : A -> Prop) `{!forall x, Decision (P x), !forall x, Decision (Q x)} (f : A -> B) l :
  (forall x, P x <-> Q x) ->
  first_row (x ← filter P l; [f x]) = match head (filter Q l) with Some x => Ok (f x) | None => Err (HCause ErrNoRows) end.
Proof.
  intros E. rewrite (list_filter_iff P Q) by done. by destruct (filter Q l).
Qed.

Lemma snapshot_ResolveEntity (r : PostgresResolver) (actor : uuid) raw p : actor <> uuid_Nil -> names raw p ->
  snapshot (ResolveEntity r actor p) (fun db => found (resolve_spec actor p db)).
Proof.
  intros Ha [g Hg|g s Hg Hs]; unfold ResolveEntity; cbn [pi_Type pi_GatewayID pi_SensorID pi_URN EntityType_Valid negb];
    rewrite (bool_decide_eq_false_2 (actor = _)), Hg, ?Hs by done; rewrite !(bool_decide_eq_false_2 (is_Some None)) by (by intros []).
  - change (GatewayURNPrefix +:+ g) with (GatewayEntityID g). rewrite !bool_decide_eq_true_2 by done. cbn [negb].
    eapply snapshot_ext; [|eapply (snapshot_bind _ _ _ (fun '(id, u, t, g') =>
      Ok (Some (mkResolvedEntity id u (EntityType_of t) g' ""))));
      [apply snapshot_query_row|intros [[[id u] t] g']; apply snapshot_ret]].
    intros db. unfold resolveGatewayEntityQuery, resolve_spec.
    rewrite (first_row_filter _ (readable actor (Urn.mkIdentity EntityTypeGateway g "" (GatewayEntityID g)) db)).
    2:{ intros e. unfold readable. cbn. split; intros; destruct_and?; split_and!; done. }
    destruct (head _) as [e|] eqn:He; [|done]. cbn.
    assert (readable actor (Urn.mkIdentity EntityTypeGateway g "" (GatewayEntityID g)) db e) as (_ & Ht & _).
    { apply head_Some_elem_of, list_elem_of_filter in He. apply He. }
    by rewrite Ht.
  - change (SensorURNPrefix +:+ g +:+ ":" +:+ s) with (SensorEntityID g s). rewrite bool_decide_eq_true_2 by done. cbn [negb].
    eapply snapshot_ext; [|eapply (snapshot_bind _ _ _ (fun '(id, u, t, g', s') =>
      Ok (Some (mkResolvedEntity id u (EntityType_of t) g' s'))));
      [apply snapshot_query_row|intros [[[[id u] t] g'] s']; apply snapshot_ret]].
    intros db. unfold resolveSensorEntityQuery, resolve_spec.
    rewrite (first_row_filter _ (readable actor (Urn.mkIdentity EntityTypeSensor g s (SensorEntityID g s)) db)).
    2:{ intros e. unfold readable. cbn. change (GatewayURNPrefix +:+ g) with (GatewayEntityID g). split; [intros (? & ? & ? & ? & ? & ? & ?)|intros (? & ? & ? & ? & ? & Hr); destruct (Hr eq_refl)]; split_and!; done. }
    destruct (head _) as [e|] eqn:He; [|done]. cbn.
    assert (readable actor (Urn.mkIdentity EntityTypeSensor g s (SensorEntityID g s)) db e) as (_ & Ht & _).
    { apply head_Some_elem_of, list_elem_of_filter in He. apply He. }
    by rewrite Ht.
Qed.

(** ** Lists *)

(** The page of a query, from the tables. *)
Definition list_answer (actor : uuid) (q : TwinListQuery) db : res herror TwinListResult :=
  let! after := after_cursor q in
  list_page q (lq_Limit q)
    (summary_of <$> listEntitiesQuery actor (lq_GatewayID q) (lq_EntityType q) after (lq_Limit q + 1) db).

Lemma limit_add n : 1 <= n <= ContractMaxLimit -> int64_add n 1 = n + 1 /\ reader_limit n = Ok n.
Proof.
  unfold ContractMaxLimit. intros Hn. split; [apply wrap64_id; unfold in_int64, min_int64, max_int64; lia|].
  unfold reader_limit, ContractMaxLimit. by rewrite (proj2 (Z.leb_gt _ _)), (proj2 (Z.ltb_ge _ _)) by lia.
Qed.

Lemma list_query_ok q maxLimit : ValidateTwinListQuery q maxLimit = None -> maxLimit <= ContractMaxLimit ->
  1 <= lq_Limit q <= ContractMaxLimit /\ bool_decide (is_Some (lq_GatewayID q ≫= ValidateGatewayID)) = false
  /\ default true (EntityType_Valid <$> lq_EntityType q) = true
  /\ (forall text, lq_After q = Some text -> is_ok (ParseListCursor text (lq_GatewayID q) (lq_EntityType q)) = true).
Proof.
  unfold ValidateTwinListQuery, effective_limit, ContractMaxLimit. intros H Hm.
  destruct (_ || _) eqn:El in H; [done|]. destruct (bool_decide _) in H |- *; [done|].
  destruct (default true _) in H |- *; [|done]. cbn [negb] in H.
  apply orb_false_iff in El as [E1 E2]. apply Z.ltb_ge in E1, E2. split; [destruct (maxLimit <=? 0); lia|].
  split; [done|]. split; [done|]. intros text Ht. rewrite Ht in H. by destruct (ParseListCursor _ _ _).
Qed.

Lemma snapshot_ListEntities (r : PostgresTwinReader) (actor : uuid) q maxLimit : actor <> uuid_Nil ->
  maxLimit <= ContractMaxLimit -> ValidateTwinListQuery q maxLimit = None ->
  snapshot (PostgresTwinReader_ListEntities r actor q) (fun db => some_answer (list_answer actor q db)).
Proof.
  intros Ha Hm Hq. apply list_query_ok in Hq as (Hl & Hg & Ht & _); [|done].
  destruct (limit_add _ Hl) as [Hadd Hlim]. unfold PostgresTwinReader_ListEntities.
  rewrite bool_decide_eq_false_2 by done. apply snapshot_reader_ctx. rewrite Hlim, Hg, Ht. cbn [negb].
  change (snapshot (leth after := of_res (after_cursor q) in
    leth rows := query_rows (listEntitiesQuery actor (lq_GatewayID q) (lq_EntityType q) after (int64_add (lq_Limit q) 1)) in
    leth page := of_res (list_page q (lq_Limit q) (summary_of <$> rows)) in hret (Some page))
    (fun db => some_answer (list_answer actor q db))).
  rewrite Hadd. unfold list_answer. destruct (after_cursor q) as [after|err]; [|apply (snapshot_fail err)].
  apply (snapshot_query_then _ _ (fun rows => some_answer (list_page q (lq_Limit q) (summary_of <$> rows)))).
  intros rows. apply snapshot_some.
Qed.

(** ** Details *)

(** The rows of a Gateway's detail: its columns and a page of its Sensors. *)
Definition gateway_answer entity (relLimit : Z) (rows : list GatewayDetailRow) : res herror TwinDetailResult :=
  match rows with
  | [] => Err (HTwin ErrNotFound)
  | source :: _ =>
      let! page := relationship_page entity relLimit (relationship_items rows) in
      let '(items, partial, nextCursor) := page in
      Ok (mkDetailResult (re_PublicURN entity) EntityTypeGateway (gd_name source) (gd_description source) None
            (gd_gateway_id source) (time_of_tz (gd_updated_at source)) items
            (Some (mkRelationshipPage "hasSensor" relLimit (Z.of_nat (length items)) partial nextCursor)))
  end.

Definition sensor_answer entity (row : SensorDetailRow) : TwinDetailResult :=
  mkDetailResult (re_PublicURN entity) EntityTypeSensor (sd_name row) None (sd_unit row) (sd_gateway_id row)
    (time_of_tz (sd_updated_at row)) [] None.

Definition detail_answer (actor : uuid) entity (q : TwinDetailQuery) db : res herror TwinDetailResult :=
  let! after := after_relationship entity q in
  match re_Type entity with
  | EntityTypeGateway =>
      gateway_answer entity (dq_RelationshipLimit q) (gatewayDetailQuery actor entity after (dq_RelationshipLimit q + 1) db)
  | _ => match sensorDetailQuery actor entity db with
         | Err _ => Err (HTwin ErrNotFound)
         | Ok row => Ok (sensor_answer entity row)
         end
  end.

(** What resolution returns for a parsed name. *)
Record resolved_as (p : ParsedIdentity) entity : Prop := {
  ra_urn : re_PublicURN entity = pi_URN p;
  ra_type : re_Type entity = pi_Type p;
  ra_gateway : re_GatewayID entity = pi_GatewayID p;
  ra_sensor : re_SensorID entity = pi_SensorID p;
  ra_id : re_InternalID entity <> uuid_Nil;
}.

Lemma names_check raw p entity : names raw p -> resolved_as p entity -> check_entity entity = None.
Proof.
  intros Hn [Hu Ht Hg Hs Hid]. unfold check_entity. rewrite Hu, Ht, Hg, Hs. rewrite (bool_decide_eq_false_2 (_ = uuid_Nil)) by done.
  destruct Hn as [g Hv|g s Hv Hw]; cbn [pi_URN pi_Type pi_GatewayID pi_SensorID EntityType_Valid].
  - apply valid_gateway_pattern, pattern_nonempty in Hv.
    rewrite (bool_decide_eq_false_2 (GatewayEntityID g = "")), (bool_decide_eq_false_2 (g = "")) by done. done.
  - apply valid_gateway_pattern, pattern_nonempty in Hv. apply valid_sensor_pattern, pattern_nonempty in Hw.
    rewrite (bool_decide_eq_false_2 (SensorEntityID g s = "")), (bool_decide_eq_false_2 (g = "")) by done.
    cbn [negb orb]. rewrite (bool_decide_eq_false_2 (s = "")) by done. by rewrite andb_false_r.
Qed.

Lemma snapshot_GetDetail (r : PostgresTwinReader) (actor : uuid) raw p entity q : actor <> uuid_Nil ->
  names raw p -> resolved_as p entity -> dq_EntityID q = re_PublicURN entity ->
  1 <= dq_RelationshipLimit q <= ContractMaxLimit ->
  snapshot (PostgresTwinReader_GetDetail r actor entity q) (fun db => some_answer (detail_answer actor entity q db)).
Proof.
  intros Ha Hn Hr Hu Hl. destruct (limit_add _ Hl) as [Hadd Hlim]. unfold PostgresTwinReader_GetDetail.
  rewrite bool_decide_eq_false_2 by done. apply snapshot_reader_ctx.
  rewrite (names_check raw p) by done. rewrite (bool_decide_eq_true_2 (dq_EntityID q = re_PublicURN entity)) by done.
  rewrite andb_false_r, Hlim. unfold detail_answer.
  change (snapshot (leth after := of_res (after_relationship entity q) in
    match re_Type entity with
    | EntityTypeGateway => getGatewayDetail actor entity (dq_RelationshipLimit q) after
    | EntityTypeSensor => getSensorDetail actor entity
    | EntityTypeOther _ => hfail (HTwin ErrInvalidInput)
    end) (fun db => some_answer (detail_answer actor entity q db))). unfold detail_answer.
  destruct (after_relationship entity q) as [after|err]; [|apply (snapshot_fail err)].
  unfold hbind, of_res. cbn [mbind res_bind]. rewrite (ra_type _ _ Hr).
  destruct Hn as [g Hg|g s Hg Hs]; cbn [pi_Type].
  - unfold getGatewayDetail. rewrite Hadd.
    apply (snapshot_query_then _ _ (fun rows => some_answer (gateway_answer entity (dq_RelationshipLimit q) rows))).
    intros [|source rows]; [apply snapshot_fail|]. unfold gateway_answer.
    destruct (relationship_page _ _ _) as [[[items partial] c]|err]; [apply snapshot_ret|apply (snapshot_fail err)].
  - unfold getSensorDetail.
    eapply snapshot_ext; [|apply snapshot_bind; [apply snapshot_query_row|intros row; apply snapshot_ret]].
    intros db. cbv beta. destruct (sensorDetailQuery actor entity db) as [row|err] eqn:E; [done|].
    apply first_row_err in E as ->. done.
Qed.

(** ** States *)

Definition state_result entity (st : TwinState) : TwinStateResult :=
  mkStateResult (re_PublicURN entity) (re_Type entity) (re_GatewayID entity)
    (jsonb_text (st_reported_state st)) (jsonb_text (st_desired_state st)) (st_reported_version st) (st_desired_version st)
    (time_of_tz <$> st_last_reported_at st) (time_of_tz <$> st_last_desired_at st) (time_of_tz (st_updated_at st)).

Definition state_row entity (rows : list (option TwinState)) : res herror TwinStateResult :=
  match rows with
  | [] => Err (HTwin ErrNotFound)
  | None :: _ => Err (HText ("unexpected digital twin error: missing twin_states row for entity "
                               +:+ re_PublicURN entity) (HTwin ErrUnexpected))
  | Some st :: _ => Ok (state_result entity st)
  end.

Definition state_answer (actor : uuid) entity db : res herror TwinStateResult :=
  state_row entity (match re_Type entity with
                    | EntityTypeGateway => gatewayStateQuery actor entity db
                    | _ => sensorStateQuery actor entity db
                    end).

Lemma snapshot_get_state (query : HistoryDB uuid -> list (option TwinState)) entity :
  snapshot (get_state query entity) (fun db => some_answer (state_row entity (query db))).
Proof.
  unfold get_state.
  eapply snapshot_ext; [|apply (snapshot_bind _ _ _ (fun rows => some_answer (state_row entity rows))
    (snapshot_query_row classifyReaderError (fun db => Ok (query db))))]; [done|].
  intros rows. unfold scanStateRow. apply snapshot_reply. destruct rows as [|row rows]; [apply snapshot_fail|].
  do 2 apply snapshot_reply. destruct row; [apply snapshot_ret|apply snapshot_fail].
Qed.

Lemma snapshot_GetState (r : PostgresTwinReader) (actor : uuid) raw p entity : actor <> uuid_Nil ->
  names raw p -> resolved_as p entity ->
  snapshot (PostgresTwinReader_GetState r actor entity) (fun db => some_answer (state_answer actor entity db)).
Proof.
  intros Ha Hn Hr. unfold PostgresTwinReader_GetState. rewrite bool_decide_eq_false_2 by done.
  apply snapshot_reader_ctx. rewrite (names_check raw p) by done. unfold state_answer. rewrite (ra_type _ _ Hr).
  destruct Hn; cbn [pi_Type]; apply snapshot_get_state.
Qed.

End answer.

(** * The Digital Twin service answers as specified

    The service composed by [cmd/server/stage4.go] over the PostgreSQL reader
    and resolver: in a world where nothing fails it computes the reference
    answers; in any world an answer is the reference answer for tables in
    which the actor could read the entity, finished before the deadline. *)

(** ** Bounds *)

Record twin_bounds (cfg : TwinConfig) : Prop := {
  tbo_list : 1 <= tb_ListDefaultLimit cfg <= tb_ListMaxLimit cfg;
  tbo_list_cap : tb_ListMaxLimit cfg <= ContractMaxLimit;
  tbo_rel : 1 <= tb_RelationshipDefaultLimit cfg <= tb_RelationshipMaxLimit cfg;
  tbo_rel_cap : tb_RelationshipMaxLimit cfg <= ContractMaxLimit;
}.

Lemma twin_bounds_spec cfg : ValidateTwinConfig cfg = None <-> twin_bounds cfg.
Proof.
  unfold ValidateTwinConfig, ContractMaxLimit. split.
  - intros H. inv_ok H. gobool. split; unfold ContractMaxLimit; lia.
  - unfold ContractMaxLimit. intros [? ? ? ?]. unfold ContractMaxLimit in *. by rewrite !(proj2 (Z.ltb_ge _ _)) by lia.
Qed.

Lemma twin_bounds_prepared twin hist : ValidateTwinConfig twin = None -> ValidateHistoryConfig hist = None ->
  ValidateReadPreparationConfig (ToReadPreparationConfig twin hist) = None.
Proof.
  intros Ht Hh. apply twin_bounds_spec in Ht as [? ? ? ?]. apply history_bounds_spec in Hh as [? ? ? ? (? & ? & ?)].
  unfold ValidateReadPreparationConfig, ToReadPreparationConfig, ContractMinPointsLowerLimit, ContractMaxPointsUpperLimit.
  cbn [rpc_QueryTimeout rpc_ListMaxLimit rpc_RelationshipMaxLimit rpc_HistoryMaxRange rpc_HistoryRawWindow
       rpc_HistoryMinPoints rpc_HistoryMaxPoints].
  rewrite !(proj2 (Z.leb_gt _ _)), !(proj2 (Z.ltb_ge _ _)) by lia. done.
Qed.

Section service.
Context {uuid : Type} `{U : UuidLib uuid} `{SF : SqlFunctions} `{JT : JsonbText} `{TM : TextMin}.
Implicit Types (db : HistoryDB uuid) (w : World uuid) (entity : ResolvedEntity uuid).

(** ** The composed service *)

Definition TwinReadService : Type := readService PostgresResolver PostgresTwinReader Service.

(** The read side of [composeStage4Dependencies]. *)
Definition composeTwinReads (twin : TwinConfig) (hist : HistoryConfig) : res string TwinReadService :=
  match ValidateHistoryConfig hist, ValidateTwinConfig twin with
  | Some err, _ => Err ("invalid history config: " +:+ err)
  | _, Some err => Err ("invalid twin config: " +:+ err)
  | None, None =>
      let telemetryPrepCfg := ToTelemetryPreparationConfig hist in
      let twinPrepCfg := ToReadPreparationConfig twin hist in
      let! telemetryHistoryService := history_service telemetryPrepCfg in
      let! twinPrep := NewReadPreparation (Some mkPostgresResolver) twinPrepCfg in
      NewReadService (Some twinPrep) (Some mkPostgresTwinReader) (Some telemetryHistoryService)
  end.

Definition deployed_twins (twin : TwinConfig) (hist : HistoryConfig) : TwinReadService :=
  mkReadService (Some (mkReadPreparation (Some mkPostgresResolver) (ToReadPreparationConfig twin hist)))
    (Some mkPostgresTwinReader) (Some (deployed (ToTelemetryPreparationConfig hist))).

Lemma composeTwinReads_ok twin hist s : composeTwinReads twin hist = Ok s ->
  twin_bounds twin /\ history_bounds hist /\ s = deployed_twins twin hist.
Proof.
  unfold composeTwinReads. destruct (ValidateHistoryConfig hist) eqn:Hh; [done|].
  destruct (ValidateTwinConfig twin) eqn:Ht; [done|]. intros H.
  destruct (history_service _) as [hs|] eqn:Hs; [|done]. apply history_service_ok in Hs as [_ ->].
  cbn [mbind res_bind NewReadPreparation] in H. rewrite twin_bounds_prepared in H by done.
  cbn in H. injection H as <-. split; [by apply twin_bounds_spec|]. split; [by apply history_bounds_spec|done].
Qed.

(** ** Reference answers *)

(** The reader also refuses an entity without an identifier. *)
Definition with_id {A} entity (r : res herror A) : res herror A :=
  if bool_decide (re_InternalID entity = uuid_Nil) then Err (HTwin ErrInvalidInput) else r.

(** What an operation on one entity answers, resolved in [db1] and read in [db2]. *)
Definition entity_spec {A} (actor : uuid) (refusal : option TwinError) (urn : string)
    (answer : ResolvedEntity uuid -> HistoryDB uuid -> res herror A) db1 db2 : res herror A :=
  if bool_decide (actor = uuid_Nil) then Err (HTwin ErrNilActor)
  else match refusal with
  | Some e => Err (HTwin e)
  | None =>
      match ParseEntityURN urn with
      | Err _ => Err (HTwin ErrInvalidInput)
      | Ok p =>
          match resolve_spec actor p db1 with
          | None => Err (HTwin ErrNotFound)
          | Some entity => with_id entity (answer entity db2)
          end
      end
  end.

Definition list_spec (twin : TwinConfig) (actor : uuid) (q : TwinListQuery) db : res herror TwinListResult :=
  if bool_decide (actor = uuid_Nil) then Err (HTwin ErrNilActor)
  else match ValidateTwinListQuery q (tb_ListMaxLimit twin) with
  | Some e => Err (HTwin e)
  | None => list_answer actor q db
  end.

Definition detail_spec (twin : TwinConfig) (actor : uuid) (q : TwinDetailQuery) : HistoryDB uuid -> HistoryDB uuid ->
    res herror TwinDetailResult :=
  entity_spec actor (ValidateTwinDetailQuery q (tb_RelationshipMaxLimit twin)) (dq_EntityID q)
    (fun entity => detail_answer actor entity q).

Definition state_spec (actor : uuid) (q : TwinStateQuery) : HistoryDB uuid -> HistoryDB uuid -> res herror TwinStateResult :=
  entity_spec actor (ValidateTwinStateQuery q) (sq_EntityID q) (fun entity => state_answer actor entity).

(** ** Scopes *)

Lemma run_scoped_quiet {T} (fn : HM uuid T) f w db n : snapshot fn f -> quiet w db -> (run_scoped fn w n).1 = f db.
Proof.
  intros Hf Hw. unfold run_scoped, hbind. rewrite (quiet_scoped _ _ w db) by done.
  by apply (snap_quiet _ _ Hf w db).
Qed.

Lemma run_scoped_ok {T} (fn : HM uuid T) w n a n' : run_scoped fn w n = (Ok a, n') ->
  exists k, fn w n = (Ok a, k) /\ n' = S k /\ alive w n'.
Proof.
  unfold run_scoped. intros H. apply hbind_ok in H as (r & k & Hr & H). apply scoped_ok in Hr as (k' & Hf & -> & Ha).
  apply of_res_ok in H as [-> ->]. eauto.
Qed.

Lemma with_entity_quiet {T} (actor : uuid) raw p (fn : ResolvedEntity uuid -> HM uuid T) f w db n :
  actor <> uuid_Nil -> names raw p -> quiet w db ->
  (forall entity, resolve_spec actor p db = Some entity -> snapshot (fn entity) (f entity)) ->
  (with_entity mkPostgresResolver actor p fn w n).1
  = match resolve_spec actor p db with None => Err (HTwin ErrNotFound) | Some entity => f entity db end.
Proof.
  intros Ha Hn Hw Hf. unfold with_entity, hbind at 1. rewrite (quiet_ensure_ctx _ w db) by done.
  unfold hbind at 1, htry.
  pose proof (snap_quiet _ _ (snapshot_ResolveEntity mkPostgresResolver actor raw p Ha Hn) w db (S n) Hw) as Hr.
  change (resolve_entity mkPostgresResolver actor p) with (ResolveEntity mkPostgresResolver actor p).
  destruct (ResolveEntity _ _ _ w (S n)) as [r k]. cbn in Hr. subst r.
  destruct (resolve_spec actor p db) as [entity|] eqn:Er; cbn [found].
  - unfold hbind. rewrite (quiet_ensure_ctx _ w db) by done. by apply run_scoped_quiet; [apply Hf|].
  - unfold hbind. by rewrite (quiet_ensure_ctx _ w db).
Qed.

Lemma with_entity_ok {T} (actor : uuid) raw p (fn : ResolvedEntity uuid -> HM uuid T) w n a n' :
  actor <> uuid_Nil -> names raw p ->
  with_entity mkPostgresResolver actor p fn w n = (Ok a, n') ->
  alive w n' /\ exists k1 k2 k3 entity, (n <= k1 <= k2)%nat /\ (S k3 = n')%nat
    /\ resolve_spec actor p (store_at w k1) = Some entity /\ fn entity w k2 = (Ok a, k3).
Proof.
  intros Ha Hn H. unfold with_entity in H. apply hbind_ok in H as (u & k0 & Hu & H).
  apply ensure_ctx_ok in Hu as [-> _]. apply hbind_ok in H as (r & k & Hr & H). apply htry_ok in Hr.
  change (resolve_entity mkPostgresResolver actor p) with (ResolveEntity mkPostgresResolver actor p) in Hr.
  destruct r as [[entity|]|e]; [|done|by apply hbind_ok in H as (? & ? & _ & H)].
  apply (snap_sound _ _ (snapshot_ResolveEntity mkPostgresResolver actor raw p Ha Hn)) in Hr as (k1 & Hk1 & Hr).
  apply hbind_ok in H as (u' & k2 & Hu & H). apply ensure_ctx_ok in Hu as [-> _].
  apply run_scoped_ok in H as (k3 & Hf & -> & Hal). split; [done|]. exists k1, (S k), k3, entity.
  split; [lia|]. split; [done|]. split; [|done]. unfold found in Hr. destruct (resolve_spec _ _ _); [|done].
  by injection Hr as ->.
Qed.

(** ** Operations of the reader in the service *)

Lemma snapshot_non_nil {A} what (m : HM uuid (option A)) r : snapshot m (fun db => some_answer (r db)) ->
  snapshot (non_nil what m) r.
Proof.
  intros Hm. unfold non_nil.
  eapply snapshot_ext; [|apply (snapshot_bind _ _ _ (fun o => match o with
    | None => Err (HText ("unexpected digital twin error: " +:+ what +:+ " returned nil result without error") (HTwin ErrUnexpected))
    | Some a => Ok a end) Hm)].
  - intros db. cbn. unfold some_answer. by destruct (r db).
  - intros [a|]; [apply snapshot_ret|apply snapshot_fail].
Qed.

Lemma resolve_as (actor : uuid) p db entity : resolve_spec actor p db = Some entity ->
  re_InternalID entity <> uuid_Nil -> resolved_as p entity.
Proof.
  unfold resolve_spec. destruct (head _) as [e|] eqn:He; [|done]. intros [= <-] Hid.
  apply head_Some_elem_of, list_elem_of_filter in He as [(Hu & _) _]. by split.
Qed.

(** A read of an entity without an identifier is refused. *)
Lemma snapshot_with_id {A} entity (m : HM uuid A) f :
  (re_InternalID entity = uuid_Nil -> snapshot m (fun _ => Err (HTwin ErrInvalidInput))) ->
  (re_InternalID entity <> uuid_Nil -> snapshot m f) -> snapshot m (fun db => with_id entity (f db)).
Proof.
  intros H0 H1. unfold with_id. destruct (decide (re_InternalID entity = uuid_Nil)) as [E|E].
  - rewrite bool_decide_true by done. by apply H0.
  - rewrite bool_decide_false by done. by apply H1.
Qed.

Lemma check_entity_nil entity : re_InternalID entity = uuid_Nil -> check_entity entity = Some (HTwin ErrInvalidInput).
Proof. intros E. unfold check_entity. by rewrite (bool_decide_true (re_InternalID entity = _)), !orb_true_r. Qed.

Lemma read_detail (actor : uuid) raw p db entity q : actor <> uuid_Nil -> names raw p -> dq_EntityID q = raw ->
  1 <= dq_RelationshipLimit q <= ContractMaxLimit -> resolve_spec actor p db = Some entity ->
  snapshot (non_nil "reader" (GetDetail mkPostgresTwinReader actor entity q))
    (fun db => with_id entity (detail_answer actor entity q db)).
Proof.
  intros Ha Hn Hq Hl He. apply snapshot_with_id; intros Hid; apply snapshot_non_nil.
  - cbn. unfold PostgresTwinReader_GetDetail. rewrite bool_decide_false by done. apply snapshot_reader_ctx.
    rewrite check_entity_nil by done. apply snapshot_fail.
  - pose proof (resolve_as _ _ _ _ He Hid) as Hr. apply (snapshot_GetDetail mkPostgresTwinReader actor raw p); try done.
    rewrite (ra_urn _ _ Hr), Hq. by destruct Hn.
Qed.

Lemma read_state (actor : uuid) raw p db entity : actor <> uuid_Nil -> names raw p ->
  resolve_spec actor p db = Some entity ->
  snapshot (non_nil "reader" (GetState mkPostgresTwinReader actor entity))
    (fun db => with_id entity (state_answer actor entity db)).
Proof.
  intros Ha Hn He. apply snapshot_with_id; intros Hid; apply snapshot_non_nil.
  - cbn. unfold PostgresTwinReader_GetState. rewrite bool_decide_false by done. apply snapshot_reader_ctx.
    rewrite check_entity_nil by done. apply snapshot_fail.
  - by apply (snapshot_GetState mkPostgresTwinReader actor raw p); [..|apply (resolve_as _ _ _ _ He)].
Qed.

Lemma detail_query_limit twin q : twin_bounds twin ->
  ValidateTwinDetailQuery q (tb_RelationshipMaxLimit twin) = None -> 1 <= dq_RelationshipLimit q <= ContractMaxLimit.
Proof.
  intros [_ _ Hr Hc] H. unfold ValidateTwinDetailQuery in H. destruct (negb _); [done|].
  destruct (_ || _) eqn:E in H; [done|]. apply orb_false_iff in E as [E1 E2]. apply Z.ltb_ge in E1, E2.
  unfold effective_limit in E2. rewrite (proj2 (Z.leb_gt _ _)) in E2 by lia. lia.
Qed.

(** ** Nothing fails *)

Lemma list_quiet twin hist (actor : uuid) q w db n : twin_bounds twin -> quiet w db ->
  (ListTwins (deployed_twins twin hist) actor q w n).1 = list_spec twin actor q db.
Proof.
  intros Ht Hw. unfold ListTwins, with_reader, deployed_twins, PrepareList, prepared, list_spec.
  cbn [preparation reader rp_resolver rp_cfg ToReadPreparationConfig rpc_ListMaxLimit].
  case_bool_decide as Ha; [done|]. destruct (ValidateTwinListQuery _ _) as [e|] eqn:Hq; [done|]. cbn [fmap option_fmap option_map].
  unfold hbind at 1. rewrite (quiet_ensure_ctx _ w db) by done. apply run_scoped_quiet; [|done].
  apply snapshot_non_nil. by eapply snapshot_ListEntities; [..|exact Hq]; [|apply tbo_list_cap].
Qed.

(** The part that details and states share. *)
Lemma entity_quiet {A B} (actor : uuid) (fn : B) refusal urn answer (op : B -> ResolvedEntity uuid -> HM uuid A) cfg w db n :
  quiet w db ->
  (forall raw p entity, actor <> uuid_Nil -> refusal = None -> names raw p -> raw = urn -> resolve_spec actor p db = Some entity ->
     snapshot (op fn entity) (fun db => with_id entity (answer entity db))) ->
  (prepared (mkReadPreparation (Some mkPostgresResolver) cfg) actor (Some fn) (HTwin <$> refusal) (fun resolver fn =>
     match ParseEntityURN urn with
     | Err _ => hfail (HTwin ErrInvalidInput)
     | Ok parsed => with_entity resolver actor parsed (op fn)
     end) w n).1 = entity_spec actor refusal urn answer db db.
Proof.
  intros Hw Hop. unfold prepared, entity_spec. cbn [rp_resolver]. case_bool_decide as Ha; [done|].
  destruct refusal as [e|] eqn:Er; [done|]. cbn [fmap option_fmap option_map].
  destruct (ParseEntityURN urn) as [p|e] eqn:Hp; [|done]. apply parse_urn_names in Hp as Hn.
  by apply (with_entity_quiet actor urn p _ (fun entity db => with_id entity (answer entity db))); [..|intros entity He; apply (Hop urn p)].
Qed.

Lemma detail_quiet twin hist (actor : uuid) q w db n : twin_bounds twin -> quiet w db ->
  (GetTwinDetail (deployed_twins twin hist) actor q w n).1 = detail_spec twin actor q db db.
Proof.
  intros Ht Hw. unfold GetTwinDetail, with_reader, PrepareDetail. cbn [deployed_twins preparation reader].
  apply (entity_quiet actor _ _ _ (fun entity => detail_answer actor entity q) (fun fn entity => fn entity q)); [done|].
  intros raw p entity Ha Hq Hn Hu He. apply (read_detail actor raw p db); try done.
  by apply (detail_query_limit twin).
Qed.

Lemma state_quiet twin hist (actor : uuid) q w db n : quiet w db ->
  (GetTwinState (deployed_twins twin hist) actor q w n).1 = state_spec actor q db db.
Proof.
  intros Hw. unfold GetTwinState, with_reader, PrepareState. cbn [deployed_twins preparation reader].
  apply (entity_quiet actor _ _ _ (fun entity => state_answer actor entity) (fun fn entity => fn entity q)); [done|].
  intros raw p entity Ha Hq Hn Hu He. by apply (read_state actor raw p db).
Qed.

(** C30 Where nothing fails, the composed Digital Twin service computes exactly
    the reference answers for lists, details and states: a nil actor and
    queries outside their bounds are refused before any access, an entity the
    actor may not read is not found, and every other answer is a function of
    the tables. *)
Theorem twin_reads_refine twin hist s (actor : uuid) w db n : composeTwinReads twin hist = Ok s -> quiet w db ->
  (forall q, (ListTwins s actor q w n).1 = list_spec twin actor q db)
  /\ (forall q, (GetTwinDetail s actor q w n).1 = detail_spec twin actor q db db)
  /\ (forall q, (GetTwinState s actor q w n).1 = state_spec actor q db db).
Proof.
  intros Hs Hw. apply composeTwinReads_ok in Hs as (Ht & _ & ->).
  split; [|split]; intros q; [by apply list_quiet|by apply detail_quiet|by apply state_quiet].
Qed.

(** ** Any world *)

Lemma list_answer_members (actor : uuid) q db a : list_answer actor q db = Ok a ->
  Forall (fun i => (actor, ts_GatewayID i) ∈ user_gateways db) (lr_Items a).
Proof.
  unfold list_answer. destruct (after_cursor q) as [after|]; [|done]. cbn [mbind res_bind]. intros H.
  set (rows := listEntitiesQuery actor (lq_GatewayID q) (lq_EntityType q) after (lq_Limit q + 1) db) in *.
  assert (Forall (fun i => (actor, ts_GatewayID i) ∈ user_gateways db) (summary_of <$> rows)) as Hall.
  { apply list.Forall_fmap, list.Forall_forall. intros row Hrow. unfold rows, listEntitiesQuery in Hrow.
    apply elem_of_take in Hrow as (i & Hi & _). apply list_elem_of_lookup_2, list_elem_of_fmap in Hi as (e & -> & He).
    unfold listed_entities in He. rewrite sorting.merge_sort_Permutation in He. apply list_elem_of_filter in He as [(Hm & _) _].
    unfold member_of in Hm. cbn. destruct (e_gateway_id e); [exact Hm|done]. }
  unfold list_page in H. destruct (lq_Limit q <? _); [|by injection H as <-].
  destruct (_ !! _) as [last|]; [|by injection H as <-]. destruct (EncodeListCursor _ _ _); [|done].
  injection H as <-. cbn. by apply Forall_take.
Qed.

Lemma is_entity_member entity (actor : uuid) db e : is_entity entity actor db e ->
  (actor, re_GatewayID entity) ∈ user_gateways db.
Proof. intros (_ & _ & _ & Hg & _ & Hm). unfold member_of in Hm. by rewrite Hg in Hm. Qed.

Lemma detail_answer_member (actor : uuid) entity q db a : detail_answer actor entity q db = Ok a ->
  (actor, dr_GatewayID a) ∈ user_gateways db.
Proof.
  unfold detail_answer. destruct (after_relationship entity q) as [after|]; [|done]. cbn [mbind res_bind]. intros H.
  assert (sensorDetailQuery actor entity db = Err (HCause ErrNoRows) \/
    (exists row, sensorDetailQuery actor entity db = Ok row /\ (actor, sd_gateway_id row) ∈ user_gateways db)) as Hs.
  { unfold sensorDetailQuery, first_row. destruct (mbind _ _) as [|row rows] eqn:E; [by left|]. right. exists row. split; [done|].
    assert (row ∈ row :: rows) as Hin by left. rewrite <- E in Hin. apply list_elem_of_bind in Hin as (e & Hrow & He).
    apply list_elem_of_filter in He as [(_ & _ & _ & _ & _ & Hm) _]. unfold member_of in Hm.
    destruct (e_gateway_id e) as [g|]; [|done]. destruct (sensors _ !! _); [|by apply not_elem_of_nil in Hrow].
    apply list_elem_of_singleton in Hrow as ->. exact Hm. }
  assert (forall r, match sensorDetailQuery actor entity db with Err _ => Err (HTwin ErrNotFound)
            | Ok row => Ok (sensor_answer entity row) end = Ok r -> (actor, dr_GatewayID r) ∈ user_gateways db) as Hsens.
  { intros r Hr. destruct Hs as [E|(row & E & Hm)]; rewrite E in Hr; [done|]. injection Hr as <-. exact Hm. }
  destruct (re_Type entity); [|by apply Hsens in H..]. clear Hsens Hs.
  unfold gatewayDetailQuery in H. destruct (mbind _ _) as [|row rows] eqn:E in H; [done|].
  assert (gd_gateway_id row = re_GatewayID entity /\ (actor, re_GatewayID entity) ∈ user_gateways db) as [Hg Hm].
  { assert (row ∈ row :: rows) as Hin by left. rewrite <- E in Hin. apply list_elem_of_bind in Hin as (e & Hrow & He).
    apply list_elem_of_filter in He as [He _]. split; [|by eapply is_entity_member].
    destruct (take _ _) as [|t ts]; [by apply list_elem_of_singleton in Hrow as ->|].
    apply list_elem_of_fmap in Hrow as (x & -> & _). done. }
  unfold gateway_answer in H. destruct (relationship_page _ _ _) as [[[items partial] c]|]; [|done].
  injection H as <-. cbn. by rewrite Hg.
Qed.

Lemma state_answer_member (actor : uuid) entity db a : state_answer actor entity db = Ok a ->
  (actor, sr_GatewayID a) ∈ user_gateways db.
Proof.
  unfold state_answer. intros H.
  assert (forall rows, state_row entity rows = Ok a -> rows <> [] /\ sr_GatewayID a = re_GatewayID entity) as Hr.
  { intros [|[st|] rows]; [done| |done]. intros [= <-]. done. }
  apply Hr in H as [Hne ->]. unfold gatewayStateQuery, sensorStateQuery in Hne.
  destruct (re_Type entity); match type of Hne with ?l <> [] => destruct l as [|row rows] eqn:E; [done|] end;
    (assert (row ∈ row :: rows) as Hin by left); rewrite <- E in Hin; apply list_elem_of_bind in Hin as (e & _ & He);
    apply list_elem_of_filter in He as [He _]; by eapply is_entity_member; first [exact He|apply He].
Qed.

(** The actor is a member of the Gateway the name belongs to. *)
Definition authorised (actor : uuid) (urn : string) db : Prop :=
  exists p, ParseEntityURN urn = Ok p /\ (actor, pi_GatewayID p) ∈ user_gateways db.

Lemma resolve_member (actor : uuid) p db entity : resolve_spec actor p db = Some entity ->
  (actor, pi_GatewayID p) ∈ user_gateways db.
Proof.
  unfold resolve_spec. destruct (head _) as [e|] eqn:He; [|done]. intros _.
  apply head_Some_elem_of, list_elem_of_filter in He as [(_ & _ & Hg & _ & Hm & _) _].
  unfold member_of in Hm. by rewrite Hg in Hm.
Qed.

Lemma list_ok twin hist (actor : uuid) q w n a n' : twin_bounds twin ->
  ListTwins (deployed_twins twin hist) actor q w n = (Ok a, n') ->
  alive w n' /\ exists k, (n <= k < n')%nat /\ list_spec twin actor q (store_at w k) = Ok a
    /\ Forall (fun i => (actor, ts_GatewayID i) ∈ user_gateways (store_at w k)) (lr_Items a).
Proof.
  intros Ht H. unfold ListTwins, with_reader, deployed_twins, PrepareList, prepared in H. unfold list_spec.
  cbn [preparation reader rp_resolver rp_cfg ToReadPreparationConfig rpc_ListMaxLimit] in H.
  case_bool_decide as Ha; [done|]. destruct (ValidateTwinListQuery _ _) as [e|] eqn:Hq; [done|].
  cbn [fmap option_fmap option_map] in H. apply hbind_ok in H as (u & k0 & Hu & H). apply ensure_ctx_ok in Hu as [-> _].
  apply run_scoped_ok in H as (k & H & -> & Hal). split; [done|].
  apply (snap_sound _ _ (snapshot_non_nil _ _ (list_answer actor q) (snapshot_ListEntities mkPostgresTwinReader actor q
    (tb_ListMaxLimit twin) Ha (tbo_list_cap _ Ht) Hq))) in H as (k1 & Hk & H).
  exists k1. split; [lia|]. split; [done|]. by eapply list_answer_members.
Qed.

(** The part that details and states share. *)
Lemma entity_ok {A B} (actor : uuid) (fn : B) refusal urn answer (op : B -> ResolvedEntity uuid -> HM uuid A) cfg w n a n' :
  (forall raw p db entity, actor <> uuid_Nil -> refusal = None -> names raw p -> raw = urn -> resolve_spec actor p db = Some entity ->
     snapshot (op fn entity) (fun db => with_id entity (answer entity db))) ->
  prepared (mkReadPreparation (Some mkPostgresResolver) cfg) actor (Some fn) (HTwin <$> refusal) (fun resolver fn =>
     match ParseEntityURN urn with
     | Err _ => hfail (HTwin ErrInvalidInput)
     | Ok parsed => with_entity resolver actor parsed (op fn)
     end) w n = (Ok a, n') ->
  alive w n' /\ exists k1 k2 entity, (n <= k1 <= k2)%nat /\ (k2 < n')%nat
    /\ entity_spec actor refusal urn answer (store_at w k1) (store_at w k2) = Ok a
    /\ authorised actor urn (store_at w k1) /\ answer entity (store_at w k2) = Ok a.
Proof.
  intros Hop H. unfold prepared in H. unfold entity_spec. cbn [rp_resolver] in H. case_bool_decide as Ha; [done|].
  destruct refusal as [e|] eqn:Er; [done|]. cbn [fmap option_fmap option_map] in H.
  destruct (ParseEntityURN urn) as [p|e] eqn:Hp; [|done]. apply parse_urn_names in Hp as Hn.
  apply (with_entity_ok actor urn p) in H as (Hal & k1 & k2 & k3 & entity & Hk1 & <- & He & Hf); [|done..].
  split; [done|]. apply (snap_sound _ _ (Hop urn p _ entity Ha eq_refl Hn eq_refl He)) in Hf as (k & Hk & Hf).
  exists k1, k, entity. split; [lia|]. split; [lia|]. rewrite He. split; [done|]. split.
  - exists p. split; [done|]. by eapply resolve_member.
  - unfold with_id in Hf. by case_bool_decide.
Qed.

Lemma detail_ok twin hist (actor : uuid) q w n a n' : twin_bounds twin ->
  GetTwinDetail (deployed_twins twin hist) actor q w n = (Ok a, n') ->
  alive w n' /\ exists k1 k2, (n <= k1 <= k2)%nat /\ (k2 < n')%nat
    /\ detail_spec twin actor q (store_at w k1) (store_at w k2) = Ok a
    /\ authorised actor (dq_EntityID q) (store_at w k1) /\ (actor, dr_GatewayID a) ∈ user_gateways (store_at w k2).
Proof.
  intros Ht H. unfold GetTwinDetail, with_reader, PrepareDetail in H. cbn [deployed_twins preparation reader] in H.
  apply (entity_ok actor _ _ _ (fun entity => detail_answer actor entity q) (fun fn entity => fn entity q))
    in H as (Hal & k1 & k2 & entity & Hk & Hk' & Hs & Hau & Ha).
  - split; [done|]. exists k1, k2. split_and!; try done; try lia. by eapply detail_answer_member.
  - intros raw p db entity Ha Hq Hn Hu He. apply (read_detail actor raw p db); try done.
    by apply (detail_query_limit twin).
Qed.

Lemma state_ok twin hist (actor : uuid) q w n a n' : twin_bounds twin ->
  GetTwinState (deployed_twins twin hist) actor q w n = (Ok a, n') ->
  alive w n' /\ exists k1 k2, (n <= k1 <= k2)%nat /\ (k2 < n')%nat
    /\ state_spec actor q (store_at w k1) (store_at w k2) = Ok a
    /\ authorised actor (sq_EntityID q) (store_at w k1) /\ (actor, sr_GatewayID a) ∈ user_gateways (store_at w k2).
Proof.
  intros Ht H. unfold GetTwinState, with_reader, PrepareState in H. cbn [deployed_twins preparation reader] in H.
  apply (entity_ok actor _ _ _ (fun entity => state_answer actor entity) (fun fn entity => fn entity q))
    in H as (Hal & k1 & k2 & entity & Hk & Hk' & Hs & Hau & Ha).
  - split; [done|]. exists k1, k2. split_and!; try done; try lia. by eapply state_answer_member.
  - intros raw p db entity Ha Hq Hn Hu He. by apply (read_state actor raw p db).
Qed.

(** C22 In any world, whatever fails and however the tables change: an answered
    list is the reference page of one state of the tables and shows only
    entities of Gateways the actor was a member of; an answered detail or
    state was resolved and read in two states of the tables, and the actor was
    a member of the entity's Gateway in both; and the context had not ended. *)
Theorem twin_reads_sound twin hist s (actor : uuid) w n n' : composeTwinReads twin hist = Ok s ->
  (forall q a, ListTwins s actor q w n = (Ok a, n') ->
     alive w n' /\ exists k, (n <= k < n')%nat /\ list_spec twin actor q (store_at w k) = Ok a
       /\ Forall (fun i => (actor, ts_GatewayID i) ∈ user_gateways (store_at w k)) (lr_Items a))
  /\ (forall q a, GetTwinDetail s actor q w n = (Ok a, n') ->
     alive w n' /\ exists k1 k2, (n <= k1 <= k2)%nat /\ (k2 < n')%nat
       /\ detail_spec twin actor q (store_at w k1) (store_at w k2) = Ok a
       /\ authorised actor (dq_EntityID q) (store_at w k1) /\ (actor, dr_GatewayID a) ∈ user_gateways (store_at w k2))
  /\ (forall q a, GetTwinState s actor q w n = (Ok a, n') ->
     alive w n' /\ exists k1 k2, (n <= k1 <= k2)%nat /\ (k2 < n')%nat
       /\ state_spec actor q (store_at w k1) (store_at w k2) = Ok a
       /\ authorised actor (sq_EntityID q) (store_at w k1) /\ (actor, sr_GatewayID a) ∈ user_gateways (store_at w k2)).
Proof.
  intros Hs. apply composeTwinReads_ok in Hs as (Ht & _ & ->). split_and!; intros q a H.
  - by apply (list_ok twin hist).
  - by apply (detail_ok twin hist).
  - by apply (state_ok twin hist).
Qed.

End service.
