(* ===== verification/TwinPages.v ===== *)
(** * Following the pages of a list

    A walk asks for the first page and then for the page after each cursor it
    is given.  On tables that do not change, the walk ends and shows every
    entity the query selects exactly once, in the order of names. *)

From stdpp Require Import sorting.
From S2P Require Import Prelude GoStrings GoTime GoFloat GoJson Identity Urn Uuid Telemetry.
From S2P Require Import Txn Store Persist HistoryQuery HistoryStore ReadWorld History HistoryRepo TwinModel.
From S2P Require Import QueryParser Cursor TwinValidation TwinStore TwinReader TwinService TwinTemporal.
From S2P Require Import TwinServiceSpec.
#[local] Open Scope Z_scope.

(** ** Lists sorted by a key *)

#[export] Instance c_le_antisymm : AntiSymm (=) c_le.
Proof.
  intros s t Hst Hts. unfold c_le in *. destruct (c_lt_total s t) as [H|[H|H]]; congruence.
Qed.

Section keyset.
Context {A : Type} (key : A -> string).

Definition key_le (x y : A) : Prop := c_le (key x) (key y).
Definition key_lt (x y : A) : Prop := c_lt (key x) (key y) = true.

#[export] Instance key_le_trans : Transitive key_le.
Proof. intros x y z. unfold key_le. apply c_le_trans. Qed.

#[export] Instance key_le_total : Total key_le.
Proof. intros x y. unfold key_le. apply c_le_total. Qed.

Lemma key_strict l : NoDup (key <$> l) -> StronglySorted key_le l -> StronglySorted key_lt l.
Proof.
  intros Hnd Hs. induction Hs as [|x l Hs IH Hx]; [constructor|]. cbn in Hnd. apply list.NoDup_cons in Hnd as [Hn Hnd].
  constructor; [by apply IH|]. apply list.Forall_forall. intros y Hy. rewrite list.Forall_forall in Hx.
  specialize (Hx y Hy). unfold key_le, c_le, key_lt in *. destruct (c_lt_total (key x) (key y)) as [H|[H|H]]; [done| |congruence].
  exfalso. apply Hn. rewrite H. by apply list_elem_of_fmap_2.
Qed.

(** The elements after one of a strictly sorted list. *)
Lemma filter_after l1 x l2 : StronglySorted key_lt (l1 ++ x :: l2) ->
  filter (fun y => c_lt (key x) (key y) = true) (l1 ++ x :: l2) = l2.
Proof.
  intros Hs. apply sorting.StronglySorted_app in Hs as (Hx & _ & H2). apply StronglySorted_inv in H2 as [_ H2]. rewrite list.Forall_forall in H2.
  rewrite list.filter_app, filter_none, filter_cons, decide_False, filter_all; [done| | |].
  - intros i y Hy%list_elem_of_lookup_2. by apply H2.
  - by rewrite c_lt_irrefl.
  - intros i y Hy%list_elem_of_lookup_2 Hlt. specialize (Hx y x Hy ltac:(by left)). unfold key_lt in Hx.
    pose proof (c_lt_trans _ _ _ Hlt Hx) as H. by rewrite c_lt_irrefl in H.
Qed.

Lemma strict_unique l1 l2 : StronglySorted key_lt l1 -> StronglySorted key_lt l2 -> l1 ≡ₚ l2 -> l1 = l2.
Proof.
  apply StronglySorted_unique_strong. intros x y _ _ H1 H2. unfold key_lt in *.
  pose proof (c_lt_trans _ _ _ H1 H2) as H. by rewrite c_lt_irrefl in H.
Qed.

Lemma strict_filter P `{!forall x, Decision (P x)} l : StronglySorted key_lt l -> StronglySorted key_lt (filter P l).
Proof.
  induction 1 as [|x l Hs IH Hx]; [constructor|]. rewrite filter_cons. destruct (decide (P x)); [|done].
  constructor; [done|]. apply list.Forall_forall. intros y Hy. apply list_elem_of_filter in Hy as [_ Hy].
  rewrite list.Forall_forall in Hx. by apply Hx.
Qed.

End keyset.

Section pages.
Context {uuid : Type} `{U : UuidLib uuid} `{SF : SqlFunctions} `{JT : JsonbText} `{TM : TextMin}.
Implicit Types (db : HistoryDB uuid) (w : World uuid) (e : TwinEntity uuid).

(** ** The entities of a list *)

(** Entities carry the names that provisioning gives them, each once. *)
Record canonical_entities db : Prop := {
  ce_names e g : e ∈ twin_entities (store db) -> e_gateway_id e = Some g ->
    e_entity_type e = "Gateway" \/ e_entity_type e = "Sensor" ->
    exists p, names (e_entity_id e) p /\ pi_GatewayID p = g /\ entity_type_text (pi_Type p) = e_entity_type e;
  ce_unique : NoDup (e_entity_id <$> twin_entities (store db));
}.

Lemma NoDup_key_filter P `{!forall e, Decision (P e)} (es : list (TwinEntity uuid)) :
  NoDup (e_entity_id <$> es) -> NoDup (e_entity_id <$> filter P es).
Proof.
  induction es as [|e es IH]; [done|]. rewrite fmap_cons, filter_cons. intros [Hn Hnd]%list.NoDup_cons.
  destruct (decide (P e)); [|by apply IH]. cbn. apply list.NoDup_cons. split; [|by apply IH].
  intros Hin. apply Hn. apply list_elem_of_fmap in Hin as (e' & -> & He'). apply list_elem_of_filter in He' as [_ He'].
  by apply list_elem_of_fmap_2.
Qed.

Lemma listed_perm (actor : uuid) g t after db :
  listed_entities actor g t after db ≡ₚ filter (listed actor g t after db) (twin_entities (store db)).
Proof. apply merge_sort_Permutation. Qed.

Lemma listed_strict (actor : uuid) g t after db : canonical_entities db ->
  StronglySorted (key_lt e_entity_id) (listed_entities actor g t after db).
Proof.
  intros [_ Hu]. apply key_strict; [|apply (StronglySorted_merge_sort (key_le e_entity_id))].
  rewrite listed_perm. by apply NoDup_key_filter.
Qed.

(** The page after an entity continues the list. *)
Lemma listed_after (actor : uuid) g t db l1 e l2 : canonical_entities db ->
  listed_entities actor g t None db = l1 ++ e :: l2 -> listed_entities actor g t (Some (e_entity_id e)) db = l2.
Proof.
  intros Hc E. pose proof (listed_strict actor g t None db Hc) as Hs. rewrite E in Hs.
  pose proof (filter_after e_entity_id l1 e l2 Hs) as Hf.
  apply (strict_unique e_entity_id).
  - by apply listed_strict.
  - rewrite <- Hf. by apply strict_filter.
  - rewrite <- Hf, <- E, !listed_perm, list_filter_filter.
    match goal with |- ?l1 ≡ₚ ?l2 => cut (l1 = l2); [by intros ->|] end. apply list_filter_iff.
    intros e'. unfold listed. split.
    + intros (Hm & Hy & Hg & Ht & Ha). split_and!; [by apply Ha|done..].
    + intros (Ha & Hm & Hy & Hg & Ht & _). split_and!; try done. by intros x [= <-].
Qed.

(** ** One page *)

Definition with_after (q : TwinListQuery) (after : option string) : TwinListQuery :=
  mkListQuery (lq_GatewayID q) (lq_EntityType q) (lq_Limit q) after.

Definition list_item db e : TwinSummary := summary_of (list_row db e).

Lemma listed_elem (actor : uuid) g t after db e : e ∈ listed_entities actor g t after db ->
  e ∈ twin_entities (store db) /\ listed actor g t after db e.
Proof. rewrite listed_perm. intros [H1 H2]%list_elem_of_filter. done. Qed.

Lemma text_inj t1 t2 : EntityType_Valid t1 = true -> EntityType_Valid t2 = true ->
  entity_type_text t1 = entity_type_text t2 -> t1 = t2.
Proof. by destruct t1, t2. Qed.

(** The listed entities are those cursors can be made for. *)
Lemma listed_cursor (actor : uuid) g t after db e : canonical_entities db ->
  default true (EntityType_Valid <$> t) = true -> e ∈ listed_entities actor g t after db ->
  exists c, EncodeListCursor (e_entity_id e) g t = Ok c.
Proof.
  intros Hc Ht (He & Hm & Hy & Hg & Hty & _)%listed_elem. unfold member_of in Hm.
  destruct (e_gateway_id e) as [g'|] eqn:Eg; [|done].
  destruct (ce_names db Hc e g' He Eg Hy) as (p & Hn & Hp & Htp). apply parse_urn_names in Hn as Hparse.
  apply (selected_encodes _ p); [done|]. split.
  - intros x ->. rewrite Hp. specialize (Hg x eq_refl). congruence.
  - intros x ->. apply text_inj; [done|by destruct Hn|]. rewrite Htp. symmetry. by apply Hty.
Qed.

(** The page that starts after [after], when the list continues with [rest]. *)
Definition page_of (actor : uuid) (q : TwinListQuery) db (rest : list (TwinEntity uuid)) (a : TwinListResult) : Prop :=
  if decide (lq_Limit q < Z.of_nat (length rest)) then
    exists l1 e l2, rest = l1 ++ e :: l2 /\ Z.of_nat (length l1) = lq_Limit q - 1 /\ l2 <> []
      /\ lr_Items a = list_item db <$> (l1 ++ [e])
      /\ exists c, lr_NextCursor a = Some c /\ EncodeListCursor (e_entity_id e) (lq_GatewayID q) (lq_EntityType q) = Ok c
  else lr_Items a = list_item db <$> rest /\ lr_NextCursor a = None.

Lemma page_correct (actor : uuid) q after db : canonical_entities db -> 1 <= lq_Limit q ->
  default true (EntityType_Valid <$> lq_EntityType q) = true ->
  let rest := listed_entities actor (lq_GatewayID q) (lq_EntityType q) after db in
  exists a, list_page q (lq_Limit q)
    (summary_of <$> listEntitiesQuery actor (lq_GatewayID q) (lq_EntityType q) after (lq_Limit q + 1) db) = Ok a
  /\ page_of actor q db rest a.
Proof.
  intros Hc Hl Ht rest. unfold list_page, listEntitiesQuery, page_of. fold rest.
  rewrite <- fmap_take, <- list_fmap_compose. change (summary_of ∘ list_row db) with (list_item db).
  rewrite length_fmap, length_take. destruct (decide (lq_Limit q < Z.of_nat (length rest))) as [Hlt|Hge].
  - rewrite (proj2 (Z.ltb_lt _ _)) by lia.
    destruct (lookup_lt_is_Some_2 rest (Z.to_nat (lq_Limit q - 1))) as [e He]; [lia|].
    rewrite list_lookup_fmap, lookup_take, decide_True, He by lia. cbn [fmap option_fmap option_map].
    destruct (listed_cursor actor (lq_GatewayID q) (lq_EntityType q) after db e) as [c Hcur];
      [done..|by apply list_elem_of_lookup_2 in He|].
    change (ts_ID (list_item db e)) with (e_entity_id e). rewrite Hcur. eexists. split; [done|].
    pose proof (take_drop_middle rest _ _ He) as Hsplit.
    eexists (take (Z.to_nat (lq_Limit q - 1)) rest), e, (drop (S (Z.to_nat (lq_Limit q - 1))) rest).
    split; [done|]. split; [rewrite length_take; lia|]. split.
    { intros E. apply (f_equal length) in E. rewrite length_drop in E. cbn in E. lia. }
    split; [|by exists c]. cbn. rewrite <- fmap_take, take_take. f_equal.
    rewrite <- (take_S_r _ _ _ He). f_equal. lia.
  - rewrite (proj2 (Z.ltb_ge _ _)) by lia. eexists. split; [done|]. cbn. split; [|done].
    f_equal. apply take_ge. lia.
Qed.

(** ** The walk *)

(** Asks for the pages one after the other; [None] when [fuel] pages are not
    enough. *)
Fixpoint walk (fuel : nat) (s : TwinReadService) (actor : uuid) (q : TwinListQuery) w (n : nat)
    : option (res herror (list TwinSummary)) :=
  match fuel with
  | O => None
  | S fuel' =>
      match ListTwins s actor q w n with
      | (Err e, _) => Some (Err e)
      | (Ok a, n') =>
          match lr_NextCursor a with
          | None => Some (Ok (lr_Items a))
          | Some c =>
              match walk fuel' s actor (with_after q (Some c)) w n' with
              | Some (Ok rest) => Some (Ok (lr_Items a ++ rest))
              | r => r
              end
          end
      end
  end.

(** The cursor of a query, as the entity it starts after. *)
Definition starts_after (q : TwinListQuery) (after : option string) : Prop :=
  match lq_After q with
  | None => after = None
  | Some c => exists urn, after = Some urn /\ EncodeListCursor urn (lq_GatewayID q) (lq_EntityType q) = Ok c
  end.

Lemma starts_after_cursor q after : starts_after q after -> after_cursor q = Ok after.
Proof.
  unfold starts_after, after_cursor, nonempty_cursor. destruct (lq_After q) as [c|]; [|by intros ->].
  intros (urn & -> & Hc). pose proof (list_cursor_core _ _ _ _ (lq_GatewayID q) (lq_EntityType q) Hc) as Hp.
  rewrite decide_True in Hp by done. rewrite bool_decide_false.
  - rewrite Hp. assert (ValidateListCursor (Some (mkListCursor urn (lq_GatewayID q) (lq_EntityType q)))
      (lq_GatewayID q) (lq_EntityType q) = None) as Hv; [|by rewrite Hv].
    apply validate_list_cursor. apply encode_list_cursor in Hc as (p & Hk & Hs & _). by exists p.
  - intros ->. vm_compute in Hp. done.
Qed.

Lemma starts_after_valid q after maxLimit : starts_after q after ->
  ValidateTwinListQuery (with_after q None) maxLimit = None -> ValidateTwinListQuery q maxLimit = None.
Proof.
  unfold ValidateTwinListQuery, starts_after. cbn [with_after lq_Limit lq_GatewayID lq_EntityType lq_After]. intros Hs H.
  destruct (_ || _); [done|]. destruct (bool_decide _); [done|]. destruct (negb _); [done|].
  destruct (lq_After q) as [c|]; [|done]. destruct Hs as (urn & _ & Hc).
  by rewrite (list_cursor_core _ _ _ _ _ _ Hc), decide_True.
Qed.

Lemma walk_correct twin hist (actor : uuid) w db fuel : twin_bounds twin -> quiet w db -> canonical_entities db ->
  actor <> uuid_Nil -> forall q after pre n, starts_after q after ->
  ValidateTwinListQuery (with_after q None) (tb_ListMaxLimit twin) = None ->
  listed_entities actor (lq_GatewayID q) (lq_EntityType q) None db
    = pre ++ listed_entities actor (lq_GatewayID q) (lq_EntityType q) after db ->
  (length (listed_entities actor (lq_GatewayID q) (lq_EntityType q) after db) < fuel)%nat ->
  walk fuel (deployed_twins twin hist) actor q w n
  = Some (Ok (list_item db <$> listed_entities actor (lq_GatewayID q) (lq_EntityType q) after db)).
Proof.
  intros Ht Hw Hc Ha. induction fuel as [|fuel IH]; intros q after pre n Hs Hq Hpre Hf; [lia|]. cbn [walk].
  pose proof (list_quiet twin hist actor q w db n Ht Hw) as Hl. pose proof (starts_after_valid _ _ _ Hs Hq) as Hv.
  unfold list_spec in Hl. rewrite bool_decide_false, Hv in Hl by done.
  apply list_query_ok in Hv as (Hlim & _ & Hty & _); [|by apply tbo_list_cap].
  unfold list_answer in Hl. rewrite (starts_after_cursor _ _ Hs) in Hl. cbn [mbind res_bind] in Hl.
  destruct (page_correct actor q after db Hc) as (a & Hp & Hpage); [lia|done|].
  rewrite Hp in Hl. destruct (ListTwins _ _ _ _ _) as [r n']. cbn in Hl. subst r.
  set (rest := listed_entities actor (lq_GatewayID q) (lq_EntityType q) after db) in *.
  unfold page_of in Hpage. case_decide as Hlen.
  2:{ destruct Hpage as [-> ->]. done. }
  destruct Hpage as (l1 & e & l2 & E & Hl1 & _ & Hitems & c & -> & Hcur).
  assert (listed_entities actor (lq_GatewayID q) (lq_EntityType q) (Some (e_entity_id e)) db = l2) as El2.
  { apply (listed_after _ _ _ _ (pre ++ l1)); [done|]. by rewrite Hpre, E, <- app_assoc. }
  rewrite (IH (with_after q (Some c)) (Some (e_entity_id e)) (pre ++ l1 ++ [e])); cbn [with_after lq_GatewayID lq_EntityType].
  - rewrite El2, Hitems, E, <- fmap_app, <- app_assoc. done.
  - exists (e_entity_id e). done.
  - done.
  - by rewrite El2, Hpre, E, <- !app_assoc.
  - rewrite El2. rewrite E, length_app in Hf. cbn in Hf. lia.
Qed.

(** C21 Following the cursors of a list shows exactly the entities that the filters
    select among those of the actor's Gateways, each once and in the order of
    names, on tables that do not change; the walk takes at most one page more
    than there are entities, whatever the page size. *)
Theorem list_walk_complete twin hist s (actor : uuid) q w db n :
  composeTwinReads twin hist = Ok s -> quiet w db -> canonical_entities db -> actor <> uuid_Nil ->
  ValidateTwinListQuery q (tb_ListMaxLimit twin) = None -> lq_After q = None ->
  exists es, es ≡ₚ filter (listed actor (lq_GatewayID q) (lq_EntityType q) None db) (twin_entities (store db))
    /\ StronglySorted (fun e1 e2 => c_lt (e_entity_id e1) (e_entity_id e2) = true) es
    /\ walk (S (length es)) s actor q w n = Some (Ok (list_item db <$> es)).
Proof.
  intros Hs Hw Hc Ha Hq Hafter. apply composeTwinReads_ok in Hs as (Ht & _ & ->).
  exists (listed_entities actor (lq_GatewayID q) (lq_EntityType q) None db).
  split; [apply listed_perm|]. split; [by apply listed_strict|].
  apply (walk_correct twin hist actor w db _ Ht Hw Hc Ha q None []); [by unfold starts_after; rewrite Hafter| |done|lia].
  unfold with_after. destruct q. cbn in *. by subst.
Qed.

End pages.
