(* ===== verification/TemporalSpec.v ===== *)
(** * What a temporal answer means

    The summary of a window decides exactly whether its observations are valid
    intervals of one unit; what ingestion stores always is. *)

From stdpp Require Import sorting.
From S2P Require Import Prelude GoStrings GoTime GoFloat GoJson Uuid Identity Urn Telemetry Validation Message Txn.
From S2P Require Import Store Persist PersistSpec HistoryQuery HistoryStore ReadWorld History HistoryRepo.
From S2P Require Import HistorySpec HistoryReaderSpec HistoryServiceSpec HistoryData TwinModel.
From S2P Require Import QueryParser TwinValidation TwinStore TwinReader TwinService TwinTemporal.
From S2P Require Import TwinServiceSpec.
#[local] Open Scope Z_scope.

(** ** Intervals *)

(** The statement and the code agree on what an interval is. *)
Lemma invalid_interval_same v : invalid_interval v = isInvalidSampleInterval v.
Proof.
  unfold invalid_interval, isInvalidSampleInterval. destruct v as [s|s| |s m e]; [by destruct s..|done|].
  cbn [IsNaN IsInf orb]. done.
Qed.

Lemma interval_of_int n : 0 < n <= maxExactInterval -> isInvalidSampleInterval (f64_of_int n) = false.
Proof.
  unfold maxExactInterval. intros Hn. destruct (f64_positive n Hn) as (m & e & E & Hc).
  unfold isInvalidSampleInterval, maxExactInterval.
  assert (SFeqb (f64_of_int n) (Trunc (f64_of_int n)) = true) as ->.
  { rewrite E. cbn [Trunc]. rewrite <- E, int_of_f64_of_int, E by done. apply SFeqb_refl_finite. }
  assert (SFltb (f64_of_int (2 ^ 53)) (f64_of_int n) = false) as ->.
  { destruct Hc as [He| ->]; [|vm_compute; reflexivity]. rewrite f64_of_two53, E. unfold SFltb. cbn [SFcompare].
    replace (1 ?= e) with Gt by (symmetry; apply Z.compare_gt_iff; lia). done. }
  by rewrite E.
Qed.

(** ** Counting *)

Lemma filter_length_all {A} (f : A -> bool) l : length (List.filter f l) = length l <-> Forall (fun x => f x = true) l.
Proof.
  induction l as [|x l IH]; [done|]. cbn [List.filter]. rewrite list.Forall_cons, <- IH.
  pose proof (List.filter_length_le f l). destruct (f x); cbn [length]; split; intros H'.
  - split; [done|lia].
  - destruct H'. lia.
  - lia.
  - by destruct H'.
Qed.

Lemma filter_length_none {A} (f : A -> bool) l : length (List.filter f l) = 0%nat <-> Forall (fun x => f x = false) l.
Proof.
  induction l as [|x l IH]; [done|]. cbn [List.filter]. rewrite list.Forall_cons, <- IH.
  destruct (f x); cbn [length]; split; intros H'; [lia|by destruct H'|done|by destruct H'].
Qed.

Section spec.
Context {uuid : Type} `{U : UuidLib uuid} `{SF : SqlFunctions} `{JT : JsonbText} `{TM : TextMin} `{ML : !TextMinLaw}.
Implicit Types (r : TemporalRow uuid) (rows : list (TemporalRow uuid)).

Lemma count_all f rows : count_if f rows = Z.of_nat (length rows) <-> Forall (fun r => f r = true) rows.
Proof. unfold count_if. rewrite <- filter_length_all. lia. Qed.

Lemma count_none f rows : (0 <? count_if f rows) = false <-> Forall (fun r => f r = false) rows.
Proof. unfold count_if. rewrite <- filter_length_none, Z.ltb_ge. lia. Qed.

Lemma count_zero f rows : count_if f rows = 0 <-> Forall (fun r => f r = false) rows.
Proof. unfold count_if. rewrite <- filter_length_none. lia. Qed.

(** ** Windows *)

(** An observation of [sample_interval_us]: one number, a valid interval. *)
Definition interval_row r : Prop :=
  exists v, tv_value_number r = Some v /\ tv_value_text r = None /\ tv_value_boolean r = None
  /\ isInvalidSampleInterval v = false.

(** All observations carry this unit, or none carries one. *)
Definition unit_is (unit : option string) r : Prop :=
  unit_of r = match unit with Some u => UnitText u | None => UnitUnknown end.

Lemma interval_row_spec r : interval_row r <->
  value_columns r = 1 /\ is_Some (tv_value_number r)
  /\ match tv_value_number r with Some v => invalid_interval v | None => false end = false.
Proof.
  unfold interval_row, value_columns. split.
  - intros (v & Hn & Ht & Hb & Hv). rewrite Hn, Ht, Hb, invalid_interval_same. split_and!; [done|by eexists|done].
  - intros (Hc & [v Hn] & Hv). rewrite Hn in Hc, Hv |- *. exists v. rewrite invalid_interval_same in Hv.
    destruct (tv_value_text r), (tv_value_boolean r); by split_and!.
Qed.

Lemma units_all rows : Forall (fun r => is_unknown r = false) rows -> Forall (fun r => is_malformed r = false) rows ->
  Forall (fun r => exists u, unit_of r = UnitText u /\ u ∈ omap unit_text rows) rows.
Proof.
  intros Hu Hm. rewrite !list.Forall_forall in *. intros r Hr. specialize (Hu r Hr). specialize (Hm r Hr).
  unfold is_unknown, is_malformed in *. destruct (unit_of r) as [|u|] eqn:E; [done| |done]. exists u. split; [done|].
  apply list_elem_of_omap. exists r. split; [done|]. unfold unit_text. by rewrite E.
Qed.

Lemma dups_single (l : list string) : length (remove_dups l) = 1%nat <-> l <> [] /\ exists u, Forall (fun v => v = u) l.
Proof.
  split.
  - intros H. destruct (remove_dups l) as [|u [|]] eqn:E; [done| |done]. split.
    + intros ->. done.
    + exists u. apply list.Forall_forall. intros v Hv. apply elem_of_remove_dups in Hv. rewrite E in Hv.
      by apply list_elem_of_singleton in Hv.
  - intros [Hne [u Hu]]. rewrite list.Forall_forall in Hu.
    assert (remove_dups l = [u]) as ->; [|done].
    assert (NoDup (remove_dups l)) as Hnd by apply NoDup_remove_dups.
    assert (forall v, v ∈ remove_dups l -> v = u) as Hall by (intros v Hv; apply Hu; by apply elem_of_remove_dups).
    destruct l as [|v0 l0]; [done|]. assert (v0 ∈ remove_dups (v0 :: l0)) as Hin by (apply elem_of_remove_dups; by left).
    destruct (remove_dups (v0 :: l0)) as [|a [|b t]]; [by apply not_elem_of_nil in Hin| |].
    + f_equal. apply Hall. by left.
    + exfalso. apply list.NoDup_cons in Hnd as [Hn _]. apply Hn. rewrite (Hall a) by by left.
      rewrite <- (Hall b) by (right; by left). by left.
Qed.

Lemma units_of_window rows unit : Forall (unit_is (Some unit)) rows -> omap unit_text rows = (fun _ => unit) <$> rows.
Proof.
  induction 1 as [|r rows Hr _ IH]; [done|]. cbn. unfold unit_text at 1. rewrite Hr. f_equal. exact IH.
Qed.

Lemma min_unit_same l u : l <> [] -> Forall (fun v => v = u) l -> sql_min_text l = Some u.
Proof.
  intros Hne Hall. pose proof (sql_min_text_spec l) as H. destruct (sql_min_text l) as [m|]; [|done].
  rewrite list.Forall_forall in Hall. f_equal. by apply Hall.
Qed.

Lemma classify_accepts rows unit : rows <> [] -> Forall interval_row rows -> Forall (unit_is unit) rows ->
  classifyTemporalWindow (Some (window_summary rows)) "sample_interval_us"
  = Ok (mkClassification "number" unit true (Z.of_nat (length rows))).
Proof.
  intros Hne Hv Hu. assert (0 < Z.of_nat (length rows)) as Hpos by (destruct rows; [done|cbn; lia]).
  unfold classifyTemporalWindow, window_summary.
  cbn [TotalCount NumberCount TextCount BooleanCount InvalidTypeCount InvalidIntervalCount UnknownUnitCount
       MalformedUnitCount DistinctUnitCount MinUnit].
  rewrite (proj2 (Z.eqb_neq _ _)) by lia.
  rewrite (proj2 (count_none (fun r => negb (value_columns r =? 1)) rows)).
  2:{ eapply list.Forall_impl; [exact Hv|]. intros r (Hc & _)%interval_row_spec. by rewrite Hc. }
  rewrite (proj2 (count_none is_malformed rows)).
  2:{ eapply list.Forall_impl; [exact Hu|]. intros r Hr. unfold is_malformed. rewrite Hr. by destruct unit. }
  rewrite (proj2 (count_all (present ∘ tv_value_number) rows)), Z.eqb_refl.
  2:{ eapply list.Forall_impl; [exact Hv|]. intros r (_ & [v Hr] & _)%interval_row_spec. cbn. by rewrite Hr. }
  cbn [mbind res_bind]. rewrite !bool_decide_true by done. cbn [negb andb].
  rewrite (proj2 (count_none (fun r => match tv_value_number r with Some v => invalid_interval v | None => false end) rows)).
  2:{ eapply list.Forall_impl; [exact Hv|]. by intros r (_ & _ & Hi)%interval_row_spec. }
  destruct unit as [u|].
  - assert (Forall (fun r => is_unknown r = false) rows) as Hk
      by (eapply list.Forall_impl; [exact Hu|]; intros r Hr; unfold is_unknown; by rewrite Hr).
    rewrite (proj2 (count_zero is_unknown rows) Hk). rewrite (proj2 (Z.eqb_neq 0 _)) by lia. rewrite Z.eqb_refl. cbn [andb].
    rewrite (units_of_window rows u Hu).
    assert ((fun _ => u) <$> rows <> []) as Hne' by by destruct rows.
    assert (Forall (fun v => v = u) ((fun _ => u) <$> rows)) as Hall by (apply list.Forall_fmap, list.Forall_true; done).
    rewrite (proj2 (dups_single _)) by eauto. cbn [Z.eqb Z.of_nat Pos.of_succ_nat Pos.eqb]. by rewrite (min_unit_same _ u).
  - rewrite (proj2 (count_all is_unknown rows)), Z.eqb_refl; [done|].
    eapply list.Forall_impl; [exact Hu|]. intros r Hr. unfold is_unknown. by rewrite Hr.
Qed.

Lemma classify_sound rows c : classifyTemporalWindow (Some (window_summary rows)) "sample_interval_us" = Ok c ->
  Forall interval_row rows /\ Forall (unit_is (tc_Unit c)) rows /\ tc_TotalCount c = Z.of_nat (length rows)
  /\ (rows <> [] -> tc_ValueType c = "number").
Proof.
  destruct rows as [|r0 rows0]; [by intros [= <-]|]. set (rows := r0 :: rows0).
  assert (0 < Z.of_nat (length rows)) as Hpos by (cbn; lia). unfold classifyTemporalWindow, window_summary.
  cbn [TotalCount NumberCount TextCount BooleanCount InvalidTypeCount InvalidIntervalCount UnknownUnitCount
       MalformedUnitCount DistinctUnitCount MinUnit].
  rewrite (proj2 (Z.eqb_neq _ _)) by lia. intros H.
  destruct (0 <? count_if (fun r => negb _) rows) eqn:Ht; [done|]. apply count_none in Ht.
  destruct (0 <? count_if is_malformed rows) eqn:Hm; [done|]. apply count_none in Hm.
  destruct (count_if (present ∘ tv_value_number) rows =? Z.of_nat (length rows)) eqn:Hn.
  2:{ exfalso. rewrite (bool_decide_true ("sample_interval_us" = "sample_interval_us")) in H by done.
      destruct (count_if (present ∘ tv_value_text) rows =? Z.of_nat (length rows)) in H; [discriminate H|].
      destruct (count_if (present ∘ tv_value_boolean) rows =? Z.of_nat (length rows)) in H; discriminate H. }
  apply Z.eqb_eq, count_all in Hn. cbn [mbind res_bind] in H. rewrite !bool_decide_true in H by done. cbn [negb andb] in H.
  match type of H with (if ?b then _ else _) = _ => destruct b eqn:Hi; [done|] end. apply count_none in Hi.
  assert (Forall interval_row rows) as Hv.
  { rewrite !list.Forall_forall in *. intros r Hr. apply interval_row_spec. specialize (Ht r Hr). specialize (Hn r Hr).
    cbv beta in Ht, Hn. apply negb_false_iff, Z.eqb_eq in Ht. split; [done|]. split; [|by apply Hi].
    cbn in Hn. destruct (tv_value_number r); [by eexists|done]. }
  destruct (count_if is_unknown rows =? Z.of_nat (length rows)) eqn:Hk.
  - injection H as <-. split; [done|]. split; [|done]. apply Z.eqb_eq, count_all in Hk.
    eapply list.Forall_impl; [exact Hk|]. intros r Hr. unfold unit_is, is_unknown in *. by destruct (unit_of r).
  - destruct (_ && _) eqn:Hd in H; [|done]. injection H as <-. split; [done|]. split; [|done].
    apply andb_true_iff in Hd as [Hz Hd]. apply Z.eqb_eq, count_zero in Hz. apply Z.eqb_eq in Hd.
    assert (length (remove_dups (omap unit_text rows)) = 1%nat) as Hd' by lia.
    apply dups_single in Hd' as (Hne & u & Hu). cbn [tc_Unit]. rewrite (min_unit_same _ u) by done.
    pose proof (units_all rows Hz Hm) as Hall. rewrite !list.Forall_forall in *. intros r Hr.
    destruct (Hall r Hr) as (u' & Hur & Hin). unfold unit_is. rewrite Hur. f_equal. by apply Hu.
Qed.

(** The summary of a window of [sample_interval_us] is classified exactly when
    every observation of the window is one valid interval (a whole number of
    microseconds up to 2^53) and all of them carry one unit, or none a unit;
    the classification then says which. *)
Theorem classifyTemporalWindow_spec rows : rows <> [] -> forall c,
  classifyTemporalWindow (Some (window_summary rows)) "sample_interval_us" = Ok c
  <-> Forall interval_row rows /\ Forall (unit_is (tc_Unit c)) rows
      /\ c = mkClassification "number" (tc_Unit c) true (Z.of_nat (length rows)).
Proof.
  intros Hne c. split.
  - intros H. destruct (classify_sound rows c H) as (Hv & Hu & _). split; [done|]. split; [done|].
    pose proof (classify_accepts rows (tc_Unit c) Hne Hv Hu) as H'. congruence.
  - intros (Hv & Hu & ->). by apply classify_accepts.
Qed.

(** ** What ingestion stores *)

(** Every stored [sample_interval_us] is one valid interval in microseconds. *)
Definition intervals_stored (db : DB uuid) : Prop := forall r, r ∈ twin_temporal_values db ->
  tv_property_name r = "sample_interval_us" -> interval_row r /\ unit_is (Some "us") r.

Lemma temporal_row_stored resource (last : SampleCandidate uuid) interval : 0 < interval <= maxExactFloat64Integer ->
  interval_row (temporal_row resource last interval) /\ unit_is (Some "us") (temporal_row resource last interval).
Proof.
  intros Hi. split; [|done]. exists (f64_of_int interval). split_and!; [done..|]. apply interval_of_int. exact Hi.
Qed.

Lemma effect_intervals now db (m : Message uuid) md resource db' :
  committed_effect now db m md resource db' -> intervals_stored db -> intervals_stored db'.
Proof.
  intros Heff Hdb r Hr Hp. pose proof (eff_interval _ _ _ _ _ _ Heff) as Hi.
  destruct (eff_temporal _ _ _ _ _ _ Heff) as (last & _ & E). rewrite E in Hr.
  apply elem_of_app in Hr as [Hr|Hr]; [by apply Hdb|]. apply list_elem_of_singleton in Hr as ->.
  by apply temporal_row_stored.
Qed.

(** Ingestion and temporal reading agree: persisting a message, whatever the
    database answers, stores only observations of [sample_interval_us] that are
    valid intervals in microseconds; over such tables every window is accepted,
    as numbers, and with the unit [us] unless it is empty. *)
Theorem ingested_windows_accepted w ctx (m : Message uuid) db result db' :
  Persist w ctx (Some m) db = (result, db') -> intervals_stored db ->
  intervals_stored db'
  /\ forall (hdb : HistoryDB uuid) id from to, store hdb = db' ->
       let rows := observations id "sample_interval_us" from to hdb in
       exists c, classifyTemporalWindow (Some (window_summary rows)) "sample_interval_us" = Ok c
         /\ tc_TotalCount c = Z.of_nat (length rows)
         /\ (rows <> [] -> tc_ValueType c = "number" /\ tc_Unit c = Some "us").
Proof.
  intros H Hdb. assert (intervals_stored db') as Hdb'.
  { apply persist_outcome in H. destruct result as [r|e].
    - destruct H as (md & _ & [(_ & -> & _)|(_ & _ & resource & Heff)]); [done|by eapply effect_intervals].
    - destruct H as [->|(_ & _ & md & resource & _ & Heff)]; [done|by eapply effect_intervals]. }
  split; [done|]. intros hdb id from to Hs rows. destruct (decide (rows = [])) as [->|Hne].
  - eexists. split; [done|]. split; [done|]. by intros [].
  - exists (mkClassification "number" (Some "us") true (Z.of_nat (length rows))).
    assert (forall r, r ∈ rows -> interval_row r /\ unit_is (Some "us") r) as Hrows.
    { intros r Hr. unfold rows, observations in Hr. rewrite Hs in Hr. apply list_elem_of_filter in Hr as [(_ & Hp & _) Hr].
      by apply Hdb'. }
    split; [|done]. apply classify_accepts; [done|..]; apply list.Forall_forall; intros r Hr; by apply Hrows.
Qed.

End spec.

(** * Temporal histories in any world

    Each statement sees one state of the tables, so its summary and its
    observations or buckets describe the same window; an answered history
    contains that window completely. *)


Section run.
Context {uuid : Type} `{U : UuidLib uuid} `{SF : SqlFunctions} `{SL : !SqlLaws} `{JT : JsonbText}.
Context `{TM : TextMin} `{ML : !TextMinLaw}.
Implicit Types (db : HistoryDB uuid) (w : World uuid) (entity : ResolvedEntity uuid) (r : TemporalRow uuid).

(** ** The scanners *)

Fixpoint scan_temporal {Row Pt} (point : TemporalWindowSummary -> Row -> res herror (option Pt))
    (rows : list (option Row * TemporalWindowSummary)) (points : list Pt) (summary : option TemporalWindowSummary)
    : res herror (list Pt * option TemporalWindowSummary) :=
  match rows with
  | [] => Ok (points, summary)
  | (row, rowSummary) :: rows' =>
      let first := default rowSummary summary in
      match row with
      | None => scan_temporal point rows' points (Some first)
      | Some row =>
          let! pt := point first row in scan_temporal point rows' (points ++ option_list pt) (Some first)
      end
  end.

Lemma snapshot_temporal_rows {Row Pt} (point : TemporalWindowSummary -> Row -> res herror (option Pt)) rows :
  forall points summary, snapshot (temporal_rows (uuid := uuid) point rows points summary)
    (fun _ => scan_temporal point rows points summary).
Proof.
  induction rows as [|[row rowSummary] rows IH]; intros points summary; cbn [temporal_rows scan_temporal]; apply snapshot_reply.
  - apply snapshot_reader_ctx, snapshot_ret.
  - apply snapshot_reader_ctx, snapshot_reply. destruct row as [row|]; [|apply IH].
    unfold hbind, of_res. destruct (point _ row) as [pt|e]; [apply IH|apply (snapshot_fail e)].
Qed.

Lemma scan_temporal_rows {Row Pt} (point : TemporalWindowSummary -> Row -> res herror (option Pt)) s rows :
  forall points summary out, scan_temporal point ((fun row => (Some row, s)) <$> rows) points summary = Ok out ->
  exists pts, map_res (point (default s summary)) rows = Ok pts
    /\ out = (points ++ omap id pts, match rows with [] => summary | _ => Some (default s summary) end).
Proof.
  induction rows as [|row rows IH]; intros points summary out H.
  - injection H as <-. exists []. split; [done|]. cbn. by rewrite app_nil_r.
  - cbn [fmap list_fmap scan_temporal] in H. cbn [map_res]. set (first := default s summary) in *.
    destruct (point first row) as [pt|e]; [|done]. cbn [mbind res_bind] in H |- *.
    apply IH in H as (pts & Hm & ->). change (default s (Some first)) with first in Hm |- *. exists (pt :: pts).
    rewrite Hm. split; [done|]. f_equal; [|by destruct rows]. rewrite <- app_assoc. by destruct pt.
Qed.

(** ** The statements *)

Definition source_entity (actor : uuid) entity db : option (TwinEntity uuid) :=
  head (filter (temporal_source actor entity db) (twin_entities (store db))).

(** Names are unique. *)
Definition unique_names db : Prop := NoDup (e_entity_id <$> twin_entities (store db)).

Lemma filter_single {A} (P : A -> Prop) `{!forall x, Decision (P x)} (key : A -> string) k (l : list A) :
  NoDup (key <$> l) -> (forall x, P x -> key x = k) ->
  filter P l = match head (filter P l) with Some x => [x] | None => [] end.
Proof.
  intros Hnd Hk. induction l as [|x l IH]; [done|]. rewrite fmap_cons in Hnd. apply list.NoDup_cons in Hnd as [Hn Hnd].
  rewrite filter_cons. destruct (decide (P x)) as [Hx|Hx]; [|by apply IH]. cbn [head]. f_equal.
  destruct (filter P l) as [|y l'] eqn:E; [done|]. exfalso. apply Hn. rewrite (Hk x Hx).
  assert (y ∈ filter P l) as Hy by (rewrite E; by left). apply list_elem_of_filter in Hy as [Py Hy].
  rewrite <- (Hk y Py). by apply list_elem_of_fmap_2.
Qed.

Lemma temporal_sources (actor : uuid) entity db : unique_names db ->
  filter (temporal_source actor entity db) (twin_entities (store db))
  = match source_entity actor entity db with Some src => [src] | None => [] end.
Proof. intros Hu. apply (filter_single _ e_entity_id (re_PublicURN entity)); [done|]. by intros e (_ & He & _). Qed.

(** Observations or buckets with the summary of their window. *)
Definition with_summary {Row} (rows : list Row) (s : TemporalWindowSummary) : list (option Row * TemporalWindowSummary) :=
  match rows with [] => [(None, s)] | _ => (fun row => (Some row, s)) <$> rows end.

Lemma scan_with_summary {Row Pt} (point : TemporalWindowSummary -> Row -> res herror (option Pt)) populate rows s pts s' :
  (let! out := scan_temporal point (with_summary rows s) [] None in finish_scan populate out) = Ok (pts, s') ->
  (TotalCount s = 0 -> rows = []) ->
  s' = s /\ exists os, map_res (point s) rows = Ok os /\ pts = omap id os.
Proof.
  intros H Hz. destruct rows as [|row rows].
  - cbn in H. rewrite andb_false_r in H. injection H as <- <-. split; [done|]. by exists [].
  - unfold with_summary in H. destruct (scan_temporal _ _ _ _) as [out|e] eqn:E; [|done].
    apply scan_temporal_rows in E as (os & Hm & ->). cbn in H. destruct (TotalCount s =? 0) eqn:Et.
    + apply Z.eqb_eq in Et. by apply Hz in Et.
    + injection H as <- <-. split; [done|]. by exists os.
Qed.

Lemma check_read_ok (actor : uuid) entity maxPoints w n u n' : check_read actor entity maxPoints w n = (Ok u, n') ->
  n' = S n /\ 0 < maxPoints.
Proof.
  unfold check_read. case_bool_decide; [done|]. intros H'. apply hbind_ok in H' as (v & k & Hv & H').
  unfold reader_ctx in Hv. apply hbind_ok in Hv as (c & k' & Hc & Hv). apply ctx_Err_ok in Hc as [-> _].
  destruct c; [done|]. injection Hv as <-. destruct (negb _); [done|]. destruct (Z.leb_spec maxPoints 0); [done|].
  injection H' as _ <-. done.
Qed.

(** The window of a source. *)
Definition window (src : TwinEntity uuid) (from to : Time) db : list (TemporalRow uuid) :=
  observations (e_id src) "sample_interval_us" (timestamptz from) (timestamptz to) db.

Definition point_of r : TemporalSamplePoint uuid :=
  mkTemporalPoint (time_of_tz (tv_observed_at r)) (value_type r) (tv_value_number r) (tv_value_text r)
    (tv_value_boolean r) (metadata_text r) (tv_message_id r).

Lemma map_res_points s rows os : map_res (temporal_point s) rows = Ok os -> omap id os = point_of <$> rows.
Proof.
  revert os. induction rows as [|r rows IH]; intros os H; cbn [map_res] in H; [by injection H as <-|].
  destruct (temporal_point s r) as [o|] eqn:E; [|done]. cbn [mbind res_bind] in H.
  destruct (map_res (temporal_point s) rows) as [os'|]; [|done]. injection H as <-.
  unfold temporal_point in E. destruct (negb _); [done|]. injection E as <-. cbn. f_equal. by apply IH.
Qed.

Lemma window_total (rows : list (TemporalRow uuid)) : TotalCount (window_summary rows) = 0 -> rows = [].
Proof. cbn. by destruct rows. Qed.

(** Both statements: the rows they list are a function of the window of the
    source, in the state of the tables they saw. *)
Lemma statement_ok {Row Pt} (point : TemporalWindowSummary -> Row -> res herror (option Pt)) populate
    (listing : list (TemporalRow uuid) -> list Row) query (actor : uuid) entity from to w n pts s n' :
  (forall k, unique_names (store_at w k)) -> listing [] = [] ->
  (forall db, query db = src ← filter (temporal_source actor entity db) (twin_entities (store db));
     with_summary (listing (window src from to db)) (window_summary (window src from to db))) ->
  (leth rows := query_row classifyReaderError (fun db => Ok (query db)) in
   leth out := temporal_rows point rows [] None in of_res (finish_scan populate out)) w n = (Ok (pts, s), n') ->
  (n < n')%nat /\ exists src os, source_entity actor entity (store_at w n) = Some src
    /\ let rows := window src from to (store_at w n) in
       s = window_summary rows /\ map_res (point s) (listing rows) = Ok os /\ pts = omap id os.
Proof.
  intros Hu Hl Hq H. apply hbind_ok in H as (rows & k1 & Hr & H).
  unfold query_row in Hr. apply hbind_ok in Hr as (r & k & Hr & Hr'). apply db_call_ok in Hr as [-> Hr].
  destruct (reply_at w n); subst r; [done|]. injection Hr' as <- <-.
  apply hbind_ok in H as (out & k2 & Ho & H). apply of_res_ok in H as [H ->].
  pose proof (ticks_le _ _ _ _ _ (snap_ticks _ _ (snapshot_temporal_rows point _ [] None)) Ho) as Hk2.
  apply (snap_sound _ _ (snapshot_temporal_rows point _ [] None)) in Ho as (_ & _ & Ho).
  split; [lia|]. rewrite Hq, temporal_sources in Ho by done.
  destruct (source_entity actor entity (store_at w n)) as [src|] eqn:Es.
  2:{ cbn in Ho. injection Ho as <-. done. }
  cbn [mbind list_bind] in Ho. rewrite app_nil_r in Ho. set (rows := window src _ _ _) in *.
  destruct (scan_with_summary point populate (listing rows) (window_summary rows) pts s) as (-> & os & Hm & ->).
  - rewrite Ho. exact H.
  - intros Ht. apply window_total in Ht. by rewrite Ht.
  - by exists src, os.
Qed.

Lemma read_data_ok (actor : uuid) entity from to maxPoints w n pts s n' : (forall k, unique_names (store_at w k)) ->
  readTemporalDataInternal actor entity "sample_interval_us" from to maxPoints w n = (Ok (pts, s), n') ->
  exists k src, (n <= k < n')%nat /\ source_entity actor entity (store_at w k) = Some src
    /\ let rows := window src (UTC from) (UTC to) (store_at w k) in
       s = window_summary rows
       /\ pts = point_of <$> take (Z.to_nat (int64_add maxPoints 1)) (merge_sort observation_le rows).
Proof.
  intros Hu H. apply hbind_ok in H as (u & k0 & Hc & H). apply check_read_ok in Hc as [-> _].
  eapply (statement_ok temporal_point populateSummaryFromPoints
    (fun rows => take (Z.to_nat (int64_add maxPoints 1)) (merge_sort observation_le rows)) _ actor entity (UTC from) (UTC to)) in H
    as (Hk & src & os & Hs & -> & Hm & ->); [|done|exact (take_nil _)|].
  - exists (S n), src. split; [lia|]. split; [done|]. split; [done|]. by eapply map_res_points.
  - intros db. apply list_bind_ext; [|done]. intros src. unfold with_summary, window. by destruct (take _ _).
Qed.

Lemma read_buckets_ok (actor : uuid) entity from to dur maxPoints w n pts s n' : (forall k, unique_names (store_at w k)) ->
  readTemporalBucketInternal actor entity "sample_interval_us" from to dur maxPoints w n = (Ok (pts, s), n') ->
  exists k src os, (n <= k < n')%nat /\ source_entity actor entity (store_at w k) = Some src
    /\ let rows := window src (UTC from) (UTC to) (store_at w k) in
       let width := Microseconds dur in
       s = window_summary rows /\ pts = omap id os
       /\ map_res (temporal_bucket_point s)
            (temporal_bucket width rows <$> take (Z.to_nat (int64_add maxPoints 1)) (temporal_starts width rows)) = Ok os.
Proof.
  intros Hu H. apply hbind_ok in H as (u & k0 & Hc & H). apply check_read_ok in Hc as [-> _].
  eapply (statement_ok temporal_bucket_point populateSummaryFromBuckets
    (fun rows => temporal_bucket (Microseconds dur) rows
       <$> take (Z.to_nat (int64_add maxPoints 1)) (temporal_starts (Microseconds dur) rows)) _ actor entity (UTC from) (UTC to)) in H
    as (Hk & src & os & Hs & -> & Hm & ->); [|done|exact (f_equal (fmap _) (take_nil _))|].
  - exists (S n), src, os. split; [lia|]. done.
  - intros db. unfold bucketTemporalHistoryQuery, with_summary, window. apply list_bind_ext; [|done]. intros src.
    destruct (take _ (temporal_starts _ _)) as [|x l]; [done|]. cbn. f_equal. by rewrite <- list_fmap_compose.
Qed.

(** ** What an answer contains *)

Definition bucket_of (width : Z) (rows : list (TemporalRow uuid)) (start : Z) : BucketSamplePoint :=
  let group := filter (fun r => time_bucket width (tv_observed_at r) = start) rows in
  let values := omap tv_value_number group in
  mkBucketPoint (time_of_tz start) (sql_avg values) (sql_min values) (sql_max values) (Z.of_nat (length group)).

Lemma elem_of_temporal_starts width (rows : list (TemporalRow uuid)) b :
  b ∈ temporal_starts width rows <-> exists r, r ∈ rows /\ b = time_bucket width (tv_observed_at r).
Proof.
  unfold temporal_starts. rewrite merge_sort_Permutation, elem_of_remove_dups, list_elem_of_fmap.
  split; [intros (x & -> & Hx)|intros (x & Hx & ->)]; by exists x.
Qed.

Lemma temporal_starts_NoDup width (rows : list (TemporalRow uuid)) : NoDup (temporal_starts width rows).
Proof. unfold temporal_starts. rewrite merge_sort_Permutation. apply NoDup_remove_dups. Qed.

(** The bucket of a number has an average. *)
Lemma temporal_bucket_numbers s width rows start : Forall interval_row rows -> start ∈ temporal_starts width rows ->
  temporal_bucket_point s (temporal_bucket width rows start) = Ok (Some (bucket_of width rows start)).
Proof.
  intros Hn (r & Hr & Hs)%elem_of_temporal_starts. unfold temporal_bucket_point, temporal_bucket, bucket_of.
  cbn [tb_avg tb_min tb_max tb_start tb_count].
  destruct (omap tv_value_number _) as [|v vs] eqn:E; [exfalso|done].
  rewrite list.Forall_forall in Hn. destruct (Hn r Hr) as (v & Hv & _).
  assert (v ∈ omap tv_value_number (filter (fun r => time_bucket width (tv_observed_at r) = start) rows)) as Hin.
  { apply list_elem_of_omap. exists r. by rewrite list_elem_of_filter. }
  rewrite E in Hin. by apply not_elem_of_nil in Hin.
Qed.

Lemma map_res_buckets s width rows starts os : Forall interval_row rows ->
  (forall b, b ∈ starts -> b ∈ temporal_starts width rows) ->
  map_res (temporal_bucket_point s) (temporal_bucket width rows <$> starts) = Ok os ->
  omap id os = bucket_of width rows <$> starts.
Proof.
  intros Hn. revert os. induction starts as [|b bs IH]; intros os Hin H; [by injection H as <-|].
  rewrite fmap_cons in H. cbn [map_res] in H. rewrite temporal_bucket_numbers in H by (first [done|apply Hin; by left]).
  cbn [mbind res_bind] in H. destruct (map_res _ _) as [os'|] in H, IH |- *; [|done]. injection H as <-. cbn. f_equal.
  apply IH; [|done]. intros b' Hb'. apply Hin. by right.
Qed.

(** The buckets of the observations account for all of them. *)
Lemma bucket_of_total width (rows : list (TemporalRow uuid)) :
  list_sum bp_Count (bucket_of width rows <$> temporal_starts width rows) = Z.of_nat (length rows).
Proof.
  rewrite <- (list_sum_groups (fun r => time_bucket width (tv_observed_at r)) (temporal_starts width rows) rows
    (temporal_starts_NoDup width rows)) by (intros r Hr; apply elem_of_temporal_starts; eauto).
  rewrite list_sum_fmap. by apply list_sum_ext.
Qed.

Lemma bucket_of_holds width (rows : list (TemporalRow uuid)) r : 0 < width -> r ∈ rows ->
  exists b, b ∈ bucket_of width rows <$> temporal_starts width rows /\ holds width (tv_observed_at r) b.
Proof.
  intros Hw Hr. exists (bucket_of width rows (time_bucket width (tv_observed_at r))). split.
  - apply list_elem_of_fmap. eexists. split; [done|]. apply elem_of_temporal_starts. eauto.
  - unfold holds. cbn. rewrite micros_of_tz. by apply time_bucket_holds.
Qed.

(** The answer [a] lists the observations [rows] in order, or their buckets,
    leaving none out. *)
Definition lists_all (rows : list (TemporalRow uuid)) (a : TwinHistoryResult uuid) : Prop :=
  (thr_Mode a = "raw" /\ thr_TemporalBuckets a = [] /\ thr_PointCount a = Z.of_nat (length rows)
   /\ exists sorted, sorted ≡ₚ rows /\ StronglySorted observation_le sorted /\ thr_TemporalPoints a = point_of <$> sorted)
  \/ (exists res dur, thr_Mode a = "bucket" /\ thr_TemporalPoints a = [] /\ thr_Resolution a = resolution_text res
      /\ ResolutionDuration res = Some dur /\ thr_PointCount a = Z.of_nat (length (thr_TemporalBuckets a))
      /\ list_sum bp_Count (thr_TemporalBuckets a) = Z.of_nat (length rows)
      /\ forall row, row ∈ rows -> exists b, b ∈ thr_TemporalBuckets a
           /\ holds (Microseconds dur) (tv_observed_at row) b).

Lemma take_whole {A} maxPoints (l : list A) : 0 < maxPoints <= 2000 ->
  Z.of_nat (length (take (Z.to_nat (int64_add maxPoints 1)) l)) <= maxPoints ->
  take (Z.to_nat (int64_add maxPoints 1)) l = l.
Proof.
  intros Hm H. assert (int64_add maxPoints 1 = maxPoints + 1) as E by (apply wrap64_id; unfold in_int64, min_int64, max_int64; lia).
  rewrite E in *. rewrite length_take in H. apply take_ge. lia.
Qed.

#[local] Instance message_le_total : Total (message_le (uuid := uuid)).
Proof. intros [u|] [v|]; cbn; [apply c_le_total|by auto..]. Qed.

#[local] Instance message_le_trans : Transitive (message_le (uuid := uuid)).
Proof. intros [u|] [v|] [x|]; cbn; try done. apply c_le_trans. Qed.

#[local] Instance observation_le_total : Total (observation_le (uuid := uuid)).
Proof.
  intros r1 r2. unfold observation_le.
  destruct (Z.lt_trichotomy (tv_observed_at r1) (tv_observed_at r2)) as [|[E|]]; [auto| |auto].
  rewrite E. destruct (message_le_total (tv_message_id r1) (tv_message_id r2)); auto.
Qed.

#[local] Instance observation_le_trans : Transitive (observation_le (uuid := uuid)).
Proof.
  intros r1 r2 r3 [H1|[E1 H1]] [H2|[E2 H2]]; unfold observation_le; [left; lia..|].
  right. split; [lia|]. by etransitivity.
Qed.

(** The window [q] asks for. *)
Definition asked (q : TwinHistoryQuery) (src : TwinEntity uuid) db : list (TemporalRow uuid) :=
  window src (rng_From (tq_Range q)) (rng_To (tq_Range q)) db.

(** A read of [entity] answered [a] from one state of the tables between steps
    [n] and [n']. *)
Definition answered (actor : uuid) entity (q : TwinHistoryQuery) w (n n' : nat) (a : TwinHistoryResult uuid) : Prop :=
  exists k src, (n <= k < n')%nat /\ source_entity actor entity (store_at w k) = Some src
    /\ let rows := asked q src (store_at w k) in
       lists_all rows a /\ thr_PointCount a <= tq_MaxPoints q
       /\ Forall interval_row rows /\ Forall (unit_is (thr_Unit a)) rows.

Lemma raw_answered (actor : uuid) entity q w n points summary c n' o :
  (forall k, unique_names (store_at w k)) -> 0 < tq_MaxPoints q <= 2000 ->
  raw_probe actor entity "sample_interval_us" q (UTC (rng_From (tq_Range q))) (UTC (rng_To (tq_Range q))) w n
    = (Ok (points, summary, c), n') -> raw_fits (tq_MaxPoints q) points summary = true ->
  raw_history entity "sample_interval_us" c (UTC (rng_From (tq_Range q))) (UTC (rng_To (tq_Range q))) points = Ok o ->
  exists a, o = Some a /\ answered actor entity q w n n' a.
Proof.
  intros Hu Hm H Hf Hh. unfold raw_probe in H. apply hbind_ok in H as (out & k1 & Ho & H).
  apply hbind_ok in H as (c' & k2 & Hc & H). injection H as -> -> <-. apply of_res_ok in Hc as [Hc ->].
  apply read_data_ok in Ho as (k & src & Hk & Hs & -> & ->); [|done]. cbn [snd] in Hc.
  change (window src _ _ _) with (asked q src (store_at w k)) in *. set (rows := asked q src (store_at w k)) in *.
  unfold raw_fits in Hf. apply negb_true_iff, orb_false_iff in Hf as [Hl Ht]. apply Z.ltb_ge in Hl, Ht.
  rewrite length_fmap in Hl. pose proof (take_whole _ _ Hm Hl) as E. rewrite E in *. clear E Hl.
  unfold raw_history in Hh. destruct (check_property _ _) in Hh; [done|]. injection Hh as <-. eexists. split; [done|].
  apply classify_sound in Hc as (Hv & Hun & _). exists k, src. split; [done|]. split; [done|]. cbv zeta. fold rows.
  cbn [thr_Unit thr_PointCount].
  assert (Z.of_nat (length (point_of <$> merge_sort observation_le rows)) = Z.of_nat (length rows)) as El
    by by rewrite length_fmap, (Permutation_length (merge_sort_Permutation observation_le rows)).
  rewrite El. split_and!; try done. left. cbn. split_and!; try done.
  exists (merge_sort observation_le rows). split_and!; [apply merge_sort_Permutation| |done].
  apply StronglySorted_merge_sort; apply _.
Qed.

Lemma buckets_answered (actor : uuid) entity q res dur err w n n' o :
  (forall k, unique_names (store_at w k)) -> 0 < tq_MaxPoints q <= 2000 -> ResolutionDuration res = Some dur ->
  bucket_history actor entity "sample_interval_us" q (UTC (rng_From (tq_Range q))) (UTC (rng_To (tq_Range q))) res dur err w n
    = (Ok o, n') -> exists a, o = Some a /\ answered actor entity q w n n' a.
Proof.
  intros Hu Hm Hd H. unfold bucket_history in H. apply hbind_ok in H as ([pts s] & k1 & Ho & H).
  apply hbind_ok in H as (c & k2 & Hc & H). apply of_res_ok in Hc as [Hc ->].
  apply read_buckets_ok in Ho as (k & src & os & Hk & Hs & -> & -> & Hos); [|done].
  change (window src _ _ _) with (asked q src (store_at w k)) in *. set (rows := asked q src (store_at w k)) in *.
  apply classify_sound in Hc as (Hv & Hun & _).
  destruct (_ && _) in H; [done|]. destruct (Z.ltb_spec (tq_MaxPoints q) (Z.of_nat (length (omap id os)))) as [|Hl] in H; [done|].
  injection H as <- <-. assert (0 < Microseconds dur) as Hw.
  { apply duration_bounds in Hd. unfold Microseconds. apply Z.quot_str_pos. lia. }
  apply map_res_buckets in Hos; [|done|].
  2:{ intros b (i & Hi & _)%elem_of_take. by eapply list_elem_of_lookup_2. }
  rewrite Hos in Hl |- *. rewrite length_fmap in Hl.
  pose proof (take_whole _ _ Hm Hl) as E. rewrite E in Hl |- *. clear E.
  eexists. split; [done|]. exists k, src. split; [done|]. split; [done|]. cbv zeta. fold rows.
  cbn [thr_Unit thr_PointCount]. rewrite length_fmap. split; [|by split_and!].
  right. exists res, dur. cbn. rewrite length_fmap. split_and!; try done; [apply bucket_of_total|].
  intros row Hr. by apply bucket_of_holds.
Qed.

Lemma auto_answered (actor : uuid) entity q w n n' o :
  (forall k, unique_names (store_at w k)) -> 0 < tq_MaxPoints q <= 2000 ->
  auto_history actor entity "sample_interval_us" q (UTC (rng_From (tq_Range q))) (UTC (rng_To (tq_Range q))) w n
    = (Ok o, n') -> exists a, o = Some a /\ answered actor entity q w n n' a.
Proof.
  intros Hu Hm H. unfold auto_history in H. destruct (SelectAutoBucketResolution _ _ _) as [res|]; [|done].
  destruct (ResolutionDuration res) as [dur|] eqn:Hd; [|done]. by eapply buckets_answered.
Qed.

Lemma answered_later (actor : uuid) entity q w n0 n n' n1 a : (n0 <= n)%nat -> (n' <= n1)%nat ->
  answered actor entity q w n n' a -> answered actor entity q w n0 n1 a.
Proof. intros ? ? (k & src & Hk & H). exists k, src. split; [lia|done]. Qed.

Lemma raw_probe_ticks (actor : uuid) entity q w n out n' : (forall k, unique_names (store_at w k)) ->
  raw_probe actor entity "sample_interval_us" q (UTC (rng_From (tq_Range q))) (UTC (rng_To (tq_Range q))) w n
    = (Ok out, n') -> (n <= n')%nat.
Proof.
  intros Hu H. unfold raw_probe in H. apply hbind_ok in H as ([pts s] & k1 & Ho & H).
  apply hbind_ok in H as (c & k2 & Hc & H). injection H as _ <-. apply of_res_ok in Hc as [_ ->].
  apply read_data_ok in Ho as (k & src & Hk & _); [lia|done].
Qed.

Lemma internal_answered (actor : uuid) entity q w n n' o :
  (forall k, unique_names (store_at w k)) -> tq_MaxPoints q <= 2000 ->
  readTemporalHistoryInternal actor entity "sample_interval_us" q w n = (Ok o, n') ->
  exists a, o = Some a /\ answered actor entity q w n n' a.
Proof.
  intros Hu Hm H. unfold readTemporalHistoryInternal in H. apply hbind_ok in H as (u & k0 & Hc & H).
  apply check_read_ok in Hc as [-> Hpos]. assert (0 < tq_MaxPoints q <= 2000) as Hm' by lia.
  destruct (negb _) in H; [done|]. destruct (negb _) in H; [done|].
  assert (forall res dur err, ResolutionDuration res = Some dur ->
    bucket_history actor entity "sample_interval_us" q (UTC (rng_From (tq_Range q))) (UTC (rng_To (tq_Range q))) res dur err
      w (S n) = (Ok o, n') -> exists a, o = Some a /\ answered actor entity q w n n' a) as Hb.
  { intros res dur err Hd H'. apply (buckets_answered actor entity q res dur err) in H' as (a & -> & Ha); [|done..].
    exists a. split; [done|]. apply (answered_later actor entity q w n (S n) n' n'); [lia..|done]. }
  destruct (tq_Resolution q) eqn:Er; cbv zeta in H; try done;
    try (cbn [ResolutionDuration] in H; destruct (IntersectingBucketCount _ _ _) in H; [|done];
         destruct (_ <? _) in H; [done|]; eapply Hb; [|exact H]; done).
  - destruct (_ <=? _) in H.
    + apply hbind_ok in H as ([[pts s] c] & k1 & Hp & H). pose proof (raw_probe_ticks _ _ _ _ _ _ _ Hu Hp) as Hk.
      destruct (raw_fits _ _ _) eqn:Hf in H.
      * apply of_res_ok in H as [H ->]. eapply raw_answered in Hp as (a & -> & Ha); [|done..].
        exists a. split; [done|]. by apply (answered_later actor entity q w n (S n) k1 k1); [lia..|].
      * destruct (negb _) in H; [done|]. apply auto_answered in H as (a & -> & Ha); [|done..].
        exists a. split; [done|]. by apply (answered_later actor entity q w n k1 n' n'); [lia..|].
    + apply auto_answered in H as (a & -> & Ha); [|done..].
      exists a. split; [done|]. by apply (answered_later actor entity q w n (S n) n' n'); [lia..|].
  - destruct (_ <? _) in H; [done|]. apply hbind_ok in H as ([[pts s] c] & k1 & Hp & H).
    destruct (raw_fits _ _ _) eqn:Hf in H; [|done]. cbn [negb] in H.
    apply of_res_ok in H as [H ->]. eapply raw_answered in Hp as (a & -> & Ha); [|done..].
    exists a. split; [done|]. by apply (answered_later actor entity q w n (S n) k1 k1); [lia..|].
Qed.

(** ** The composed service *)

Lemma source_member (actor : uuid) entity db src : source_entity actor entity db = Some src ->
  src ∈ twin_entities (store db) /\ e_id src = re_InternalID entity /\ e_entity_id src = re_PublicURN entity
  /\ member_of actor db src.
Proof. intros H. apply head_Some_elem_of, list_elem_of_filter in H as [H Hin]. unfold temporal_source in H. tauto. Qed.

Lemma resolve_urn (actor : uuid) p db entity : resolve_spec actor p db = Some entity -> re_PublicURN entity = pi_URN p.
Proof.
  unfold resolve_spec. destruct (head _) as [e|] eqn:He; [|done]. intros [= <-].
  apply head_Some_elem_of, list_elem_of_filter in He as [(Hu & _) _]. exact Hu.
Qed.

Lemma read_answered (actor : uuid) entity q w n a n' :
  (forall k, unique_names (store_at w k)) -> tq_Property q = SelectorSampleIntervalUS -> tq_MaxPoints q <= 2000 ->
  ReadTemporalHistory mkPostgresTwinReader actor entity q w n = (Ok (Some a), n') ->
  answered actor entity q w n n' a.
Proof.
  intros Hu Hp Hm H. cbn [ReadTemporalHistory PostgresTwinReader_TwinReader] in H.
  unfold PostgresTwinReader_ReadTemporalHistory in H. case_bool_decide; [done|].
  apply hbind_ok in H as (u & k & Hc & H).
  assert (n <= k)%nat as Hk.
  { unfold reader_ctx in Hc. apply hbind_ok in Hc as (c & k' & Hc & Hc'). apply ctx_Err_ok in Hc as [-> _].
    destruct c; [done|]. injection Hc' as _ <-. lia. }
  destruct (negb _) in H; [done|]. destruct (negb _) in H; [done|]. rewrite Hp in H.
  apply internal_answered in H as (a' & [= <-] & Ha); [|done..].
  by apply (answered_later actor entity q w n k n' n'); [lia..|].
Qed.

(** C23 A history of [sample_interval_us] answered in any world, over tables
    in which names are unique, describes one state of the tables in which the
    actor was a member of the named Sensor's Gateway, and is complete: it
    lists every observation of the range in order of time, or counts each in
    the bucket that holds its instant; it has at most the points asked for;
    every observation is one valid interval; and all carry the unit of the
    answer, or none a unit. *)
Theorem interval_history_complete twin hist s (actor : uuid) q w n a n' : composeTwinReads twin hist = Ok s ->
  (forall k, unique_names (store_at w k)) -> tq_Property q = SelectorSampleIntervalUS ->
  GetTwinHistory s actor q w n = (Ok a, n') ->
  alive w n' /\ exists k src, (n <= k < n')%nat /\ src ∈ twin_entities (store (store_at w k))
    /\ e_entity_id src = tq_EntityID q /\ member_of actor (store_at w k) src
    /\ let rows := asked q src (store_at w k) in
       lists_all rows a /\ thr_PointCount a <= tq_MaxPoints q
       /\ Forall interval_row rows /\ Forall (unit_is (thr_Unit a)) rows.
Proof.
  intros Hs Hu Hp H. apply composeTwinReads_ok in Hs as (_ & Hh & ->).
  unfold GetTwinHistory, with_reader, deployed_twins, PrepareHistory, prepared in H.
  cbn [preparation reader rp_resolver rp_cfg ToReadPreparationConfig rpc_HistoryMaxPoints rpc_HistoryMinPoints] in H.
  case_bool_decide as Ha; [done|]. destruct (ValidateTwinHistoryQuery q); [done|]. cbn [fmap option_fmap option_map] in H.
  destruct (ParseEntityURN (tq_EntityID q)) as [p|] eqn:Hn; [|done]. apply parse_urn_names in Hn.
  destruct (negb _) in H; [done|].
  destruct (_ || _) eqn:Hb in H; [done|]. apply orb_false_iff in Hb as [_ Hb]. apply Z.ltb_ge in Hb.
  destruct (ValidateHistoryTimeRange _ _ _ _ _); [done|].
  apply (with_entity_ok actor (tq_EntityID q) p) in H as (Hal & k1 & k2 & k3 & entity & Hk & <- & He & Hf); [|done..].
  split; [done|]. cbn [with_window tq_Property] in Hf. rewrite Hp in Hf.
  unfold non_nil in Hf. apply hbind_ok in Hf as (o & k4 & Ho & Hf). destruct o as [a'|]; [|done].
  injection Hf as -> ->. destruct Hh as [_ _ _ _ (_ & _ & _ & Hmax)].
  apply read_answered in Ho as (k & src & Hk' & Hsrc & Hrows); [|done|done|cbn; lia].
  apply source_member in Hsrc as (Hin & _ & Hurn & Hm). exists k, src. split; [lia|]. split; [done|].
  split; [|by split]. rewrite Hurn. rewrite (resolve_urn _ _ _ _ He). by destruct Hn.
Qed.

End run.
