(* ===== verification/WriteSpec.v ===== *)
(** * Runs of the server: provisioning, patches and ingestion

    Every state of the tables that the modelled writes can reach from an empty
    schema is consistent, so the assumptions of the read theorems hold in it,
    and the Sensors that provisioning reports can receive telemetry. *)

From S2P Require Import Prelude GoStrings GoSha256 GoTime GoFloat GoJson Uuid Identity Urn Telemetry Decode.
From S2P Require Import Validation Message Txn Store Persist PersistSpec HistoryQuery.
From S2P Require Import HistoryStore TwinModel TwinStore Registry Provision Patch RegistryInv ProvisionSpec.
From S2P Require Import ProvisionRun Users UserEffects TwinPages TemporalSpec.
#[local] Open Scope Z_scope.

Section run.
Context {uuid : Type} `{U : UuidLib uuid}.
Implicit Types (d : RegistryDB uuid) (w : WriteWorld uuid) (actor : uuid) (e p : TwinEntity uuid).

(** ** Each operation keeps the graph *)

Lemma parent_found_twin g parent d : parent_found g parent d ->
  g ∈ gateways (rg_store d) /\ exists p, p ∈ entities d /\ gateway_twin g p /\ e_id p = parent.
Proof.
  intros (name & desc & created & Hrow & Hq). unfold gateway_row in Hrow. case_bool_decide as Hg; [|done].
  split; [done|]. unfold parent_twin_query, gateway_graph_rows in Hq.
  apply first_row_elem, list_elem_of_fmap in Hq as (p & -> & Hp). apply list_elem_of_filter in Hp as [_ Hp].
  apply entities_named_elem in Hp as (Hp & Ht). by exists p.
Qed.

Lemma validated_gateway actor (input : ProvisionGatewayInput uuid) : ValidateProvisionGatewayInput actor input = None ->
  ValidateGatewayID (pg_GatewayID input) = None /\ ValidProvisioningName (pg_Name input) = true.
Proof.
  unfold ValidateProvisionGatewayInput. destruct (_ || _); [done|]. destruct (ValidateGatewayID _); [done|].
  destruct (ValidProvisioningName _); [done|]. done.
Qed.

Lemma validated_sensor actor (input : ProvisionSensorInput) : ValidateProvisionSensorInput actor input = None ->
  ValidateSensorID (ps_SensorID input) = None /\ ValidProvisioningName (ps_Name input) = true.
Proof.
  unfold ValidateProvisionSensorInput. destruct (bool_decide _); [done|]. destruct (ValidateGatewayID _); [done|].
  destruct (ValidateSensorID _); [done|]. destruct (ValidProvisioningName _); [done|]. done.
Qed.

Lemma gateway_done_ok w actor (input : ProvisionGatewayInput uuid) d r d' : ww_new_id w <> uuid_Nil ->
  ValidateProvisionGatewayInput actor input = None -> gateway_done w actor input d r d' -> registry_ok d -> registry_ok d'.
Proof.
  intros Hid Hv Hdone Hok. apply validated_gateway in Hv as [Hg Hn]. destruct Hdone; [|done].
  by apply gateway_added_ok.
Qed.

Lemma sensor_done_ok w actor (input : ProvisionSensorInput) d r d' : ww_new_id w <> uuid_Nil ->
  ValidateProvisionSensorInput actor input = None -> sensor_done w input d r d' -> registry_ok d -> registry_ok d'.
Proof.
  intros Hid Hv Hdone Hok. apply validated_sensor in Hv as [Hs Hn].
  destruct Hdone as [parent Hp Hnew Hfid Hfurn|]; [|done].
  destruct (parent_found_twin _ _ _ Hp) as (Hg & p & Hpe & Hpt & Hpid). by apply (sensor_added_ok _ _ _ _ _ p).
Qed.

Lemma gateway_patch_done_ok w actor g input d r d' : ValidatePatchGatewayInput input = None ->
  gateway_patch_done w actor g input d r d' -> registry_ok d -> registry_ok d'.
Proof.
  intros Hv Hdone Hok. destruct Hdone as [|name desc created e Ha Hrow He Ht Hname Hch name' desc']; [done|].
  unfold gateway_row in Hrow. case_bool_decide as Hg; [|done]. apply gateway_patched_ok; [done..|].
  unfold name', patched_name. destruct (pgi_Name input) as [n|] eqn:Hn; cbn.
  - unfold ValidatePatchGatewayInput in Hv. rewrite Hn in Hv. destruct (_ && _); [done|]. destruct (_ && _); [done|].
    by destruct (ValidProvisioningName n).
  - destruct (ro_gateways d Hok g Hg) as (_ & Hvn & _). unfold stored_gateway_name, gateway_name in Hvn.
    cbn in Hvn, Hrow. destruct (default ("", None) (gateway_columns (rg_columns d) !! g)). by injection Hrow as -> _ _.
Qed.

Lemma sensor_patch_done_ok w actor g s name d r d' : ValidProvisioningName name = true ->
  sensor_patch_done w actor g s name d r d' -> registry_ok d -> registry_ok d'.
Proof.
  intros Hv Hdone Hok. destruct Hdone as [|name0 unit created e Ha Hrow He Ht Hname Hne]; [done|].
  apply sensor_patched_ok; [done..| |done]. unfold sensor_row in Hrow.
  destruct (sensors (rg_store d) !! (g, s)); [done|done].
Qed.

Lemma effect_registry_ok d now m md resource db' : committed_effect now (rg_store d) m md resource db' ->
  registry_ok d -> registry_ok (set_store d db').
Proof.
  intros Heff Hok. destruct (eff_others _ _ _ _ _ _ Heff) as (Hg & Hs & He & Hr).
  destruct (eff_state _ _ _ _ _ _ Heff) as (cand & st & st' & _ & Hst & Hv & Ha & Hst').
  apply store_changed_ok; [done..| | |done]; rewrite Hst'.
  - intros id. destruct (decide (id = r_EntityID resource)) as [->|Hne].
    + rewrite lookup_insert_eq. unfold states. rewrite Hst. naive_solver.
    + by rewrite lookup_insert_ne.
  - intros id st1 H. apply lookup_insert_Some in H as [[_ <-]|[_ H]]; [|by apply (ro_versions d Hok id)].
    destruct (state_after_progress _ _ _ _ Ha) as [->|(-> & _)]; lia.
Qed.

(** ** Runs *)

(** The tables before the first write, with the users that exist. *)
Definition empty_registry (profiles admins : gset uuid) : RegistryDB uuid :=
  mkRegistry (mkDB ∅ ∅ ∅ [] 1 [] [] ∅ []) (mkTwinColumns ∅ ∅ ∅ ∅) ∅ profiles admins ∅ ∅.

(** One write of the server in its world, or a change of the users: the identity
    provider adds accounts, administrators change platform roles.  (Deleting an
    account would take its memberships with it; no code of the server does it.) *)
Inductive WriteCall :=
| CallGateway w actor (input : ProvisionGatewayInput uuid)
| CallSensor w actor (input : ProvisionSensorInput)
| CallOwnerSensor w actor (input : ProvisionSensorInput)
| CallAdminOrOwnerSensor w actor (input : ProvisionSensorInput)
| CallPatchGateway w actor (g : string) (input : PatchGatewayInput)
| CallPatchSensor w actor (g s : string) (input : PatchSensorInput)
| CallTelemetry (sky : Weather) (ctx : bool) (m : Message uuid)
| CallAssign (svc : UserService uuid) w actor (g : string) (target : uuid) (role : string)
| CallRemove (svc : UserService uuid) w actor (g : string) (target : uuid)
| CallTransfer (svc : UserService uuid) w actor (g : string) (target : uuid)
| CallUsers (profiles admins : gset uuid).

Definition perform (c : WriteCall) d : RegistryDB uuid :=
  match c with
  | CallGateway w actor input => (ProvisionGateway w actor input d).2
  | CallSensor w actor input => (ProvisionSensor w actor input d).2
  | CallOwnerSensor w actor input => (ProvisionSensorForOwner w actor input d).2
  | CallAdminOrOwnerSensor w actor input => (ProvisionSensorForAdminOrOwner w actor input d).2
  | CallPatchGateway w actor g input => (PatchGatewayMetadata w actor g input d).2
  | CallPatchSensor w actor g s input => (PatchSensorMetadata w actor g s input d).2
  | CallTelemetry sky ctx m => set_store d (Persist sky ctx (Some m) (rg_store d)).2
  | CallAssign svc w actor g target role => (service_AssignGatewayUser svc w actor g target role d).2
  | CallRemove svc w actor g target => (service_RemoveGatewayUser svc w actor g target d).2
  | CallTransfer svc w actor g target => (service_TransferGatewayOwner svc w actor g target d).2
  | CallUsers profiles admins =>
      mkRegistry (rg_store d) (rg_columns d) (rg_roles d) (rg_profiles d ∪ profiles) admins (rg_gateway_created d)
        (rg_sensor_created d)
  end.

(** What holds of the calls the server makes: new identifiers are not nil, stored
    messages are validated ones, and the user service has the PostgreSQL repository. *)
Definition call_fits (c : WriteCall) : Prop :=
  match c with
  | CallGateway w _ _ | CallSensor w _ _ | CallOwnerSensor w _ _ | CallAdminOrOwnerSensor w _ _ => ww_new_id w <> uuid_Nil
  | CallTelemetry _ _ m => message_ok m
  | CallAssign svc _ _ _ _ _ | CallRemove svc _ _ _ _ | CallTransfer svc _ _ _ _ => sv_repo svc = PostgresUserRepository
  | _ => True
  end.

Definition server_step d d' : Prop := exists c, call_fits c /\ d' = perform c d.

Lemma server_call c d : call_fits c -> server_step d (perform c d).
Proof. intros H. by exists c. Qed.

(** Everything the reads and the ingestion assume of the tables. *)
Record server_ok d : Prop := {
  so_registry : registry_ok d;
  so_telemetry : telemetry_inv (rg_store d);
  so_intervals : intervals_stored (rg_store d);
  so_roles : roles_named d;
}.

Lemma empty_registry_ok profiles admins : server_ok (empty_registry profiles admins).
Proof.
  split.
  - split; cbn; unfold entities, relationships, states; cbn.
    + apply NoDup_nil_2.
    + apply NoDup_nil_2.
    + by intros e ?%elem_of_nil.
    + by intros e ?%elem_of_nil.
    + intros id st H. by rewrite lookup_empty in H.
    + intros id [st H]. by rewrite lookup_empty in H.
    + by intros r ?%elem_of_nil.
    + by intros e ?%elem_of_nil.
    + by intros g ?%elem_of_empty.
    + intros g s [x H]. by rewrite lookup_empty in H.
    + intros u g r H. by rewrite lookup_empty in H.
    + by intros g ?%elem_of_empty.
  - split.
    + intros k1 k2 r1 r2 _ H. cbn in H. by rewrite lookup_empty in H.
    + intros k. cbn. by rewrite lookup_empty.
  - intros r Hr. by apply elem_of_nil in Hr.
  - apply map_Forall_empty.
Qed.

(** The telemetry tables that the registry writes do not touch. *)
Lemma same_telemetry d d' : processed_messages (rg_store d') = processed_messages (rg_store d) ->
  telemetry (rg_store d') = telemetry (rg_store d) ->
  twin_temporal_values (rg_store d') = twin_temporal_values (rg_store d) ->
  registry_ok d' -> roles_named d' -> server_ok d -> server_ok d'.
Proof.
  intros Hp Ht Hv Hok Hro [_ [Hr Hs] Hi _]. split; [done| | |done].
  - split.
    + unfold ranges_disjoint. rewrite Hp. exact Hr.
    + unfold samples_in_step, rows_of. rewrite Hp, Ht. exact Hs.
  - unfold intervals_stored. rewrite Hv. exact Hi.
Qed.

Lemma gateway_done_server w actor (input : ProvisionGatewayInput uuid) d r d' : ww_new_id w <> uuid_Nil ->
  ValidateProvisionGatewayInput actor input = None -> gateway_done w actor input d r d' -> server_ok d -> server_ok d'.
Proof.
  intros Hid Hv Hdone Hd. pose proof (gateway_done_ok _ _ _ _ _ _ Hid Hv Hdone (so_registry d Hd)) as Hok.
  pose proof (gateway_done_named _ _ _ _ _ _ Hdone (so_roles d Hd)). destruct Hdone; [|done]. by apply (same_telemetry d).
Qed.

Lemma sensor_done_server w actor (input : ProvisionSensorInput) d r d' : ww_new_id w <> uuid_Nil ->
  ValidateProvisionSensorInput actor input = None -> sensor_done w input d r d' -> server_ok d -> server_ok d'.
Proof.
  intros Hid Hv Hdone Hd. pose proof (sensor_done_ok _ _ _ _ _ _ Hid Hv Hdone (so_registry d Hd)) as Hok.
  destruct Hdone; [|done]. by apply (same_telemetry d); [..|apply (so_roles d)|].
Qed.

(** What a call does to the tables, when it does anything. *)
Definition sensor_call (c : WriteCall) : option (WriteWorld uuid * uuid * ProvisionSensorInput) :=
  match c with
  | CallSensor w actor input | CallOwnerSensor w actor input | CallAdminOrOwnerSensor w actor input => Some (w, actor, input)
  | _ => None
  end.

Inductive effect_of : WriteCall -> RegistryDB uuid -> RegistryDB uuid -> Prop :=
| no_effect c d : effect_of c d d
| gateway_effect w actor input d r d' : ValidateProvisionGatewayInput actor input = None ->
    gateway_done w actor input d r d' -> effect_of (CallGateway w actor input) d d'
| sensor_effect c w actor input d r d' : sensor_call c = Some (w, actor, input) ->
    ValidateProvisionSensorInput actor input = None -> sensor_done w input d r d' -> effect_of c d d'
| gateway_patch_effect w actor g input d r d' : ValidatePatchGatewayInput input = None ->
    gateway_patch_done w actor g input d r d' -> effect_of (CallPatchGateway w actor g input) d d'
| sensor_patch_effect w actor g s input name d r d' : ValidProvisioningName name = true ->
    sensor_patch_done w actor g s name d r d' -> effect_of (CallPatchSensor w actor g s input) d d'
| telemetry_effect sky ctx m d md resource db' : message_ok m -> entry_of m md ->
    committed_effect (w_now sky) (rg_store d) m md resource db' -> effect_of (CallTelemetry sky ctx m) d (set_store d db')
| assign_effect svc w actor g target role d d' : role ∈ ["operator"; "viewer"] ->
    assign_done actor g target role d d' -> effect_of (CallAssign svc w actor g target role) d d'
| remove_effect svc w actor g target d d' : remove_done actor g target d d' -> effect_of (CallRemove svc w actor g target) d d'
| transfer_effect svc w actor g target d d' : transfer_done actor g target d d' ->
    effect_of (CallTransfer svc w actor g target) d d'
| users_effect profiles admins d : effect_of (CallUsers profiles admins) d (perform (CallUsers profiles admins) d).

Lemma sensor_call_effect c begin_err commit_err (body : RTx uuid ProvisionSensorResult) (auth : Prop) w actor
    (input : ProvisionSensorInput) d : sensor_call c = Some (w, actor, input) ->
  (forall a d1 rs, body d (ww_calls w) = Ok (a, d1, rs) -> auth /\ sensor_done w input d a d1) ->
  effect_of c d (match ValidateProvisionSensorInput actor input with
                 | Some err => (Err err, d)
                 | None => with_tx begin_err commit_err w body d
                 end).2.
Proof.
  intros Hc Hb. destruct (ValidateProvisionSensorInput actor input) eqn:Hv; [apply no_effect|].
  destruct (with_tx _ _ _ _ _) as [r d'] eqn:E. eapply sensor_tx_outcome in E; [|exact Hb]. cbn.
  destruct r as [a|e].
  - destruct E as [_ E]. by eapply sensor_effect.
  - destruct E as [->|(_ & _ & a & E)]; [apply no_effect|by eapply sensor_effect].
Qed.

Lemma perform_effect c d : call_fits c -> effect_of c d (perform c d).
Proof.
  intros Hfit.
  destruct c as [w actor input|w actor input|w actor input|w actor input|w actor g input|w actor g s input|sky ctx m
    |svc w actor g target role|svc w actor g target|svc w actor g target|profiles admins]; cbn [perform call_fits] in *.
  - destruct (ProvisionGateway w actor input d) as [r d'] eqn:E. apply ProvisionGateway_outcome in E. cbn.
    assert (d' = d \/ ValidateProvisionGatewayInput actor input = None /\ exists a, gateway_done w actor input d a d')
      as [->|(Hv & a & Hp)] by (destruct r; naive_solver); [apply no_effect|by eapply gateway_effect].
  - eapply sensor_call_effect; [done|]. intros a d1 rs H. by eapply provision_sensor_ok.
  - eapply sensor_call_effect; [done|]. intros a d1 rs H. by eapply provision_owner_ok.
  - eapply sensor_call_effect; [done|]. intros a d1 rs H. by eapply provision_admin_or_owner_ok.
  - destruct (PatchGatewayMetadata w actor g input d) as [r d'] eqn:E. apply PatchGatewayMetadata_outcome in E. cbn.
    assert (d' = d \/ ValidatePatchGatewayInput input = None /\ exists a, gateway_patch_done w actor g input d a d')
      as [->|(Hv & a & Hp)] by (destruct r; naive_solver); [apply no_effect|by eapply gateway_patch_effect].
  - destruct (PatchSensorMetadata w actor g s input d) as [r d'] eqn:E. apply PatchSensorMetadata_outcome in E. cbn.
    assert (d' = d \/ exists a name, ValidProvisioningName name = true /\ sensor_patch_done w actor g s name d a d')
      as [->|(a & name & Hv & Hp)] by (destruct r; naive_solver); [apply no_effect|by eapply sensor_patch_effect].
  - destruct (Persist sky ctx (Some m) (rg_store d)) as [r db'] eqn:E. cbn.
    destruct (ledgerMetadata_valid m Hfit) as (md & Hmd & Hent).
    destruct (persist_cases _ _ _ _ _ _ _ Hmd E) as [->|[resource Heff]]; [|by eapply telemetry_effect].
    replace (set_store d (rg_store d)) with d by by destruct d. apply no_effect.
  - destruct (service_AssignGatewayUser _ _ _ _ _ _ _) as [r d'] eqn:E. cbn.
    destruct (service_assign_effect _ _ _ _ _ _ _ _ _ Hfit E) as [->|[Hrole Hdone]]; [apply no_effect|by apply assign_effect].
  - destruct (service_RemoveGatewayUser _ _ _ _ _ _) as [r d'] eqn:E. cbn.
    destruct (service_remove_effect _ _ _ _ _ _ _ _ Hfit E) as [->|Hdone]; [apply no_effect|by apply remove_effect].
  - destruct (service_TransferGatewayOwner _ _ _ _ _ _) as [r d'] eqn:E. cbn.
    destruct (service_transfer_effect _ _ _ _ _ _ _ _ Hfit E) as [->|Hdone]; [apply no_effect|by apply transfer_effect].
  - apply users_effect.
Qed.

Lemma effect_server c d d' : call_fits c -> effect_of c d d' -> server_ok d -> server_ok d'.
Proof.
  intros Hfit Heff Hd. pose proof (so_registry d Hd) as Hok. pose proof (so_roles d Hd) as Hro.
  destruct Heff as [|w actor input d r d' Hv Hp|c w actor input d r d' Hc Hv Hp|w actor g input d r d' Hv Hp
    |w actor g s input name d r d' Hv Hp|sky ctx m d md resource db' Hm Hent Heff
    |svc w actor g target role d d' Hrole Hp|svc w actor g target d d' Hp|svc w actor g target d d' Hp|profiles admins d].
  - done.
  - by eapply gateway_done_server.
  - eapply sensor_done_server; [|done..]. destruct c; try done; injection Hc as <- <- <-; exact Hfit.
  - pose proof (gateway_patch_done_ok _ _ _ _ _ _ _ Hv Hp Hok). destruct Hp; [done|by apply (same_telemetry d)].
  - pose proof (sensor_patch_done_ok _ _ _ _ _ _ _ _ Hv Hp Hok). destruct Hp; [done|by apply (same_telemetry d)].
  - destruct Hd as [_ [Hr Hs] Hi _]. split; [| | |done].
    + by eapply effect_registry_ok.
    + split; [by eapply effect_ranges_disjoint|by eapply effect_samples_in_step].
    + by eapply effect_intervals.
  - pose proof (assign_done_ok _ _ _ _ _ _ Hrole Hp Hok). pose proof (assign_done_named _ _ _ _ _ _ Hrole Hp Hro).
    destruct Hp. by apply (same_telemetry d).
  - pose proof (remove_done_ok _ _ _ _ _ Hp Hok). pose proof (remove_done_named _ _ _ _ _ Hp Hro).
    destruct Hp. by apply (same_telemetry d).
  - pose proof (transfer_done_ok _ _ _ _ _ Hp Hok). pose proof (transfer_done_named _ _ _ _ _ Hp Hro).
    destruct Hp; [done|by apply (same_telemetry d)].
  - apply (same_telemetry d); [done..| |done|done]. by destruct Hok.
Qed.

Lemma server_step_ok d d' : server_step d d' -> server_ok d -> server_ok d'.
Proof. intros (c & Hfit & ->). by eapply effect_server, perform_effect. Qed.

Lemma server_run_ok profiles admins d : rtc server_step (empty_registry profiles admins) d -> server_ok d.
Proof.
  intros H. assert (forall d0, rtc server_step d0 d -> server_ok d0 -> server_ok d) as Hrun.
  { clear H. induction 1 as [|d0 d1 d2 Hs _ IH]; [done|]. intros H0. by eapply IH, server_step_ok. }
  apply (Hrun _ H), empty_registry_ok.
Qed.

(** ** What the reads assume *)

Lemma registry_unique_names d : registry_ok d -> unique_names (view d).
Proof. intros Hok. apply (ro_urns d Hok). Qed.

Lemma registry_canonical d : registry_ok d -> canonical_entities (view d).
Proof.
  intros Hok. split; [|apply (ro_urns d Hok)]. intros e g He Hg _.
  destruct (ro_entities d Hok e He) as [(g' & Hg' & (Hu & Ht & Hgid) & _)|(g' & s' & Hs' & (Hu & Ht & Hgid) & _)];
    rewrite Hgid in Hg; injection Hg as <-.
  - exists (Urn.mkIdentity EntityTypeGateway g' "" (GatewayEntityID g')). rewrite Hu, Ht.
    split; [|done]. constructor. by apply (ro_gateways d Hok).
  - destruct (ro_sensors d Hok _ _ Hs') as (Hg' & Hv & _).
    exists (Urn.mkIdentity EntityTypeSensor g' s' (SensorEntityID g' s')). rewrite Hu, Ht.
    split; [|done]. constructor; [|done]. by apply (ro_gateways d Hok).
Qed.

(** C3 Whatever writes run (provisioning, patches, telemetry batches, memberships
    and transfers of ownership, however the database answers them, and changes of
    the users), the tables stay consistent: the twin graph is well formed, ledger
    ranges are disjoint and have their samples, intervals can be read back, names
    and URNs satisfy what the reads assume, and every Gateway has exactly one
    owner. *)
Theorem server_run_consistent profiles admins d : rtc server_step (empty_registry profiles admins) d ->
  registry_ok d /\ telemetry_inv (rg_store d) /\ intervals_stored (rg_store d)
  /\ canonical_entities (view d) /\ unique_names (view d)
  /\ forall g, g ∈ gateways (rg_store d) -> exists u, owners_of g d = [u].
Proof.
  intros H. apply server_run_ok in H as [Hok Ht Hi _].
  split_and!; [done..|by apply registry_canonical|by apply registry_unique_names|].
  intros g Hg. destruct (ro_owner d Hok g Hg) as (u & Hu & Hall). exists u. by apply one_owner.
Qed.

(** ** Telemetry of the Sensors that exist *)

(** The graph that ingestion looks for is the one provisioning made. *)
Lemma registry_provisioned d (m : Message uuid) : registry_ok d ->
  is_Some (sensors (rg_store d) !! (t_GatewayID (topic m), t_SensorID (topic m))) ->
  exists r st, provisioned (rg_store d) m r /\ twin_states (rg_store d) !! r_EntityID r = Some st.
Proof.
  intros Hok Hs. set (g := t_GatewayID (topic m)) in *. set (s := t_SensorID (topic m)) in *.
  destruct (ro_sensors d Hok g s Hs) as (Hg & _ & _ & p & e & Hp & He & Hpt & Het & Hrel). destruct Hs as [unit Hu].
  destruct (ro_states d Hok e He) as [st Hst].
  exists (mkResource g s (e_id e) unit), st. split; [|done]. unfold provisioned. fold g s. cbn.
  split_and!; [done..|]. exists (e_id p), []. split_and!; [|by apply (ro_not_nil d)..].
  unfold twin_graph_rows. fold (entities d).
  pose proof (named_gateway d g p Hok Hp Hpt) as Hgw. pose proof (named_sensor d g s e Hok He Het) as Hsn.
  unfold entities_named in Hgw, Hsn. fold (entities d) in Hgw, Hsn. rewrite Hgw. cbn [mbind list_bind].
  rewrite Hsn. cbn [mbind list_bind].
  rewrite bool_decide_true by by apply (ro_states d). cbn [andb].
  match goal with |- context [existsb ?f ?l] => assert (existsb f l = true) as -> end.
  { apply existsb_exists. exists (hasSensor_rel (e_id p) (e_id e)). split; [by apply list_elem_of_In|].
    cbn. by rewrite !bool_decide_true. }
  rewrite bool_decide_true by by apply (ro_states d). done.
Qed.

(** The batch of [m] overlaps no recorded range of its Sensor and boot. *)
Definition free_range (db : DB uuid) (m : Message uuid) : Prop :=
  forall k row first last, processed_messages db !! k = Some row -> k.1 = GatewayID (batch m) ->
    l_sensor_id row = Some (SensorID (batch m)) -> l_boot_id row = Some (BootID (batch m)) ->
    l_first_sequence row = Some first -> l_last_sequence row = Some last ->
    last < FirstSequence (batch m) \/ FirstSequence (batch m) + SampleCount (batch m) - 1 < first.

(** C24 Provisioning and ingestion agree: in every state the server can reach, a
    valid new batch of any Sensor row, whose range overlaps no recorded one, is
    stored with all its samples by a database that answers, and the result is
    again a reachable state. *)
Theorem provisioned_sensor_ingests profiles admins d (m : Message uuid) sky :
  rtc server_step (empty_registry profiles admins) d ->
  is_Some (sensors (rg_store d) !! (t_GatewayID (topic m), t_SensorID (topic m))) -> message_ok m -> clear_sky sky ->
  processed_messages (rg_store d) !! (GatewayID (batch m), MessageID (batch m)) = None -> free_range (rg_store d) m ->
  (forall id st, twin_states (rg_store d) !! id = Some st -> st_reported_version st < max_int64) ->
  exists result db', Persist sky true (Some m) (rg_store d) = (Ok result, db')
    /\ Outcome result = CommitOutcomeCommitted /\ SamplesSaved result = SampleCount (batch m)
    /\ rtc server_step (empty_registry profiles admins) (set_store d db').
Proof.
  intros Hrun Hs Hm Hsky Hnew Hfree Hver. destruct (server_run_ok _ _ _ Hrun) as [Hok [_ Hstep] _ _].
  destruct (registry_provisioned d m Hok Hs) as (r & st & Hp & Hst).
  destruct (Persist_stores sky m (rg_store d) r st) as (result & db' & E & Ho & Hc); [done..| |].
  { split; [by apply (ro_versions d Hok (r_EntityID r))|by eapply Hver]. }
  exists result, db'. split_and!; [done..|]. eapply rtc_r; [exact Hrun|].
  pose proof (server_call (CallTelemetry sky true m) d Hm) as Ht. cbn [perform] in Ht. by rewrite E in Ht.
Qed.

End run.

(** * The writes of the registry: what any of them can do, and retries

    However the database answers, a write completes for an authorised actor with
    exactly its effect, or fails and leaves the tables alone, unless its commit
    was unconfirmed; a client that was not told can then repeat the request. *)

Section writes.
Context {uuid : Type} `{U : UuidLib uuid}.
Implicit Types (d : RegistryDB uuid) (w : WriteWorld uuid) (actor : uuid).

(** ** Outcomes *)

(** The outcome of a write that does [done] when it completes. *)
Definition settled {A} w (commit_err : herror -> herror) (done : A -> RegistryDB uuid -> Prop) d
    (outcome : res herror A * RegistryDB uuid) : Prop :=
  match outcome with
  | (Ok a, d') => done a d'
  | (Err e, d') => d' = d \/ unconfirmed w e commit_err /\ exists a, done a d'
  end.

(** The Sensor graph for an actor whom [auth] lets through. *)
Definition authorised_sensor (auth : uuid -> string -> RegistryDB uuid -> Prop) w actor (input : ProvisionSensorInput) d
    (r : ProvisionSensorResult) d' : Prop :=
  ValidateProvisionSensorInput actor input = None /\ auth actor (ps_GatewayID input) d /\ sensor_done w input d r d'.

(** What [Commit] failing means to each write. *)
Definition gateway_commit_error (err : herror) : herror :=
  HText "commit Gateway provisioning" (classifyGatewayProvisioningError err).
Definition owner_commit_error (err : herror) : herror :=
  HText "commit owner Sensor provisioning" (classifyOwnerProvisioningError err).
Definition admin_or_owner_commit_error (err : herror) : herror :=
  HText "commit admin or owner Sensor provisioning" (classifyAdminOrOwnerProvisioningError err).

Lemma sensor_call_settled begin_err commit_err (body : RTx uuid ProvisionSensorResult)
    (auth : uuid -> string -> RegistryDB uuid -> Prop) w actor (input : ProvisionSensorInput) d :
  (forall a d1 rs, body d (ww_calls w) = Ok (a, d1, rs) -> auth actor (ps_GatewayID input) d /\ sensor_done w input d a d1) ->
  settled w commit_err (authorised_sensor auth w actor input d) d
    match ValidateProvisionSensorInput actor input with
    | Some err => (Err err, d)
    | None => with_tx begin_err commit_err w body d
    end.
Proof.
  intros Hb. destruct (ValidateProvisionSensorInput actor input) eqn:Hv; [by left|].
  destruct (with_tx _ _ _ _ _) as [r d'] eqn:E. eapply sensor_tx_outcome in E; [|exact Hb].
  unfold settled, authorised_sensor. destruct r as [a|e]; [done|].
  destruct E as [->|(Hu & Ha & a & Hd)]; [by left|right]. split; [done|by exists a].
Qed.

(** C6 Every write of the registry, whatever the database answers: it completes
    only for an actor with the authority the operation asks for, with a result and
    new tables that are exactly its effect (a new graph, an exact replay, a renamed
    row with its twin, or nothing to change); and when it returns an error the
    tables are as they were, unless the commit itself was not confirmed. *)
Theorem writes_settled w actor (gateway : ProvisionGatewayInput uuid) (sensor : ProvisionSensorInput) g s patch rename d :
  settled w gateway_commit_error (gateway_done w actor gateway d) d (ProvisionGateway w actor gateway d)
  /\ settled w (HText "commit Sensor provisioning") (authorised_sensor is_platform_admin w actor sensor d) d
       (ProvisionSensor w actor sensor d)
  /\ settled w owner_commit_error (authorised_sensor is_owner w actor sensor d) d
       (ProvisionSensorForOwner w actor sensor d)
  /\ settled w admin_or_owner_commit_error (authorised_sensor is_admin_or_owner w actor sensor d) d
       (ProvisionSensorForAdminOrOwner w actor sensor d)
  /\ settled w classifyCommitError (gateway_patch_done w actor g patch d) d (PatchGatewayMetadata w actor g patch d)
  /\ settled w classifyCommitError
       (fun r d' => exists name, psi_Name rename = Some name /\ ValidProvisioningName name = true
          /\ sensor_patch_done w actor g s name d r d') d (PatchSensorMetadata w actor g s rename d).
Proof.
  split_and!.
  - destruct (ProvisionGateway _ _ _ _) as [r d'] eqn:E. apply ProvisionGateway_outcome in E.
    destruct r as [a|e]; [by destruct E|]. destruct E as [E|(_ & E & a & Hd)]; [by left|right]. split; [done|by exists a].
  - apply sensor_call_settled. intros a d1 rs H. by eapply provision_sensor_ok.
  - apply sensor_call_settled. intros a d1 rs H. by eapply provision_owner_ok.
  - apply sensor_call_settled. intros a d1 rs H. by eapply provision_admin_or_owner_ok.
  - destruct (PatchGatewayMetadata _ _ _ _ _) as [r d'] eqn:E. apply PatchGatewayMetadata_outcome in E.
    destruct r as [a|e]; [by destruct E|]. destruct E as [E|(_ & E & a & Hd)]; [by left|right]. split; [done|by exists a].
  - destruct (PatchSensorMetadata _ _ _ _ _ _) as [r d'] eqn:E. apply PatchSensorMetadata_outcome in E.
    destruct r as [a|e]; [done|]. destruct E as [E|(E & a & name & Hd)]; [by left|right]. split; [done|]. by exists a, name.
Qed.

(** On consistent tables and a database that answers, the three ways to add a
    Sensor (administrator, owner, administrator or owner) decide by the tables
    alone: who the actor is, whether the Gateway exists, and whether the Sensor is
    new, just the same, or different; only a new Sensor changes the tables. *)
Theorem sensor_provisioning_decided w actor (input : ProvisionSensorInput) d : registry_ok d -> answering w ->
  ww_new_id w ∉ e_id <$> entities d -> ValidateProvisionSensorInput actor input = None ->
  ProvisionSensor w actor input d = sensor_decision true false w actor input d
  /\ ProvisionSensorForOwner w actor input d = sensor_decision false true w actor input d
  /\ ProvisionSensorForAdminOrOwner w actor input d = sensor_decision true true w actor input d.
Proof.
  intros Hok Hw Hid Hv. split_and!;
    [by apply ProvisionSensor_run|by apply ProvisionSensorForOwner_run|by apply ProvisionSensorForAdminOrOwner_run].
Qed.

(** ** Retries *)

Lemma gateway_replay w actor (input : ProvisionGatewayInput uuid) d0 r0 d w' : registry_ok d0 ->
  ww_new_id w <> uuid_Nil ->
  ValidateProvisionGatewayInput actor input = None -> gateway_done w actor input d0 r0 d ->
  gateway_decision w' actor input d = (Ok (gateway_result false input (gr_CreatedAt r0)), d).
Proof.
  intros Hok Hnil Hv Hdone. assert (Hok' : registry_ok d) by by eapply gateway_done_ok.
  assert (actor ∈ rg_admins d /\ pg_OwnerUserID input ∈ rg_profiles d
    /\ gateway_row (pg_GatewayID input) d = Some (pg_Name input, pg_Description input, gr_CreatedAt r0)
    /\ rg_roles d !! (pg_OwnerUserID input, pg_GatewayID input) = Some "owner") as (Ha & Ho & Hrow & Hr).
  { destruct Hdone as [Ha Ho Hg Hid Hu|created Ha Ho Hrow Hq Hgr].
    - split_and!; [done..| |apply lookup_insert_eq]. unfold gateway_row, gateway_added. cbn.
      rewrite bool_decide_true by set_solver. by rewrite !lookup_insert_eq.
    - split_and!; [done..|]. rewrite owners_query_run in Hq by by eauto using gateway_row_in.
      by destruct (decide _). }
  unfold gateway_decision. rewrite !bool_decide_true by done. cbn [negb]. rewrite Hrow. by rewrite decide_True.
Qed.

Lemma sensor_replay w (input : ProvisionSensorInput) d0 r0 d w' : sensor_done w input d0 r0 d ->
  graph_decision w' input d = (Ok (sensor_result false input (sr_CreatedAt r0)), d).
Proof.
  intros Hdone.
  assert (sensor_row (ps_GatewayID input) (ps_SensorID input) d = Some (ps_Name input, ps_Unit input, sr_CreatedAt r0)) as Hrow.
  { destruct Hdone as [parent Hp Hs Hid Hu|parent created Hp Hrow Hg]; [|done].
    unfold sensor_row, sensor_added. cbn. by rewrite !lookup_insert_eq. }
  unfold graph_decision. rewrite Hrow. by rewrite decide_True.
Qed.

Lemma settled_done {A} w commit_err (done : A -> RegistryDB uuid -> Prop) d r d' :
  settled w commit_err done d (r, d') -> is_ok r = true \/ d' <> d ->
  exists a, done a d' /\ (forall a0, r = Ok a0 -> a0 = a).
Proof.
  unfold settled. destruct r as [a|e]; cbn.
  - intros H _. exists a. split; [done|]. by intros a0 [= ->].
  - intros [->|(_ & a & Ha)] [|Hne]; try done. by exists a.
Qed.

(** The actor and the Gateway of an added Sensor are as they were. *)
Lemma sensor_done_same w (input : ProvisionSensorInput) d0 r0 d : sensor_done w input d0 r0 d ->
  ps_GatewayID input ∈ gateways (rg_store d) /\ rg_roles d = rg_roles d0 /\ rg_admins d = rg_admins d0.
Proof. intros Hdone. by destruct Hdone as [parent [? _]%parent_found_twin|parent created [? _]%parent_found_twin]. Qed.

Lemma sensor_decision_replay w actor (input : ProvisionSensorInput) d0 r0 d w' :
  is_admin_or_owner actor (ps_GatewayID input) d0 -> sensor_done w input d0 r0 d ->
  sensor_decision true true w' actor input d = (Ok (sensor_result false input (sr_CreatedAt r0)), d).
Proof.
  intros Ha Hdone. pose proof (sensor_replay _ _ _ _ _ w' Hdone) as Hg.
  apply sensor_done_same in Hdone as (Hin & Hr & Had). unfold sensor_decision, owner_decision. cbn [negb andb].
  rewrite (bool_decide_true (_ ∈ gateways _)) by done. cbn [negb]. rewrite Had, Hr.
  case_bool_decide as Hadm; [done|]. destruct Ha as [Ha|Ha]; [done|]. unfold is_owner in Ha. rewrite Ha. by rewrite decide_True.
Qed.

(** The replayed answer to [input]: not created now, with the time the first
    answer had, if there was one. *)
Definition replayed_gateway (input : ProvisionGatewayInput uuid) d (first : res herror (ProvisionGatewayResult uuid))
    (again : res herror (ProvisionGatewayResult uuid) * RegistryDB uuid) : Prop :=
  exists created_at, again = (Ok (gateway_result false input created_at), d)
    /\ forall a, first = Ok a -> gr_CreatedAt a = created_at.

Definition replayed_sensor (input : ProvisionSensorInput) d (first : res herror ProvisionSensorResult)
    (again : res herror ProvisionSensorResult * RegistryDB uuid) : Prop :=
  exists created_at, again = (Ok (sensor_result false input created_at), d)
    /\ forall a, first = Ok a -> sr_CreatedAt a = created_at.

(** C25 Provisioning can be retried: when a first call succeeded, or changed the
    tables although its commit was not confirmed, the same call on a database that
    answers succeeds without a change, reports that nothing was created, and gives
    the creation time of the first. *)
Theorem provisioning_retry w w' actor (gateway : ProvisionGatewayInput uuid) (sensor : ProvisionSensorInput) d :
  registry_ok d -> ww_new_id w <> uuid_Nil -> answering w' ->
  (forall r d', ProvisionGateway w actor gateway d = (r, d') -> is_ok r = true \/ d' <> d ->
     ww_new_id w' ∉ e_id <$> entities d' ->
     replayed_gateway gateway d' r (ProvisionGateway w' actor gateway d'))
  /\ (forall r d', ProvisionSensorForAdminOrOwner w actor sensor d = (r, d') -> is_ok r = true \/ d' <> d ->
     ww_new_id w' ∉ e_id <$> entities d' ->
     replayed_sensor sensor d' r (ProvisionSensorForAdminOrOwner w' actor sensor d')).
Proof.
  intros Hok Hnil Hw'. split.
  - intros g1 d1 Hg Hg1 Hid1. apply ProvisionGateway_outcome in Hg.
    assert (exists a, ValidateProvisionGatewayInput actor gateway = None /\ gateway_done w actor gateway d a d1
      /\ forall a0, g1 = Ok a0 -> a0 = a) as (a & Hv & Hdone & Hsame).
    { destruct g1 as [a|e]; [exists a; naive_solver|]. destruct Hg1 as [|Hne]; [done|].
      destruct Hg as [|(Hv & _ & a & Hdone)]; [done|]. by exists a. }
    exists (gr_CreatedAt a). split; [|by intros a0 ->%Hsame].
    rewrite ProvisionGateway_run; [|by eapply gateway_done_ok|done..]. by eapply gateway_replay.
  - intros s2 d2 Hs Hs2 Hid2. pose proof (sensor_call_settled (fun err => HText "begin admin or owner Sensor provisioning" (classifyAdminOrOwnerProvisioningError err))
      admin_or_owner_commit_error (provision_sensor_for_admin_or_owner_body w actor sensor) is_admin_or_owner w actor sensor d) as Hset.
    unfold ProvisionSensorForAdminOrOwner in Hs. unfold admin_or_owner_commit_error in Hset. rewrite Hs in Hset.
    apply settled_done in Hset as (a & (Hv & Ha & Hdone) & Hsame); [|by intros; eapply provision_admin_or_owner_ok|done].
    exists (sr_CreatedAt a). split; [|by intros a0 ->%Hsame].
    rewrite ProvisionSensorForAdminOrOwner_run; [|by eapply sensor_done_ok|done..]. by eapply sensor_decision_replay.
Qed.

End writes.
