(* ===== verification/UserSpec.v ===== *)
(** * What the administrators' operations guarantee

    Their answers and the tables; what a removal, a transfer of ownership and a
    change of roles mean for the requests that follow; the listing of users. *)

From stdpp Require Import sorting.
From S2P Require Import Prelude GoStrings GoTime GoFloat GoJson Uuid Identity Urn Telemetry Txn Store Persist PersistSpec.
From S2P Require Import HistoryQuery HistoryStore History HistoryRepo HistoryServiceSpec TwinModel Cursor TwinStore.
From S2P Require Import Registry Provision Patch Mutation Users UserHandlers RegistryInv ProvisionSpec ProvisionRun.
From S2P Require Import UserEffects TwinReader TwinService TwinTemporal TwinServiceSpec WriteSpec.
#[local] Open Scope Z_scope.

(** ** Identifiers are not blank *)

Lemma id_char_no_space c : id_char c = true -> ascii_space c = false /\ byte_of c < 128.
Proof.
  intros Hc%id_char_ranges. split; [|lia]. unfold ascii_space. cbn zeta.
  apply orb_false_iff. rewrite andb_false_iff, !Z.eqb_neq, !Z.leb_gt. lia.
Qed.

Lemma trim_left_id c l : id_char c = true -> trim_left (c :: l) = c :: l.
Proof.
  intros [Hs Hb]%id_char_no_space. destruct l as [|a [|b l]]; cbn [trim_left]; rewrite Hs; [done| |].
  - unfold space2. by replace (byte_of c =? 194) with false by lia.
  - unfold space2, space3. cbn zeta. replace (byte_of c =? 194) with false by lia.
    replace (byte_of c =? 225) with false by lia. replace (byte_of c =? 226) with false by lia.
    by replace (byte_of c =? 227) with false by lia.
Qed.

Lemma trim_right_id c l : id_char c = true -> trim_right (c :: l) <> [].
Proof.
  intros [Hs Hb]%id_char_no_space. destruct l as [|a [|b l]]; cbn [trim_right]; rewrite Hs; [done| |].
  - unfold space2. replace (byte_of c =? 133) with false by lia. replace (byte_of c =? 160) with false by lia.
    cbn [orb]. by rewrite andb_false_r.
  - assert (space2 a c = false) as ->.
    { unfold space2. replace (byte_of c =? 133) with false by lia. replace (byte_of c =? 160) with false by lia.
      cbn [orb]. by rewrite andb_false_r. }
    assert (space3 b a c = false) as ->; [|done].
    unfold space3. cbn zeta. apply not_true_is_false. intros H. gobool. destruct_or?; destruct_and?; lia.
Qed.

Lemma pattern_not_blank id : gatewayIDPattern id = true -> TrimSpace id <> "".
Proof.
  intros Hid. pose proof (pattern_chars id Hid) as Hall. destruct id as [|c id]; [done|].
  unfold TrimSpace. cbn [String.list_ascii_of_string]. pose proof Hall as Hc. cbn [str_forallb] in Hc.
  apply andb_true_iff in Hc as [Hc _]. rewrite trim_left_id by done.
  set (l := c :: String.list_ascii_of_string id).
  assert (exists c' l', rev l = c' :: l' /\ id_char c' = true) as (c' & l' & E & Hc').
  { assert (Forall (fun a => id_char a = true) l) as Hl.
    { unfold l. clear -Hall. change (c :: String.list_ascii_of_string id) with (String.list_ascii_of_string (String c id)).
      induction (String c id) as [|a s IH]; [done|]. cbn in Hall |- *. apply andb_true_iff in Hall as [Ha Hs].
      constructor; [done|by apply IH]. }
    destruct (rev l) as [|c' l'] eqn:E.
    - apply (f_equal length) in E. rewrite length_rev in E. done.
    - exists c', l'. split; [done|]. rewrite list.Forall_forall in Hl. apply Hl. apply list_elem_of_In, in_rev. rewrite E. by left. }
  rewrite E. pose proof (trim_right_id c' l' Hc') as Hne. intros H.
  apply (f_equal String.list_ascii_of_string) in H. rewrite String.list_ascii_of_string_of_list_ascii in H.
  apply (f_equal (@rev ascii)) in H. rewrite rev_involutive in H. done.
Qed.

Section user_spec.
Context {uuid : Type} `{U : UuidLib uuid}.
Implicit Types (d : RegistryDB uuid) (b : UserDB uuid) (w : WriteWorld uuid) (actor target : uuid) (g : string).

(** ** Answers *)

(** What the tables decide before the membership itself is looked at. *)
Definition membership_gate (profile : bool) actor g target d (k : UserResponse uuid * RegistryDB uuid)
    : UserResponse uuid * RegistryDB uuid :=
  if negb (bool_decide (actor ∈ rg_admins d)) then (access_denied, d)
  else if negb (bool_decide (g ∈ gateways (rg_store d))) || (profile && negb (bool_decide (target ∈ rg_profiles d)))
  then (user_not_found, d)
  else k.

Definition assign_answer actor g target (role : string) d : UserResponse uuid * RegistryDB uuid :=
  membership_gate true actor g target d
    (if bool_decide (rg_roles d !! (target, g) = Some "owner") then (owner_transfer_required, d)
     else (mkUserResponse 200 None (BodyMembership g target role), set_roles d (<[(target, g) := role]> (rg_roles d)))).

Definition remove_answer actor g target d : UserResponse uuid * RegistryDB uuid :=
  membership_gate false actor g target d
    (if bool_decide (rg_roles d !! (target, g) = Some "owner") then (owner_transfer_required, d)
     else (mkUserResponse 204 None BodyEmpty, set_roles d (delete (target, g) (rg_roles d)))).

(** The roles after a transfer: the owner so far is a viewer. *)
Definition transferred g target d : gmap (uuid * string) string :=
  match owners_of g d with
  | [old] => if bool_decide (old = target) then rg_roles d
             else <[(target, g) := "owner"]> (<[(old, g) := "viewer"]> (rg_roles d))
  | _ => rg_roles d
  end.

Definition transfer_answer actor g target d : UserResponse uuid * RegistryDB uuid :=
  membership_gate true actor g target d
    (mkUserResponse 200 None (BodyOwner g target), set_roles d (transferred g target d)).

(** The statements on a database that answers. *)
Lemma recheck_run {DB} (admins : DB -> gset uuid) wrap actor (x : DB) :
  recheck_actor admins wrap actor x []
  = if bool_decide (actor ∈ admins x) then Ok (tt, x, []) else Err (HUser ErrActorNotAdmin).
Proof. unfold recheck_actor, tx_bind, read_row, call_checked. cbn. by case_bool_decide. Qed.

Lemma lock_gateway_run text g d :
  lock_gateway text g d [] = if bool_decide (g ∈ gateways (rg_store d)) then Ok (tt, d, []) else Err (HUser ErrUserGatewayNotFound).
Proof.
  unfold lock_gateway, tx_bind. rewrite read_row_run. unfold gateway_query. destruct (decide (g ∈ gateways (rg_store d))) as [Hg|Hg].
  - rewrite bool_decide_true by done. destruct (gateway_row g d) eqn:E; [done|]. by apply gateway_row_none in E.
  - rewrite bool_decide_false by done. apply gateway_row_none in Hg. by rewrite Hg.
Qed.

Lemma require_profile_run target d :
  require_profile target d [] = if bool_decide (target ∈ rg_profiles d) then Ok (tt, d, []) else Err (HUser ErrUserNotFound).
Proof. unfold require_profile, tx_bind. rewrite read_row_run. by case_bool_decide. Qed.

Lemma lock_membership_run text target g d : lock_membership text target g d [] = Ok (rg_roles d !! (target, g), d, []).
Proof. unfold lock_membership, tx_bind. rewrite attempt_run. unfold role_query. by destruct (rg_roles d !! (target, g)). Qed.

Lemma update_member_run wrap target g role d : is_Some (rg_roles d !! (target, g)) -> role ∈ ["owner"; "operator"; "viewer"] ->
  call_checked wrap (update_member target g role) d [] = Ok (1, set_roles d (<[(target, g) := role]> (rg_roles d)), []).
Proof. intros [r Hr] Hrole. rewrite call_checked_run. unfold update_member. by rewrite Hr, bool_decide_true. Qed.

Lemma insert_member_run wrap target g role d : rg_roles d !! (target, g) = None -> role ∈ ["owner"; "operator"; "viewer"] ->
  target ∈ rg_profiles d -> g ∈ gateways (rg_store d) ->
  call_checked wrap (insert_member target g role) d [] = Ok (1, set_roles d (<[(target, g) := role]> (rg_roles d)), []).
Proof.
  intros Hr Hrole Ht Hg. rewrite call_checked_run. unfold insert_member.
  rewrite (bool_decide_true (role ∈ _)), (bool_decide_true (target ∈ _)), (bool_decide_true (g ∈ _)) by done.
  by rewrite bool_decide_false by (rewrite Hr; by intros []).
Qed.

(** The three transactions. *)
Lemma assign_body_run actor g target role d : role ∈ ["operator"; "viewer"] ->
  assign_body actor g target role d [] =
    if negb (bool_decide (actor ∈ rg_admins d)) then Err (HUser ErrActorNotAdmin)
    else if negb (bool_decide (g ∈ gateways (rg_store d))) then Err (HUser ErrUserGatewayNotFound)
    else if negb (bool_decide (target ∈ rg_profiles d)) then Err (HUser ErrUserNotFound)
    else if bool_decide (rg_roles d !! (target, g) = Some "owner") then Err (HUser ErrOwnerTransferRequired)
    else Ok (tt, set_roles d (<[(target, g) := role]> (rg_roles d)), []).
Proof.
  intros Hrole. unfold assign_body, tx_bind. rewrite recheck_run. case_bool_decide as Ha; [|done]. cbn [negb].
  rewrite lock_gateway_run. case_bool_decide as Hg; [|done]. cbn [negb].
  rewrite require_profile_run. case_bool_decide as Ht; [|done]. cbn [negb]. rewrite lock_membership_run.
  destruct (rg_roles d !! (target, g)) as [current|] eqn:Hc.
  - destruct (decide (current = "owner")) as [->|Ho]; [by rewrite !bool_decide_true|].
    rewrite !(bool_decide_false (_ = _)) by congruence. destruct (decide (current = role)) as [->|Hne].
    + rewrite bool_decide_true, bool_decide_false by congruence. by rewrite (insert_id _ _ _ Hc), set_roles_same.
    + rewrite (bool_decide_false (current = role)), (bool_decide_false (Some current = _)) by congruence.
      rewrite update_member_run; [done|by eexists|set_solver].
  - rewrite insert_member_run; [done..|set_solver|done|done].
Qed.

Lemma remove_body_run actor g target d : roles_named d ->
  remove_body actor g target d [] =
    if negb (bool_decide (actor ∈ rg_admins d)) then Err (HUser ErrActorNotAdmin)
    else if negb (bool_decide (g ∈ gateways (rg_store d))) then Err (HUser ErrUserGatewayNotFound)
    else if bool_decide (rg_roles d !! (target, g) = Some "owner") then Err (HUser ErrOwnerTransferRequired)
    else Ok (tt, set_roles d (delete (target, g) (rg_roles d)), []).
Proof.
  intros Hn. unfold remove_body, tx_bind. rewrite recheck_run. case_bool_decide as Ha; [|done]. cbn [negb].
  rewrite lock_gateway_run. case_bool_decide as Hg; [|done]. cbn [negb]. rewrite lock_membership_run.
  destruct (rg_roles d !! (target, g)) as [current|] eqn:Hc.
  - destruct (decide (current = "owner")) as [->|Ho]; [by rewrite !bool_decide_true|].
    rewrite (bool_decide_false (current = _)), (bool_decide_false (Some current = _)) by congruence.
    pose proof (Hn _ _ Hc) as Hin. cbn in Hin. assert (current ∈ ["operator"; "viewer"]) as Hin' by set_solver.
    assert (bool_decide (current = "operator") || bool_decide (current = "viewer") = true) as ->.
    { rewrite orb_true_iff, !bool_decide_eq_true. set_solver. }
    unfold call, delete_member. rewrite Hc, bool_decide_true by done. done.
  - rewrite bool_decide_false by done. unfold tx_ret. rewrite delete_id by done. by rewrite set_roles_same.
Qed.

Lemma transfer_body_run actor g target d : registry_ok d ->
  transfer_body actor g target d [] =
    if negb (bool_decide (actor ∈ rg_admins d)) then Err (HUser ErrActorNotAdmin)
    else if negb (bool_decide (g ∈ gateways (rg_store d))) then Err (HUser ErrUserGatewayNotFound)
    else if negb (bool_decide (target ∈ rg_profiles d)) then Err (HUser ErrUserNotFound)
    else Ok (tt, set_roles d (transferred g target d), []).
Proof.
  intros Hok. unfold transfer_body, tx_bind. rewrite recheck_run. case_bool_decide as Ha; [|done]. cbn [negb].
  rewrite lock_gateway_run. destruct (decide (g ∈ gateways (rg_store d))) as [Hg|Hg];
    [rewrite !bool_decide_true by done|by rewrite !bool_decide_false by done]. cbn [negb].
  rewrite require_profile_run. case_bool_decide as Ht; [|done]. cbn [negb]. rewrite read_row_run.
  destruct (ro_owner d Hok g Hg) as (old & Hold & Hall).
  assert (owners_of g d = [old]) as E by by apply one_owner. unfold transferred. rewrite E.
  destruct (decide (old = target)) as [->|Hne];
    [rewrite bool_decide_true by done; unfold tx_ret; by rewrite set_roles_same|rewrite bool_decide_false by done].
  rewrite update_member_run by (set_solver || (eexists; by apply one_owner in E as [? _])). cbn zeta. rewrite lock_membership_run.
  set (dw := set_roles d (<[(old, g) := "viewer"]> (rg_roles d))).
  set (d' := set_roles d (<[(target, g) := "owner"]> (<[(old, g) := "viewer"]> (rg_roles d)))).
  assert (match rg_roles dw !! (target, g) with
          | Some _ => call_checked (HText "update target membership to owner") (update_member target g "owner")
          | None => call_checked (HText "insert target membership as owner") (insert_member target g "owner")
          end dw [] = Ok (1, d', [])) as ->.
  { destruct (rg_roles dw !! (target, g)) eqn:Hr;
      [apply update_member_run; [by eexists|set_solver]|apply insert_member_run; [done|set_solver|done..]]. }
  rewrite read_row_run. assert (owners_of g d' = [target]) as ->; [|done].
  apply (transfer_done_owner actor g target d). by apply new_owner.
Qed.

Lemma authenticated_real (principal : option uuid) actor : authenticated principal = Some actor -> actor <> uuid_Nil.
Proof. unfold authenticated. destruct principal; [|done]. case_bool_decide; [done|]. by intros [= <-]. Qed.

Lemma parse_user_real (text : string) target : parse_user text = Some target -> target <> uuid_Nil.
Proof. unfold parse_user. destruct (uuid_Parse text); cbn; [|done]. case_bool_decide; [done|]. by intros [= <-]. Qed.

Lemma gateway_accepted g : gateway_refused g = false -> ValidateGatewayID g = None /\ g <> "backend_service".
Proof.
  unfold gateway_refused. intros [Hv Hb]%orb_false_iff. apply bool_decide_eq_false in Hv, Hb. split; [|done].
  by apply eq_None_not_Some.
Qed.

Lemma check_ids_ok actor g target : actor <> uuid_Nil -> target <> uuid_Nil -> gateway_refused g = false ->
  check_ids actor g target = None.
Proof.
  intros Ha Ht [Hv _]%gateway_accepted. unfold check_ids.
  rewrite !bool_decide_false; [done| |done..]. by apply pattern_not_blank, valid_gateway_pattern.
Qed.

(** A request of [actor] about [target] and [g], on a service and a database that answer. *)
Record answerable (svc : UserService uuid) (principal : option uuid) actor g target w d : Prop := {
  an_repo : sv_repo svc = PostgresUserRepository;
  an_actor : authenticated principal = Some actor;
  an_target : target <> uuid_Nil;
  an_gateway : gateway_refused g = false;
  an_database : answering w;
  an_ctx : ww_op_ctx w = None;
  an_tables : registry_ok d;
  an_roles : roles_named d;
}.

(** C12 The administrators' answers: on a database that answers, in consistent
    tables, a well-formed request to assign, to remove or to transfer is answered
    as the tables decide, in this order (403 for anyone but an administrator, 404
    for an unknown Gateway or user, 409 where the target is the owner and the owner
    would change), and otherwise succeeds with exactly its change of the roles. *)
Theorem membership_answered svc limit (principal : option uuid) actor g target role (user_id : string) request w d :
  answerable svc principal actor g target w d ->
  (parse_user user_id = Some target -> parseAssignGatewayUserRequest request limit = Ok role -> ValidateGatewayRole role = None ->
     assignGatewayUserHandler (Some svc) limit principal g user_id request w d = assign_answer actor g target role d)
  /\ (parse_user user_id = Some target -> nothing_sent request = true ->
     removeGatewayUserHandler (Some svc) principal g user_id request w d = remove_answer actor g target d)
  /\ (parseTransferGatewayOwnerRequest request limit = Ok target ->
     transferGatewayOwnerHandler (Some svc) limit principal g request w d = transfer_answer actor g target d).
Proof.
  intros [Hs Ha Ht Hg Hw Hc Hok Hn]. pose proof (check_ids_ok _ _ _ (authenticated_real _ _ Ha) Ht Hg) as Hids. split_and!.
  - intros Hu Hp Hv. unfold assignGatewayUserHandler, admin_call. rewrite Ha, Hg, Hu, Hp, Hv.
    unfold service_AssignGatewayUser, unless_ended. rewrite Hv, Hids, Hc, Hs. cbn [ur_AssignGatewayUser PostgresUserRepository].
    unfold AssignGatewayUser. rewrite with_tx_answering, assign_body_run by (done || by apply assigned_role).
    unfold assign_answer, membership_gate. by repeat case_bool_decide.
  - intros Hu Hp. unfold removeGatewayUserHandler, admin_call. rewrite Ha, Hu, Hg, Hp. cbn [negb orb].
    pose proof (gateway_accepted g Hg) as [Hv Hb]. unfold service_RemoveGatewayUser, unless_ended.
    rewrite Hv, !bool_decide_false, Hc, Hs by (done || (by intros []) || by eapply authenticated_real).
    cbn [orb ur_RemoveGatewayUser PostgresUserRepository]. unfold RemoveGatewayUser.
    rewrite with_tx_answering, remove_body_run by done. unfold remove_answer, membership_gate. by repeat case_bool_decide.
  - intros Hp. unfold transferGatewayOwnerHandler, admin_call. rewrite Ha, Hg, Hp.
    unfold service_TransferGatewayOwner, unless_ended. rewrite Hids, Hc, Hs. cbn [ur_TransferGatewayOwner PostgresUserRepository].
    unfold TransferGatewayOwner. rewrite with_tx_answering, transfer_body_run by done.
    unfold transfer_answer, membership_gate. by repeat case_bool_decide.
Qed.

(** Whatever the database answers, the class of the status is the truth. *)
Definition truthful (done_ : RegistryDB uuid -> Prop) d (answer : UserResponse uuid * RegistryDB uuid) : Prop :=
  let '(r, d') := answer in
  ua_status r / 100 = 2 /\ done_ d' \/ ua_status r / 100 = 4 /\ d' = d \/ ua_status r / 100 = 5 /\ (d' = d \/ done_ d').

(** The driver does not produce the errors of this package. *)
Definition foreign_commit w : Prop :=
  forall err durable e, ww_commit w = CommitError err durable -> is_user e err = false.

Lemma truthful_same done_ d (r : UserResponse uuid) : ua_status r / 100 = 4 \/ ua_status r / 100 = 5 -> truthful done_ d (r, d).
Proof. intros [H|H]; [by right; left|by right; right; auto]. Qed.

Lemma status_cases (b : bool) (x y : UserResponse uuid) (P : Z -> Prop) :
  P (ua_status x) -> P (ua_status y) -> P (ua_status (if b then x else y)).
Proof. by destruct b. Qed.

Definition refusal_status (n : Z) : Prop := n / 100 = 4 \/ n / 100 = 5.

Ltac refusals := repeat (apply (status_cases _ _ _ refusal_status)); (left; reflexivity) || (right; reflexivity).

Lemma assign_error_refuses err : refusal_status (ua_status (assign_error err : UserResponse uuid)).
Proof. unfold assign_error. refusals. Qed.
Lemma remove_error_refuses err : refusal_status (ua_status (remove_error err : UserResponse uuid)).
Proof. unfold remove_error. refusals. Qed.
Lemma transfer_error_refuses err : refusal_status (ua_status (transfer_error err : UserResponse uuid)).
Proof. unfold transfer_error. refusals. Qed.
Lemma body_refused_refuses status : status ∈ [400; 413; 415] -> refusal_status (ua_status (body_refused status : UserResponse uuid)).
Proof. intros H. apply list_elem_of_In in H. cbn in H. unfold body_refused. destruct_or? H; subst; cbn; (left; reflexivity) || done. Qed.

(** The statuses of the body parsers. *)
Definition body_checked {A} (r : res Z A) : Prop := forall status, r = Err status -> status ∈ [400; 413; 415].

Lemma checked_bind {A B} (m : res Z A) (k : A -> res Z B) : body_checked m -> (forall a, body_checked (k a)) ->
  body_checked (m ≫= k).
Proof. intros Hm Hk status. destruct m as [a|s]; cbn; [apply Hk|]. intros [= ->]. by apply Hm. Qed.

Lemma checked_object r limit : body_checked (readStrictJSONObject r limit).
Proof.
  intros status. unfold readStrictJSONObject, read_object, or_err.
  repeat case_match; intros [= <-] || done; set_solver.
Qed.

Lemma checked_400 {A} (r : res Z A) : (forall s, r = Err s -> s = 400) -> body_checked r.
Proof. intros H s ->%H. set_solver. Qed.

Lemma checked_text entries name : body_checked (required_text entries name).
Proof. apply checked_400. unfold required_text. intros s. by repeat case_match; intros [= <-] || done. Qed.
Lemma checked_bad refused : body_checked (bad refused).
Proof. apply checked_400. unfold bad. by destruct refused; intros s [= <-]. Qed.

Lemma checked_assign r limit : body_checked (parseAssignGatewayUserRequest r limit).
Proof.
  apply checked_bind; [apply checked_object|intros entries]. apply checked_bind; [apply checked_bad|intros _]. apply checked_text.
Qed.

Lemma checked_transfer r limit : body_checked (parseTransferGatewayOwnerRequest (uuid := uuid) r limit).
Proof.
  apply checked_bind; [apply checked_object|intros entries]. apply checked_bind; [apply checked_bad|intros _].
  apply checked_bind; [apply checked_text|intros raw]. apply checked_400. intros s. unfold or_err. by case_match; intros [= <-].
Qed.

(** An error of the driver alone is answered with 5xx. *)
Lemma foreign_status err text : (forall e, is_user e err = false) ->
  ua_status (assign_error (HText text err) : UserResponse uuid) / 100 = 5
  /\ ua_status (remove_error (classifyRemoval (HText text err)) : UserResponse uuid) / 100 = 5
  /\ ua_status (transfer_error (HText text err) : UserResponse uuid) / 100 = 5.
Proof.
  intros H. unfold assign_error, remove_error, transfer_error, classifyRemoval. cbn zeta.
  split_and!; [cbn [is_user]; rewrite !H; cbn [orb]; by case_match| |cbn [is_user]; rewrite !H; cbn [orb]; by case_match].
  set (unreachable := _ || _ || _ || _). destruct unreachable.
  - cbn [is_user]. by rewrite bool_decide_true, orb_true_r by done.
  - cbn [is_user]. rewrite !H. cbn [orb]. by case_match.
Qed.

(** A call that settled, answered by [refuse] when it failed. *)
Lemma truthful_call (done_ : RegistryDB uuid -> Prop) (refuse : herror -> UserResponse uuid) (ok : UserResponse uuid) d
    (r : res herror ()) d' :
  ua_status ok / 100 = 2 -> (forall err, refusal_status (ua_status (refuse err))) ->
  match r with Ok _ => done_ d' | Err e => d' = d \/ ua_status (refuse e) / 100 = 5 /\ done_ d' end ->
  truthful done_ d (match (r, d') with (Err err, d') => (refuse err, d') | (Ok _, d') => (ok, d') end).
Proof.
  intros Hok Href H. destruct r as [[]|e]; [by left|]. destruct H as [->|[H5 Hd]]; [|by right; right; auto].
  apply truthful_same, Href.
Qed.

(** C11 What the administrator is told, whatever the database answers: after a 2xx
    the change that was asked for is in the tables, made for an administrator;
    after a 4xx the tables are as they were; after a 5xx they are as they were or
    the change was made in full. *)
Theorem membership_truthful svc limit (principal : option uuid) g (user_id : string) request w d :
  sv_repo svc = PostgresUserRepository -> honest w -> foreign_commit w ->
  truthful (fun d' => exists actor target role, authenticated principal = Some actor /\ parse_user user_id = Some target
      /\ parseAssignGatewayUserRequest request limit = Ok role /\ role ∈ ["operator"; "viewer"]
      /\ assign_done actor g target role d d') d
    (assignGatewayUserHandler (Some svc) limit principal g user_id request w d)
  /\ truthful (fun d' => exists actor target, authenticated principal = Some actor /\ parse_user user_id = Some target
      /\ remove_done actor g target d d') d
    (removeGatewayUserHandler (Some svc) principal g user_id request w d)
  /\ truthful (fun d' => exists actor target, authenticated principal = Some actor
      /\ parseTransferGatewayOwnerRequest request limit = Ok target /\ transfer_done actor g target d d') d
    (transferGatewayOwnerHandler (Some svc) limit principal g request w d).
Proof.
  intros Hs Hh Hf.
  unfold assignGatewayUserHandler, removeGatewayUserHandler, transferGatewayOwnerHandler, admin_call.
  destruct (authenticated principal) as [actor|]; [|split_and!; apply truthful_same; by left].
  split_and!.
  - destruct (gateway_refused g); [apply truthful_same; by left|].
    destruct (parse_user user_id) as [target|]; [|apply truthful_same; by left].
    destruct (parseAssignGatewayUserRequest request limit) as [role|status] eqn:Hp;
      [|by apply truthful_same, body_refused_refuses, (checked_assign request limit)].
    destruct (ValidateGatewayRole role) as [e|] eqn:Hr; [apply truthful_same; by case_match; left|].
    apply assigned_role in Hr as Hrole.
    destruct (service_AssignGatewayUser _ _ _ _ _ _ _) as [r d'] eqn:E.
    apply truthful_call; [done|apply assign_error_refuses|].
    unfold service_AssignGatewayUser in E. rewrite Hr, Hs in E. cbn in E.
    destruct (check_ids _ _ _); [injection E as <- <-; by left|].
    apply unless_ended_cases in E as [(c & -> & ->)|E%AssignGatewayUser_outcome]; [by left|].
    destruct r as [[]|e]; [by exists actor, target, role|]. destruct E as [->|[(cause & Hc & ->) E]]; [by left|right].
    split; [apply foreign_status; intros; by eapply Hf|by exists actor, target, role].
  - destruct (parse_user user_id) as [target|]; [|apply truthful_same; by left].
    destruct (_ || _); [apply truthful_same; by left|].
    destruct (service_RemoveGatewayUser _ _ _ _ _ _) as [r d'] eqn:E.
    apply truthful_call; [done|apply remove_error_refuses|].
    unfold service_RemoveGatewayUser in E. rewrite Hs in E. cbn in E. destruct (_ || _); [injection E as <- <-; by left|].
    apply unless_ended_cases in E as [(c & -> & ->)|E%RemoveGatewayUser_outcome]; [by left| |done].
    destruct r as [[]|e]; [by exists actor, target|]. destruct E as [->|[(e0 & (cause & Hc & ->) & ->) E]]; [by left|right].
    split; [apply foreign_status; intros; by eapply Hf|by exists actor, target].
  - destruct (gateway_refused g); [apply truthful_same; by left|].
    destruct (parseTransferGatewayOwnerRequest request limit) as [target|status] eqn:Hp;
      [|by apply truthful_same, body_refused_refuses, (checked_transfer request limit)].
    destruct (service_TransferGatewayOwner _ _ _ _ _ _) as [r d'] eqn:E.
    apply truthful_call; [done|apply transfer_error_refuses|].
    unfold service_TransferGatewayOwner in E. rewrite Hs in E. cbn in E.
    destruct (check_ids _ _ _); [injection E as <- <-; by left|].
    apply unless_ended_cases in E as [(c & -> & ->)|E%TransferGatewayOwner_outcome]; [by left|].
    destruct r as [[]|e]; [by exists actor, target|]. destruct E as [->|[(cause & Hc & ->) E]]; [by left|right].
    split; [apply foreign_status; intros; by eapply Hf|by exists actor, target].
Qed.

(** ** After a transfer *)

(** Only the owner adds Sensors as an owner, whatever the database answers. *)
Lemma owner_refused w u (input : ProvisionSensorInput) d : rg_roles d !! (u, ps_GatewayID input) <> Some "owner" ->
  exists e, ProvisionSensorForOwner w u input d = (Err e, d).
Proof.
  intros Hn.
  pose proof (sensor_call_settled (fun err => HText "begin owner Sensor provisioning" (classifyOwnerProvisioningError err))
    owner_commit_error (provision_sensor_for_owner_body w u input) is_owner w u input d) as H.
  unfold ProvisionSensorForOwner. unfold owner_commit_error in H.
  match goal with |- exists e, ?call = _ => destruct call as [r d'] eqn:E end.
  assert (settled w owner_commit_error (authorised_sensor is_owner w u input d) d (r, d')) as Hs.
  { apply H. intros a d1 rs Hb. by eapply provision_owner_ok. }
  destruct r as [a|e]; cbn in Hs.
  - by destruct Hs as (_ & Ho & _).
  - destruct Hs as [->|(_ & a & _ & Ho & _)]; [by exists e|done].
Qed.

Lemma transfer_done_roles actor g target d d' : transfer_done actor g target d d' -> exists old,
  owners_of g d = [old] /\ owners_of g d' = [target] /\ (old <> target -> rg_roles d' !! (old, g) = Some "viewer")
  /\ user_gateways (view d) ⊆ user_gateways (view d')
  /\ rg_store d' = rg_store d /\ rg_columns d' = rg_columns d
  /\ (forall u g', g' <> g \/ u <> old /\ u <> target -> rg_roles d' !! (u, g') = rg_roles d !! (u, g')).
Proof.
  intros Hd. pose proof (transfer_done_owner _ _ _ _ _ Hd) as Ht. destruct Hd as [_ _ _ Ho|old _ _ _ Ho Hne].
  - exists target. by split_and!.
  - exists old. split_and!; [done..| | |done|done|].
    + intros _. cbn. by rewrite lookup_insert_ne, lookup_insert_eq by congruence.
    + cbn. rewrite !dom_insert_L. set_solver.
    + intros u g' Hu. cbn. rewrite !lookup_insert_ne; [done|naive_solver..].
Qed.

(** C10 Transfer of a Gateway: after a transfer succeeded the target is the only
    owner and the previous owner a viewer; everybody who could read the Gateway still
    can, and the telemetry and the twins are as they were; nobody but the target
    adds Sensors as an owner, however the database answers, while the target is
    answered by what the tables decide; and repeating the creation of the Gateway
    for its previous owner is now a conflict. *)
Theorem transfer_effective svc w actor g target d d' : registry_ok d -> sv_repo svc = PostgresUserRepository ->
  service_TransferGatewayOwner svc w actor g target d = (Ok tt, d') ->
  actor ∈ rg_admins d /\ exists old, owners_of g d = [old] /\ owners_of g d' = [target]
  /\ (old <> target -> rg_roles d' !! (old, g) = Some "viewer")
  /\ user_gateways (view d) ⊆ user_gateways (view d')
  /\ rg_store d' = rg_store d /\ rg_columns d' = rg_columns d
  /\ (forall u g', g' <> g \/ u <> old /\ u <> target -> rg_roles d' !! (u, g') = rg_roles d !! (u, g'))
  /\ (forall wp u (input : ProvisionSensorInput), ps_GatewayID input = g -> u <> target ->
        exists e, ProvisionSensorForOwner wp u input d' = (Err e, d'))
  /\ (forall wp (input : ProvisionSensorInput), ps_GatewayID input = g -> answering wp -> ww_new_id wp ∉ e_id <$> entities d' ->
        ValidateProvisionSensorInput target input = None ->
        ProvisionSensorForOwner wp target input d' = graph_decision wp input d')
  /\ (forall wp admin (input : ProvisionGatewayInput uuid), pg_GatewayID input = g -> pg_OwnerUserID input = old -> old <> target ->
        answering wp -> ww_new_id wp ∉ e_id <$> entities d' -> ValidateProvisionGatewayInput admin input = None ->
        admin ∈ rg_admins d' -> old ∈ rg_profiles d' ->
        ProvisionGateway wp admin input d' = (Err (HGateway ErrProvisioningConflict), d')).
Proof.
  intros Hok Hs E. unfold service_TransferGatewayOwner in E. rewrite Hs in E. cbn in E.
  destruct (check_ids _ _ _); [done|]. apply unless_ended_cases in E as [(c & [=] & _)|Hd%TransferGatewayOwner_outcome].
  cbn in Hd. pose proof (transfer_done_ok _ _ _ _ _ Hd Hok) as Hok'.
  assert (actor ∈ rg_admins d /\ g ∈ gateways (rg_store d')) as [Ha Hg] by by destruct Hd. split; [done|].
  destruct (transfer_done_roles _ _ _ _ _ Hd) as (old & Ho & Ht & Hold & Hreads & Hst & Hcol & Hother).
  apply one_owner in Ht as Hone. destruct Hone as [Htr Hall].
  exists old. split_and!; [done..| | |].
  - intros wp u input Hgi Hu. apply owner_refused. rewrite Hgi. by intros ->%Hall.
  - intros wp input Hgi Hwp Hid Hv. rewrite ProvisionSensorForOwner_run by done.
    unfold sensor_decision, owner_decision. cbn [andb negb]. rewrite Hgi, bool_decide_true by done. cbn [negb].
    by rewrite Htr, decide_True.
  - intros wp admin input Hgi Hoi Hne Hwp Hid Hv Hadm Hprof. rewrite ProvisionGateway_run by done.
    unfold gateway_decision. rewrite Hgi, Hoi, !bool_decide_true by done. cbn [negb].
    destruct (gateway_row g d') as [[[name desc] cr]|] eqn:Hrow; [|by apply gateway_row_none in Hrow].
    rewrite decide_False; [done|]. intros (_ & _ & Hr). by apply Hall in Hr.
Qed.

(** ** After a removal *)

(** A Gateway that exists, and a user without a role in it. *)
Definition outside target g d : Prop := g ∈ gateways (rg_store d) /\ rg_roles d !! (target, g) = None.

(** The calls that can give the user a role in the Gateway. *)
Definition grants (c : WriteCall) target g : Prop :=
  match c with
  | CallAssign _ _ _ g' target' _ | CallTransfer _ _ _ g' target' => g' = g /\ target' = target
  | _ => False
  end.

Lemma effect_outside c d d' target g : effect_of c d d' -> ~ grants c target g -> outside target g d -> outside target g d'.
Proof.
  intros Heff Hno [Hg Hr]. unfold outside.
  destruct Heff as [|w actor input d r d' Hv Hp|c w actor input d r d' Hc Hv Hp|w actor g' input d r d' Hv Hp
    |w actor g' s input name d r d' Hv Hp|sky ctx m d md resource db' Hm Hent Heff
    |svc w actor g' target' role d d' Hrole Hp|svc w actor g' target' d d' Hp|svc w actor g' target' d d' Hp|profiles admins d];
    [done|destruct Hp; [|done]|destruct Hp; [|done]|destruct Hp; [done|]|destruct Hp; [done|]| |destruct Hp|destruct Hp|destruct Hp; [done|]|done];
    cbn.
  - split; [set_solver|]. rewrite lookup_insert_ne; [done|congruence].
  - done.
  - done.
  - done.
  - by destruct (eff_others _ _ _ _ _ _ Heff) as (-> & _).
  - split; [done|]. rewrite lookup_insert_ne; [done|]. intros [= -> ->]. by apply Hno.
  - split; [done|]. by apply lookup_delete_None; right.
  - split; [done|]. rewrite !lookup_insert_ne; [done| |].
    + intros [= -> ->]. match goal with H : owners_of _ _ = _ |- _ => apply one_owner in H as [H _] end. congruence.
    + intros [= -> ->]. by apply Hno.
Qed.

(** Steps of the server that give the user no role in the Gateway. *)
Definition other_step target g d d' : Prop := exists c, call_fits c /\ ~ grants c target g /\ d' = perform c d.

Lemma run_outside target g d d' : rtc (other_step target g) d d' -> outside target g d -> outside target g d'.
Proof.
  induction 1 as [|d1 d2 d3 (c & Hfit & Hno & ->) _ IH]; [done|]. intros H. apply IH.
  eapply effect_outside; [by apply perform_effect|done..].
Qed.

Lemma outside_view target g d : outside target g d -> (target, g) ∉ user_gateways (view d).
Proof. intros [_ H]. by apply not_elem_of_dom. Qed.

Context `{SF : SqlFunctions} `{SL : !SqlLaws} `{JT : JsonbText} `{TM : TextMin}.

(** C9 A removed user is out at once: after a removal that succeeded, and after any
    further writes that do not give the role back, no read of that user shows
    anything of the Gateway (no history, no listed twin, no detail, no state),
    however the tables change while it runs and whatever fails, and the user adds
    no Sensor to it as an owner. *)
Theorem removed_member_refused svc w actor g target d0 d (W : World uuid) : sv_repo svc = PostgresUserRepository -> honest w ->
  service_RemoveGatewayUser svc w actor g target d0 = (Ok tt, d) ->
  (forall n, exists d', rtc (other_step target g) d d' /\ store_at W n = view d') ->
  actor ∈ rg_admins d0
  /\ (forall cfg s q n, history_service cfg = Ok s -> hq_GatewayID q = g ->
        is_ok (GetTelemetryHistory s target q W n).1 = false)
  /\ (forall twin hist s n, composeTwinReads twin hist = Ok s ->
        (forall q a n', ListTwins s target q W n = (Ok a, n') -> Forall (fun i => ts_GatewayID i <> g) (lr_Items a))
        /\ (forall q a n', GetTwinDetail s target q W n = (Ok a, n') -> dr_GatewayID a <> g)
        /\ (forall q a n', GetTwinState s target q W n = (Ok a, n') -> TwinModel.sr_GatewayID a <> g))
  /\ (forall d' wp (input : ProvisionSensorInput), rtc (other_step target g) d d' -> ps_GatewayID input = g ->
        exists e, ProvisionSensorForOwner wp target input d' = (Err e, d')).
Proof.
  intros Hs Hh E Hw. unfold service_RemoveGatewayUser in E. rewrite Hs in E. cbn in E. destruct (_ || _); [done|].
  apply unless_ended_cases in E as [(c & [=] & _)|Hd%RemoveGatewayUser_outcome]; [|done]. cbn in Hd.
  assert (actor ∈ rg_admins d0 /\ outside target g d) as [Ha Hout].
  { destruct Hd as [Ha Hg _]. split; [done|]. split; [done|]. cbn. apply lookup_delete_eq. }
  assert (forall d', rtc (other_step target g) d d' -> outside target g d') as Hrun by (intros d' Hr; by eapply run_outside).
  assert (forall n, (target, g) ∉ user_gateways (store_at W n)) as Hno.
  { intros n. destruct (Hw n) as (d' & Hr & ->). by apply outside_view, Hrun. }
  split; [done|]. split_and!.
  - intros cfg s q n Hc Hq. destruct (GetTelemetryHistory s target q W n) as [[a|e] n'] eqn:Eh; [|done].
    apply (service_sound cfg) in Eh as (_ & _ & _ & k1 & k2 & r & _ & _ & _ & _ & Hin & _); [|done].
    rewrite Hq in Hin. by apply Hno in Hin.
  - intros twin hist s n Hc. apply composeTwinReads_ok in Hc as (Ht & _ & ->). split_and!; intros q a n' H.
    + apply (list_ok twin hist) in H as (_ & k & _ & _ & Hall); [|done]. eapply list.Forall_impl; [exact Hall|].
      cbn. intros i Hi <-. by apply Hno in Hi.
    + apply (detail_ok twin hist) in H as (_ & k1 & k2 & _ & _ & _ & _ & Hi); [|done]. intros <-. by apply Hno in Hi.
    + apply (state_ok twin hist) in H as (_ & k1 & k2 & _ & _ & _ & _ & Hi); [|done]. intros <-. by apply Hno in Hi.
  - intros d' wp input Hr Hg. apply owner_refused. rewrite Hg. destruct (Hrun d' Hr) as [_ ->]. done.
Qed.

(** ** Administrators *)

(** One [PATCH] of a user, whatever the database answers. *)
Definition update_step b b' : Prop := exists svc w actor target input, sv_repo svc = PostgresUserRepository
  /\ b' = (UpdateUser svc w actor target input b).2.

Lemma UpdateUser_effect svc w actor target input b r b' : sv_repo svc = PostgresUserRepository ->
  UpdateUser svc w actor target input b = (r, b') ->
  b' = b \/ actor ∈ rg_admins (ub_registry b)
            /\ exists u, update_done actor target (uu_FullName input) (uu_PlatformRole input) b u b'.
Proof.
  intros Hs. unfold UpdateUser. rewrite Hs. cbn. destruct (ValidateUpdateUserInput input); [intros [= _ <-]; by left|].
  destruct (CheckSelfDemotion _ _ _); [intros [= _ <-]; by left|].
  intros [(c & _ & ->)|H%UpdateUserProfileAndRole_outcome]%unless_ended_cases; [by left|].
  destruct r as [u|e]; [right; naive_solver|]. destruct H as [->|(_ & Ha & u & H)]; [by left|right; eauto].
Qed.

Lemma update_done_admin actor target fullName platformRole b u b' : actor ∈ rg_admins (ub_registry b) ->
  update_done actor target fullName platformRole b u b' -> actor ∈ rg_admins (ub_registry b').
Proof.
  intros Ha (_ & Hself & -> & _). cbn. unfold roles_after. destruct platformRole as [role|]; [|done].
  case_bool_decide; [set_solver|]. case_bool_decide; [|done]. subst role. destruct Hself as [Hne|Hne]; [set_solver|done].
Qed.

(** The transactions [first] and [second] overlap: both have checked their actors
    before either writes, and the second goes on when the first has committed.  They
    lock different rows, those of their targets. *)
Definition overlapping first_actor first_target second_actor second_target (role : option string) b : option (UserDB uuid) :=
  let check actor := recheck_actor (fun b => rg_admins (ub_registry b)) (HText "recheck actor platform admin") actor b [] in
  match check first_actor, check second_actor with
  | Ok _, Ok _ =>
      match update_user_rest first_actor first_target None role b [] with
      | Ok (_, b1, _) =>
          match update_user_rest second_actor second_target None role b1 [] with Ok (_, b2, _) => Some b2 | Err _ => None end
      | Err _ => None
      end
  | _, _ => None
  end.

(** C13 Somebody can still administer: updates of users that run one after the
    other, whatever the database answers, never take away the last platform
    administrator, and the actor of one that changed anything still is one.  The
    recheck of the actor is no lock, though: two administrators whose updates
    overlap can each revoke the other, and then nobody is left. *)
Theorem an_admin_remains b b' :
  (rtc update_step b b' -> rg_admins (ub_registry b) <> ∅ -> rg_admins (ub_registry b') <> ∅)
  /\ (forall svc w actor target input r, sv_repo svc = PostgresUserRepository ->
        UpdateUser svc w actor target input b = (r, b') -> b' <> b -> actor ∈ rg_admins (ub_registry b'))
  /\ (forall u v, u <> v -> rg_admins (ub_registry b) = {[u; v]} -> u ∈ rg_profiles (ub_registry b) ->
        v ∈ rg_profiles (ub_registry b) -> exists b2, overlapping u v v u (Some "user") b = Some b2
          /\ rg_admins (ub_registry b2) = ∅).
Proof.
  split_and!.
  - induction 1 as [|b0 b1 b2 (svc & w & actor & target & input & Hs & ->) _ IH]; [done|]. intros H. apply IH.
    destruct (UpdateUser svc w actor target input b0) as [r b1] eqn:E.
    destruct (UpdateUser_effect _ _ _ _ _ _ _ _ Hs E) as [->|(Ha & u & Hd)]; [done|]. cbn.
    pose proof (update_done_admin _ _ _ _ _ _ _ Ha Hd). set_solver.
  - intros svc w actor target input r Hs E Hne.
    destruct (UpdateUser_effect _ _ _ _ _ _ _ _ Hs E) as [->|(Ha & u & Hd)]; [done|]. by eapply update_done_admin.
  - intros u v Huv Had Hu Hv.
    assert (forall x y c, x <> y -> x ∈ rg_profiles (ub_registry c) -> y ∈ rg_profiles (ub_registry c) ->
      y ∈ rg_admins (ub_registry c) ->
      update_user_rest x y None (Some "user") c [] = Ok (updated_user y (with_admins c (rg_admins (ub_registry c) ∖ {[y]})),
        with_admins c (rg_admins (ub_registry c) ∖ {[y]}), [])) as Hrest.
    { intros x y c Hxy Hx Hy Hyc. unfold update_user_rest, tx_bind, read_row, call_checked, name_query.
      rewrite (bool_decide_true (y ∈ rg_profiles _)) by done. cbn [mbind res_bind].
      rewrite (bool_decide_false (x = y)) by done. cbn [andb]. unfold tx_ret, call, delete_admin.
      by rewrite bool_decide_false, bool_decide_true, (bool_decide_true (y ∈ rg_admins _)) by done. }
    unfold overlapping. cbn zeta. rewrite !recheck_run, Had, !bool_decide_true by set_solver.
    rewrite Hrest by (done || rewrite Had; set_solver). rewrite Hrest; [|done..|cbn; rewrite Had; set_solver].
    eexists. split; [done|]. cbn. rewrite Had. set_solver.
Qed.

(** ** The listing *)

Implicit Types (W : UserWorld uuid).

Lemma u_bind_ok {A B} (m : UM uuid A) (k : A -> UM uuid B) W n y n' : u_bind m k W n = (Ok y, n') ->
  exists a j, m W n = (Ok a, j) /\ k a W j = (Ok y, n').
Proof. unfold u_bind. destruct (m W n) as [[a|e] j]; [|done]. by exists a, j. Qed.

Lemma u_call_ok {A} (run : UserDB uuid -> res herror A) W n r n' : u_call run W n = (Ok r, n') ->
  n' = S n /\ (is_ok r = true -> r = run (uw_tables W n)).
Proof. unfold u_call. intros [= <- <-]. split; [done|]. by destruct (uw_reply W n). Qed.

Lemma scan_projection_ok rows W n rows' n' : scan_projection rows W n = (Ok rows', n') ->
  rows' = rows /\ (n < n')%nat
  /\ Forall (fun r => is_Some (upr_Email r) /\ is_Some (upr_CreatedAt r) /\ upr_ProfileExists r = true) rows.
Proof.
  revert n rows' n'. induction rows as [|r rows IH]; intros n rows' n' H; cbn [scan_projection] in H;
    apply u_bind_ok in H as (x & j & [-> _]%u_call_ok & H); destruct x; try done.
  - injection H as <- <-. split_and!; [done|lia|constructor].
  - apply u_bind_ok in H as (x & j & [-> _]%u_call_ok & H). destruct x; [|done].
    destruct (_ || _) eqn:Hn; [done|]. destruct (upr_ProfileExists r) eqn:Hp; [|done]. cbn [negb] in H.
    apply u_bind_ok in H as (x & j & Hx & H). injection H as <- <-. apply IH in Hx as (-> & Hj & Hall).
    apply orb_false_iff in Hn as [H1%bool_decide_eq_false H2%bool_decide_eq_false]. split_and!; [done|lia|].
    constructor; [|done]. by rewrite <- !not_eq_None_Some.
Qed.

Lemma scan_roles_ok rows W n rows' n' : scan_roles rows W n = (Ok rows', n') -> rows' = rows /\ (n < n')%nat.
Proof.
  revert n rows' n'. induction rows as [|r rows IH]; intros n rows' n' H; cbn [scan_roles] in H;
    apply u_bind_ok in H as (x & j & [-> _]%u_call_ok & H); destruct x; try done.
  - injection H as <- <-. split; [done|lia].
  - apply u_bind_ok in H as (x & j & [-> _]%u_call_ok & H). destruct x; [|done].
    apply u_bind_ok in H as (x & j & Hx & H). injection H as <- <-. apply IH in Hx as [-> Hj]. split; [done|lia].
Qed.

#[export] Instance account_le_total : Total (account_le (uuid := uuid)).
Proof.
  intros [u [e [s|]]] [v [f [t|]]]; unfold account_le; cbn; [|by auto|by auto|apply c_le_total].
  destruct (Z.lt_trichotomy s t) as [H|[->|H]]; [by auto| |by auto]. destruct (c_le_total (uuid_String u) (uuid_String v)); auto.
Qed.

#[export] Instance role_le_total : Total role_le.
Proof. intros x y. apply c_le_total. Qed.

(** The entry of an account, from the tables of the projection and of the roles. *)
Definition listed_as b b' (account : uuid * (option string * option Z)) (entry : UserSummary uuid) : Prop :=
  us_ID entry = account.1 /\ account.1 ∈ rg_profiles (ub_registry b)
  /\ account.2.1 = Some (us_Email entry) /\ us_FullName entry = ub_names b !! account.1
  /\ us_PlatformRole entry = (if bool_decide (account.1 ∈ rg_admins (ub_registry b)) then "platform_admin" else "user")
  /\ (exists created, account.2.2 = Some created /\ us_CreatedAt entry = time_of_tz created)
  /\ NoDup (us_GatewayRoles entry) /\ Sorted role_le (us_GatewayRoles entry)
  /\ forall r, r ∈ us_GatewayRoles entry <-> rg_roles (ub_registry b') !! (account.1, ugr_GatewayID r) = Some (ugr_Role r).

(** A limit that was not exceeded cut nothing off. *)
Lemma take_all {A} (limit : Z) (l : list A) : 0 <= limit ->
  limit <? Z.of_nat (length (take (Z.to_nat (limit + 1)) l)) = false -> take (Z.to_nat (limit + 1)) l = l.
Proof. intros Hn H%Z.ltb_ge. rewrite length_take in H. apply take_ge. lia. Qed.

Lemma roles_query_all (ids : list uuid) limit b : 0 <= limit ->
  limit <? Z.of_nat (length (roles_query ids (limit + 1) b)) = false ->
  roles_query ids (limit + 1) b ≡ₚ (fun kv => mkRoleRow kv.1.1 kv.1.2 kv.2)
    <$> filter (fun kv => kv.1.1 ∈ ids) (map_to_list (rg_roles (ub_registry b))).
Proof. intros Hn H. unfold roles_query in *. rewrite take_all by done. apply merge_sort_Permutation. Qed.

(** The roles of one of the users asked for. *)
Lemma roles_of_spec (u : uuid) (ids : list uuid) rows b : u ∈ ids ->
  rows ≡ₚ ((fun kv => mkRoleRow kv.1.1 kv.1.2 kv.2) <$> filter (fun kv => kv.1.1 ∈ ids) (map_to_list (rg_roles (ub_registry b)))) ->
  NoDup (roles_of u rows) /\ Sorted role_le (roles_of u rows)
  /\ forall r, r ∈ roles_of u rows <-> rg_roles (ub_registry b) !! (u, ugr_GatewayID r) = Some (ugr_Role r).
Proof.
  intros Hu Hp. unfold roles_of. split_and!; [| |].
  - rewrite merge_sort_Permutation, Hp. apply NoDup_fmap_2_strong.
    + intros [u1 g1 r1] [u2 g2 r2] [H1 _]%list_elem_of_filter [H2 _]%list_elem_of_filter. cbn in *. by intros [= -> ->]; subst.
    + apply list.NoDup_filter, NoDup_fmap_2; [|apply list.NoDup_filter, NoDup_map_to_list].
      intros [[u1 g1] r1] [[u2 g2] r2]. cbn. by intros [= -> -> ->].
  - apply Sorted_merge_sort, _.
  - intros [g role]. rewrite merge_sort_Permutation, Hp, list_elem_of_fmap. cbn. split.
    + intros ([u' g' role'] & [= -> ->] & [Hu' Hin]%list_elem_of_filter). cbn in Hu' |- *. subst u'.
      apply list_elem_of_fmap in Hin as ([[u' g0] r0] & [= -> -> ->] & [_ Hin]%list_elem_of_filter). by apply elem_of_map_to_list in Hin.
    + intros Hr. exists (mkRoleRow u g role). split; [done|]. apply list_elem_of_filter. split; [done|].
      apply list_elem_of_fmap. exists ((u, g), role). split; [done|]. apply list_elem_of_filter. split; [done|].
      by apply elem_of_map_to_list.
Qed.

(** Each entry of the answer belongs to the row it was built from. *)
Lemma listed_entries W k b3 (rows : list (UserProjectionRow uuid)) (accounts : list (uuid * (option string * option Z))) : let b := uw_tables W k in
  (projection_row b <$> accounts) = rows ->
  Forall (fun r => is_Some (upr_Email r) /\ is_Some (upr_CreatedAt r) /\ upr_ProfileExists r = true) rows ->
  forall roleRows, (forall u, u ∈ accounts.*1 -> NoDup (roles_of u roleRows) /\ Sorted role_le (roles_of u roleRows)
    /\ forall r, r ∈ roles_of u roleRows <-> rg_roles (ub_registry b3) !! (u, ugr_GatewayID r) = Some (ugr_Role r)) ->
  Forall2 (listed_as b b3) accounts (Users.summary_of roleRows <$> rows).
Proof.
  cbn zeta. intros <- Hall roleRows Hroles. set (b := uw_tables W k) in *. apply Forall2_fmap_r, Forall2_fmap_r.
  apply Forall_Forall2_diag. apply list.Forall_forall. intros [u [email created]] Hin.
  pose proof (proj1 (list.Forall_forall _ _) Hall) as Hrow.
  destruct (Hrow (projection_row b (u, (email, created)))) as ([e He] & [t Ht] & Hp); [by apply list_elem_of_fmap; eexists|].
  cbn in He, Ht, Hp. subst email created. apply bool_decide_eq_true in Hp.
  destruct (Hroles u) as (Hnd & Hs & Hr); [by apply list_elem_of_fmap; exists (u, (Some e, Some t))|].
  unfold listed_as, Users.summary_of. cbn. rewrite bool_decide_true by done. split_and!; try done. by exists t.
Qed.

(** C14 The list an administrator gets, whatever fails and however the tables change
    between the statements: its reader is an administrator when the list is read,
    it has every account exactly once in the order of creation (and of the
    identifiers), each with its profile, its platform role and exactly its roles,
    sorted by Gateway; nothing was cut off, and the limits on users, on memberships
    and on the size of the answer are respected. *)
Theorem listed_users (svc : UserService uuid) actor W n items n' : sv_repo svc = PostgresUserRepository ->
  ListUsers svc actor W n = (Ok items, n') ->
  let cfg := effective_list_config (sv_listConfig svc) in
  uw_ctx W = None /\ exists k1 k2 k3, (n <= k1 < k2)%nat /\ (k2 <= k3 < n')%nat
  /\ actor ∈ rg_admins (ub_registry (uw_tables W k1)) /\ actor ∈ rg_admins (ub_registry (uw_tables W k2))
  /\ exists accounts, accounts ≡ₚ map_to_list (ub_accounts (uw_tables W k2)) /\ Sorted account_le accounts
     /\ Forall2 (listed_as (uw_tables W k2) (uw_tables W k3)) accounts items
     /\ Z.of_nat (length items) <= MaxUsers cfg
     /\ (items <> [] -> Z.of_nat (length (filter (fun kv => kv.1.1 ∈ accounts.*1)
           (map_to_list (rg_roles (ub_registry (uw_tables W k3)))))) <= MaxMemberships cfg
         /\ exists data, marshal_items items = Some data /\ str_len data <= MaxResponseBytes cfg).
Proof.
  intros Hs H cfg. unfold ListUsers in H. rewrite Hs in H. fold cfg in H. cbn zeta in H.
  assert (0 < MaxUsers cfg /\ 0 < MaxMemberships cfg /\ 0 < MaxResponseBytes cfg) as (Hu & Hm & Hb).
  { unfold cfg, effective_list_config. cbn. split_and!; case_match; lia. }
  clearbody cfg. cbn [ur_VerifyActorIsAdmin ur_ListUsersProjection ur_ListUserGatewayRoles PostgresUserRepository] in H.
  apply u_bind_ok in H as (c & j0 & Hc & H). unfold u_ctx in Hc. destruct (uw_ctx W); [done|]. injection Hc as <- <-.
  split; [done|]. apply u_bind_ok in H as (v & j1 & Hv & H). unfold VerifyActorIsAdmin in Hv. case_bool_decide; [done|].
  apply u_bind_ok in Hv as (a & j & [-> Ha]%u_call_ok & Hv). destruct a as [a|]; [|done].
  specialize (Ha eq_refl). injection Ha as ->.
  destruct (is_admin_query actor (ub_registry (uw_tables W n))) eqn:Ha; [|done]. injection Hv as <- <-.
  apply bool_decide_eq_true in Ha. apply u_bind_ok in H as (rows & j2 & Hr & H). unfold ListUsersProjection in Hr.
  apply u_bind_ok in Hr as (r & j & [-> Hq]%u_call_ok & Hr). destruct r as [r|]; [|done]. specialize (Hq eq_refl).
  unfold users_projection in Hq. set (b2 := uw_tables W (S n)) in *.
  destruct (is_admin_query actor (ub_registry b2)) eqn:Ha2; [|done]. injection Hq as Hq. apply bool_decide_eq_true in Ha2.
  apply scan_projection_ok in Hr as (-> & Hj2 & Hall).
  destruct (MaxUsers cfg <? _) eqn:Hmax; [done|]. rewrite Hq in Hmax.
  set (accounts := merge_sort account_le (map_to_list (ub_accounts b2))) in *.
  apply take_all in Hmax as Htake; [|lia]. rewrite Hq, Htake in *. clear Hq Htake.
  apply Z.ltb_ge in Hmax. rewrite length_fmap in Hmax.
  assert (accounts ≡ₚ map_to_list (ub_accounts b2)) as Hperm by apply merge_sort_Permutation.
  assert (Sorted account_le accounts) as Hsort by apply Sorted_merge_sort, _.
  case_bool_decide as Hnil.
  - injection H as <- <-. exists n, (S n), (S n). split_and!; [lia..|done|done|]. exists accounts.
    apply fmap_nil_inv in Hnil. rewrite Hnil in *. split_and!; [done|done|constructor|cbn; lia|done].
  - apply u_bind_ok in H as (roleRows & j3 & Hr & H). unfold ListUserGatewayRoles in Hr.
    rewrite <- list_fmap_compose in Hr. change (upr_UserID ∘ projection_row b2) with (fun x => upr_UserID (projection_row b2 x)) in Hr.
    rewrite (list_fmap_ext _ fst accounts) in Hr by (by intros ? [u [? ?]]). case_bool_decide as Hids; [apply fmap_nil_inv in Hids; by rewrite Hids in Hnil|].
    apply u_bind_ok in Hr as (r3 & j & [-> Hq]%u_call_ok & Hr). destruct r3 as [r3|]; [|done]. specialize (Hq eq_refl). injection Hq as ->.
    apply scan_roles_ok in Hr as [-> Hj3]. destruct (MaxMemberships cfg <? _) eqn:Hmm; [done|].
    apply roles_query_all in Hmm as Hroles; [|lia]. apply Z.ltb_ge in Hmm. set (b3 := uw_tables W j2) in *.
    unfold u_of_res, BuildUserSummaryList in H. destruct (negb _) in H; [done|]. rewrite bool_decide_false in H by done.
    cbn zeta in H. replace (0 <? MaxResponseBytes cfg) with true in H by lia.
    destruct (marshal_items _) as [data|] eqn:Hd; [|done]. destruct (MaxResponseBytes cfg <? str_len data) eqn:Hlen; [done|].
    injection H as <- <-. exists n, (S n), j2. split_and!; [lia..|done|done|]. exists accounts.
    split_and!; [done|done| |by rewrite !length_fmap|].
    + eapply listed_entries; [done|done|]. intros u Hu'. by eapply roles_of_spec.
    + intros _. split; [|exists data; split; [done|lia]].
      apply Permutation_length in Hroles. rewrite length_fmap in Hroles. rewrite Hroles in Hmm. exact Hmm.
Qed.

End user_spec.
