(* ===== verification/RegistryDemo.v ===== *)
(** * The registry theorems at work

    A server that starts empty: an administrator registers a Gateway and a
    Sensor, a batch of the Sensor arrives, and requests are answered. *)

From S2P Require Import Prelude GoStrings GoSha256 GoTime GoFloat GoJson Identity Urn Uuid Telemetry.
From S2P Require Import Decode Validation Message Txn Store Persist PersistSpec.
From S2P Require Import HistoryQuery HistoryStore TwinModel Cursor TwinStore TwinPages TemporalSpec.
From S2P Require Import Registry Provision Patch Mutation RegistryInv ProvisionSpec ProvisionRun.
From S2P Require Import MutationSpec WriteSpec.
Import Canonical Demo.
#[local] Open Scope Z_scope.

Definition operator : cuuid := mk "55555555-5555-4555-8555-555555555555" eq_refl.
Definition keeper : cuuid := mk "66666666-6666-4666-8666-666666666666" eq_refl.
Definition gateway_id1 : cuuid := mk "77777777-7777-4777-8777-777777777777" eq_refl.
Definition sensor_id1 : cuuid := mk "88888888-8888-4888-8888-888888888888" eq_refl.
Definition spare_id : cuuid := mk "99999999-9999-4999-8999-999999999999" eq_refl.

(** 2026-05-04 10:20:30 UTC, and two seconds later. *)
Definition noon : Z := 1777890030000000.
Definition later : Z := 1777890032000000.

Definition calm (now : Z) (id : cuuid) : WriteWorld cuuid := mkWriteWorld (Some None) None Works [] CommitOk now now id.
(** The commit became durable, but its answer was lost. *)
Definition answer_lost (now : Z) (id : cuuid) : WriteWorld cuuid :=
  mkWriteWorld (Some None) None Works [] (CommitError (HCause (OtherCause "connection reset")) true) now now id.

Definition gateway_input : ProvisionGatewayInput cuuid := mkGatewayInput "gw-1" "Roof" (Some "north side") keeper.
Definition sensor_input : ProvisionSensorInput := mkSensorInput "gw-1" "s_1" "Outdoor" (Some "Celsius").

Definition start : RegistryDB cuuid := empty_registry {[keeper]} {[operator]}.
Definition with_gateway : RegistryDB cuuid := (ProvisionGateway (calm noon gateway_id1) operator gateway_input start).2.
Definition with_sensor : RegistryDB cuuid :=
  (ProvisionSensorForAdminOrOwner (calm later sensor_id1) keeper sensor_input with_gateway).2.

Lemma gateway_id1_real : gateway_id1 <> uuid_Nil.
Proof. intros E. apply (f_equal text) in E. discriminate E. Qed.
Lemma sensor_id1_real : sensor_id1 <> uuid_Nil.
Proof. intros E. apply (f_equal text) in E. discriminate E. Qed.
Lemma operator_real : operator <> uuid_Nil.
Proof. intros E. apply (f_equal text) in E. discriminate E. Qed.
Lemma keeper_real : keeper <> uuid_Nil.
Proof. intros E. apply (f_equal text) in E. discriminate E. Qed.

(** The identifiers in the tables, for evaluation. *)
Definition id_free (id : cuuid) (d : RegistryDB cuuid) : bool := negb (has_entity id d).

Lemma id_free_spec id d : id_free id d = true -> id ∉ e_id <$> entities d.
Proof. unfold id_free. intros H Hin. apply has_entity_spec in Hin. rewrite Hin in H. discriminate H. Qed.

Lemma demo_gateway_run : rtc server_step start with_gateway.
Proof. apply rtc_once. apply (server_call (CallGateway _ _ _)). exact gateway_id1_real. Qed.

Lemma demo_run_steps : rtc server_step start with_sensor.
Proof. eapply rtc_r; [exact demo_gateway_run|]. apply (server_call (CallAdminOrOwnerSensor _ _ _)). exact sensor_id1_real. Qed.

Lemma demo_gateway_ok : registry_ok with_gateway.
Proof. exact (so_registry _ (server_run_ok _ _ _ demo_gateway_run)). Qed.
Lemma demo_registry_ok : registry_ok with_sensor.
Proof. exact (so_registry _ (server_run_ok _ _ _ demo_run_steps)). Qed.

Example demo_registry_graph : (fun e => (e_entity_id e, e_entity_type e)) <$> entities with_sensor
  = [("urn:ngsi-ld:Gateway:gw-1", "Gateway"); ("urn:ngsi-ld:Sensor:gw-1:s_1", "Sensor")].
Proof. vm_compute. reflexivity. Qed.

Lemma server_run_consistent_witness : registry_ok with_sensor /\ length (entities with_sensor) = 2%nat.
Proof.
  split; [|vm_compute; reflexivity].
  exact (proj1 (server_run_consistent {[keeper]} {[operator]} with_sensor demo_run_steps)).
Defined.

Lemma demo_no_ledger : processed_messages (rg_store with_sensor) = ∅.
Proof. apply map_size_empty_inv. vm_compute. reflexivity. Qed.

Lemma demo_state_versions id st : twin_states (rg_store with_sensor) !! id = Some st -> st_reported_version st < max_int64.
Proof.
  intros H. assert (map_Forall (fun _ st => st_reported_version st < max_int64) (twin_states (rg_store with_sensor))) as Hall
    by (apply (bool_decide_unpack _); vm_compute; exact I). exact (Hall id st H).
Qed.

Definition clear : Weather := mkWeather Works [] CommitOk later.

Lemma provisioned_sensor_ingests_witness : exists result db',
  Persist clear true (Some demo_message) (rg_store with_sensor) = (Ok result, db')
  /\ Outcome result = CommitOutcomeCommitted /\ SamplesSaved result = 2
  /\ rtc server_step start (set_store with_sensor db').
Proof.
  apply (provisioned_sensor_ingests {[keeper]} {[operator]} with_sensor demo_message clear demo_run_steps).
  - apply (bool_decide_unpack _). vm_compute. exact I.
  - exact demo_message_ok.
  - repeat split.
  - rewrite demo_no_ledger. apply lookup_empty.
  - intros k row first last H. rewrite demo_no_ledger, lookup_empty in H. discriminate H.
  - exact demo_state_versions.
Defined.

(** ** Requests *)

Definition services := composeMutations (uuid := cuuid) (5 * Second).

Definition request (body : string) : Request := mkRequest false (Some ("application/json", [])) (jq body) false.

Definition create_sensor : Request := request
  "{'entity_type':'Sensor','gateway_id':'gw-1','sensor_id':'s_1','name':'Outdoor','unit':'Celsius'}".
Definition rename_sensor : Request := request "{'name':{'type':'Property','value':'Attic'}}".
Definition sensor_urn : string := "urn:ngsi-ld:Sensor:gw-1:s_1".
Definition rename_parsed : PatchEntityInput :=
  mkPatchEntity (Urn.mkIdentity EntityTypeSensor "gw-1" "s_1" sensor_urn) None (Some (mkPatchSensor (Some "Attic"))).

Lemma create_sensor_parsed : parsePostEntityRequest create_sensor 65536 = Ok (PostSensor sensor_input : PostEntityRequest cuuid).
Proof. vm_compute. reflexivity. Qed.
Lemma rename_sensor_parsed : parsePatchEntityRequest rename_sensor sensor_urn 65536 = Ok rename_parsed.
Proof. vm_compute. reflexivity. Qed.

(** Times that can be written, by evaluation. *)
Lemma times_ok_check (d : RegistryDB cuuid) :
  bool_decide (map_Forall (fun _ t => is_Some (FormatRFC3339Micro (time_of_tz t))) (rg_gateway_created d)
    /\ map_Forall (fun _ t => is_Some (FormatRFC3339Micro (time_of_tz t))) (rg_sensor_created d)
    /\ Forall (fun e => is_Some (FormatRFC3339Micro (time_of_tz (entity_updated_at (view d) e)))) (entities d)) = true ->
  times_ok d.
Proof.
  intros (Hg & Hs & He)%bool_decide_eq_true. split.
  - intros g t H. exact (Hg g t H).
  - intros k t H. exact (Hs k t H).
  - intros e H. rewrite list.Forall_forall in He. exact (He e H).
Qed.

Lemma with_gateway_times : times_ok with_gateway.
Proof. apply times_ok_check. vm_compute. reflexivity. Qed.
Lemma with_sensor_times : times_ok with_sensor.
Proof. apply times_ok_check. vm_compute. reflexivity. Qed.

Lemma year_check t : bool_decide (is_Some (FormatRFC3339Micro (time_of_tz t))) = true -> year_ok t.
Proof. apply bool_decide_eq_true. Qed.

(** The whole body of the answer to the creation. *)
Definition created_body : Body cuuid :=
  BodyPostSensor (mkPostSensorDTO "gw-1" "s_1" "Outdoor" (Some "Celsius") sensor_urn (Some "2026-05-04T10:20:32.000000Z")).

Lemma created_body_is : post_body (calm later sensor_id1) (PostSensor sensor_input) with_gateway = created_body.
Proof. vm_compute. reflexivity. Qed.

(** The owner creates the Sensor below the Gateway of the administrator. *)
Lemma post_answered_witness : exists creator gp sp, services = Ok (creator, gp, sp)
  /\ post_answer 201 sensor_urn created_body with_sensor with_gateway
       (postDigitalTwin (Some creator) 65536 (Some keeper) true create_sensor (calm later sensor_id1) with_gateway).
Proof.
  assert (exists creator gp sp, services = Ok (creator, gp, sp)) as (creator & gp & sp & Hc)
    by (eexists _, _, _; reflexivity).
  exists creator, gp, sp. split; [exact Hc|]. rewrite <- created_body_is.
  apply (post_answered (5 * Second) creator gp sp 65536 create_sensor (calm later sensor_id1) keeper (PostSensor sensor_input)
    with_gateway Hc demo_gateway_ok with_gateway_times).
  - apply year_check. vm_compute. reflexivity.
  - repeat split.
  - reflexivity.
  - apply id_free_spec. vm_compute. reflexivity.
  - exact keeper_real.
  - exact create_sensor_parsed.
Defined.

Definition renamed : RegistryDB cuuid := patch_tables (calm later spare_id) operator rename_parsed with_sensor.

Lemma patch_answered_witness : exists creator gp sp, services = Ok (creator, gp, sp)
  /\ patch_answer 200 sensor_urn "Attic" renamed with_sensor
       (patchDigitalTwin (Some gp) (Some sp) 65536 (Some operator) true sensor_urn rename_sensor (calm later spare_id) with_sensor).
Proof.
  assert (exists creator gp sp, services = Ok (creator, gp, sp)) as (creator & gp & sp & Hc)
    by (eexists _, _, _; reflexivity).
  exists creator, gp, sp. split; [exact Hc|].
  apply (patch_answered (5 * Second) creator gp sp 65536 rename_sensor sensor_urn (calm later spare_id) operator rename_parsed
    with_sensor Hc demo_registry_ok with_sensor_times).
  - apply year_check. vm_compute. reflexivity.
  - repeat split.
  - reflexivity.
  - reflexivity.
  - exact operator_real.
  - exact rename_sensor_parsed.
Defined.

Lemma parsed_requests_valid_witness :
  ValidateCreateEntityInput keeper (ToDomain (PostSensor sensor_input)) = None /\ ValidatePatchEntityInput rename_parsed = None.
Proof.
  destruct (parsed_requests_valid keeper create_sensor sensor_urn 65536) as [H _].
  destruct (parsed_requests_valid keeper rename_sensor sensor_urn 65536) as [_ H'].
  split; [exact (H _ keeper_real create_sensor_parsed)|exact (proj1 (H' _ rename_sensor_parsed))].
Defined.

Lemma sensor_provisioning_decided_witness :
  ProvisionSensor (calm later sensor_id1) keeper sensor_input with_gateway = (Err (HGateway ErrProvisioningForbidden), with_gateway)
  /\ ProvisionSensorForOwner (calm later sensor_id1) keeper sensor_input with_gateway
     = sensor_decision false true (calm later sensor_id1) keeper sensor_input with_gateway.
Proof.
  destruct (sensor_provisioning_decided (calm later sensor_id1) keeper sensor_input with_gateway demo_gateway_ok) as (H1 & H2 & _).
  - repeat split.
  - apply id_free_spec. vm_compute. reflexivity.
  - vm_compute. reflexivity.
  - split; [exact (eq_trans H1 eq_refl)|exact H2].
Defined.

(** The Sensor is made although its caller was told otherwise, and the operator
    repeats a registration that is there already. *)
Definition lost : res herror ProvisionSensorResult * RegistryDB cuuid :=
  ProvisionSensorForAdminOrOwner (answer_lost later sensor_id1) keeper sensor_input with_gateway.

Lemma lost_changed : lost.2 <> with_gateway.
Proof. intros E. apply (f_equal (fun d => length (entities d))) in E. vm_compute in E. discriminate E. Qed.

Lemma provisioning_retry_witness : is_ok lost.1 = false
  /\ (exists created_at, ProvisionSensorForAdminOrOwner (calm later spare_id) keeper sensor_input lost.2
       = (Ok (sensor_result false sensor_input created_at), lost.2))
  /\ (exists created_at, ProvisionGateway (calm later spare_id) operator gateway_input with_gateway
       = (Ok (gateway_result false gateway_input created_at), with_gateway)).
Proof.
  split; [vm_compute; reflexivity|]. split.
  - destruct (provisioning_retry (answer_lost later sensor_id1) (calm later spare_id) keeper gateway_input sensor_input with_gateway)
      as [_ H]; [exact demo_gateway_ok|exact sensor_id1_real|repeat split|].
    destruct (H lost.1 lost.2) as (created_at & E & _); [exact (surjective_pairing lost)|right; exact lost_changed| |].
    + apply id_free_spec. vm_compute. reflexivity.
    + exists created_at. exact E.
  - destruct (provisioning_retry (calm noon gateway_id1) (calm later spare_id) operator gateway_input sensor_input start)
      as [H _]; [exact (so_registry _ (empty_registry_ok _ _))|exact gateway_id1_real|repeat split|].
    destruct (H (ProvisionGateway (calm noon gateway_id1) operator gateway_input start).1 with_gateway) as (created_at & E & _).
    + exact (surjective_pairing _).
    + left. vm_compute. reflexivity.
    + apply id_free_spec. vm_compute. reflexivity.
    + exists created_at. exact E.
Defined.
