(* ===== verification/UserDemo.v ===== *)
(** * The administrators' operations at work

    The server of [RegistryDemo] with a guest: made a viewer, made the owner, or
    taken out; two administrators; and the list of the users. *)

From stdpp Require Import sorting.
From S2P Require Import Prelude GoStrings GoTime GoFloat GoJson Uuid Identity Urn Telemetry Txn Store Persist.
From S2P Require Import HistoryQuery HistoryStore History HistoryRepo HistoryServiceSpec HistoryDemo TwinModel Cursor TwinStore.
From S2P Require Import Registry Provision Patch Mutation Users UserHandlers RegistryInv ProvisionSpec ProvisionRun.
From S2P Require Import UserEffects TwinReader TwinService TwinTemporal TwinServiceSpec WriteSpec UserSpec RegistryDemo.
Import Canonical.
#[local] Open Scope Z_scope.

#[local] Existing Instance demo_sql.
#[local] Existing Instance demo_sql_laws.
#[local] Instance user_demo_text : JsonbText := fun _ => "{}".
#[local] Instance user_demo_min : TextMin := fun l => match l with [] => None | u :: _ => Some u end.

Definition guest : cuuid := mk "abababab-abab-4bab-8bab-abababababab" eq_refl.

Lemma guest_real : guest <> uuid_Nil.
Proof. intros E. apply (f_equal text) in E. discriminate E. Qed.
Lemma guest_not_keeper : guest <> keeper.
Proof. intros E. apply (f_equal text) in E. discriminate E. Qed.

Definition admin_service : UserService cuuid :=
  mkUserService unavailableAuthAdminClient PostgresUserRepository (5 * Second) DefaultUserListConfig.

Example composed_as_demo : composeUserManagement (uuid := cuuid) None (5 * Second) DefaultUserListConfig = Ok admin_service.
Proof. reflexivity. Qed.

(** The guest and the operator have accounts. *)
Definition staffed : RegistryDB cuuid := perform (CallUsers {[guest; operator]} {[operator]}) with_sensor.
Definition with_viewer : RegistryDB cuuid :=
  (service_AssignGatewayUser admin_service (calm later spare_id) operator "gw-1" guest "viewer" staffed).2.

Lemma demo_staffed_run : rtc server_step start staffed.
Proof. eapply rtc_r; [exact demo_run_steps|]. apply (server_call (CallUsers _ _)). exact I. Qed.
Lemma demo_staffed_ok : server_ok staffed.
Proof. exact (server_run_ok _ _ _ demo_staffed_run). Qed.
Lemma demo_viewer_ok : server_ok with_viewer.
Proof.
  exact (server_step_ok _ _ (server_call (CallAssign admin_service (calm later spare_id) operator "gw-1" guest "viewer") staffed eq_refl)
           demo_staffed_ok).
Qed.

Example guest_is_viewer : rg_roles with_viewer !! (guest, "gw-1") = Some "viewer".
Proof. vm_compute. reflexivity. Qed.

Definition role_request : Request := request "{'role':'viewer'}".
Definition owner_request : Request := request "{'user_id':'abababab-abab-4bab-8bab-abababababab'}".

Lemma guest_parsed : parse_user (text guest) = Some guest.
Proof.
  unfold parse_user. cbn [uuid_Parse lib]. rewrite parse_text. cbn [mbind option_bind].
  rewrite bool_decide_false; [reflexivity|exact guest_real].
Qed.

Lemma role_parsed : parseAssignGatewayUserRequest role_request 65536 = Ok "viewer".
Proof. vm_compute. reflexivity. Qed.

Lemma demo_answerable (d : RegistryDB cuuid) : server_ok d ->
  answerable admin_service (Some operator) operator "gw-1" guest (calm later spare_id) d.
Proof.
  intros Hd. split.
  - reflexivity.
  - unfold authenticated. rewrite bool_decide_false; [reflexivity|exact operator_real].
  - exact guest_real.
  - vm_compute. reflexivity.
  - repeat split.
  - reflexivity.
  - exact (so_registry _ Hd).
  - exact (so_roles _ Hd).
Qed.

Lemma membership_answered_witness :
  assignGatewayUserHandler (Some admin_service) 65536 (Some operator) "gw-1" (text guest) role_request (calm later spare_id) staffed
    = assign_answer operator "gw-1" guest "viewer" staffed
  /\ ua_status (assign_answer operator "gw-1" guest "viewer" staffed).1 = 200
  /\ ua_status (transfer_answer keeper "gw-1" guest staffed).1 = 403.
Proof.
  split; [|vm_compute; split; reflexivity].
  destruct (membership_answered admin_service 65536 (Some operator) operator "gw-1" guest "viewer" (text guest) role_request
    (calm later spare_id) staffed (demo_answerable staffed demo_staffed_ok)) as [H _].
  exact (H guest_parsed role_parsed eq_refl).
Defined.

Lemma calm_honest now (id : cuuid) : honest (calm now id).
Proof. intros err H. by apply elem_of_nil in H. Qed.
Lemma lost_honest now (id : cuuid) : honest (answer_lost now id).
Proof. intros err H. by apply elem_of_nil in H. Qed.
Lemma lost_foreign now (id : cuuid) : foreign_commit (answer_lost now id).
Proof. intros err durable e [= <- <-]. reflexivity. Qed.

(** The connection is lost when the assignment commits: a 500, and the role is there. *)
Definition unsure : UserResponse cuuid * RegistryDB cuuid :=
  assignGatewayUserHandler (Some admin_service) 65536 (Some operator) "gw-1" (text guest) role_request (answer_lost later spare_id) staffed.

Lemma membership_truthful_witness : ua_status unsure.1 = 500 /\ rg_roles unsure.2 !! (guest, "gw-1") = Some "viewer"
  /\ exists done_, truthful done_ staffed unsure.
Proof.
  split; [vm_compute; reflexivity|]. split; [vm_compute; reflexivity|]. eexists.
  exact (proj1 (membership_truthful admin_service 65536 (Some operator) "gw-1" (text guest) role_request
    (answer_lost later spare_id) staffed eq_refl (lost_honest _ _) (lost_foreign _ _))).
Defined.

(** The keeper's Gateway is given to the guest. *)
Definition given : res herror () * RegistryDB cuuid :=
  service_TransferGatewayOwner admin_service (calm later spare_id) operator "gw-1" guest with_viewer.

Lemma given_ok : given.1 = Ok tt.
Proof. vm_compute. reflexivity. Qed.

Definition new_sensor : ProvisionSensorInput := mkSensorInput "gw-1" "s_2" "Attic" None.
Definition attic_id : cuuid := mk "cdcdcdcd-cdcd-4dcd-8dcd-cdcdcdcdcdcd" eq_refl.

Lemma transfer_effective_witness : given.1 = Ok tt /\ owners_of "gw-1" given.2 = [guest]
  /\ (exists e, ProvisionSensorForOwner (calm later attic_id) keeper new_sensor given.2 = (Err e, given.2))
  /\ ProvisionSensorForOwner (calm later attic_id) guest new_sensor given.2 = graph_decision (calm later attic_id) new_sensor given.2
  /\ ProvisionGateway (calm later attic_id) operator gateway_input given.2 = (Err (HGateway ErrProvisioningConflict), given.2).
Proof.
  split; [exact given_ok|].
  assert (given = (Ok tt, given.2)) as E by (rewrite <- given_ok; exact (surjective_pairing given)).
  destruct (transfer_effective admin_service (calm later spare_id) operator "gw-1" guest with_viewer given.2
    (so_registry _ demo_viewer_ok) eq_refl E) as (_ & old & Ho & Ht & _ & _ & _ & _ & _ & Hrefused & Hdecided & Hconflict).
  assert (old = keeper) as ->.
  { assert (owners_of "gw-1" with_viewer = [keeper]) as Hk by (vm_compute; reflexivity). rewrite Hk in Ho. injection Ho as <-. reflexivity. }
  split; [exact Ht|]. split; [|split].
  - apply Hrefused; [reflexivity|]. intros Heq. apply guest_not_keeper. symmetry. exact Heq.
  - apply Hdecided; [reflexivity|repeat split| |vm_compute; reflexivity]. apply id_free_spec. vm_compute. reflexivity.
  - apply Hconflict; [reflexivity|reflexivity| |repeat split| |vm_compute; reflexivity| |].
    + intros Heq. apply guest_not_keeper. symmetry. exact Heq.
    + apply id_free_spec. vm_compute. reflexivity.
    + apply (bool_decide_unpack _). vm_compute. exact I.
    + apply (bool_decide_unpack _). vm_compute. exact I.
Defined.

(** The guest is taken out while another request of the guest is running. *)
Definition taken_out : res herror () * RegistryDB cuuid :=
  service_RemoveGatewayUser admin_service (calm later spare_id) operator "gw-1" guest with_viewer.

Lemma taken_out_ok : taken_out.1 = Ok tt.
Proof. vm_compute. reflexivity. Qed.

Definition after_removal : World cuuid := mkWorld None (fun _ => view taken_out.2) (fun _ => None).

Lemma removed_member_refused_witness : taken_out.1 = Ok tt
  /\ is_ok (GetTelemetryHistory demo_service guest (demo_query ResolutionRaw) after_removal 0%nat).1 = false
  /\ exists e, ProvisionSensorForOwner (calm later attic_id) guest new_sensor taken_out.2 = (Err e, taken_out.2).
Proof.
  split; [exact taken_out_ok|].
  assert (taken_out = (Ok tt, taken_out.2)) as E by (rewrite <- taken_out_ok; exact (surjective_pairing taken_out)).
  destruct (removed_member_refused admin_service (calm later spare_id) operator "gw-1" guest with_viewer taken_out.2 after_removal
    eq_refl (calm_honest _ _) E) as (_ & Hhistory & _ & Hsensor).
  - intros n. exists taken_out.2. split; [apply rtc_refl|reflexivity].
  - split; [exact (Hhistory demo_config demo_service (demo_query ResolutionRaw) 0%nat demo_history_service eq_refl)|].
    apply Hsensor; [apply rtc_refl|reflexivity].
Defined.

(** Two administrators. *)
Definition two_admins : UserDB cuuid :=
  mkUserDB (perform (CallUsers {[keeper; operator]} {[keeper; operator]}) with_sensor) ∅ ∅.
Definition revoke : UpdateUserInput := mkUpdateUserInput None (Some "user").
Definition revoked : UserDB cuuid := (UpdateUser admin_service (calm later spare_id) operator keeper revoke two_admins).2.

Lemma operator_not_keeper : operator <> keeper.
Proof. intros E. apply (f_equal text) in E. discriminate E. Qed.

Lemma an_admin_remains_witness : rg_admins (ub_registry revoked) = {[operator]} /\ rg_admins (ub_registry revoked) <> ∅
  /\ exists b2, overlapping operator keeper keeper operator (Some "user") two_admins = Some b2 /\ rg_admins (ub_registry b2) = ∅.
Proof.
  split; [apply (bool_decide_unpack _); vm_compute; exact I|]. destruct (an_admin_remains two_admins revoked) as (Hrun & _ & Hcross). split.
  - apply Hrun.
    + apply rtc_once. exists admin_service, (calm later spare_id), operator, keeper, revoke. split; reflexivity.
    + apply (bool_decide_unpack _). vm_compute. exact I.
  - apply Hcross; [exact operator_not_keeper| | |]; apply (bool_decide_unpack _); vm_compute; exact I.
Defined.

(** The list. *)
Definition accounts_of_demo : gmap cuuid (option string * option Z) :=
  {[operator := (Some "op@example.org", Some noon); keeper := (Some "keeper@example.org", Some later);
    guest := (Some "guest@example.org", Some later)]}.
Definition list_world : UserWorld cuuid :=
  mkUserWorld None (fun _ => mkUserDB with_viewer accounts_of_demo {[keeper := "Kim"]}) (fun _ => None).
Definition shown_users : res herror (list (UserSummary cuuid)) * nat := ListUsers admin_service operator list_world 0%nat.

Definition user_rows (r : res herror (list (UserSummary cuuid))) : list (string * option string * string * list (string * string)) :=
  match r with
  | Ok items => (fun s => (us_Email s, us_FullName s, us_PlatformRole s, (fun g => (ugr_GatewayID g, ugr_Role g)) <$> us_GatewayRoles s)) <$> items
  | Err _ => []
  end.

Example shown_users_rows : user_rows shown_users.1
  = [("op@example.org", None, "platform_admin", []); ("keeper@example.org", Some "Kim", "user", [("gw-1", "owner")]);
     ("guest@example.org", None, "user", [("gw-1", "viewer")])].
Proof. vm_compute. reflexivity. Qed.

Lemma listed_users_witness : exists items n', shown_users = (Ok items, n') /\ length items = 3%nat
  /\ exists accounts, accounts ≡ₚ map_to_list accounts_of_demo /\ Sorted account_le accounts.
Proof.
  assert (length (user_rows shown_users.1) = 3%nat) as Hn by (rewrite shown_users_rows; reflexivity).
  destruct shown_users as [[items|e] n'] eqn:E; [|discriminate Hn]. exists items, n'. split; [reflexivity|].
  split; [cbn in Hn; rewrite length_fmap in Hn; exact Hn|].
  destruct (listed_users admin_service operator list_world 0%nat items n' eq_refl E)
    as (_ & k1 & k2 & k3 & _ & _ & _ & _ & accounts & Hp & Hs & _). exists accounts. split; [exact Hp|exact Hs].
Defined.
