(* ===== verification/TwinDemo.v ===== *)
(** * The Digital Twin theorems at work

    The tables after the demonstration message was committed, read by a member
    and by a stranger, and the query texts of a client. *)

From S2P Require Import Prelude GoStrings GoTime GoFloat GoJson Identity Urn Uuid Telemetry.
From S2P Require Import Validation Message Txn Store Persist PersistSpec IngressDemo.
From S2P Require Import HistoryQuery HistoryStore ReadWorld History HistoryRepo HistorySpec HistoryServiceSpec HistoryData HistoryDemo.
From S2P Require Import TwinModel QueryParser QueryParserSpec Cursor TwinValidation.
From S2P Require Import TwinStore TwinReader TwinService TwinTemporal TwinServiceSpec TwinPages TemporalSpec.
Import Canonical Demo.
#[local] Open Scope Z_scope.

#[local] Existing Instance demo_sql.
#[local] Existing Instance demo_sql_laws.

(** A rendering of every object, and the least of some texts. *)
#[local] Instance demo_text : JsonbText := fun _ => "{}".
#[local] Instance demo_min : TextMin := fun l => match l with [] => None | u :: _ => Some u end.

#[local] Instance demo_min_law : TextMinLaw.
Proof. intros [|u l]; [reflexivity|apply list_elem_of_here]. Qed.

Definition demo_twins : TwinReadService := deployed_twins DefaultTwinConfig DefaultHistoryConfig.

Lemma demo_composed : composeTwinReads DefaultTwinConfig DefaultHistoryConfig = Ok demo_twins.
Proof. vm_compute. reflexivity. Qed.

Definition gateway_urn : string := "urn:ngsi-ld:Gateway:gw-1".
Definition sensor_urn : string := "urn:ngsi-ld:Sensor:gw-1:s_1".

Definition demo_list (limit : Z) : TwinListQuery := mkListQuery None None limit None.
Definition demo_intervals (r : Resolution) : TwinHistoryQuery :=
  mkTwinHistoryQuery sensor_urn SelectorSampleIntervalUS demo_span r 100 0.

Definition names_shown (r : res herror TwinListResult) : res herror (list string) :=
  match r with Ok a => Ok (ts_ID <$> lr_Items a) | Err e => Err e end.

Example list_all : names_shown (ListTwins demo_twins member (demo_list 10) still_world 0%nat).1
  = Ok [gateway_urn; sensor_urn].
Proof. vm_compute. reflexivity. Qed.

Example list_page_of_one : names_shown (ListTwins demo_twins member (demo_list 1) still_world 0%nat).1 = Ok [gateway_urn].
Proof. vm_compute. reflexivity. Qed.

Example list_stranger : names_shown (ListTwins demo_twins stranger (demo_list 10) still_world 0%nat).1 = Ok [].
Proof. vm_compute. reflexivity. Qed.

Definition intervals_shown (r : res herror (TwinHistoryResult cuuid)) : res herror (string * option string * Z) :=
  match r with Ok a => Ok (thr_Mode a, thr_Unit a, thr_PointCount a) | Err e => Err e end.

Example intervals_raw :
  intervals_shown (GetTwinHistory demo_twins member (demo_intervals ResolutionRaw) still_world 0%nat).1
  = Ok ("raw", Some "us", 1).
Proof. vm_compute. reflexivity. Qed.

Example intervals_stranger :
  intervals_shown (GetTwinHistory demo_twins stranger (demo_intervals ResolutionRaw) still_world 0%nat).1
  = Err (HTwin ErrNotFound).
Proof. vm_compute. reflexivity. Qed.


(** ** The theorems on these inputs *)

Lemma twin_reads_refine_witness :
  (ListTwins demo_twins member (demo_list 1) still_world 0%nat).1
  = list_spec DefaultTwinConfig member (demo_list 1) demo_history.
Proof.
  exact (proj1 (twin_reads_refine DefaultTwinConfig DefaultHistoryConfig demo_twins member still_world demo_history 0%nat
    demo_composed still) (demo_list 1)).
Defined.

Lemma twin_reads_sound_witness : exists a n',
  ListTwins demo_twins member (demo_list 10) still_world 0%nat = (Ok a, n')
  /\ length (lr_Items a) = 2%nat
  /\ exists k, Forall (fun i => (member, ts_GatewayID i) ∈ user_gateways (store_at still_world k)) (lr_Items a).
Proof.
  assert (Hok : names_shown (ListTwins demo_twins member (demo_list 10) still_world 0%nat).1 = Ok [gateway_urn; sensor_urn])
    by (vm_compute; reflexivity).
  destruct (ListTwins demo_twins member (demo_list 10) still_world 0%nat) as [[a|e] n'] eqn:E; [|discriminate Hok].
  exists a, n'. split; [reflexivity|]. split.
  - injection Hok as Hok. apply (f_equal length) in Hok. rewrite length_fmap in Hok. exact Hok.
  - destruct (twin_reads_sound DefaultTwinConfig DefaultHistoryConfig demo_twins member still_world 0%nat n'
      demo_composed) as [H _].
    destruct (H (demo_list 10) a E) as (_ & k & _ & _ & Hm). exists k. exact Hm.
Defined.

Lemma demo_names_unique : NoDup (e_entity_id <$> twin_entities (store demo_history)).
Proof. vm_compute. repeat constructor; intros H; repeat (apply elem_of_cons in H as [H|H]; [discriminate H|]); by apply not_elem_of_nil in H. Qed.

Lemma demo_gateway_name : names gateway_urn (Urn.mkIdentity EntityTypeGateway "gw-1" "" gateway_urn).
Proof. apply parse_urn_names. vm_compute. reflexivity. Qed.

Lemma demo_sensor_name : names sensor_urn (Urn.mkIdentity EntityTypeSensor "gw-1" "s_1" sensor_urn).
Proof. apply parse_urn_names. vm_compute. reflexivity. Qed.

Lemma demo_canonical : canonical_entities demo_history.
Proof.
  split; [|exact demo_names_unique]. intros e g He Hg _.
  assert (twin_entities (store demo_history) = twin_entities demo_db) as E by (vm_compute; reflexivity).
  rewrite E in He. unfold demo_db in He. cbn [twin_entities] in He.
  apply elem_of_cons in He as [->|He]; [|apply list_elem_of_singleton in He as ->]; injection Hg as <-.
  - exists (Urn.mkIdentity EntityTypeGateway "gw-1" "" gateway_urn). split; [exact demo_gateway_name|by split].
  - exists (Urn.mkIdentity EntityTypeSensor "gw-1" "s_1" sensor_urn). split; [exact demo_sensor_name|by split].
Qed.

Lemma list_walk_complete_witness : exists es : list (TwinEntity cuuid),
  es ≡ₚ filter (listed member None None None demo_history) (twin_entities (store demo_history))
  /\ walk (S (length es)) demo_twins member (demo_list 1) still_world 0%nat = Some (Ok (list_item demo_history <$> es)).
Proof.
  assert (Ha : member <> uuid_Nil) by (intros E; apply (f_equal text) in E; discriminate E).
  assert (Hq : ValidateTwinListQuery (demo_list 1) (tb_ListMaxLimit DefaultTwinConfig) = None)
    by (vm_compute; reflexivity).
  destruct (list_walk_complete DefaultTwinConfig DefaultHistoryConfig demo_twins member (demo_list 1) still_world demo_history
    0%nat demo_composed still demo_canonical Ha Hq eq_refl) as (es & Hp & _ & Hw).
  exists es. split; [exact Hp|exact Hw].
Defined.

Definition demo_intervals_stored : list (TemporalRow cuuid) :=
  observations sensor_entity "sample_interval_us" (micros (rng_From demo_span)) (micros (rng_To demo_span)) demo_history.

Lemma classifyTemporalWindow_spec_witness : demo_intervals_stored <> [] /\ Forall interval_row demo_intervals_stored.
Proof.
  assert (Hne : demo_intervals_stored <> []) by (intros E; vm_compute in E; discriminate E).
  split; [exact Hne|].
  refine (proj1 (proj1 (classifyTemporalWindow_spec demo_intervals_stored Hne
    (mkClassification "number" (Some "us") true 1)) _)). vm_compute. reflexivity.
Defined.

Lemma ingested_windows_accepted_witness : intervals_stored demo_run.2.
Proof.
  refine (proj1 (ingested_windows_accepted demo_sky true demo_message demo_db demo_run.1 demo_run.2
    (surjective_pairing demo_run) _)).
  intros r Hr. apply not_elem_of_nil in Hr. destruct Hr.
Defined.

Lemma interval_history_complete_witness : exists a n',
  GetTwinHistory demo_twins member (demo_intervals ResolutionRaw) still_world 0%nat = (Ok a, n')
  /\ exists k src, e_entity_id src = sensor_urn
       /\ lists_all (asked (demo_intervals ResolutionRaw) src (store_at still_world k)) a.
Proof.
  assert (Hok : is_ok (GetTwinHistory demo_twins member (demo_intervals ResolutionRaw) still_world 0%nat).1 = true)
    by (vm_compute; reflexivity).
  destruct (GetTwinHistory demo_twins member (demo_intervals ResolutionRaw) still_world 0%nat) as [[a|e] n'] eqn:E;
    [|discriminate Hok].
  exists a, n'. split; [reflexivity|].
  destruct (interval_history_complete DefaultTwinConfig DefaultHistoryConfig demo_twins member (demo_intervals ResolutionRaw)
    still_world 0%nat a n' demo_composed (fun _ => demo_names_unique) eq_refl E) as (_ & k & src & _ & _ & Hu & _ & Hl & _).
  exists k, src. split; [exact Hu|exact Hl].
Defined.

(** ** Query texts *)

Definition demo_parser : HistoryQueryParser := mkHistoryQueryParser DefaultHistoryConfig.

Lemma demo_parser_ok : NewHistoryQueryParser (Some DefaultHistoryConfig) = Ok demo_parser.
Proof. vm_compute. reflexivity. Qed.

Lemma demo_query_fits : check_query (ToTelemetryPreparationConfig DefaultHistoryConfig) (demo_query ResolutionAuto) = None.
Proof. vm_compute. reflexivity. Qed.

Lemma accepted_query_parsed_witness :
  ParseTelemetryHistoryQuery demo_parser (query_text (demo_query ResolutionAuto)) = Ok (demo_query ResolutionAuto).
Proof.
  exact (accepted_query_parsed DefaultHistoryConfig demo_parser (demo_query ResolutionAuto) demo_parser_ok demo_query_fits
    eq_refl eq_refl).
Defined.

Lemma parsed_query_accepted_witness :
  ParseTelemetryHistoryQuery demo_parser (query_text (demo_query ResolutionAuto)) = Ok (demo_query ResolutionAuto)
  /\ loc_off (rng_From (hq_Range (demo_query ResolutionAuto))) = 0.
Proof.
  assert (E : ParseTelemetryHistoryQuery demo_parser (query_text (demo_query ResolutionAuto)) = Ok (demo_query ResolutionAuto))
    by (vm_compute; reflexivity).
  split; [exact E|].
  exact (proj1 (proj2 (parsed_query_accepted DefaultHistoryConfig demo_parser _ _ demo_parser_ok E))).
Defined.
