(* ===== verification/Credential.v ===== *)
(** * MQTT credentials: the operation model

    [mqttcredential/model.go], [reset_contract.go], [secret.go], the comparison
    of completions in [postgres_finalization.go], and the inspection of
    admission errors in [service.go].  A Go type over [string] is an inductive
    type of its constants and any other text; every [Validate] answers
    [CodeInvalidRequest], so it is the boolean "no error".  Instants are
    nanoseconds; the tables keep microseconds. *)

From S2P Require Import Prelude GoStrings GoTime GoFloat GoJson Uuid Identity Telemetry HistoryQuery Cursor.
#[local] Open Scope Z_scope.

(** ** Text types *)

Inductive Action :=
| ActionProvision | ActionRotate | ActionRevoke | ActionReset | ActionOther (text : string).

Inductive ExecutionContract :=
| ContractLifecycle | ContractSimplified | ContractOther (text : string).

Inductive CredentialStatus :=
| CredentialProvisioning | CredentialActive | CredentialRotating | CredentialRevoking | CredentialRevoked
| CredentialFailed | CredentialRecoveryNeeded | CredentialOther (text : string).

Inductive OperationStatus :=
| OperationPending | OperationSucceeded | OperationFailed | OperationRecoveryNeeded
| OperationResolvedByRecovery | OperationOther (text : string).

Inductive OperationPhase :=
| PhaseIntent | PhaseDynSecMutation | PhaseSnapshotReadback | PhaseFinalize | PhaseRecovery
| PhaseOther (text : string).

Inductive DeliveryStatus := DeliveryUnknown | DeliveryDeviceUpdated | DeliveryOther (text : string).

Inductive ExecutionOutcome :=
| ExecutionVerifiedSuccess | ExecutionUnchangedFailure | ExecutionRecoveryRequired | ExecutionMaintenanceClosed.

Inductive ResetReason :=
| ResetReasonRecoveryAfterUnknown | ResetReasonLostSecretRecovery | ResetReasonOther (text : string).

Inductive ErrorCode :=
| CodeInvalidRequest | CodeForbidden | CodeNotFound | CodeCredentialConflict | CodeOperationInProgress
| CodeIdempotencyConflict | CodeRuntimeDisabled | CodeRuntimeBusy | CodeVerificationUnavailable
| CodeRecoveryRequired | CodeFinalizationPending | CodeServiceUnavailable | CodeInternalError
| CodeOther (text : string).

#[export] Instance Action_eq_dec : EqDecision Action.
Proof. solve_decision. Defined.
#[export] Instance ExecutionContract_eq_dec : EqDecision ExecutionContract.
Proof. solve_decision. Defined.
#[export] Instance CredentialStatus_eq_dec : EqDecision CredentialStatus.
Proof. solve_decision. Defined.
#[export] Instance OperationStatus_eq_dec : EqDecision OperationStatus.
Proof. solve_decision. Defined.
#[export] Instance OperationPhase_eq_dec : EqDecision OperationPhase.
Proof. solve_decision. Defined.
#[export] Instance DeliveryStatus_eq_dec : EqDecision DeliveryStatus.
Proof. solve_decision. Defined.
#[export] Instance ExecutionOutcome_eq_dec : EqDecision ExecutionOutcome.
Proof. solve_decision. Defined.
#[export] Instance ResetReason_eq_dec : EqDecision ResetReason.
Proof. solve_decision. Defined.
#[export] Instance ErrorCode_eq_dec : EqDecision ErrorCode.
Proof. solve_decision. Defined.

(** The ordinary mutations; a reset has an input of its own. *)
Definition Action_Validate (a : Action) : bool :=
  match a with ActionProvision | ActionRotate | ActionRevoke => true | _ => false end.

Definition ExecutionContract_Validate (c : ExecutionContract) : bool :=
  match c with ContractLifecycle | ContractSimplified => true | _ => false end.

Definition CredentialStatus_Validate (s : CredentialStatus) : bool :=
  match s with CredentialOther _ => false | _ => true end.

Definition OperationStatus_Validate (s : OperationStatus) : bool :=
  match s with
  | OperationPending | OperationSucceeded | OperationFailed | OperationRecoveryNeeded => true
  | _ => false
  end.

Definition OperationPhase_Validate (p : OperationPhase) : bool :=
  match p with PhaseOther _ => false | _ => true end.

Definition DeliveryStatus_Validate (s : DeliveryStatus) : bool :=
  match s with DeliveryOther _ => false | _ => true end.

Definition ResetReason_Validate (r : ResetReason) : bool :=
  match r with ResetReasonOther _ => false | _ => true end.

(** ** Instants *)

Definition zero_instant : Z := unix_ns zero_time.

(** [t.UTC().Truncate(time.Microsecond)], and what a [TIMESTAMPTZ] keeps of an
    instant. *)
Definition micros (t : Z) : Z := unix_ns (Truncate (mkTime t 0) 1000).

#[global] Arguments micros : simpl never.
#[global] Arguments zero_instant : simpl never.

(** ** Records *)

(** Observations made for one operation. *)
Record VerificationEvidence := mkEvidence {
  RAMApplied : bool;
  SnapshotObserved : bool;
  FreshPositiveVerified : bool;
}.

Definition no_evidence : VerificationEvidence := mkEvidence false false false.

#[export] Instance VerificationEvidence_eq_dec : EqDecision VerificationEvidence.
Proof. solve_decision. Defined.

(** The projection of a Gateway's credential as it was before an intent. *)
Record CredentialSnapshot := mkSnapshot {
  s_Status : CredentialStatus;
  s_CredentialVersion : Z;
  s_ActivatedAt : option Z;
  s_RevokedAt : option Z;
}.

#[export] Instance CredentialSnapshot_eq_dec : EqDecision CredentialSnapshot.
Proof. solve_decision. Defined.

Record MutationInput {uuid : Type} := mkMutationInput {
  mi_GatewayID : string;
  mi_IdempotencyKey : uuid;
  mi_Action : Action;
}.
Arguments MutationInput : clear implicits.
Arguments mkMutationInput {uuid}.

Record ResetInput {uuid : Type} := mkResetInput {
  ri_GatewayID : string;
  ri_IdempotencyKey : uuid;
  ri_Reason : ResetReason;
}.
Arguments ResetInput : clear implicits.
Arguments mkResetInput {uuid}.

(** An audited operation.  [uuid_Nil] is a missing identity. *)
Record Operation {uuid : Type} := mkOperation {
  o_OperationID : uuid;
  o_ActorUserID : uuid;
  o_GatewayID : string;
  o_IdempotencyKey : uuid;
  o_Action : Action;
  o_CredentialVersion : Z;
  o_Status : OperationStatus;
  o_Phase : OperationPhase;
  o_Evidence : VerificationEvidence;
  o_DeliveryStatus : DeliveryStatus;
  o_CreatedAt : Z;
  o_UpdatedAt : Z;
  o_CompletedAt : option Z;
  o_Previous : option CredentialSnapshot;
  o_ErrorCode : option ErrorCode;
  o_RecoveryID : option uuid;
  o_ReplacementPredecessorID : option uuid;
  o_ExecutionContract : ExecutionContract;
  o_ResetPredecessorID : option uuid;
  o_ResetReason : option ResetReason;
}.
Arguments Operation : clear implicits.
Arguments mkOperation {uuid}.

(** The current projection with the status of its last operation. *)
Record Metadata {uuid : Type} := mkMetadata {
  m_GatewayID : string;
  m_Username : string;
  m_CredentialVersion : Z;
  m_Status : CredentialStatus;
  m_LastOperationID : uuid;
  m_OperationStatus : OperationStatus;
  m_ActivatedAt : option Z;
  m_RevokedAt : option Z;
  m_LastErrorCode : option ErrorCode;
}.
Arguments Metadata : clear implicits.
Arguments mkMetadata {uuid}.

(** The answer of a mutation without its secret. *)
Record MutationResult {uuid : Type} := mkMutationResult {
  mr_Metadata : Metadata uuid;
  mr_OperationID : uuid;
  mr_SecretReturned : bool;
  mr_NextAction : string;
  mr_ReplayedStatus : OperationStatus;
  mr_ErrorCode : option ErrorCode;
}.
Arguments MutationResult : clear implicits.
Arguments mkMutationResult {uuid}.

(** A proposed event and projection, written together. *)
Record Completion {uuid : Type} := mkCompletion {
  c_Operation : Operation uuid;
  c_Credential : CredentialSnapshot;
}.
Arguments Completion : clear implicits.
Arguments mkCompletion {uuid}.

Section credential.
Context {uuid : Type} `{U : UuidLib uuid}.
Implicit Types (o : Operation uuid) (m current : Metadata uuid) (actor : uuid).

#[export] Instance Operation_eq_dec : EqDecision (Operation uuid).
Proof. solve_decision. Defined.
#[export] Instance Metadata_eq_dec : EqDecision (Metadata uuid).
Proof. solve_decision. Defined.
#[export] Instance MutationResult_eq_dec : EqDecision (MutationResult uuid).
Proof. solve_decision. Defined.
#[export] Instance Completion_eq_dec : EqDecision (Completion uuid).
Proof. solve_decision. Defined.

(** The zero values. *)
Definition zero_operation : Operation uuid :=
  mkOperation uuid_Nil uuid_Nil "" uuid_Nil (ActionOther "") 0 (OperationOther "") (PhaseOther "") no_evidence
    (DeliveryOther "") zero_instant zero_instant None None None None None (ContractOther "") None None.
Definition zero_metadata : Metadata uuid :=
  mkMetadata "" "" 0 (CredentialOther "") uuid_Nil (OperationOther "") None None None.

(** ** Validation *)

Definition valid_gateway (g : string) : bool := bool_decide (ValidateGatewayID g = None).

Definition ValidateMutationInput actor (input : MutationInput uuid) : bool :=
  negb (bool_decide (actor = uuid_Nil)) && negb (bool_decide (mi_IdempotencyKey input = uuid_Nil))
  && valid_gateway (mi_GatewayID input) && Action_Validate (mi_Action input).

Definition ValidateResetInput actor (input : ResetInput uuid) : bool :=
  negb (bool_decide (actor = uuid_Nil)) && negb (bool_decide (ri_IdempotencyKey input = uuid_Nil))
  && valid_gateway (ri_GatewayID input) && ResetReason_Validate (ri_Reason input).

(** The identity of a manual replacement. *)
Definition replacement_valid o : bool :=
  match o_ReplacementPredecessorID o with
  | None => true
  | Some p => negb (bool_decide (p = uuid_Nil)) && negb (bool_decide (p = o_OperationID o))
              && bool_decide (o_Action o = ActionRotate)
  end.

(** The contract, the reset columns and the input they stand for. *)
Definition action_valid o : bool :=
  if bool_decide (o_Action o = ActionReset) then
    bool_decide (o_ExecutionContract o = ContractSimplified)
    && match o_ResetPredecessorID o, o_ResetReason o with
       | Some p, Some reason =>
           negb (bool_decide (p = uuid_Nil)) && negb (bool_decide (p = o_OperationID o))
           && ResetReason_Validate reason
           && bool_decide (o_RecoveryID o = None) && bool_decide (o_ReplacementPredecessorID o = None)
           && ValidateResetInput (o_OperationID o) (mkResetInput (o_GatewayID o) (o_IdempotencyKey o) reason)
       | _, _ => false
       end
  else
    bool_decide (o_ResetPredecessorID o = None) && bool_decide (o_ResetReason o = None)
    && ValidateMutationInput (o_OperationID o)
         (mkMutationInput (o_GatewayID o) (o_IdempotencyKey o) (o_Action o)).

Definition settled (s : OperationStatus) : bool :=
  match s with OperationSucceeded | OperationFailed => true | _ => false end.

Definition unresolved (s : OperationStatus) : bool :=
  match s with OperationPending | OperationRecoveryNeeded => true | _ => false end.

(** [CompletedAt] is set exactly on a settled operation, and not before its
    creation. *)
Definition completion_time_valid o : bool :=
  match o_CompletedAt o with
  | None => negb (settled (o_Status o))
  | Some at_ => settled (o_Status o) && negb (at_ =? zero_instant) && (o_CreatedAt o <=? at_)
  end.

(** What a success must have observed. *)
Definition evidence_suffices (contract : ExecutionContract) (a : Action) (e : VerificationEvidence) : bool :=
  RAMApplied e
  && (bool_decide (contract = ContractSimplified) || SnapshotObserved e)
  && (bool_decide (a = ActionRevoke) || FreshPositiveVerified e).

Definition ValidateHistorical o : bool :=
  negb (bool_decide (o_OperationID o = uuid_Nil)) && replacement_valid o
  && (bool_decide (o_ExecutionContract o = ContractOther "") || ExecutionContract_Validate (o_ExecutionContract o))
  && action_valid o
  && OperationStatus_Validate (o_Status o) && OperationPhase_Validate (o_Phase o)
  && DeliveryStatus_Validate (o_DeliveryStatus o)
  && match o_RecoveryID o with
     | None => true
     | Some r => negb (bool_decide (r = uuid_Nil)) && unresolved (o_Status o)
     end
  && (0 <? o_CredentialVersion o) && completion_time_valid o
  && (negb (bool_decide (o_Status o = OperationSucceeded))
      || evidence_suffices (o_ExecutionContract o) (o_Action o) (o_Evidence o))
  && match o_Previous o with
     | None => true
     | Some p => (0 <? s_CredentialVersion p) && CredentialStatus_Validate (s_Status p)
     end.

Definition Operation_Validate o : bool :=
  negb (bool_decide (o_ActorUserID o = uuid_Nil)) && ValidateHistorical o.

Definition Terminal o : bool := settled (o_Status o) || bool_decide (is_Some (o_RecoveryID o)).

(** ** Versions and the status of a new intent *)

(** A new generation, under the lock of the Gateway's row. *)
Definition AllocateVersion (metadataVersion maxAttemptedVersion : Z) : res ErrorCode Z :=
  if (metadataVersion <? 0) || (maxAttemptedVersion <? 0) then Err CodeInvalidRequest
  else
    let maximum := Z.max metadataVersion maxAttemptedVersion in
    if maximum =? max_int64 then Err CodeInvalidRequest else Ok (maximum + 1).

(** [current] is the empty text where there is no projection. *)
Definition no_credential : CredentialStatus := CredentialOther "".

Definition BeginCredentialStatus (current : CredentialStatus) (action : Action) : res ErrorCode CredentialStatus :=
  if negb (Action_Validate action)
     || (negb (bool_decide (current = no_credential)) && negb (CredentialStatus_Validate current))
  then Err CodeInvalidRequest
  else match current, action with
  | CredentialRecoveryNeeded, _ => Err CodeRecoveryRequired
  | (CredentialProvisioning | CredentialRotating | CredentialRevoking), _ => Err CodeOperationInProgress
  | (CredentialOther _ | CredentialRevoked | CredentialFailed), ActionProvision => Ok CredentialProvisioning
  | CredentialActive, ActionRotate => Ok CredentialRotating
  | CredentialActive, ActionRevoke => Ok CredentialRevoking
  | _, _ => Err CodeCredentialConflict
  end.

(** ** Completion *)

(** The assignments to [Status], [Phase], [CompletedAt], [ErrorCode],
    [Evidence] and [UpdatedAt]. *)
Definition update_operation o (status : OperationStatus) (phase : OperationPhase) (completed : option Z)
    (code : option ErrorCode) (e : VerificationEvidence) (updated : Z) : Operation uuid :=
  mkOperation (o_OperationID o) (o_ActorUserID o) (o_GatewayID o) (o_IdempotencyKey o) (o_Action o)
    (o_CredentialVersion o) status phase e (o_DeliveryStatus o) (o_CreatedAt o) updated completed
    (o_Previous o) code (o_RecoveryID o) (o_ReplacementPredecessorID o) (o_ExecutionContract o)
    (o_ResetPredecessorID o) (o_ResetReason o).

(** The previous projection the action admits. *)
Definition previous_admits o : bool :=
  match o_Previous o with
  | None => bool_decide (o_Action o = ActionProvision)
  | Some p =>
      (bool_decide (o_Action o = ActionProvision) || bool_decide (s_Status p = CredentialActive)
       || bool_decide (is_Some (o_ReplacementPredecessorID o)) || bool_decide (o_Action o = ActionReset))
      && (negb (bool_decide (o_Action o = ActionProvision))
          || bool_decide (s_Status p = CredentialRevoked) || bool_decide (s_Status p = CredentialFailed))
      && (if bool_decide (o_Action o = ActionRevoke)
          then o_CredentialVersion o =? s_CredentialVersion p
          else s_CredentialVersion p <? o_CredentialVersion o)
  end.

Definition merge_evidence (e f : VerificationEvidence) : VerificationEvidence :=
  mkEvidence (RAMApplied e || RAMApplied f) (SnapshotObserved e || SnapshotObserved f)
    (FreshPositiveVerified e || FreshPositiveVerified f).

Definition CompleteOperation o (outcome : ExecutionOutcome) (evidence : VerificationEvidence) (at_ : Z)
    : res ErrorCode (Completion uuid) :=
  if negb (ValidateHistorical o) || Terminal o || (at_ =? zero_instant) || (at_ <? o_CreatedAt o)
     || (at_ <? o_UpdatedAt o) || negb (previous_admits o)
  then Err CodeInvalidRequest
  else
    let state := default (mkSnapshot (CredentialOther "") (o_CredentialVersion o) None None) (o_Previous o) in
    match outcome with
    | ExecutionVerifiedSuccess =>
        if negb (evidence_suffices (o_ExecutionContract o) (o_Action o) evidence) then Err CodeInvalidRequest
        else Ok (mkCompletion
          (update_operation o OperationSucceeded PhaseFinalize (Some at_) None evidence at_)
          (if bool_decide (o_Action o = ActionRevoke)
           then mkSnapshot CredentialRevoked (o_CredentialVersion o) (s_ActivatedAt state) (Some at_)
           else mkSnapshot CredentialActive (o_CredentialVersion o) (Some at_) None))
    | ExecutionUnchangedFailure =>
        if negb (bool_decide (o_Status o = OperationPending)) || negb (bool_decide (o_Evidence o = no_evidence))
           || negb (bool_decide (evidence = no_evidence))
        then Err CodeInvalidRequest
        else Ok (mkCompletion
          (update_operation o OperationFailed PhaseFinalize (Some at_) (o_ErrorCode o) evidence at_)
          (match o_Previous o with
           | Some p => p
           | None => mkSnapshot CredentialFailed (s_CredentialVersion state) (s_ActivatedAt state) (s_RevokedAt state)
           end))
    | ExecutionRecoveryRequired =>
        Ok (mkCompletion
          (update_operation o OperationRecoveryNeeded PhaseRecovery None (o_ErrorCode o)
             (merge_evidence evidence (o_Evidence o)) at_)
          (mkSnapshot CredentialRecoveryNeeded (s_CredentialVersion state) (s_ActivatedAt state) (s_RevokedAt state)))
    | ExecutionMaintenanceClosed => Err CodeInvalidRequest
    end.

Definition canonicalSnapshot (s : CredentialSnapshot) : CredentialSnapshot :=
  mkSnapshot (s_Status s) (s_CredentialVersion s) (micros <$> s_ActivatedAt s) (micros <$> s_RevokedAt s).

Definition canonical_operation o : Operation uuid :=
  mkOperation (o_OperationID o) (o_ActorUserID o) (o_GatewayID o) (o_IdempotencyKey o) (o_Action o)
    (o_CredentialVersion o) (o_Status o) (o_Phase o) (o_Evidence o) (o_DeliveryStatus o)
    (micros (o_CreatedAt o)) (micros (o_UpdatedAt o)) (micros <$> o_CompletedAt o)
    (canonicalSnapshot <$> o_Previous o) (o_ErrorCode o) (o_RecoveryID o) (o_ReplacementPredecessorID o)
    (o_ExecutionContract o) (o_ResetPredecessorID o) (o_ResetReason o).

Definition sameCompletion (a b : Completion uuid) : bool :=
  bool_decide (canonical_operation (c_Operation a) = canonical_operation (c_Operation b))
  && bool_decide (canonicalSnapshot (c_Credential a) = canonicalSnapshot (c_Credential b)).

(** ** Replays *)

Definition next_action (from_rotation : bool) (current : CredentialStatus) : string :=
  if from_rotation && negb (bool_decide (current = CredentialRevoked)) then "rotate_with_new_idempotency_key"
  else if bool_decide (current = CredentialRevoked) then "provision_with_new_idempotency_key"
  else "".

Definition ReplayOperation o actor (input : MutationInput uuid) current : res ErrorCode (MutationResult uuid) :=
  if negb (ValidateMutationInput actor input) then Err CodeInvalidRequest
  else if negb (bool_decide (o_ActorUserID o = actor)) || negb (bool_decide (o_IdempotencyKey o = mi_IdempotencyKey input))
          || negb (bool_decide (o_GatewayID o = mi_GatewayID input)) || negb (bool_decide (o_Action o = mi_Action input))
  then Err CodeIdempotencyConflict
  else if negb (Operation_Validate o) then Err CodeInvalidRequest
  else if bool_decide (is_Some (o_RecoveryID o)) then
    if negb (bool_decide (m_GatewayID current = o_GatewayID o)) then Err CodeInvalidRequest
    else Ok (mkMutationResult current (o_OperationID o) false "provision_with_new_idempotency_key"
               OperationResolvedByRecovery None)
  else match o_Status o with
  | OperationPending => Err CodeOperationInProgress
  | OperationRecoveryNeeded => Err CodeRecoveryRequired
  | status =>
      if negb (bool_decide (m_GatewayID current = o_GatewayID o)) then Err CodeInvalidRequest
      else Ok (mkMutationResult current (o_OperationID o) false
                 (next_action (bool_decide (status = OperationSucceeded) && negb (bool_decide (o_Action o = ActionRevoke)))
                    (m_Status current))
                 status (o_ErrorCode o))
  end.

Definition replayResetOperation o actor (input : ResetInput uuid) current : res ErrorCode (MutationResult uuid) :=
  if negb (ValidateResetInput actor input) then Err CodeInvalidRequest
  else if negb (bool_decide (o_ActorUserID o = actor)) || negb (bool_decide (o_IdempotencyKey o = ri_IdempotencyKey input))
          || negb (bool_decide (o_GatewayID o = ri_GatewayID input)) || negb (bool_decide (o_Action o = ActionReset))
          || negb (bool_decide (o_ResetReason o = Some (ri_Reason input)))
  then Err CodeIdempotencyConflict
  else if negb (Operation_Validate o) then Err CodeInvalidRequest
  else match o_Status o with
  | OperationPending => Err CodeOperationInProgress
  | OperationRecoveryNeeded => Err CodeRecoveryRequired
  | status =>
      if negb (bool_decide (m_GatewayID current = o_GatewayID o)) then Err CodeInvalidRequest
      else Ok (mkMutationResult current (o_OperationID o) false
                 (next_action (bool_decide (status = OperationSucceeded)) (m_Status current)) status (o_ErrorCode o))
  end.

(** ** Resets *)

Definition transient (s : CredentialStatus) : bool :=
  match s with CredentialProvisioning | CredentialRotating | CredentialRevoking => true | _ => false end.

Definition CheckResetEligibility current o (reason : ResetReason) : option ErrorCode :=
  if negb (ResetReason_Validate reason) then Some CodeInvalidRequest
  else if bool_decide (o_OperationID o = uuid_Nil) || bool_decide (m_LastOperationID current = uuid_Nil)
  then Some CodeInvalidRequest
  else if negb (bool_decide (m_LastOperationID current = o_OperationID o))
          || negb (bool_decide (m_GatewayID current = o_GatewayID o))
          || negb (bool_decide (m_OperationStatus current = o_Status o))
  then Some CodeCredentialConflict
  else
    let expectedVersion :=
      match o_Status o, o_Previous o with
      | OperationRecoveryNeeded, Some p => s_CredentialVersion p
      | _, _ => o_CredentialVersion o
      end in
    if negb (m_CredentialVersion current =? expectedVersion) then Some CodeCredentialConflict
    else if negb (ValidateHistorical o) then Some CodeInvalidRequest
    else if bool_decide (is_Some (o_RecoveryID o)) then Some CodeCredentialConflict
    else match reason with
    | ResetReasonRecoveryAfterUnknown =>
        if negb (unresolved (o_Status o)) then Some CodeCredentialConflict
        else if transient (m_Status current) || bool_decide (m_Status current = CredentialRecoveryNeeded) then None
        else Some CodeCredentialConflict
    | ResetReasonLostSecretRecovery =>
        if negb (bool_decide (o_Status o = OperationSucceeded))
           || negb (bool_decide (o_Action o = ActionProvision) || bool_decide (o_Action o = ActionRotate)
                    || bool_decide (o_Action o = ActionReset))
        then Some CodeCredentialConflict
        else if negb (bool_decide (m_Status current = CredentialActive))
                || negb (bool_decide (m_OperationStatus current = OperationSucceeded)) then Some CodeCredentialConflict
        else None
    | ResetReasonOther _ => Some CodeInvalidRequest
    end.

(** ** Metadata *)

Definition validSimplifiedMetadata m (g : string) : bool :=
  bool_decide (m_GatewayID m = g) && bool_decide (m_Username m = g) && (0 <? m_CredentialVersion m)
  && negb (bool_decide (m_LastOperationID m = uuid_Nil)) && CredentialStatus_Validate (m_Status m)
  && OperationStatus_Validate (m_OperationStatus m).

Definition canonical_metadata m : Metadata uuid :=
  mkMetadata (m_GatewayID m) (m_Username m) (m_CredentialVersion m) (m_Status m) (m_LastOperationID m)
    (m_OperationStatus m) (micros <$> m_ActivatedAt m) (micros <$> m_RevokedAt m) (m_LastErrorCode m).

Definition sameSimplifiedMetadata (a b : Metadata uuid) : bool :=
  bool_decide (canonical_metadata a = canonical_metadata b).

Definition metadata_snapshot m : CredentialSnapshot :=
  mkSnapshot (m_Status m) (m_CredentialVersion m) (m_ActivatedAt m) (m_RevokedAt m).

End credential.

(** ** Errors *)

(** An error: a [*DomainError], a commit of unknown outcome, a driver's error, a
    typed nil, an error around another one, or several joined. *)
#[warnings="-register-all"]
Inductive cerror {uuid : Type} :=
| DomainError (code : ErrorCode)
| CommitOutcomeUnknown (operation : uuid)
| DriverError (c : cause)
| NilError
| WrapError (child : cerror)
| JoinError (children : list cerror).
Arguments cerror : clear implicits.

(** [errors.As(err, &d)] for a [*DomainError]; a commit of unknown outcome
    unwraps to [CodeFinalizationPending]. *)
Fixpoint as_domain {uuid} (err : cerror uuid) : option ErrorCode :=
  match err with
  | DomainError code => Some code
  | CommitOutcomeUnknown _ => Some CodeFinalizationPending
  | DriverError _ | NilError => None
  | WrapError child => as_domain child
  | JoinError children =>
      (fix first es := match es with
       | [] => None
       | e :: es' => match as_domain e with Some c => Some c | None => first es' end
       end) children
  end.

(** [errors.Is(err, pgx.ErrNoRows)] *)
Fixpoint is_no_rows {uuid} (err : cerror uuid) : bool :=
  match err with
  | DriverError c => bool_decide (c = ErrNoRows)
  | DomainError _ | CommitOutcomeUnknown _ | NilError => false
  | WrapError child => is_no_rows child
  | JoinError children => existsb is_no_rows children
  end.

Definition safeReadError {uuid} (err : cerror uuid) : cerror uuid :=
  if is_no_rows err then DomainError CodeNotFound else DomainError CodeServiceUnavailable.

Definition serviceError {uuid} (err : cerror uuid) : ErrorCode :=
  match as_domain err with Some code => code | None => CodeServiceUnavailable end.

(** ** Inspection of an admission error *)

Definition safe_code (code : ErrorCode) : bool :=
  match code with
  | CodeInvalidRequest | CodeForbidden | CodeNotFound | CodeCredentialConflict | CodeIdempotencyConflict
  | CodeOperationInProgress => true
  | _ => false
  end.

(** [traverse] of the source: the nodes still allowed and the first safe code;
    [None] once some node is not safe. *)
Fixpoint traverse {uuid} (curr : cerror uuid) (budget : nat) (first : option ErrorCode)
    : option (nat * option ErrorCode) :=
  match budget with
  | O => None
  | S budget =>
      match curr with
      | NilError | CommitOutcomeUnknown _ | DriverError _ => None
      | DomainError code =>
          if safe_code code then Some (budget, Some (default code first)) else None
      | WrapError child => traverse child budget first
      | JoinError children =>
          if (length children =? 0)%nat || (budget <? length children)%nat then None
          else (fix go es budget first := match es with
                | [] => Some (budget, first)
                | e :: es' =>
                    match traverse e budget first with
                    | Some (budget, first) => go es' budget first
                    | None => None
                    end
                end) children budget first
      end
  end.

Definition inspect_budget : nat := 64.

Definition inspectAdmissionError {uuid} (err : option (cerror uuid)) : bool * ErrorCode :=
  match err with
  | None | Some NilError => (false, CodeServiceUnavailable)
  | Some err =>
      match traverse err inspect_budget None with
      | Some (_, Some code) => (true, code)
      | _ => (false, CodeServiceUnavailable)
      end
  end.

(** ** Secrets *)

Definition validPassword (p : string) : bool :=
  (0 <? str_len p) && (str_len p <=? 4096)
  && negb (contains_byte (fun c => (byte_of c =? 13) || (byte_of c =? 10) || (byte_of c =? 0)) p).

(** [io.ReadFull] over a [secretProgressReader]: what each [Read] of the source
    gives and whether it reports an error; a read of nothing stops.  After the
    reads listed the source is at its end. *)
Fixpoint ReadFull (want : nat) (reads : list (string * bool)) : option string :=
  match want, reads with
  | O, _ => Some ""
  | _, [] => None
  | _, (chunk, failed) :: reads =>
      let chunk := String.substring 0 want chunk in
      if (String.length chunk =? 0)%nat then None
      else if (want <=? String.length chunk)%nat then Some chunk
      else if failed then None
      else rest ← ReadFull (want - String.length chunk) reads; Some (chunk +:+ rest)
  end.

(** [None]: a nil source. *)
Definition generatePasswordFrom (source : option (list (string * bool))) : res ErrorCode string :=
  match source with
  | None => Err CodeInternalError
  | Some reads =>
      match ReadFull 32 reads with
      | None => Err CodeInternalError
      | Some raw => Ok (EncodeToString raw)
      end
  end.

(** ** Facts *)

Lemma micros_le t : micros t <= t.
Proof. unfold micros, Truncate. cbn [unix_ns]. pose proof (Z.mod_pos_bound (t - unix_ns zero_time) 1000). lia. Qed.

Lemma micros_div t : micros t = zero_instant + 1000 * ((t - zero_instant) / 1000).
Proof. unfold micros, Truncate, zero_instant. cbn [unix_ns]. pose proof (Z.div_mod (t - unix_ns zero_time) 1000). lia. Qed.

Lemma micros_mono s t : s <= t -> micros s <= micros t.
Proof. intros H. rewrite !micros_div. pose proof (Z.div_le_mono (s - zero_instant) (t - zero_instant) 1000). lia. Qed.

Lemma micros_idem t : micros (micros t) = micros t.
Proof.
  rewrite (micros_div (micros t)), !(micros_div t). generalize zero_instant as z. intros z.
  replace (z + 1000 * ((t - z) / 1000) - z) with ((t - z) / 1000 * 1000) by lia.
  rewrite Z.div_mul by done. done.
Qed.

Lemma micros_zero t : zero_instant <= t -> zero_instant <= micros t.
Proof. intros H. rewrite micros_div. pose proof (Z.div_pos (t - zero_instant) 1000). lia. Qed.

(** * MQTT credentials: completions, admission errors and secrets

    What the pure functions of [Credential] promise: a completion keeps the
    identity and the observations of its operation and goes with one projection;
    the inspection of an admission error is the check of all its leaves. *)

(** ** Admission errors *)

(** The codes at the leaves, in order; [None] when some leaf has none. *)
Fixpoint leaves {uuid} (err : cerror uuid) : option (list ErrorCode) :=
  match err with
  | DomainError code => Some [code]
  | CommitOutcomeUnknown _ | DriverError _ | NilError => None
  | WrapError child => leaves child
  | JoinError [] => None
  | JoinError children =>
      (fix all es := match es with
       | [] => Some []
       | e :: es' => l ← leaves e; l' ← all es'; Some (l ++ l')
       end) children
  end.

Fixpoint nodes {uuid} (err : cerror uuid) : nat :=
  match err with
  | WrapError child => S (nodes child)
  | JoinError children => S ((fix sum es := match es with [] => O | e :: es' => (nodes e + sum es')%nat end) children)
  | _ => 1%nat
  end.

Section inspection.
Context {uuid : Type}.
Implicit Types (err : cerror uuid) (es : list (cerror uuid)).

Fixpoint leaves_all es : option (list ErrorCode) :=
  match es with [] => Some [] | e :: es' => l ← leaves e; l' ← leaves_all es'; Some (l ++ l') end.
Fixpoint nodes_all es : nat := match es with [] => O | e :: es' => (nodes e + nodes_all es')%nat end.
Fixpoint traverse_all es (budget : nat) (first : option ErrorCode) : option (nat * option ErrorCode) :=
  match es with
  | [] => Some (budget, first)
  | e :: es' => match traverse e budget first with
                | Some (budget, first) => traverse_all es' budget first
                | None => None
                end
  end.

Lemma cerror_ind' (P : cerror uuid -> Prop) :
  (forall c, P (DomainError c)) -> (forall id, P (CommitOutcomeUnknown id)) -> (forall c, P (DriverError c)) ->
  P NilError -> (forall e, P e -> P (WrapError e)) -> (forall es, Forall P es -> P (JoinError es)) -> forall err, P err.
Proof.
  intros Hd Hu Hc Hn Hw Hj. fix IH 1. intros [c|id|c| |e|es]; [apply Hd|apply Hu|apply Hc|apply Hn|apply Hw, IH|].
  apply Hj. induction es as [|e es IHes]; constructor; [apply IH|apply IHes].
Qed.

Lemma nodes_pos err : (1 <= nodes err)%nat.
Proof. destruct err; cbn; lia. Qed.

Lemma nodes_all_length es : (length es <= nodes_all es)%nat.
Proof. induction es as [|e es IH]; cbn; [lia|]. pose proof (nodes_pos e). lia. Qed.

Lemma leaves_join e es : leaves (JoinError (e :: es)) = leaves_all (e :: es).
Proof. reflexivity. Qed.

Lemma nodes_join es : nodes (JoinError es) = S (nodes_all es).
Proof. reflexivity. Qed.

(** The first code known after some leaves. *)
Definition seen (first : option ErrorCode) (l : list ErrorCode) : option ErrorCode :=
  match first with Some c => Some c | None => head l end.

Lemma seen_app first l l' : seen (seen first l) l' = seen first (l ++ l').
Proof. by destruct first, l. Qed.

(** What a traversal is meant to answer. *)
Definition traversed (l : option (list ErrorCode)) (n budget : nat) (first : option ErrorCode)
    : option (nat * option ErrorCode) :=
  match l with
  | Some l => if (n <=? budget)%nat && forallb safe_code l then Some ((budget - n)%nat, seen first l) else None
  | None => None
  end.

Definition traverses err : Prop :=
  forall budget first, traverse err budget first = traversed (leaves err) (nodes err) budget first.

Lemma traversed_split l n l' n' budget first :
  match traversed l n budget first with Some (b, f) => traversed l' n' b f | None => None end
  = traversed (a ← l; b ← l'; Some (a ++ b)) (n + n') budget first.
Proof.
  unfold traversed. destruct l as [l|]; cbn; [|done].
  destruct (n <=? budget)%nat eqn:E; cbn.
  - apply Nat.leb_le in E. destruct l' as [l'|]; cbn; [|by destruct (forallb safe_code l)].
    rewrite forallb_app. destruct (forallb safe_code l); cbn; [|by rewrite andb_false_r].
    replace (n + n' <=? budget)%nat with (n' <=? budget - n)%nat
      by (destruct (Nat.leb_spec n' (budget - n)), (Nat.leb_spec (n + n') budget); lia).
    destruct ((n' <=? budget - n)%nat && forallb safe_code l'); [|done].
    f_equal. f_equal; [lia|apply seen_app].
  - apply Nat.leb_gt in E. destruct l' as [l'|]; cbn; [|done].
    replace (n + n' <=? budget)%nat with false; [done|]. symmetry. apply Nat.leb_gt. lia.
Qed.

Lemma traverse_all_spec es : Forall traverses es -> forall budget first,
  traverse_all es budget first = traversed (leaves_all es) (nodes_all es) budget first.
Proof.
  induction 1 as [|e es He Hes IH]; intros budget first.
  - cbn. rewrite Nat.sub_0_r. by destruct first.
  - cbn [traverse_all leaves_all nodes_all]. rewrite He, <- traversed_split.
    destruct (traversed (leaves e) (nodes e) budget first) as [[b f]|]; [apply IH|done].
Qed.

Lemma traverse_join es budget first :
  traverse (JoinError es) (S budget) first =
  if (length es =? 0)%nat || (budget <? length es)%nat then None else traverse_all es budget first.
Proof.
  cbn [traverse]. destruct ((length es =? 0)%nat || (budget <? length es)%nat); [done|].
  revert budget first. induction es as [|e es IH]; intros budget first; [done|].
  cbn [traverse_all]. destruct (traverse e budget first) as [[b f]|]; [apply IH|done].
Qed.

Lemma traverse_spec err : traverses err.
Proof.
  induction err as [c|id|c| |e IH|es IH] using cerror_ind'; intros [|budget] first; try done.
  - cbn. unfold traversed. cbn. destruct (safe_code c); cbn; [|done]. rewrite Nat.sub_0_r. by destruct first.
  - cbn [traverse leaves nodes]. unfold traversed. by destruct (leaves e) as [l|].
  - cbn [traverse leaves nodes]. rewrite IH. unfold traversed. by destruct (leaves e) as [l|].
  - rewrite nodes_join. unfold traversed. destruct (leaves (JoinError es)); done.
  - rewrite traverse_join, nodes_join. destruct es as [|e es]; [done|]. rewrite leaves_join.
    rewrite traverse_all_spec by done. pose proof (nodes_all_length (e :: es)) as Hn.
    destruct (budget <? length (e :: es))%nat eqn:E; cbn [length Nat.eqb orb] in *.
    + apply Nat.ltb_lt in E. unfold traversed. destruct (leaves_all (e :: es)) as [l|]; [|done].
      replace (S (nodes_all (e :: es)) <=? S budget)%nat with false; [done|]. symmetry. apply Nat.leb_gt. lia.
    + done.
Qed.

Lemma inspect_traversed err :
  inspectAdmissionError (Some err) =
  match traversed (leaves err) (nodes err) 64 None with Some (_, Some code) => (true, code) | _ => (false, CodeServiceUnavailable) end.
Proof.
  unfold inspectAdmissionError, inspect_budget. rewrite <- traverse_spec. destruct err; reflexivity.
Qed.

(** C4: the traversal with its budget of 64 nodes is the check of the whole tree:
    an admission error counts as a safe refusal exactly when it has at most 64
    nodes, every leaf is a domain error with a safe code, and there is a leaf; the
    code shown is the first one.  Anything else is shown as unavailable. *)
Theorem inspectAdmissionError_spec (err : cerror uuid) safe code :
  inspectAdmissionError (Some err) = (safe, code) <->
  if safe
  then (exists rest, leaves err = Some (code :: rest) /\ Forall (fun c => safe_code c = true) (code :: rest))
       /\ (nodes err <= 64)%nat
  else code = CodeServiceUnavailable
       /\ ~ ((exists l, leaves err = Some l /\ l <> [] /\ Forall (fun c => safe_code c = true) l) /\ (nodes err <= 64)%nat).
Proof.
  rewrite inspect_traversed. unfold traversed. destruct (leaves err) as [l|]; [|destruct safe; naive_solver].
  assert (forallb safe_code l = true <-> Forall (fun c => safe_code c = true) l) as HF'.
  { rewrite forallb_forall, list.Forall_forall. split; intros H x Hx; apply H; by apply list_elem_of_In. }
  destruct (Nat.leb_spec (nodes err) 64) as [Hn|Hn]; cbn [andb]; [|destruct safe; naive_solver lia].
  destruct (forallb safe_code l) eqn:E.
  - apply proj1 in HF'. specialize (HF' eq_refl). destruct l as [|c rest]; cbn [seen head]; destruct safe; naive_solver.
  - assert (~ Forall (fun c => safe_code c = true) l) as Hno by (rewrite <- HF'; done). destruct safe; naive_solver.
Qed.

End inspection.

(** ** Secrets *)

Definition secret_char (c : ascii) : bool := negb ((byte_of c =? 13) || (byte_of c =? 10) || (byte_of c =? 0)).

Lemma alphabet_secret n : 0 <= n < 64 -> secret_char (alphabet_char n) = true.
Proof.
  intros H. assert (all_below 64 0 (fun n => secret_char (alphabet_char n)) = true) as Hall by (vm_compute; reflexivity).
  apply (all_below_spec _ _ _ _ Hall). lia.
Qed.

Lemma encode_secret s : str_forallb secret_char (EncodeToString s) = true.
Proof.
  induction s as [|a|a b|a b c r IH] using groups_ind; [done|..]; pose proof (byte_range a);
    try pose proof (byte_range b); try pose proof (byte_range c); cbn [EncodeToString str_forallb];
    rewrite !alphabet_secret by dlia; [done..|exact IH].
Qed.

Lemma ReadFull_length want reads raw : ReadFull want reads = Some raw -> String.length raw = want.
Proof.
  revert want raw. induction reads as [|[chunk failed] reads IH]; intros [|want] raw H; cbn [ReadFull] in H;
    [naive_solver..|].
  set (x := String.substring 0 (S want) chunk) in H.
  destruct (String.length x =? 0)%nat eqn:E0; [done|]. apply Nat.eqb_neq in E0.
  assert (String.length x <= S want)%nat as Hx.
  { subst x. clear. revert chunk. induction (S want) as [|n IHn]; intros [|c chunk]; cbn; try lia. specialize (IHn chunk). lia. }
  destruct (S want <=? String.length x)%nat eqn:E1.
  - apply Nat.leb_le in E1. injection H as <-. lia.
  - apply Nat.leb_gt in E1. destruct failed; [done|].
    destruct (ReadFull (S want - String.length x) reads) as [rest|] eqn:E; [|done]. cbn in H. injection H as <-.
    apply IH in E. rewrite str_length_app. lia.
Qed.

(** Whatever the source does, a generated password is one the executor and the
    service accept, and it encodes exactly 32 bytes of the source. *)
Lemma generatePasswordFrom_valid source p :
  generatePasswordFrom source = Ok p ->
  validPassword p = true /\ exists raw, DecodeString p = Some raw /\ String.length raw = 32%nat.
Proof.
  intros H. unfold generatePasswordFrom in H. inv_ok H. subst p. rename s into raw.
  match goal with E : ReadFull _ _ = _ |- _ => apply ReadFull_length in E as Hraw end.
  split; [|by exists raw; split; [apply DecodeString_EncodeToString|]].
  unfold validPassword. pose proof (encode_length raw) as Hlen. unfold str_len in *. rewrite Hraw in Hlen.
  assert (EncodeToString raw <> "") as Hne by (apply encode_nonempty; by intros ->).
  assert (1 <= Z.of_nat (String.length (EncodeToString raw))) by (destruct (EncodeToString raw); [done|cbn; lia]).
  unfold contains_byte. rewrite negb_involutive. rewrite !andb_true_iff, Z.ltb_lt, Z.leb_le.
  split; [split; lia|]. apply encode_secret.
Qed.

(** ** Completions *)

Section completion.
Context {uuid : Type} `{U : UuidLib uuid}.
Implicit Types (o : Operation uuid) (c : Completion uuid).

(** The projection that goes with an operation, by its status: what
    [validate_mqtt_projection_authority] of migration 19 computes. *)
Definition pending_status (a : Action) : CredentialStatus :=
  match a with
  | ActionProvision => CredentialProvisioning
  | ActionRotate | ActionReset => CredentialRotating
  | ActionRevoke => CredentialRevoking
  | ActionOther _ => CredentialRecoveryNeeded
  end.

Definition previous_version o : Z :=
  match o_Previous o with Some p => s_CredentialVersion p | None => o_CredentialVersion o end.
Definition previous_activated o : option Z := o_Previous o ≫= s_ActivatedAt.
Definition previous_revoked o : option Z := o_Previous o ≫= s_RevokedAt.

Definition projection_of o : CredentialSnapshot :=
  match o_Status o with
  | OperationPending => mkSnapshot (pending_status (o_Action o)) (o_CredentialVersion o) (previous_activated o) None
  | OperationSucceeded =>
      if bool_decide (o_Action o = ActionRevoke)
      then mkSnapshot CredentialRevoked (o_CredentialVersion o) (previous_activated o) (Some (o_UpdatedAt o))
      else mkSnapshot CredentialActive (o_CredentialVersion o) (Some (o_UpdatedAt o)) None
  | OperationFailed =>
      mkSnapshot (match o_Previous o with Some p => s_Status p | None => CredentialFailed end) (previous_version o)
        (previous_activated o) (previous_revoked o)
  | _ => mkSnapshot CredentialRecoveryNeeded (previous_version o) (previous_activated o) (previous_revoked o)
  end.

(** The columns no completion may change. *)
Definition same_identity o o' : Prop :=
  o' = update_operation o (o_Status o') (o_Phase o') (o_CompletedAt o') (o_ErrorCode o') (o_Evidence o') (o_UpdatedAt o').

Definition evidence_le (e f : VerificationEvidence) : Prop :=
  (RAMApplied e = true -> RAMApplied f = true) /\ (SnapshotObserved e = true -> SnapshotObserved f = true)
  /\ (FreshPositiveVerified e = true -> FreshPositiveVerified f = true).

(** What each outcome makes of the status. *)
Definition outcome_status (x : ExecutionOutcome) : OperationStatus :=
  match x with
  | ExecutionVerifiedSuccess => OperationSucceeded
  | ExecutionUnchangedFailure => OperationFailed
  | _ => OperationRecoveryNeeded
  end.

Lemma CompleteOperation_inv o x evidence at_ c :
  CompleteOperation o x evidence at_ = Ok c ->
  ValidateHistorical o = true /\ Terminal o = false /\ at_ <> zero_instant /\ o_CreatedAt o <= at_ /\ o_UpdatedAt o <= at_
  /\ previous_admits o = true /\ same_identity o (c_Operation c) /\ o_UpdatedAt (c_Operation c) = at_
  /\ o_Status (c_Operation c) = outcome_status x
  /\ o_CompletedAt (c_Operation c) = (if settled (outcome_status x) then Some at_ else None)
  /\ o_Phase (c_Operation c) = (if settled (outcome_status x) then PhaseFinalize else PhaseRecovery)
  /\ c_Credential c = projection_of (c_Operation c)
  /\ match x with
     | ExecutionVerifiedSuccess =>
         evidence_suffices (o_ExecutionContract o) (o_Action o) evidence = true
         /\ o_Evidence (c_Operation c) = evidence /\ o_ErrorCode (c_Operation c) = None
     | ExecutionUnchangedFailure =>
         o_Status o = OperationPending /\ o_Evidence o = no_evidence /\ evidence = no_evidence
         /\ o_Evidence (c_Operation c) = no_evidence /\ o_ErrorCode (c_Operation c) = o_ErrorCode o
     | ExecutionRecoveryRequired =>
         o_Evidence (c_Operation c) = merge_evidence evidence (o_Evidence o)
         /\ o_ErrorCode (c_Operation c) = o_ErrorCode o
     | ExecutionMaintenanceClosed => False
     end.
Proof.
  unfold CompleteOperation. intros H.
  destruct (negb (ValidateHistorical o) || Terminal o || (at_ =? zero_instant) || (at_ <? o_CreatedAt o)
            || (at_ <? o_UpdatedAt o) || negb (previous_admits o)) eqn:E; [done|].
  rewrite !orb_false_iff, !negb_false_iff, Z.eqb_neq, !Z.ltb_ge in E. destruct E as (((((Hv & Ht) & Hz) & Hc) & Hu) & Hp).
  split_and!; try done;
    (destruct x; cbn in H; [destruct (negb (evidence_suffices _ _ _)) eqn:Ee; [done|]; apply negb_false_iff in Ee
      |destruct (negb _ || _ || _) eqn:Ee; [done|]; rewrite !orb_false_iff, !negb_false_iff, !bool_decide_eq_true in Ee;
       destruct Ee as [[Es Eo] Ev]| |done]); injection H as <-; subst; cbn; try done;
    unfold projection_of, previous_version, previous_activated, previous_revoked; cbn;
    try (case_bool_decide; done); destruct (o_Previous o) as [[]|] eqn:Epr; cbn; try done;
    case_bool_decide; done.
Qed.

End completion.
