(* ===== verification/CredentialStore.v ===== *)
(** * MQTT credentials: the journal in PostgreSQL

    [mqttcredential/postgres_repository.go], [postgres_simplified_operation.go],
    [postgres_reset.go] and [postgres_finalization.go] over the tables
    [gateway_mqtt_credentials], [gateway_mqtt_credential_events],
    [mqtt_reset_dispositions] and the ones they only read.  A transaction is one
    step: it holds the row lock of its Gateway.  Besides the keys written out
    here, the checks and triggers of migrations 10 to 19 only refuse a statement,
    which a reply of the database stands for. *)

From S2P Require Import Prelude GoStrings GoTime GoFloat GoJson Identity Uuid Telemetry.
From S2P Require Import Txn HistoryQuery Cursor Credential.
#[local] Open Scope Z_scope.

(** ** Rows *)

(** [gateway_mqtt_credential_events]: the columns [operationColumns] names, with
    their NULLs. *)
Record EventRow {uuid : Type} := mkEventRow {
  ev_operation_id : uuid;
  ev_actor_user_id : option uuid;
  ev_gateway_id : string;
  ev_idempotency_key : option uuid;
  ev_action : Action;
  ev_credential_version : option Z;
  ev_status : OperationStatus;
  ev_phase : option OperationPhase;
  ev_evidence : VerificationEvidence;
  ev_delivery_status : DeliveryStatus;
  ev_created_at : Z;
  ev_updated_at : option Z;
  ev_completed_at : option Z;
  ev_previous_status : option CredentialStatus;
  ev_previous_version : option Z;
  ev_previous_activated_at : option Z;
  ev_previous_revoked_at : option Z;
  ev_error_code : option ErrorCode;
  ev_legacy : bool;
  ev_recovery_id : option uuid;
  ev_replacement_predecessor_id : option uuid;
  ev_contract : ExecutionContract;
  ev_reset_predecessor_id : option uuid;
  ev_reset_reason : option ResetReason;
}.
Arguments EventRow : clear implicits.
Arguments mkEventRow {uuid}.

(** [gateway_mqtt_credentials] *)
Record CredentialRow {uuid : Type} := mkCredentialRow {
  cr_version : Z;
  cr_status : CredentialStatus;
  cr_last_operation_id : option uuid;
  cr_changed_by : option uuid;
  cr_activated_at : option Z;
  cr_revoked_at : option Z;
  cr_last_error_code : option ErrorCode;
  cr_updated_at : Z;
}.
Arguments CredentialRow : clear implicits.
Arguments mkCredentialRow {uuid}.

(** [mqtt_credential_maintenance] and [mqtt_credential_recovery], written by the
    lifecycle engine only. *)
Inductive MaintenanceStatus := MaintenanceInProgress | MaintenanceCompleted | MaintenanceRecoveryNeeded.
Inductive RecoveryStatus := RecoveryPending | RecoveryDisabled.

#[export] Instance MaintenanceStatus_eq_dec : EqDecision MaintenanceStatus.
Proof. solve_decision. Defined.
#[export] Instance RecoveryStatus_eq_dec : EqDecision RecoveryStatus.
Proof. solve_decision. Defined.

(** [mqtt_reset_dispositions], under its predecessor. *)
Record Disposition {uuid : Type} := mkDisposition {
  d_successor : uuid;
  d_gateway : string;
  d_reason : ResetReason;
}.
Arguments Disposition : clear implicits.
Arguments mkDisposition {uuid}.

Record CredentialDB (uuid : Type) `{UuidLib uuid} := mkCredentialDB {
  cd_credentials : gmap string (CredentialRow uuid);
  cd_events : gmap uuid (EventRow uuid);
  cd_dispositions : gmap uuid (Disposition uuid);
  cd_replacements : gset uuid;
  cd_maintenance : list (uuid * string * MaintenanceStatus);
  cd_recovery : list (uuid * string * RecoveryStatus);
}.
Arguments mkCredentialDB {uuid H}.
Arguments cd_credentials {uuid H}.
Arguments cd_events {uuid H}.
Arguments cd_dispositions {uuid H}.
Arguments cd_replacements {uuid H}.
Arguments cd_maintenance {uuid H}.
Arguments cd_recovery {uuid H}.

(** ** Requests and results *)

Record BeginRequest {uuid : Type} := mkBeginRequest {
  br_ActorUserID : uuid;
  br_OperationID : uuid;
  br_Input : MutationInput uuid;
}.
Arguments BeginRequest : clear implicits.
Arguments mkBeginRequest {uuid}.

Record BeginResult {uuid : Type} := mkBeginResult {
  b_Operation : Operation uuid;
  b_Metadata : Metadata uuid;
  b_Execute : bool;
  b_Replay : option (MutationResult uuid);
}.
Arguments BeginResult : clear implicits.
Arguments mkBeginResult {uuid}.

Record OperationGuard {uuid : Type} := mkOperationGuard {
  g_GatewayID : string;
  g_ExpectedOperationID : uuid;
  g_ExpectedOperationStatus : OperationStatus;
  g_ExpectedCredentialStatus : CredentialStatus;
  g_ExpectedCredentialVersion : Z;
}.
Arguments OperationGuard : clear implicits.
Arguments mkOperationGuard {uuid}.

Record OperationUpdate {uuid : Type} := mkOperationUpdate {
  u_Guard : OperationGuard uuid;
  u_Completion : Completion uuid;
}.
Arguments OperationUpdate : clear implicits.
Arguments mkOperationUpdate {uuid}.

Record BeginResetRequest {uuid : Type} := mkBeginResetRequest {
  rr_ActorUserID : uuid;
  rr_OperationID : uuid;
  rr_Input : ResetInput uuid;
  rr_ExpectedPredecessorID : uuid;
  rr_ExpectedTargetGuard : option (OperationGuard uuid);
}.
Arguments BeginResetRequest : clear implicits.
Arguments mkBeginResetRequest {uuid}.

(** The world of one call of the repository: the Gateways and administrators at
    that moment, the replies of the database and its [now()]. *)
Record CallWorld {uuid : Type} `{UuidLib uuid} := mkCallWorld {
  cw_gateways : gset string;
  cw_admins : gset uuid;
  cw_begin : Answer (cerror uuid);
  cw_calls : list (Answer (cerror uuid));
  cw_commit : CommitAnswer (cerror uuid);
  cw_now : Z;
}.
Arguments CallWorld uuid {H}.
Arguments mkCallWorld {uuid H}.

Section store.
Context {uuid : Type} `{U : UuidLib uuid}.
Implicit Types (d : CredentialDB uuid) (w : CallWorld uuid) (e : EventRow uuid) (actor : uuid).

Definition CTx (A : Type) : Type := Transaction (cerror uuid) (CredentialDB uuid) A.

Definition set_credentials d (c : gmap string (CredentialRow uuid)) : CredentialDB uuid :=
  mkCredentialDB c (cd_events d) (cd_dispositions d) (cd_replacements d) (cd_maintenance d) (cd_recovery d).
Definition set_events d (es : gmap uuid (EventRow uuid)) : CredentialDB uuid :=
  mkCredentialDB (cd_credentials d) es (cd_dispositions d) (cd_replacements d) (cd_maintenance d) (cd_recovery d).
Definition set_dispositions d (ds : gmap uuid (Disposition uuid)) : CredentialDB uuid :=
  mkCredentialDB (cd_credentials d) (cd_events d) ds (cd_replacements d) (cd_maintenance d) (cd_recovery d).

(** ** Running a call *)

(** [BeginTx], the statements, [Commit] and [Rollback]; the body says whether it
    reaches [Commit] or returns before it. *)
Definition run_tx {A} (unknown : uuid) w (body : CTx (A * bool)) d : res (cerror uuid) A * CredentialDB uuid :=
  match cw_begin w with
  | Fails cause => (Err (safeReadError cause), d)
  | Works =>
      match body d (cw_calls w) with
      | Err err => (Err err, d)
      | Ok ((result, false), _, _) => (Ok result, d)
      | Ok ((result, true), working, _) =>
          match cw_commit w with
          | CommitOk => (Ok result, working)
          | CommitError _ durable => (Err (CommitOutcomeUnknown unknown), if durable then working else d)
          end
      end
  end.

(** Queries outside a transaction. *)
Definition run_reads {A} w (body : CTx A) d : res (cerror uuid) A :=
  match body d (cw_calls w) with Err err => Err err | Ok (result, _, _) => Ok result end.

(** [QueryRow(...).Scan(...)] with its error passed to [safeReadError]. *)
Definition read {A} (q : CredentialDB uuid -> res (cerror uuid) A) : CTx A :=
  call_checked safeReadError (fun d => let! a := q d in Ok (a, d)).

(** The same where the code goes on with the error. *)
Definition try_read {A} (q : CredentialDB uuid -> res (cerror uuid) A) : CTx (res (cerror uuid) A) :=
  attempt (fun d => let! a := q d in Ok (a, d)).

Definition no_row : cerror uuid := DriverError ErrNoRows.
Definition violation : cerror uuid := DriverError (PgError "23505").
Definition check_violation : cerror uuid := DriverError (PgError "23514").

(** [tx.Exec(...)] *)
Definition write {A} (run : CredentialDB uuid -> res (cerror uuid) (A * CredentialDB uuid)) : CTx A :=
  call_checked safeReadError run.

Definition fail_code {A} (code : ErrorCode) : CTx A := tx_fail (DomainError code).

(** A decision of a pure function. *)
Definition decide_code {A} (r : res ErrorCode A) : CTx A :=
  match r with Ok a => tx_ret a | Err code => fail_code code end.

(** ** Reads *)

Definition gateway_exists w (g : string) d : res (cerror uuid) string :=
  if bool_decide (g ∈ cw_gateways w) then Ok g else Err no_row.

Definition is_admin w actor : bool := bool_decide (actor ∈ cw_admins w).

(** [mqtt_operation_effective] *)
Definition effective d (id : uuid) : bool :=
  negb (bool_decide (id ∈ cd_replacements d)) && negb (bool_decide (is_Some (cd_dispositions d !! id))).

Definition events_list d : list (EventRow uuid) := snd <$> map_to_list (cd_events d).

(** The status of the last operation in [metadataQuery]. *)
Definition joined_status d (g : string) (last : option uuid) : OperationStatus :=
  match last ≫= fun id => cd_events d !! id with
  | Some e =>
      if bool_decide (ev_gateway_id e = g)
      then match ev_recovery_id e with Some _ => OperationResolvedByRecovery | None => ev_status e end
      else OperationOther ""
  | None => OperationOther ""
  end.

(** [metadataQuery] with the scan of [scanMetadata]. *)
Definition metadata_row (g : string) d : res (cerror uuid) (Metadata uuid) :=
  match cd_credentials d !! g with
  | None => Err no_row
  | Some c =>
      Ok (mkMetadata g g (cr_version c) (cr_status c) (default uuid_Nil (cr_last_operation_id c))
            (joined_status d g (cr_last_operation_id c)) (cr_activated_at c) (cr_revoked_at c) (cr_last_error_code c))
  end.

Definition scanMetadata (r : res (cerror uuid) (Metadata uuid)) : res (cerror uuid) (Metadata uuid) :=
  match r with Ok m => Ok m | Err err => Err (safeReadError err) end.

(** The scanned columns of an event. *)
Definition project e : Operation uuid :=
  mkOperation (ev_operation_id e) (default uuid_Nil (ev_actor_user_id e)) (ev_gateway_id e)
    (default uuid_Nil (ev_idempotency_key e)) (ev_action e) (default 0 (ev_credential_version e))
    (ev_status e) (default (PhaseOther "") (ev_phase e)) (ev_evidence e) (ev_delivery_status e)
    (ev_created_at e) (default zero_instant (ev_updated_at e)) (ev_completed_at e)
    (match ev_previous_status e, ev_previous_version e with
     | Some s, Some v => Some (mkSnapshot s v (ev_previous_activated_at e) (ev_previous_revoked_at e))
     | _, _ => None
     end)
    (ev_error_code e) (ev_recovery_id e) (ev_replacement_predecessor_id e) (ev_contract e)
    (ev_reset_predecessor_id e) (ev_reset_reason e).

(** An operation and whether it is a historical projection. *)
Definition scanOperation (r : res (cerror uuid) (EventRow uuid)) : res (cerror uuid) (Operation uuid * bool) :=
  match r with
  | Err err => Err (safeReadError err)
  | Ok e =>
      if negb (ev_legacy e) && negb (ValidateHistorical (project e)) then Err (DomainError CodeInternalError)
      else Ok (project e, ev_legacy e)
  end.

Definition event_by_id (id : uuid) d : res (cerror uuid) (EventRow uuid) := or_err no_row (cd_events d !! id).

Definition event_of_gateway (id : uuid) (g : string) d : res (cerror uuid) (EventRow uuid) :=
  let! e := event_by_id id d in if bool_decide (ev_gateway_id e = g) then Ok e else Err no_row.

(** [WHERE actor_user_id=$1 AND idempotency_key=$2 AND NOT legacy_projection] *)
Definition has_key actor (key : uuid) e : bool :=
  bool_decide (ev_actor_user_id e = Some actor) && bool_decide (ev_idempotency_key e = Some key) && negb (ev_legacy e).

Definition event_by_key actor (key : uuid) d : res (cerror uuid) (EventRow uuid) :=
  or_err no_row (head (filter (fun e => has_key actor key e = true) (events_list d))).

(** [COALESCE(max(credential_version),0)] of the Gateway's events. *)
Definition max_attempted (g : string) d : Z :=
  fold_right Z.max 0 ((fun e => default 0 (ev_credential_version e))
                        <$> filter (fun e => ev_gateway_id e = g) (events_list d)).

Definition open_event d (g : string) e : bool :=
  bool_decide (ev_gateway_id e = g) && unresolved (ev_status e) && bool_decide (ev_recovery_id e = None)
  && effective d (ev_operation_id e).

Definition open_maintenance d (g : string) (row : uuid * string * MaintenanceStatus) : bool :=
  let '(id, gw, status) := row in
  bool_decide (gw = g) && negb (bool_decide (status = MaintenanceCompleted)) && effective d id.

Definition open_recovery (g : string) (row : uuid * string * RecoveryStatus) : bool :=
  let '(_, gw, status) := row in bool_decide (gw = g) && bool_decide (status = RecoveryPending).

(** Whether something is in progress, and whether something needs recovery. *)
Definition unresolved_query (g : string) d : bool * bool :=
  (existsb (fun e => open_event d g e && bool_decide (ev_status e = OperationPending)) (events_list d)
   || existsb (fun row => open_maintenance d g row && bool_decide (snd row = MaintenanceInProgress)) (cd_maintenance d),
   existsb (fun e => open_event d g e && bool_decide (ev_status e = OperationRecoveryNeeded)) (events_list d)
   || existsb (fun row => open_maintenance d g row && bool_decide (snd row = MaintenanceRecoveryNeeded)) (cd_maintenance d)
   || existsb (open_recovery g) (cd_recovery d)).

Definition other_unresolved (g : string) (last : uuid) d : bool :=
  existsb (fun e => open_event d g e && negb (bool_decide (ev_operation_id e = last))) (events_list d)
  || existsb (open_recovery g) (cd_recovery d).

(** ** Writes *)

(** A new event: the primary key and the key of its actor. *)
Definition insert_event e d : res (cerror uuid) (unit * CredentialDB uuid) :=
  if bool_decide (is_Some (cd_events d !! ev_operation_id e))
     || existsb (has_key (default uuid_Nil (ev_actor_user_id e)) (default uuid_Nil (ev_idempotency_key e)))
          (events_list d)
  then Err violation
  else Ok (tt, set_events d (<[ev_operation_id e := e]> (cd_events d))).

Definition new_event (now : Z) (id : uuid) (g : string) (version : Z) (action : Action) actor (key : uuid)
    (previous : option CredentialSnapshot) (predecessor : option uuid) (reason : option ResetReason) : EventRow uuid :=
  mkEventRow id (Some actor) g (Some key) action (Some version) OperationPending (Some PhaseIntent) no_evidence
    DeliveryUnknown (micros now) (Some (micros now)) None
    (s_Status <$> previous) (s_CredentialVersion <$> previous)
    (previous ≫= s_ActivatedAt) (previous ≫= s_RevokedAt) None false None None ContractSimplified predecessor reason.

(** The checks of [gateway_mqtt_credentials]: the version, the status and
    [chk_gateway_mqtt_credentials_timestamps]. *)
Definition credential_checked (c : CredentialRow uuid) : bool :=
  (0 <? cr_version c) && CredentialStatus_Validate (cr_status c)
  && match cr_status c with
     | CredentialActive => bool_decide (is_Some (cr_activated_at c)) && bool_decide (cr_revoked_at c = None)
     | CredentialRevoked => bool_decide (is_Some (cr_revoked_at c))
     | CredentialProvisioning | CredentialRotating | CredentialRevoking => bool_decide (cr_revoked_at c = None)
     | _ => true
     end.

(** A row written under these checks. *)
Definition write_credential {A} (a : A) (g : string) (c : CredentialRow uuid) d : res (cerror uuid) (A * CredentialDB uuid) :=
  if credential_checked c then Ok (a, set_credentials d (<[g := c]> (cd_credentials d))) else Err check_violation.

(** [INSERT INTO gateway_mqtt_credentials ... ON CONFLICT(gateway_id) DO UPDATE] *)
Definition upsert_credential (now : Z) (g : string) (version : Z) (status : CredentialStatus) (id actor : uuid)
    (activated : option Z) d : res (cerror uuid) (unit * CredentialDB uuid) :=
  write_credential tt g (mkCredentialRow version status (Some id) (Some actor) activated None None (micros now)) d.

Definition insert_disposition (predecessor successor : uuid) (g : string) (reason : ResetReason) d
    : res (cerror uuid) (unit * CredentialDB uuid) :=
  if bool_decide (is_Some (cd_dispositions d !! predecessor)) || bool_decide (predecessor = successor)
     || existsb (fun p => bool_decide (d_successor (snd p) = successor)) (map_to_list (cd_dispositions d))
  then Err violation
  else Ok (tt, set_dispositions d (<[predecessor := mkDisposition successor g reason]> (cd_dispositions d))).

(** [UPDATE gateway_mqtt_credentials SET status='rotating' ... WHERE gateway_id=$4
    AND last_operation_id=$5] *)
Definition rotate_credential (now : Z) (g : string) (version : Z) (id actor predecessor : uuid) d
    : res (cerror uuid) (unit * CredentialDB uuid) :=
  match cd_credentials d !! g with
  | Some c =>
      if bool_decide (cr_last_operation_id c = Some predecessor)
      then write_credential tt g (mkCredentialRow version CredentialRotating (Some id) (Some actor) (cr_activated_at c)
                                    (cr_revoked_at c) None (micros now)) d
      else Ok (tt, d)
  | None => Ok (tt, d)
  end.

(** [UPDATE gateway_mqtt_credential_events SET ... WHERE operation_id=$1 AND
    status=$2 AND NOT legacy_projection] *)
Definition settle_row (o : Operation uuid) e : EventRow uuid :=
  mkEventRow (ev_operation_id e) (ev_actor_user_id e) (ev_gateway_id e) (ev_idempotency_key e) (ev_action e)
    (ev_credential_version e) (o_Status o) (Some (o_Phase o)) (o_Evidence o) (ev_delivery_status e)
    (ev_created_at e) (Some (micros (o_UpdatedAt o))) (micros <$> o_CompletedAt o)
    (ev_previous_status e) (ev_previous_version e) (ev_previous_activated_at e) (ev_previous_revoked_at e)
    (o_ErrorCode o) (ev_legacy e) (ev_recovery_id e) (ev_replacement_predecessor_id e) (ev_contract e)
    (ev_reset_predecessor_id e) (ev_reset_reason e).

Definition update_event (o : Operation uuid) (expected : OperationStatus) d : Z * CredentialDB uuid :=
  match cd_events d !! o_OperationID o with
  | Some e =>
      if bool_decide (ev_status e = expected) && negb (ev_legacy e)
      then (1, set_events d (<[o_OperationID o := settle_row o e]> (cd_events d)))
      else (0, d)
  | None => (0, d)
  end.

(** [UPDATE gateway_mqtt_credentials SET ... WHERE gateway_id=$1 AND
    last_operation_id=$2 AND status=$3 AND credential_version=$4] *)
Definition update_credential (g : OperationGuard uuid) (c : CredentialSnapshot) (code : option ErrorCode)
    (updated : Z) d : res (cerror uuid) (Z * CredentialDB uuid) :=
  match cd_credentials d !! g_GatewayID g with
  | Some r =>
      if bool_decide (cr_last_operation_id r = Some (g_ExpectedOperationID g))
         && bool_decide (cr_status r = g_ExpectedCredentialStatus g)
         && (cr_version r =? g_ExpectedCredentialVersion g)
      then write_credential 1 (g_GatewayID g)
             (mkCredentialRow (s_CredentialVersion c) (s_Status c) (cr_last_operation_id r) (cr_changed_by r)
                (micros <$> s_ActivatedAt c) (micros <$> s_RevokedAt c) code (micros updated)) d
      else Ok (0, d)
  | None => Ok (0, d)
  end.

(** ** [BeginSimplifiedOperation] *)

(** The advisory lock on the actor and key, the lock of the Gateway's row and
    [lock_mqtt_reset_admin]. *)
Definition begin_locks w actor (g : string) : CTx string :=
  let> _ := read (fun _ => Ok tt) in
  let> parent := read (gateway_exists w g) in
  let> admin := read (fun _ => Ok (is_admin w actor)) in
  if negb admin then fail_code CodeForbidden else tx_ret parent.

(** The version of a new intent. *)
Definition begin_version (g : string) (current : Z) (action : Action) : CTx Z :=
  if bool_decide (action = ActionRevoke) then tx_ret current
  else
    let> attempted := read (fun d => Ok (max_attempted g d)) in
    decide_code (AllocateVersion current attempted).

(** The row read back with its projection. *)
Definition read_back (id : uuid) (g : string) : CTx (Operation uuid * Metadata uuid) :=
  let> row := try_read (event_by_id id) in
  match scanOperation row with
  | Err err => tx_fail err
  | Ok (o, _) =>
      let> m := try_read (metadata_row g) in
      match scanMetadata m with Err err => tx_fail err | Ok m => tx_ret (o, m) end
  end.

(** The new intent: the event, then the projection. *)
Definition begin_new w (req : BeginRequest uuid) (parent : string) (m : Metadata uuid) (missing : bool)
    : CTx (BeginResult uuid * bool) :=
  let actor := br_ActorUserID req in
  let action := mi_Action (br_Input req) in
  let> status := decide_code (BeginCredentialStatus (m_Status m) action) in
  let> version := begin_version parent (m_CredentialVersion m) action in
  let previous := if missing then None else Some (metadata_snapshot m) in
  let> _ := write (insert_event (new_event (cw_now w) (br_OperationID req) parent version action actor
                                   (mi_IdempotencyKey (br_Input req)) previous None None)) in
  let> _ := write (upsert_credential (cw_now w) parent version status (br_OperationID req) actor (m_ActivatedAt m)) in
  let> (o, m') := read_back (br_OperationID req) parent in
  tx_ret (mkBeginResult o m' true None, true).

(** No event has the key. *)
Definition begin_fresh w (req : BeginRequest uuid) (parent : string) (m : Metadata uuid) (missing : bool)
    : CTx (BeginResult uuid * bool) :=
  let> (pending, recovery) := read (fun d => Ok (unresolved_query parent d)) in
  if recovery then fail_code CodeRecoveryRequired
  else if pending then fail_code CodeOperationInProgress
  else if bool_decide (mi_Action (br_Input req) = ActionRevoke) && bool_decide (m_Status m = CredentialRevoked)
  then tx_ret (mkBeginResult zero_operation m false
                 (Some (mkMutationResult m uuid_Nil false "" (OperationOther "") None)), false)
  else begin_new w req parent m missing.

Definition is_not_found (err : cerror uuid) : bool := bool_decide (as_domain err = Some CodeNotFound).

Definition begin_with_metadata w (req : BeginRequest uuid) (parent : string) (m : Metadata uuid) (missing : bool)
    : CTx (BeginResult uuid * bool) :=
  let actor := br_ActorUserID req in
  let input := br_Input req in
  if missing && bool_decide (mi_Action input = ActionRevoke) then fail_code CodeNotFound
  else
    let> row := try_read (event_by_key actor (mi_IdempotencyKey input)) in
    match scanOperation row with
    | Ok (o, _) =>
        if negb (bool_decide (o_GatewayID o = parent)) || negb (bool_decide (o_Action o = mi_Action input))
        then fail_code CodeIdempotencyConflict
        else if missing then fail_code CodeInternalError
        else
          let> replay := decide_code (ReplayOperation o actor input m) in
          tx_ret (mkBeginResult o m false (Some replay), false)
    | Err err => if is_not_found err then begin_fresh w req parent m missing else tx_fail err
    end.

Definition begin_simplified_body w (req : BeginRequest uuid) : CTx (BeginResult uuid * bool) :=
  let> parent := begin_locks w (br_ActorUserID req) (mi_GatewayID (br_Input req)) in
  let> row := try_read (metadata_row parent) in
  match scanMetadata row with
  | Ok m => begin_with_metadata w req parent m false
  | Err err => if is_not_found err then begin_with_metadata w req parent zero_metadata true else tx_fail err
  end.

Definition BeginSimplifiedOperation w (req : BeginRequest uuid) d
    : res (cerror uuid) (BeginResult uuid) * CredentialDB uuid :=
  if negb (ValidateMutationInput (br_ActorUserID req) (br_Input req)) || bool_decide (br_OperationID req = uuid_Nil)
  then (Err (DomainError CodeInvalidRequest), d)
  else run_tx (br_OperationID req) w (begin_simplified_body w req) d.

(** ** [BeginReset] *)

(** The guard the service took from its reads. *)
Definition target_matches (guard : OperationGuard uuid) (pred : Operation uuid) (m : Metadata uuid) : bool :=
  bool_decide (o_OperationID pred = g_ExpectedOperationID guard) && bool_decide (o_GatewayID pred = g_GatewayID guard)
  && bool_decide (o_Status pred = g_ExpectedOperationStatus guard)
  && bool_decide (m_Status m = g_ExpectedCredentialStatus guard)
  && (m_CredentialVersion m =? g_ExpectedCredentialVersion guard)
  && bool_decide (o_ExecutionContract pred = ContractSimplified).

(** The disposition of the predecessor, the event and the projection. *)
Definition reset_new w (req : BeginResetRequest uuid) (parent : string) (m : Metadata uuid) (pred : Operation uuid)
    : CTx (BeginResult uuid * bool) :=
  let actor := rr_ActorUserID req in
  let input := rr_Input req in
  let> attempted := read (fun d => Ok (max_attempted parent d)) in
  let> version := decide_code (AllocateVersion (m_CredentialVersion m) attempted) in
  let> _ := write (insert_disposition (o_OperationID pred) (rr_OperationID req) parent (ri_Reason input)) in
  let> _ := write (insert_event (new_event (cw_now w) (rr_OperationID req) parent version ActionReset actor
                                   (ri_IdempotencyKey input) (Some (metadata_snapshot m))
                                   (Some (o_OperationID pred)) (Some (ri_Reason input)))) in
  let> _ := write (rotate_credential (cw_now w) parent version (rr_OperationID req) actor (o_OperationID pred)) in
  let> (o, m') := read_back (rr_OperationID req) parent in
  tx_ret (mkBeginResult o m' true None, true).

(** The event that has the key already. *)
Definition reset_replay (req : BeginResetRequest uuid) (parent : string) (m : Metadata uuid) (o : Operation uuid)
    : CTx (BeginResult uuid * bool) :=
  if negb (bool_decide (o_GatewayID o = parent)) || negb (bool_decide (o_Action o = ActionReset))
     || negb (bool_decide (o_ResetReason o = Some (ri_Reason (rr_Input req))))
  then fail_code CodeIdempotencyConflict
  else match o_Status o with
  | OperationPending => fail_code CodeOperationInProgress
  | OperationRecoveryNeeded => fail_code CodeRecoveryRequired
  | status => tx_ret (mkBeginResult o m false (Some (mkMutationResult m (o_OperationID o) false "" status None)), false)
  end.

Definition reset_fresh w (req : BeginResetRequest uuid) (parent : string) (m : Metadata uuid) : CTx (BeginResult uuid * bool) :=
  let> other := read (fun d => Ok (other_unresolved parent (m_LastOperationID m) d)) in
  if other then fail_code CodeOperationInProgress
  else
    let> row := try_read (event_of_gateway (m_LastOperationID m) parent) in
    match scanOperation row with
    | Err err => tx_fail err
    | Ok (pred, legacy) =>
        if legacy
           || (negb (bool_decide (rr_ExpectedPredecessorID req = uuid_Nil))
               && negb (bool_decide (o_OperationID pred = rr_ExpectedPredecessorID req)))
           || match rr_ExpectedTargetGuard req with Some guard => negb (target_matches guard pred m) | None => false end
        then fail_code CodeCredentialConflict
        else match CheckResetEligibility m pred (ri_Reason (rr_Input req)) with
        | Some code => fail_code code
        | None => reset_new w req parent m pred
        end
    end.

Definition begin_reset_body w (req : BeginResetRequest uuid) : CTx (BeginResult uuid * bool) :=
  let> parent := begin_locks w (rr_ActorUserID req) (ri_GatewayID (rr_Input req)) in
  let> row := try_read (metadata_row parent) in
  match scanMetadata row with
  | Err err => tx_fail err
  | Ok m =>
      let> row := try_read (event_by_key (rr_ActorUserID req) (ri_IdempotencyKey (rr_Input req))) in
      match scanOperation row with
      | Ok (o, _) => reset_replay req parent m o
      | Err err => if is_not_found err then reset_fresh w req parent m else tx_fail err
      end
  end.

Definition BeginReset w (req : BeginResetRequest uuid) d : res (cerror uuid) (BeginResult uuid) * CredentialDB uuid :=
  if negb (ValidateResetInput (rr_ActorUserID req) (rr_Input req)) || bool_decide (rr_OperationID req = uuid_Nil)
     || match rr_ExpectedTargetGuard req with
        | Some guard => negb (bool_decide (g_GatewayID guard = ri_GatewayID (rr_Input req)))
                        || bool_decide (g_ExpectedOperationID guard = uuid_Nil)
        | None => false
        end
  then (Err (DomainError CodeInvalidRequest), d)
  else run_tx (rr_OperationID req) w (begin_reset_body w req) d.

(** ** Completion *)

Definition safeCompletionCode (code : option ErrorCode) : bool :=
  match code with Some (CodeOther _) => false | _ => true end.

(** The projection an unsettled operation goes with. *)
Definition expected_projection (o : Operation uuid) : CredentialStatus * Z :=
  if bool_decide (o_Status o = OperationPending) then
    (match o_Action o with
     | ActionProvision => CredentialProvisioning
     | ActionRotate | ActionReset => CredentialRotating
     | ActionRevoke => CredentialRevoking
     | ActionOther _ => CredentialRecoveryNeeded
     end, o_CredentialVersion o)
  else
    (CredentialRecoveryNeeded,
     match o_Previous o with Some p => s_CredentialVersion p | None => o_CredentialVersion o end).

(** The answer to a terminal event: only its exact completion is accepted. *)
Definition terminal_retry (o : Operation uuid) (m : Metadata uuid) (outcome : ExecutionOutcome)
    (proposed : Completion uuid) : res ErrorCode (Metadata uuid) :=
  let base := update_operation o OperationPending (o_Phase o) None (o_ErrorCode o) no_evidence (o_CreatedAt o) in
  let terminalOutcome :=
    if bool_decide (o_Status o = OperationFailed) then ExecutionUnchangedFailure else ExecutionVerifiedSuccess in
  match CompleteOperation base terminalOutcome (o_Evidence o) (o_UpdatedAt o) with
  | Ok terminal =>
      if bool_decide (outcome = terminalOutcome) && sameCompletion (mkCompletion o (c_Credential terminal)) proposed
      then Ok m else Err CodeCredentialConflict
  | Err _ => Err CodeCredentialConflict
  end.

(** The completion the code computes itself from the locked event. *)
Definition checked_completion (o : Operation uuid) (outcome : ExecutionOutcome) (proposed : Completion uuid)
    : res ErrorCode (Completion uuid) :=
  match CompleteOperation o outcome (o_Evidence (c_Operation proposed)) (o_UpdatedAt (c_Operation proposed)) with
  | Err code => Err code
  | Ok expected =>
      let e := o_Evidence (c_Operation expected) in
      if (RAMApplied (o_Evidence o) && negb (RAMApplied e))
         || (SnapshotObserved (o_Evidence o) && negb (SnapshotObserved e))
         || (FreshPositiveVerified (o_Evidence o) && negb (FreshPositiveVerified e))
      then Err CodeInvalidRequest
      else
        let x := c_Operation expected in
        let expected :=
          if bool_decide (outcome = ExecutionVerifiedSuccess) then expected
          else mkCompletion (update_operation x (o_Status x) (o_Phase x) (o_CompletedAt x)
                               (o_ErrorCode (c_Operation proposed)) (o_Evidence x) (o_UpdatedAt x))
                 (c_Credential expected) in
        if sameCompletion expected proposed then Ok expected else Err CodeInvalidRequest
  end.

(** Only a lifecycle operation has a checkpoint; it must be open. *)
Definition checkpoint_open (o : Operation uuid) (g : string) : CTx unit :=
  if bool_decide (o_ExecutionContract o = ContractSimplified) then tx_ret tt
  else
    let> status := read (fun d => match filter (fun r => r.1 = (o_OperationID o, g)) (cd_maintenance d) with
                                  | (_, status) :: _ => Ok status | [] => Err no_row end) in
    if bool_decide (status = MaintenanceCompleted) then fail_code CodeCredentialConflict else tx_ret tt.

(** Both updates, then the projection. *)
Definition write_completion (guard : OperationGuard uuid) (parent : string) (expected : Completion uuid)
    : CTx (Metadata uuid * bool) :=
  let o := c_Operation expected in
  let> n := write (fun d => Ok (update_event o (g_ExpectedOperationStatus guard) d)) in
  if negb (n =? 1) then fail_code CodeCredentialConflict
  else
    let> n := write (update_credential guard (c_Credential expected) (o_ErrorCode o) (o_UpdatedAt o)) in
    if negb (n =? 1) then fail_code CodeCredentialConflict
    else
      let> row := try_read (metadata_row parent) in
      match scanMetadata row with Err err => tx_fail err | Ok m => tx_ret (m, true) end.

Definition complete_open (guard : OperationGuard uuid) (parent : string) (m : Metadata uuid) (o : Operation uuid)
    (outcome : ExecutionOutcome) (proposed : Completion uuid) : CTx (Metadata uuid * bool) :=
  if negb (bool_decide (m_LastOperationID m = g_ExpectedOperationID guard))
     || negb (bool_decide (o_Status o = g_ExpectedOperationStatus guard))
     || negb (bool_decide (m_Status m = g_ExpectedCredentialStatus guard))
     || negb (m_CredentialVersion m =? g_ExpectedCredentialVersion guard)
  then fail_code CodeCredentialConflict
  else
    let> _ := checkpoint_open o parent in
    if negb (bool_decide ((m_Status m, m_CredentialVersion m) = expected_projection o))
    then fail_code CodeCredentialConflict
    else
      let> expected := decide_code (checked_completion o outcome proposed) in
      write_completion guard parent expected.

Definition complete_body w (u : OperationUpdate uuid) (outcome : ExecutionOutcome) : CTx (Metadata uuid * bool) :=
  let guard := u_Guard u in
  let proposed := u_Completion u in
  let> parent := read (gateway_exists w (g_GatewayID guard)) in
  let> row := try_read (metadata_row parent) in
  match scanMetadata row with
  | Err err => tx_fail err
  | Ok m =>
      let> row := try_read (event_of_gateway (g_ExpectedOperationID guard) parent) in
      match scanOperation row with
      | Err err => tx_fail err
      | Ok (o, legacy) =>
          if legacy then fail_code CodeInvalidRequest
          else if bool_decide (is_Some (o_RecoveryID o)) then fail_code CodeCredentialConflict
          else if Terminal o then let> m := decide_code (terminal_retry o m outcome proposed) in tx_ret (m, false)
          else complete_open guard parent m o outcome proposed
      end
  end.

Definition guard_valid (guard : OperationGuard uuid) : bool :=
  valid_gateway (g_GatewayID guard) && negb (bool_decide (g_ExpectedOperationID guard = uuid_Nil))
  && OperationStatus_Validate (g_ExpectedOperationStatus guard)
  && CredentialStatus_Validate (g_ExpectedCredentialStatus guard) && (0 <? g_ExpectedCredentialVersion guard).

Definition complete w (u : OperationUpdate uuid) (outcome : ExecutionOutcome) d
    : res (cerror uuid) (Metadata uuid) * CredentialDB uuid :=
  if negb (guard_valid (u_Guard u)) || negb (safeCompletionCode (o_ErrorCode (c_Operation (u_Completion u))))
  then (Err (DomainError CodeInvalidRequest), d)
  else run_tx (g_ExpectedOperationID (u_Guard u)) w (complete_body w u outcome) d.

Definition ConditionalFinalize w u d := complete w u ExecutionVerifiedSuccess d.
Definition FailKnown w u d := complete w u ExecutionUnchangedFailure d.
Definition RequireRecovery w u d := complete w u ExecutionRecoveryRequired d.

(** ** Reads of the repository *)

Definition IsPlatformAdmin w actor d : res (cerror uuid) bool :=
  if bool_decide (actor = uuid_Nil) then Err (DomainError CodeInvalidRequest)
  else run_reads w (read (fun _ => Ok (is_admin w actor))) d.

Definition GetMetadata w (g : string) d : res (cerror uuid) (Metadata uuid) :=
  if negb (valid_gateway g) then Err (DomainError CodeInvalidRequest)
  else run_reads w (let> row := try_read (metadata_row g) in
                    match scanMetadata row with Err err => tx_fail err | Ok m => tx_ret m end) d.

(** On a connection of its own. *)
Definition ResolveCommitAmbiguity w (id : uuid) d : res (cerror uuid) (Operation uuid) :=
  if bool_decide (id = uuid_Nil) then Err (DomainError CodeInvalidRequest)
  else match cw_begin w with
  | Fails _ => Err (CommitOutcomeUnknown id)
  | Works =>
      run_reads w (let> row := try_read (event_by_id id) in
                   match scanOperation row with
                   | Ok (o, false) => tx_ret o
                   | _ => tx_fail (CommitOutcomeUnknown id)
                   end) d
  end.

(** [None]: the key is new. *)
Definition LookupResetReplay w actor (input : ResetInput uuid) d
    : res (cerror uuid) (option (Operation uuid * Metadata uuid)) :=
  if negb (ValidateResetInput actor input) then Err (DomainError CodeInvalidRequest)
  else run_reads w
    (let> admin := read (fun _ => Ok (is_admin w actor)) in
     if negb admin then fail_code CodeForbidden
     else
       let> exists_ := read (fun _ => Ok (bool_decide (ri_GatewayID input ∈ cw_gateways w))) in
       if negb exists_ then fail_code CodeNotFound
       else
         let> row := try_read (event_by_key actor (ri_IdempotencyKey input)) in
         match scanOperation row with
         | Err err => if is_not_found err then tx_ret None else tx_fail err
         | Ok (o, _) =>
             if negb (bool_decide (o_GatewayID o = ri_GatewayID input)) || negb (bool_decide (o_Action o = ActionReset))
                || negb (bool_decide (o_ResetReason o = Some (ri_Reason input)))
             then fail_code CodeIdempotencyConflict
             else match o_Status o with
             | OperationPending => fail_code CodeOperationInProgress
             | OperationRecoveryNeeded => fail_code CodeRecoveryRequired
             | _ =>
                 let> row := try_read (metadata_row (ri_GatewayID input)) in
                 match scanMetadata row with Err err => tx_fail err | Ok m => tx_ret (Some (o, m)) end
             end
         end) d.

End store.
Arguments CTx uuid {U} A.
