(* ===== verification/CredentialExecutor.v ===== *)
(** * MQTT credentials: the executor on the broker

    [mqttcredential/dynsec_simplified_adapter.go] with [adapterClientMatches] and
    [adapterGatewayACLs] of [dynsec_adapter.go].  The broker answers through an
    environment that sees everything sent so far; what was sent is a log.  The
    state of a request is also threaded here, for the service on top. *)

From S2P Require Import Prelude GoStrings GoTime GoFloat GoJson Uuid Identity Telemetry Txn HistoryQuery Cursor.
From S2P Require Import Credential CredentialStore.
#[local] Open Scope Z_scope.

(** ** Qualification and evidence *)

Definition QualifiedMosquittoImageRef : string :=
  "eclipse-mosquitto@sha256:d12c8f80dfc65b768bb9acecc7ef182b976f71fb681640b66358e5e0cf94e9e9".
Definition QualifiedMosquittoConfigID : string :=
  "sha256:d25945831d6b8935b016caacc6f612ad4876ba124601b240e64953886cf264b4".
Definition QualifiedMosquittoPlatform : string := "linux/amd64".
Definition QualifiedMosquittoVersion : string := "2.0.18".

Record NativeDisableQualification := mkQualification {
  q_imageRef : string;
  q_configID : string;
  q_platform : string;
  q_version : string;
}.

#[export] Instance NativeDisableQualification_eq_dec : EqDecision NativeDisableQualification.
Proof. solve_decision. Defined.

Definition no_qualification : NativeDisableQualification := mkQualification "" "" "" "".
Definition qualified : NativeDisableQualification :=
  mkQualification QualifiedMosquittoImageRef QualifiedMosquittoConfigID QualifiedMosquittoPlatform
    QualifiedMosquittoVersion.

(** [None]: [ErrInvalidInput]. *)
Definition NewNativeDisableQualification (imageRef configID platform : string) : option NativeDisableQualification :=
  if bool_decide (imageRef = QualifiedMosquittoImageRef) && bool_decide (configID = QualifiedMosquittoConfigID)
     && bool_decide (platform = QualifiedMosquittoPlatform)
  then Some (mkQualification imageRef configID platform QualifiedMosquittoVersion) else None.

Definition Qualification_IsZero (q : NativeDisableQualification) : bool := bool_decide (q = no_qualification).
Definition Qualification_Valid (q : NativeDisableQualification) : bool :=
  bool_decide (q_imageRef q = QualifiedMosquittoImageRef) && bool_decide (q_configID q = QualifiedMosquittoConfigID)
  && bool_decide (q_platform q = QualifiedMosquittoPlatform) && bool_decide (q_version q = QualifiedMosquittoVersion).

Record SimplifiedExecutionEvidence := mkExecutionEvidence {
  x_RAMApplied : bool;
  x_FreshPositiveVerified : bool;
  x_ProtocolDenialVerified : bool;
  x_SessionHandlingVerified : bool;
  x_NativeDisabledObserved : bool;
  x_NativePersistedRoleACLObserved : bool;
  x_Qualification : NativeDisableQualification;
}.

#[export] Instance SimplifiedExecutionEvidence_eq_dec : EqDecision SimplifiedExecutionEvidence.
Proof. solve_decision. Defined.

Definition no_execution_evidence : SimplifiedExecutionEvidence :=
  mkExecutionEvidence false false false false false false no_qualification.

Record SimplifiedExecutionResult {uuid : Type} := mkExecutionResult {
  r_OperationID : uuid;
  r_Outcome : ExecutionOutcome;
  r_Evidence : SimplifiedExecutionEvidence;
  r_Mutated : bool;
}.
Arguments SimplifiedExecutionResult : clear implicits.
Arguments mkExecutionResult {uuid}.

(** ** The broker *)

Inductive exec_error :=
| ErrInvalidInput | ErrVerificationFailed | ErrRecoveryRequired | ErrLifecycleUnavailable
| ErrClientAbsent | ErrRoleAbsent | ErrBroker (text : string) | ErrDomain (code : ErrorCode).

#[export] Instance exec_error_eq_dec : EqDecision exec_error.
Proof. solve_decision. Defined.

Record adapterACL := mkACL {
  acl_type : string;
  acl_topic : string;
  acl_priority : Z;
  acl_allow : bool;
}.

#[export] Instance adapterACL_eq_dec : EqDecision adapterACL.
Proof. solve_decision. Defined.

Definition adapterGatewayACLs (u : string) : list adapterACL :=
  let base := "gateways/" +:+ u +:+ "/" in
  [mkACL "publishClientSend" (base +:+ "telemetry/#") 0 true; mkACL "publishClientSend" (base +:+ "status") 0 true;
   mkACL "publishClientSend" (base +:+ "responses/#") 0 true; mkACL "publishClientReceive" (base +:+ "acks/#") 0 true;
   mkACL "publishClientReceive" (base +:+ "commands/#") 0 true; mkACL "subscribeLiteral" (base +:+ "acks/#") 0 true;
   mkACL "subscribeLiteral" (base +:+ "commands/#") 0 true; mkACL "unsubscribeLiteral" (base +:+ "acks/#") 0 true;
   mkACL "unsubscribeLiteral" (base +:+ "commands/#") 0 true].

Record DynSecClientMetadata := mkClientMetadata {
  n_Username : string;
  n_Disabled : bool;
  n_Roles : list string;
  n_Groups : list string;
  n_ClientID : string;
}.

Definition adapterClientMatches (v : DynSecClientMetadata) (u role : string) (disabled : bool) : bool :=
  bool_decide (n_Username v = u) && Bool.eqb (n_Disabled v) disabled && bool_decide (n_Roles v = [role])
  && bool_decide (n_Groups v = []) && bool_decide (n_ClientID v = "").

(** What the executor asks of its surroundings, in order: [ctx.Err()], a
    password, the ownership of the database lock, a connection, the commands of the
    client and the two probes. *)
Inductive Event :=
| EvContext
| EvCheckOwnership
| EvGenerate
| EvNewClient
| EvGetClient (username : string)
| EvGetRole (role : string)
| EvCreateRole (role : string) (acls : list adapterACL)
| EvCreateClient (username : string)
| EvDisableClient (username : string)
| EvEnableClient (username : string)
| EvSetClientPassword (username password : string)
| EvAddClientRole (username role : string)
| EvLogin (username password : string)
| EvVerifyRevoked (username : string).

#[export] Instance Event_eq_dec : EqDecision Event.
Proof. solve_decision. Defined.

(** The commands that change the broker. *)
Definition mutating (ev : Event) : bool :=
  match ev with
  | EvCreateRole _ _ | EvCreateClient _ | EvDisableClient _ | EvEnableClient _ | EvSetClientPassword _ _
  | EvAddClientRole _ _ => true
  | _ => false
  end.

(** The answers after a log whose last event is the question: whether the context
    has ended, the error of a command, the client and the role as decoded from
    the answer, and a generated password. *)
Record BrokerEnv := mkBrokerEnv {
  env_done : list Event -> bool;
  env_error : list Event -> option exec_error;
  env_client : list Event -> DynSecClientMetadata;
  env_role : list Event -> option (string * list adapterACL);
  env_password : list Event -> option string;
}.

Record SimplifiedDynSecConfig := mkDynSecConfig {
  ProtectedUsernames : list string;
  HasVerifyRevoked : bool;
  Qualification : NativeDisableQualification;
}.

Definition BackendUsername : string := "backend_service".

(** [NewSimplifiedDynSecExecutor]; [None] is [ErrInvalidInput].  [capable]: none of
    [NewClient], [Login] and [Rejected] is nil. *)
Definition NewSimplifiedDynSecExecutor (cfg : SimplifiedDynSecConfig) (capable : bool) (timeout : Z)
    : option SimplifiedDynSecConfig :=
  let names := ProtectedUsernames cfg in
  if (negb (Qualification_IsZero (Qualification cfg)) && negb (Qualification_Valid (Qualification cfg)))
     || negb capable || (length names <? 2)%nat || (timeout <=? 0) || (Minute <? timeout)
     || bool_decide ("" ∈ names) || negb (bool_decide (NoDup names))
  then None else Some cfg.

(** ** The state of a request *)

Record CState {uuid : Type} `{UuidLib uuid} := mkCState {
  cs_db : CredentialDB uuid;
  cs_calls : nat;
  cs_log : list Event;
  cs_secret : string;
  cs_busy : bool;
  cs_poisoned : bool;
}.
Arguments CState uuid {H}.
Arguments mkCState {uuid H}.

Section executor.
Context {uuid : Type} `{U : UuidLib uuid}.
Context (env : BrokerEnv) (cfg : SimplifiedDynSecConfig).
Implicit Types (s : CState uuid) (o : Operation uuid).

Definition CM (A : Type) : Type := CState uuid -> A * CState uuid.
Definition cm_ret {A} (a : A) : CM A := fun s => (a, s).
Definition cm_bind {A B} (m : CM A) (k : A -> CM B) : CM B := fun s => let '(a, s') := m s in k a s'.

(** A computation that an error of type [E] ends. *)
Definition XM (E A : Type) : Type := CM (res E A).
Definition x_ret {E A} (a : A) : XM E A := cm_ret (Ok a).
Definition x_fail {E A} (e : E) : XM E A := cm_ret (Err e).
Definition x_bind {E A B} (m : XM E A) (k : A -> XM E B) : XM E B :=
  cm_bind m (fun r => match r with Ok a => k a | Err e => x_fail e end).
(** The same computation with its error replaced. *)
Definition x_or {E F A} (f : E -> F) (m : XM E A) : XM F A :=
  cm_bind m (fun r => match r with Ok a => x_ret a | Err e => x_fail (f e) end).

End executor.
Arguments CM uuid {U} A.
Arguments XM uuid {U} E A.

Notation "'let^' x ':=' m 'in' k" := (cm_bind m (fun x => k))
  (at level 10, x pattern, m at level 100, k at level 200) : go_scope.
Notation "'let%' x ':=' m 'in' k" := (x_bind m (fun x => k))
  (at level 10, x pattern, m at level 100, k at level 200) : go_scope.

Section execute.
Context {uuid : Type} `{U : UuidLib uuid}.
Context (env : BrokerEnv) (cfg : SimplifiedDynSecConfig).
Implicit Types (s : CState uuid) (o : Operation uuid).
Notation X := (XM uuid).

Definition log_event (ev : Event) s : CState uuid :=
  mkCState (cs_db s) (cs_calls s) (cs_log s ++ [ev]) (cs_secret s) (cs_busy s) (cs_poisoned s).

(** One question and its answer. *)
Definition ask {A} (ev : Event) (answer : list Event -> A) : CM uuid A :=
  fun s => let s' := log_event ev s in (answer (cs_log s'), s').

(** A command with no data in its answer. *)
Definition send (ev : Event) : X exec_error unit :=
  let^ err := ask ev (env_error env) in match err with Some e => x_fail e | None => x_ret tt end.

Definition ctx_done : CM uuid bool := ask EvContext (env_done env).

(** [if ctx.Err() != nil { return err }] *)
Definition unless_done {E} (e : E) : X E unit :=
  let^ ended := ctx_done in if ended then x_fail e else x_ret tt.

Definition GetClient (u : string) : X exec_error DynSecClientMetadata :=
  ask (EvGetClient u) (fun log => match env_error env log with Some e => Err e | None => Ok (env_client env log) end).

Definition get_role (role : string) : X exec_error (option (string * list adapterACL)) :=
  ask (EvGetRole role) (fun log => match env_error env log with Some e => Err e | None => Ok (env_role env log) end).

Definition protected (u : string) : bool :=
  bool_decide (u = BackendUsername) || bool_decide (u ∈ ProtectedUsernames cfg).

Definition role_matches (u role : string) (data : option (string * list adapterACL)) : bool :=
  match data with
  | None => false
  | Some (name, acls) =>
      let wanted := adapterGatewayACLs u in
      bool_decide (name = role) && (length acls =? length wanted)%nat
      && forallb (fun acl => (length (filter (fun got => got = acl) acls) =? 1)%nat) wanted
  end.

Definition gateway_role (u : string) : string := "gateway_" +:+ u.

Definition ensureRole (u role : string) (create : bool) : X exec_error unit :=
  if negb (valid_gateway u) || protected u || negb (bool_decide (role = gateway_role u)) then x_fail ErrInvalidInput
  else
    let^ first := get_role role in
    let% data :=
      match first with
      | Err ErrRoleAbsent =>
          if negb create then x_fail ErrRecoveryRequired
          else let% _ := send (EvCreateRole role (adapterGatewayACLs u)) in get_role role
      | r => cm_ret r
      end in
    if role_matches u role data then x_ret tt else x_fail ErrRecoveryRequired.

(** [target] *)
Definition target o : bool :=
  bool_decide (o_ExecutionContract o = ContractSimplified) && Operation_Validate o
  && bool_decide (o_Status o = OperationPending) && bool_decide (o_Phase o = PhaseIntent)
  && bool_decide (o_Evidence o = no_evidence) && negb (protected (o_GatewayID o))
  && match o_Action o, o_Previous o with
     | ActionProvision, None => true
     | ActionProvision, Some p => bool_decide (s_Status p = CredentialRevoked) || bool_decide (s_Status p = CredentialFailed)
     | ActionRotate, Some p => bool_decide (s_Status p = CredentialActive) && (s_CredentialVersion p <? o_CredentialVersion o)
     | ActionRevoke, Some p => bool_decide (s_Status p = CredentialActive) && (o_CredentialVersion o =? s_CredentialVersion p)
     | ActionReset, p =>
         match o_ResetPredecessorID o, o_ResetReason o with
         | Some pred, Some reason => negb (bool_decide (pred = uuid_Nil)) && ResetReason_Validate reason
         | _, _ => false
         end
         && match p with Some p => s_CredentialVersion p <? o_CredentialVersion o | None => true end
     | _, _ => false
     end.

(** A refusal before anything was sent that could change the broker. *)
Definition Refusal : Type := ExecutionOutcome * exec_error.
Definition unchanged {A} (err : exec_error) : X Refusal A := x_fail (ExecutionUnchangedFailure, err).
Definition uncertain {A} : X Refusal A := x_fail (ExecutionRecoveryRequired, ErrRecoveryRequired).

(** The password and the connection. *)
Definition acquire (generate : option (X ErrorCode string)) : X Refusal string :=
  match generate with
  | None => unchanged ErrVerificationFailed
  | Some generate =>
      let^ p := generate in
      match p with
      | Err _ => unchanged ErrVerificationFailed
      | Ok secret =>
          if negb (validPassword secret) then unchanged ErrVerificationFailed
          else
            let% _ := unless_done (ExecutionUnchangedFailure, ErrVerificationFailed) in
            let% _ := x_or (fun _ => (ExecutionUnchangedFailure, ErrVerificationFailed)) (send EvNewClient) in
            let% _ := unless_done (ExecutionUnchangedFailure, ErrVerificationFailed) in
            x_ret secret
      end
  end.

(** The client on the broker, [None] when it is absent. *)
Definition inspect_client (u : string) : X Refusal (option DynSecClientMetadata) :=
  let^ r := GetClient u in
  match r with
  | Ok native => x_ret (Some native)
  | Err ErrClientAbsent => x_ret None
  | Err _ => unchanged ErrVerificationFailed
  end.

Definition client_is (native : option DynSecClientMetadata) (u : string) (disabled : bool) : bool :=
  match native with Some n => adapterClientMatches n u (gateway_role u) disabled | None => false end.

(** The baseline each action needs. *)
Definition check_baseline o (native : option DynSecClientMetadata) : X Refusal unit :=
  let u := o_GatewayID o in
  match o_Action o with
  | ActionProvision =>
      match o_Previous o, native with
      | None, Some _ => uncertain
      | Some _, Some n => if adapterClientMatches n u (gateway_role u) true then x_ret tt else uncertain
      | _, None => x_ret tt
      end
  | ActionRotate =>
      if negb (client_is native u false) then uncertain
      else x_or (fun _ => (ExecutionRecoveryRequired, ErrRecoveryRequired)) (ensureRole u (gateway_role u) false)
  | ActionReset =>
      if bool_decide (o_ResetReason o = Some ResetReasonLostSecretRecovery) then
        if client_is native u false then x_ret tt else uncertain
      else match native with
      | Some n => if bool_decide (n_Username n = u) then x_ret tt else uncertain
      | None => x_ret tt
      end
  | _ => x_ret tt
  end.

(** The commands of an action; [absent] is what the baseline found. *)
Definition mutate_broker o (native : option DynSecClientMetadata) (secret : string) : X exec_error unit :=
  let u := o_GatewayID o in
  let role := gateway_role u in
  let absent := bool_decide (native = None) in
  let when (b : bool) (m : X exec_error unit) := if b then m else x_ret tt in
  match o_Action o with
  | ActionProvision =>
      let% _ := ensureRole u role true in
      let% _ := when absent (send (EvCreateClient u)) in
      let% _ := send (EvDisableClient u) in
      let% _ := send (EvSetClientPassword u secret) in
      let% _ := when absent (send (EvAddClientRole u role)) in
      send (EvEnableClient u)
  | ActionRotate =>
      let% _ := send (EvDisableClient u) in
      let% disabled := GetClient u in
      if negb (adapterClientMatches disabled u role true) then x_fail ErrRecoveryRequired
      else
        let% _ := ensureRole u role false in
        let% _ := unless_done ErrRecoveryRequired in
        let% _ := send (EvSetClientPassword u secret) in
        send (EvEnableClient u)
  | ActionReset =>
      let% _ := ensureRole u role true in
      let% _ := when absent (send (EvCreateClient u)) in
      let% _ := send (EvDisableClient u) in
      let% _ := send (EvSetClientPassword u secret) in
      let% _ := when (match native with None => true | Some n => bool_decide (n_Roles n = []) end)
                  (send (EvAddClientRole u role)) in
      send (EvEnableClient u)
  | _ => x_ret tt
  end.

Definition ram_applied : SimplifiedExecutionEvidence :=
  mkExecutionEvidence true false false false false false no_qualification.
Definition login_verified : SimplifiedExecutionEvidence :=
  mkExecutionEvidence true true false false false false no_qualification.

(** After the mutation an error leaves the evidence gathered so far. *)
Definition verify_broker o (secret : string) : X SimplifiedExecutionEvidence SimplifiedExecutionEvidence :=
  let u := o_GatewayID o in
  let% after := x_or (fun _ => no_execution_evidence) (GetClient u) in
  if negb (adapterClientMatches after u (gateway_role u) false) then x_fail no_execution_evidence
  else
    let% _ := x_or (fun _ => no_execution_evidence) (ensureRole u (gateway_role u) false) in
    let% _ := x_or (fun _ => ram_applied) (send (EvLogin u secret)) in
    let% _ := unless_done login_verified in
    x_ret login_verified.

(** The result of the two halves; the deferred function sets the outcome. *)
Definition refused o (r : Refusal) : SimplifiedExecutionResult uuid * option exec_error :=
  (mkExecutionResult (o_OperationID o) (fst r) no_execution_evidence false, Some (snd r)).

Definition finished o (r : res SimplifiedExecutionEvidence SimplifiedExecutionEvidence)
    : SimplifiedExecutionResult uuid * option exec_error :=
  match r with
  | Ok e => (mkExecutionResult (o_OperationID o) ExecutionVerifiedSuccess e true, None)
  | Err e => (mkExecutionResult (o_OperationID o) ExecutionRecoveryRequired e true, Some ErrRecoveryRequired)
  end.

Definition disabled_observed : SimplifiedExecutionEvidence :=
  mkExecutionEvidence true false false false true false no_qualification.
Definition revocation_observed : SimplifiedExecutionEvidence :=
  mkExecutionEvidence true false false false true true (Qualification cfg).

Definition revocable : bool := Qualification_Valid (Qualification cfg) && HasVerifyRevoked cfg.

Definition revoke_baseline o : X Refusal unit :=
  let u := o_GatewayID o in
  let early := (ExecutionUnchangedFailure, ErrVerificationFailed) in
  if negb (target o) then unchanged ErrInvalidInput
  else if negb revocable then unchanged ErrLifecycleUnavailable
  else
    let% _ := unless_done early in
    let% _ := x_or (fun _ => early) (send EvNewClient) in
    let% _ := unless_done early in
    let^ native := GetClient u in
    match native with
    | Err _ => uncertain
    | Ok n =>
        if negb (adapterClientMatches n u (gateway_role u) false) then uncertain
        else
          let% _ := x_or (fun _ => (ExecutionRecoveryRequired, ErrRecoveryRequired)) (ensureRole u (gateway_role u) false) in
          unless_done early
    end.

Definition revoke_broker o : X SimplifiedExecutionEvidence SimplifiedExecutionEvidence :=
  let u := o_GatewayID o in
  let% _ := x_or (fun _ => no_execution_evidence) (send (EvDisableClient u)) in
  let% after := x_or (fun _ => no_execution_evidence) (GetClient u) in
  if negb (adapterClientMatches after u (gateway_role u) true) then x_fail no_execution_evidence
  else
    let% _ := x_or (fun _ => no_execution_evidence) (ensureRole u (gateway_role u) false) in
    let% _ := x_or (fun _ => disabled_observed) (send (EvVerifyRevoked u)) in
    let% _ := unless_done revocation_observed in
    x_ret revocation_observed.

Definition executeRevoke o : CM uuid (SimplifiedExecutionResult uuid * option exec_error) :=
  let^ r := revoke_baseline o in
  match r with
  | Err refusal => cm_ret (refused o refusal)
  | Ok _ => let^ r := revoke_broker o in cm_ret (finished o r)
  end.

(** Everything of [Execute] up to [res.Mutated = true]. *)
Definition baseline o (generate : option (X ErrorCode string)) : X Refusal (string * option DynSecClientMetadata) :=
  let% secret := acquire generate in
  let% native := inspect_client (o_GatewayID o) in
  let% _ := check_baseline o native in
  let% _ := unless_done (ExecutionUnchangedFailure, ErrVerificationFailed) in
  x_ret (secret, native).

Definition Execute o (generate : option (X ErrorCode string))
    : CM uuid (SimplifiedExecutionResult uuid * option exec_error) :=
  if negb (target o) then cm_ret (refused o (ExecutionUnchangedFailure, ErrInvalidInput))
  else if bool_decide (o_Action o = ActionRevoke) then executeRevoke o
  else
    let^ r := baseline o generate in
    match r with
    | Err refusal => cm_ret (refused o refusal)
    | Ok (secret, native) =>
        let^ r :=
          let% _ := x_or (fun _ => no_execution_evidence) (mutate_broker o native secret) in
          verify_broker o secret in
        cm_ret (finished o r)
    end.

(** [CheckRevoked]: the error, if any. *)
Definition CheckRevoked (u : string) : X exec_error unit :=
  if negb (valid_gateway u) || protected u then x_fail ErrInvalidInput
  else if negb revocable then x_fail ErrLifecycleUnavailable
  else
    x_or (fun _ => ErrRecoveryRequired)
      (let% _ := send EvNewClient in
       let% native := GetClient u in
       if negb (adapterClientMatches native u (gateway_role u) true) then x_fail ErrRecoveryRequired
       else
         let% _ := ensureRole u (gateway_role u) false in
         send (EvVerifyRevoked u)).

(** ** The owner's gate *)

(** [ownershipGatedExecutor] of [cmd/server/credential.go]: the database lock of the
    one server is checked before and after an execution. *)
Definition owned_Execute o (generate : option (X ErrorCode string))
    : CM uuid (SimplifiedExecutionResult uuid * option exec_error) :=
  let^ before := send EvCheckOwnership in
  match before with
  | Err _ => cm_ret (mkExecutionResult (o_OperationID o) ExecutionUnchangedFailure no_execution_evidence false,
                     Some (ErrDomain CodeServiceUnavailable))
  | Ok _ =>
      let^ (r, err) := Execute o generate in
      let^ after := send EvCheckOwnership in
      match after with
      | Err _ => cm_ret (mkExecutionResult (o_OperationID o) ExecutionRecoveryRequired no_execution_evidence true,
                         Some (ErrDomain CodeRecoveryRequired))
      | Ok _ => cm_ret (r, err)
      end
  end.

Definition owned_CheckRevoked (u : string) : X exec_error unit :=
  let% _ := x_or (fun _ => ErrDomain CodeRecoveryRequired) (send EvCheckOwnership) in
  CheckRevoked u.

End execute.

(** * MQTT credentials: what the executor sends to the broker

    The commands that change the broker are a prefix of the plan of the action,
    none of them when the result says unchanged, and a password is accepted only
    after it was set on a disabled client and a login with it worked. *)

(** The commands that change the broker, and the login that proves a password. *)
Definition notable (ev : Event) : bool :=
  mutating ev || match ev with EvLogin _ _ => true | _ => false end.
Definition commands (l : list Event) : list Event := filter (fun ev => notable ev = true) l.

Lemma commands_app l l' : commands (l ++ l') = commands l ++ commands l'.
Proof. apply list.filter_app. Qed.

(** The commands of an action: [created] is the role created on the way, [native]
    the client found by the baseline. *)
Definition plan {uuid} (o : Operation uuid) (native : option DynSecClientMetadata) (created : bool) (secret : string)
    : list Event :=
  let u := o_GatewayID o in
  let role := gateway_role u in
  let create := if created then [EvCreateRole role (adapterGatewayACLs u)] else [] in
  let client := if bool_decide (native = None) then [EvCreateClient u] else [] in
  let add (b : bool) := if b then [EvAddClientRole u role] else [] in
  match o_Action o with
  | ActionProvision =>
      create ++ client ++ [EvDisableClient u; EvSetClientPassword u secret] ++ add (bool_decide (native = None))
      ++ [EvEnableClient u; EvLogin u secret]
  | ActionRotate => [EvDisableClient u; EvSetClientPassword u secret; EvEnableClient u; EvLogin u secret]
  | ActionReset =>
      create ++ client ++ [EvDisableClient u; EvSetClientPassword u secret]
      ++ add match native with None => true | Some n => bool_decide (n_Roles n = []) end
      ++ [EvEnableClient u; EvLogin u secret]
  | ActionRevoke => [EvDisableClient u]
  | ActionOther _ => []
  end.

Section spec.
Context {uuid : Type} `{U : UuidLib uuid}.
Context (env : BrokerEnv) (cfg : SimplifiedDynSecConfig).
Implicit Types (s : CState uuid) (o : Operation uuid).

(** ** Traces *)

(** The part of a request's state that the broker has no say in. *)
Definition framed s s' : Prop :=
  cs_db s' = cs_db s /\ cs_calls s' = cs_calls s /\ cs_busy s' = cs_busy s /\ cs_poisoned s' = cs_poisoned s.

(** The computation appends to the log; [P] of its result, the secret then held
    and the commands appended. *)
Definition emits {A} (m : CM uuid A) s (P : A -> string -> list Event -> Prop) : Prop :=
  framed s (snd (m s)) /\ exists l, cs_log (snd (m s)) = cs_log s ++ l /\ P (fst (m s)) (cs_secret (snd (m s))) (commands l).

Lemma emits_ret {A} (a : A) s (P : A -> string -> list Event -> Prop) : P a (cs_secret s) [] -> emits (cm_ret a) s P.
Proof. intros H. split; [done|]. exists []. by rewrite app_nil_r. Qed.

Lemma emits_weaken {A} (m : CM uuid A) s (P Q : A -> string -> list Event -> Prop) :
  emits m s P -> (forall a sec l, P a sec l -> Q a sec l) -> emits m s Q.
Proof. intros [Hf (l & Hl & HP)] H. split; [done|]. eauto. Qed.

Lemma emits_bind {A B} (m : CM uuid A) (k : A -> CM uuid B) s (P : A -> string -> list Event -> Prop) Q :
  emits m s P ->
  (forall a l s1, P a (cs_secret s1) l -> emits (k a) s1 (fun b sec l' => Q b sec (l ++ l'))) ->
  emits (cm_bind m k) s Q.
Proof.
  intros [(Hd & Hc & Hb & Hp) (l & Hl & HP)] Hk. unfold emits, cm_bind in *. destruct (m s) as [a s1]. cbn in *.
  destruct (Hk a _ s1 HP) as [(Hd' & Hc' & Hb' & Hp') (l' & Hl' & HQ)]. split.
  - split_and!; congruence.
  - exists (l ++ l'). rewrite commands_app. split; [|done]. by rewrite Hl', Hl, app_assoc.
Qed.

(** Only the successful branch goes on. *)
Lemma emits_x_bind {E A B} (m : XM uuid E A) (k : A -> XM uuid E B) s (P : res E A -> string -> list Event -> Prop) Q :
  emits m s P ->
  (forall a l s1, P (Ok a) (cs_secret s1) l -> emits (k a) s1 (fun b sec l' => Q b sec (l ++ l'))) ->
  (forall e sec l, P (Err e) sec l -> Q (Err e) sec l) ->
  emits (x_bind m k) s Q.
Proof.
  intros Hm Hk He. eapply emits_bind; [done|]. intros [a|e] l s1 HP; [by apply Hk|].
  apply emits_ret. rewrite app_nil_r. by apply He.
Qed.

Lemma emits_x_or {E F A} (f : E -> F) (m : XM uuid E A) s (P : res F A -> string -> list Event -> Prop) :
  emits m s (fun r sec l => P (match r with Ok a => Ok a | Err e => Err (f e) end) sec l) -> emits (x_or f m) s P.
Proof.
  intros H. eapply emits_bind; [exact H|]. intros [a|e] l s1 HP; apply emits_ret; by rewrite app_nil_r.
Qed.

Lemma emits_ask {A} ev (answer : list Event -> A) s :
  emits (ask ev answer) s (fun _ sec l => sec = cs_secret s /\ l = commands [ev]).
Proof. split; [done|]. by exists [ev]. Qed.

Lemma emits_send ev s : emits (send env ev) s (fun _ sec l => sec = cs_secret s /\ l = commands [ev]).
Proof.
  eapply emits_bind; [apply emits_ask|]. intros [e|] l s1 [Hs ->]; apply emits_ret; by rewrite app_nil_r.
Qed.

(** ** Quiet computations *)

(** Nothing that changes the broker, and the secret stays. *)
Definition quiet {A} (m : CM uuid A) : Prop :=
  forall s, emits m s (fun _ sec l => sec = cs_secret s /\ l = []).

Lemma quiet_ret {A} (a : A) : quiet (cm_ret a).
Proof. intros s. by apply emits_ret. Qed.

Lemma quiet_x_ret {E A} (a : A) : quiet (x_ret (E := E) a).
Proof. apply quiet_ret. Qed.

Lemma quiet_x_fail {E A} (e : E) : quiet (x_fail (A := A) e).
Proof. apply quiet_ret. Qed.

Lemma quiet_bind {A B} (m : CM uuid A) (k : A -> CM uuid B) : quiet m -> (forall a, quiet (k a)) -> quiet (cm_bind m k).
Proof.
  intros Hm Hk s. eapply emits_bind; [apply Hm|]. intros a l s1 [Hs Hl]. eapply emits_weaken; [apply Hk|].
  intros b sec l' [-> ->]. by rewrite Hl.
Qed.

Lemma quiet_x_bind {E A B} (m : XM uuid E A) (k : A -> XM uuid E B) : quiet m -> (forall a, quiet (k a)) -> quiet (x_bind m k).
Proof. intros Hm Hk. apply quiet_bind; [done|]. intros [a|e]; [done|apply quiet_ret]. Qed.

Lemma quiet_x_or {E F A} (f : E -> F) (m : XM uuid E A) : quiet m -> quiet (x_or f m).
Proof. intros Hm. apply quiet_bind; [done|]. intros [a|e]; apply quiet_ret. Qed.

Lemma quiet_ask {A} ev (answer : list Event -> A) : notable ev = false -> quiet (ask ev answer).
Proof.
  intros He s. eapply emits_weaken; [apply emits_ask|]. intros _ sec l [-> ->]. split; [done|].
  unfold commands. by rewrite filter_cons_False by congruence.
Qed.

Lemma quiet_send ev : notable ev = false -> quiet (send env ev).
Proof. intros He. apply quiet_bind; [by apply quiet_ask|]. intros [e|]; apply quiet_ret. Qed.

Lemma quiet_unless_done {E} (e : E) : quiet (unless_done env e).
Proof. apply quiet_bind; [by apply quiet_ask|]. intros []; apply quiet_ret. Qed.

Lemma quiet_role u role : quiet (ensureRole env cfg u role false).
Proof.
  unfold ensureRole. destruct (_ || _ || _); [apply quiet_ret|].
  apply quiet_bind; [by apply quiet_ask|]. intros first. apply quiet_x_bind.
  - destruct first as [d|[]]; apply quiet_ret.
  - intros d. destruct (role_matches _ _ _); apply quiet_ret.
Qed.

Lemma quiet_GetClient u : quiet (GetClient env u).
Proof. by apply quiet_ask. Qed.

End spec.

#[export] Hint Resolve quiet_ret quiet_x_ret quiet_x_fail quiet_GetClient quiet_role quiet_unless_done : quiet.
Ltac quiet := auto 30 with quiet nocore.
#[export] Hint Extern 1 (quiet (send _ _)) => apply quiet_send; reflexivity : quiet.
#[export] Hint Extern 2 (quiet (x_or _ _)) => apply quiet_x_or : quiet.
#[export] Hint Extern 3 (quiet (x_bind _ _)) => apply quiet_x_bind; [|intros ?] : quiet.
#[export] Hint Extern 3 (quiet (cm_bind _ _)) => apply quiet_bind; [|intros ?] : quiet.
#[export] Hint Extern 4 (quiet (match ?x with _ => _ end)) => destruct x : quiet.

Section phases.
Context {uuid : Type} `{U : UuidLib uuid}.
Context (env : BrokerEnv) (cfg : SimplifiedDynSecConfig).
Implicit Types (s : CState uuid) (o : Operation uuid).

(** ** Before the mutation *)

(** A generator of passwords sends no command and keeps the password it made. *)
Definition generates (gen : XM uuid ErrorCode string) : Prop :=
  forall s, emits gen s (fun r sec l => l = [] /\
    match r with Ok p => sec = p /\ validPassword p = true | Err _ => True end).

Lemma quiet_inspect u : quiet (inspect_client (uuid := uuid) env u).
Proof. unfold inspect_client, unchanged. quiet. Qed.

Lemma quiet_baseline o native : quiet (check_baseline (uuid := uuid) env cfg o native).
Proof. unfold check_baseline, uncertain. quiet. Qed.

Lemma quiet_revoke_baseline o : quiet (revoke_baseline (uuid := uuid) env cfg o).
Proof. unfold revoke_baseline, unchanged, uncertain. quiet. Qed.

Lemma quiet_CheckRevoked u : quiet (CheckRevoked (uuid := uuid) env cfg u).
Proof. unfold CheckRevoked. quiet. Qed.

Lemma emits_quiet {A} (m : CM uuid A) s (P : A -> string -> list Event -> Prop) :
  quiet m -> (forall a, P a (cs_secret s) []) -> emits m s P.
Proof. intros Hm HP. eapply emits_weaken; [apply Hm|]. by intros a sec l [-> ->]. Qed.

(** A quiet step first. *)
Lemma emits_after {E A B} (m : XM uuid E A) (k : A -> XM uuid E B) s (Q : res E B -> string -> list Event -> Prop) :
  quiet m -> (forall a s1, cs_secret s1 = cs_secret s -> emits (k a) s1 Q) -> (forall e, Q (Err e) (cs_secret s) []) ->
  emits (x_bind m k) s Q.
Proof.
  intros Hm Hk He. eapply emits_x_bind; [apply Hm| |by intros e sec l [-> ->]]. intros a l s1 [Hs ->]. by apply Hk.
Qed.

(** What [Execute] knows before it sends a command. *)
Definition held {A} (password : A -> string) (r : res Refusal A) (sec : string) (l : list Event) : Prop :=
  l = [] /\ match r with Ok a => sec = password a /\ validPassword (password a) = true | Err _ => True end.

Lemma acquire_held generate s : match generate with Some gen => generates gen | None => True end ->
  emits (acquire env generate) s (held id).
Proof.
  intros Hg. destruct generate as [gen|]; [|by apply emits_ret]. eapply emits_bind; [apply Hg|].
  intros [p|e] l s1 [-> Hp]; cbn; [|by apply emits_ret].
  destruct (negb (validPassword p)); [by apply emits_ret|].
  apply emits_after; [quiet|intros _ s2 Hs2|done]. apply emits_after; [quiet|intros _ s3 Hs3|done].
  apply emits_after; [quiet|intros _ s4 Hs4|done]. apply emits_ret. split; [done|]. split; [|apply Hp]. destruct Hp. cbn. congruence.
Qed.

Lemma baseline_held o generate s : match generate with Some gen => generates gen | None => True end ->
  emits (baseline env cfg o generate) s (held fst).
Proof.
  intros Hg. eapply emits_x_bind; [by apply acquire_held| |by intros e sec l [? _]].
  intros p l s1 [-> [Hs Hv]]. apply emits_after; [apply quiet_inspect|intros native s2 Hs2|done].
  apply emits_after; [apply quiet_baseline|intros _ s3 Hs3|done]. apply emits_after; [quiet|intros _ s4 Hs4|done].
  apply emits_ret. split; [done|]. split; [|done]. cbn in *. congruence.
Qed.

(** ** The mutation *)

(** The commands follow a plan, to its end when there is no error. *)
Definition follows {E A} (m : XM uuid E A) (pl : list Event) : Prop :=
  forall s, emits m s (fun r sec l => sec = cs_secret s /\
    match r with Ok _ => l = pl | Err _ => l `prefix_of` pl end).

Lemma follows_send ev : follows (send env ev) (commands [ev]).
Proof. intros s. eapply emits_weaken; [apply emits_send|]. intros [a|e] sec l [-> ->]; [done|]. split; [done|]. by exists []; rewrite app_nil_r. Qed.

Lemma follows_quiet {E A} (m : XM uuid E A) : quiet m -> follows m [].
Proof. intros Hm s. eapply emits_weaken; [apply Hm|]. by intros [a|e] sec l [-> ->]. Qed.

Lemma follows_bind {E A B} (m : XM uuid E A) (k : A -> XM uuid E B) pl pl' :
  follows m pl -> (forall a, follows (k a) pl') -> follows (x_bind m k) (pl ++ pl').
Proof.
  intros Hm Hk s. eapply emits_x_bind; [apply Hm| |].
  - intros a l s1 [Hs ->]. eapply emits_weaken; [apply Hk|]. intros [b|e] sec l' [-> Hl']; [by subst|].
    split; [done|]. by apply prefix_app.
  - intros e sec l [-> Hl]. split; [done|]. by apply prefix_app_r.
Qed.

Lemma follows_x_or {E F A} (f : E -> F) (m : XM uuid E A) pl : follows m pl -> follows (x_or f m) pl.
Proof. intros Hm s. apply emits_x_or. eapply emits_weaken; [apply Hm|]. by intros [a|e] sec l H. Qed.

Lemma follows_when {E} (b : bool) (m : XM uuid E unit) pl : follows m pl ->
  follows (if b then m else x_ret tt) (if b then pl else []).
Proof. destruct b; [done|]. intros _. by apply follows_quiet, quiet_x_ret. Qed.

(** The role may be created on the way. *)
Lemma emits_role u role s : emits (ensureRole env cfg u role true) s (fun _ sec l => sec = cs_secret s /\
  exists created : bool, l = if created then [EvCreateRole role (adapterGatewayACLs u)] else []).
Proof.
  unfold ensureRole. destruct (_ || _ || _); [apply emits_ret; split; [done|by exists false]|].
  eapply emits_bind; [by apply quiet_ask|]. intros first l s1 [Hs ->].
  eapply (emits_x_bind _ _ _ (fun _ sec l => sec = cs_secret s /\
    exists created : bool, l = if created then [EvCreateRole role (adapterGatewayACLs u)] else [])).
  - destruct first as [d|e]; [apply emits_ret; split; [done|by exists false]|].
    destruct e; try (apply emits_ret; split; [done|by exists false]). cbn.
    eapply emits_x_bind; [apply emits_send| |intros e sec l [-> ->]; split; [done|by exists true]].
    intros _ l s2 [Hs2 ->]. eapply emits_quiet; [by apply quiet_ask|]. intros a. rewrite app_nil_r.
    split; [congruence|by exists true].
  - intros d l s2 [Hs2 [created ->]]. eapply emits_quiet; [quiet|]. intros a. rewrite app_nil_r.
    split; [congruence|by exists created].
  - by intros e sec l H.
Qed.

Lemma follows_after {E A B} (m : XM uuid E A) (k : A -> XM uuid E B) pl :
  quiet m -> (forall a, follows (k a) pl) -> follows (x_bind m k) pl.
Proof. intros Hm Hk. apply (follows_bind m k [] pl); [by apply follows_quiet|done]. Qed.

Lemma follows_nothing {E A} (e : E) pl : follows (x_fail (A := A) e) pl.
Proof. intros s. apply emits_ret. split; [done|]. apply prefix_nil. Qed.

Lemma verify_follows o secret : follows (verify_broker env cfg o secret) [EvLogin (o_GatewayID o) secret].
Proof.
  unfold verify_broker. apply follows_after; [quiet|intros after]. destruct (negb _); [apply follows_nothing|].
  apply follows_after; [quiet|intros _]. apply (follows_bind _ _ [_] []); [apply follows_x_or, follows_send|intros _].
  apply follows_quiet. quiet.
Qed.

Lemma emits_and {A} (m : CM uuid A) s (P Q : A -> string -> list Event -> Prop) :
  emits m s P -> emits m s Q -> emits m s (fun a sec l => P a sec l /\ Q a sec l).
Proof.
  intros [Hf (l & Hl & HP)] [_ (l' & Hl' & HQ)]. split; [done|]. exists l. split_and!; [done..|].
  rewrite Hl in Hl'. by apply app_inv_head in Hl' as ->.
Qed.

Lemma verify_result o secret s : emits (verify_broker env cfg o secret) s (fun r sec l =>
  match r with Ok e => e = login_verified | Err _ => True end).
Proof.
  unfold verify_broker. apply emits_after; [quiet|intros after s1 Hs1|done]. destruct (negb _); [by apply emits_ret|].
  apply emits_after; [quiet|intros _ s2 Hs2|done].
  eapply emits_x_bind; [apply follows_x_or, follows_send|intros _ l s3 _|done].
  apply emits_after; [quiet|intros _ s4 Hs4|done]. by apply emits_ret.
Qed.

(** The commands of an action without the creation of the role. *)
Lemma rotate_follows o native secret : o_Action o = ActionRotate ->
  follows (mutate_broker env cfg o native secret)
    [EvDisableClient (o_GatewayID o); EvSetClientPassword (o_GatewayID o) secret; EvEnableClient (o_GatewayID o)].
Proof.
  intros Ha. unfold mutate_broker. rewrite Ha. apply (follows_bind _ _ [_] [_; _]); [apply follows_send|intros _].
  apply follows_after; [quiet|intros disabled]. destruct (negb _); [apply follows_nothing|].
  apply follows_after; [quiet|intros _]. apply follows_after; [quiet|intros _].
  apply (follows_bind _ _ [_] [_]); [apply follows_send|intros _]. apply follows_send.
Qed.

(** The creation of the role, then a plan. *)
Definition after_role {E A} (u : string) (pl : list Event) s (r : res E A) (sec : string) (l : list Event) : Prop :=
  sec = cs_secret s /\ exists created : bool,
    let pl' := (if created then [EvCreateRole (gateway_role u) (adapterGatewayACLs u)] else []) ++ pl in
    match r with Ok _ => l = pl' | Err _ => l `prefix_of` pl' end.

Lemma role_follows {A} u (k : unit -> XM uuid exec_error A) pl s : (forall a, follows (k a) pl) ->
  emits (x_bind (ensureRole env cfg u (gateway_role u) true) k) s (after_role u pl s).
Proof.
  intros Hk. eapply emits_x_bind; [apply emits_role| |].
  - intros a l s1 [Hs [created ->]]. eapply emits_weaken; [apply Hk|]. intros r sec l' [-> Hl']. split; [done|].
    exists created. destruct r as [b|e]; [by subst|]. by apply prefix_app.
  - intros e sec l [-> [created ->]]. split; [done|]. exists created. by apply prefix_app_r.
Qed.

Lemma mutate_plan o native secret s : o_Action o = ActionProvision \/ o_Action o = ActionReset ->
  exists pl, (forall created, plan o native created secret = ((if created then [EvCreateRole (gateway_role (o_GatewayID o))
      (adapterGatewayACLs (o_GatewayID o))] else []) ++ pl) ++ [EvLogin (o_GatewayID o) secret])
    /\ emits (mutate_broker env cfg o native secret) s (after_role (o_GatewayID o) pl s).
Proof.
  unfold plan, mutate_broker. set (u := o_GatewayID o). intros [-> | ->]; eexists; split;
    [intros created; instantiate (1 := (if bool_decide (native = None) then [EvCreateClient u] else [])
       ++ [EvDisableClient u] ++ [EvSetClientPassword u secret]
       ++ (if bool_decide (native = None) then [EvAddClientRole u (gateway_role u)] else []) ++ [EvEnableClient u]);
     destruct created, (bool_decide (native = None)); reflexivity| |
     intros created; instantiate (1 := (if bool_decide (native = None) then [EvCreateClient u] else [])
       ++ [EvDisableClient u] ++ [EvSetClientPassword u secret]
       ++ (if match native with None => true | Some n => bool_decide (n_Roles n = []) end
           then [EvAddClientRole u (gateway_role u)] else []) ++ [EvEnableClient u]);
     destruct created, (bool_decide (native = None)), native as [n|]; try destruct (bool_decide (n_Roles n = [])); reflexivity|].
  all: apply role_follows; intros _; apply follows_bind; [apply follows_when, follows_send|intros _].
  all: apply follows_bind; [apply follows_send|intros _]; apply follows_bind; [apply follows_send|intros _].
  all: apply follows_bind; [apply follows_when, follows_send|intros _]; apply follows_send.
Qed.

(** What a result says about the commands sent. *)
Definition execution o (r : SimplifiedExecutionResult uuid) (err : option exec_error) (sec : string) (l : list Event) : Prop :=
  r_OperationID r = o_OperationID o /\
  if r_Mutated r then
    exists native created p,
      (l <> [] -> target cfg o = true /\ (o_Action o = ActionRevoke \/ (sec = p /\ validPassword p = true)))
      /\ match err with
         | None => target cfg o = true /\ l = plan o native created p /\ r_Outcome r = ExecutionVerifiedSuccess
             /\ r_Evidence r = if bool_decide (o_Action o = ActionRevoke) then revocation_observed cfg else login_verified
         | Some _ => l `prefix_of` plan o native created p /\ r_Outcome r = ExecutionRecoveryRequired
         end
  else l = [] /\ err <> None /\ r_Evidence r = no_execution_evidence.

Lemma run_plan o native secret s : target cfg o = true -> o_Action o <> ActionRevoke ->
  emits (let% _ := x_or (fun _ => no_execution_evidence) (mutate_broker env cfg o native secret) in
         verify_broker env cfg o secret) s
    (fun r sec l => sec = cs_secret s /\ exists created,
       match r with Ok e => l = plan o native created secret /\ e = login_verified
       | Err _ => l `prefix_of` plan o native created secret end).
Proof.
  intros Ht Hr. assert (o_Action o = ActionRotate \/ o_Action o = ActionProvision \/ o_Action o = ActionReset) as [Ha|Ha].
  { unfold target in Ht. rewrite !andb_true_iff in Ht. destruct Ht as [_ Ht]. destruct (o_Action o), (o_Previous o); naive_solver. }
  - eapply emits_x_bind; [apply follows_x_or; by apply rotate_follows| |].
    + intros [] l s1 [Hs ->]. eapply emits_weaken; [apply emits_and; [apply verify_follows|apply verify_result]|].
      intros r sec l [[-> Hl] Hv]. split; [done|]. exists false. unfold plan. rewrite Ha.
      destruct r as [e|e]; [by subst|]. by apply (prefix_app [EvDisableClient _; EvSetClientPassword _ _; EvEnableClient _]).
    + intros e sec l [-> Hl]. split; [done|]. exists false. unfold plan. rewrite Ha. etrans; [exact Hl|]. by eexists [_].
  - destruct (mutate_plan o native secret s Ha) as (pl & Hpl & Hm).
    eapply (emits_x_bind _ _ _ (fun r => after_role (o_GatewayID o) pl s r)); [apply emits_x_or; eapply emits_weaken; [exact Hm|by intros [|]]| |].
    + intros [] l s1 [Hs [created ->]]. eapply emits_weaken; [apply emits_and; [apply verify_follows|apply verify_result]|].
      intros r sec l [[-> Hl] Hv]. split; [done|]. exists created. rewrite Hpl. destruct r as [e|e]; [by subst|]. by apply prefix_app.
    + intros e sec l [-> [created Hl]]. split; [done|]. exists created. rewrite Hpl. by apply prefix_app_r.
Qed.

Lemma revoke_plan o s : emits (revoke_broker env cfg o) s
  (fun r sec l => match r with Ok e => l = [EvDisableClient (o_GatewayID o)] /\ e = revocation_observed cfg
                  | Err _ => l `prefix_of` [EvDisableClient (o_GatewayID o)] end).
Proof.
  unfold revoke_broker. eapply emits_x_bind; [apply follows_x_or, follows_send| |by intros e sec l [_ Hl]].
  intros a l s1 [_ ->]. apply emits_after; [quiet|intros after s2 _|intros e; by exists []].
  destruct (negb _); [apply emits_ret; by exists []|]. apply emits_after; [quiet|intros _ s3 _|intros e; by exists []].
  apply emits_after; [quiet|intros _ s4 _|intros e; by exists []].
  apply emits_after; [quiet|intros _ s5 _|intros e; by exists []]. by apply emits_ret.
Qed.

Lemma Execute_emits o generate s : match generate with Some gen => generates gen | None => True end ->
  emits (Execute env cfg o generate) s (fun p sec l => execution o (fst p) (snd p) sec l).
Proof.
  intros Hg. unfold Execute. destruct (target cfg o) eqn:Ht; cbn [negb]; [|by apply emits_ret].
  case_bool_decide as Ha.
  - eapply emits_bind; [apply quiet_revoke_baseline|]. intros [a|e] l s1 [Hs ->]; [|by apply emits_ret].
    eapply emits_bind; [apply revoke_plan|]. intros r l s2 Hr. apply emits_ret. unfold execution, plan. rewrite Ha, app_nil_r.
    destruct r as [e|e]; cbn; split; try done; exists None, false, ""; (split; [by split; [|left]|]).
    + by destruct Hr as [-> ->].
    + done.
  - eapply emits_bind; [by apply baseline_held|]. intros [[secret native]|e] l s1 [-> Hh]; [|by apply emits_ret].
    destruct Hh as [Hs Hv]. cbn in Hs, Hv.
    eapply emits_bind; [by apply run_plan|]. intros r l s2 [Hs2 [created Hr]]. apply emits_ret.
    unfold execution. rewrite app_nil_r. rewrite bool_decide_eq_false_2 by done.
    destruct r as [e|e]; cbn; split; try done; exists native, created, secret;
      (split; [split; [done|right; split; [congruence|done]]|]).
    + by destruct Hr as [-> ->].
    + done.
Qed.

Lemma owned_Execute_emits o generate s : match generate with Some gen => generates gen | None => True end ->
  emits (owned_Execute env cfg o generate) s (fun p sec l => execution o (fst p) (snd p) sec l).
Proof.
  intros Hg. unfold owned_Execute. eapply emits_bind; [by apply quiet_send|]. intros [[]|e] l s1 [_ ->]; [|by apply emits_ret].
  eapply emits_bind; [by apply Execute_emits|]. intros [r err] l s2 Hx.
  eapply emits_bind; [by apply quiet_send|]. intros [[]|e] l2 s3 [Hs3 ->]; apply emits_ret; rewrite app_nil_r, Hs3; [exact Hx|].
  cbn in Hx |- *. destruct Hx as [_ Hx]. split; [done|]. cbn. destruct (r_Mutated r).
  - destruct Hx as (native & created & p & Hl & Hx). exists native, created, p. split; [done|]. split; [|done].
    destruct err; [apply Hx|]. by destruct Hx as (_ & -> & _).
  - destruct Hx as (-> & _). exists None, false, "". split; [done|]. split; [apply prefix_nil|done].
Qed.

Lemma quiet_owned_CheckRevoked u : quiet (owned_CheckRevoked (uuid := uuid) env cfg u).
Proof. unfold owned_CheckRevoked. apply quiet_x_bind; [quiet|intros _]. apply quiet_CheckRevoked. Qed.

(** C19 an execution leaves the tables alone and tells the truth about the broker: a
    result that says nothing was mutated was preceded by no command at all; otherwise
    the commands are a beginning of the plan of its action, for the client and the
    role of the Gateway only, which is not protected; and a success has sent the whole
    plan with the password it holds, set while the client was disabled and proved by
    a login.  The ownership of the database lock may be lost before or after it. *)
Theorem Execute_planned o generate s r err s' : match generate with Some gen => generates gen | None => True end ->
  owned_Execute env cfg o generate s = ((r, err), s') ->
  cs_db s' = cs_db s /\ exists sent, cs_log s' = cs_log s ++ sent /\ execution o r err (cs_secret s') (commands sent).
Proof.
  intros Hg H. destruct (owned_Execute_emits o generate s Hg) as [(Hd & _) (l & Hl & Hx)]. rewrite H in *.
  split; [exact Hd|]. by exists l.
Qed.

End phases.
