(* ===== verification/CredentialService.v ===== *)
(** * MQTT credentials: the service

    [mqttcredential/service.go]: provisioning, rotation, revocation and reset on
    the simplified path, with the one worker, the poison flag and the read-back
    before a secret is shown.  The repository is [CredentialStore], the executor
    [CredentialExecutor], composed as [cmd/server] composes them. *)

From S2P Require Import Prelude GoStrings GoTime GoFloat GoJson Identity Uuid Telemetry.
From S2P Require Import Txn HistoryQuery Cursor Credential CredentialStore CredentialExecutor.
#[local] Open Scope Z_scope.

(** The world of one request: the database at each call of the repository, the
    clock read after so many calls, [StartupReady], [NewOperationID] ([None] for
    an error), the supervised prerequisite of a reset and the broker. *)
Record ServiceWorld {uuid : Type} `{UuidLib uuid} := mkServiceWorld {
  sw_call : nat -> CallWorld uuid;
  sw_clock : nat -> Z;
  sw_ready : bool;
  sw_new_id : option uuid;
  sw_quiescent : option (cerror uuid);
  sw_broker : BrokerEnv;
}.
Arguments ServiceWorld uuid {H}.
Arguments mkServiceWorld {uuid H}.

Record SecretResult {uuid : Type} := mkSecretResult {
  sec_Metadata : Metadata uuid;
  sec_OperationID : uuid;
  sec_password : string;
}.
Arguments SecretResult : clear implicits.
Arguments mkSecretResult {uuid}.

Record ProvisionResponse {uuid : Type} := mkProvisionResponse {
  resp_Result : MutationResult uuid;
  resp_Secret : option (SecretResult uuid);
}.
Arguments ProvisionResponse : clear implicits.
Arguments mkProvisionResponse {uuid}.

Section service.
Context {uuid : Type} `{U : UuidLib uuid}.
Context (cfg : SimplifiedDynSecConfig) (W : ServiceWorld uuid).
Implicit Types (s : CState uuid) (o : Operation uuid) (m : Metadata uuid) (actor : uuid).

#[export] Instance BeginResult_eq_dec : EqDecision (BeginResult uuid).
Proof. solve_decision. Defined.

Definition zero_begin_result : BeginResult uuid := mkBeginResult zero_operation zero_metadata false None.

(** ** Effects *)

(** A call of the repository. *)
Definition repo_tx {A} (run : CallWorld uuid -> CredentialDB uuid -> res (cerror uuid) A * CredentialDB uuid)
    : XM uuid (cerror uuid) A :=
  fun s =>
    let '(r, d) := run (sw_call W (cs_calls s)) (cs_db s) in
    (r, mkCState d (S (cs_calls s)) (cs_log s) (cs_secret s) (cs_busy s) (cs_poisoned s)).

Definition repo_read {A} (run : CallWorld uuid -> CredentialDB uuid -> res (cerror uuid) A) : XM uuid (cerror uuid) A :=
  repo_tx (fun w d => (run w d, d)).

Definition now_utc : CM uuid Z := fun s => (sw_clock W (cs_calls s), s).

Definition set_flags (busy poisoned : bool) s : CState uuid :=
  mkCState (cs_db s) (cs_calls s) (cs_log s) (cs_secret s) busy poisoned.
Definition set_secret (secret : string) s : CState uuid :=
  mkCState (cs_db s) (cs_calls s) (cs_log s) secret (cs_busy s) (cs_poisoned s).

Definition poison : CM uuid unit := fun s => (tt, set_flags (cs_busy s) true s).

(** [if s.busy || s.poisoned { ... }; s.busy = true], and the deferred release
    with the secret dropped. *)
Definition with_lock {A} (body : XM uuid ErrorCode A) : XM uuid ErrorCode A :=
  fun s =>
    if cs_busy s || cs_poisoned s then (Err CodeRuntimeBusy, s)
    else let '(r, s') := body (set_flags true (cs_poisoned s) s) in
         (r, set_secret "" (set_flags false (cs_poisoned s') s')).

(** [s.poison(); return ..., &DomainError{code}] *)
Definition poisoned_fail {A} (code : ErrorCode) : XM uuid ErrorCode A :=
  let^ _ := poison in x_fail code.

(** ** Admission *)

(** Whether the refusal is safe, and the code shown. *)
Definition evaluateAdmissionError (b : BeginResult uuid) (err : option (cerror uuid)) : bool * ErrorCode :=
  let '(safe, code) := inspectAdmissionError err in
  if negb (bool_decide (b = zero_begin_result)) || negb safe then (false, CodeServiceUnavailable) else (true, code).

(** The repository's [Begin...]: it returns the zero result with an error. *)
Definition admission (begin : XM uuid (cerror uuid) (BeginResult uuid)) : XM uuid ErrorCode (BeginResult uuid) :=
  let^ r := begin in
  match r with
  | Ok b => x_ret b
  | Err err =>
      let '(safe, code) := evaluateAdmissionError zero_begin_result (Some err) in
      if safe then x_fail code else poisoned_fail code
  end.

Definition operationGuard o m : OperationGuard uuid :=
  mkOperationGuard (o_GatewayID o) (o_OperationID o) (o_Status o) (m_Status m) (m_CredentialVersion m).

(** The administrator check before anything else. *)
Definition require_admin actor : XM uuid ErrorCode unit :=
  let^ r := repo_read (fun w => IsPlatformAdmin w actor) in
  match r with
  | Err err => x_fail (serviceError err)
  | Ok false => x_fail CodeForbidden
  | Ok true => x_ret tt
  end.

Definition new_operation_id : XM uuid ErrorCode uuid :=
  match sw_new_id W with
  | Some id => if bool_decide (id = uuid_Nil) then x_fail CodeInternalError else x_ret id
  | None => x_fail CodeInternalError
  end.

(** [Metadata] *)
Definition service_Metadata actor (g : string) : XM uuid ErrorCode (Metadata uuid) :=
  if bool_decide (actor = uuid_Nil) || negb (valid_gateway g) then x_fail CodeInvalidRequest
  else
    let% _ := require_admin actor in
    x_or serviceError (repo_read (fun w => GetMetadata w g)).

(** ** Execution *)

(** [gen]: one password per request. *)
Definition generator : XM uuid ErrorCode string :=
  let^ ended := ctx_done (sw_broker W) in
  fun s =>
    if ended || negb (bool_decide (cs_secret s = "")) then (Err CodeInternalError, s)
    else
      (let^ p := ask EvGenerate (env_password (sw_broker W)) in
       match p with
       | None => x_fail CodeInternalError
       | Some p =>
           let^ ended := ctx_done (sw_broker W) in
           if ended || negb (validPassword p) then x_fail CodeInternalError
           else fun s => (Ok p, set_secret p s)
       end) s.

Definition service_evidence (action : Action) (id : uuid) (r : SimplifiedExecutionResult uuid) : VerificationEvidence :=
  if bool_decide (r_OperationID r = id) then
    let e := r_Evidence r in
    mkEvidence (x_RAMApplied e) (bool_decide (action = ActionRevoke) && x_NativePersistedRoleACLObserved e)
      (x_FreshPositiveVerified e)
  else no_evidence.

(** What the observations of a result must be. *)
Definition observations_suffice (action : Action) (e : SimplifiedExecutionEvidence) (secret : string) : bool :=
  negb (x_ProtocolDenialVerified e) && negb (x_SessionHandlingVerified e) &&
  match action with
  | ActionRevoke =>
      x_NativeDisabledObserved e && x_NativePersistedRoleACLObserved e && Qualification_Valid (x_Qualification e)
      && negb (x_FreshPositiveVerified e) && bool_decide (secret = "")
  | ActionReset => x_FreshPositiveVerified e && validPassword secret
  | _ =>
      x_FreshPositiveVerified e && negb (x_NativeDisabledObserved e) && negb (x_NativePersistedRoleACLObserved e)
      && Qualification_IsZero (x_Qualification e) && validPassword secret
  end.

Definition execution_verified (action : Action) (id : uuid) (r : SimplifiedExecutionResult uuid) (err : option exec_error)
    (secret : string) : bool :=
  bool_decide (err = None) && bool_decide (r_OperationID r = id) && r_Mutated r
  && bool_decide (r_Outcome r = ExecutionVerifiedSuccess) && x_RAMApplied (r_Evidence r)
  && observations_suffice action (r_Evidence r) secret.

(** The executor proves that nothing was changed. *)
Definition known_unchanged (id : uuid) (r : SimplifiedExecutionResult uuid) : bool :=
  bool_decide (r_OperationID r = id) && negb (r_Mutated r) && bool_decide (r_Outcome r = ExecutionUnchangedFailure)
  && bool_decide (r_Evidence r = no_execution_evidence).

(** A request that is not verified ends here. *)
Definition record_failure o m (known : bool) (evidence : VerificationEvidence) : CM uuid unit :=
  let^ _ := if known then cm_ret tt else poison in
  let^ now := now_utc in
  match CompleteOperation o (if known then ExecutionUnchangedFailure else ExecutionRecoveryRequired) evidence now with
  | Err _ => poison
  | Ok c =>
      let u := mkOperationUpdate (operationGuard o m) c in
      let^ r := repo_tx (fun w => if known then FailKnown w u else RequireRecovery w u) in
      match r with Err _ => poison | Ok _ => cm_ret tt end
  end.

(** What is read back before a success is shown. *)
Definition readback_matches (o : Operation uuid) (g : string) (c : Completion uuid) (confirmed : Operation uuid)
    (latest : Metadata uuid) : bool :=
  sameCompletion (mkCompletion confirmed (c_Credential c)) c && validSimplifiedMetadata latest g
  && bool_decide (m_LastOperationID latest = o_OperationID o)
  && (m_CredentialVersion latest =? s_CredentialVersion (c_Credential c))
  && bool_decide (m_Status latest = s_Status (c_Credential c))
  && bool_decide (m_OperationStatus latest = OperationSucceeded)
  && bool_decide (canonicalSnapshot (metadata_snapshot latest) = canonicalSnapshot (c_Credential c))
  && bool_decide (m_LastErrorCode latest = None).

(** The answer of [ConditionalFinalize]: an error is tolerated by a reset only. *)
Definition finalized_matches (tolerant : bool) (finalized : res (cerror uuid) (Metadata uuid)) (latest : Metadata uuid)
    : bool :=
  match finalized with Ok f => sameSimplifiedMetadata f latest | Err _ => tolerant end.

(** Finalize, then read back. *)
Definition finalize o m (tolerant : bool) (evidence : VerificationEvidence) : XM uuid ErrorCode (Metadata uuid) :=
  let^ now := now_utc in
  match CompleteOperation o ExecutionVerifiedSuccess evidence now with
  | Err _ => poisoned_fail CodeRecoveryRequired
  | Ok c =>
      let^ finalized := repo_tx (fun w => ConditionalFinalize w (mkOperationUpdate (operationGuard o m) c)) in
      let^ confirmed := repo_read (fun w => ResolveCommitAmbiguity w (o_OperationID o)) in
      let^ latest := repo_read (fun w => GetMetadata w (o_GatewayID o)) in
      match confirmed, latest with
      | Ok confirmed, Ok latest =>
          if readback_matches o (o_GatewayID o) c confirmed latest && finalized_matches tolerant finalized latest
          then x_ret latest else poisoned_fail CodeFinalizationPending
      | _, _ => poisoned_fail CodeFinalizationPending
      end
  end.

(** Execution and its end, for an admitted intent. *)
Definition run_operation o m : XM uuid ErrorCode (ProvisionResponse uuid) :=
  let action := o_Action o in
  let id := o_OperationID o in
  let generate := if bool_decide (action = ActionRevoke) then None else Some generator in
  let^ (r, err) := owned_Execute (sw_broker W) cfg o generate in
  fun s =>
    let secret := cs_secret s in
    let evidence := service_evidence action id r in
    (if negb (execution_verified action id r err secret) then
       let^ _ := record_failure o m (known_unchanged id r) evidence in x_fail CodeRecoveryRequired
     else
       let% latest := finalize o m (bool_decide (action = ActionReset)) evidence in
       let issued := negb (bool_decide (action = ActionRevoke)) in
       x_ret (mkProvisionResponse (mkMutationResult latest id issued "" (OperationOther "") None)
                (if issued then Some (mkSecretResult latest id secret) else None))) s.

(** ** Provision, rotate and revoke *)

(** A replay is checked against the repository's own answer. *)
Definition answer_replay (b : BeginResult uuid) (replay : MutationResult uuid) (g : string)
    (check : XM uuid ErrorCode unit) : XM uuid ErrorCode (ProvisionResponse uuid) :=
  let m := b_Metadata b in
  if b_Execute b || negb (validSimplifiedMetadata m g) || mr_SecretReturned replay
     || negb (sameSimplifiedMetadata (mr_Metadata replay) m)
  then poisoned_fail CodeRecoveryRequired
  else let% _ := check in x_ret (mkProvisionResponse replay None).

(** Nothing to revoke: the state of the broker is looked at. *)
Definition check_noop (action : Action) m (g : string) : XM uuid ErrorCode unit :=
  if negb (bool_decide (action = ActionRevoke)) || negb (bool_decide (m_Status m = CredentialRevoked))
  then poisoned_fail CodeRecoveryRequired
  else
    let^ checked := owned_CheckRevoked (sw_broker W) cfg g in
    match checked with
    | Err _ => poisoned_fail CodeRecoveryRequired
    | Ok _ =>
        let^ latest := repo_read (fun w => GetMetadata w g) in
        match latest with
        | Ok latest => if sameSimplifiedMetadata latest m then x_ret tt else poisoned_fail CodeRecoveryRequired
        | Err _ => poisoned_fail CodeRecoveryRequired
        end
    end.

Definition check_replay (replayed : res ErrorCode (MutationResult uuid)) o (replay : MutationResult uuid)
    : XM uuid ErrorCode unit :=
  match replayed with
  | Ok r => if bool_decide (o_ExecutionContract o = ContractSimplified) && bool_decide (r = replay)
            then x_ret tt else poisoned_fail CodeRecoveryRequired
  | Err _ => poisoned_fail CodeRecoveryRequired
  end.

(** The intent is exactly the one asked for. *)
Definition intent_matches actor (id : uuid) (g : string) (key : uuid) (action : Action) o m : bool :=
  Operation_Validate o && bool_decide (o_ExecutionContract o = ContractSimplified)
  && bool_decide (o_OperationID o = id) && bool_decide (o_ActorUserID o = actor)
  && bool_decide (o_GatewayID o = g) && bool_decide (o_IdempotencyKey o = key) && bool_decide (o_Action o = action)
  && bool_decide (o_Status o = OperationPending) && bool_decide (o_Phase o = PhaseIntent)
  && bool_decide (o_Evidence o = no_evidence) && validSimplifiedMetadata m g
  && bool_decide (m_LastOperationID m = id) && (m_CredentialVersion m =? o_CredentialVersion o)
  && bool_decide (m_OperationStatus m = OperationPending).

Definition mutate_locked actor (input : MutationInput uuid) : XM uuid ErrorCode (ProvisionResponse uuid) :=
  let action := mi_Action input in
  let g := mi_GatewayID input in
  let% id := new_operation_id in
  let% b := admission (repo_tx (fun w => BeginSimplifiedOperation w (mkBeginRequest actor id input))) in
  let o := b_Operation b in
  let m := b_Metadata b in
  match b_Replay b with
  | Some replay =>
      answer_replay b replay g
        (if bool_decide (mr_OperationID replay = uuid_Nil) then check_noop action m g
         else check_replay (ReplayOperation o actor input m) o replay)
  | None =>
      let expected := BeginCredentialStatus (match o_Previous o with Some p => s_Status p | None => no_credential end) action in
      if negb (b_Execute b) || negb (intent_matches actor id g (mi_IdempotencyKey input) action o m)
         || negb (bool_decide (expected = Ok (m_Status m)))
      then poisoned_fail CodeRecoveryRequired
      else run_operation o m
  end.

Definition mutateSimplified actor (input : MutationInput uuid) (action : Action)
    : XM uuid ErrorCode (ProvisionResponse uuid) :=
  if negb (ValidateMutationInput actor input) || negb (bool_decide (mi_Action input = action))
  then x_fail CodeInvalidRequest
  else if negb (sw_ready W) then x_fail CodeServiceUnavailable
  else
    let% _ := require_admin actor in
    with_lock (mutate_locked actor input).

Definition service_Provision actor input := mutateSimplified actor input ActionProvision.
Definition service_Rotate actor input := mutateSimplified actor input ActionRotate.
Definition service_Revoke actor input : XM uuid ErrorCode (MutationResult uuid) :=
  let% r := mutateSimplified actor input ActionRevoke in x_ret (resp_Result r).

(** ** Reset *)

(** The current operation, looked at before the prerequisite. *)
Definition reset_target (input : ResetInput uuid) : XM uuid ErrorCode (Operation uuid * Metadata uuid) :=
  let g := ri_GatewayID input in
  let^ meta := repo_read (fun w => GetMetadata w g) in
  match meta with
  | Err err => poisoned_fail (serviceError err)
  | Ok m =>
      if negb (validSimplifiedMetadata m g) then poisoned_fail CodeRecoveryRequired
      else
        let^ pred := repo_read (fun w => ResolveCommitAmbiguity w (m_LastOperationID m)) in
        match pred with
        | Err err => poisoned_fail (serviceError err)
        | Ok pred =>
            if negb (bool_decide (o_GatewayID pred = g)) || negb (bool_decide (o_ExecutionContract pred = ContractSimplified))
            then poisoned_fail CodeRecoveryRequired
            else match CheckResetEligibility m pred (ri_Reason input) with
            | Some code => x_fail code
            | None => x_ret (pred, m)
            end
        end
  end.

Definition reset_locked actor (input : ResetInput uuid) : XM uuid ErrorCode (ProvisionResponse uuid) :=
  let g := ri_GatewayID input in
  let% (pred, m0) := reset_target input in
  let% _ := match sw_quiescent W with Some err => x_fail (serviceError err) | None => x_ret tt end in
  let% id := new_operation_id in
  let% b := admission (repo_tx (fun w => BeginReset w
                         (mkBeginResetRequest actor id input (m_LastOperationID m0) (Some (operationGuard pred m0))))) in
  let o := b_Operation b in
  let m := b_Metadata b in
  match b_Replay b with
  | Some replay => answer_replay b replay g (check_replay (replayResetOperation o actor input m) o replay)
  | None =>
      if negb (b_Execute b) || negb (intent_matches actor id g (ri_IdempotencyKey input) ActionReset o m)
         || negb (bool_decide (o_ResetReason o = Some (ri_Reason input)))
         || negb (bool_decide (o_ResetPredecessorID o = Some (m_LastOperationID m0)))
         || negb (bool_decide (m_Status m = CredentialRotating))
      then poisoned_fail CodeRecoveryRequired
      else run_operation o m
  end.

Definition service_Reset actor (input : ResetInput uuid) : XM uuid ErrorCode (ProvisionResponse uuid) :=
  let g := ri_GatewayID input in
  if negb (ValidateResetInput actor input) then x_fail CodeInvalidRequest
  else if negb (sw_ready W) then x_fail CodeServiceUnavailable
  else
    let% _ := require_admin actor in
    let% found := x_or serviceError (repo_read (fun w => LookupResetReplay w actor input)) in
    match found with
    | Some (o, m) =>
        if negb (validSimplifiedMetadata m g) then poisoned_fail CodeRecoveryRequired
        else match replayResetOperation o actor input m with
        | Ok replay =>
            if negb (bool_decide (o_ExecutionContract o = ContractSimplified)) then poisoned_fail CodeRecoveryRequired
            else x_ret (mkProvisionResponse replay None)
        | Err _ => poisoned_fail CodeRecoveryRequired
        end
    | None => with_lock (reset_locked actor input)
    end.

End service.
