(* ===== verification/CredentialJournal.v ===== *)
(** * MQTT credentials: the journal stays consistent

    The state of the credential tables as operations, its invariant, and the
    order in which journals grow: admission, reset and completion keep both,
    however the database answers. *)

From S2P Require Import Prelude GoStrings GoTime GoFloat GoJson Identity Uuid Telemetry.
From S2P Require Import Txn HistoryQuery Cursor Credential CredentialStore.
#[local] Open Scope Z_scope.

Section journal.
Context {uuid : Type} `{U : UuidLib uuid}.
Implicit Types (d : CredentialDB uuid) (w : CallWorld uuid) (e : EventRow uuid) (o : Operation uuid)
  (c : CredentialRow uuid) (id : uuid) (g : string).

(** ** Rows as operations *)

Definition row_of o : EventRow uuid :=
  mkEventRow (o_OperationID o) (Some (o_ActorUserID o)) (o_GatewayID o) (Some (o_IdempotencyKey o)) (o_Action o)
    (Some (o_CredentialVersion o)) (o_Status o) (Some (o_Phase o)) (o_Evidence o) (o_DeliveryStatus o)
    (o_CreatedAt o) (Some (o_UpdatedAt o)) (o_CompletedAt o)
    (s_Status <$> o_Previous o) (s_CredentialVersion <$> o_Previous o) (previous_activated o) (previous_revoked o)
    (o_ErrorCode o) false (o_RecoveryID o) (o_ReplacementPredecessorID o) (o_ExecutionContract o)
    (o_ResetPredecessorID o) (o_ResetReason o).

Lemma project_row o : project (row_of o) = o.
Proof. destruct o as [????????????? [[]|] ??????]; reflexivity. Qed.

Lemma row_of_inj o o' : row_of o = row_of o' -> o = o'.
Proof. intros H. by rewrite <- (project_row o), H, project_row. Qed.

(** The operation of an identity. *)
Definition recorded d id o : Prop := cd_events d !! id = Some (row_of o).

Lemma recorded_inj d id o o' : recorded d id o -> recorded d id o' -> o = o'.
Proof. unfold recorded. intros H H'. apply row_of_inj. congruence. Qed.

Lemma events_list_elem d e : e ∈ events_list d <-> exists id, cd_events d !! id = Some e.
Proof.
  unfold events_list. rewrite list_elem_of_fmap. split.
  - intros ([id e'] & -> & H). exists id. by apply elem_of_map_to_list.
  - intros (id & H). exists (id, e). split; [done|]. by apply elem_of_map_to_list.
Qed.

(** ** Operations of this engine *)

Record op_ok o : Prop := {
  ok_valid : ValidateHistorical o = true;
  ok_contract : o_ExecutionContract o = ContractSimplified;
  ok_recovery : o_RecoveryID o = None;
  ok_replacement : o_ReplacementPredecessorID o = None;
  ok_actor : o_ActorUserID o <> uuid_Nil;
  ok_previous : previous_admits o = true;
  ok_canonical : canonical_operation o = o;
  ok_created : zero_instant < o_CreatedAt o;
  ok_updated : o_CreatedAt o <= o_UpdatedAt o;
  ok_completed : o_CompletedAt o = if settled (o_Status o) then Some (o_UpdatedAt o) else None;
  ok_pending : o_Status o = OperationPending -> o_Phase o = PhaseIntent /\ o_Evidence o = no_evidence /\ o_ErrorCode o = None;
  ok_failed : o_Status o = OperationFailed -> o_Evidence o = no_evidence;
}.

(** The error the projection shows. *)
Definition shown_error o : option ErrorCode :=
  match o_Status o with OperationPending | OperationSucceeded => None | _ => o_ErrorCode o end.

Definition row_snapshot c : CredentialSnapshot :=
  mkSnapshot (cr_status c) (cr_version c) (cr_activated_at c) (cr_revoked_at c).

(** The projection of a Gateway and its current operation. *)
Definition current d g c o : Prop :=
  cd_credentials d !! g = Some c /\ cr_last_operation_id c = Some (o_OperationID o)
  /\ recorded d (o_OperationID o) o /\ o_GatewayID o = g.

Record journal_ok d : Prop := {
  jo_event : forall id e, cd_events d !! id = Some e -> exists o, e = row_of o /\ o_OperationID o = id /\ op_ok o;
  jo_key : forall o o', recorded d (o_OperationID o) o -> recorded d (o_OperationID o') o' ->
    o_ActorUserID o = o_ActorUserID o' -> o_IdempotencyKey o = o_IdempotencyKey o' -> o = o';
  jo_version : forall o o', recorded d (o_OperationID o) o -> recorded d (o_OperationID o') o' ->
    o_GatewayID o = o_GatewayID o' -> o_Action o <> ActionRevoke -> o_Action o' <> ActionRevoke ->
    o_CredentialVersion o = o_CredentialVersion o' -> o = o';
  jo_current : forall g c, cd_credentials d !! g = Some c -> exists o, current d g c o
    /\ effective d (o_OperationID o) = true /\ row_snapshot c = projection_of o
    /\ cr_last_error_code c = shown_error o /\ credential_checked c = true;
  jo_gateway : forall o, recorded d (o_OperationID o) o -> is_Some (cd_credentials d !! o_GatewayID o);
  jo_open : forall o, recorded d (o_OperationID o) o -> unresolved (o_Status o) = true ->
    effective d (o_OperationID o) = true ->
    exists c, cd_credentials d !! o_GatewayID o = Some c /\ cr_last_operation_id c = Some (o_OperationID o);
  jo_disposed : forall p x, cd_dispositions d !! p = Some x -> exists o s, recorded d p o /\ recorded d (d_successor x) s
    /\ o_ResetPredecessorID s = Some p /\ o_GatewayID o = o_GatewayID s /\ d_gateway x = o_GatewayID s;
  jo_replacements : cd_replacements d = ∅;
}.

(** How a journal may grow: nothing is forgotten, identities are kept, settled and
    superseded operations are final, and no observation is lost. *)
Record audit_le d d' : Prop := {
  al_event : forall o, recorded d (o_OperationID o) o -> exists o', recorded d' (o_OperationID o) o'
    /\ same_identity o o' /\ evidence_le (o_Evidence o) (o_Evidence o')
    /\ (settled (o_Status o) = true \/ effective d (o_OperationID o) = false -> o' = o)
    /\ (o_Status o = OperationRecoveryNeeded -> o_Status o' = OperationRecoveryNeeded \/ o_Status o' = OperationSucceeded)
    /\ (o_Status o' = OperationPending -> o' = o);
  al_disposition : forall p x, cd_dispositions d !! p = Some x -> cd_dispositions d' !! p = Some x;
}.

Lemma evidence_le_refl (x : VerificationEvidence) : evidence_le x x.
Proof. done. Qed.

Lemma evidence_le_trans x y z : evidence_le x y -> evidence_le y z -> evidence_le x z.
Proof. unfold evidence_le. naive_solver. Qed.

Lemma same_identity_refl o : same_identity o o.
Proof. by destruct o. Qed.

Lemma same_identity_trans (x y z : Operation uuid) : same_identity x y -> same_identity y z -> same_identity x z.
Proof. unfold same_identity. intros -> ->. reflexivity. Qed.

Lemma same_identity_id o o' : same_identity o o' -> o_OperationID o' = o_OperationID o.
Proof. unfold same_identity. by intros ->. Qed.

Lemma audit_le_refl d : audit_le d d.
Proof.
  split; [|done]. intros o Ho. exists o.
  split_and!; [done|apply same_identity_refl|apply evidence_le_refl|done|by left|done].
Qed.

Lemma effective_le d d' id : audit_le d d' -> cd_replacements d' = cd_replacements d ->
  effective d id = false -> effective d' id = false.
Proof.
  intros Ha Hr. unfold effective. rewrite Hr, !andb_false_iff, !negb_false_iff, !bool_decide_eq_true.
  intros [H|(x & H)]; [by left|right]. exists x. by apply Ha.
Qed.

Lemma audit_le_trans d1 d2 d3 : journal_ok d1 -> journal_ok d2 -> audit_le d1 d2 -> audit_le d2 d3 -> audit_le d1 d3.
Proof.
  intros Hj1 Hj2 H12 H23. split; [|by intros p x Hp; apply H23, H12].
  intros o Ho. destruct (al_event _ _ H12 o Ho) as (o2 & Ho2 & Hid & Hev & Hfin & Hrec & Hpen).
  pose proof (same_identity_id _ _ Hid) as Eid. rewrite <- Eid in Ho2.
  destruct (al_event _ _ H23 o2 Ho2) as (o3 & Ho3 & Hid' & Hev' & Hfin' & Hrec' & Hpen').
  rewrite Eid in Ho3. exists o3. split_and!; [done|by eapply same_identity_trans|by eapply evidence_le_trans|..].
  - intros Hs. rewrite (Hfin Hs) in *. apply Hfin'. destruct Hs as [Hs|Hs]; [by left|right].
    apply (effective_le d1); [done| |done]. by rewrite (jo_replacements _ Hj1), (jo_replacements _ Hj2).
  - intros Hs. destruct (Hrec Hs) as [Hs2|Hs2]; [by apply Hrec'|right].
    rewrite Hfin'; [done|left; by rewrite Hs2].
  - intros Hs. pose proof (Hpen' Hs) as E. rewrite E in Hs |- *. by apply Hpen.
Qed.

(** ** Admission *)

(** The tables after an intent [o] with the projection [c]. *)
Definition with_disposition d o : CredentialDB uuid :=
  match o_ResetPredecessorID o with
  | Some p => set_dispositions d (<[p := mkDisposition (o_OperationID o) (o_GatewayID o)
                                           (default (ResetReasonOther "") (o_ResetReason o))]> (cd_dispositions d))
  | None => d
  end.

Definition admit_intent d o c : CredentialDB uuid :=
  let d1 := with_disposition d o in
  let d2 := set_events d1 (<[o_OperationID o := row_of o]> (cd_events d1)) in
  set_credentials d2 (<[o_GatewayID o := c]> (cd_credentials d2)).

Lemma admit_events d o c : cd_events (admit_intent d o c) = <[o_OperationID o := row_of o]> (cd_events d).
Proof. unfold admit_intent, with_disposition. by destruct (o_ResetPredecessorID o). Qed.

Lemma admit_credentials d o c : cd_credentials (admit_intent d o c) = <[o_GatewayID o := c]> (cd_credentials d).
Proof. unfold admit_intent, with_disposition. by destruct (o_ResetPredecessorID o). Qed.

Lemma admit_replacements d o c : cd_replacements (admit_intent d o c) = cd_replacements d.
Proof. unfold admit_intent, with_disposition. by destruct (o_ResetPredecessorID o). Qed.

Lemma admit_dispositions d o c p x : cd_dispositions (admit_intent d o c) !! p = Some x ->
  (o_ResetPredecessorID o = Some p /\ d_successor x = o_OperationID o /\ d_gateway x = o_GatewayID o)
  \/ (o_ResetPredecessorID o <> Some p /\ cd_dispositions d !! p = Some x).
Proof.
  unfold admit_intent, with_disposition. destruct (o_ResetPredecessorID o) as [q|]; cbn; [|by right].
  intros H. apply lookup_insert_Some in H as [[-> <-]|[Hne H]]; [by left|right]. split; [congruence|done].
Qed.

Lemma admit_dispositions_keep d o c p x : o_ResetPredecessorID o <> Some p ->
  cd_dispositions d !! p = Some x -> cd_dispositions (admit_intent d o c) !! p = Some x.
Proof.
  unfold admit_intent, with_disposition. destruct (o_ResetPredecessorID o) as [q|]; cbn; [|done].
  intros Hne H. rewrite lookup_insert_ne by congruence. done.
Qed.

(** What an admission checks before it writes. *)
Record admissible d o c : Prop := {
  ad_ok : op_ok o;
  ad_pending : o_Status o = OperationPending;
  ad_fresh : cd_events d !! o_OperationID o = None;
  ad_key : forall o', recorded d (o_OperationID o') o' -> o_ActorUserID o' = o_ActorUserID o ->
    o_IdempotencyKey o' <> o_IdempotencyKey o;
  ad_version : o_Action o <> ActionRevoke -> forall o', recorded d (o_OperationID o') o' ->
    o_GatewayID o' = o_GatewayID o -> o_CredentialVersion o' < o_CredentialVersion o;
  ad_open : forall o', recorded d (o_OperationID o') o' -> o_GatewayID o' = o_GatewayID o ->
    unresolved (o_Status o') = true -> effective d (o_OperationID o') = true ->
    o_ResetPredecessorID o = Some (o_OperationID o');
  ad_predecessor : forall p, o_ResetPredecessorID o = Some p ->
    cd_dispositions d !! p = None /\ exists op cp, current d (o_GatewayID o) cp op /\ o_OperationID op = p;
  ad_last : cr_last_operation_id c = Some (o_OperationID o);
  ad_changed : cr_changed_by c = Some (o_ActorUserID o);
  ad_projection : row_snapshot c = projection_of o;
  ad_error : cr_last_error_code c = None;
  ad_checked : credential_checked c = true;
}.

Lemma recorded_admit d o c id o' : cd_events d !! o_OperationID o = None ->
  recorded (admit_intent d o c) id o' <-> (id = o_OperationID o /\ o' = o) \/ recorded d id o'.
Proof.
  intros Hf. unfold recorded. rewrite admit_events. split.
  - intros H. apply lookup_insert_Some in H as [[<- H]|[Hne H]]; [left|by right].
    split; [done|]. symmetry. by apply row_of_inj.
  - intros [[-> ->]|H]; [apply lookup_insert_eq|]. rewrite lookup_insert_ne; [done|]. intros E; congruence.
Qed.

Lemma effective_admit d o c id : journal_ok d -> admissible d o c ->
  effective (admit_intent d o c) id = effective d id && negb (bool_decide (o_ResetPredecessorID o = Some id)).
Proof.
  intros Hj Ha. unfold effective. rewrite admit_replacements, <- andb_assoc. f_equal.
  destruct (decide (o_ResetPredecessorID o = Some id)) as [E|E].
  - rewrite (bool_decide_eq_true_2 _ E), andb_false_r. rewrite bool_decide_eq_true_2; [done|].
    unfold admit_intent, with_disposition. rewrite E. cbn. rewrite lookup_insert_eq. by eexists.
  - rewrite (bool_decide_eq_false_2 _ E), andb_true_r. do 2 f_equal. apply bool_decide_ext. split; intros [x Hx].
    + apply admit_dispositions in Hx as [(Hx & _)|[_ Hx]]; [done|by exists x].
    + exists x. by apply admit_dispositions_keep.
Qed.

Lemma effective_fresh d o c : journal_ok d -> admissible d o c -> effective (admit_intent d o c) (o_OperationID o) = true.
Proof.
  intros Hj Ha. rewrite effective_admit by done. unfold effective. rewrite (jo_replacements _ Hj).
  rewrite (bool_decide_eq_false_2 (o_OperationID o ∈ (∅ : gset uuid))) by set_solver. cbn.
  rewrite !bool_decide_eq_false_2; [done|..].
  - intros E. destruct (ad_predecessor _ _ _ Ha _ E) as (_ & op & cp & (_ & _ & Hr & _) & Hid).
    pose proof (ad_fresh _ _ _ Ha) as Hf. unfold recorded in Hr. rewrite Hid in Hr. congruence.
  - intros [x Hx]. destruct (jo_disposed _ Hj _ _ Hx) as (o1 & _ & Hr & _).
    pose proof (ad_fresh _ _ _ Ha) as Hf. unfold recorded in Hr. congruence.
Qed.

Lemma recorded_id d o id : journal_ok d -> recorded d id o -> o_OperationID o = id /\ op_ok o.
Proof.
  intros Hj Hr. destruct (jo_event _ Hj _ _ Hr) as (o' & E & Hid & Hok). apply row_of_inj in E as <-. done.
Qed.

Lemma current_admit_other d o c g c0 o0 : admissible d o c -> g <> o_GatewayID o ->
  current d g c0 o0 -> current (admit_intent d o c) g c0 o0.
Proof.
  intros Ha Hg (Hc & Hl & Hr & Ho). split_and!; [|done| |done].
  - rewrite admit_credentials, lookup_insert_ne; done.
  - apply recorded_admit; [apply Ha|by right].
Qed.

Lemma admit_current d o c : journal_ok d -> admissible d o c -> forall g c0,
  cd_credentials (admit_intent d o c) !! g = Some c0 -> exists o0, current (admit_intent d o c) g c0 o0
    /\ effective (admit_intent d o c) (o_OperationID o0) = true /\ row_snapshot c0 = projection_of o0
    /\ cr_last_error_code c0 = shown_error o0 /\ credential_checked c0 = true.
Proof.
  intros Hj Ha g c0 Hc. destruct (decide (g = o_GatewayID o)) as [->|Hg].
  - assert (c0 = c) as ->. { rewrite admit_credentials, lookup_insert_eq in Hc. congruence. }
    exists o. split_and!.
    + split_and!; [done|apply Ha| |done]. apply recorded_admit; [apply Ha|by left].
    + by apply effective_fresh.
    + apply Ha.
    + rewrite (ad_error _ _ _ Ha). unfold shown_error. by rewrite (ad_pending _ _ _ Ha).
    + apply Ha.
  - pose proof Hc as Hc'. rewrite admit_credentials, lookup_insert_ne in Hc' by done.
    destruct (jo_current _ Hj _ _ Hc') as (o0 & Hcur & Heff & Hrest). exists o0.
    split; [by apply current_admit_other|]. split; [|done]. rewrite effective_admit, Heff by done. cbn.
    apply negb_true_iff, bool_decide_eq_false. intros E.
    destruct (ad_predecessor _ _ _ Ha _ E) as (_ & op & cp & (_ & _ & Hrp & Hgp) & Hid).
    destruct Hcur as (_ & _ & Hr0 & Hg0). rewrite Hid in Hrp. pose proof (recorded_inj _ _ _ _ Hr0 Hrp). congruence.
Qed.

Lemma journal_admit d o c : journal_ok d -> admissible d o c -> journal_ok (admit_intent d o c).
Proof.
  intros Hj Ha. assert (cd_events d !! o_OperationID o = None) as Hf by apply Ha.
  pose proof (fun id o' => proj1 (recorded_admit d o c id o' Hf)) as Hsplit. split.
  - intros id e He. rewrite admit_events in He. apply lookup_insert_Some in He as [[<- <-]|[_ He]].
    + exists o. split_and!; [done..|apply Ha].
    + by apply Hj.
  - intros o1 o2 H1 H2 Hac Hk. apply Hsplit in H1 as [[_ ->]|H1], H2 as [[_ ->]|H2]; [done|..|by apply (jo_key _ Hj)].
    + by destruct (ad_key _ _ _ Ha _ H2 (eq_sym Hac)).
    + by destruct (ad_key _ _ _ Ha _ H1 Hac).
  - intros o1 o2 H1 H2 Hg Ha1 Ha2 Hv.
    apply Hsplit in H1 as [[_ ->]|H1], H2 as [[_ ->]|H2]; [done|..|by apply (jo_version _ Hj)];
      [pose proof (ad_version _ _ _ Ha Ha1 _ H2 (eq_sym Hg))|pose proof (ad_version _ _ _ Ha Ha2 _ H1 Hg)]; lia.
  - by apply admit_current.
  - intros o' Ho'. rewrite admit_credentials. apply Hsplit in Ho' as [[_ ->]|Ho']; [rewrite lookup_insert_eq; eauto|].
    apply (jo_gateway _ Hj) in Ho' as [c' Hc']. destruct (decide (o_GatewayID o' = o_GatewayID o)) as [->|Hne].
    + rewrite lookup_insert_eq. eauto.
    + rewrite lookup_insert_ne by congruence. eauto.
  - intros o' Ho' Hun Heff. apply Hsplit in Ho' as [[_ ->]|Ho'].
    + exists c. split; [|apply Ha]. by rewrite admit_credentials, lookup_insert_eq.
    + rewrite effective_admit in Heff by done. apply andb_true_iff in Heff as [Heff Hne].
      apply negb_true_iff, bool_decide_eq_false in Hne.
      destruct (jo_open _ Hj _ Ho' Hun Heff) as (c' & Hc' & Hl'). exists c'. split; [|done].
      rewrite admit_credentials, lookup_insert_ne; [done|]. intros E. by apply Hne, (ad_open _ _ _ Ha).
  - intros p x Hx. apply admit_dispositions in Hx as [(E & Hs & Hg)|[_ Hx]].
    + destruct (ad_predecessor _ _ _ Ha _ E) as (_ & op & cp & (_ & _ & Hr & Hgp) & Hid). exists op, o.
      rewrite Hs, Hg. split_and!; [|apply recorded_admit; [done|by left]|done|congruence|done].
      apply recorded_admit; [done|right]. by rewrite <- Hid.
    + destruct (jo_disposed _ Hj _ _ Hx) as (o1 & o2 & H1 & H2 & Hrest). exists o1, o2.
      split_and!; [apply recorded_admit; [done|by right]..|apply Hrest|apply Hrest|apply Hrest].
  - by rewrite admit_replacements, (jo_replacements _ Hj).
Qed.

Lemma audit_admit d o c : journal_ok d -> admissible d o c -> audit_le d (admit_intent d o c).
Proof.
  intros Hj Ha. split.
  - intros o' Ho'. exists o'. split_and!; [|apply same_identity_refl|apply evidence_le_refl|done|by left|done].
    apply recorded_admit; [apply Ha|by right].
  - intros p x Hx. apply admit_dispositions_keep; [|done]. intros E.
    destruct (ad_predecessor _ _ _ Ha _ E) as [Hn _]. congruence.
Qed.

(** ** Completion *)

Definition settle_intent d o c : CredentialDB uuid :=
  set_credentials (set_events d (<[o_OperationID o := row_of o]> (cd_events d)))
    (<[o_GatewayID o := c]> (cd_credentials d)).

(** What a completion of the current operation [o0] checks before it writes. *)
Record settleable d o0 c0 o c : Prop := {
  se_current : current d (o_GatewayID o) c0 o0;
  se_ok : op_ok o;
  se_identity : same_identity o0 o;
  se_open : unresolved (o_Status o0) = true;
  se_evidence : evidence_le (o_Evidence o0) (o_Evidence o);
  se_recovery : o_Status o0 = OperationRecoveryNeeded ->
    o_Status o = OperationRecoveryNeeded \/ o_Status o = OperationSucceeded;
  se_status : o_Status o <> OperationPending;
  se_last : cr_last_operation_id c = Some (o_OperationID o);
  se_changed : cr_changed_by c = cr_changed_by c0;
  se_updated : cr_updated_at c = o_UpdatedAt o;
  se_projection : row_snapshot c = projection_of o;
  se_error : cr_last_error_code c = shown_error o;
  se_checked : credential_checked c = true;
}.

Lemma recorded_settle d o c id o' :
  recorded (settle_intent d o c) id o' <-> (id = o_OperationID o /\ o' = o) \/ (id <> o_OperationID o /\ recorded d id o').
Proof.
  unfold recorded, settle_intent. cbn. split.
  - intros H. apply lookup_insert_Some in H as [[<- H]|[Hne H]]; [left|by right].
    split; [done|]. symmetry. by apply row_of_inj.
  - intros [[-> ->]|[Hne H]]; [apply lookup_insert_eq|]. by rewrite lookup_insert_ne.
Qed.

Lemma journal_settle d o0 c0 o c : journal_ok d -> settleable d o0 c0 o c -> journal_ok (settle_intent d o c).
Proof.
  intros Hj Hs. destruct (se_current _ _ _ _ _ Hs) as (Hc0 & Hl0 & Hr0 & Hg0).
  pose proof (se_identity _ _ _ _ _ Hs) as Hsame. pose proof (same_identity_id _ _ Hsame) as Hid.
  assert (forall x, recorded d (o_OperationID x) x -> o_ActorUserID o = o_ActorUserID x ->
            o_IdempotencyKey o = o_IdempotencyKey x -> o_OperationID x = o_OperationID o) as Hkey.
  { intros x Hx Ha Hk. rewrite Hid. f_equal. apply (jo_key _ Hj); [done|done|..]; rewrite Hsame in Ha, Hk; cbn in *; done. }
  assert (forall x, recorded d (o_OperationID x) x -> o_GatewayID o = o_GatewayID x -> o_Action o <> ActionRevoke ->
            o_Action x <> ActionRevoke -> o_CredentialVersion o = o_CredentialVersion x -> o_OperationID x = o_OperationID o)
    as Hver.
  { intros x Hx Hg Ha Hax Hv. rewrite Hid. f_equal.
    apply (jo_version _ Hj); [done|done|..]; rewrite Hsame in Ha, Hv, Hg; cbn in *; done. }
  pose proof (fun id o' => proj1 (recorded_settle d o c id o')) as Hsplit. split.
  - intros id e He. cbn in He. apply lookup_insert_Some in He as [[<- <-]|[_ He]]; [|by apply Hj].
    exists o. split_and!; [done..|apply Hs].
  - intros o1 o2 H1 H2 Ha Hk. apply Hsplit in H1 as [[E1 ->]|[N1 H1]], H2 as [[E2 ->]|[N2 H2]]; [done|..|by apply (jo_key _ Hj)].
    + by destruct N2; apply Hkey.
    + by destruct N1; apply Hkey.
  - intros o1 o2 H1 H2 Hg Ha1 Ha2 Hv.
    apply Hsplit in H1 as [[E1 ->]|[N1 H1]], H2 as [[E2 ->]|[N2 H2]]; [done|..|by apply (jo_version _ Hj)].
    + by destruct N2; apply Hver.
    + by destruct N1; apply Hver.
  - intros g c1 Hc1. cbn in Hc1. apply lookup_insert_Some in Hc1 as [[<- <-]|[Hne Hc1]].
    + exists o. split_and!; [split_and!; [apply lookup_insert_eq|apply Hs|apply recorded_settle; by left|done]|..|apply Hs|apply Hs|apply Hs].
      destruct (jo_current _ Hj _ _ Hc0) as (ox & (_ & Hlx & _) & Heff & _). rewrite Hid.
      rewrite Hl0 in Hlx. injection Hlx as ->. apply Heff.
    + destruct (jo_current _ Hj _ _ Hc1) as (ox & (Hcx & Hlx & Hrx & Hgx) & Heff & Hrest). exists ox.
      split; [|done]. split_and!; [cbn; by rewrite lookup_insert_ne|done| |done].
      apply recorded_settle. right. split; [|done]. rewrite Hid. intros E. rewrite E in Hrx.
      pose proof (recorded_inj _ _ _ _ Hrx Hr0). congruence.
  - intros x Hx. cbn. destruct (decide (o_GatewayID x = o_GatewayID o)) as [->|Hne]; [rewrite lookup_insert_eq; eauto|].
    rewrite lookup_insert_ne by done. apply Hsplit in Hx as [[_ ->]|[_ Hx]]; [done|by apply (jo_gateway _ Hj)].
  - intros x Hx Hun Heff. cbn. apply Hsplit in Hx as [[_ ->]|[Hn Hx]].
    + exists c. rewrite lookup_insert_eq. split; [done|apply Hs].
    + destruct (jo_open _ Hj _ Hx Hun Heff) as (c1 & Hc1 & Hl1). exists c1. split; [|done].
      rewrite lookup_insert_ne; [done|]. intros E. rewrite E in Hc0. congruence.
  - intros p x Hx. destruct (jo_disposed _ Hj _ _ Hx) as (o1 & o2 & H1 & H2 & Hp & Hg & Hd).
    assert (forall id y, recorded d id y -> exists y', recorded (settle_intent d o c) id y'
              /\ o_ResetPredecessorID y' = o_ResetPredecessorID y /\ o_GatewayID y' = o_GatewayID y) as Hmap.
    { intros id y Hy. destruct (decide (id = o_OperationID o)) as [->|Hne].
      - exists o. split; [apply recorded_settle; by left|]. rewrite Hid in Hy. rewrite (recorded_inj _ _ _ _ Hy Hr0).
        rewrite Hsame. done.
      - exists y. split; [apply recorded_settle; by right|done]. }
    destruct (Hmap _ _ H1) as (o1' & H1' & _ & Hg1). destruct (Hmap _ _ H2) as (o2' & H2' & Hp2 & Hg2).
    exists o1', o2'. split_and!; [done|done|by rewrite Hp2|congruence|congruence].
  - apply Hj.
Qed.

Lemma audit_settle d o0 c0 o c : journal_ok d -> settleable d o0 c0 o c -> audit_le d (settle_intent d o c).
Proof.
  intros Hj Hs. destruct (se_current _ _ _ _ _ Hs) as (Hc0 & Hl0 & Hr0 & Hg0).
  pose proof (same_identity_id _ _ (se_identity _ _ _ _ _ Hs)) as Hid. split; [|done].
  intros x Hx. destruct (decide (o_OperationID x = o_OperationID o)) as [E|Hne].
  - rewrite E, Hid in Hx. pose proof (recorded_inj _ _ _ _ Hx Hr0) as ->. exists o.
    split_and!; [rewrite <- Hid; apply recorded_settle; by left|apply Hs|apply Hs| |apply Hs|by intros H; destruct (se_status _ _ _ _ _ Hs)].
    intros [H|H]; [by pose proof (se_open _ _ _ _ _ Hs) as Ho; destruct (o_Status o0)|].
    destruct (jo_current _ Hj _ _ Hc0) as (ox & (_ & Hlx & _) & Heff & _). rewrite Hl0 in Hlx. congruence.
  - exists x. split_and!; [apply recorded_settle; by right|apply same_identity_refl|apply evidence_le_refl|done|by left|done].
Qed.

End journal.

(** ** Transactions that succeeded *)

Section transactions.
Context {uuid : Type} `{U : UuidLib uuid}.
Implicit Types (d : CredentialDB uuid) (w : CallWorld uuid) (o : Operation uuid) (m : Metadata uuid) (g : string)
  (c : CredentialRow uuid) (rs : list (Answer (cerror uuid))).

(** The driver reports [pgx.ErrNoRows] only for a query without rows. *)
Definition honest_answer (r : Answer (cerror uuid)) : Prop :=
  match r with Works => True | Fails err => is_no_rows err = false end.
Definition honest rs : Prop := Forall honest_answer rs.

(** A statement of a successful transaction leaves honest answers behind. *)
Definition step_of {A} (m : CTx uuid A) d rs (P : A -> CredentialDB uuid -> Prop) : Prop :=
  forall a d' rs', m d rs = Ok (a, d', rs') -> honest rs' /\ P a d'.

Lemma ret_step {A} (a : A) d rs : honest rs -> step_of (tx_ret a) d rs (fun a' d' => a' = a /\ d' = d).
Proof. intros Hh a' d' rs' H. unfold tx_ret in H. by injection H as -> -> <-. Qed.

Lemma fail_step {A} (err : cerror uuid) d rs (P : A -> _ -> Prop) : step_of (tx_fail err) d rs P.
Proof. by intros a d' rs' H. Qed.

Lemma bind_step {A B} (x : CTx uuid A) (k : A -> CTx uuid B) d rs P Q :
  step_of x d rs P ->
  (forall a d' rs', honest rs' -> P a d' -> step_of (k a) d' rs' Q) -> step_of (let> a := x in k a) d rs Q.
Proof.
  intros Hx Hk b d2 rs2 H. apply tx_bind_ok in H as (a & d1 & rs1 & H1 & H2).
  destruct (Hx _ _ _ H1) as [Hh HP]. exact (Hk _ _ _ Hh HP _ _ _ H2).
Qed.

Lemma write_step {A} (run : CredentialDB uuid -> res (cerror uuid) (A * CredentialDB uuid)) d rs :
  honest rs -> step_of (write run) d rs (fun a d' => run d = Ok (a, d')).
Proof.
  intros Hh a d' rs' H. split; [|by apply call_checked_ok in H].
  unfold write, call_checked in H. destruct rs as [|[|cause] rs]; [|inversion_clear Hh as [|? ? _ Hh0]; rename Hh0 into Hh|done];
    destruct (run d) as [[a0 d0]|]; try done; by injection H as _ _ <-.
Qed.

Lemma read_step {A} (q : CredentialDB uuid -> res (cerror uuid) A) d rs :
  honest rs -> step_of (read q) d rs (fun a d' => q d = Ok a /\ d' = d).
Proof.
  intros Hh a d' rs' H. apply (write_step _ d rs Hh) in H as [Hh' H]. split; [done|].
  destruct (q d) as [a0|]; [|done]. cbn in H. by injection H as -> <-.
Qed.

Lemma try_read_step {A} (q : CredentialDB uuid -> res (cerror uuid) A) d rs : honest rs ->
  step_of (try_read q) d rs (fun r d' => d' = d /\ (r = q d \/ exists err, r = Err err /\ is_no_rows err = false)).
Proof.
  intros Hh r d' rs' H. unfold try_read, attempt in H.
  destruct rs as [|[|cause] rs]; [|inversion_clear Hh as [|? ? _ Hh']; rename Hh' into Hh|inversion_clear Hh as [|? ? Hc Hh']; rename Hh' into Hh];
    [destruct (q d) as [a|err] eqn:E; cbn in H; injection H as <- <- <-; eauto..|].
  injection H as <- <- <-. eauto 6.
Qed.

Lemma decide_step {A} (r : res ErrorCode A) d rs : honest rs ->
  step_of (decide_code r) d rs (fun a d' => r = Ok a /\ d' = d).
Proof.
  intros Hh. destruct r as [a|]; cbn; [|apply fail_step]. intros a' d' rs' H.
  by apply (ret_step a d rs Hh) in H as (? & -> & ->).
Qed.

(** The projection with its operation, as it is read. *)
Definition metadata_of g c o : Metadata uuid :=
  mkMetadata g g (cr_version c) (cr_status c) (o_OperationID o) (o_Status o) (cr_activated_at c) (cr_revoked_at c)
    (cr_last_error_code c).

Lemma metadata_current d g c o : current d g c o -> o_RecoveryID o = None -> metadata_row g d = Ok (metadata_of g c o).
Proof.
  intros (Hc & Hl & Hr & Hg) Hn. unfold metadata_row. rewrite Hc. unfold metadata_of. do 2 f_equal.
  - by rewrite Hl.
  - unfold joined_status. rewrite Hl. cbn. unfold recorded in Hr. rewrite Hr. cbn.
    rewrite bool_decide_eq_true_2 by done. by rewrite Hn.
Qed.

Lemma unavailable_found (err : cerror uuid) : is_no_rows err = false -> is_not_found (safeReadError err) = false.
Proof. unfold safeReadError. by intros ->. Qed.

(** Reading the projection of a Gateway. *)
Definition metadata_found d g (r : res (cerror uuid) (Metadata uuid)) : Prop :=
  match scanMetadata r with
  | Ok m => exists c o, current d g c o /\ op_ok o /\ m = metadata_of g c o
  | Err err => is_not_found err = true -> cd_credentials d !! g = None
  end.

Lemma metadata_step d g rs : journal_ok d -> honest rs ->
  step_of (try_read (metadata_row g)) d rs (fun r d' => d' = d /\ metadata_found d g r).
Proof.
  intros Hj Hh r d' rs' H. apply (try_read_step _ _ _ Hh) in H as (Hh' & -> & Hr). split_and!; [done..|].
  unfold metadata_found. destruct Hr as [->|(err & -> & Hn)]; [|by cbn; rewrite unavailable_found].
  destruct (cd_credentials d !! g) as [c|] eqn:Hc.
  - destruct (jo_current _ Hj _ _ Hc) as (o & Hcur & _). pose proof Hcur as (_ & _ & Hrec & _).
    apply (jo_event _ Hj) in Hrec as (o' & E & _ & Hok). apply row_of_inj in E as <-.
    rewrite (metadata_current d g c o); [|done|apply Hok]. cbn. by exists c, o.
  - unfold metadata_row. rewrite Hc. done.
Qed.

(** Scanning an event. *)
Lemma scan_row o : op_ok o -> scanOperation (Ok (row_of o)) = Ok (o, false).
Proof. intros Hok. cbn. by rewrite project_row, (ok_valid _ Hok). Qed.

Lemma scan_ok_row o x : scanOperation (Ok (row_of o)) = Ok x -> ValidateHistorical o = true /\ x = (o, false).
Proof.
  unfold scanOperation. rewrite project_row. cbn. destruct (ValidateHistorical o); [|done]. cbn. intros H. split; [done|congruence].
Qed.

Definition event_found d (P : Operation uuid -> Prop) (r : res (cerror uuid) (EventRow uuid)) : Prop :=
  match scanOperation r with
  | Ok (o, legacy) => recorded d (o_OperationID o) o /\ op_ok o /\ legacy = false /\ P o
  | Err err => is_not_found err = true -> forall o, recorded d (o_OperationID o) o -> ~ P o
  end.

Lemma event_query_step d (q : CredentialDB uuid -> res (cerror uuid) (EventRow uuid)) (P : Operation uuid -> Prop) rs :
  honest rs ->
  match q d with
  | Ok e => exists o, e = row_of o /\ recorded d (o_OperationID o) o /\ op_ok o /\ P o
  | Err err => forall o, recorded d (o_OperationID o) o -> ~ P o
  end ->
  step_of (try_read q) d rs (fun r d' => d' = d /\ event_found d P r).
Proof.
  intros Hh Hq r d' rs' H. apply (try_read_step _ _ _ Hh) in H as (Hh' & -> & Hr). split_and!; [done..|].
  unfold event_found. destruct Hr as [->|(err & -> & Hn)]; [|by cbn; rewrite unavailable_found].
  destruct (q d) as [e|err]; [|cbn; intros _; exact Hq]. destruct Hq as (o & -> & Hrec & Hok & HP). by rewrite scan_row.
Qed.

Lemma event_id_step d id rs : journal_ok d -> honest rs ->
  step_of (try_read (event_by_id id)) d rs (fun r d' => d' = d /\ event_found d (fun o => o_OperationID o = id) r).
Proof.
  intros Hj Hh. apply event_query_step; [done|]. unfold event_by_id. destruct (cd_events d !! id) as [e|] eqn:E; cbn.
  - destruct (jo_event _ Hj _ _ E) as (o & -> & <- & Hok). by exists o.
  - intros o Ho Hid. unfold recorded in Ho. rewrite Hid in Ho. congruence.
Qed.

Lemma event_gateway_step d id g rs : journal_ok d -> honest rs ->
  step_of (try_read (event_of_gateway id g)) d rs
    (fun r d' => d' = d /\ event_found d (fun o => o_OperationID o = id /\ o_GatewayID o = g) r).
Proof.
  intros Hj Hh. apply event_query_step; [done|]. unfold event_of_gateway, event_by_id.
  destruct (cd_events d !! id) as [e|] eqn:E; cbn.
  - destruct (jo_event _ Hj _ _ E) as (o & -> & <- & Hok). cbn. case_bool_decide as Hg; [by exists o|].
    intros o' Ho' [Hid Hg']. unfold recorded in Ho'. rewrite Hid in Ho'. rewrite (recorded_inj _ _ _ _ Ho' E) in Hg'. done.
  - intros o Ho [Hid _]. unfold recorded in Ho. rewrite Hid in Ho. congruence.
Qed.

Lemma has_key_row actor key o : has_key actor key (row_of o) = true <-> o_ActorUserID o = actor /\ o_IdempotencyKey o = key.
Proof. unfold has_key. cbn. rewrite !andb_true_iff, !bool_decide_eq_true. naive_solver. Qed.

Lemma event_key_step d actor key rs : journal_ok d -> honest rs ->
  step_of (try_read (event_by_key actor key)) d rs
    (fun r d' => d' = d /\ event_found d (fun o => o_ActorUserID o = actor /\ o_IdempotencyKey o = key) r).
Proof.
  intros Hj Hh. apply event_query_step; [done|]. unfold event_by_key.
  set (l := filter (fun e => has_key actor key e = true) (events_list d)).
  assert (forall e, e ∈ l <-> has_key actor key e = true /\ e ∈ events_list d) as Hl by (intros e; subst l; by rewrite list_elem_of_filter).
  destruct l as [|e l']; cbn.
  - intros o Ho Hk. apply (not_elem_of_nil (row_of o)), Hl. split; [by apply has_key_row|]. apply events_list_elem. by exists (o_OperationID o).
  - destruct (proj1 (Hl e) (list_elem_of_here _ _)) as [Hk He]. apply events_list_elem in He as (id & He).
    destruct (jo_event _ Hj _ _ He) as (o & -> & <- & Hok). exists o. by rewrite has_key_row in Hk.
Qed.

End transactions.

(** ** Intents *)

Section intents.
Context {uuid : Type} `{U : UuidLib uuid}.
Implicit Types (d : CredentialDB uuid) (w : CallWorld uuid) (o : Operation uuid) (m : Metadata uuid) (g : string)
  (c : CredentialRow uuid) (rs : list (Answer (cerror uuid))).

Definition new_op (now : Z) (id : uuid) g (version : Z) (action : Action) (actor key : uuid)
    (previous : option CredentialSnapshot) (pred : option uuid) (reason : option ResetReason) : Operation uuid :=
  mkOperation id actor g key action version OperationPending PhaseIntent no_evidence DeliveryUnknown (micros now)
    (micros now) None previous None None None ContractSimplified pred reason.

Lemma new_event_row now id g version action (actor key : uuid) previous pred reason :
  new_event now id g version action actor key previous pred reason
  = row_of (new_op now id g version action actor key previous pred reason).
Proof. reflexivity. Qed.

Lemma canonical_projection o : canonicalSnapshot (projection_of o) = projection_of (canonical_operation o).
Proof.
  destruct o as [????? ? s ?????? [[]|] ??????]; unfold projection_of, canonicalSnapshot, previous_version, previous_activated, previous_revoked; cbn.
  all: destruct s; cbn; try case_bool_decide; done.
Qed.

Lemma current_canonical d g c o : journal_ok d -> current d g c o -> canonicalSnapshot (row_snapshot c) = row_snapshot c.
Proof.
  intros Hj (Hc & Hl & Hr & Hg). destruct (jo_current _ Hj _ _ Hc) as (o' & (_ & Hl' & Hr' & _) & _ & Hp & _).
  rewrite Hp, canonical_projection. destruct (recorded_id _ _ _ Hj Hr') as [_ Hok]. by rewrite (ok_canonical _ Hok).
Qed.

(** A previous projection an action can start from. *)
Definition starts_from (action : Action) (version : Z) (previous : option CredentialSnapshot) : Prop :=
  match action, previous with
  | ActionProvision, None => True
  | ActionProvision, Some p => (s_Status p = CredentialRevoked \/ s_Status p = CredentialFailed) /\ s_CredentialVersion p < version
  | ActionRotate, Some p => s_Status p = CredentialActive /\ s_CredentialVersion p < version
  | ActionRevoke, Some p => s_Status p = CredentialActive /\ version = s_CredentialVersion p
  | ActionReset, Some p => s_CredentialVersion p < version
  | _, _ => False
  end.

Lemma starts_admits now id g version action (actor key : uuid) previous pred reason : starts_from action version previous ->
  previous_admits (new_op now id g version action actor key previous pred reason) = true.
Proof.
  unfold previous_admits, starts_from, new_op. cbn.
  destruct action, previous as [[s v a r]|]; cbn; try done; intros H.
  - destruct H as [[H|H] Hv]; apply Z.ltb_lt in Hv; rewrite H, Hv; done.
  - destruct H as [-> Hv]. apply Z.ltb_lt in Hv. by rewrite Hv.
  - destruct H as [-> ->]. by rewrite Z.eqb_refl.
  - apply Z.ltb_lt in H. rewrite H. by destruct (bool_decide (s = CredentialActive)).
Qed.

(** The call sees a clock past year 1 and an honest driver. *)
Record call_ok w : Prop := {
  call_now : zero_instant < micros (cw_now w);
  call_honest : honest (cw_calls w);
}.

Lemma new_op_ok w id g version action (actor key : uuid) previous pred reason :
  call_ok w -> actor <> uuid_Nil -> starts_from action version previous ->
  (forall p, previous = Some p -> canonicalSnapshot p = p) ->
  ValidateHistorical (new_op (cw_now w) id g version action actor key previous pred reason) = true ->
  op_ok (new_op (cw_now w) id g version action actor key previous pred reason).
Proof.
  intros Hw Ha Hs Hc Hv. split; cbn; try done.
  - by apply starts_admits.
  - unfold canonical_operation, new_op. cbn. rewrite micros_idem. f_equal. destruct previous as [p|]; cbn; [|done].
    by rewrite Hc.
  - apply Hw.
Qed.

(** The versions of a Gateway's events are below the next one. *)
Lemma max_attempted_le d o : recorded d (o_OperationID o) o -> o_CredentialVersion o <= max_attempted (o_GatewayID o) d.
Proof.
  intros Hr. unfold max_attempted.
  assert (o_CredentialVersion o ∈ (fun e => default 0 (ev_credential_version e)) <$>
            filter (fun e => ev_gateway_id e = o_GatewayID o) (events_list d)) as Hin.
  { apply list_elem_of_fmap. exists (row_of o). split; [done|]. rewrite list_elem_of_filter. split; [done|].
    apply events_list_elem. by exists (o_OperationID o). }
  revert Hin. generalize ((fun e : EventRow uuid => default 0 (ev_credential_version e)) <$>
    filter (fun e => ev_gateway_id e = o_GatewayID o) (events_list d)).
  induction l as [|x l IH]; intros Hin; [by apply not_elem_of_nil in Hin|]. cbn.
  apply elem_of_cons in Hin as [->|Hin]; [lia|]. specialize (IH Hin). lia.
Qed.

Lemma AllocateVersion_gt a b v : AllocateVersion a b = Ok v -> a < v /\ b < v /\ 0 <= a.
Proof. unfold AllocateVersion. intros H. inv_ok H. gobool. lia. Qed.

Lemma insert_event_ok o d u d' : insert_event (row_of o) d = Ok (u, d') ->
  d' = set_events d (<[o_OperationID o := row_of o]> (cd_events d)) /\ cd_events d !! o_OperationID o = None
  /\ forall o', recorded d (o_OperationID o') o' -> o_ActorUserID o' = o_ActorUserID o -> o_IdempotencyKey o' <> o_IdempotencyKey o.
Proof.
  intros H. unfold insert_event in H. cbn in H.
  destruct (bool_decide _ || _) eqn:E; [done|]. apply orb_false_iff in E as [E1 E2]. apply bool_decide_eq_false in E1.
  injection H as _ <-. split; [done|]. split; [by apply eq_None_not_Some|].
  intros o' Ho' Ha Hk. apply not_true_iff_false in E2. apply E2, existsb_exists. exists (row_of o').
  split; [apply list_elem_of_In, events_list_elem; by exists (o_OperationID o')|]. by apply has_key_row.
Qed.

Lemma read_back_step d id g o c rs : honest rs -> recorded d id o -> current d g c o -> o_RecoveryID o = None ->
  step_of (read_back id g) d rs (fun p d' => d' = d /\ ValidateHistorical o = true /\ p = (o, metadata_of g c o)).
Proof.
  intros Hh Hr Hc Hn. eapply bind_step; [by apply try_read_step|]. intros row d1 rs1 Hh1 [-> Hrow].
  assert (forall x, scanOperation row = Ok x -> ValidateHistorical o = true /\ x = (o, false)) as Hscan.
  { intros x Hx. destruct Hrow as [->|(err & -> & _)]; [|done]. apply scan_ok_row. unfold event_by_id in Hx.
    unfold recorded in Hr. by rewrite Hr in Hx. }
  destruct (scanOperation row) as [[o' legacy]|err]; [|apply fail_step].
  destruct (Hscan _ eq_refl) as [Hv [=-> ->]]. eapply bind_step; [by apply try_read_step|]. intros m d2 rs2 Hh2 [-> Hm].
  rewrite (metadata_current _ _ _ _ Hc Hn) in Hm. destruct Hm as [->|(err & -> & _)]; cbn; [|apply fail_step].
  intros p d3 rs3 H. apply ret_step in H as (? & -> & ->); done.
Qed.

(** The effect of an admission, by what it was asked for. *)
Definition begun w d (id actor : uuid) g (key : uuid) (action : Action) (pred : option uuid) (reason : option ResetReason)
    (b : BeginResult uuid) d' : Prop :=
  exists version c,
    let o := new_op (cw_now w) id g version action actor key (row_snapshot <$> cd_credentials d !! g) pred reason in
    b = mkBeginResult o (metadata_of g c o) true None /\ d' = admit_intent d o c /\ admissible d o c.

(** A replay changes nothing and carries no secret. *)
Definition replayed d (b : BeginResult uuid) d' : Prop :=
  d' = d /\ b_Execute b = false /\ exists r, b_Replay b = Some r /\ mr_SecretReturned r = false.

Lemma begin_locks_step w actor g d rs : honest rs ->
  step_of (begin_locks w actor g) d rs (fun parent d' => d' = d /\ parent = g /\ is_admin w actor = true).
Proof.
  intros Hh. eapply bind_step; [by apply read_step|]. intros [] d1 rs1 Hh1 [_ ->].
  eapply bind_step; [by apply read_step|]. intros p d2 rs2 Hh2 [Hp ->].
  unfold gateway_exists in Hp. case_bool_decide; [|done]. injection Hp as ->.
  eapply bind_step; [by apply read_step|]. intros b d3 rs3 Hh3 [[=<-] ->].
  destruct (is_admin w actor) eqn:Ea; cbn; [|apply fail_step]. intros x d4 rs4 H'. apply ret_step in H' as (? & -> & ->); done.
Qed.

Lemma begin_version_step g current_ action d rs : honest rs ->
  step_of (begin_version g current_ action) d rs (fun v d' => d' = d /\
    if bool_decide (action = ActionRevoke) then v = current_ else AllocateVersion current_ (max_attempted g d) = Ok v).
Proof.
  intros Hh. unfold begin_version. case_bool_decide.
  - intros v d' rs' H'. apply ret_step in H' as (? & -> & ->); done.
  - eapply bind_step; [by apply read_step|]. intros a d1 rs1 Hh1 [[=<-] ->].
    intros v d' rs' H'. apply decide_step in H' as (? & Hv & ->); done.
Qed.

Lemma BeginCredentialStatus_ok cur action status : BeginCredentialStatus cur action = Ok status ->
  status = pending_status action /\
  match action with
  | ActionProvision => cur = no_credential \/ cur = CredentialRevoked \/ cur = CredentialFailed
  | ActionRotate | ActionRevoke => cur = CredentialActive
  | _ => False
  end.
Proof.
  unfold BeginCredentialStatus. intros H. destruct (negb _ || _) eqn:E; [done|]. apply orb_false_iff in E as [E1 E2].
  destruct cur, action; try done; injection H as <-; split; try done; auto.
  left. cbn in E2. rewrite andb_true_r in E2. apply negb_false_iff, bool_decide_eq_true in E2. done.
Qed.

(** What the code has read of the Gateway's projection. *)
Definition projection_read d g m (missing : bool) : Prop :=
  if missing then m = zero_metadata /\ cd_credentials d !! g = None
  else exists c o, current d g c o /\ op_ok o /\ m = metadata_of g c o.

Lemma projection_previous d g m missing : projection_read d g m missing ->
  (if missing then None else Some (metadata_snapshot m)) = row_snapshot <$> cd_credentials d !! g.
Proof.
  destruct missing; cbn; [by intros [_ ->]|]. intros (c & o & (-> & _) & _ & ->). done.
Qed.

Lemma previous_canonical d g p : journal_ok d -> row_snapshot <$> cd_credentials d !! g = Some p -> canonicalSnapshot p = p.
Proof.
  intros Hj H. destruct (cd_credentials d !! g) as [c|] eqn:Hc; [|done]. injection H as <-.
  destruct (jo_current _ Hj _ _ Hc) as (o & Hcur & _). by eapply current_canonical.
Qed.

(** No effective operation of the Gateway is unresolved, except the one named. *)
Definition only_open d g (except : option uuid) : Prop :=
  forall o, recorded d (o_OperationID o) o -> o_GatewayID o = g -> unresolved (o_Status o) = true ->
    effective d (o_OperationID o) = true -> except = Some (o_OperationID o).

Lemma open_event_row d g o : op_ok o -> o_GatewayID o = g -> unresolved (o_Status o) = true ->
  effective d (o_OperationID o) = true -> open_event d g (row_of o) = true.
Proof.
  intros Hok Hg Hu He. unfold open_event. cbn. rewrite Hu, He, (ok_recovery _ Hok).
  rewrite !bool_decide_eq_true_2; done.
Qed.

Lemma recorded_elem d o : recorded d (o_OperationID o) o -> row_of o ∈ events_list d.
Proof. intros H. apply events_list_elem. by exists (o_OperationID o). Qed.

Lemma unresolved_none d g : journal_ok d -> unresolved_query g d = (false, false) -> only_open d g None.
Proof.
  intros Hj H o Ho Hg Hu He. destruct (recorded_id _ _ _ Hj Ho) as [_ Hok]. exfalso.
  injection H as H1 H2. apply orb_false_iff in H1 as [H1 _]. apply orb_false_iff in H2 as [H2 _]. apply orb_false_iff in H2 as [H2 _].
  pose proof (open_event_row _ _ _ Hok Hg Hu He) as Hop. pose proof (recorded_elem _ _ Ho) as Hin. apply list_elem_of_In in Hin.
  destruct (o_Status o) eqn:Es; try done.
  - apply not_true_iff_false in H1. apply H1, existsb_exists. exists (row_of o). split; [done|]. rewrite Hop. cbn. by rewrite Es.
  - apply not_true_iff_false in H2. apply H2, existsb_exists. exists (row_of o). split; [done|]. rewrite Hop. cbn. by rewrite Es.
Qed.

Lemma other_none d g last : journal_ok d -> other_unresolved g last d = false -> only_open d g (Some last).
Proof.
  intros Hj H o Ho Hg Hu He. destruct (recorded_id _ _ _ Hj Ho) as [_ Hok].
  apply orb_false_iff in H as [H _]. destruct (decide (o_OperationID o = last)) as [->|Hne]; [done|exfalso].
  apply not_true_iff_false in H. apply H, existsb_exists. exists (row_of o).
  split; [by apply list_elem_of_In, recorded_elem|]. rewrite open_event_row by done. cbn. by rewrite bool_decide_eq_false_2.
Qed.

(** The facts an intent is admitted on make it admissible. *)
Lemma intent_admissible w d id g version action (actor key : uuid) pred reason c :
  let o := new_op (cw_now w) id g version action actor key (row_snapshot <$> cd_credentials d !! g) pred reason in
  journal_ok d -> call_ok w -> actor <> uuid_Nil ->
  starts_from action version (row_snapshot <$> cd_credentials d !! g) ->
  (action <> ActionRevoke -> max_attempted g d < version) ->
  cd_events d !! id = None ->
  (forall o', recorded d (o_OperationID o') o' -> o_ActorUserID o' = actor -> o_IdempotencyKey o' <> key) ->
  only_open d g pred ->
  (forall p, pred = Some p -> cd_dispositions d !! p = None /\ exists op cp, current d g cp op /\ o_OperationID op = p) ->
  c = mkCredentialRow version (pending_status action) (Some id) (Some actor) (cr_activated_at c) None None (micros (cw_now w)) ->
  cr_activated_at c = previous_activated o -> credential_checked c = true -> ValidateHistorical o = true ->
  admissible d o c.
Proof.
  intros o Hj Hw Hact Hs Hv Hf Hk Hopen Hp Hc Hca Hck Hval. split; cbn.
  - apply new_op_ok; try done. intros p. by apply previous_canonical.
  - done.
  - done.
  - done.
  - intros Ha o' Ho' Hg. pose proof (max_attempted_le _ _ Ho') as Hle. rewrite Hg in Hle. specialize (Hv Ha). lia.
  - done.
  - done.
  - by rewrite Hc.
  - by rewrite Hc.
  - rewrite Hc. unfold row_snapshot, projection_of. cbn. by rewrite Hca.
  - by rewrite Hc.
  - done.
Qed.

Lemma begin_new_step w req g m missing d rs : journal_ok d -> call_ok w -> honest rs -> projection_read d g m missing ->
  br_ActorUserID req <> uuid_Nil -> only_open d g None ->
  step_of (begin_new w req g m missing) d rs (fun p d' => snd p = true /\
    begun w d (br_OperationID req) (br_ActorUserID req) g (mi_IdempotencyKey (br_Input req)) (mi_Action (br_Input req))
      None None (fst p) d').
Proof.
  intros Hj Hw Hh Hm Hact Hopen.
  destruct req as [actor id [g' key action]]. cbn [br_ActorUserID br_OperationID br_Input mi_Action mi_IdempotencyKey] in *.
  eapply bind_step; [by apply decide_step|]. intros status d1 rs1 Hh1 [Hst ->].
  apply BeginCredentialStatus_ok in Hst as [-> Hcur].
  eapply bind_step; [by apply begin_version_step|]. intros version d2 rs2 Hh2 [-> Hver].
  eapply bind_step; [by apply write_step|]. intros u d3 rs3 Hh3 Hins.
  rewrite (projection_previous _ _ _ _ Hm), new_event_row in Hins.
  set (o := new_op _ _ _ _ _ _ _ _ _ _) in Hins. apply insert_event_ok in Hins as (-> & Hf & Hk).
  eapply bind_step; [by apply write_step|]. intros u' d4 rs4 Hh4 Hup.
  unfold upsert_credential, write_credential in Hup. destruct (credential_checked _) eqn:Hck; [|done]. injection Hup as _ <-.
  match type of Hck with credential_checked ?x = _ => set (c := x) in * end.
  match goal with |- step_of _ ?x _ _ => assert (x = admit_intent d o c) as -> by reflexivity end.
  assert (current (admit_intent d o c) g c o) as Hcurr.
  { split_and!; [by rewrite admit_credentials, lookup_insert_eq|done| |done]. apply recorded_admit; [done|by left]. }
  eapply bind_step; [apply (read_back_step _ _ _ o c); [done|apply Hcurr|done|done]|].
  intros p d5 rs5 Hh5 (-> & Hval & ->). intros [b commit] d6 rs6 H. apply ret_step in H as (Hh6 & [=-> ->] & ->); [|done].
  split; [done|]. split; [done|]. exists version, c. split_and!; [reflexivity..|].
  apply intent_admissible; try done.
  - destruct missing; cbn in Hm.
    + destruct Hm as [-> ->]. cbn in *. destruct action; try done.
    + destruct Hm as (c0 & o0 & (Hc0 & _) & _ & ->). rewrite Hc0. cbn in *.
      destruct (jo_current _ Hj _ _ Hc0) as (ox & _ & _ & _ & _ & Hckd).
      assert (cr_status c0 <> no_credential) as Hne.
      { intros E. unfold credential_checked in Hckd. rewrite E in Hckd. cbn in Hckd. by rewrite andb_false_r in Hckd. }
      destruct action; try done; cbn in *; try (apply AllocateVersion_gt in Hver).
      * split; [destruct Hcur as [?|?]; done|lia].
      * split; [done|lia].
  - intros Ha. rewrite bool_decide_eq_false_2 in Hver by done. apply AllocateVersion_gt in Hver. lia.
  - subst c o. cbn. unfold previous_activated. cbn. destruct missing; cbn in Hm.
    + destruct Hm as [-> ->]. done.
    + destruct Hm as (c0 & o0 & (Hc0 & _) & _ & ->). by rewrite Hc0.
Qed.

End intents.
