(* ===== verification/CredentialEffects.v ===== *)
(** * MQTT credentials: what the repository does to the journal

    Admission, reset and completion as effects on the journal: each is nothing,
    an intent that is admissible, or the settlement of the current operation. *)

From S2P Require Import Prelude GoStrings GoTime GoFloat GoJson Identity Uuid Telemetry.
From S2P Require Import Txn HistoryQuery Cursor Credential CredentialStore CredentialJournal.
#[local] Open Scope Z_scope.

Section effects.
Context {uuid : Type} `{U : UuidLib uuid}.
Implicit Types (d : CredentialDB uuid) (w : CallWorld uuid) (o : Operation uuid) (m : Metadata uuid) (g : string)
  (c : CredentialRow uuid) (rs : list (Answer (cerror uuid))).

(** ** Admission *)

(** An intent of [action] is in the journal, or an answer from it is replayed. *)
Definition admitted w d (id actor : uuid) g (key : uuid) (action : Action) (pred : option uuid)
    (reason : option ResetReason) (p : BeginResult uuid * bool) d' : Prop :=
  is_admin w actor = true
  /\ ((snd p = true /\ begun w d id actor g key action pred reason (fst p) d') \/ (snd p = false /\ replayed d (fst p) d')).

Lemma ret_replayed d rs (b : BeginResult uuid) (r : MutationResult uuid) : honest rs ->
  b_Execute b = false -> b_Replay b = Some r -> mr_SecretReturned r = false ->
  step_of (tx_ret (b, false)) d rs (fun p d' => snd p = false /\ replayed d (fst p) d').
Proof.
  intros Hh He Hr Hs p d' rs' H. apply ret_step in H as (Hh' & -> & ->); [|done]. unfold replayed. cbn. eauto 8.
Qed.

Lemma step_weaken {A} (x : CTx uuid A) d rs (P Q : A -> CredentialDB uuid -> Prop) :
  step_of x d rs P -> (forall a d', P a d' -> Q a d') -> step_of x d rs Q.
Proof. intros H HPQ a d' rs' E. destruct (H _ _ _ E). auto. Qed.

Lemma ReplayOperation_secret o (actor : uuid) input m r : ReplayOperation o actor input m = Ok r -> mr_SecretReturned r = false.
Proof. unfold ReplayOperation. intros H. repeat case_match; simplify_eq; done. Qed.

Lemma begin_fresh_step w req g m missing d rs : journal_ok d -> call_ok w -> honest rs -> projection_read d g m missing ->
  br_ActorUserID req <> uuid_Nil ->
  step_of (begin_fresh w req g m missing) d rs (fun p d' =>
    (snd p = true /\ begun w d (br_OperationID req) (br_ActorUserID req) g (mi_IdempotencyKey (br_Input req))
       (mi_Action (br_Input req)) None None (fst p) d') \/ (snd p = false /\ replayed d (fst p) d')).
Proof.
  intros Hj Hw Hh Hm Hact. eapply bind_step; [by apply read_step|].
  intros [pending recovery] d1 rs1 Hh1 [[=Hun] ->]. destruct recovery; [apply fail_step|]. destruct pending; [apply fail_step|].
  destruct (bool_decide _ && bool_decide _).
  - eapply step_weaken; [by eapply ret_replayed|auto].
  - eapply step_weaken; [apply begin_new_step; try done|auto]. apply unresolved_none; [done|]. unfold unresolved_query. congruence.
Qed.

Lemma begin_with_metadata_step w req g m missing d rs : journal_ok d -> call_ok w -> honest rs ->
  projection_read d g m missing -> br_ActorUserID req <> uuid_Nil ->
  step_of (begin_with_metadata w req g m missing) d rs (fun p d' =>
    (snd p = true /\ begun w d (br_OperationID req) (br_ActorUserID req) g (mi_IdempotencyKey (br_Input req))
       (mi_Action (br_Input req)) None None (fst p) d') \/ (snd p = false /\ replayed d (fst p) d')).
Proof.
  intros Hj Hw Hh Hm Hact. unfold begin_with_metadata. destruct (missing && _); [apply fail_step|].
  eapply bind_step; [by apply event_key_step|]. intros row d1 rs1 Hh1 [-> Hrow].
  destruct (scanOperation row) as [[o legacy]|err]; [|destruct (is_not_found err); [by apply begin_fresh_step|apply fail_step]].
  destruct (negb _ || negb _); [apply fail_step|]. destruct missing; [apply fail_step|].
  eapply bind_step; [by apply decide_step|]. intros r d2 rs2 Hh2 [Hr ->]. apply ReplayOperation_secret in Hr.
  eapply step_weaken; [by eapply ret_replayed|auto].
Qed.

Lemma begin_simplified_step w req d rs : journal_ok d -> call_ok w -> honest rs -> br_ActorUserID req <> uuid_Nil ->
  step_of (begin_simplified_body w req) d rs
    (admitted w d (br_OperationID req) (br_ActorUserID req) (mi_GatewayID (br_Input req))
       (mi_IdempotencyKey (br_Input req)) (mi_Action (br_Input req)) None None).
Proof.
  intros Hj Hw Hh Hact. eapply bind_step; [by apply begin_locks_step|]. intros parent d1 rs1 Hh1 (-> & -> & Hadm).
  eapply bind_step; [by apply metadata_step|]. intros row d2 rs2 Hh2 [-> Hrow]. unfold metadata_found in Hrow.
  destruct (scanMetadata row) as [m|err].
  - eapply step_weaken; [by apply begin_with_metadata_step|]. by intros p d' ?.
  - destruct (is_not_found err) eqn:E; [|apply fail_step].
    eapply step_weaken; [apply begin_with_metadata_step; try done; split; [done|by apply Hrow]|]. by intros p d' ?.
Qed.

(** ** Reset *)

Lemma reset_new_step w req g m o0 c0 d rs : journal_ok d -> call_ok w -> honest rs -> current d g c0 o0 ->
  m = metadata_of g c0 o0 -> rr_ActorUserID req <> uuid_Nil -> only_open d g (Some (o_OperationID o0)) ->
  step_of (reset_new w req g m o0) d rs (fun p d' => (snd p = true /\ cr_revoked_at c0 = None) /\
    begun w d (rr_OperationID req) (rr_ActorUserID req) g (ri_IdempotencyKey (rr_Input req)) ActionReset
      (Some (o_OperationID o0)) (Some (ri_Reason (rr_Input req))) (fst p) d').
Proof.
  intros Hj Hw Hh Hcur -> Hact Hopen.
  destruct req as [actor id [g' key reason] ep eg]. cbn [rr_ActorUserID rr_OperationID rr_Input ri_IdempotencyKey ri_Reason] in *.
  pose proof Hcur as (Hc0 & Hl0 & Hr0 & Hg0).
  eapply bind_step; [by apply read_step|]. intros a d1 rs1 Hh1 [[=<-] ->].
  eapply bind_step; [by apply decide_step|]. intros version d2 rs2 Hh2 [Hver ->]. apply AllocateVersion_gt in Hver as (Hv1 & Hv2 & _).
  eapply bind_step; [by apply write_step|]. intros [] d3 rs3 Hh3 Hdis. unfold insert_disposition in Hdis.
  destruct (_ || _ || _) eqn:Ed; [done|]. injection Hdis as <-.
  apply orb_false_iff in Ed as [Ed _]. apply orb_false_iff in Ed as [Ed _]. apply bool_decide_eq_false, eq_None_not_Some in Ed.
  eapply bind_step; [by apply write_step|]. intros [] d4 rs4 Hh4 Hins. rewrite new_event_row in Hins.
  apply insert_event_ok in Hins as (-> & Hf & Hk).
  eapply bind_step; [by apply write_step|]. intros [] d5 rs5 Hh5 Hrot. unfold rotate_credential in Hrot.
  cbn [cd_credentials set_events set_dispositions] in Hrot. rewrite Hc0, (bool_decide_eq_true_2 _ Hl0) in Hrot.
  unfold write_credential in Hrot. destruct (credential_checked _) eqn:Hck; [|done]. injection Hrot as <-.
  assert (cr_revoked_at c0 = None) as Hrev.
  { unfold credential_checked in Hck. cbn in Hck. rewrite !andb_true_iff, bool_decide_eq_true in Hck. apply Hck. }
  rewrite Hrev in *.
  assert (Some (metadata_snapshot (metadata_of g c0 o0)) = row_snapshot <$> cd_credentials d !! g) as Hprev by (by rewrite Hc0).
  rewrite Hprev in *. cbn [o_OperationID o_ActorUserID o_IdempotencyKey new_op] in *.
  match goal with |- context [row_of ?x] => set (o := x) in * end.
  match type of Hck with credential_checked ?x = _ => set (c := x) in * end.
  match goal with |- step_of _ ?x _ _ => assert (x = admit_intent d o c) as -> by reflexivity end.
  assert (current (admit_intent d o c) g c o) as Hcurr.
  { split_and!; [by rewrite admit_credentials, lookup_insert_eq|done| |done]. apply recorded_admit; [done|by left]. }
  eapply bind_step; [apply (read_back_step _ _ _ o c); [done|apply Hcurr|done|done]|].
  intros p d6 rs6 Hh6 (-> & Hval & ->). intros [b commit] d7 rs7 H. apply ret_step in H as (Hh7 & [=-> ->] & ->); [|done].
  split; [done|]. split; [done|]. exists version, c. split_and!; [reflexivity..|].
  apply intent_admissible; try done.
  - rewrite Hc0. cbn. done.
  - intros p [=<-]. split; [done|]. by exists o0, c0.
  - subst c o. cbn. unfold previous_activated. cbn. by rewrite Hc0.
Qed.

(** A reset replaces the current operation, which its reason admits. *)
Definition reset_admitted w d (req : BeginResetRequest uuid) (p : BeginResult uuid * bool) d' : Prop :=
  let g := ri_GatewayID (rr_Input req) in
  is_admin w (rr_ActorUserID req) = true
  /\ ((snd p = true /\ exists o0 c0, current d g c0 o0
        /\ CheckResetEligibility (metadata_of g c0 o0) o0 (ri_Reason (rr_Input req)) = None /\ cr_revoked_at c0 = None
        /\ begun w d (rr_OperationID req) (rr_ActorUserID req) g (ri_IdempotencyKey (rr_Input req)) ActionReset
             (Some (o_OperationID o0)) (Some (ri_Reason (rr_Input req))) (fst p) d')
      \/ (snd p = false /\ replayed d (fst p) d')).

Lemma begin_reset_step w req d rs : journal_ok d -> call_ok w -> honest rs -> rr_ActorUserID req <> uuid_Nil ->
  step_of (begin_reset_body w req) d rs (reset_admitted w d req).
Proof.
  intros Hj Hw Hh Hact. unfold begin_reset_body, reset_admitted. set (g := ri_GatewayID (rr_Input req)).
  eapply bind_step; [by apply begin_locks_step|]. intros parent d1 rs1 Hh1 (-> & -> & Hadm). rewrite Hadm.
  eapply bind_step; [by apply metadata_step|]. intros row d2 rs2 Hh2 [-> Hrow]. unfold metadata_found in Hrow.
  destruct (scanMetadata row) as [m|err]; [|apply fail_step]. destruct Hrow as (c0 & o0 & Hcur & Hok & ->).
  eapply bind_step; [by apply event_key_step|]. intros row2 d3 rs3 Hh3 [-> Hrow2].
  destruct (scanOperation row2) as [[o legacy]|err].
  - unfold reset_replay. destruct (negb _ || negb _ || negb _); [apply fail_step|].
    destruct (o_Status o); try apply fail_step.
    all: eapply step_weaken; [by eapply ret_replayed|]; by intros p d' ?; split; [done|right].
  - destruct (is_not_found err); [|apply fail_step]. unfold reset_fresh.
    eapply bind_step; [by apply read_step|]. intros other d4 rs4 Hh4 [[=Ho] ->]. destruct other; [apply fail_step|].
    eapply bind_step; [by apply event_gateway_step|]. intros row3 d5 rs5 Hh5 [-> Hrow3]. unfold event_found in Hrow3.
    destruct (scanOperation row3) as [[o legacy]|err']; [|apply fail_step].
    destruct Hrow3 as (Hrec & _ & -> & Hid & _). pose proof Hcur as (_ & _ & Hr0 & _).
    rewrite Hid in Hrec. cbn in Hrec. pose proof (recorded_inj _ _ _ _ Hrec Hr0) as ->.
    destruct (false || _ || _); [apply fail_step|]. destruct (CheckResetEligibility _ _ _) eqn:Hel; [apply fail_step|].
    eapply step_weaken; [apply (reset_new_step w req g _ o0 c0); try done; by apply other_none|].
    intros p d' [[Hp Hrv] Hb]. split; [done|left]. split; [done|]. by exists o0, c0.
Qed.

(** ** Completion *)

(** A completed operation is valid whenever its operation was. *)
Lemma completed_valid o x evidence at_ (c : Completion uuid) (code : option ErrorCode) : CompleteOperation o x evidence at_ = Ok c -> op_ok o ->
  let o' := c_Operation c in
  ValidateHistorical (canonical_operation (update_operation o' (o_Status o') (o_Phase o') (o_CompletedAt o') code
                                             (o_Evidence o') (o_UpdatedAt o'))) = true.
Proof.
  intros H Hok o'. apply CompleteOperation_inv in H as (Hv & _ & _ & _ & Hu & _ & Hsame & Hup & Hst & Hco & Hph & _ & Hx).
  fold o' in Hsame, Hup, Hst, Hco, Hph, Hx. pose proof (ok_canonical _ Hok) as Hcan. pose proof (ok_updated _ Hok) as Hcu.
  pose proof (ok_recovery _ Hok) as Hrec.
  assert (o_CreatedAt o <= micros at_) as Hcr.
  { assert (micros (o_CreatedAt o) = o_CreatedAt o) as <- by (by rewrite <- Hcan at 2). apply micros_mono. lia. }
  assert (micros (o_CreatedAt o) = o_CreatedAt o) as Hmc by (by rewrite <- Hcan at 2).
  assert (canonicalSnapshot <$> o_Previous o = o_Previous o) as Hpr by (by rewrite <- Hcan at 2).
  assert (zero_instant < micros at_) as Hz by (pose proof (ok_created _ Hok); lia).
  rewrite Hsame. unfold ValidateHistorical in *. rewrite !andb_true_iff in *.
  unfold replacement_valid, action_valid, completion_time_valid in *. cbn in *. rewrite Hmc, Hpr, Hst, Hco, Hph, Hrec in *.
  destruct Hv as (((((((((((? & ?) & ?) & ?) & ?) & ?) & ?) & ?) & ?) & ?) & ?) & ?).
  split_and!; try done; destruct x; cbn in *; try done.
  - rewrite andb_true_iff, negb_true_iff, Z.eqb_neq, Z.leb_le. lia.
  - rewrite andb_true_iff, negb_true_iff, Z.eqb_neq, Z.leb_le. lia.
  - destruct Hx as (He & -> & _). done.
Qed.

Lemma canonicalSnapshot_idem (p : CredentialSnapshot) : canonicalSnapshot (canonicalSnapshot p) = canonicalSnapshot p.
Proof.
  destruct p as [s v [a|] [r|]]; unfold canonicalSnapshot; cbn; by rewrite ?micros_idem.
Qed.

Lemma canonical_operation_idem o : canonical_operation (canonical_operation o) = canonical_operation o.
Proof.
  destruct o as [???????????? co p ??????]; unfold canonical_operation; cbn. rewrite !micros_idem.
  destruct co as [co|], p as [p|]; cbn; by rewrite ?micros_idem, ?canonicalSnapshot_idem.
Qed.

(** The completion that is written is the canonical one of the code's own. *)
Definition expected_op o (x : ExecutionOutcome) (c : Completion uuid) (code : option ErrorCode) : Operation uuid :=
  let o' := c_Operation c in
  canonical_operation (update_operation o' (o_Status o') (o_Phase o') (o_CompletedAt o') code (o_Evidence o') (o_UpdatedAt o')).

Lemma expected_op_ok o x evidence at_ (c : Completion uuid) (code : option ErrorCode) :
  CompleteOperation o x evidence at_ = Ok c -> op_ok o -> op_ok (expected_op o x c code).
Proof.
  intros H Hok. pose proof (completed_valid _ _ _ _ _ code H Hok) as Hval. unfold expected_op. cbn zeta in Hval |- *.
  apply CompleteOperation_inv in H as (_ & _ & _ & _ & Hu & Hadm & Hsame & Hup & Hst & Hco & Hph & _ & Hx).
  pose proof (ok_canonical _ Hok) as Hcan.
  assert (micros (o_CreatedAt o) = o_CreatedAt o) as Hmc by (by rewrite <- Hcan at 2).
  assert (canonicalSnapshot <$> o_Previous o = o_Previous o) as Hpr by (by rewrite <- Hcan at 2).
  split; try apply canonical_operation_idem; try done; rewrite Hsame; cbn; rewrite ?Hmc, ?Hpr; try apply Hok.
  - unfold previous_admits in *. cbn. rewrite Hpr. done.
  - rewrite Hup. pose proof (micros_mono _ _ Hu) as Hm.
    assert (micros (o_UpdatedAt o) = o_UpdatedAt o) as Hmu by (by rewrite <- Hcan at 2). pose proof (ok_updated _ Hok). lia.
  - rewrite Hst, Hco, Hup. by destruct x.
  - rewrite Hst. by destruct x.
  - rewrite Hst. destruct x; try done. naive_solver.
Qed.

Lemma checked_completion_inv o x (proposed expected : Completion uuid) : checked_completion o x proposed = Ok expected ->
  op_ok o -> exists c : Completion uuid, CompleteOperation o x (o_Evidence (c_Operation proposed)) (o_UpdatedAt (c_Operation proposed)) = Ok c
    /\ let code := if bool_decide (x = ExecutionVerifiedSuccess) then None else o_ErrorCode (c_Operation proposed) in
       c_Operation expected = update_operation (c_Operation c) (o_Status (c_Operation c)) (o_Phase (c_Operation c))
         (o_CompletedAt (c_Operation c)) code (o_Evidence (c_Operation c)) (o_UpdatedAt (c_Operation c))
    /\ c_Credential expected = c_Credential c
    /\ evidence_le (o_Evidence o) (o_Evidence (c_Operation c))
    /\ canonical_operation (c_Operation expected) = canonical_operation (c_Operation proposed).
Proof.
  intros H Hok. unfold checked_completion in H. destruct (CompleteOperation _ _ _ _) as [c|] eqn:E; [|done].
  exists c. split; [done|]. pose proof (CompleteOperation_inv _ _ _ _ _ E) as (_ & _ & _ & _ & _ & _ & _ & _ & _ & _ & _ & _ & Hx).
  destruct (_ || _ || _) eqn:Eev; [done|]. destruct (sameCompletion _ _) eqn:Es; [|done]. injection H as H.
  unfold sameCompletion in Es. apply andb_true_iff in Es as [Es _]. apply bool_decide_eq_true in Es. rewrite H in Es.
  assert (evidence_le (o_Evidence o) (o_Evidence (c_Operation c))) as Hev.
  { rewrite !orb_false_iff in Eev. unfold evidence_le. destruct (o_Evidence o) as [[][][]], (o_Evidence (c_Operation c)) as [[][][]]; naive_solver. }
  case_bool_decide as Hsu; subst expected; split_and!; try done.
  destruct Hx as (_ & _ & Hn) || (rewrite Hsu in Hx; destruct Hx as (_ & _ & Hn)). rewrite <- Hn. by destruct (c_Operation c).
Qed.

Lemma settle_row_of o x : same_identity o x -> canonical_operation o = o ->
  settle_row x (row_of o) = row_of (canonical_operation x).
Proof.
  intros Hs Hc. rewrite Hs. destruct o as [??????????????????? ?]; unfold canonical_operation in *; cbn in *.
  injection Hc as -> _ _ ->. reflexivity.
Qed.

(** The completion of [u] as it is in the journal. *)
Definition settled_as (u : OperationUpdate uuid) (x : ExecutionOutcome) o : Prop :=
  o = canonical_operation (c_Operation (u_Completion u)) /\ o_Status o = outcome_status x
  /\ o_OperationID o = g_ExpectedOperationID (u_Guard u) /\ o_GatewayID o = g_GatewayID (u_Guard u).

(** Completion settles the current operation, or finds it settled the same way. *)
Definition completed d (u : OperationUpdate uuid) (x : ExecutionOutcome) (p : Metadata uuid * bool) d' : Prop :=
  exists o, op_ok o /\ settled_as u x o
  /\ ((snd p = true /\ exists o0 c0 c, settleable d o0 c0 o c /\ d' = settle_intent d o c
         /\ fst p = metadata_of (o_GatewayID o) c o)
      \/ (snd p = false /\ d' = d /\ recorded d (o_OperationID o) o
          /\ exists c0 o0, current d (o_GatewayID o) c0 o0 /\ fst p = metadata_of (o_GatewayID o) c0 o0)).

Lemma terminal_retry_inv o m x (proposed : Completion uuid) m' : op_ok o -> Terminal o = true ->
  terminal_retry o m x proposed = Ok m' ->
  m' = m /\ canonical_operation (c_Operation proposed) = o /\ o_Status o = outcome_status x.
Proof.
  intros Hok Ht H. unfold terminal_retry in H. destruct (CompleteOperation _ _ _ _) as [t|] eqn:Et; [|done].
  destruct (_ && _) eqn:E in H; [|done]. injection H as ->. apply andb_true_iff in E as [Ex Es].
  apply bool_decide_eq_true in Ex. unfold sameCompletion in Es. apply andb_true_iff in Es as [Es _].
  apply bool_decide_eq_true in Es. cbn in Es. rewrite (ok_canonical _ Hok) in Es. split_and!; [done|done|].
  unfold Terminal in Ht. rewrite (ok_recovery _ Hok) in Ht. cbn in Ht. rewrite orb_false_r in Ht.
  rewrite Ex. destruct (o_Status o) eqn:Est; try done; cbn; rewrite ?bool_decide_eq_false_2, ?bool_decide_eq_true_2; done.
Qed.

Lemma update_event_row o x expected d n d' : recorded d (o_OperationID x) o -> same_identity o x -> canonical_operation o = o ->
  update_event x expected d = (n, d') -> n = 1 ->
  d' = set_events d (<[o_OperationID x := row_of (canonical_operation x)]> (cd_events d)).
Proof.
  intros Hr Hs Hc H ->. unfold update_event in H. unfold recorded in Hr. rewrite Hr in H.
  destruct (_ && _); [|congruence]. injection H as <-. by rewrite (settle_row_of o).
Qed.

Lemma shown_error_completed o x evidence at_ (c : Completion uuid) (code : option ErrorCode) :
  CompleteOperation o x evidence at_ = Ok c -> (x = ExecutionVerifiedSuccess -> code = None) ->
  shown_error (expected_op o x c code) = code.
Proof.
  intros H Hc. apply CompleteOperation_inv in H as (_ & _ & _ & _ & _ & _ & _ & _ & Hst & _ & _ & _ & Hx).
  unfold shown_error, expected_op. cbn. rewrite Hst. destruct x; cbn; try done. by rewrite Hc.
Qed.

Lemma same_identity_canonical o x : same_identity o x -> canonical_operation o = o -> same_identity o (canonical_operation x).
Proof.
  unfold same_identity. intros Hs Hc. rewrite Hs. destruct o as [??????????????????? ?]; unfold canonical_operation in *; cbn in *.
  injection Hc as Ecr _ _ Epr. rewrite Ecr, Epr. reflexivity.
Qed.

Lemma write_completion_step (u : OperationUpdate uuid) x o0 c0 (expected : Completion uuid) d rs :
  journal_ok d -> honest rs -> current d (g_GatewayID (u_Guard u)) c0 o0 -> op_ok o0 -> unresolved (o_Status o0) = true ->
  o_OperationID o0 = g_ExpectedOperationID (u_Guard u) ->
  checked_completion o0 x (u_Completion u) = Ok expected ->
  step_of (write_completion (u_Guard u) (g_GatewayID (u_Guard u)) expected) d rs (completed d u x).
Proof.
  intros Hj Hh Hcur Hok Hopen Hgid Hch. pose proof Hcur as (Hc0 & Hl0 & Hr0 & Hg0).
  destruct (checked_completion_inv _ _ _ _ Hch Hok) as (c & Hco & Hexp & Hcred & Hev & Hcan).
  set (code := if bool_decide (x = ExecutionVerifiedSuccess) then None else o_ErrorCode (c_Operation (u_Completion u))) in *.
  assert (canonical_operation (c_Operation expected) = expected_op o0 x c code) as Ho by (by rewrite Hexp).
  pose proof (CompleteOperation_inv _ _ _ _ _ Hco) as (_ & _ & _ & _ & _ & _ & Hsame & _ & Hst & _ & _ & Hproj & Hx).
  pose proof (ok_canonical _ Hok) as Hcan0.
  assert (same_identity o0 (c_Operation expected)) as Hsx by (rewrite Hexp; unfold same_identity; by rewrite Hsame).
  assert (shown_error (expected_op o0 x c code) = code) as Hshown.
  { eapply shown_error_completed; [done|]. intros ->. done. }
  assert (o_ErrorCode (c_Operation expected) = code) as Hecode by (by rewrite Hexp).
  pose proof (expected_op_ok _ _ _ _ _ code Hco Hok) as Hok'.
  rewrite <- Ho in Hok', Hshown. set (o := canonical_operation (c_Operation expected)) in *.
  assert (same_identity o0 o) as Hso by (by apply same_identity_canonical).
  assert (o_OperationID o = o_OperationID o0 /\ o_GatewayID o = o_GatewayID o0) as [Hido Hgo] by (rewrite Hso; done).
  assert (o_Status o = outcome_status x) as Hsto by (rewrite Ho; unfold expected_op; done).
  assert (o_Evidence o = o_Evidence (c_Operation c)) as Hevo by (rewrite Ho; done).
  assert (canonicalSnapshot (c_Credential expected) = projection_of o) as Hpo.
  { rewrite Hcred, Hproj, canonical_projection, Ho. unfold expected_op. f_equal. }
  unfold write_completion. eapply bind_step; [by apply write_step|]. intros n d1 rs1 Hh1 [=Hup].
  destruct (n =? 1) eqn:En; cbn [negb]; [apply Z.eqb_eq in En|apply fail_step].
  assert (o_OperationID (c_Operation expected) = o_OperationID o0) as Hide by (rewrite Hsx; done).
  eapply (update_event_row o0) in Hup; [|by rewrite Hide|done|done|done]. subst d1. fold o. rewrite Hide.
  eapply bind_step; [by apply write_step|]. intros n' d2 rs2 Hh2 Hcr.
  destruct (n' =? 1) eqn:En'; cbn [negb]; [apply Z.eqb_eq in En'|apply fail_step].
  unfold update_credential in Hcr. cbn [cd_credentials set_events] in Hcr. rewrite Hc0 in Hcr.
  destruct (_ && _ && _); [|congruence]. unfold write_credential in Hcr.
  match type of Hcr with context [credential_checked ?r] => set (c1 := r) in * end.
  destruct (credential_checked c1) eqn:Hck; [|done]. injection Hcr as _ <-.
  match goal with |- step_of _ ?x _ _ => assert (x = settle_intent d o c1) as -> by (unfold settle_intent; rewrite Hgo, Hg0, Hido; done) end.
  assert (settleable d o0 c0 o c1) as Hset.
  { split; try done; [by rewrite Hgo, Hg0|by rewrite Hevo|..].
    - intros Hrn. rewrite Hsto. destruct x; cbn; try auto. destruct Hx as (Hp & _). congruence.
    - rewrite Hsto. by destruct x.
    - cbn. rewrite Hl0. f_equal. congruence.
    - by rewrite Hshown. }
  assert (current (settle_intent d o c1) (g_GatewayID (u_Guard u)) c1 o) as Hcur1.
  { rewrite <- Hg0, <- Hgo. split_and!; [apply lookup_insert_eq|apply Hset|apply recorded_settle; by left|done]. }
  eapply bind_step; [by apply try_read_step|]. intros row d3 rs3 Hh3 [-> Hrow].
  rewrite (metadata_current _ _ _ _ Hcur1) in Hrow by apply Hok'.
  destruct Hrow as [->|(err & -> & _)]; cbn; [|apply fail_step].
  intros p d4 rs4 H. apply ret_step in H as (Hh4 & -> & ->); [|done]. split; [done|].
  exists o. split; [done|]. split; [split_and!; [done|done|by rewrite Hido|by rewrite Hgo]|]. left. split; [done|].
  exists o0, c0, c1. rewrite Hgo, Hg0. done.
Qed.

Lemma complete_step w u x d rs : journal_ok d -> honest rs -> step_of (complete_body w u x) d rs (completed d u x).
Proof.
  intros Hj Hh. unfold complete_body. eapply bind_step; [by apply read_step|]. intros parent d1 rs1 Hh1 [Hp ->].
  unfold gateway_exists in Hp. case_bool_decide; [|done]. injection Hp as <-.
  eapply bind_step; [by apply metadata_step|]. intros row d2 rs2 Hh2 [-> Hrow]. unfold metadata_found in Hrow.
  destruct (scanMetadata row) as [m|err]; [|apply fail_step]. destruct Hrow as (c0 & o0 & Hcur & Hok0 & ->).
  eapply bind_step; [by apply event_gateway_step|]. intros row2 d3 rs3 Hh3 [-> Hrow2]. unfold event_found in Hrow2.
  destruct (scanOperation row2) as [[o legacy]|err]; [|apply fail_step]. destruct Hrow2 as (Hrec & Hok & -> & Hid & Hg).
  rewrite (ok_recovery _ Hok). destruct (Terminal o) eqn:Ht.
  - cbn. eapply bind_step; [by apply decide_step|]. intros m' d4 rs4 Hh4 [Hret ->].
    apply terminal_retry_inv in Hret as (-> & Hcan & Hst); [|done|done].
    intros p d5 rs5 H'. apply ret_step in H' as (Hh5 & -> & ->); [|done]. split; [done|].
    exists o. split; [done|]. split; [done|]. right. rewrite Hg. eauto 8.
  - cbn. unfold complete_open. destruct (_ || _ || _ || _) eqn:Eg; [apply fail_step|].
    rewrite !orb_false_iff, !negb_false_iff, !bool_decide_eq_true in Eg. destruct Eg as [[[Eid Est] Ecs] Ev].
    cbn in Eid. pose proof Hcur as (_ & _ & Hr0 & _). rewrite Hid, <- Eid in Hrec. pose proof (recorded_inj _ _ _ _ Hrec Hr0) as ->.
    unfold checkpoint_open. rewrite (ok_contract _ Hok), bool_decide_eq_true_2 by done.
    eapply bind_step; [by apply ret_step|]. intros [] d4 rs4 Hh4 [_ ->].
    destruct (negb _); [apply fail_step|].
    eapply bind_step; [by apply decide_step|]. intros expected d5 rs5 Hh5 [Hch ->].
    apply (write_completion_step _ _ o0 c0); try done. unfold Terminal in Ht.
    pose proof (ok_valid _ Hok) as Hv. unfold ValidateHistorical in Hv. rewrite !andb_true_iff in Hv.
    destruct (o_Status o0); try done; naive_solver.
Qed.

(** ** Calls *)

(** What a call of the repository may do to the journal. *)
Inductive journal_step d : CredentialDB uuid -> Prop :=
| step_none : journal_step d d
| step_intent o c : admissible d o c -> journal_step d (admit_intent d o c)
| step_settle o0 c0 o c : settleable d o0 c0 o c -> journal_step d (settle_intent d o c).

Lemma journal_step_ok d d' : journal_ok d -> journal_step d d' -> journal_ok d' /\ audit_le d d'.
Proof.
  intros Hj [|o c Ha|o0 c0 o c Hs]; [by split; [|apply audit_le_refl]|split; [by apply journal_admit|by apply audit_admit]|].
  split; [by eapply journal_settle|by eapply audit_settle].
Qed.

Lemma journal_steps_ok d d' : journal_ok d -> rtc journal_step d d' -> journal_ok d' /\ audit_le d d'.
Proof.
  intros Hj H. induction H as [d|d d1 d2 Hs _ IH]; [by split; [|apply audit_le_refl]|].
  destruct (journal_step_ok _ _ Hj Hs) as [Hj1 Ha1]. destruct (IH Hj1) as [Hj2 Ha2].
  split; [done|]. exact (audit_le_trans _ _ _ Hj Hj1 Ha1 Ha2).
Qed.

Lemma begun_step w d id actor g key action pred reason b d' :
  begun w d id actor g key action pred reason b d' -> journal_step d d'.
Proof. intros (v & c & -> & -> & Ha). by apply step_intent. Qed.

(** A transaction with its commit: the answer of the body, or an error that left
    the journal alone unless the commit is of unknown outcome. *)
Lemma run_tx_effect {A} unknown w (body : CTx uuid (A * bool)) d r d' (P : A * bool -> CredentialDB uuid -> Prop) :
  step_of body d (cw_calls w) P -> (forall a d1, P (a, false) d1 -> d1 = d) ->
  run_tx unknown w body d = (r, d') ->
  match r with
  | Ok a => exists commit, P (a, commit) d'
  | Err err => d' = d \/ (err = CommitOutcomeUnknown unknown /\ exists a, P (a, true) d')
  end.
Proof.
  intros Hb Hro H. unfold run_tx in H. destruct (cw_begin w); [|injection H as <- <-; by left].
  destruct (body d (cw_calls w)) as [[[[a commit] d1] rs]|err] eqn:E; [|injection H as <- <-; by left].
  apply Hb in E as [_ HP]. destruct commit.
  - destruct (cw_commit w) as [|cause durable]; injection H as <- <-; [by exists true|].
    destruct durable; [right|by left]. by split; [|exists a].
  - injection H as <- <-. exists false. by rewrite <- (Hro _ _ HP).
Qed.

Lemma Begin_effect w req d r d' : journal_ok d -> call_ok w -> BeginSimplifiedOperation w req d = (r, d') ->
  let P := admitted w d (br_OperationID req) (br_ActorUserID req) (mi_GatewayID (br_Input req))
             (mi_IdempotencyKey (br_Input req)) (mi_Action (br_Input req)) None None in
  match r with
  | Ok b => exists commit, P (b, commit) d'
  | Err err => d' = d \/ (err = CommitOutcomeUnknown (br_OperationID req) /\ exists b, P (b, true) d')
  end.
Proof.
  intros Hj Hw H P. unfold BeginSimplifiedOperation in H. destruct (negb _ || _) eqn:E; [injection H as <- <-; by left|].
  apply orb_false_iff in E as [E _]. apply negb_false_iff in E. unfold ValidateMutationInput in E. gobool.
  eapply run_tx_effect; [apply begin_simplified_step; [done|done|apply Hw|done]| |done].
  intros b d1 [_ [[? _]|[_ [? _]]]]; done.
Qed.

Lemma BeginReset_effect w req d r d' : journal_ok d -> call_ok w -> BeginReset w req d = (r, d') ->
  match r with
  | Ok b => exists commit, reset_admitted w d req (b, commit) d'
  | Err err => d' = d \/ (err = CommitOutcomeUnknown (rr_OperationID req) /\ exists b, reset_admitted w d req (b, true) d')
  end.
Proof.
  intros Hj Hw H. unfold BeginReset in H. destruct (negb _ || _ || _) eqn:E; [injection H as <- <-; by left|].
  rewrite !orb_false_iff in E. destruct E as [[E _] _]. apply negb_false_iff in E. unfold ValidateResetInput in E. gobool.
  eapply run_tx_effect; [apply begin_reset_step; [done|done|apply Hw|done]| |done].
  intros b d1 [_ [[? _]|[_ [? _]]]]; done.
Qed.

Lemma complete_effect w u x d r d' : journal_ok d -> call_ok w -> complete w u x d = (r, d') ->
  match r with
  | Ok m => exists commit, completed d u x (m, commit) d'
  | Err err => d' = d \/ exists m, completed d u x (m, true) d'
  end.
Proof.
  intros Hj Hw H. unfold complete in H. destruct (_ || _); [injection H as <- <-; by left|].
  eapply run_tx_effect in H; [|by apply complete_step; [|apply Hw]|by intros m d1 (o & _ & _ & [[? _]|(_ & ? & _)])].
  destruct r; [done|]. naive_solver.
Qed.

Lemma completed_journal d u x p d' : completed d u x p d' -> journal_step d d'.
Proof. intros (o & _ & _ & [(_ & o0 & c0 & c & Hs & -> & _)|(_ & -> & _)]); [by eapply step_settle|apply step_none]. Qed.

(** ** Reads *)

Lemma reads_effect {A} w (body : CTx uuid A) d (P : A -> CredentialDB uuid -> Prop) a :
  step_of body d (cw_calls w) P -> run_reads w body d = Ok a -> exists d', P a d'.
Proof.
  intros Hb H. unfold run_reads in H. destruct (body d (cw_calls w)) as [[[a' d'] rs]|] eqn:E; [|done].
  injection H as ->. exists d'. by apply Hb in E as [_ ?].
Qed.

Lemma GetMetadata_read w g d m : journal_ok d -> call_ok w -> GetMetadata w g d = Ok m ->
  exists c o, current d g c o /\ op_ok o /\ m = metadata_of g c o.
Proof.
  intros Hj Hw H. unfold GetMetadata in H. destruct (negb _); [done|].
  eapply (reads_effect w _ _ (fun m _ => exists c o, current d g c o /\ op_ok o /\ m = metadata_of g c o)) in H as [_ H]; [done|].
  eapply bind_step; [apply metadata_step; [done|apply Hw]|]. intros row d1 rs1 Hh1 [-> Hrow]. unfold metadata_found in Hrow.
  destruct (scanMetadata row); [|apply fail_step]. intros m' d2 rs2 H2. by apply ret_step in H2 as (? & -> & _).
Qed.

Lemma Resolve_read w id d o : journal_ok d -> call_ok w -> ResolveCommitAmbiguity w id d = Ok o ->
  recorded d id o /\ op_ok o.
Proof.
  intros Hj Hw H. unfold ResolveCommitAmbiguity in H. destruct (bool_decide _); [done|]. destruct (cw_begin w); [|done].
  eapply (reads_effect w _ _ (fun o _ => recorded d id o /\ op_ok o)) in H as [_ H]; [done|].
  eapply bind_step; [apply event_id_step; [done|apply Hw]|]. intros row d1 rs1 Hh1 [-> Hrow]. unfold event_found in Hrow.
  destruct (scanOperation row) as [[o' []]|]; try apply fail_step. destruct Hrow as (Hr & Hok & _ & <-).
  intros o2 d2 rs2 H2. by apply ret_step in H2 as (? & -> & _).
Qed.

End effects.
