(* ===== verification/CredentialServiceSpec.v ===== *)
(** * MQTT credentials: what a request does

    A request is refused or replayed, or admits one intent and runs it.  From this
    follow the theorems: the journal stays consistent and only grows, a secret is
    shown for a durable success only, and a refusal that does not poison the
    service has changed nothing. *)

From S2P Require Import Prelude GoStrings GoTime GoFloat GoJson Identity Uuid Telemetry.
From S2P Require Import Txn HistoryQuery Cursor Credential CredentialStore CredentialExecutor CredentialService.
From S2P Require Import CredentialJournal CredentialEffects.
#[local] Open Scope Z_scope.

Section served.
Context {uuid : Type} `{U : UuidLib uuid}.
Context (cfg : SimplifiedDynSecConfig) (W : ServiceWorld uuid).
Implicit Types (s : CState uuid) (d : CredentialDB uuid) (o : Operation uuid) (m : Metadata uuid) (actor : uuid)
  (c : CredentialRow uuid) (g : string).

(** ** Effects *)

Definition appends (log log' l : list Event) : Prop := exists l0, log' = log ++ l0 /\ commands l0 = l.

Lemma appends_refl log : appends log log [].
Proof. exists []. by rewrite app_nil_r. Qed.

Lemma emits_run {A} (m : CM uuid A) s (P : A -> string -> list Event -> Prop) a s' :
  emits m s P -> m s = (a, s') -> framed s s' /\ exists l, appends (cs_log s) (cs_log s') l /\ P a (cs_secret s') l.
Proof. intros [Hf (l & Hl & HP)] E. rewrite E in *. cbn in *. split; [done|]. exists (commands l). split; [by exists l|done]. Qed.

(** A call of the repository leaves everything but the tables. *)
Definition repo_framed s s' : Prop :=
  cs_log s' = cs_log s /\ cs_secret s' = cs_secret s /\ cs_busy s' = cs_busy s /\ cs_poisoned s' = cs_poisoned s.

Lemma repo_tx_run {A} (run : CallWorld uuid -> CredentialDB uuid -> res (cerror uuid) A * CredentialDB uuid) s r s' :
  repo_tx W run s = (r, s') -> run (sw_call W (cs_calls s)) (cs_db s) = (r, cs_db s') /\ repo_framed s s'.
Proof.
  unfold repo_tx. destruct (run _ _) as [r0 d0] eqn:E. intros [=<- <-]. by split.
Qed.

Lemma repo_read_run {A} (run : CallWorld uuid -> CredentialDB uuid -> res (cerror uuid) A) s r s' :
  repo_read W run s = (r, s') ->
  run (sw_call W (cs_calls s)) (cs_db s) = r /\ cs_db s' = cs_db s /\ repo_framed s s'.
Proof. unfold repo_read. intros H. apply repo_tx_run in H as [[=-> ->] Hf]. done. Qed.

Lemma generator_generates : generates (generator W).
Proof.
  intros s. eapply emits_bind; [by apply quiet_ask|]. intros ended l s1 [_ ->].
  unfold emits at 1. destruct (ended || negb (bool_decide (cs_secret s1 = ""))).
  { split; [done|]. exists []. by rewrite app_nil_r. }
  match goal with |- context [(?m s1)] => change (emits m s1 (fun r sec l => [] ++ l = [] /\
    match r with Ok p => sec = p /\ validPassword p = true | Err _ => True end)) end.
  eapply emits_bind; [by apply quiet_ask|]. intros [p|] l s2 [_ ->]; [|by apply emits_ret].
  eapply emits_bind; [by apply quiet_ask|]. intros ended2 l s3 [_ ->].
  destruct (ended2 || negb (validPassword p)) eqn:E; [by apply emits_ret|].
  apply orb_false_iff in E as [_ E]. apply negb_false_iff in E.
  split; [done|]. exists []. by rewrite app_nil_r.
Qed.

(** ** Running an admitted intent *)

(** The intent was completed as a failure, and the projection goes back. *)
Definition restored d o d' : Prop :=
  exists o' c0 c', settleable d o c0 o' c' /\ d' = settle_intent d o' c' /\ o_Status o' = OperationFailed.

(** The success that is shown: read back from the journal. *)
Definition succeeded d o log s' (resp : ProvisionResponse uuid) : Prop :=
  exists o' c' secret, current (cs_db s') (o_GatewayID o) c' o' /\ op_ok o' /\ same_identity o o'
  /\ o_Status o' = OperationSucceeded /\ evidence_suffices ContractSimplified (o_Action o) (o_Evidence o') = true
  /\ cs_poisoned s' = false
  /\ (exists native created, appends log (cs_log s') (plan o native created secret))
  /\ (o_Action o = ActionRevoke \/ validPassword secret = true)
  /\ let m := metadata_of (o_GatewayID o) c' o' in
     let issued := negb (bool_decide (o_Action o = ActionRevoke)) in
     resp = mkProvisionResponse (mkMutationResult m (o_OperationID o) issued "" (OperationOther "") None)
              (if issued then Some (mkSecretResult m (o_OperationID o) secret) else None).

(** What running the intent [o] of the journal [d] leaves. *)
Definition ran d o log (r : res ErrorCode (ProvisionResponse uuid)) s' : Prop :=
  rtc journal_step d (cs_db s') /\
  (exists native created p l, appends log (cs_log s') l /\ l `prefix_of` plan o native created p
     /\ (l <> [] -> target cfg o = true)) /\
  match r with
  | Err _ => cs_poisoned s' = true \/ (appends log (cs_log s') [] /\ restored d o (cs_db s'))
  | Ok resp => succeeded d o log s' resp
  end.

Context (Hcalls : forall n, call_ok (sw_call W n)).

Lemma bind_run {A B} (m : CM uuid A) (k : A -> CM uuid B) s r :
  cm_bind m k s = r -> exists a s1, m s = (a, s1) /\ k a s1 = r.
Proof. unfold cm_bind. destruct (m s) as [a s1]. eauto. Qed.

Lemma x_bind_run {E A B} (m : XM uuid E A) (k : A -> XM uuid E B) s r s' : x_bind m k s = (r, s') ->
  (exists a s1, m s = (Ok a, s1) /\ k a s1 = (r, s')) \/ (exists e, m s = (Err e, s') /\ r = Err e).
Proof.
  intros H. apply bind_run in H as ([a|e] & s1 & Hm & Hk); [eauto|]. unfold x_fail, cm_ret in Hk.
  injection Hk as <- <-. eauto.
Qed.

Lemma completed_known d u x p d' o : completed d u x p d' -> recorded d (o_OperationID o) o ->
  g_ExpectedOperationID (u_Guard u) = o_OperationID o -> o_Status o = OperationPending ->
  exists o' c0 c', settleable d o c0 o' c' /\ d' = settle_intent d o' c' /\ o_Status o' = outcome_status x.
Proof.
  intros (o' & Hok' & (_ & Hst & Hid & _) & Hc) Hr Hg Hp. destruct Hc as [(_ & o0 & c0 & c' & Hs & -> & _)|(_ & _ & Hr' & _)].
  - exists o', c0, c'. assert (o0 = o) as ->; [|done]. pose proof (se_current _ _ _ _ _ Hs) as (_ & _ & Hr0 & _).
    pose proof (same_identity_id _ _ (se_identity _ _ _ _ _ Hs)) as E. eapply recorded_inj; [exact Hr0|]. by rewrite <- E, Hid, Hg.
  - rewrite Hid, Hg in Hr'. pose proof (recorded_inj _ _ _ _ Hr Hr') as <-. rewrite Hp in Hst. by destruct x.
Qed.

Lemma record_failure_run o m known evidence s s' : journal_ok (cs_db s) -> recorded (cs_db s) (o_OperationID o) o ->
  o_Status o = OperationPending -> record_failure W o m known evidence s = (tt, s') ->
  cs_log s' = cs_log s /\ rtc journal_step (cs_db s) (cs_db s')
  /\ (cs_poisoned s' = true \/ (known = true /\ restored (cs_db s) o (cs_db s'))).
Proof.
  intros Hj Hr Hp H. unfold record_failure in H. apply bind_run in H as ([] & s1 & H1 & H).
  assert (cs_log s1 = cs_log s /\ cs_db s1 = cs_db s /\ (known = true \/ cs_poisoned s1 = true)) as (Hl1 & Hd1 & Hp1).
  { destruct known; [injection H1 as <-; by auto|]. unfold poison in H1. injection H1 as <-. by auto. }
  apply bind_run in H as (now & s2 & [=<- <-] & H). rewrite <- Hd1 in *.
  destruct (CompleteOperation _ _ _ _) as [cc|] eqn:Ec; [|injection H as <-; cbn; split_and!; [done|by rewrite Hd1|by left]].
  apply bind_run in H as (r & s3 & H3 & H). apply repo_tx_run in H3 as [H3 (Hl3 & _ & _ & Hp3)].
  set (x := if known then ExecutionUnchangedFailure else ExecutionRecoveryRequired).
  assert (complete (sw_call W (cs_calls s1)) (mkOperationUpdate (operationGuard o m) cc) x (cs_db s1) = (r, cs_db s3)) as H3'.
  { subst x. by destruct known. }
  apply complete_effect in H3'; [|done|apply Hcalls].
  assert (journal_step (cs_db s1) (cs_db s3)) as Hstep.
  { destruct r as [m'|err]; [destruct H3' as [commit H3']; by eapply completed_journal|].
    destruct H3' as [->|[m' H3']]; [apply step_none|by eapply completed_journal]. }
  destruct r as [m'|err]; injection H as <-; cbn; (split; [congruence|]); (split; [by apply rtc_once|]); [|by left].
  destruct known; [|left; destruct Hp1; congruence]. right. split; [done|]. destruct H3' as [commit H3'].
  exact (completed_known _ _ _ _ _ _ H3' Hr eq_refl Hp).
Qed.

(** A success of the journal carries its evidence. *)
Lemma success_evidence o : op_ok o -> o_Status o = OperationSucceeded ->
  evidence_suffices ContractSimplified (o_Action o) (o_Evidence o) = true.
Proof.
  intros Hok Hs. pose proof (ok_valid _ Hok) as Hv. unfold ValidateHistorical in Hv. rewrite !andb_true_iff in Hv.
  destruct Hv as [[_ Hv] _]. rewrite Hs, (bool_decide_eq_true_2 (OperationSucceeded = _)) in Hv by done.
  by rewrite <- (ok_contract _ Hok).
Qed.

Lemma finalize_run o m tolerant evidence s r s' : journal_ok (cs_db s) -> recorded (cs_db s) (o_OperationID o) o ->
  finalize W o m tolerant evidence s = (r, s') ->
  cs_log s' = cs_log s /\ rtc journal_step (cs_db s) (cs_db s') /\
  match r with
  | Err _ => cs_poisoned s' = true
  | Ok latest => exists o' c', current (cs_db s') (o_GatewayID o) c' o' /\ op_ok o' /\ same_identity o o'
      /\ o_Status o' = OperationSucceeded /\ latest = metadata_of (o_GatewayID o) c' o' /\ cs_poisoned s' = cs_poisoned s
  end.
Proof.
  intros Hj Hr H. unfold finalize in H. apply bind_run in H as (now & s1 & [=<- <-] & H).
  destruct (CompleteOperation _ _ _ _) as [cc|] eqn:Ec; [|by injection H as <- <-].
  apply CompleteOperation_inv in Ec as (_ & _ & _ & _ & _ & _ & _ & _ & Hst & _).
  apply bind_run in H as (fin & s2 & H2 & H). apply repo_tx_run in H2 as [H2 (Hl2 & _ & _ & Hp2)].
  apply complete_effect in H2; [|done|apply Hcalls].
  assert (journal_step (cs_db s) (cs_db s2)) as Hstep.
  { destruct fin as [m'|err]; [destruct H2 as [commit H2]; by eapply completed_journal|].
    destruct H2 as [->|[m' H2]]; [apply step_none|by eapply completed_journal]. }
  destruct (journal_step_ok _ _ Hj Hstep) as [Hj2 Ha2].
  apply bind_run in H as (conf & s3 & H3 & H). apply repo_read_run in H3 as (H3 & Hd3 & Hl3 & _ & _ & Hp3).
  apply bind_run in H as (lat & s4 & H4 & H). apply repo_read_run in H4 as (H4 & Hd4 & Hl4 & _ & _ & Hp4).
  assert (cs_log s4 = cs_log s /\ cs_poisoned s4 = cs_poisoned s /\ cs_db s4 = cs_db s2) as (Hl & Hp & Hd) by (split_and!; congruence).
  assert (forall code : ErrorCode, (Err code : res ErrorCode (Metadata uuid), set_flags (cs_busy s4) true s4) = (r, s') ->
    cs_log s' = cs_log s /\ rtc journal_step (cs_db s) (cs_db s') /\ match r with Err _ => cs_poisoned s' = true | Ok _ => False end) as Hbad.
  { intros code [=<- <-]. cbn. rewrite Hd, Hl. split_and!; [done|by apply rtc_once|done]. }
  destruct conf as [o'|]; [|apply Hbad in H; destruct r; naive_solver].
  destruct lat as [latest|]; [|apply Hbad in H; destruct r; naive_solver].
  destruct (_ && _) eqn:E in H; [|apply Hbad in H; destruct r; naive_solver]. injection H as <- <-.
  split; [done|]. split; [rewrite Hd; by apply rtc_once|]. apply andb_true_iff in E as [E _].
  apply Resolve_read in H3 as [Hr3 Hok3]; [|by rewrite ?Hd3|apply Hcalls].
  apply GetMetadata_read in H4 as (c' & o2 & Hcur & Hok2 & ->); [|by rewrite Hd3|apply Hcalls]. rewrite Hd3 in Hcur.
  unfold readback_matches in E. rewrite !andb_true_iff in E. destruct E as [[[[[[[Es _] Eid] _] _] _] _] _].
  apply bool_decide_eq_true in Eid. cbn in Eid. unfold sameCompletion in Es. apply andb_true_iff in Es as [Es _].
  apply bool_decide_eq_true in Es. cbn in Es. pose proof Hcur as (_ & _ & Hr2 & _). rewrite Eid in Hr2.
  pose proof (recorded_inj _ _ _ _ Hr2 Hr3) as ->. destruct (al_event _ _ Ha2 _ Hr) as (o3 & Hr4 & Hsame & _).
  pose proof (recorded_inj _ _ _ _ Hr4 Hr3) as ->. exists o', c'. rewrite Hd. split_and!; try done.
  rewrite (ok_canonical _ Hok3) in Es. rewrite Es. done.
Qed.

(** The plan of an action with a target is not empty. *)
Lemma plan_target o native created p : target cfg o = true -> plan o native created p <> [].
Proof.
  unfold target, plan. rewrite !andb_true_iff. intros [_ Ht].
  destruct (o_Action o), created, (bool_decide (native = None)); try done; by destruct (o_Previous o).
Qed.

(** A verified execution sent the whole plan. *)
Lemma verified_execution o r err sec l : execution cfg o r err sec l ->
  execution_verified (o_Action o) (o_OperationID o) r err sec = true ->
  target cfg o = true /\ exists native created, l = plan o native created sec /\ (o_Action o = ActionRevoke \/ validPassword sec = true).
Proof.
  intros [_ Hx] Hv. unfold execution_verified in Hv. rewrite !andb_true_iff, !bool_decide_eq_true in Hv.
  destruct Hv as (((((-> & _) & Hm) & _) & _) & Hobs). rewrite Hm in Hx.
  destruct Hx as (native & created & p & Hp & Ht & -> & _). split; [done|]. exists native, created.
  apply (plan_target o native created p) in Ht as Hne. destruct (Hp Hne) as (_ & [Ha|[-> Hv]]); [|by split; [|right]].
  split; [|by left]. unfold plan. by rewrite Ha.
Qed.

Lemma run_operation_run o m s r s' : journal_ok (cs_db s) -> recorded (cs_db s) (o_OperationID o) o ->
  o_Status o = OperationPending -> cs_poisoned s = false -> run_operation cfg W o m s = (r, s') ->
  ran (cs_db s) o (cs_log s) r s'.
Proof.
  intros Hj Hr Hpen Hpo H. unfold run_operation in H.
  apply bind_run in H as ([x err] & s1 & H1 & H).
  eapply emits_run in H1; [|apply owned_Execute_emits; destruct (bool_decide _); [exact I|apply generator_generates]].
  destruct H1 as [(Hd & _ & _ & Hp1) (l & Hl & Hx)]. cbn [fst snd] in Hx. rewrite <- Hd in *.
  assert (exists native created p, l `prefix_of` plan o native created p) as (native & created & p & Hpre).
  { destruct Hx as [_ Hx]. destruct (r_Mutated x); [|destruct Hx as [-> _]; exists None, false, ""; apply prefix_nil].
    destruct Hx as (native & created & p & _ & Hx). exists native, created, p. destruct err; [apply Hx|]. by destruct Hx as (_ & -> & _). }
  assert (l <> [] -> target cfg o = true) as Htg.
  { intros Hne. destruct Hx as [_ Hx]. destruct (r_Mutated x); [destruct Hx as (? & ? & ? & Hx & _); by apply Hx|by destruct Hx]. }
  destruct (execution_verified _ _ _ _ _) eqn:Ev; cbn [negb] in H.
  - apply x_bind_run in H as [(latest & s2 & H2 & H)|(e & H2 & ->)]; apply finalize_run in H2; try done.
    + destruct H2 as (Hl2 & Hst & o' & c' & Hcur & Hok & Hsame & Hs & -> & Hp2). injection H as <- <-.
      apply (verified_execution o x err (cs_secret s1) l) in Ev as (Ht & nat' & cr' & -> & Hpw); [|done].
      split; [done|]. split; [by exists nat', cr', (cs_secret s1), (plan o nat' cr' (cs_secret s1)); rewrite Hl2|].
      exists o', c', (cs_secret s1). split_and!; try done.
      * apply success_evidence in Hs; [|done]. by rewrite Hsame in Hs.
      * by rewrite Hp2, Hp1.
      * exists nat', cr'. by rewrite Hl2.
    + destruct H2 as (Hl2 & Hst & Hp2). split; [done|]. split; [|by left].
      exists native, created, p, l. by rewrite Hl2.
  - apply bind_run in H as ([] & s2 & H2 & H). injection H as <- <-.
    apply record_failure_run in H2 as (Hl2 & Hst & Hend); try done. split; [done|].
    split; [by exists native, created, p, l; rewrite Hl2|].
    destruct Hend as [?|[Hk Hres]]; [by left|right]. split; [|done].
    unfold known_unchanged in Hk. rewrite !andb_true_iff, negb_true_iff in Hk. destruct Hk as [[[_ Hm] _] _].
    destruct Hx as [_ Hx]. rewrite Hm in Hx. destruct Hx as [-> _]. by rewrite Hl2.
Qed.

(** ** Requests *)

(** An administrator's intent was admitted, over the current operation if it is a
    reset. *)
Definition intent_of d actor g (key : uuid) (action : Action) (b : BeginResult uuid) d1 : Prop :=
  exists n id pred reason, is_admin (sw_call W n) actor = true
  /\ begun (sw_call W n) d id actor g key action pred reason b d1
  /\ match pred with
     | None => action <> ActionReset
     | Some p => exists o0 c0 why, p = o_OperationID o0 /\ current d g c0 o0 /\ reason = Some why
                   /\ CheckResetEligibility (metadata_of g c0 o0) o0 why = None /\ cr_revoked_at c0 = None
     end.

Definition no_secret (r : res ErrorCode (ProvisionResponse uuid)) : Prop :=
  forall resp, r = Ok resp -> resp_Secret resp = None.

(** A request had no effect, lost sight of its commit, or ran its intent. *)
Inductive served actor g (key : uuid) (action : Action) s (r : res ErrorCode (ProvisionResponse uuid)) s' : Prop :=
| served_nothing : cs_db s' = cs_db s -> appends (cs_log s) (cs_log s') [] -> no_secret r -> served actor g key action s r s'
| served_lost b err : cs_poisoned s = false -> r = Err err -> cs_poisoned s' = true -> appends (cs_log s) (cs_log s') [] ->
    intent_of (cs_db s) actor g key action b (cs_db s') -> served actor g key action s r s'
| served_ran b d1 : cs_poisoned s = false -> intent_of (cs_db s) actor g key action b d1 ->
    ran d1 (b_Operation b) (cs_log s) r s' -> served actor g key action s r s'.

(** An answer that left the tables and the broker as they were. *)
Ltac unchanged_by H := injection H as <- <-; apply served_nothing; [done|apply appends_refl|by try intros ? [=<-]].

Lemma begun_current w d id actor g key action pred reason b d1 : journal_ok d ->
  begun w d id actor g key action pred reason b d1 ->
  journal_ok d1 /\ recorded d1 (o_OperationID (b_Operation b)) (b_Operation b)
  /\ o_Status (b_Operation b) = OperationPending /\ b_Replay b = None /\ b_Execute b = true.
Proof.
  intros Hj (v & c & -> & -> & Ha). split; [by apply journal_admit|]. split; [|done].
  apply recorded_admit; [apply Ha|by left].
Qed.

(** Answers without effect. *)
Definition inert {A} (m : XM uuid ErrorCode A) : Prop :=
  forall s r s', m s = (r, s') -> cs_db s' = cs_db s /\ appends (cs_log s) (cs_log s') [].

Lemma appends_trans log log' log'' l l' : appends log log' l -> appends log' log'' l' -> appends log log'' (l ++ l').
Proof. intros (l0 & -> & <-) (l1 & -> & <-). exists (l0 ++ l1). by rewrite commands_app, app_assoc. Qed.

Lemma inert_ret {A} (r : res ErrorCode A) : inert (cm_ret r).
Proof. intros s r' s' [=<- <-]. split; [done|apply appends_refl]. Qed.

Lemma inert_poisoned {A} code : inert (poisoned_fail (A := A) code).
Proof. intros s r s' [=<- <-]. split; [done|apply appends_refl]. Qed.

Lemma inert_bind {A B} (m : CM uuid A) (k : A -> XM uuid ErrorCode B) :
  (forall s a s', m s = (a, s') -> cs_db s' = cs_db s /\ appends (cs_log s) (cs_log s') []) ->
  (forall a, inert (k a)) -> inert (cm_bind m k).
Proof.
  intros Hm Hk s r s' H. apply bind_run in H as (a & s1 & H1 & H2). destruct (Hm _ _ _ H1) as [Hd Hl].
  destruct (Hk _ _ _ _ H2) as [Hd' Hl']. split; [congruence|]. exact (appends_trans _ _ _ [] [] Hl Hl').
Qed.

Lemma inert_x_bind {A B} (m : XM uuid ErrorCode A) (k : A -> XM uuid ErrorCode B) :
  inert m -> (forall a, inert (k a)) -> inert (x_bind m k).
Proof. intros Hm Hk. apply inert_bind; [exact Hm|]. intros [a|e]; [done|apply inert_ret]. Qed.

Lemma inert_read {A B} (run : CallWorld uuid -> CredentialDB uuid -> res (cerror uuid) A) (k : res (cerror uuid) A -> XM uuid ErrorCode B) :
  (forall a, inert (k a)) -> inert (cm_bind (repo_read W run) k).
Proof.
  apply inert_bind. intros s a s' H. apply repo_read_run in H as (_ & Hd & Hl & _). split; [done|]. rewrite Hl. apply appends_refl.
Qed.

Lemma inert_require_admin actor : inert (require_admin W actor).
Proof. apply inert_read. intros [[]|]; apply inert_ret. Qed.

Lemma inert_new_id : inert (new_operation_id W).
Proof. unfold new_operation_id. destruct (sw_new_id W); [|apply inert_ret]. case_bool_decide; apply inert_ret. Qed.

Lemma inert_noop action m g : inert (check_noop cfg W action m g).
Proof.
  unfold check_noop. destruct (_ || _); [apply inert_poisoned|]. apply inert_bind.
  - intros s a s' H. by destruct (emits_run _ _ _ _ _ (quiet_owned_CheckRevoked _ _ _ _) H) as [(Hd & _) (l & Hl & _ & ->)].
  - intros [a|e]; [|apply inert_poisoned]. apply inert_read. intros [latest|]; [|apply inert_poisoned].
    destruct (sameSimplifiedMetadata _ _); [apply inert_ret|apply inert_poisoned].
Qed.

Lemma inert_check_replay rp o replay : inert (check_replay rp o replay).
Proof. unfold check_replay. destruct rp; [|apply inert_poisoned]. destruct (_ && _); [apply inert_ret|apply inert_poisoned]. Qed.

Lemma inert_answer (b : BeginResult uuid) replay g check : inert check -> inert (answer_replay b replay g check).
Proof.
  intros Hc. unfold answer_replay. destruct (_ || _ || _ || _); [apply inert_poisoned|].
  apply inert_x_bind; [done|]. intros _. apply inert_ret.
Qed.

Lemma answer_no_secret (b : BeginResult uuid) replay g check s r s' : answer_replay b replay g check s = (r, s') -> no_secret r.
Proof.
  unfold answer_replay. destruct (_ || _ || _ || _); [by intros [=<- _]|].
  intros H. apply x_bind_run in H as [(a & s1 & _ & [=<- _])|(e & _ & ->)]; [by intros resp [=<-]|done].
Qed.

(** ** Admission and what follows *)

(** What a call of [Begin...] does. *)
Definition begins d actor g key action (r : res (cerror uuid) (BeginResult uuid)) d' : Prop :=
  match r with
  | Ok b => intent_of d actor g key action b d' \/ replayed d b d'
  | Err err => d' = d \/ exists id b, err = CommitOutcomeUnknown id /\ intent_of d actor g key action b d'
  end.

Lemma admission_served actor g key action run (k : BeginResult uuid -> XM uuid ErrorCode (ProvisionResponse uuid)) s r s' :
  journal_ok (cs_db s) -> cs_poisoned s = false ->
  (forall br d', run (sw_call W (cs_calls s)) (cs_db s) = (br, d') -> begins (cs_db s) actor g key action br d') ->
  (forall b replay, b_Replay b = Some replay ->
     inert (k b) /\ forall s r s', k b s = (r, s') -> no_secret r) ->
  (forall b, b_Replay b = None ->
     (exists code, k b = poisoned_fail code) \/ k b = run_operation cfg W (b_Operation b) (b_Metadata b)) ->
  x_bind (admission (repo_tx W run)) k s = (r, s') -> served actor g key action s r s'.
Proof.
  intros Hj Hp Hrun Hrep Hnew H. unfold x_bind, admission in H. apply bind_run in H as (ba & s2 & H & Hk).
  apply bind_run in H as (br & s1 & H1 & H). apply repo_tx_run in H1 as [H1 (Hl & _ & _ & Hp1)]. apply Hrun in H1.
  assert (appends (cs_log s) (cs_log s1) []) as Hap by (rewrite Hl; apply appends_refl).
  destruct br as [b|err]; cbn in H1.
  - injection H as <- <-. destruct (b_Replay b) as [replay|] eqn:Er.
    + destruct H1 as [(n & id & pred & reason & _ & Hb & _)|[Hd _]]; [by apply begun_current in Hb as (_ & _ & _ & Hb & _); [congruence|]|].
      destruct (Hrep _ _ Er) as [Hin Hns]. pose proof (Hin _ _ _ Hk) as [Hd2 Hl2]. apply served_nothing; [congruence| |by eapply Hns].
      exact (appends_trans _ _ _ [] [] Hap Hl2).
    + destruct H1 as [Hi|(_ & _ & rp & Hrp & _)]; [|congruence]. destruct (Hnew _ Er) as [[code Hc]|Hc]; rewrite Hc in Hk.
      * injection Hk as <- <-. by eapply served_lost.
      * eapply served_ran; [done|exact Hi|]. destruct Hi as (n & id & pred & reason & _ & Hb & _).
        apply begun_current in Hb as (Hj1 & Hr1 & Hpen & _); [|done]. rewrite <- Hl.
        eapply run_operation_run; [done..| |exact Hk]. congruence.
  - destruct (evaluateAdmissionError _ _) as [safe code] eqn:Ee. destruct safe.
    + injection H as <- <-. injection Hk as <- <-. destruct H1 as [Hd|(id & b & -> & _)];
        [|unfold evaluateAdmissionError in Ee; cbn in Ee; by rewrite orb_true_r in Ee].
      by apply served_nothing.
    + injection H as <- <-. injection Hk as <- <-. destruct H1 as [Hd|(id & b & -> & Hi)]; [by apply served_nothing|].
      by eapply served_lost.
Qed.

Lemma mutate_locked_served actor input s r s' : journal_ok (cs_db s) -> cs_poisoned s = false ->
  mi_Action input <> ActionReset ->
  mutate_locked cfg W actor input s = (r, s') ->
  served actor (mi_GatewayID input) (mi_IdempotencyKey input) (mi_Action input) s r s'.
Proof.
  intros Hj Hp Hna H. unfold mutate_locked in H.
  apply x_bind_run in H as [(id & s1 & H1 & H)|(e & H1 & ->)]; [|apply inert_new_id in H1 as [? ?]; by apply served_nothing].
  assert (s1 = s) as ->.
  { unfold new_operation_id in H1. destruct (sw_new_id W); [|done]. case_bool_decide; [done|]. by injection H1. }
  eapply admission_served in H; try done.
  - intros br d' Hb. eapply Begin_effect in Hb; [|done|apply Hcalls]. destruct br as [b|err]; cbn in *.
    + destruct Hb as (commit & Hadm & [[_ Hb]|[_ Hb]]); [left|by right]. by exists (cs_calls s), id, None, None.
    + destruct Hb as [?|(-> & b & Hadm & [[_ Hb]|[? _]])]; [by left| |done]. right. exists id, b. split; [done|].
      by exists (cs_calls s), id, None, None.
  - intros b replay Er. cbn zeta. rewrite Er. split; [|by intros ???; apply answer_no_secret].
    apply inert_answer. case_bool_decide; [apply inert_noop|apply inert_check_replay].
  - intros b Er. cbn zeta. rewrite Er. destruct (_ || _ || _); [left; by eexists|by right].
Qed.

Lemma inert_target input : inert (reset_target W input).
Proof.
  unfold reset_target. apply inert_read. intros [m|err]; [|apply inert_poisoned].
  destruct (negb _); [apply inert_poisoned|]. apply inert_read. intros [pred|err]; [|apply inert_poisoned].
  destruct (_ || _); [apply inert_poisoned|]. destruct (CheckResetEligibility _ _ _); apply inert_ret.
Qed.

(** What an [Ok] of an inert computation leaves of the flags. *)
Definition keeps_flags {A} (m : XM uuid ErrorCode A) : Prop :=
  forall s a s', m s = (Ok a, s') -> cs_poisoned s' = cs_poisoned s.

Lemma keeps_target input : keeps_flags (reset_target W input).
Proof.
  intros s a s' H. unfold reset_target in H. apply bind_run in H as (meta & s1 & H1 & H).
  apply repo_read_run in H1 as (_ & _ & _ & _ & _ & Hp1). destruct meta as [m|]; [|done].
  destruct (negb _); [done|]. apply bind_run in H as (pred & s2 & H2 & H).
  apply repo_read_run in H2 as (_ & _ & _ & _ & _ & Hp2). destruct pred as [pred|]; [|done].
  destruct (_ || _); [done|]. destruct (CheckResetEligibility _ _ _); [done|]. injection H as <- <-. congruence.
Qed.

Lemma served_after actor g key action s s1 r s' : cs_db s1 = cs_db s -> appends (cs_log s) (cs_log s1) [] ->
  cs_poisoned s1 = cs_poisoned s -> served actor g key action s1 r s' -> served actor g key action s r s'.
Proof.
  intros Hd Hl Hp [Hd1 Hl1 Hn|b err Hp0 -> Hp1 Hl1 Hi|b d1 Hp1 Hi Hr].
  - apply served_nothing; [congruence|exact (appends_trans _ _ _ [] [] Hl Hl1)|done].
  - eapply served_lost; [congruence|done|done|exact (appends_trans _ _ _ [] [] Hl Hl1)|]. rewrite <- Hd. exact Hi.
  - eapply served_ran; [congruence|rewrite <- Hd; exact Hi|].
    destruct Hr as (Hst & (native & created & p & l & Ha & Hpre & Ht) & Hend). split; [done|].
    split; [exists native, created, p, l; split_and!; [exact (appends_trans _ _ _ [] _ Hl Ha)|done|done]|].
    destruct r as [resp|err].
    + destruct Hend as (o' & c' & sec & H1 & H2 & H3 & H4 & H5 & H6 & (na & cr & Hap) & H8).
      exists o', c', sec. split_and!; try done; [|apply H8..]. exists na, cr. exact (appends_trans _ _ _ [] _ Hl Hap).
    + destruct Hend as [?|[Hap ?]]; [by left|right]. split; [exact (appends_trans _ _ _ [] [] Hl Hap)|done].
Qed.

Lemma reset_locked_served actor input s r s' : journal_ok (cs_db s) -> cs_poisoned s = false ->
  reset_locked cfg W actor input s = (r, s') ->
  served actor (ri_GatewayID input) (ri_IdempotencyKey input) ActionReset s r s'.
Proof.
  intros Hj Hp H. unfold reset_locked in H.
  apply x_bind_run in H as [([pred m0] & s1 & H1 & H)|(e & H1 & ->)]; [|apply inert_target in H1 as [? ?]; by apply served_nothing].
  pose proof (keeps_target _ _ _ _ H1) as Hp1. apply inert_target in H1 as [Hd1 Hl1].
  apply (served_after _ _ _ _ _ s1); try done. rewrite Hp in Hp1. rewrite <- Hd1 in Hj. clear Hd1 Hl1 Hp s. rename s1 into s, Hp1 into Hp.
  apply x_bind_run in H as [([] & s1 & H1 & H)|(e & H1 & ->)];
    [|destruct (sw_quiescent W); [unchanged_by H1|done]].
  assert (s1 = s) as -> by (destruct (sw_quiescent W); [done|by injection H1]).
  apply x_bind_run in H as [(id & s2 & H2 & H)|(e & H2 & ->)]; [|apply inert_new_id in H2 as [? ?]; by apply served_nothing].
  assert (s2 = s) as ->.
  { unfold new_operation_id in H2. destruct (sw_new_id W); [|done]. case_bool_decide; [done|]. by injection H2. }
  eapply admission_served in H; try done.
  - intros br d' Hb. eapply BeginReset_effect in Hb; [|done|apply Hcalls]. unfold reset_admitted in Hb. cbn in Hb.
    destruct br as [b|err]; cbn.
    + destruct Hb as (commit & Hadm & [[_ (o0 & c0 & Hcur & Hel & Hrv & Hb)]|[_ Hb]]); [left|by right].
      exists (cs_calls s), id, (Some (o_OperationID o0)), (Some (ri_Reason input)). split_and!; [done|done|]. eauto 10.
    + destruct Hb as [?|(-> & b & Hadm & [[_ (o0 & c0 & Hcur & Hel & Hrv & Hb)]|[? _]])]; [by left| |done]. right. exists id, b.
      split; [done|]. exists (cs_calls s), id, (Some (o_OperationID o0)), (Some (ri_Reason input)). split_and!; [done|done|]. eauto 10.
  - intros b replay Er. cbn zeta. rewrite Er. split; [|by intros ???; apply answer_no_secret].
    apply inert_answer. apply inert_check_replay.
  - intros b Er. cbn zeta. rewrite Er. destruct (_ || _ || _ || _ || _); [left; by eexists|by right].
Qed.

(** ** The service *)

Lemma keeps_admin actor : keeps_flags (require_admin W actor).
Proof.
  intros s [] s' H. unfold require_admin in H. apply bind_run in H as (a & s2 & H2 & H).
  apply repo_read_run in H2 as (_ & _ & _ & _ & _ & Hp2). destruct a as [[]|]; try done. injection H as <-. done.
Qed.

Lemma with_lock_served actor g key action (body : XM uuid ErrorCode (ProvisionResponse uuid)) s r s' :
  (cs_poisoned s = false -> forall s1 r1 s1', s1 = set_flags true false s -> body s1 = (r1, s1') -> served actor g key action s1 r1 s1') ->
  with_lock body s = (r, s') -> served actor g key action s r s'.
Proof.
  intros Hb H. unfold with_lock in H. destruct (cs_busy s || cs_poisoned s) eqn:E.
  - unchanged_by H.
  - apply orb_false_iff in E as [_ Ep]. rewrite Ep in H. destruct (body _) as [r1 s1] eqn:Eb in H. injection H as <- <-.
    specialize (Hb Ep _ _ _ eq_refl Eb). destruct Hb as [Hd Hl Hn|b err Hp0 -> Hp Hl Hi|b d1 Hp Hi Hr].
    + by apply served_nothing.
    + by eapply served_lost.
    + eapply served_ran; [done|exact Hi|]. exact Hr.
Qed.

Lemma mutateSimplified_served actor input action s r s' : journal_ok (cs_db s) -> action <> ActionReset ->
  mutateSimplified cfg W actor input action s = (r, s') ->
  served actor (mi_GatewayID input) (mi_IdempotencyKey input) action s r s'.
Proof.
  intros Hj Ha H. unfold mutateSimplified in H.
  destruct (negb _ || negb _) eqn:E; [unchanged_by H|].
  apply orb_false_iff in E as [_ E]. apply negb_false_iff, bool_decide_eq_true in E.
  destruct (negb _); [unchanged_by H|].
  apply x_bind_run in H as [([] & s1 & H1 & H)|(e & H1 & ->)]; [|apply inert_require_admin in H1 as [? ?]; by apply served_nothing].
  pose proof (keeps_admin _ _ _ _ H1) as Hp1.
  apply inert_require_admin in H1 as [Hd1 Hl1]. apply (served_after _ _ _ _ _ s1); try done.
  eapply with_lock_served; [|exact H]. intros _ s2 r2 s2' -> Hm. subst action. eapply mutate_locked_served in Hm; try done.
  cbn. by rewrite Hd1.
Qed.

Lemma service_Reset_served actor input s r s' : journal_ok (cs_db s) -> service_Reset cfg W actor input s = (r, s') ->
  served actor (ri_GatewayID input) (ri_IdempotencyKey input) ActionReset s r s'.
Proof.
  intros Hj H. unfold service_Reset in H.
  destruct (negb _); [unchanged_by H|].
  destruct (negb _); [unchanged_by H|].
  apply x_bind_run in H as [([] & s1 & H1 & H)|(e & H1 & ->)]; [|apply inert_require_admin in H1 as [? ?]; by apply served_nothing].
  pose proof (keeps_admin _ _ _ _ H1) as Hp1.
  apply inert_require_admin in H1 as [Hd1 Hl1]. apply (served_after _ _ _ _ _ s1); try done.
  apply x_bind_run in H as [(found & s2 & H2 & H)|(e & H2 & ->)]; unfold x_or in H2;
    apply bind_run in H2 as (a & s3 & H3 & H2); apply repo_read_run in H3 as (_ & Hd3 & Hl3 & _ & _ & Hp3).
  - destruct a as [f|]; [|done]. injection H2 as -> <-.
    apply (served_after _ _ _ _ _ s3); [done|rewrite Hl3; apply appends_refl|done|]. destruct found as [[o m]|].
    + destruct (negb _); [unchanged_by H|].
      destruct (replayResetOperation _ _ _ _); [|unchanged_by H].
      destruct (negb _); unchanged_by H.
    + eapply with_lock_served; [|exact H]. intros _ s4 r4 s4' -> Hm. eapply reset_locked_served in Hm; try done.
      cbn. by rewrite Hd3, Hd1.
  - destruct a as [f|err]; [done|]. injection H2 as _ <-. apply served_nothing; [done|rewrite Hl3; apply appends_refl|done].
Qed.

End served.

(** ** The theorems *)

(** A request of the administration API: the three mutations and the reset. *)
Inductive CRequest {uuid : Type} :=
| ProvisionRequest (actor : uuid) (input : MutationInput uuid)
| RotateRequest (actor : uuid) (input : MutationInput uuid)
| RevokeRequest (actor : uuid) (input : MutationInput uuid)
| ResetRequest (actor : uuid) (input : ResetInput uuid).
Arguments CRequest : clear implicits.

Section requests.
Context {uuid : Type} `{U : UuidLib uuid}.
Implicit Types (s : CState uuid) (d : CredentialDB uuid) (q : CRequest uuid) (o : Operation uuid) (W : ServiceWorld uuid).

Definition q_actor q : uuid :=
  match q with ProvisionRequest a _ | RotateRequest a _ | RevokeRequest a _ | ResetRequest a _ => a end.
Definition q_gateway q : string :=
  match q with ProvisionRequest _ i | RotateRequest _ i | RevokeRequest _ i => mi_GatewayID i | ResetRequest _ i => ri_GatewayID i end.
Definition q_key q : uuid :=
  match q with ProvisionRequest _ i | RotateRequest _ i | RevokeRequest _ i => mi_IdempotencyKey i | ResetRequest _ i => ri_IdempotencyKey i end.
Definition q_action q : Action :=
  match q with ProvisionRequest _ _ => ActionProvision | RotateRequest _ _ => ActionRotate | RevokeRequest _ _ => ActionRevoke
  | ResetRequest _ _ => ActionReset end.

(** The answer of the service; a revocation has a result only. *)
Definition serve cfg W q : XM uuid ErrorCode (ProvisionResponse uuid) :=
  match q with
  | ProvisionRequest actor input => service_Provision cfg W actor input
  | RotateRequest actor input => service_Rotate cfg W actor input
  | RevokeRequest actor input => let% r := service_Revoke cfg W actor input in x_ret (mkProvisionResponse r None)
  | ResetRequest actor input => service_Reset cfg W actor input
  end.

Lemma ran_revoked cfg d o log r s' : o_Action o = ActionRevoke -> ran cfg d o log r s' ->
  ran cfg d o log (match r with Ok resp => Ok (mkProvisionResponse (resp_Result resp) None) | Err e => Err e end) s'.
Proof.
  intros Ha (Hst & Hpl & Hend). split; [done|]. split; [done|]. destruct r as [resp|e]; [|done].
  destruct Hend as (o' & c' & sec & H1 & H2 & H3 & H4 & H5 & H6 & H7 & H8 & ->). exists o', c', sec.
  split_and!; try done. rewrite Ha. cbn. by rewrite bool_decide_eq_true_2.
Qed.

Lemma serve_served cfg W q s r s' : (forall n, call_ok (sw_call W n)) -> journal_ok (cs_db s) ->
  serve cfg W q s = (r, s') -> served cfg W (q_actor q) (q_gateway q) (q_key q) (q_action q) s r s'.
Proof.
  intros Hc Hj H. destruct q as [actor input|actor input|actor input|actor input]; cbn in H |- *;
    [by eapply mutateSimplified_served in H..| |by eapply service_Reset_served in H].
  unfold service_Revoke in H.
  assert (exists r0, mutateSimplified cfg W actor input ActionRevoke s = (r0, s')
    /\ r = match r0 with Ok resp => Ok (mkProvisionResponse (resp_Result resp) None) | Err e => Err e end) as (r0 & Hm & ->).
  { apply x_bind_run in H as [(m & s1 & H & [=<- <-])|(e & H & ->)];
      apply x_bind_run in H as [(resp & s2 & H & Hr)|(e' & H & Hr)]; try done.
    - injection Hr as <- <-. by exists (Ok resp).
    - injection Hr as <-. by exists (Err e). }
  apply mutateSimplified_served in Hm; [|done|done|done].
  destruct Hm as [Hd Hl Hn|b err Hp -> Hp' Hl Hi|b d1 Hp Hi Hr].
  - apply served_nothing; [done|done|]. intros resp Hr. destruct r0; [by injection Hr as <-|done].
  - by eapply served_lost.
  - eapply served_ran; [done|exact Hi|]. apply ran_revoked; [|done].
    destruct Hi as (n & id & pred & reason & _ & (v & c & -> & _) & _). done.
Qed.

(** An intent is made of the journal's own projection. *)
Lemma intent_step W d actor g key action (b : BeginResult uuid) d1 :
  intent_of W d actor g key action b d1 -> journal_step d d1.
Proof. intros (n & id & pred & reason & _ & Hb & _). by eapply begun_step. Qed.

Lemma served_steps cfg W actor g key action s r s' : served cfg W actor g key action s r s' ->
  rtc journal_step (cs_db s) (cs_db s').
Proof.
  intros [Hd _ _|b err _ _ _ _ Hi|b d1 _ Hi Hr]; [by rewrite Hd|by eapply rtc_once, intent_step|].
  eapply rtc_l; [by eapply intent_step|apply Hr].
Qed.

(** ** Histories *)

(** The process serves a request, or starts anew: only the tables survive. *)
Inductive Happening :=
| Served (q : CRequest uuid)
| Restarted.

Definition happen cfg (p : ServiceWorld uuid * Happening) s : CState uuid :=
  match snd p with
  | Served q => snd (serve cfg (fst p) q s)
  | Restarted => mkCState (cs_db s) (cs_calls s) (cs_log s) "" false false
  end.

Definition run_history cfg (h : list (ServiceWorld uuid * Happening)) s : CState uuid :=
  fold_left (fun s p => happen cfg p s) h s.

Definition empty_journal : CredentialDB uuid := mkCredentialDB ∅ ∅ ∅ ∅ [] [].

Lemma empty_journal_ok : journal_ok empty_journal.
Proof.
  split; try done; unfold recorded, current, empty_journal; cbn; intros.
  all: repeat match goal with H : _ !! _ = Some _ |- _ => rewrite lookup_empty in H; try done end.
Qed.

Lemma history_steps cfg h s : journal_ok (cs_db s) -> Forall (fun p => forall n, call_ok (sw_call (fst p) n)) h ->
  rtc journal_step (cs_db s) (cs_db (run_history cfg h s)).
Proof.
  intros Hj Hh. revert s Hj. induction Hh as [|[W e] h Hc _ IH]; intros s Hj; [done|].
  assert (rtc journal_step (cs_db s) (cs_db (happen cfg (W, e) s))) as Hst.
  { destruct e as [q|]; cbn; [|done]. destruct (serve cfg W q s) as [r s'] eqn:E. eapply served_steps, serve_served; done. }
  etrans; [exact Hst|]. apply IH. by apply (journal_steps_ok _ _ Hj Hst).
Qed.

(** C4 however the requests, the restarts, the answers of the database and of
    the broker follow each other, the journal stays consistent: one projection per
    Gateway that is the one of its last operation, versions never issued twice, at
    most one open operation; and it only grows: an operation is never forgotten or
    renamed, a settled or superseded one never changes, no observation is lost. *)
Theorem journal_history cfg h h' s :
  journal_ok (cs_db s) -> Forall (fun p => forall n, call_ok (sw_call (fst p) n)) (h ++ h') ->
  journal_ok (cs_db (run_history cfg (h ++ h') s))
  /\ audit_le (cs_db (run_history cfg h s)) (cs_db (run_history cfg (h ++ h') s)).
Proof.
  intros Hj Hh. apply list.Forall_app in Hh as [Hh1 Hh2]. pose proof (history_steps cfg h s Hj Hh1) as H1.
  apply journal_steps_ok in H1 as [Hj1 _]; [|done]. pose proof (history_steps cfg h' _ Hj1 Hh2) as H2.
  apply journal_steps_ok in H2 as [Hj2 Ha]; [|done]. unfold run_history in *. by rewrite fold_left_app.
Qed.

(** ** Answers *)

Lemma plan_same (o o' : Operation uuid) native created p : same_identity o o' -> plan o' native created p = plan o native created p.
Proof. intros ->. reflexivity. Qed.

Lemma current_projection d g c o : journal_ok d -> current d g c o -> row_snapshot c = projection_of o.
Proof.
  intros Hj Hcur. pose proof Hcur as (Hc & Hl & Hr & _). destruct (jo_current _ Hj _ _ Hc) as (ox & (_ & Hlx & Hrx & _) & _ & Hp & _).
  rewrite Hl in Hlx. injection Hlx as E. rewrite <- E in Hrx. by rewrite (recorded_inj _ _ _ _ Hr Hrx).
Qed.

Lemma active_projection d g c o : journal_ok d -> current d g c o -> o_Status o = OperationSucceeded ->
  o_Action o <> ActionRevoke -> cr_status c = CredentialActive /\ cr_version c = o_CredentialVersion o.
Proof.
  intros Hj Hcur Hs Ha. pose proof (current_projection _ _ _ _ Hj Hcur) as Hp. unfold projection_of in Hp.
  rewrite Hs, bool_decide_eq_false_2 in Hp by done. by injection Hp.
Qed.

(** C5 a secret is shown only for a success that is durable: the answer of a
    request of an administrator, whose operation is new in the journal, succeeded
    with the evidence of a login, and is the current operation of an active
    credential with a version no operation of the Gateway had before; the broker was
    sent the whole plan of the action with exactly this password. *)
Theorem secret_of_success cfg W q s resp secret s' :
  (forall n, call_ok (sw_call W n)) -> journal_ok (cs_db s) ->
  serve cfg W q s = (Ok resp, s') -> resp_Secret resp = Some secret ->
  exists o c n native created sent,
    current (cs_db s') (q_gateway q) c o /\ cr_status c = CredentialActive /\ cr_version c = o_CredentialVersion o
    /\ o_ActorUserID o = q_actor q /\ o_IdempotencyKey o = q_key q /\ o_Action o = q_action q
    /\ is_admin (sw_call W n) (q_actor q) = true
    /\ cd_events (cs_db s) !! o_OperationID o = None
    /\ (forall o', recorded (cs_db s) (o_OperationID o') o' -> o_GatewayID o' = q_gateway q ->
          o_CredentialVersion o' < o_CredentialVersion o)
    /\ o_Status o = OperationSucceeded /\ RAMApplied (o_Evidence o) = true /\ FreshPositiveVerified (o_Evidence o) = true
    /\ secret = mkSecretResult (metadata_of (q_gateway q) c o) (o_OperationID o) (sec_password secret)
    /\ validPassword (sec_password secret) = true
    /\ cs_log s' = cs_log s ++ sent /\ commands sent = plan o native created (sec_password secret)
    /\ cs_poisoned s' = false.
Proof.
  intros Hc Hj H Hsec. apply serve_served in H; [|done|done].
  destruct H as [_ _ Hn|b err _ Hr|b d1 _ (n & id & pred & reason & Hadm & Hb & _) Hr]; [by rewrite Hn in Hsec|done|].
  pose proof (begun_current _ _ _ _ _ _ _ _ _ _ _ Hj Hb) as (Hj1 & _). destruct Hb as (v & c0 & -> & -> & Ha). cbn in Hr.
  destruct Hr as (Hst & _ & o' & c' & sec & Hcur & Hok & Hsame & Hs & Hev & Hpo & (native & created & sent & Hlog & Hpl) & Hpw & ->).
  apply journal_steps_ok in Hst as [Hj' _]; [|done]. cbn in Hsec, Hpw, Hev. case_bool_decide as Hrv; [done|].
  injection Hsec as <-. destruct Hpw as [?|Hpw]; [done|].
  assert (o_Action o' = q_action q) as Hao by (by rewrite Hsame).
  assert (o_Action o' <> ActionRevoke) as Hrv' by congruence. cbn in Hcur.
  destruct (active_projection _ _ _ _ Hj' Hcur Hs Hrv') as [Hact Hver].
  unfold evidence_suffices in Hev. rewrite bool_decide_eq_true_2, (bool_decide_eq_false_2 (q_action q = _)) in Hev by done.
  cbn in Hev. rewrite andb_true_r in Hev. apply andb_true_iff in Hev as [Hev1 Hev2].
  exists o', c', n, native, created, sent. rewrite (plan_same _ _ _ _ _ Hsame).
  assert (o_OperationID o' = id /\ o_CredentialVersion o' = v /\ o_ActorUserID o' = q_actor q /\ o_IdempotencyKey o' = q_key q)
    as (Hid & Hv & Hac & Hk) by (rewrite Hsame; done).
  rewrite Hid, Hv in *. split_and!; try done; [apply Ha|]. by apply (ad_version _ _ _ Ha).
Qed.

(** The projection a failed operation leaves its Gateway: the one it found, or a
    failed one where there was none, with the operation as the last of the Gateway. *)
Definition refused_row o : CredentialRow uuid :=
  let found := default (mkSnapshot CredentialFailed (o_CredentialVersion o) None None) (o_Previous o) in
  mkCredentialRow (s_CredentialVersion found) (s_Status found) (Some (o_OperationID o)) (Some (o_ActorUserID o))
    (s_ActivatedAt found) (s_RevokedAt found) (o_ErrorCode o) (o_UpdatedAt o).

(** All the tables after a failed operation: its row, its Gateway's projection, and
    for a reset the disposition of the predecessor; nothing else differs. *)
Definition refused_tables d o : CredentialDB uuid :=
  mkCredentialDB (<[o_GatewayID o := refused_row o]> (cd_credentials d)) (<[o_OperationID o := row_of o]> (cd_events d))
    match o_ResetPredecessorID o with
    | Some p => <[p := mkDisposition (o_OperationID o) (o_GatewayID o) (default (ResetReasonOther "") (o_ResetReason o))]>
                  (cd_dispositions d)
    | None => cd_dispositions d
    end
    (cd_replacements d) (cd_maintenance d) (cd_recovery d).

Lemma settle_admitted d o c0 o' c' : same_identity o o' ->
  settle_intent (admit_intent d o c0) o' c' = admit_intent d o' c'.
Proof.
  intros ->. unfold settle_intent, admit_intent, with_disposition. cbn.
  destruct (o_ResetPredecessorID o); cbn; unfold set_credentials, set_events, set_dispositions; cbn;
    by rewrite !insert_insert_eq.
Qed.

Lemma refused_row_is d o0 c0 o c : settleable d o0 c0 o c -> o_Status o = OperationFailed ->
  cr_changed_by c0 = Some (o_ActorUserID o) -> c = refused_row o.
Proof.
  intros Hs Hst Hch. pose proof (se_projection _ _ _ _ _ Hs) as Hp. pose proof (se_last _ _ _ _ _ Hs) as Hl.
  pose proof (se_changed _ _ _ _ _ Hs) as Hc. pose proof (se_updated _ _ _ _ _ Hs) as Hu.
  pose proof (se_error _ _ _ _ _ Hs) as He. unfold shown_error in He. unfold projection_of in Hp. rewrite Hst in He, Hp.
  destruct c as [v st l ch act rev code up]. cbn in *. injection Hp as -> -> -> ->. rewrite Hc, Hch, Hl, Hu, He.
  unfold refused_row, previous_version, previous_activated, previous_revoked. by destruct (o_Previous o) as [[]|].
Qed.

Lemma refused_tables_is d o : refused_tables d o = admit_intent d o (refused_row o).
Proof. unfold refused_tables, admit_intent, with_disposition. by destruct (o_ResetPredecessorID o). Qed.

(** A settled failure of an intent is one more failed operation and nothing else. *)
Lemma restored_tables d o c0 d' : journal_ok d -> admissible d o c0 -> restored (admit_intent d o c0) o d' ->
  exists o', same_identity o o' /\ op_ok o' /\ o_Status o' = OperationFailed /\ d' = refused_tables d o'.
Proof.
  intros Hj Ha (o' & c1 & c' & Hs & -> & Hst). exists o'. pose proof (se_identity _ _ _ _ _ Hs) as Hsame.
  split_and!; [done|apply Hs|done|]. rewrite settle_admitted, refused_tables_is by done. f_equal.
  eapply refused_row_is; [done..|]. destruct (se_current _ _ _ _ _ Hs) as (Hc1 & _).
  assert (o_GatewayID o' = o_GatewayID o /\ o_ActorUserID o' = o_ActorUserID o) as [Hg Hac] by (by rewrite Hsame).
  rewrite admit_credentials, Hg, lookup_insert_eq in Hc1. injection Hc1 as <-. rewrite Hac. apply Ha.
Qed.

(** A reset is over the last operation of its Gateway, and nothing else is over one. *)
Lemma reset_over_last d o g action pred reason : op_ok o -> o_Action o = action -> o_ResetPredecessorID o = pred ->
  match pred with
  | None => action <> ActionReset
  | Some p => exists o0 c0 why, p = o_OperationID o0 /\ current d g c0 o0 /\ reason = Some why
                /\ CheckResetEligibility (metadata_of g c0 o0) o0 why = None /\ cr_revoked_at c0 = None
  end ->
  pred = if bool_decide (action = ActionReset) then cd_credentials d !! g ≫= cr_last_operation_id else None.
Proof.
  intros Hok Ha Hpr Hp. destruct pred as [p|]; [|by rewrite bool_decide_eq_false_2].
  destruct Hp as (o0 & c0 & why & -> & (Hc & Hl & _) & _).
  assert (action = ActionReset) as ->.
  { pose proof (ok_valid _ Hok) as Hv. unfold ValidateHistorical, action_valid in Hv. rewrite Ha, Hpr in Hv.
    rewrite !andb_true_iff in Hv. destruct Hv as [[[[[[[[[_ Hv] _] _] _] _] _] _] _] _]. by destruct action. }
  rewrite bool_decide_eq_true_2, Hc by done. by cbn.
Qed.

(** The failed operation that a refused request left: new, the request's own, over
    the projection it found, without evidence. *)
Definition refused_operation q d o : Prop :=
  cd_events d !! o_OperationID o = None /\ o_Status o = OperationFailed /\ o_Evidence o = no_evidence
  /\ o_ActorUserID o = q_actor q /\ o_IdempotencyKey o = q_key q /\ o_GatewayID o = q_gateway q
  /\ o_Action o = q_action q /\ o_Previous o = row_snapshot <$> cd_credentials d !! q_gateway q
  /\ (o_ResetPredecessorID o = if bool_decide (q_action q = ActionReset)
                               then cd_credentials d !! q_gateway q ≫= cr_last_operation_id else None).

(** C16 a request that is refused and leaves the service fit for more has changed
    nothing: no command was sent that changes the broker, and the tables are as they
    were, or exactly as they were with one failed operation added and its Gateway's
    row put back to the projection it had (failed where there was none), and for a
    reset the disposition of the operation it was to replace; no other row of any
    table differs. *)
Theorem refusal_is_clean cfg W q s code s' :
  (forall n, call_ok (sw_call W n)) -> journal_ok (cs_db s) ->
  serve cfg W q s = (Err code, s') -> cs_poisoned s' = false ->
  (exists sent, cs_log s' = cs_log s ++ sent /\ Forall (fun ev => mutating ev = false) sent)
  /\ (cs_db s' = cs_db s
      \/ exists o c, refused_operation q (cs_db s) o /\ c = refused_row o /\ cs_db s' = refused_tables (cs_db s) o
          /\ current (cs_db s') (q_gateway q) c o
          /\ row_snapshot c = match cd_credentials (cs_db s) !! q_gateway q with
                              | Some c0 => row_snapshot c0
                              | None => mkSnapshot CredentialFailed (o_CredentialVersion o) None None
                              end).
Proof.
  intros Hc Hj H Hp.
  assert (forall l, appends (cs_log s) l [] -> exists sent, l = cs_log s ++ sent /\ Forall (fun ev => mutating ev = false) sent) as Hsent.
  { intros l (l0 & -> & Hl0). exists l0. split; [done|]. apply list.Forall_forall. intros ev Hev. apply not_true_iff_false. intros Hm.
    apply (not_elem_of_nil ev). rewrite <- Hl0. unfold commands. apply list_elem_of_filter. split; [|done]. unfold notable. by rewrite Hm. }
  apply serve_served in H; [|done|done].
  destruct H as [Hd Hl _|b err _ _ Hp'|b d1 _ (n & id & pred & reason & _ & Hb & Hpred) Hr]; [by split; [apply Hsent|left]|congruence|].
  destruct Hb as (v & c0 & -> & -> & Ha). cbn in Hr.
  destruct Hr as (_ & _ & [?|[Hl Hre]]); [congruence|]. split; [by apply Hsent|right].
  apply restored_tables in Hre as (o' & Hsame & Hok & Hst & Hd); [|done|done]. exists o', (refused_row o').
  assert (refused_operation q (cs_db s) o') as Hro.
  { unfold refused_operation. rewrite Hst, (ok_failed _ Hok Hst). rewrite Hsame. cbn. split_and!; try done; [apply Ha|].
    eapply reset_over_last; [apply Ha|done..]. }
  split_and!; try done.
  - destruct Hro as (_ & _ & _ & _ & _ & <- & _). rewrite Hd. split_and!; [apply lookup_insert_eq|done| |done].
    unfold recorded. apply lookup_insert_eq.
  - destruct Hro as (_ & _ & _ & _ & _ & _ & _ & Hprev & _). unfold refused_row. rewrite Hprev.
    by destruct (cd_credentials (cs_db s) !! q_gateway q) as [[]|].
Qed.

(** C17 an idempotency key runs once: a request whose actor and key name an
    operation of the journal, settled or not, for this Gateway or another, has no
    effect on the tables and the broker, and its answer carries no secret. *)
Theorem key_runs_once cfg W q s r s' o :
  (forall n, call_ok (sw_call W n)) -> journal_ok (cs_db s) -> recorded (cs_db s) (o_OperationID o) o ->
  o_ActorUserID o = q_actor q -> o_IdempotencyKey o = q_key q -> serve cfg W q s = (r, s') ->
  cs_db s' = cs_db s /\ (exists sent, cs_log s' = cs_log s ++ sent /\ commands sent = [])
  /\ (forall resp, r = Ok resp -> resp_Secret resp = None).
Proof.
  intros Hc Hj Hr Ha Hk H. apply serve_served in H; [|done|done].
  assert (forall W' b d1, ~ intent_of W' (cs_db s) (q_actor q) (q_gateway q) (q_key q) (q_action q) b d1) as Hno.
  { intros W' b d1 (n & id & pred & reason & _ & (v & c & _ & _ & Had) & _). by apply (ad_key _ _ _ Had _ Hr). }
  destruct H as [Hd Hl Hn|b err _ _ _ _ Hi|b d1 _ Hi _]; [by split_and!|exfalso; by eapply Hno in Hi..].
Qed.

(** Nothing can be asked of this credential any more: a failed reset has put back a
    projection that needs recovery, or an operation that needs recovery has kept the
    time of an old revocation. *)
Definition locked_out (c : CredentialRow uuid) o : Prop :=
  (o_Status o = OperationFailed /\ (cr_status c = CredentialRecoveryNeeded \/ transient (cr_status c) = true))
  \/ (o_Status o = OperationRecoveryNeeded /\ cr_revoked_at c <> None).

Lemma locked_out_intent W d actor g key action b d1 c o : journal_ok d -> current d g c o -> locked_out c o ->
  ~ intent_of W d actor g key action b d1.
Proof.
  intros Hj Hcur Hlock (n & id & pred & reason & _ & (v & c0 & _ & _ & Ha) & Hpred).
  pose proof Hcur as (Hc & Hl & Hr & _). destruct pred as [p|].
  - destruct Hpred as (o0 & c1 & why & _ & (Hc1 & Hl1 & Hr1 & _) & _ & Hel & Hrv). rewrite Hc in Hc1. injection Hc1 as <-.
    rewrite Hl in Hl1. injection Hl1 as E. rewrite <- E in Hr1. pose proof (recorded_inj _ _ _ _ Hr Hr1) as <-.
    destruct Hlock as [[Hs Hst]|[Hs Hst]]; [|done]. unfold CheckResetEligibility in Hel. rewrite Hs in Hel.
    repeat case_match; try done; cbn in *; done.
  - pose proof (ok_previous _ (ad_ok _ _ _ Ha)) as Hpa. unfold previous_admits in Hpa. cbn in Hpa. rewrite Hc in Hpa. cbn in Hpa.
    assert (cr_status c = CredentialRecoveryNeeded \/ transient (cr_status c) = true) as Hst.
    { destruct Hlock as [[_ ?]|[Hs _]]; [done|left]. pose proof (current_projection _ _ _ _ Hj Hcur) as Hp.
      unfold projection_of in Hp. rewrite Hs in Hp. by injection Hp. }
    rewrite (bool_decide_eq_false_2 (action = ActionReset)) in Hpa by done.
    destruct action; try done; destruct (cr_status c); cbn in Hpa; naive_solver.
Qed.

(** C18 a Gateway whose last reset failed over a projection that needs recovery, or
    whose operation needs recovery after an old revocation, is locked out: no request
    for it, whatever its action, reason and key, whoever sends it and however the
    database and the broker answer, has any effect. *)
Theorem locked_out_for_ever cfg W q s r s' c o :
  (forall n, call_ok (sw_call W n)) -> journal_ok (cs_db s) -> current (cs_db s) (q_gateway q) c o -> locked_out c o ->
  serve cfg W q s = (r, s') ->
  cs_db s' = cs_db s /\ (exists sent, cs_log s' = cs_log s ++ sent /\ commands sent = [])
  /\ (forall resp, r = Ok resp -> resp_Secret resp = None).
Proof.
  intros Hc Hj Hcur Hlock H. apply serve_served in H; [|done|done].
  destruct H as [Hd Hl Hn|b err _ _ _ _ Hi|b d1 _ Hi _]; [by split_and!|exfalso; by eapply locked_out_intent in Hi..].
Qed.

End requests.
