(* ===== verification/CredentialDemo.v ===== *)
(** * The credential theorems at work

    One Gateway: provisioned, then rotated while the broker cannot be reached,
    then rotated while it fails half-way, and reset while it cannot be reached. *)

From S2P Require Import Prelude GoStrings GoTime GoFloat GoJson Identity Uuid Telemetry.
From S2P Require Import Txn HistoryQuery Cursor Credential CredentialStore CredentialExecutor CredentialService.
From S2P Require Import CredentialJournal CredentialEffects CredentialServiceSpec.
Import Canonical.
#[local] Open Scope Z_scope.

Definition admin1 : cuuid := mk "aaaaaaaa-aaaa-4aaa-8aaa-aaaaaaaaaaaa" eq_refl.
Definition key1 : cuuid := mk "b0000000-0000-4000-8000-000000000001" eq_refl.
Definition key2 : cuuid := mk "b0000000-0000-4000-8000-000000000002" eq_refl.
Definition key3 : cuuid := mk "b0000000-0000-4000-8000-000000000003" eq_refl.
Definition key4 : cuuid := mk "b0000000-0000-4000-8000-000000000004" eq_refl.
Definition op1 : cuuid := mk "c0000000-0000-4000-8000-000000000001" eq_refl.
Definition op2 : cuuid := mk "c0000000-0000-4000-8000-000000000002" eq_refl.
Definition op3 : cuuid := mk "c0000000-0000-4000-8000-000000000003" eq_refl.
Definition op4 : cuuid := mk "c0000000-0000-4000-8000-000000000004" eq_refl.

Definition credential_noon : Z := 1777890030000000000.

Definition calm_call : CallWorld cuuid := mkCallWorld {["gw-1"]} {[admin1]} Works [] CommitOk credential_noon.

(** ** A broker that remembers what it was sent *)

Definition has_event (ev : Event -> bool) (log : list Event) : bool := existsb ev log.
Definition created_client : list Event -> bool := has_event (fun ev => match ev with EvCreateClient _ => true | _ => false end).
Definition created_role : list Event -> bool := has_event (fun ev => match ev with EvCreateRole _ _ => true | _ => false end).
Definition given_role : list Event -> bool := has_event (fun ev => match ev with EvAddClientRole _ _ => true | _ => false end).
Definition is_disabled (log : list Event) : bool :=
  fold_left (fun b ev => match ev with EvDisableClient _ => true | EvEnableClient _ => false | _ => b end) log false.

(** [broken]: the commands it fails. *)
Definition broker (broken : Event -> bool) : BrokerEnv := mkBrokerEnv
  (fun _ => false)
  (fun log => match list.last log with
              | Some ev =>
                  if broken ev then Some (ErrBroker "no answer") else
                  match ev with
                  | EvGetClient _ => if created_client log then None else Some ErrClientAbsent
                  | EvGetRole _ => if created_role log then None else Some ErrRoleAbsent
                  | _ => None
                  end
              | None => None
              end)
  (fun log => mkClientMetadata "gw-1" (is_disabled log) (if given_role log then ["gateway_gw-1"] else []) [] "")
  (fun log => Some ("gateway_gw-1", adapterGatewayACLs "gw-1"))
  (fun _ => Some "Zm9vYmFyYmF6Zm9vYmFyYmF6Zm9vYmFyYmF6MDAxMjM=").

Definition working : BrokerEnv := broker (fun _ => false).
Definition unreachable : BrokerEnv := broker (fun ev => bool_decide (ev = EvNewClient)).
Definition half_way : BrokerEnv := broker (fun ev => match ev with EvSetClientPassword _ _ => true | _ => false end).

Definition demo_cfg : SimplifiedDynSecConfig := mkDynSecConfig ["operator"; "backend_service"] true qualified.

Definition world (b : BrokerEnv) (id : cuuid) : ServiceWorld cuuid :=
  mkServiceWorld (fun _ => calm_call) (fun _ => credential_noon) true (Some id) None b.

Lemma world_calls b id n : call_ok (sw_call (world b id) n).
Proof. split; [vm_compute; reflexivity|constructor]. Qed.

(** ** The history *)

Definition provision_request : CRequest cuuid := ProvisionRequest admin1 (mkMutationInput "gw-1" key1 ActionProvision).
Definition rotate_request (key : cuuid) : CRequest cuuid := RotateRequest admin1 (mkMutationInput "gw-1" key ActionRotate).
Definition reset_request (key : cuuid) : CRequest cuuid :=
  ResetRequest admin1 (mkResetInput "gw-1" key ResetReasonRecoveryAfterUnknown).

Definition first_state : CState cuuid := mkCState empty_journal O [] "" false false.
Definition provisioned : CState cuuid := snd (serve demo_cfg (world working op1) provision_request first_state).
(** Rotated half-way, the process restarted, and a reset that could not reach the
    broker. *)
Definition to_lock_out : list (ServiceWorld cuuid * Happening) :=
  [(world working op1, Served provision_request); (world half_way op2, Served (rotate_request key2));
   (world working op2, Restarted); (world unreachable op3, Served (reset_request key3))].
Definition locked : CState cuuid := run_history demo_cfg to_lock_out first_state.

Lemma demo_calls : Forall (fun p : ServiceWorld cuuid * Happening => forall n, call_ok (sw_call (fst p) n)) to_lock_out.
Proof. repeat constructor; vm_compute; reflexivity. Qed.

Lemma first_ok : journal_ok (cs_db first_state).
Proof. exact empty_journal_ok. Qed.

Lemma provisioned_ok : journal_ok (cs_db provisioned).
Proof.
  apply (journal_steps_ok (cs_db first_state) _ first_ok).
  refine (history_steps demo_cfg [(world working op1, Served provision_request)] first_state first_ok _).
  constructor; [intros n; apply world_calls|constructor].
Qed.

Lemma locked_ok : journal_ok (cs_db locked).
Proof. exact (proj1 (journal_steps_ok _ _ first_ok (history_steps demo_cfg to_lock_out first_state first_ok demo_calls))). Qed.

Example demo_given : cr_status <$> cd_credentials (cs_db provisioned) !! "gw-1" = Some CredentialActive.
Proof. vm_compute. reflexivity. Qed.

Example demo_locked : (fun c => (cr_status c, cr_version c)) <$> cd_credentials (cs_db locked) !! "gw-1"
  = Some (CredentialRecoveryNeeded, 1).
Proof. vm_compute. reflexivity. Qed.

(** ** Witnesses *)

Lemma journal_history_witness : journal_ok (cs_db locked) /\ size (cd_events (cs_db locked)) = 3%nat.
Proof.
  split; [|vm_compute; reflexivity].
  exact (proj1 (journal_history demo_cfg to_lock_out [] first_state first_ok
                  (eq_ind_r (fun h => Forall (fun p => forall n, call_ok (sw_call (fst p) n)) h) demo_calls (app_nil_r to_lock_out)))).
Defined.

(** The password of an answer, for evaluation. *)
Definition shown (r : res ErrorCode (ProvisionResponse cuuid)) : option string :=
  match r with Ok resp => sec_password <$> resp_Secret resp | Err _ => None end.

Lemma shown_inv r p : shown r = Some p -> exists resp secret, r = Ok resp /\ resp_Secret resp = Some secret /\ sec_password secret = p.
Proof.
  destruct r as [[result [secret|]]|]; cbn; try discriminate. intros E. injection E as <-.
  exists (mkProvisionResponse result (Some secret)), secret. split; [reflexivity|]. split; reflexivity.
Qed.

Definition provisioning : res ErrorCode (ProvisionResponse cuuid) * CState cuuid :=
  serve demo_cfg (world working op1) provision_request first_state.

Lemma demo_shown : shown (fst provisioning) = Some "Zm9vYmFyYmF6Zm9vYmFyYmF6Zm9vYmFyYmF6MDAxMjM=".
Proof. vm_compute. reflexivity. Qed.

Lemma secret_of_success_witness : exists o c native created sent,
  current (cs_db (snd provisioning)) "gw-1" c o /\ cr_status c = CredentialActive
  /\ cs_log (snd provisioning) = sent
  /\ commands sent = plan o native created "Zm9vYmFyYmF6Zm9vYmFyYmF6Zm9vYmFyYmF6MDAxMjM=".
Proof.
  destruct (shown_inv _ _ demo_shown) as (resp & secret & Hr & Hs & Hp).
  destruct (secret_of_success demo_cfg (world working op1) provision_request first_state resp secret (snd provisioning)
              (world_calls working op1) first_ok) as
    (o & c & n & native & created & sent & Hcur & Hact & _ & _ & _ & _ & _ & _ & _ & _ & _ & _ & _ & _ & Hl & Hc & _).
  - change (serve demo_cfg (world working op1) provision_request first_state) with provisioning. rewrite <- Hr.
    apply surjective_pairing.
  - exact Hs.
  - exists o, c, native, created, sent. rewrite Hp in Hc. split; [exact Hcur|]. split; [exact Hact|]. split; [exact Hl|exact Hc].
Defined.

(** A rotation that cannot reach the broker. *)
Definition rotating : res ErrorCode (ProvisionResponse cuuid) * CState cuuid :=
  serve demo_cfg (world unreachable op2) (rotate_request key2) provisioned.

Lemma rotating_event : size (cd_events (cs_db provisioned)) = 1%nat /\ size (cd_events (cs_db (snd rotating))) = 2%nat.
Proof. split; vm_compute; reflexivity. Qed.

Lemma refusal_is_clean_witness :
  (exists sent, cs_log (snd rotating) = cs_log provisioned ++ sent /\ Forall (fun ev => mutating ev = false) sent)
  /\ exists o, refused_operation (rotate_request key2) (cs_db provisioned) o
        /\ cs_db (snd rotating) = refused_tables (cs_db provisioned) o.
Proof.
  destruct (refusal_is_clean demo_cfg (world unreachable op2) (rotate_request key2) provisioned CodeRecoveryRequired (snd rotating)
           (world_calls unreachable op2) provisioned_ok) as [Hsent [Hsame|(o & c & Ho & _ & Hd & _)]].
  - change (serve demo_cfg (world unreachable op2) (rotate_request key2) provisioned) with rotating.
    assert (fst rotating = Err CodeRecoveryRequired) as E by (vm_compute; reflexivity). rewrite <- E. apply surjective_pairing.
  - vm_compute. reflexivity.
  - exfalso. destruct rotating_event as [H1 H2]. rewrite Hsame, H1 in H2. discriminate H2.
  - split; [exact Hsent|]. exists o. split; [exact Ho|exact Hd].
Defined.

(** The state after the failed reset is locked out, for a broker that works too. *)
Definition locked_row (d : CredentialDB cuuid) (g : string) : bool :=
  match cd_credentials d !! g with
  | Some c =>
      bool_decide (cr_status c = CredentialRecoveryNeeded)
      && match cr_last_operation_id c ≫= fun id => cd_events d !! id with
         | Some e => bool_decide (ev_status e = OperationFailed)
         | None => false
         end
  | None => false
  end.

Lemma locked_row_inv d g : journal_ok d -> locked_row d g = true -> exists c o, current d g c o /\ locked_out c o.
Proof.
  intros Hj H. unfold locked_row in H. destruct (cd_credentials d !! g) as [c|] eqn:Hc; [|discriminate H].
  destruct (jo_current _ Hj _ _ Hc) as (o & Hcur & _). exists c, o. split; [exact Hcur|].
  destruct Hcur as (_ & Hl & Hr & _). unfold recorded in Hr. rewrite Hl in H.
  unfold mbind, option_bind in H. rewrite Hr in H.
  apply andb_true_iff in H as [Hs Ho]. apply bool_decide_eq_true in Hs, Ho. left. split; [exact Ho|left; exact Hs].
Qed.

Lemma demo_locked_row : locked_row (cs_db locked) "gw-1" = true.
Proof. vm_compute. reflexivity. Qed.

Lemma locked_out_for_ever_witness : exists c o, current (cs_db locked) "gw-1" c o /\ locked_out c o
  /\ cs_db (snd (serve demo_cfg (world working op4) (reset_request key4) locked)) = cs_db locked.
Proof.
  destruct (locked_row_inv _ _ locked_ok demo_locked_row) as (c & o & Hcur & Hlock). exists c, o.
  split; [exact Hcur|]. split; [exact Hlock|].
  apply (locked_out_for_ever demo_cfg (world working op4) (reset_request key4) locked
           (fst (serve demo_cfg (world working op4) (reset_request key4) locked)) _ c o
           (world_calls working op4) locked_ok Hcur Hlock).
  apply surjective_pairing.
Defined.

(** Asked again with its key, the provisioning is answered from the journal. *)
Definition provisioned_again : res ErrorCode (ProvisionResponse cuuid) * CState cuuid :=
  serve demo_cfg (world working op4) provision_request provisioned.

Lemma demo_first_operation : exists o, recorded (cs_db provisioned) (o_OperationID o) o
  /\ o_ActorUserID o = admin1 /\ o_IdempotencyKey o = key1.
Proof.
  destruct (cd_events (cs_db provisioned) !! op1) as [e|] eqn:He.
  - assert ((fun e => (ev_actor_user_id e, ev_idempotency_key e)) <$> cd_events (cs_db provisioned) !! op1
      = Some (Some admin1, Some key1)) as Hk by (vm_compute; reflexivity).
    rewrite He in Hk. destruct (jo_event _ provisioned_ok _ _ He) as (o & -> & Hid & _). injection Hk as Ha Hk.
    exists o. rewrite Hid. split; [exact He|]. split; [exact Ha|exact Hk].
  - assert (bool_decide (is_Some (cd_events (cs_db provisioned) !! op1)) = true) as Hs by (vm_compute; reflexivity).
    apply bool_decide_eq_true in Hs. rewrite He in Hs. destruct Hs as [e Hs]. discriminate Hs.
Qed.

Lemma key_runs_once_witness : shown (fst provisioned_again) = None
  /\ cs_db (snd provisioned_again) = cs_db provisioned
  /\ exists resp, fst provisioned_again = Ok resp /\ resp_Secret resp = None.
Proof.
  split; [vm_compute; reflexivity|].
  destruct demo_first_operation as (o & Hr & Ha & Hk).
  destruct (key_runs_once demo_cfg (world working op4) provision_request provisioned (fst provisioned_again) (snd provisioned_again) o
              (world_calls working op4) provisioned_ok Hr Ha Hk (surjective_pairing provisioned_again)) as (Hd & _ & Hn).
  split; [exact Hd|]. destruct (fst provisioned_again) as [resp|err] eqn:E.
  - exists resp. split; [reflexivity|]. apply Hn. reflexivity.
  - assert (match fst provisioned_again with Ok _ => true | Err _ => false end = true) as Hok by (vm_compute; reflexivity).
    rewrite E in Hok. discriminate Hok.
Defined.

(** The executor on its own. *)
Definition demo_operation : Operation cuuid :=
  new_op credential_noon op1 "gw-1" 1 ActionProvision admin1 key1 None None None.

#[local] Notation executed :=
  (owned_Execute working demo_cfg demo_operation (Some (generator (world working op1))) first_state).

Lemma demo_executed : fst executed = (mkExecutionResult op1 ExecutionVerifiedSuccess login_verified true, None).
Proof. vm_compute. reflexivity. Qed.

Lemma Execute_planned_witness : exists s' sent, cs_log s' = [] ++ sent
  /\ execution demo_cfg demo_operation (mkExecutionResult op1 ExecutionVerifiedSuccess login_verified true) None
       (cs_secret s') (commands sent).
Proof.
  pose proof demo_executed as H. destruct executed as [[r err] s'] eqn:E. cbn in H. injection H as -> ->. exists s'.
  exact (proj2 (Execute_planned working demo_cfg demo_operation (Some (generator (world working op1))) first_state
    _ _ s' (generator_generates (world working op1)) E)).
Defined.

(** A joined error of two refusals. *)
Lemma inspectAdmissionError_spec_witness :
  inspectAdmissionError (Some (JoinError [WrapError (DomainError CodeForbidden); @DomainError cuuid CodeNotFound])) = (true, CodeForbidden)
  /\ (nodes (JoinError [WrapError (DomainError CodeForbidden); @DomainError cuuid CodeNotFound]) <= 64)%nat.
Proof.
  split; [reflexivity|].
  apply (inspectAdmissionError_spec (JoinError [WrapError (DomainError CodeForbidden); @DomainError cuuid CodeNotFound]) true CodeForbidden).
  reflexivity.
Defined.
